(* ===== verification/_CoqProject ===== *)
-Q . S2P
Prelude.v
Float.v
Layout.v
ReplayBuffer.v
Restart.v
TermQuery.v
Scanner.v
Clients.v
Outbox.v
PaneStream.v
Attach.v
AttachProps.v
Supervision.v
Launch.v
Persistence.v
Engine.v
EngineInv.v
EngineProps.v
EngineConc.v
Listener.v
Auth.v
Startup.v
ClientInput.v
ClientLoop.v
VtCell.v
VtRow.v
VtGrid.v
VtGridInv.v
VtReflow.v
VtReflowWiden.v
VtReflowNarrow.v
VtScreen.v
VtDraw.v
VtScreenProps.v
VtResize.v
VtRender.v
VtRenderPen.v
VtPaint.v
VtPaintRow.v
VtRenderProps.v
VtHandoff.v
VtParser.v
Handoff.v
Spawn.v
VtLinks.v
Snapshot.v
PaneTerm.v
Service.v
ServiceProps.v
Commands.v
