(* ===== verification/Prelude.v ===== *)
(** * tymux: a verification development

    tymux is a terminal multiplexer: a daemon ([crates/tymuxd]) keeps shells alive in
    pseudo-terminals, and a client ([crates/tymux-cli]) attaches to them. The library
    [crates/tymux-core] holds the sessions, windows and panes; [crates/vt100] is the terminal
    emulator that keeps each pane's screen. This library models the logic of these four
    crates and proves what each part promises. Paths below are relative to [src/].

    ** How the parts interact

    - A process writes to its pseudo-terminal. The pane's reader thread feeds the bytes to the
      emulator ([VtScreen]), has them scanned for terminal queries ([Scanner]), stores the
      stripped chunk in the replay buffer ([ReplayBuffer]) and broadcasts it ([PaneStream]). A
      query nobody attached will answer is answered by the daemon ([TermQuery], [Clients])
      through a rate-limited queue ([Outbox]).
    - A client attaches, is primed from the replay buffer or from a snapshot, and is then
      forwarded what is broadcast ([Attach]). Its own side turns keys into bytes or actions
      ([ClientInput]) and runs the attach loop and copy mode ([ClientLoop]).
    - When a process exits, supervision ([Supervision]) consults the lifecycle machine
      ([Restart]) and may respawn it with its launch description ([Launch]).
    - The engine ([Engine]) owns the sessions, their layout trees ([Layout]), the map of panes,
      the reverse index and supervision; it saves sessions ([Persistence]) and loads them.
    - Requests reach the engine and the panes through the handlers of [Service], which also take
      pictures of screens and search scrollback ([Snapshot]).
    - The process of a pane is started by [Spawn].
    - The daemon comes up and goes down as [Startup] says; its listeners are guarded and kept
      alive by [Auth] and [Listener]. The client finds it, names panes by their place in the
      listing and sends the requests of its commands ([Commands]).
    - Around a replacement of the daemon every pane is frozen, exported and adopted by the new
      image ([Handoff]); its screen travels as the escape sequences that paint it ([VtRender],
      [VtHandoff]).

    ** Files

    Core library ([crates/tymux-core/src]):
    - [Prelude]: machine integers, results, the shared tactics, hints and lemmas.
    - [Float]: the [f32]/[f64] operations the code uses, on the Standard Library's [spec_float].
    - [Layout]: [layout.rs]. A window's split tree ([Layout]), [compute_geometry], [split],
      [remove].
    - [ReplayBuffer]: [replay_buffer.rs] and the scrollback budget of [pane.rs].
    - [Restart]: [restart.rs]. [RestartPolicy], [PaneSupervisor] and its transitions.
    - [TermQuery]: [terminal_query.rs]. [Scanner], [Clients], [Outbox]: the files of the same
      name below [terminal_query/].
    - [PaneStream]: the output side of [pane.rs], as steps of the reader thread.
    - [Supervision]: [supervision.rs] and the parts of [pane.rs] it drives (respawn, terminate,
      retire, the exit path of the reader thread).
    - [Launch]: [launch.rs]. [Spawn]: [spawn.rs] and [start_process] of [pane.rs].
      [Persistence]: [persistence.rs].
    - [Snapshot]: the snapshots and the scrollback search of [pane.rs]. [Handoff] and
      [VtHandoff]: [pane/handoff.rs] and [assemble] of [pane.rs]; the panes and their
      descriptors in the first, the screen in the second.
    - [Engine]: [engine.rs], every operation as one function; [EngineInv]: its invariant and
      that the operations keep it; [EngineProps]: its properties, for operations that do not
      overlap; [EngineConc]: the operations cut where they release a lock, and what holds of all
      their interleavings.
    - [PaneTerm]: the emulator of [vt100] as the engine resizes it ([resize] of [pane.rs]), an
      instance of the class [Emulator] of [Engine].

    Daemon ([crates/tymuxd/src]):
    - [Attach]: the [attach] handler of [main.rs]; [AttachProps]: its properties together with
      [PaneStream].
    - [Service]: the request handlers of [main.rs], with standard input and, of attach streams,
      the input, the resizes and the bookkeeping; [ServiceProps]: their properties together with
      the engine.
    - [Listener]: [listener_health.rs]. [Auth]: [auth.rs] and the part of [main] that decides
      how a listener is guarded. [Startup]: the rest of [main], the lock on the socket, the
      health probe, the drain and the exit status.

    Client ([crates/tymux-cli/src]):
    - [ClientInput]: [config.rs], [input.rs]. [ClientLoop]: [copy_mode.rs], [status_bar.rs] and
      the attach loop of [main.rs]. [Commands]: connecting, targets and the commands of
      [main.rs], on top of [Service].

    Terminal emulator ([crates/vt100/src]):
    - [VtCell]: [attrs.rs], [cell.rs]. [VtRow]: [row.rs]. [VtGrid]: [grid.rs]; [VtGridInv]: its
      operations keep a well-formed grid. [VtScreen]: [screen.rs], [perform.rs]; [VtDraw]:
      safety of drawing; [VtScreenProps]: properties of the whole emulator.
    - [VtReflow]: [grid/reflow.rs]; [VtReflowWiden], [VtReflowNarrow]: the invariants of its two
      loops; [VtResize]: properties of resizing.
    - [VtRender]: [term.rs] and the [write_] functions of [attrs.rs], [row.rs], [grid.rs] and
      [screen.rs]. [VtRenderPen], [VtPaint], [VtPaintRow]: what a terminal makes of what they
      write, from one attribute to a whole row; [VtRenderProps]: the round trip.
    - [VtLinks]: hyperlinks, title and the other operating-system commands of [screen.rs] and
      [perform.rs]. [VtParser]: [parser.rs].

    ** Conventions

    Integers are [Z], with saturation, overflow and casts written out at their width; a
    computation of Rust that would panic (an index out of range, a failed [expect], an
    arithmetic overflow of a checked build) is [None], so "returns" always includes "does not
    panic". Fallible code returns [result]. Mutable state is passed explicitly, and threads
    interleave as the rules of an inductive step relation ([os_step], the steps of
    [PaneStream], [Attach], [Supervision], [Handoff] and [Startup], [conc_step] of
    [EngineConc]), at the granularity of the locks: what runs under one lock is one step.
    [Engine], [Service] and [Commands] give a call as one function; their theorems are about
    calls that do not overlap, and [EngineConc] is about those that do. Shared objects
    (panes, client slots) live in a heap and are named by reference; a weak reference may
    dangle.

    Code outside the repository, and the operating system, is never defined here. It is
    reached through classes whose laws state its documented behaviour ([VteParser], [Memchr],
    [UnicodeWidth], [RecordCodec], [FileSystem], [PersistenceBackend], [PosixSpawn],
    [UuidText]; [Emulator] is what the engine asks of the repository's own emulator) or is an
    argument (the clock, random samples, [f64::powi], the outcome of a system call). [Screen]
    is the interface through which [TermQuery] sees the emulator.

    ** What the theorems show

    - Engine: as long as no two calls overlap, layouts, pane map, reverse index and supervision
      agree in every reachable state, reader threads included. When calls overlap, the parts of
      one that is not interrupted are the call; sessions, windows and layouts stay well formed
      in every interleaving; and the calls panic in exactly two places, a split whose session is
      removed meanwhile and a resize to no rows or columns. A recompute that leaves each running
      pane a row and a column gives it, and its emulator, its rectangle of the tiling; closing
      what a split created restores the state; killing a session removes exactly its panes; a
      refused revive changes nothing.
    - Layout: the geometry tiles the window exactly; split and remove, on every branch.
    - Streaming: the reader, the screen, the replay buffer and the broadcast stay consistent;
      what an attached client has been sent is the stream from its priming on, in order and
      once, with every hole marked in its place, as far as its receiver has come; it can catch
      up by its own steps; the queries of a chunk are left to one side, never to both. The
      replay buffer keeps every suffix of the output that fits its budget. The scanner loses
      nothing, and what it skips holds no query. Replies are written in order, at most once and
      to the right generation, and no reply but one is itself a query.
    - Supervision: the lifecycle invariant, honoured stops, the restart budget between an
      operator's resets, termination of crash loops, bounds of delays up to 2^53; supervision
      refines the lifecycle machine; a published exit has its verdict; a forgotten pane never
      restarts.
    - Disk and launch: what is written is accepted and read back, a save is atomic, and a
      prepared launch is what was described. A child is started with the program, directory,
      environment and descriptors of its launch, and a failed start leaves nothing open.
    - Terminal: no sequence of characters, control sequences and resizes to at least one row and
      column panics, with a line of scrollback; the screen keeps its shape, its wide characters
      and its limits; a cell's text is read back as it was written; widening keeps every
      character. What is written to save a screen of printed and erased cells paints it again on
      a terminal in its ordinary modes. Dropping unused hyperlinks changes no link in use. How
      the stream is cut into reads makes no difference.
    - Hand-off: a frozen pane is still, in every interleaving with its reader and its child; a
      pane with a screen that can be saved and a scrollback without styles is carried over with
      its identity, process, screen, scrollback and unfinished escape sequence; a failed or
      aborted export leaves no trace on the descriptors.
    - Requests: a request that does not overlap another is served without a panic and leaves the
      daemon consistent, resizes included if they leave each pane a row and a column; a
      malformed one changes nothing but what a stream of writes had done before; captures and
      searches show the history and do not disturb the live screen.
    - Daemon: a request is served exactly when the guards allow it (loopback with a token
      configured left out); the socket has no bits for other users, whatever they do meanwhile;
      lasting accept errors end a listener, and only those; raising the descriptor limit
      terminates. In every race one daemon serves a socket; a start that is refused touches no
      record; the probe, with a limited number of descriptors, ends the daemon after exactly
      four failures in a row; the exit status tells an asked-for end from another.
    - Client: without an address it dials the socket the daemon binds and is not led past a
      refusal; a target with no colon in its session is the pane at that place of the listing;
      [tymux policy] changes what it is told to if nobody else changes the policy meanwhile. The
      keystroke reassembler pairs the leader with the next key however reads are split, for
      input without escape sequences; a paste passes through unchanged; copy mode owns the
      keyboard.

    Theorems that exhibit behaviour the code or its comments do not intend (an overflow, a race,
    a divergence from a comment) stand next to the component they are about, on concrete
    inputs.

    ** Bounds and fuel

    - [Scanner.scan] is given the number of bytes left and consumes at least one a round
      ([scan_ok]). [VtScreen.sgr_loop] is given the number of parameters and drops at least one
      a round. [Listener.raise_loop] has 65 rounds: the candidate's distance to the current
      limit, a [u64], halves every round; [raise_limit_terminates] shows they suffice.
    - [TermQuery.dec_go] prints at most 20 digits, enough for any [u64].
    - [VtReflow.larger_loop] runs over a group of [n] rows with fuel [2 n] and
      [VtReflow.smaller_loop] with [n + m + 1] for [m] lines to make; each round moves the
      source or the destination, and the theorems about resizing show that they suffice, since
      running out would be a panic.
    - [EngineConc.alone] runs the parts of a call; [gives] is its result with any fuel from some
      point on, and the theorem about it gives that point.
    - Everything else is structural recursion, or a step relation quantified over all schedules.

    ** Not modelled

    - Terminal: the writers that send only the difference to an earlier screen ([_diff]), which
      no other crate calls. The [vte] tokenizer is a parameter: the terminal is driven by the
      sequences it reports, and [VtParser] is about any tokenizer. [callbacks.rs] is a trait of
      empty methods.
    - [pane.rs] and [spawn.rs]: the [pre_exec] route of other systems than Linux, the [ioctl]s
      of an adopted pseudo-terminal, sending signals.
    - [tymuxd/src/main.rs] and [auth.rs]: detaching from the terminal, the stream wrappers that
      forward to the socket.
    - [tymux-cli/src/main.rs]: argument parsing ([clap]), raw mode, the layout of printed text.
    - Texts of errors and log lines; [tymux-bench], [tymux-e2e] and the generated protocol. *)

From stdpp Require Export prelude gmap fin_maps strings list sorting.
From Stdlib Require Export ZArith Lia.

#[global] Open Scope Z_scope.

(** ** Machine integers

    Every Rust integer is a [Z]; its width is written out where the code depends
    on it. *)

Definition u8_max : Z := 255.
Definition u16_max : Z := 65535.
Definition u32_max : Z := 4294967295.
Definition u64_max : Z := 18446744073709551615.

Definition is_u16 (n : Z) : Prop := 0 ≤ n ≤ u16_max.
Definition is_u32 (n : Z) : Prop := 0 ≤ n ≤ u32_max.
Definition is_u64 (n : Z) : Prop := 0 ≤ n ≤ u64_max.

(** Rust's [saturating_add] / [saturating_sub] at an unsigned width. *)
Definition sat_add (max a b : Z) : Z := Z.min max (a + b).
Definition sat_sub (a b : Z) : Z := Z.max 0 (a - b).

(** Rust's plain [+] and [-] on [u16]: [None] is an arithmetic overflow (a panic
    in a debug build, a wrapped value in a release build). *)
Definition u16_add (a b : Z) : option Z :=
  if a + b <=? u16_max then Some (a + b) else None.
Definition u16_sub (a b : Z) : option Z :=
  if b <=? a then Some (a - b) else None.

(** Rust's [Ord::clamp]. *)
Definition clamp (lo hi n : Z) : Z := Z.min hi (Z.max lo n).

(** ** Results

    Rust's [Result<A, E>], with a bind notation for [?]. *)

Inductive result (A E : Type) : Type :=
| Ok (a : A)
| Err (e : E).
Arguments Ok {A E} a.
Arguments Err {A E} e.

Declare Scope result_scope.
Delimit Scope result_scope with result.
Notation "'let?' x ':=' c 'in' k" :=
  (match c with Ok x => k | Err e => Err e end)
  (at level 10, x pattern, c at level 100, k at level 200) : result_scope.
Notation "'let!' x ':=' c 'in' k" :=
  (match c with Some x => k | None => None end)
  (at level 10, x pattern, c at level 100, k at level 200) : result_scope.
#[global] Open Scope result_scope.

Definition ok_or {A E} (o : option A) (e : E) : result A E :=
  match o with Some a => Ok a | None => Err e end.

Definition map_err {A E F} (f : E → F) (r : result A E) : result A F :=
  match r with Ok a => Ok a | Err e => Err (f e) end.

Definition is_ok {A E} (r : result A E) : bool :=
  match r with Ok _ => true | Err _ => false end.

(** ** Identifiers

    A [Uuid] is an opaque 128-bit identifier; the model only uses its equality. *)
Abbreviation Uuid := N (only parsing).
Definition uuid_nil : Uuid := 0%N.

(** A byte of a stream. *)
Abbreviation byte := Z (only parsing).

(** ** Text *)

(** [char::is_whitespace]. *)
Definition is_whitespace (c : Z) : bool :=
  (9 <=? c) && (c <=? 13) || (c =? 32) || (c =? 133) || (c =? 160) || (c =? 5760)
  || (8192 <=? c) && (c <=? 8202) || (c =? 8232) || (c =? 8233) || (c =? 8239) || (c =? 8287) || (c =? 12288).

(** [str::split_whitespace]: the words between white space; [w] is the word being read. *)
Fixpoint words (s w : list Z) : list (list Z) :=
  match s with
  | [] => if bool_decide (w = []) then [] else [w]
  | c :: s =>
      if is_whitespace c then (if bool_decide (w = []) then words s [] else w :: words s [])
      else words s (w ++ [c])
  end.

Definition split_whitespace (s : list Z) : list (list Z) := words s [].

(** ** Tactics *)

(** Turns boolean integer tests into propositions and closes arithmetic goals. *)
Ltac b2p :=
  repeat match goal with
  | H : (_ && _)%bool = true |- _ => apply andb_true_iff in H; destruct H
  | H : (_ || _)%bool = false |- _ => apply orb_false_iff in H; destruct H
  | H : (_ <=? _) = true |- _ => apply Z.leb_le in H
  | H : (_ <=? _) = false |- _ => apply Z.leb_gt in H
  | H : (_ <? _) = true |- _ => apply Z.ltb_lt in H
  | H : (_ <? _) = false |- _ => apply Z.ltb_ge in H
  | H : (_ =? _) = true |- _ => apply Z.eqb_eq in H
  | H : (_ =? _) = false |- _ => apply Z.eqb_neq in H
  | H : negb _ = true |- _ => apply negb_true_iff in H
  | H : negb _ = false |- _ => apply negb_false_iff in H
  end.

(** Splits on the scrutinee of the first [if]/[match] of the goal or a hypothesis. *)
Ltac case_match_eq :=
  match goal with
  | |- context [ match ?x with _ => _ end ] => destruct x eqn:?
  | H : context [ match ?x with _ => _ end ] |- _ => destruct x eqn:?
  end.

(** [lia] with division and remainder by constants. *)
Ltac lia_div := Z.to_euclidean_division_equations; lia.

Ltac machine_int :=
  unfold is_u16, is_u32, is_u64, u8_max, u16_max, u32_max, u64_max, sat_add, sat_sub, clamp in *;
  lia.

(** ** Shared lemmas *)

Create HintDb tymux.

Lemma u16_sub_Some a b c : u16_sub a b = Some c ↔ b ≤ a ∧ c = a - b.
Proof. unfold u16_sub. destruct (Z.leb_spec b a); naive_solver lia. Qed.

Lemma u16_add_Some a b c : u16_add a b = Some c ↔ a + b ≤ u16_max ∧ c = a + b.
Proof. unfold u16_add. destruct (Z.leb_spec (a + b) u16_max); naive_solver lia. Qed.

Lemma u16_sub_ok a b : b ≤ a → u16_sub a b = Some (a - b).
Proof. intros. by apply u16_sub_Some. Qed.

Lemma u16_add_ok a b : a + b ≤ u16_max → u16_add a b = Some (a + b).
Proof. intros. by apply u16_add_Some. Qed.

Lemma clamp_bounds lo hi n : lo ≤ hi → lo ≤ clamp lo hi n ≤ hi.
Proof. machine_int. Qed.

Lemma clamp_id lo hi n : lo ≤ n ≤ hi → clamp lo hi n = n.
Proof. machine_int. Qed.

#[export] Hint Resolve clamp_bounds clamp_id : tymux.

Lemma sublist_map {A B} (f : A → B) (l k : list A) : sublist l k → sublist (f <$> l) (f <$> k).
Proof. induction 1; simpl; by constructor. Qed.
