(* ===== verification/Float.v ===== *)
(** * IEEE-754 arithmetic as the code uses it

    Rust's [f32] and [f64] are the Standard Library's [spec_float] at precision
    24/128 and 53/1024: multiplication, addition and subtraction are its
    correctly rounded operations. Comparison, [floor], [round] and the saturating
    [as] casts are exact functions of the represented value. *)

From S2P Require Import Prelude.
From Stdlib Require Export SpecFloat.

(** ** Operations *)

Definition f32_of_u16 (n : Z) : spec_float := binary_normalize 24 128 n 0 false.
Definition f32_mul : spec_float → spec_float → spec_float := SFmul 24 128.
Definition f32_add : spec_float → spec_float → spec_float := SFadd 24 128.
Definition f32_sub : spec_float → spec_float → spec_float := SFsub 24 128.

Definition f64_of_Z (n : Z) : spec_float := binary_normalize 53 1024 n 0 false.
Definition f64_mul : spec_float → spec_float → spec_float := SFmul 53 1024.
Definition f64_add : spec_float → spec_float → spec_float := SFadd 53 1024.
Definition f64_sub : spec_float → spec_float → spec_float := SFsub 53 1024.

(** A finite value as a signed integer scaled by [2^e]. *)
Definition sf_signed (s : bool) (m : positive) : Z := if s then Zneg m else Zpos m.

(** The integer scaled mantissa of a finite value, with its exponent. *)
Definition sf_fin (x : spec_float) : option (Z * Z) :=
  match x with
  | S754_zero _ => Some (0, 0)
  | S754_finite s m e => Some (sf_signed s m, e)
  | _ => None
  end.

(** Exact comparison of two scaled integers [a * 2^ea] and [b * 2^eb]. *)
Definition scaled_compare (a ea b eb : Z) : comparison :=
  let e := Z.min ea eb in Z.compare (Z.shiftl a (ea - e)) (Z.shiftl b (eb - e)).

(** IEEE comparison; [None] when either side is NaN. *)
Definition sf_compare (x y : spec_float) : option comparison :=
  match x, y with
  | S754_nan, _ | _, S754_nan => None
  | S754_infinity sx, S754_infinity sy =>
      Some (if sx then (if sy then Eq else Lt) else (if sy then Gt else Eq))
  | S754_infinity s, _ => Some (if s then Lt else Gt)
  | _, S754_infinity s => Some (if s then Gt else Lt)
  | _, _ =>
      match sf_fin x, sf_fin y with
      | Some (a, ea), Some (b, eb) => Some (scaled_compare a ea b eb)
      | _, _ => None
      end
  end.

Definition sf_lt (x y : spec_float) : bool :=
  match sf_compare x y with Some Lt => true | _ => false end.
Definition sf_gt (x y : spec_float) : bool :=
  match sf_compare x y with Some Gt => true | _ => false end.
Definition sf_le (x y : spec_float) : bool :=
  match sf_compare x y with Some (Lt | Eq) => true | _ => false end.

Definition sf_is_finite (x : spec_float) : bool :=
  match x with S754_zero _ | S754_finite _ _ _ => true | _ => false end.

(** Rust's [f64::min]: a NaN operand is ignored. *)
Definition sf_min (x y : spec_float) : spec_float :=
  match x, y with
  | S754_nan, _ => y
  | _, S754_nan => x
  | _, _ => if sf_lt y x then y else x
  end.

(** Rust's [f64::clamp]: a NaN receiver stays NaN. *)
Definition sf_clamp (lo hi x : spec_float) : spec_float :=
  let x := if sf_lt x lo then lo else x in
  if sf_gt x hi then hi else x.

(** [x.floor() as uN]: saturating, NaN is 0. *)
Definition floor_as (max : Z) (x : spec_float) : Z :=
  match x with
  | S754_nan => 0
  | S754_infinity s => if s then 0 else max
  | S754_zero _ => 0
  | S754_finite s m e => clamp 0 max (Z.shiftl (sf_signed s m) e)
  end.

(** Nearest integer to [m * 2^e], ties away from zero ([f64::round]), [m >= 0]. *)
Definition round_scaled (m e : Z) : Z :=
  if 0 <=? e then Z.shiftl m e else Z.shiftr (m + Z.shiftl 1 (- e - 1)) (- e).

(** [x.round() as uN]: saturating, NaN is 0. *)
Definition round_as (max : Z) (x : spec_float) : Z :=
  match x with
  | S754_nan => 0
  | S754_infinity s => if s then 0 else max
  | S754_zero _ => 0
  | S754_finite true _ _ => 0
  | S754_finite false m e => clamp 0 max (round_scaled (Zpos m) e)
  end.

Definition f32_half : spec_float := S754_finite false 8388608 (-24).
Definition f32_one : spec_float := f32_of_u16 1.

(** ** Facts about rounding *)

Section Rounding.
Context (prec emax : Z).
Hypothesis Hprec : 0 < prec.
Hypothesis Hemin : emin prec emax ≤ - prec.

Local Abbreviation fexp' := (fexp prec emax).

Lemma iter_pos_ind {A} (f : A → A) (P : Z → A → Prop) :
  (∀ n a, 0 ≤ n → P n a → P (n + 1) (f a)) →
  ∀ p n a, 0 ≤ n → P n a → P (n + Zpos p) (iter_pos f p a).
Proof.
  intros Hstep. induction p as [p IH|p IH|]; intros n a Hn Ha; simpl.
  - replace (n + Zpos p~1) with (n + 1 + Zpos p + Zpos p) by lia.
    apply IH; [lia|]. apply IH; [lia|]. by apply Hstep.
  - replace (n + Zpos p~0) with (n + Zpos p + Zpos p) by lia.
    apply IH; [lia|]. by apply IH.
  - by apply Hstep.
Qed.

(** What [n] single-bit right shifts of [m] leave: the quotient, and a sticky
    flag that is set only if something non-zero was shifted out. *)
Definition shifted (m n : Z) (r : shr_record) : Prop :=
  shr_m r = m / 2 ^ n ∧ (shr_r r || shr_s r = true → m mod 2 ^ n ≠ 0).

Lemma shifted_step m n r :
  0 ≤ m → 0 ≤ n → shifted m n r → shifted m (n + 1) (shr_1 r).
Proof.
  intros Hm Hn [Hq Hs].
  assert (Hp : 0 < 2 ^ n) by lia.
  assert (E : 2 ^ (n + 1) = 2 ^ n * 2) by (rewrite Z.pow_add_r by lia; lia).
  assert (Hdiv : m / 2 ^ (n + 1) = (m / 2 ^ n) / 2) by (rewrite E, Z.div_div by lia; done).
  assert (Hmod : m mod 2 ^ (n + 1) = 2 ^ n * ((m / 2 ^ n) mod 2) + m mod 2 ^ n).
  { rewrite E, Z.rem_mul_r by lia. lia. }
  assert (Hlt := Z.mod_pos_bound m (2 ^ n) Hp).
  unfold shifted. rewrite Hdiv, Hmod, <- Hq.
  assert (0 ≤ shr_m r) by (rewrite Hq; apply Z.div_pos; lia).
  clear Hq Hdiv Hmod E.
  destruct r as [q rb sb]; cbn [shr_m shr_r shr_s] in *.
  destruct q as [|[q|q|]|q]; cbn [shr_1 shr_m shr_r shr_s]; try lia; split; try lia_div;
    rewrite ?orb_true_l, ?orb_false_l; intros Hst; rewrite Zmod_odd; cbn [Z.odd];
    try lia; specialize (Hs Hst); lia.
Qed.

Lemma shr_fexp_exact m e :
  0 ≤ m →
  let k := fexp' (Zdigits2 m + e) - e in
  let '(r, e') := shr_fexp prec emax m e loc_Exact in
  (k ≤ 0 ∧ r = Build_shr_record m false false ∧ e' = e) ∨
  (0 < k ∧ shifted m k r ∧ e' = e + k).
Proof.
  intros Hm k. unfold shr_fexp, shr. fold k. simpl.
  destruct k as [|p|p] eqn:Ek; [left; split; [lia|done]| |left; split; [lia|done]].
  right. split; [lia|]. split; [|done].
  apply (iter_pos_ind shr_1 (shifted m)) with (n := 0); [|lia|].
  - intros. by apply shifted_step.
  - split; [by rewrite Z.pow_0_r, Z.div_1_r|done].
Qed.

(** Rounding to nearest never goes past the next integer, and stays put when
    nothing was shifted out. *)
Lemma round_nearest_even_le m k r :
  0 ≤ m → 0 < k → shifted m k r →
  let m' := round_nearest_even (shr_m r) (loc_of_shr_record r) in
  0 ≤ m' ∧ (m' ≤ m / 2 ^ k ∨ (m' ≤ m / 2 ^ k + 1 ∧ m mod 2 ^ k ≠ 0)).
Proof.
  intros Hm Hk [Hq Hs] m'.
  assert (0 ≤ m / 2 ^ k) by (apply Z.div_pos; lia).
  subst m'. destruct r as [q rb sb]; simpl in *. subst q.
  destruct rb, sb; simpl in *; try destruct (Z.even (m / 2 ^ k)); split; lia.
Qed.

Lemma digits2_pos_bound m :
  2 ^ (Zpos (digits2_pos m) - 1) ≤ Zpos m < 2 ^ Zpos (digits2_pos m).
Proof.
  induction m as [m IH|m IH|]; simpl digits2_pos; rewrite ?Pos2Z.inj_succ.
  1,2: set (d := Zpos (digits2_pos m)) in *;
    assert (0 < d) by (unfold d; lia);
    replace (Z.succ d - 1) with (Z.succ (d - 1)) by lia;
    rewrite !Z.pow_succ_r by lia; lia.
  simpl. lia.
Qed.

(** [m * 2^e ≤ x], for an integer [x]. *)
Definition scaled_le (m e x : Z) : Prop :=
  if 0 <=? e then m * 2 ^ e ≤ x else m ≤ x * 2 ^ (- e).

Lemma scaled_le_digits m e x :
  0 < x < 2 ^ prec → 0 < m → scaled_le m e x → Zdigits2 m + e ≤ prec.
Proof.
  intros Hx Hm Hle. destruct m as [|m|m]; try lia. simpl.
  destruct (digits2_pos_bound m) as [Hlo _]. set (d := Zpos (digits2_pos m)) in *.
  assert (0 < d) by (unfold d; lia).
  unfold scaled_le in Hle. destruct (Z.leb_spec 0 e).
  - assert (2 ^ (d - 1 + e) < 2 ^ prec).
    { rewrite Z.pow_add_r by lia. nia. }
    apply Z.pow_lt_mono_r_iff in H1; lia.
  - assert (2 ^ (d - 1) < 2 ^ (prec - e)).
    { replace (prec - e) with (prec + - e) by lia. rewrite Z.pow_add_r by lia.
      assert (0 < 2 ^ (- e)) by lia. nia. }
    apply Z.pow_lt_mono_r_iff in H1; lia.
Qed.

Lemma scaled_le_shift m e k x :
  0 ≤ m → 0 < k → 0 ≤ x → scaled_le m e x → scaled_le (m / 2 ^ k) (e + k) x.
Proof.
  intros Hm Hk Hx. unfold scaled_le.
  assert (0 < 2 ^ k) by lia.
  assert (Hd := Z.mul_div_le m (2 ^ k) ltac:(lia)).
  assert (0 ≤ m / 2 ^ k) by (apply Z.div_pos; lia).
  set (q := m / 2 ^ k) in *.
  destruct (Z.leb_spec 0 e), (Z.leb_spec 0 (e + k)); try lia; intros Hle.
  - rewrite Z.pow_add_r by lia. assert (0 < 2 ^ e) by lia. nia.
  - assert (E : 2 ^ k = 2 ^ (e + k) * 2 ^ (- e)) by (rewrite <- Z.pow_add_r by lia; f_equal; lia).
    rewrite E in Hd. apply (Z.mul_le_mono_pos_r _ _ (2 ^ (- e))); [lia|]. lia.
  - assert (E : 2 ^ (- e) = 2 ^ (- (e + k)) * 2 ^ k) by (rewrite <- Z.pow_add_r by lia; f_equal; lia).
    rewrite E in Hle. nia.
Qed.

Lemma scaled_le_round m e k m' x :
  0 ≤ m → 0 < k → e + k ≤ 0 → 0 ≤ x → scaled_le m e x →
  (m' ≤ m / 2 ^ k ∨ (m' ≤ m / 2 ^ k + 1 ∧ m mod 2 ^ k ≠ 0)) →
  scaled_le m' (e + k) x.
Proof.
  intros Hm Hk Hek Hx Hle Hm'.
  assert (0 < 2 ^ k) by lia.
  assert (Hdm := Z.div_mod m (2 ^ k) ltac:(lia)).
  assert (Hb := Z.mod_pos_bound m (2 ^ k) ltac:(lia)).
  assert (E : 2 ^ (- e) = 2 ^ (- (e + k)) * 2 ^ k) by (rewrite <- Z.pow_add_r by lia; f_equal; lia).
  unfold scaled_le in *.
  destruct (Z.leb_spec 0 e); [lia|]. rewrite E in Hle.
  assert (Hq : m' ≤ x * 2 ^ (- (e + k))) by nia.
  destruct (Z.leb_spec 0 (e + k)); [|done].
  replace (e + k) with 0 in * by lia. simpl in *. lia.
Qed.

(** Scaling a value that is at most 1 by an integer [n = n * 2^k * 2^-k]. *)
Lemma scaled_le_mul n k m e :
  0 ≤ n → 0 ≤ k → 0 < m → scaled_le m e 1 → scaled_le (n * 2 ^ k * m) (- k + e) n.
Proof.
  intros Hn Hk Hm. unfold scaled_le.
  assert (0 < 2 ^ k) by lia.
  destruct (Z.leb_spec 0 e), (Z.leb_spec 0 (- k + e)); try lia; intros Hle.
  - assert (E : 2 ^ e = 2 ^ k * 2 ^ (- k + e)) by (rewrite <- Z.pow_add_r by lia; f_equal; lia).
    rewrite E in Hle. nia.
  - replace (- (- k + e)) with (k - e) by lia.
    assert (E : 2 ^ k = 2 ^ (k - e) * 2 ^ e) by (rewrite <- Z.pow_add_r by lia; f_equal; lia).
    rewrite E. nia.
  - replace (- (- k + e)) with (k + - e) by lia. rewrite Z.pow_add_r by lia. nia.
Qed.

Lemma floor_scaled_le m e x : 0 ≤ m → scaled_le m e x → Z.shiftl m e ≤ x.
Proof.
  intros Hm Hle. unfold scaled_le in Hle. destruct (Z.leb_spec 0 e).
  - rewrite Z.shiftl_mul_pow2 by lia. done.
  - rewrite <- (Z.opp_involutive e), <- Z.shiftr_opp_r, Z.opp_involutive.
    rewrite Z.shiftr_div_pow2 by lia. apply Z.div_le_upper_bound; lia.
Qed.

(** Rounding a positive value that is at most an integer [x < 2^prec] gives a
    value that is at most [x]. *)
Definition sf_at_most (x : Z) (f : spec_float) : Prop :=
  match f with
  | S754_zero _ => True
  | S754_finite s m e => s = false ∧ scaled_le (Zpos m) e x
  | _ => False
  end.

(** One [shr_fexp] with the rounding that follows it. *)
Lemma shr_round_le m e x :
  0 ≤ m → 0 < x < 2 ^ prec → scaled_le m e x →
  let '(r, e') := shr_fexp prec emax m e loc_Exact in
  let m' := round_nearest_even (shr_m r) (loc_of_shr_record r) in
  0 ≤ m' ∧ scaled_le m' e' x.
Proof.
  intros Hm Hx Hle. pose proof (shr_fexp_exact m e Hm) as Hs.
  destruct (shr_fexp prec emax m e loc_Exact) as [r e'].
  destruct Hs as [(Hk & -> & ->)|(Hk & Hr & ->)]; [done|].
  destruct (decide (m = 0)) as [->|Hm0].
  { assert (E : round_nearest_even (shr_m r) (loc_of_shr_record r) = 0).
    { destruct Hr as [Hq Hst]. rewrite Zmod_0_l in Hst. rewrite Zdiv_0_l in Hq.
      destruct r as [q [] []]; simpl in *; subst; try done; by destruct Hst. }
    rewrite E. split; [done|]. unfold scaled_le.
    destruct (Z.leb_spec 0 (e + (fexp' (Zdigits2 0 + e) - e))); [lia|]. nia. }
  destruct (round_nearest_even_le m _ r Hm Hk Hr) as [H0 Hb].
  split; [done|]. pose proof (scaled_le_digits m e x Hx ltac:(lia) Hle).
  apply (scaled_le_round m); try done; unfold fexp; lia.
Qed.

(** Rounding a value that is at most an integer [x < 2^prec] gives a value that
    is at most [x]. *)
Lemma binary_round_aux_le m e x :
  0 ≤ m → 0 < x < 2 ^ prec → 2 * prec ≤ emax → scaled_le m e x →
  sf_at_most x (binary_round_aux prec emax false m e loc_Exact).
Proof.
  intros Hm Hx Hmax Hle. unfold binary_round_aux.
  pose proof (shr_round_le m e x Hm Hx Hle) as H1.
  destruct (shr_fexp prec emax m e loc_Exact) as [r e'].
  destruct H1 as [Hm' Hle'].
  set (m' := round_nearest_even _ _) in *.
  pose proof (shr_fexp_exact m' e' Hm') as H2.
  destruct (shr_fexp prec emax m' e' loc_Exact) as [r'' e''].
  assert (H3 : 0 ≤ shr_m r'' ∧ scaled_le (shr_m r'') e'' x).
  { destruct H2 as [(_ & -> & ->)|(Hk & [Hq _] & ->)]; [done|].
    rewrite Hq. split; [apply Z.div_pos; lia|]. apply scaled_le_shift; auto; lia. }
  destruct H3 as [H3 H4]. destruct (shr_m r'') as [|p|p] eqn:E; simpl; [done| |lia].
  destruct (Z.leb_spec e'' (emax - prec)); simpl; [done|].
  pose proof (scaled_le_digits (Zpos p) e'' x Hx ltac:(lia) H4) as Hd. simpl in Hd. lia.
Qed.

Lemma digits2_pos_unique m d :
  0 < d → 2 ^ (d - 1) ≤ Zpos m < 2 ^ d → Zpos (digits2_pos m) = d.
Proof.
  intros Hd Hb. pose proof (digits2_pos_bound m) as Hm.
  set (d' := Zpos (digits2_pos m)) in *. assert (0 < d') by (unfold d'; lia).
  assert (2 ^ (d - 1) < 2 ^ d') by lia. assert (2 ^ (d' - 1) < 2 ^ d) by lia.
  apply Z.pow_lt_mono_r_iff in H0, H1; lia.
Qed.

Lemma iter_xO m d : Zpos (Pos.iter xO m d) = Zpos m * 2 ^ Zpos d.
Proof.
  induction d as [|d IH] using Pos.peano_ind; [simpl; lia|].
  rewrite Pos.iter_succ, Pos2Z.inj_xO, IH, Pos2Z.inj_succ, Z.pow_succ_r by lia. lia.
Qed.

(** Integers below [2^prec] convert exactly. *)
Lemma binary_normalize_exact n :
  0 < n < 2 ^ prec → prec ≤ emax →
  ∃ m k, 0 ≤ k ∧ binary_normalize prec emax n 0 false = S754_finite false m (- k)
         ∧ Zpos m = n * 2 ^ k ∧ Zpos (digits2_pos m) = prec ∧ k < prec.
Proof.
  intros Hn Hmax. destruct n as [|n|n]; try lia. unfold binary_normalize, binary_round.
  pose proof (digits2_pos_bound n) as Hd. set (d := Zpos (digits2_pos n)) in *.
  assert (Hdp : d ≤ prec).
  { assert (2 ^ (d - 1) < 2 ^ prec) by lia. apply Z.pow_lt_mono_r_iff in H; lia. }
  assert (0 < d) by (unfold d; lia).
  assert (Hf : fexp' d = d - prec) by (unfold fexp; lia).
  assert (Halign : ∃ m, shl_align n 0 (d - prec) = (m, d - prec) ∧ Zpos m = Zpos n * 2 ^ (prec - d)).
  { unfold shl_align. rewrite Z.sub_0_r. destruct (d - prec) as [|q|q] eqn:E; try lia.
    - exists n. replace (prec - d) with 0 by lia. split; [done|lia].
    - eexists. split; [done|]. rewrite iter_xO. do 2 f_equal. lia. }
  destruct Halign as (m & Ha & Hm). rewrite Z.add_0_r, Hf, Ha.
  assert (Hdm : Zpos (digits2_pos m) = prec).
  { apply digits2_pos_unique; [done|]. rewrite Hm.
    assert (E1 : 2 ^ (prec - 1) = 2 ^ (d - 1) * 2 ^ (prec - d)) by (rewrite <- Z.pow_add_r by lia; f_equal; lia).
    assert (E2 : 2 ^ prec = 2 ^ d * 2 ^ (prec - d)) by (rewrite <- Z.pow_add_r by lia; f_equal; lia).
    rewrite E1, E2. assert (0 < 2 ^ (prec - d)) by lia. nia. }
  exists m, (prec - d). split; [lia|]. split; [|split_and!; [done|done|lia]].
  assert (Hid : shr_fexp prec emax (Zpos m) (d - prec) loc_Exact
                = (Build_shr_record (Zpos m) false false, d - prec)).
  { unfold shr_fexp. simpl Zdigits2. rewrite Hdm.
    replace (prec + (d - prec)) with d by lia. rewrite Hf.
    replace (d - prec - (d - prec)) with 0 by lia. done. }
  unfold binary_round_aux. rewrite Hid. simpl round_nearest_even. rewrite Hid. simpl.
  destruct (Z.leb_spec (d - prec) (emax - prec)); [f_equal; lia|lia].
Qed.

(** Rounding a full-width mantissa followed by [j] zero bits is exact. *)
Lemma binary_round_aux_exact s m j e :
  0 ≤ j → Zpos (digits2_pos m) = prec → emin prec emax ≤ e + j → e + j ≤ emax - prec →
  binary_round_aux prec emax s (Zpos m * 2 ^ j) e loc_Exact = S754_finite s m (e + j).
Proof.
  intros Hj Hd Hlo Hhi. pose proof (digits2_pos_bound m) as Hb. rewrite Hd in Hb.
  assert (Hdig : Zdigits2 (Zpos m * 2 ^ j) = prec + j).
  { assert (0 < Zpos m * 2 ^ j) by lia. destruct (Zpos m * 2 ^ j) as [|q|q] eqn:E; try lia.
    apply digits2_pos_unique; [lia|]. rewrite <- E.
    replace (prec + j - 1) with (prec - 1 + j) by lia. rewrite !Z.pow_add_r by lia.
    assert (0 < 2 ^ j) by lia. nia. }
  assert (Hid : shr_fexp prec emax (Zpos m) (e + j) loc_Exact
                = (Build_shr_record (Zpos m) false false, e + j)).
  { unfold shr_fexp. simpl Zdigits2. rewrite Hd.
    replace (fexp' (prec + (e + j)) - (e + j)) with 0 by (unfold fexp; lia). done. }
  unfold binary_round_aux.
  pose proof (shr_fexp_exact (Zpos m * 2 ^ j) e ltac:(lia)) as Hs. rewrite Hdig in Hs.
  replace (fexp' (prec + j + e) - e) with j in Hs by (unfold fexp; lia).
  destruct (shr_fexp prec emax (Zpos m * 2 ^ j) e loc_Exact) as [r e'].
  assert (r = Build_shr_record (Zpos m) false false ∧ e' = e + j) as [-> ->].
  { destruct Hs as [(Hj0 & -> & ->)|(_ & [Hq Hst] & ->)].
    - replace j with 0 by lia. rewrite Z.pow_0_r, Z.mul_1_r, Z.add_0_r. done.
    - rewrite Z.div_mul in Hq by lia. rewrite Z.mod_mul in Hst by lia.
      destruct r as [q rb sb]; simpl in *. subst q. split; [|done].
      destruct rb, sb; try done; by destruct Hst. }
  simpl round_nearest_even. rewrite Hid. simpl.
  destruct (Z.leb_spec (e + j) (emax - prec)); [done|lia].
Qed.
End Rounding.

(** ** What the code's conversions compute *)

(** A finite value between 0 and 1, the range of a layout ratio. *)
Definition unit_interval (r : spec_float) : bool :=
  match r with
  | S754_zero _ => true
  | S754_finite false m e => sf_le r f32_one
  | _ => false
  end.

Lemma pow2_pos k : 0 ≤ k → 0 < 2 ^ k.
Proof. lia. Qed.

(** Comparing with an integer [x] written as [x * 2^k * 2^-k]. *)
Lemma scaled_compare_le m e x k :
  0 ≤ k → (scaled_compare m e (x * 2 ^ k) (- k) ≠ Gt ↔ scaled_le m e x).
Proof.
  intros Hk. unfold scaled_compare, scaled_le.
  rewrite Z.compare_le_iff, !Z.shiftl_mul_pow2 by lia.
  destruct (Z.le_ge_cases e (- k)) as [He|He].
  - rewrite Z.min_l by lia. replace (e - e) with 0 by lia. rewrite Z.pow_0_r, Z.mul_1_r.
    rewrite <- Z.mul_assoc, <- Z.pow_add_r by lia. replace (k + (- k - e)) with (- e) by lia.
    destruct (Z.leb_spec 0 e); [|reflexivity].
    replace e with 0 by lia. simpl. rewrite !Z.mul_1_r. reflexivity.
  - rewrite Z.min_r by lia. replace (- k - - k) with 0 by lia. rewrite Z.pow_0_r, Z.mul_1_r.
    pose proof (pow2_pos k Hk). destruct (Z.leb_spec 0 e).
    + replace (e - - k) with (e + k) by lia. rewrite Z.pow_add_r, Z.mul_assoc by lia.
      rewrite <- Z.mul_le_mono_pos_r by done. reflexivity.
    + assert (E : 2 ^ k = 2 ^ (- e) * 2 ^ (e - - k)) by (rewrite <- Z.pow_add_r by lia; f_equal; lia).
      rewrite E, Z.mul_assoc, <- Z.mul_le_mono_pos_r by (apply pow2_pos; lia). reflexivity.
Qed.

Lemma sf_le_one m e :
  sf_le (S754_finite false m e) f32_one = true → scaled_le (Zpos m) e 1.
Proof.
  change f32_one with (S754_finite false 8388608 (-23)).
  unfold sf_le, sf_compare, sf_fin, sf_signed. intros H.
  apply (scaled_compare_le _ _ 1 23); [done|].
  change (1 * 2 ^ 23) with 8388608. change (- (23)) with (-23). intros E. by rewrite E in H.
Qed.

(** A [u16] times a ratio in [0, 1], floored, is between 0 and that [u16]. *)
Lemma floor_mul_unit_bounds n r :
  is_u16 n → unit_interval r = true → 0 ≤ floor_as u16_max (f32_mul (f32_of_u16 n) r) ≤ n.
Proof.
  intros [Hn0 Hn] Hr. unfold f32_mul, f32_of_u16.
  destruct (decide (n = 0)) as [->|Hnz].
  { destruct r as [| | |[]]; simpl in *; try done. }
  destruct (binary_normalize_exact 24 128 ltac:(lia) ltac:(vm_compute; discriminate) n)
    as (m & k & Hk & -> & Hm & _ & _); [split; [lia|]; unfold u16_max in *; lia|lia|].
  destruct r as [s|s| |[] mr er]; cbn [unit_interval] in Hr; try done; try (simpl; lia).
  apply sf_le_one in Hr.
  unfold SFmul. simpl xorb.
  assert (Hat : sf_at_most n (binary_round_aux 24 128 false (Zpos (m * mr)) (- k + er) loc_Exact)).
  { apply binary_round_aux_le; try lia; [vm_compute; discriminate|unfold u16_max in *; lia|].
    rewrite Pos2Z.inj_mul, Hm. apply (scaled_le_mul n k); auto; lia. }
  destruct (binary_round_aux 24 128 false (Zpos (m * mr)) (- k + er) loc_Exact) as [|[]| |s m' e'];
    simpl in *; try lia; try done.
  destruct Hat as [-> Hat]. apply floor_scaled_le in Hat; [|lia]. simpl.
  assert (0 ≤ Z.shiftl (Zpos m') e') by (apply Z.shiftl_nonneg; lia).
  unfold clamp. lia.
Qed.

(** Halving a [u16] in [f32] and flooring is integer division. *)
Lemma floor_half n : is_u16 n → floor_as u16_max (f32_mul (f32_of_u16 n) f32_half) = n / 2.
Proof.
  intros [Hn0 Hn]. unfold f32_mul, f32_of_u16.
  destruct (decide (n = 0)) as [->|Hnz]; [done|].
  destruct (binary_normalize_exact 24 128 ltac:(lia) ltac:(vm_compute; discriminate) n)
    as (m & k & Hk & -> & Hm & Hd & Hk24); [split; [lia|]; unfold u16_max in *; lia|lia|].
  unfold SFmul, f32_half. simpl xorb.
  replace (Zpos (m * 8388608)) with (Zpos m * 2 ^ 23) by (rewrite Pos2Z.inj_mul; lia).
  rewrite binary_round_aux_exact; try lia; [|vm_compute emin; lia].
  unfold floor_as. simpl sf_signed.
  assert (E : Z.shiftl (Zpos m) (- k + -24 + 23) = n / 2).
  { replace (- k + -24 + 23) with (- (k + 1)) by lia. rewrite Z.shiftl_opp_r.
    rewrite Z.shiftr_div_pow2 by lia. rewrite Hm, Z.pow_add_r by lia.
    rewrite <- Z.div_div by lia. rewrite Z.div_mul by lia. done. }
  rewrite E. apply clamp_id. unfold u16_max in *. lia_div.
Qed.

Lemma round_scaled_le m e x : 0 ≤ m → scaled_le m e x → 0 ≤ round_scaled m e ≤ x.
Proof.
  intros Hm Hle. unfold scaled_le, round_scaled in *. destruct (Z.leb_spec 0 e).
  - rewrite Z.shiftl_mul_pow2 by lia. split; [|done]. pose proof (pow2_pos e). nia.
  - rewrite Z.shiftr_div_pow2, Z.shiftl_mul_pow2 by lia.
    pose proof (pow2_pos (- e - 1) ltac:(lia)). pose proof (pow2_pos (- e) ltac:(lia)).
    assert (Hp : 2 ^ (- e) = 2 * 2 ^ (- e - 1)) by (rewrite <- Z.pow_succ_r by lia; f_equal; lia).
    split; [apply Z.div_pos; lia|]. apply Z.lt_succ_r, Z.div_lt_upper_bound; nia.
Qed.

Lemma sf_gt_finite s m e k x hi :
  0 ≤ k → sf_fin hi = Some (x * 2 ^ k, - k) →
  sf_gt (S754_finite s m e) hi = false → scaled_le (sf_signed s m) e x.
Proof.
  intros Hk Hhi. rewrite <- (scaled_compare_le _ _ x k Hk).
  unfold sf_gt, sf_compare. rewrite Hhi.
  destruct hi; try done; cbn [sf_fin]; destruct (scaled_compare _ _ _ _); done.
Qed.

(** Clamping to [0, n] and rounding stays in [0, n], whatever the input (NaN and
    infinities included), as long as [n] is exact in an [f64]. *)
Lemma round_clamp_bound n x :
  0 ≤ n < 2 ^ 53 → 0 ≤ round_as u64_max (sf_clamp (S754_zero false) (f64_of_Z n) x) ≤ n.
Proof.
  intros Hn. assert (∃ k, 0 ≤ k ∧ sf_fin (f64_of_Z n) = Some (n * 2 ^ k, - k)) as (k & Hk & Hfin).
  { unfold f64_of_Z. destruct (decide (n = 0)) as [->|]; [exists 0; done|].
    destruct (binary_normalize_exact 53 1024 ltac:(lia) ltac:(vm_compute; discriminate) n)
      as (m & k & Hk & -> & Hm & _); [lia..|].
    exists k. split; [done|]. simpl. by rewrite Hm. }
  assert (Hround : ∀ s m e, scaled_le (sf_signed s m) e n → 0 ≤ round_as u64_max (S754_finite s m e) ≤ n).
  { intros [] m e Hle; simpl in *; [lia|]. apply round_scaled_le in Hle; [|lia].
    unfold clamp, u64_max. lia. }
  assert (Hhi : 0 ≤ round_as u64_max (f64_of_Z n) ≤ n).
  { destruct (f64_of_Z n) as [| | |s m e]; try done; [simpl; lia|]. apply (Hround s m).
    injection Hfin as -> ->. unfold scaled_le. destruct (Z.leb_spec 0 (- k)); rewrite ?Z.opp_involutive; [|lia].
    assert (k = 0) as -> by lia. simpl. lia. }
  unfold sf_clamp. destruct (sf_lt x _) eqn:Hlt; destruct (sf_gt _ (f64_of_Z n)) eqn:Hgt; try done.
  { simpl. lia. }
  destruct x as [s|[]| |s m e]; try (simpl; lia); [by destruct (f64_of_Z n)..|].
  by apply Hround, (sf_gt_finite s m e k n (f64_of_Z n)).
Qed.
