(* ===== verification/Layout.v ===== *)
(** * Window layout trees ([crates/tymux-core/src/layout.rs])

    The binary split tree of a window, its geometry, and the operations that grow
    and shrink it. A computation that would panic (an index out of bounds, an
    arithmetic overflow, a failed [expect]) is [None]. *)

From S2P Require Import Prelude Float.

(** ** Data *)

Inductive Orientation := Horizontal | Vertical.

#[export] Instance Orientation_eq_dec : EqDecision Orientation.
Proof. solve_decision. Defined.

Definition MIN_PANE_ROWS : Z := 2.
Definition MIN_PANE_COLS : Z := 10.
Definition RECOMMENDED_SPLIT_MIN_ROWS : Z := 20.

Record PtyRect := mkRect { rect_row : Z; rect_col : Z; rect_rows : Z; rect_cols : Z }.

Set Warnings "-register-all".

(** [Split]'s children are a [Vec] in the code, with exactly two entries. *)
Inductive LayoutNode :=
| Leaf (pane_id : Uuid)
| Split (orientation : Orientation) (children : list (LayoutNode * spec_float)).

Inductive RemoveOutcome :=
| Collapsed (n : LayoutNode)
| WindowEmpty.

Inductive LayoutError :=
| LBelowMinimumSize (rows cols : Z)
| LBelowRecommendedSize (rows : Z)
| LPaneNotFound (pane_id : Uuid).

(** ** Operations *)

Definition leaf (pane_id : Uuid) : LayoutNode := Leaf pane_id.

Definition split_extent (extent : Z) (ratio : spec_float) : Z :=
  floor_as u16_max (f32_mul (f32_of_u16 extent) ratio).

Fixpoint compute_geometry_at (n : LayoutNode) (row col rows cols : Z)
    : option (list (Uuid * PtyRect)) :=
  match n with
  | Leaf pane_id => Some [(pane_id, mkRect row col rows cols)]
  | Split orientation ((first, first_ratio) :: (second, _) :: _) =>
      match orientation with
      | Horizontal =>
          let first_cols := split_extent cols first_ratio in
          let! second_cols := u16_sub cols first_cols in
          let! out := compute_geometry_at first row col rows first_cols in
          let! col' := u16_add col first_cols in
          let! out' := compute_geometry_at second row col' rows second_cols in
          Some (out ++ out')
      | Vertical =>
          let first_rows := split_extent rows first_ratio in
          let! second_rows := u16_sub rows first_rows in
          let! out := compute_geometry_at first row col first_rows cols in
          let! row' := u16_add row first_rows in
          let! out' := compute_geometry_at second row' col second_rows cols in
          Some (out ++ out')
      end
  | Split _ _ => None
  end.

Definition compute_geometry (n : LayoutNode) (rows cols : Z) : option (list (Uuid * PtyRect)) :=
  compute_geometry_at n 0 0 rows cols.

Fixpoint contains (n : LayoutNode) (pane_id : Uuid) : bool :=
  match n with
  | Leaf id => bool_decide (id = pane_id)
  | Split _ children => existsb (λ c, contains (fst c) pane_id) children
  end.

Fixpoint leaves (n : LayoutNode) : list Uuid :=
  match n with
  | Leaf pane_id => [pane_id]
  | Split _ children => flat_map (λ c, leaves (fst c)) children
  end.

(** The recursive walk of [replace_leaf]. The closure is a [FnOnce] kept in an
    [Option] that the matching leaf takes; finding it taken is the [expect]. *)
Fixpoint replace_leaf_go (n : LayoutNode) (target : Uuid) (f : option (LayoutNode → LayoutNode))
    : option (LayoutNode * option (LayoutNode → LayoutNode)) :=
  match n with
  | Leaf pane_id =>
      if bool_decide (pane_id = target) then
        let! g := f in Some (g (Leaf pane_id), None)
      else Some (n, f)
  | Split o children =>
      let! (children', f') :=
        (fix walk (cs : list (LayoutNode * spec_float)) f :=
           match cs with
           | [] => Some ([], f)
           | (c, r) :: cs =>
               let! (c', f1) := replace_leaf_go c target f in
               let! (cs', f2) := walk cs f1 in
               Some ((c', r) :: cs', f2)
           end) children f in
      Some (Split o children', f')
  end.

Definition replace_leaf (n : LayoutNode) (target : Uuid) (f : LayoutNode → LayoutNode)
    : option LayoutNode :=
  let! (n', _) := replace_leaf_go n target (Some f) in Some n'.

Definition find_rect (rects : list (Uuid * PtyRect)) (target : Uuid) : option PtyRect :=
  snd <$> find (λ e, bool_decide (fst e = target)) rects.

(** The tree (mutated in place by the code) and the outcome. *)
Definition split (self : LayoutNode) (target : Uuid) (orientation : Orientation) (new_pane : Uuid)
    (window_rows window_cols : Z) : option (LayoutNode * result unit LayoutError) :=
  if negb (contains self target) then Some (self, Err (LPaneNotFound target))
  else
    let! rects := compute_geometry self window_rows window_cols in
    let! target_rect := find_rect rects target in
    let '(new_rows, new_cols) :=
      match orientation with
      | Horizontal => (rect_rows target_rect, rect_cols target_rect / 2)
      | Vertical => (rect_rows target_rect / 2, rect_cols target_rect)
      end in
    if (new_rows <? MIN_PANE_ROWS) || (new_cols <? MIN_PANE_COLS) then
      Some (self, Err (LBelowMinimumSize new_rows new_cols))
    else if bool_decide (orientation = Horizontal) && (new_rows <? RECOMMENDED_SPLIT_MIN_ROWS) then
      Some (self, Err (LBelowRecommendedSize new_rows))
    else
      let! self' :=
        replace_leaf self target
          (λ old_leaf, Split orientation [(old_leaf, f32_half); (leaf new_pane, f32_half)]) in
      Some (self', Ok tt).

Definition is_leaf (n : LayoutNode) : bool :=
  match n with Leaf _ => true | Split _ _ => false end.

(** The code pops the last two children; [None] is the [unwrap] on a shorter [Vec]. *)
Fixpoint remove (self : LayoutNode) (pane_id : Uuid) : option RemoveOutcome :=
  match self with
  | Leaf id => if bool_decide (id = pane_id) then Some WindowEmpty else Some (Collapsed self)
  | Split orientation children =>
      match rev (map (λ c, (c, remove (fst c) pane_id)) children) with
      | ((second, second_ratio), second_removed) :: ((first, first_ratio), first_removed) :: _ =>
          let first_has_target := contains first pane_id in
          let second_has_target := contains second pane_id in
          if first_has_target && is_leaf first then Some (Collapsed second)
          else if second_has_target && is_leaf second then Some (Collapsed first)
          else if first_has_target then
            let! o := first_removed in
            match o with
            | Collapsed new_first =>
                Some (Collapsed (Split orientation [(new_first, first_ratio); (second, second_ratio)]))
            | WindowEmpty => Some (Collapsed second)
            end
          else if second_has_target then
            let! o := second_removed in
            match o with
            | Collapsed new_second =>
                Some (Collapsed (Split orientation [(first, first_ratio); (new_second, second_ratio)]))
            | WindowEmpty => Some (Collapsed first)
            end
          else Some (Collapsed (Split orientation [(first, first_ratio); (second, second_ratio)]))
      | _ => None
      end
  end.

(** ** Invariant *)

(** Every split has exactly two children, with ratios between 0 and 1. *)
Fixpoint wf_layout (n : LayoutNode) : bool :=
  match n with
  | Leaf _ => true
  | Split _ [(a, ra); (b, rb)] =>
      unit_interval ra && unit_interval rb && wf_layout a && wf_layout b
  | Split _ _ => false
  end.

(** Induction over well-formed trees. *)
Lemma wf_layout_ind (P : LayoutNode → Prop) :
  (∀ id, P (Leaf id)) →
  (∀ o a ra b rb,
     unit_interval ra = true → unit_interval rb = true →
     wf_layout a = true → wf_layout b = true → P a → P b → P (Split o [(a, ra); (b, rb)])) →
  ∀ n, wf_layout n = true → P n.
Proof.
  intros HL HS. fix IH 1. intros [id|o [|[a ra] [|[b rb] [|]]]]; simpl; intros Hwf; try done.
  apply andb_true_iff in Hwf as [Hwf Hb]. apply andb_true_iff in Hwf as [Hwf Ha].
  apply andb_true_iff in Hwf as [Hra Hrb]. by apply HS; auto.
Qed.

(** Starts an induction on the well-formed tree the goal quantifies over. *)
Ltac layout_induction :=
  lazymatch goal with
  | |- ∀ n, wf_layout n = true → @?Q n => apply (wf_layout_ind Q); cbv beta
  end;
  [intros id | intros o a ra b rb Hra Hrb Hwa Hwb IHa IHb].

Lemma leaves_split o a ra b rb : leaves (Split o [(a, ra); (b, rb)]) = leaves a ++ leaves b.
Proof. simpl. by rewrite app_nil_r. Qed.

Lemma contains_split o a ra b rb id :
  contains (Split o [(a, ra); (b, rb)]) id = contains a id || contains b id.
Proof. simpl. by rewrite orb_false_r. Qed.

Lemma wf_split o a ra b rb :
  wf_layout (Split o [(a, ra); (b, rb)]) =
  unit_interval ra && unit_interval rb && wf_layout a && wf_layout b.
Proof. done. Qed.

Create Rewrite HintDb layout.
#[export] Hint Rewrite leaves_split contains_split wf_split : layout.

Lemma contains_leaves n : wf_layout n = true → ∀ id, contains n id = true ↔ id ∈ leaves n.
Proof.
  revert n. layout_induction; intros id'.
  - simpl. rewrite bool_decide_eq_true. set_solver.
  - autorewrite with layout. rewrite orb_true_iff, IHa, IHb. set_solver.
Qed.

Lemma contains_false n id : wf_layout n = true → id ∉ leaves n → contains n id = false.
Proof.
  intros Hwf Hid. destruct (contains n id) eqn:E; [|done].
  by apply contains_leaves in E.
Qed.

Lemma contains_true n id : wf_layout n = true → id ∈ leaves n → contains n id = true.
Proof. intros. by apply contains_leaves. Qed.

Lemma leaves_nonempty n : wf_layout n = true → leaves n ≠ [].
Proof.
  revert n. layout_induction; [done|]. autorewrite with layout. by destruct (leaves a).
Qed.

(** ** Geometry *)

Lemma split_extent_bounds e r :
  is_u16 e → unit_interval r = true → 0 ≤ split_extent e r ≤ e.
Proof. apply floor_mul_unit_bounds. Qed.

(** The ratio every [split] installs halves the extent, rounding down. *)
Lemma split_extent_half e : is_u16 e → split_extent e f32_half = e / 2.
Proof. apply floor_half. Qed.

(** [rect] lies inside the rectangle at [(row, col)] of size [rows x cols]. *)
Definition rect_inside (row col rows cols : Z) (rect : PtyRect) : Prop :=
  row ≤ rect_row rect ∧ col ≤ rect_col rect ∧ 0 ≤ rect_rows rect ∧ 0 ≤ rect_cols rect ∧
  rect_row rect + rect_rows rect ≤ row + rows ∧ rect_col rect + rect_cols rect ≤ col + cols.

Definition covers (r c : Z) (rect : PtyRect) : bool :=
  (rect_row rect <=? r) && (r <? rect_row rect + rect_rows rect) &&
  (rect_col rect <=? c) && (c <? rect_col rect + rect_cols rect).

(** How many of the rectangles contain the cell. *)
Definition cover_count (r c : Z) (rects : list (Uuid * PtyRect)) : nat :=
  length (filter (λ e, covers r c (snd e) = true) rects).

Lemma cover_count_app r c l1 l2 : cover_count r c (l1 ++ l2) = (cover_count r c l1 + cover_count r c l2)%nat.
Proof. unfold cover_count. by rewrite filter_app, length_app. Qed.

(** The rectangles tile the area: each lies inside it, and each cell belongs to
    exactly one of them inside the area and to none outside. *)
Definition tiles (row col rows cols : Z) (rects : list (Uuid * PtyRect)) : Prop :=
  Forall (λ e, rect_inside row col rows cols (snd e)) rects ∧
  ∀ r c, cover_count r c rects = if covers r c (mkRect row col rows cols) then 1%nat else 0%nat.

Lemma tiles_single id row col rows cols :
  0 ≤ rows → 0 ≤ cols → tiles row col rows cols [(id, mkRect row col rows cols)].
Proof.
  intros. split.
  - constructor; [|constructor]. unfold rect_inside; simpl; lia.
  - intros r c. unfold cover_count. simpl. rewrite filter_cons, filter_nil. simpl.
    destruct (covers r c _); by case_decide.
Qed.

Lemma tiles_join row col rows cols row2 col2 r1 c1 r2 c2 l1 l2 :
  tiles row col r1 c1 l1 → tiles row2 col2 r2 c2 l2 →
  0 ≤ r1 → 0 ≤ c1 → 0 ≤ r2 → 0 ≤ c2 →
  (row2 = row ∧ col2 = col + c1 ∧ r1 = rows ∧ r2 = rows ∧ c1 + c2 = cols ∨
   row2 = row + r1 ∧ col2 = col ∧ c1 = cols ∧ c2 = cols ∧ r1 + r2 = rows) →
  tiles row col rows cols (l1 ++ l2).
Proof.
  intros [Hin1 Hc1] [Hin2 Hc2] ???? Hgeo. split.
  - apply Forall_app. split; [eapply Forall_impl; [exact Hin1|]|eapply Forall_impl; [exact Hin2|]];
      unfold rect_inside; simpl; intros; lia.
  - intros r c. rewrite cover_count_app, Hc1, Hc2. unfold covers; simpl.
    repeat match goal with |- context [?x <=? ?y] => destruct (Z.leb_spec x y) end;
    repeat match goal with |- context [?x <? ?y] => destruct (Z.ltb_spec x y) end; simpl; lia.
Qed.

Lemma compute_geometry_at_tiles n :
  wf_layout n = true → ∀ row col rows cols,
  0 ≤ row → 0 ≤ col → 0 ≤ rows → 0 ≤ cols → row + rows ≤ u16_max → col + cols ≤ u16_max →
  ∃ rects, compute_geometry_at n row col rows cols = Some rects ∧
           map fst rects = leaves n ∧ tiles row col rows cols rects.
Proof.
  revert n. layout_induction; intros row col rows cols Hrow Hcol Hrows Hcols Hr Hc.
  - eexists. split; [done|]. split; [done|]. by apply tiles_single.
  - destruct o.
    + destruct (split_extent_bounds cols ra) as [H1 H2]; [machine_int|done|].
      destruct (IHa row col rows (split_extent cols ra)) as (l1 & E1 & F1 & T1); try lia.
      destruct (IHb row (col + split_extent cols ra) rows (cols - split_extent cols ra))
        as (l2 & E2 & F2 & T2); try lia.
      exists (l1 ++ l2). rewrite map_app, F1, F2, leaves_split. split; [|split; [done|]].
      * simpl. by rewrite u16_sub_ok, E1, u16_add_ok, E2 by lia.
      * eapply tiles_join; eauto; lia.
    + destruct (split_extent_bounds rows ra) as [H1 H2]; [machine_int|done|].
      destruct (IHa row col (split_extent rows ra) cols) as (l1 & E1 & F1 & T1); try lia.
      destruct (IHb (row + split_extent rows ra) col (rows - split_extent rows ra) cols)
        as (l2 & E2 & F2 & T2); try lia.
      exists (l1 ++ l2). rewrite map_app, F1, F2, leaves_split. split; [|split; [done|]].
      * simpl. by rewrite u16_sub_ok, E1, u16_add_ok, E2 by lia.
      * eapply tiles_join; eauto; lia.
Qed.

(** ** Splitting *)

(** Reference for [replace_leaf]: substitution of the target leaf by [t]. *)
Fixpoint subst_leaf (n : LayoutNode) (target : Uuid) (t : LayoutNode) : LayoutNode :=
  match n with
  | Leaf id => if bool_decide (id = target) then t else Leaf id
  | Split o children => Split o (map (λ c, (subst_leaf (fst c) target t, snd c)) children)
  end.

Lemma replace_leaf_go_absent n :
  wf_layout n = true → ∀ target f, target ∉ leaves n → replace_leaf_go n target f = Some (n, f).
Proof.
  revert n. layout_induction; intros target f.
  - simpl. rewrite elem_of_cons. intros Hne. rewrite bool_decide_false by naive_solver. done.
  - rewrite leaves_split, not_elem_of_app. intros [Ha Hb].
    simpl. rewrite IHa by done. simpl. rewrite IHb by done. done.
Qed.

Lemma subst_leaf_absent n :
  wf_layout n = true → ∀ target t, target ∉ leaves n → subst_leaf n target t = n.
Proof.
  revert n. layout_induction; intros target t.
  - simpl. rewrite elem_of_cons. intros Hne. rewrite bool_decide_false by naive_solver. done.
  - rewrite leaves_split, not_elem_of_app. intros [Ha Hb]. simpl. by rewrite IHa, IHb.
Qed.

Lemma replace_leaf_go_present n :
  wf_layout n = true → ∀ target f, target ∈ leaves n → NoDup (leaves n) →
  replace_leaf_go n target (Some f) = Some (subst_leaf n target (f (Leaf target)), None).
Proof.
  revert n. layout_induction; intros target f.
  - simpl. intros Hin _. apply list_elem_of_singleton in Hin as ->.
    by rewrite bool_decide_true.
  - rewrite leaves_split, elem_of_app. intros Hin Hnd. apply NoDup_app in Hnd as (Hna & Hab & Hnb).
    simpl. destruct Hin as [Hin|Hin].
    + rewrite IHa by done. simpl. rewrite replace_leaf_go_absent by (auto; by apply Hab). simpl.
      rewrite (subst_leaf_absent b) by (auto; by apply Hab). done.
    + assert (target ∉ leaves a) by (intros ?; by eapply Hab).
      rewrite replace_leaf_go_absent by done. simpl. rewrite IHb by done. simpl.
      by rewrite (subst_leaf_absent a) by done.
Qed.

Lemma replace_leaf_present n target f :
  wf_layout n = true → target ∈ leaves n → NoDup (leaves n) →
  replace_leaf n target f = Some (subst_leaf n target (f (Leaf target))).
Proof. intros. unfold replace_leaf. by rewrite replace_leaf_go_present. Qed.

Lemma wf_subst_leaf n :
  wf_layout n = true → ∀ target t, wf_layout t = true → wf_layout (subst_leaf n target t) = true.
Proof.
  revert n. layout_induction; intros target t Ht; simpl.
  - by case_bool_decide.
  - by rewrite Hra, Hrb, IHa, IHb.
Qed.

Lemma leaves_subst_leaf n :
  wf_layout n = true → ∀ target t,
  leaves (subst_leaf n target t) =
  flat_map (λ id, if bool_decide (id = target) then leaves t else [id]) (leaves n).
Proof.
  revert n. layout_induction; intros target t.
  - simpl. case_bool_decide; by rewrite app_nil_r.
  - change (subst_leaf (Split o [(a, ra); (b, rb)]) target t)
      with (Split o [(subst_leaf a target t, ra); (subst_leaf b target t, rb)]).
    by rewrite !leaves_split, flat_map_app, IHa, IHb.
Qed.

(** The rectangle halves a split of [rect] produces. *)
Definition halves (o : Orientation) (rect : PtyRect) : PtyRect * PtyRect :=
  let 'mkRect row col rows cols := rect in
  match o with
  | Horizontal => (mkRect row col rows (cols / 2), mkRect row (col + cols / 2) rows (cols - cols / 2))
  | Vertical => (mkRect row col (rows / 2) cols, mkRect (row + rows / 2) col (rows - rows / 2) cols)
  end.

Definition split_node (target new_pane : Uuid) (o : Orientation) : LayoutNode :=
  Split o [(Leaf target, f32_half); (Leaf new_pane, f32_half)].

(** A geometry with the target's rectangle replaced by its two halves. *)
Definition split_rects (target new_pane : Uuid) (o : Orientation) (rects : list (Uuid * PtyRect))
    : list (Uuid * PtyRect) :=
  flat_map (λ e, if bool_decide (fst e = target)
                 then let '(r1, r2) := halves o (snd e) in [(target, r1); (new_pane, r2)]
                 else [e]) rects.

Lemma split_node_geometry target new_pane o row col rows cols :
  0 ≤ row → 0 ≤ col → 0 ≤ rows → 0 ≤ cols → row + rows ≤ u16_max → col + cols ≤ u16_max →
  compute_geometry_at (split_node target new_pane o) row col rows cols =
  Some (let '(r1, r2) := halves o (mkRect row col rows cols) in [(target, r1); (new_pane, r2)]).
Proof.
  intros. destruct o; simpl.
  - rewrite split_extent_half by machine_int.
    by rewrite u16_sub_ok, u16_add_ok by lia_div.
  - rewrite split_extent_half by machine_int.
    by rewrite u16_sub_ok, u16_add_ok by lia_div.
Qed.

(** Reads off the parts of a successful two-child geometry. *)
Ltac geometry_inv :=
  match goal with
  | H : match u16_sub _ _ with _ => _ end = Some _ |- _ =>
      let l1 := fresh "l1" in let l2 := fresh "l2" in
      destruct (u16_sub _ _) as [?|] eqn:Hsub in H; [|done]; apply u16_sub_Some in Hsub as [? ->];
      destruct (compute_geometry_at _ _ _ _ _) as [l1|] eqn:Hga in H; [|done];
      destruct (u16_add _ _) as [?|] eqn:Hadd in H; [|done]; apply u16_add_Some in Hadd as [? ->];
      destruct (compute_geometry_at _ _ _ _ _) as [l2|] eqn:Hgb in H; [|done];
      injection H as <-
  end;
  rewrite u16_sub_ok, u16_add_ok by lia.

Lemma subst_split_geometry n :
  wf_layout n = true → ∀ target new_pane o row col rows cols rects,
  0 ≤ row → 0 ≤ col → 0 ≤ rows → 0 ≤ cols → row + rows ≤ u16_max → col + cols ≤ u16_max →
  compute_geometry_at n row col rows cols = Some rects →
  compute_geometry_at (subst_leaf n target (split_node target new_pane o)) row col rows cols
  = Some (split_rects target new_pane o rects).
Proof.
  revert n. layout_induction; intros target new_pane o' row col rows cols rects ?????? Hg.
  - cbn [compute_geometry_at] in Hg. simplify_eq. unfold split_rects. cbn [subst_leaf flat_map fst snd].
    rewrite app_nil_r. case_bool_decide; [|done]. by rewrite split_node_geometry.
  - change (subst_leaf (Split o [(a, ra); (b, rb)]) target ?t)
      with (Split o [(subst_leaf a target t, ra); (subst_leaf b target t, rb)]).
    destruct o; cbn [compute_geometry_at] in *; geometry_inv.
    + destruct (split_extent_bounds cols ra) as [Hb1 Hb2]; [machine_int|done|].
      rewrite (IHa _ _ _ _ _ _ _ l1) by (done || lia). cbv beta iota.
      rewrite (IHb _ _ _ _ _ _ _ l2) by (done || lia).
      unfold split_rects. by rewrite flat_map_app.
    + destruct (split_extent_bounds rows ra) as [Hb1 Hb2]; [machine_int|done|].
      rewrite (IHa _ _ _ _ _ _ _ l1) by (done || lia). cbv beta iota.
      rewrite (IHb _ _ _ _ _ _ _ l2) by (done || lia).
      unfold split_rects. by rewrite flat_map_app.
Qed.

Lemma find_rect_Some rects target :
  target ∈ map fst rects → ∃ rect, find_rect rects target = Some rect ∧ (target, rect) ∈ rects.
Proof.
  unfold find_rect. induction rects as [|[id r] rects IH]; simpl; [by rewrite elem_of_nil|].
  case_bool_decide as E; simpl.
  - intros _. subst. exists r. split; [done|]. by left.
  - intros [?|Hin]%elem_of_cons; [congruence|].
    destruct (IH Hin) as (rect & Hf & He). exists rect. split; [done|]. by right.
Qed.

Lemma NoDup_fst_unique {A B} (l : list (A * B)) k v1 v2 :
  NoDup (map fst l) → (k, v1) ∈ l → (k, v2) ∈ l → v1 = v2.
Proof.
  induction l as [|[k' v'] l IH]; simpl; [by rewrite elem_of_nil|].
  rewrite NoDup_cons, !elem_of_cons. intros [Hk Hnd] [?|H1] [?|H2]; simplify_eq; auto.
  - destruct Hk. by apply (list_elem_of_fmap_2 fst) in H2.
  - destruct Hk. by apply (list_elem_of_fmap_2 fst) in H1.
Qed.

(** The geometry of a whole window exists, lists the leaves in order and tiles
    the window. *)
Lemma compute_geometry_ok n rows cols :
  wf_layout n = true → is_u16 rows → is_u16 cols →
  ∃ rects, compute_geometry n rows cols = Some rects ∧ map fst rects = leaves n
           ∧ tiles 0 0 rows cols rects.
Proof. intros Hwf Hr Hc. apply compute_geometry_at_tiles; unfold is_u16 in *; try done; lia. Qed.

(** The size a split of [rect] would give each half along the split axis. *)
Definition split_size (o : Orientation) (rect : PtyRect) : Z * Z :=
  match o with
  | Horizontal => (rect_rows rect, rect_cols rect / 2)
  | Vertical => (rect_rows rect / 2, rect_cols rect)
  end.

(** The decision [split] takes on the target's rectangle. *)
Definition split_check (o : Orientation) (rect : PtyRect) : option LayoutError :=
  let '(r, c) := split_size o rect in
  if (r <? MIN_PANE_ROWS) || (c <? MIN_PANE_COLS) then Some (LBelowMinimumSize r c)
  else if bool_decide (o = Horizontal) && (r <? RECOMMENDED_SPLIT_MIN_ROWS)
  then Some (LBelowRecommendedSize r) else None.

Lemma split_spec n target o new_pane rows cols :
  wf_layout n = true → NoDup (leaves n) → is_u16 rows → is_u16 cols → target ∈ leaves n →
  ∃ rects rect,
    compute_geometry n rows cols = Some rects ∧ (target, rect) ∈ rects ∧
    split n target o new_pane rows cols =
    Some (match split_check o rect with
          | Some e => (n, Err e)
          | None => (subst_leaf n target (split_node target new_pane o), Ok tt)
          end).
Proof.
  intros Hwf Hnd Hr Hc Hin.
  destruct (compute_geometry_ok n rows cols Hwf Hr Hc) as (rects & Hg & Hfst & _).
  destruct (find_rect_Some rects target) as (rect & Hf & He); [by rewrite Hfst|].
  exists rects, rect. split; [done|]. split; [done|].
  unfold split. rewrite contains_true by done. simpl. rewrite Hg, Hf.
  unfold split_check, split_size. rewrite replace_leaf_present by done.
  destruct o; simpl; repeat case_match; done.
Qed.

Lemma split_absent n target o new_pane rows cols :
  wf_layout n = true → target ∉ leaves n →
  split n target o new_pane rows cols = Some (n, Err (LPaneNotFound target)).
Proof. intros Hwf Hin. unfold split. by rewrite contains_false. Qed.

Lemma NoDup_flat_map_insert (l : list Uuid) target new_pane :
  NoDup l → new_pane ∉ l →
  NoDup (flat_map (λ id, if bool_decide (id = target) then [target; new_pane] else [id]) l).
Proof.
  intros Hnd Hnew. induction Hnd as [|x l Hx Hnd IH]; simpl; [constructor|].
  apply not_elem_of_cons in Hnew as [Hne Hnew].
  assert (Hsub : ∀ y, y ∈ flat_map (λ id, if bool_decide (id = target) then [target; new_pane] else [id]) l →
                      y ∈ l ∨ (y = new_pane ∧ target ∈ l)).
  { intros y. rewrite list_elem_of_In, in_flat_map. intros (z & Hz & Hy).
    apply list_elem_of_In in Hz. case_bool_decide; simpl in Hy; destruct Hy as [<-|Hy]; subst; auto.
    - destruct Hy as [<-|[]]; auto.
    - destruct Hy. }
  case_bool_decide; subst; simpl; rewrite !NoDup_cons.
  - split; [|split]; auto.
    + rewrite elem_of_cons. intros [?|Hin]; [congruence|]. apply Hsub in Hin. naive_solver.
    + intros Hin. apply Hsub in Hin. naive_solver.
  - split; auto. intros Hin. apply Hsub in Hin. naive_solver.
Qed.

(** Each half of a rectangle that passed the check respects the hard minimum. *)
Lemma split_check_min o rect r1 r2 :
  split_check o rect = None → halves o rect = (r1, r2) →
  Forall (λ r, MIN_PANE_ROWS ≤ rect_rows r ∧ MIN_PANE_COLS ≤ rect_cols r) [r1; r2].
Proof.
  destruct rect as [row col rows cols]. unfold split_check, split_size, halves.
  destruct o; simpl; intros Hc Hh; simplify_eq; simpl.
  all: destruct (_ || _) eqn:E; [done|]; b2p.
  all: repeat constructor; simpl; unfold MIN_PANE_ROWS, MIN_PANE_COLS in *; lia_div.
Qed.

Lemma elem_of_split_rects target new_pane o rects id rect :
  (id, rect) ∈ split_rects target new_pane o rects →
  (id ≠ target ∧ (id, rect) ∈ rects) ∨
  ∃ r0 r1 r2, (target, r0) ∈ rects ∧ halves o r0 = (r1, r2) ∧
    ((id = target ∧ rect = r1) ∨ (id = new_pane ∧ rect = r2)).
Proof.
  unfold split_rects. rewrite list_elem_of_In, in_flat_map. intros ([id' r0] & Hin & Hx).
  apply list_elem_of_In in Hin. simpl in Hx. case_bool_decide; subst.
  - destruct (halves o r0) as [r1 r2] eqn:E. right. exists r0, r1, r2.
    simpl in Hx. naive_solver.
  - destruct Hx as [[= <- <-]|[]]. by left.
Qed.

(** ** Removing *)

(** [remove] on a two-child split, with the pops resolved. *)
Lemma remove_split o a ra b rb id :
  remove (Split o [(a, ra); (b, rb)]) id =
  if contains a id && is_leaf a then Some (Collapsed b)
  else if contains b id && is_leaf b then Some (Collapsed a)
  else if contains a id then
    let! out := remove a id in
    match out with
    | Collapsed a' => Some (Collapsed (Split o [(a', ra); (b, rb)]))
    | WindowEmpty => Some (Collapsed b)
    end
  else if contains b id then
    let! out := remove b id in
    match out with
    | Collapsed b' => Some (Collapsed (Split o [(a, ra); (b', rb)]))
    | WindowEmpty => Some (Collapsed a)
    end
  else Some (Collapsed (Split o [(a, ra); (b, rb)])).
Proof. done. Qed.

Lemma contains_leaf_eq n id : contains n id = true → is_leaf n = true → n = Leaf id.
Proof. destruct n; simpl; [|done]. intros ->%bool_decide_eq_true _. done. Qed.

Lemma filter_ne_absent (l : list Uuid) id : id ∉ l → filter (λ x, x ≠ id) l = l.
Proof.
  induction l as [|x l IH]; [done|]. rewrite not_elem_of_cons. intros [? ?].
  by rewrite filter_cons_True, IH.
Qed.

Lemma remove_absent n : wf_layout n = true → ∀ id, id ∉ leaves n → remove n id = Some (Collapsed n).
Proof.
  revert n. layout_induction; intros id'.
  - simpl. rewrite elem_of_cons. intros. rewrite bool_decide_false by naive_solver. done.
  - rewrite leaves_split, not_elem_of_app. intros [Ha Hb].
    by rewrite remove_split, (contains_false a), (contains_false b).
Qed.

(** What removing one pane does to a well-formed tree. *)
Definition remove_post (n : LayoutNode) (id : Uuid) (out : RemoveOutcome) : Prop :=
  match out with
  | WindowEmpty => n = Leaf id
  | Collapsed n' => wf_layout n' = true ∧ leaves n' = filter (λ x, x ≠ id) (leaves n)
  end.

Lemma remove_ok n :
  wf_layout n = true → ∀ id, NoDup (leaves n) →
  ∃ out, remove n id = Some out ∧ remove_post n id out.
Proof.
  revert n. layout_induction; intros id'.
  - intros _. simpl. case_bool_decide; eexists; (split; [done|]); simpl; subst; [done|].
    split; [done|]. by rewrite filter_cons_True, filter_nil.
  - rewrite leaves_split. intros Hnd. apply NoDup_app in Hnd as (Hna & Hab & Hnb).
    rewrite remove_split. unfold remove_post. rewrite leaves_split, filter_app.
    destruct (contains a id') eqn:Ca.
    + assert (Hin : id' ∈ leaves a) by by apply contains_leaves.
      assert (Hb : id' ∉ leaves b) by by apply Hab.
      rewrite (contains_false b), (filter_ne_absent (leaves b)) by done.
      destruct (is_leaf a) eqn:La; cbn [andb].
      * apply contains_leaf_eq in Ca as ->; [|done]. eexists; split; [done|]. split; [done|].
        simpl. by rewrite filter_cons_False, filter_nil by naive_solver.
      * destruct (IHa id' Hna) as ([a'|] & -> & Hp); simpl in Hp; [|by subst].
        eexists; split; [done|]. cbv beta iota. autorewrite with layout. destruct Hp as [-> ->]. by rewrite Hra, Hrb, Hwb.
    + assert (Ha : id' ∉ leaves a) by (intros ?%contains_leaves; congruence).
      rewrite (filter_ne_absent (leaves a)) by done. cbn [andb].
      destruct (contains b id') eqn:Cb; cbn [andb].
      * destruct (is_leaf b) eqn:Lb.
        { apply contains_leaf_eq in Cb as ->; [|done]. eexists; split; [done|]. split; [done|].
          simpl. by rewrite filter_cons_False, filter_nil, app_nil_r by naive_solver. }
        destruct (IHb id' Hnb) as ([b'|] & -> & Hp); simpl in Hp; [|by subst].
        eexists; split; [done|]. cbv beta iota. autorewrite with layout. destruct Hp as [-> ->]. by rewrite Hra, Hrb, Hwa.
      * eexists; split; [done|]. cbv beta iota. autorewrite with layout.
        assert (Hb : id' ∉ leaves b) by (intros ?%contains_leaves; congruence).
        rewrite filter_ne_absent by done. by rewrite Hra, Hrb, Hwa, Hwb.
Qed.

Lemma is_leaf_subst n target new_pane o :
  is_leaf (subst_leaf n target (split_node target new_pane o)) = true → 
  subst_leaf n target (split_node target new_pane o) = n.
Proof. destruct n; simpl; [|done]. by case_bool_decide. Qed.

Lemma elem_of_leaves_subst n target new_pane o :
  wf_layout n = true →
  ∀ x, x ∈ leaves (subst_leaf n target (split_node target new_pane o)) ↔
       x ∈ leaves n ∨ (x = new_pane ∧ target ∈ leaves n).
Proof.
  intros Hwf x. rewrite leaves_subst_leaf by done. rewrite list_elem_of_In, in_flat_map. split.
  - intros (y & Hy & Hx). apply list_elem_of_In in Hy.
    case_bool_decide; simpl in Hx; naive_solver.
  - intros [Hin|[-> Hin]].
    + exists x. apply list_elem_of_In in Hin. split; [done|]. case_bool_decide; subst; by left.
    + exists target. apply list_elem_of_In in Hin. split; [done|].
      rewrite bool_decide_true by done. simpl. auto.
Qed.

Lemma split_then_remove n :
  wf_layout n = true → ∀ target new_pane o,
  NoDup (leaves n) → target ∈ leaves n → new_pane ∉ leaves n →
  remove (subst_leaf n target (split_node target new_pane o)) new_pane = Some (Collapsed n).
Proof.
  revert n. layout_induction; intros target new_pane o'; rewrite ?leaves_split.
  - intros _ ->%list_elem_of_singleton Hne. apply not_elem_of_cons in Hne as [Hne _].
    simpl subst_leaf. rewrite bool_decide_true by done. unfold split_node. rewrite remove_split.
    simpl. rewrite bool_decide_false, bool_decide_true by congruence. done.
  - intros Hnd Hin Hnew. apply NoDup_app in Hnd as (Hna & Hab & Hnb).
    apply not_elem_of_app in Hnew as [Hnewa Hnewb].
    change (subst_leaf (Split o [(a, ra); (b, rb)]) target ?t)
      with (Split o [(subst_leaf a target t, ra); (subst_leaf b target t, rb)]).
    assert (Hwt : wf_layout (split_node target new_pane o') = true) by done.
    apply elem_of_app in Hin as [Hin|Hin].
    + assert (Htb : target ∉ leaves b) by by apply Hab.
      rewrite (subst_leaf_absent b), remove_split by done.
      rewrite (contains_false b), (contains_true (subst_leaf a _ _)) by
        (auto using wf_subst_leaf; apply elem_of_leaves_subst; auto).
      destruct (is_leaf (subst_leaf a _ _)) eqn:L; cbn [andb].
      { apply is_leaf_subst in L. exfalso. apply Hnewa. rewrite <- L.
        apply elem_of_leaves_subst; auto. }
      by rewrite IHa.
    + assert (Hta : target ∉ leaves a) by (intros ?; by eapply Hab).
      rewrite (subst_leaf_absent a), remove_split by done.
      rewrite (contains_false a), (contains_true (subst_leaf b _ _)) by
        (auto using wf_subst_leaf; apply elem_of_leaves_subst; auto).
      destruct (is_leaf (subst_leaf b _ _)) eqn:L; cbn [andb].
      { apply is_leaf_subst in L. exfalso. apply Hnewb. rewrite <- L.
        apply elem_of_leaves_subst; auto. }
      by rewrite IHb.
Qed.

(** ** Properties *)

(** C31. For a well-formed layout and any [u16] window size, [compute_geometry]
    does not overflow, yields one rectangle per leaf in tree order, and the
    rectangles tile the window exactly: every cell of the window belongs to one
    pane, no cell to two, and no rectangle leaves the window. This holds for every
    pair of [f32] ratios in [0, 1], rounding included. *)
Theorem geometry_tiles_window (n : LayoutNode) (rows cols : Z) :
  wf_layout n = true → is_u16 rows → is_u16 cols →
  ∃ rects, compute_geometry n rows cols = Some rects ∧ map fst rects = leaves n
           ∧ tiles 0 0 rows cols rects.
Proof. apply compute_geometry_ok. Qed.

(** A three-pane window used by the witnesses: pane 1 beside a stack of 2 over 3. *)
Definition sample_layout : LayoutNode :=
  Split Horizontal [(Leaf 1%N, f32_half); (Split Vertical [(Leaf 2%N, f32_half); (Leaf 3%N, f32_half)], f32_half)].

Lemma geometry_tiles_window_witness :
  compute_geometry sample_layout 25 81 =
    Some [(1%N, mkRect 0 0 25 40); (2%N, mkRect 0 40 12 41); (3%N, mkRect 12 40 13 41)] ∧
  ∃ rects, compute_geometry sample_layout 25 81 = Some rects ∧ map fst rects = leaves sample_layout
           ∧ tiles 0 0 25 81 rects.
Proof.
  split; [vm_compute; reflexivity|].
  apply geometry_tiles_window; [vm_compute; reflexivity|unfold is_u16, u16_max; lia|unfold is_u16, u16_max; lia].
Defined.

(** A successful [split] of a pane keeps the tree well formed and its leaves
    distinct, puts the new pane right after the target, leaves every other
    pane's rectangle untouched, gives target and new pane the two halves of the
    target's old rectangle, and both halves respect [MIN_PANE_ROWS] x
    [MIN_PANE_COLS]. *)
Theorem split_success (n n' : LayoutNode) (target new_pane : Uuid) (o : Orientation) (rows cols : Z) :
  wf_layout n = true → NoDup (leaves n) → new_pane ∉ leaves n → is_u16 rows → is_u16 cols →
  split n target o new_pane rows cols = Some (n', Ok tt) →
  wf_layout n' = true ∧ NoDup (leaves n') ∧
  leaves n' = flat_map (λ id, if bool_decide (id = target) then [target; new_pane] else [id]) (leaves n) ∧
  ∃ rects, compute_geometry n rows cols = Some rects ∧
    compute_geometry n' rows cols = Some (split_rects target new_pane o rects) ∧
    ∀ id rect, (id, rect) ∈ split_rects target new_pane o rects → id = target ∨ id = new_pane →
      MIN_PANE_ROWS ≤ rect_rows rect ∧ MIN_PANE_COLS ≤ rect_cols rect.
Proof.
  intros Hwf Hnd Hnew Hr Hc Hs.
  destruct (decide (target ∈ leaves n)) as [Hin|Hin]; [|by rewrite split_absent in Hs].
  destruct (split_spec n target o new_pane rows cols) as (rects & rect & Hg & He & Hs'); try done.
  rewrite Hs' in Hs. destruct (split_check o rect) eqn:Hck; simplify_eq.
  split; [by apply wf_subst_leaf|]. rewrite leaves_subst_leaf by done.
  split; [by apply NoDup_flat_map_insert|]. split; [done|].
  exists rects. split; [done|]. split.
  { unfold compute_geometry. apply subst_split_geometry; unfold is_u16 in *; try done; lia. }
  destruct (compute_geometry_ok n rows cols Hwf Hr Hc) as (rects' & Hg' & Hfst & _). simplify_eq.
  intros id rect0 Hin0 Hid. apply elem_of_split_rects in Hin0 as [[Hne Hin0]|(r0 & r1 & r2 & H0 & Hh & Hr0)].
  - destruct Hid as [->| ->]; [done|]. destruct Hnew. rewrite <- Hfst.
    by apply (list_elem_of_fmap_2 fst) in Hin0.
  - assert (r0 = rect) as ->. { eapply NoDup_fst_unique; eauto. by rewrite Hfst. }
    pose proof (split_check_min _ _ _ _ Hck Hh) as Hm. rewrite !Forall_cons in Hm.
    destruct Hr0 as [[_ ->]|[_ ->]]; tauto.
Qed.

Lemma split_success_witness :
  split sample_layout 1%N Horizontal 9%N 50 81 =
    Some (Split Horizontal [(Split Horizontal [(Leaf 1%N, f32_half); (Leaf 9%N, f32_half)], f32_half);
                            (Split Vertical [(Leaf 2%N, f32_half); (Leaf 3%N, f32_half)], f32_half)], Ok tt) ∧
  wf_layout (Split Horizontal [(Split Horizontal [(Leaf 1%N, f32_half); (Leaf 9%N, f32_half)], f32_half);
                            (Split Vertical [(Leaf 2%N, f32_half); (Leaf 3%N, f32_half)], f32_half)]) = true.
Proof.
  split; [vm_compute; reflexivity|].
  apply (split_success sample_layout _ 1%N 9%N Horizontal 50 81).
  - vm_compute; reflexivity.
  - apply (bool_decide_unpack _). vm_compute. exact I.
  - apply (bool_decide_unpack _). vm_compute. exact I.
  - unfold is_u16, u16_max; lia.
  - unfold is_u16, u16_max; lia.
  - vm_compute; reflexivity.
Defined.

(** [split] never panics on a well-formed layout, and rejects without
    touching the tree: an unknown target with [PaneNotFound]; a split that would
    produce a pane below the hard minimum with [BelowMinimumSize] carrying that
    size; a horizontal split of a pane shorter than the recommended minimum with
    [BelowRecommendedSize]. Otherwise it succeeds. *)
Theorem split_outcome (n : LayoutNode) (target new_pane : Uuid) (o : Orientation) (rows cols : Z) :
  wf_layout n = true → NoDup (leaves n) → is_u16 rows → is_u16 cols →
  (target ∉ leaves n → split n target o new_pane rows cols = Some (n, Err (LPaneNotFound target))) ∧
  (target ∈ leaves n → ∃ rects rect n' r,
     compute_geometry n rows cols = Some rects ∧ (target, rect) ∈ rects ∧
     split n target o new_pane rows cols = Some (n', r) ∧
     let '(h, w) := split_size o rect in
     if decide (h < MIN_PANE_ROWS ∨ w < MIN_PANE_COLS) then n' = n ∧ r = Err (LBelowMinimumSize h w)
     else if decide (o = Horizontal ∧ h < RECOMMENDED_SPLIT_MIN_ROWS)
          then n' = n ∧ r = Err (LBelowRecommendedSize h)
          else r = Ok tt).
Proof.
  intros Hwf Hnd Hr Hc. split; [by apply split_absent|]. intros Hin.
  destruct (split_spec n target o new_pane rows cols) as (rects & rect & Hg & He & Hs); try done.
  exists rects, rect. rewrite Hs. unfold split_check. destruct (split_size o rect) as [h w].
  destruct (h <? MIN_PANE_ROWS) eqn:E1, (w <? MIN_PANE_COLS) eqn:E2; cbn [orb]; b2p.
  1-3: eexists _, _; split_and!; [done..|]; by rewrite decide_True by lia.
  case_bool_decide; cbn [andb].
  - destruct (h <? RECOMMENDED_SPLIT_MIN_ROWS) eqn:E3; b2p; eexists _, _; split_and!; try done;
      rewrite decide_False by lia; [by rewrite decide_True|by rewrite decide_False by lia].
  - eexists _, _; split_and!; try done. rewrite decide_False by lia. by rewrite decide_False by naive_solver.
Qed.

Lemma split_outcome_witness :
  split (Leaf 1%N) 1%N Horizontal 2%N 19 80 = Some (Leaf 1%N, Err (LBelowRecommendedSize 19)) ∧
  split (Leaf 1%N) 1%N Vertical 2%N 3 80 = Some (Leaf 1%N, Err (LBelowMinimumSize 1 80)) ∧
  split (Leaf 1%N) 7%N Vertical 2%N 24 80 = Some (Leaf 1%N, Err (LPaneNotFound 7%N)).
Proof.
  split; [vm_compute; reflexivity|]. split; [vm_compute; reflexivity|].
  apply (split_outcome (Leaf 1%N) 7%N 2%N Vertical 24 80).
  - reflexivity.
  - apply (bool_decide_unpack _). vm_compute. exact I.
  - unfold is_u16, u16_max; lia.
  - unfold is_u16, u16_max; lia.
  - apply (bool_decide_unpack _). vm_compute. exact I.
Defined.

(** Removing a pane never panics on a well-formed layout with distinct panes:
    it reports [WindowEmpty] exactly when that pane was the whole window, and
    otherwise returns a well-formed tree whose leaves are the others, in order. *)
Theorem remove_outcome (n : LayoutNode) (id : Uuid) :
  wf_layout n = true → NoDup (leaves n) →
  ∃ out, remove n id = Some out ∧
    match out with
    | WindowEmpty => n = Leaf id
    | Collapsed n' => n ≠ Leaf id ∧ wf_layout n' = true ∧ leaves n' = filter (λ x, x ≠ id) (leaves n)
    end.
Proof.
  intros Hwf Hnd. destruct (remove_ok n Hwf id Hnd) as (out & Hr & Hp).
  exists out. split; [done|]. destruct out as [n'|]; simpl in Hp; [|done].
  split; [|done]. intros ->. simpl in Hr. by rewrite bool_decide_true in Hr.
Qed.

Lemma remove_outcome_witness :
  remove sample_layout 2%N = Some (Collapsed (Split Horizontal [(Leaf 1%N, f32_half); (Leaf 3%N, f32_half)])) ∧
  ∃ out, remove sample_layout 2%N = Some out ∧
    match out with
    | WindowEmpty => sample_layout = Leaf 2%N
    | Collapsed n' => sample_layout ≠ Leaf 2%N ∧ wf_layout n' = true ∧ leaves n' = filter (λ x, x ≠ 2%N) (leaves sample_layout)
    end.
Proof.
  split; [vm_compute; reflexivity|].
  apply remove_outcome; [vm_compute; reflexivity|apply (bool_decide_unpack _); vm_compute; exact I].
Defined.

(** Closing the pane a split just created restores the layout exactly, ratios
    and nesting included. *)
Theorem split_remove_roundtrip (n n' : LayoutNode) (target new_pane : Uuid) (o : Orientation) (rows cols : Z) :
  wf_layout n = true → NoDup (leaves n) → new_pane ∉ leaves n → is_u16 rows → is_u16 cols →
  split n target o new_pane rows cols = Some (n', Ok tt) →
  remove n' new_pane = Some (Collapsed n).
Proof.
  intros Hwf Hnd Hnew Hr Hc Hs.
  destruct (decide (target ∈ leaves n)) as [Hin|Hin]; [|by rewrite split_absent in Hs].
  destruct (split_spec n target o new_pane rows cols) as (rects & rect & Hg & He & Hs'); try done.
  rewrite Hs' in Hs. destruct (split_check o rect); simplify_eq. by apply split_then_remove.
Qed.

Lemma split_remove_roundtrip_witness :
  remove (Split Vertical [(Leaf 1%N, f32_half); (Leaf 2%N, f32_half)]) 2%N = Some (Collapsed (Leaf 1%N)).
Proof.
  apply (split_remove_roundtrip (Leaf 1%N) _ 1%N 2%N Vertical 24 80).
  - reflexivity.
  - apply (bool_decide_unpack _). vm_compute. exact I.
  - apply (bool_decide_unpack _). vm_compute. exact I.
  - unfold is_u16, u16_max; lia.
  - unfold is_u16, u16_max; lia.
  - vm_compute; reflexivity.
Defined.
