(* ===== verification/ReplayBuffer.v ===== *)
(** * Replay buffer and memory budgets
    ([crates/tymux-core/src/replay_buffer.rs], the scrollback budget of
    [crates/tymux-core/src/pane.rs])

    The byte-budgeted log of recent output chunks a reconnecting client resumes
    from, and the process-wide counters its budget (and the scrollback budget) is
    granted from. The reference is the pane's complete output log: the buffer is
    the longest suffix of it that fits, and a resume that is served misses
    nothing. *)

From S2P Require Import Prelude.

(** ** Data and operations *)

Inductive ReplayOutcome :=
| InWindow (chunks : list (Z * list byte)) (tail_seq : Z)
| GapExceeded (oldest_available_seq : option Z).

Record ReplayBuffer := mkReplayBuffer {
  rb_entries : list (Z * list byte);
  rb_total_bytes : Z;
  rb_budget_bytes : Z;
}.

Module Replay.
Definition new (budget_bytes : Z) : ReplayBuffer := mkReplayBuffer [] 0 budget_bytes.

Definition data_len (e : Z * list byte) : Z := Z.of_nat (length (snd e)).

(** The eviction loop of [push]. *)
Fixpoint evict (entries : list (Z * list byte)) (total budget : Z) : list (Z * list byte) * Z :=
  match entries with
  | e :: ((_ :: _) as rest) =>
      if budget <? total then evict rest (total - data_len e) budget else (entries, total)
  | _ => (entries, total)
  end.

Definition push (self : ReplayBuffer) (seq : Z) (data : list byte) : ReplayBuffer :=
  let entries := rb_entries self ++ [(seq, data)] in
  let total := rb_total_bytes self + Z.of_nat (length data) in
  let '(entries', total') := evict entries total (rb_budget_bytes self) in
  mkReplayBuffer entries' total' (rb_budget_bytes self).

Definition entries (self : ReplayBuffer) : list (Z * list byte) := rb_entries self.

Definition oldest_seq (self : ReplayBuffer) : option Z := fst <$> head (rb_entries self).

Definition replay_since (self : ReplayBuffer) (resume_from_seq latest_seq : Z) : ReplayOutcome :=
  if latest_seq <? resume_from_seq then GapExceeded (oldest_seq self)
  else
    let available_from := default latest_seq (oldest_seq self) in
    if available_from <=? resume_from_seq then
      InWindow (filter (λ e, resume_from_seq < fst e ∧ fst e ≤ latest_seq) (rb_entries self)) latest_seq
    else GapExceeded (oldest_seq self).

(** ** Reference: the complete log *)

Definition bytes (l : list (Z * list byte)) : Z := foldr (λ e acc, data_len e + acc) 0 l.

(** The longest suffix of the log within the budget, but never less than its
    last chunk. *)
Fixpoint retain (budget : Z) (log : list (Z * list byte)) : list (Z * list byte) :=
  match log with
  | [] => []
  | [e] => [e]
  | e :: rest => if bytes log <=? budget then log else retain budget rest
  end.

Definition run (budget : Z) (log : list (Z * list byte)) : ReplayBuffer :=
  foldl (λ b e, push b (fst e) (snd e)) (new budget) log.

Lemma data_len_nonneg e : 0 ≤ data_len e.
Proof. unfold data_len. lia. Qed.

Lemma bytes_app l1 l2 : bytes (l1 ++ l2) = bytes l1 + bytes l2.
Proof. induction l1 as [|e l1 IH]; simpl; lia. Qed.

Lemma bytes_nonneg l : 0 ≤ bytes l.
Proof. induction l as [|e l IH]; simpl; [lia|]. pose proof (data_len_nonneg e). lia. Qed.

Lemma retain_cons budget e rest :
  rest ≠ [] →
  retain budget (e :: rest) = if bytes (e :: rest) <=? budget then e :: rest else retain budget rest.
Proof. by destruct rest. Qed.

Lemma evict_retain log budget :
  evict log (bytes log) budget = (retain budget log, bytes (retain budget log)).
Proof.
  induction log as [|e rest IH]; [done|].
  destruct rest as [|e' rest]; [done|].
  rewrite retain_cons by done. cbn [evict].
  change (bytes (e :: e' :: rest)) with (data_len e + bytes (e' :: rest)).
  destruct (Z.ltb_spec budget (data_len e + bytes (e' :: rest))), (Z.leb_spec (data_len e + bytes (e' :: rest)) budget);
    try lia; [|done].
  replace (data_len e + bytes (e' :: rest) - data_len e) with (bytes (e' :: rest)) by lia. done.
Qed.

Lemma retain_suffix budget log : ∃ dropped, log = dropped ++ retain budget log.
Proof.
  induction log as [|e rest IH]; [by exists []|].
  destruct rest as [|e' rest]; [by exists []|].
  rewrite retain_cons by done. case_match; [by exists []|].
  destruct IH as [d Hd]. exists (e :: d). by rewrite <- app_comm_cons, <- Hd.
Qed.

(** Every suffix that fits is kept. *)
Lemma retain_longest budget old recent : bytes recent ≤ budget → recent `suffix_of` retain budget (old ++ recent).
Proof.
  intros Hb. induction old as [|e old IH]; simpl app.
  - destruct recent as [|e rest]; [done|]. destruct rest as [|e' rest]; [done|]. rewrite retain_cons by done.
    by rewrite (proj2 (Z.leb_le _ _) Hb).
  - destruct (old ++ recent) as [|e' rest] eqn:E.
    { apply app_nil in E as [_ ->]. apply suffix_nil. }
    rewrite retain_cons by done. case_match; [|exact IH]. exists (e :: old). simpl. by rewrite E.
Qed.

Lemma retain_nonempty budget log : log ≠ [] → retain budget log ≠ [].
Proof.
  induction log as [|e rest IH]; [done|]. intros _.
  destruct rest as [|e' rest]; [done|]. rewrite retain_cons by done. case_match; [done|]. by apply IH.
Qed.

(** Appending a chunk to what is retained or to the whole log retains the same. *)
Lemma retain_app budget log e : retain budget (retain budget log ++ [e]) = retain budget (log ++ [e]).
Proof.
  induction log as [|e0 rest IH]; [done|].
  destruct rest as [|e1 rest].
  { done. }
  rewrite retain_cons by done. destruct (bytes (e0 :: e1 :: rest) <=? budget) eqn:E; [done|].
  rewrite IH. change ((e0 :: e1 :: rest) ++ [e]) with (e0 :: ((e1 :: rest) ++ [e])).
  rewrite retain_cons by by destruct rest.
  change (e0 :: ((e1 :: rest) ++ [e])) with ((e0 :: e1 :: rest) ++ [e]).
  rewrite bytes_app. pose proof (bytes_nonneg [e]). b2p.
  destruct (Z.leb_spec (bytes (e0 :: e1 :: rest) + bytes [e]) budget); [lia|done].
Qed.

Lemma push_retain budget log e :
  push (mkReplayBuffer (retain budget log) (bytes (retain budget log)) budget) (fst e) (snd e) =
  mkReplayBuffer (retain budget (log ++ [e])) (bytes (retain budget (log ++ [e]))) budget.
Proof.
  unfold push. simpl. destruct e as [s d]. simpl.
  replace (bytes (retain budget log) + Z.of_nat (length d))
    with (bytes (retain budget log ++ [(s, d)])) by (rewrite bytes_app; simpl; unfold data_len; simpl; lia).
  by rewrite evict_retain, retain_app.
Qed.

Lemma run_retain budget log :
  run budget log = mkReplayBuffer (retain budget log) (bytes (retain budget log)) budget.
Proof.
  unfold run. induction log as [|e log IH] using rev_ind; [done|].
  rewrite foldl_app, IH. simpl. apply push_retain.
Qed.

(** The sequence numbers of a pane's log: consecutive, ending at [latest]. *)
Fixpoint consecutive (from : Z) (log : list (Z * list byte)) : Prop :=
  match log with
  | [] => True
  | (s, _) :: rest => s = from ∧ consecutive (from + 1) rest
  end.

Lemma consecutive_app from l1 l2 :
  consecutive from (l1 ++ l2) ↔
  consecutive from l1 ∧ consecutive (from + Z.of_nat (length l1)) l2.
Proof.
  revert from. induction l1 as [|[s d] l1 IH]; intros from; simpl.
  - rewrite Z.add_0_r. tauto.
  - rewrite IH. replace (from + 1 + Z.of_nat (length l1)) with (from + Z.of_nat (S (length l1))) by lia. tauto.
Qed.

Lemma consecutive_range from l e :
  consecutive from l → e ∈ l → from ≤ fst e < from + Z.of_nat (length l).
Proof.
  revert from. induction l as [|[s d] l IH]; intros from; simpl; [by rewrite elem_of_nil|].
  intros [-> Hc] [->|Hin]%elem_of_cons; simpl; [lia|].
  specialize (IH _ Hc Hin). lia.
Qed.

(** What is dropped from the retained suffix precedes everything retained. *)
Lemma retained_from from budget log first :
  consecutive from log → head (retain budget log) = Some first →
  ∀ e, e ∈ log → fst first ≤ fst e → e ∈ retain budget log.
Proof.
  intros Hc Hh e He Hle. destruct (retain_suffix budget log) as [d Hd].
  rewrite Hd in Hc, He. apply consecutive_app in Hc as [Hcd Hcr].
  apply elem_of_app in He as [He|He]; [|done].
  apply (consecutive_range _ _ _ Hcd) in He.
  destruct (retain budget log) as [|[s dd] r]; [done|]. simpl in *. simplify_eq. simpl in *. lia.
Qed.

Lemma filter_suffix {A} (P : A → Prop) `{!∀ x, Decision (P x)} (d r : list A) :
  (∀ x, x ∈ d → ¬ P x) → filter P (d ++ r) = filter P r.
Proof.
  intros Hd. rewrite filter_app. replace (filter P d) with (@nil A); [done|].
  symmetry. induction d as [|x d IH]; [done|].
  rewrite filter_cons_False by (apply Hd; by left). apply IH. intros y Hy. apply Hd. by right.
Qed.

(** A resume at or after the oldest retained chunk selects from the buffer what it
    would select from the whole log. *)
Lemma replay_filter from budget log first resume latest :
  consecutive from log → head (retain budget log) = Some first → fst first ≤ resume →
  filter (λ e, resume < fst e ∧ fst e ≤ latest) (retain budget log) =
  filter (λ e, resume < fst e ∧ fst e ≤ latest) log.
Proof.
  intros Hc Hh Hr. destruct (retain_suffix budget log) as [d Hd].
  rewrite Hd at 2. rewrite filter_suffix; [done|]. intros e He.
  rewrite Hd in Hc. apply consecutive_app in Hc as [Hcd Hcr].
  apply (consecutive_range _ _ _ Hcd) in He.
  destruct (retain budget log) as [|[s dd] r]; [done|]. simpl in *. simplify_eq. simpl in *. lia.
Qed.
End Replay.

(** ** Budgets

    The granting functions read and update a process-wide atomic counter. Each is
    written as its two atomic steps (load, then add) and as the step a single
    caller takes. *)

Module Budget.
Definition DEFAULT_REPLAY_BUFFER_BYTES : Z := 256 * 1024.
Definition GLOBAL_REPLAY_BUFFER_BUDGET_BYTES : Z := 64 * 1024 * 1024.

(** What a caller that loaded [used] will grant itself. *)
Definition replay_grant (used : Z) : Z :=
  Z.min DEFAULT_REPLAY_BUFFER_BYTES (sat_sub GLOBAL_REPLAY_BUFFER_BUDGET_BYTES used).

(** An uninterrupted call: the grant and the new counter. *)
Definition allocate_replay_budget (used : Z) : Z * Z :=
  let granted := replay_grant used in (granted, used + granted).

Definition release_replay_budget (used bytes : Z) : Z := used - bytes.

Definition DEFAULT_SCROLLBACK_LINES : Z := 5000.
Definition MIN_SCROLLBACK_LINES : Z := 100.
Definition GLOBAL_SCROLLBACK_BUDGET_LINES : Z := 50000.

Definition allocate_scrollback_budget (used : Z) : Z * Z :=
  let remaining := sat_sub GLOBAL_SCROLLBACK_BUDGET_LINES used in
  let granted := Z.min DEFAULT_SCROLLBACK_LINES (Z.max remaining MIN_SCROLLBACK_LINES) in
  (granted, used + granted).

Definition release_scrollback_budget (used lines : Z) : Z := used - lines.

(** Panes allocating and dropping one at a time: the counter and the grants of
    the live panes. *)
Inductive op := Spawn | Drop (i : nat).

Definition step (alloc : Z → Z * Z) (release : Z → Z → Z) (st : Z * list Z) (o : op) : Z * list Z :=
  let '(used, grants) := st in
  match o with
  | Spawn => let '(g, used') := alloc used in (used', grants ++ [g])
  | Drop i => match grants !! i with
              | Some g => (release used g, take i grants ++ drop (S i) grants)
              | None => st
              end
  end.

Definition run (alloc : Z → Z * Z) (release : Z → Z → Z) (ops : list op) : Z * list Z :=
  foldl (step alloc release) (0, []) ops.

Definition sum (l : list Z) : Z := foldr Z.add 0 l.

Lemma sum_app l1 l2 : sum (l1 ++ l2) = sum l1 + sum l2.
Proof. induction l1; simpl; lia. Qed.

Lemma sum_delete l i g : l !! i = Some g → sum (take i l ++ drop (S i) l) = sum l - g.
Proof.
  intros H. rewrite <- (take_drop_middle l i g H) at 3. rewrite !sum_app. simpl. lia.
Qed.

Lemma grants_nonneg_delete l i : Forall (λ g, 0 ≤ g) l → Forall (λ g, 0 ≤ g) (take i l ++ drop (S i) l).
Proof. intros H. apply Forall_app. split; [by apply Forall_take|by apply Forall_drop]. Qed.

(** The counter is the sum of the live grants and stays under the cap. *)
Definition capped (st : Z * list Z) : Prop :=
  fst st = sum (snd st) ∧ Forall (λ g, 0 ≤ g) (snd st) ∧
  0 ≤ fst st ≤ GLOBAL_REPLAY_BUFFER_BUDGET_BYTES.

Lemma sum_nonneg l : Forall (λ g, 0 ≤ g) l → 0 ≤ sum l.
Proof. induction 1; simpl; lia. Qed.

Lemma step_capped st o : capped st → capped (step allocate_replay_budget release_replay_budget st o).
Proof.
  destruct st as [used grants]. intros (Hs & Hg & Hb). simpl in *. destruct o as [|i]; simpl.
  - assert (0 ≤ replay_grant used ∧ used + replay_grant used ≤ GLOBAL_REPLAY_BUFFER_BUDGET_BYTES).
    { unfold replay_grant, sat_sub, DEFAULT_REPLAY_BUFFER_BYTES in *. lia. }
    unfold capped; simpl. rewrite sum_app. simpl. split_and!; try lia.
    apply Forall_app. split; [done|]. constructor; [lia|constructor].
  - destruct (grants !! i) as [g|] eqn:E; [|done]. unfold capped, release_replay_budget; simpl.
    rewrite (sum_delete _ _ _ E). pose proof (sum_nonneg _ (grants_nonneg_delete _ i Hg)) as Hn.
    rewrite (sum_delete _ _ _ E) in Hn.
    pose proof (proj1 (Forall_lookup _ _) Hg _ _ E). simpl in *.
    split_and!; [lia|by apply grants_nonneg_delete|lia|lia].
Qed.

(** Interleaved callers: each thread first loads the counter, then adds the
    grant it computed from the value it loaded. *)
Inductive thread := Idle | Loaded (used : Z).

Inductive race_step : Z * list thread → Z * list thread → Prop :=
| race_load used ts i :
    ts !! i = Some Idle → race_step (used, ts) (used, <[i := Loaded used]> ts)
| race_add used ts i u :
    ts !! i = Some (Loaded u) → race_step (used, ts) (used + replay_grant u, <[i := Idle]> ts).

Lemma race_alloc k used ts i :
  0 ≤ used → (i < length ts)%nat → ts !! i = Some Idle →
  used + Z.of_nat k * DEFAULT_REPLAY_BUFFER_BYTES ≤ GLOBAL_REPLAY_BUFFER_BUDGET_BYTES →
  rtc race_step (used, ts) (used + Z.of_nat k * DEFAULT_REPLAY_BUFFER_BYTES, ts).
Proof.
  revert used. induction k as [|k IH]; intros used Hu Hi Hid Hle.
  { replace (used + _) with used by lia. done. }
  eapply rtc_l; [by apply race_load|]. eapply rtc_l.
  { apply (race_add _ _ i used). by apply list_lookup_insert_eq. }
  rewrite list_insert_insert_eq, list_insert_id by done.
  replace (replay_grant used) with DEFAULT_REPLAY_BUFFER_BYTES
    by (unfold replay_grant, sat_sub, DEFAULT_REPLAY_BUFFER_BYTES in *; lia).
  replace (used + Z.of_nat (S k) * DEFAULT_REPLAY_BUFFER_BYTES)
    with (used + DEFAULT_REPLAY_BUFFER_BYTES + Z.of_nat k * DEFAULT_REPLAY_BUFFER_BYTES) by lia.
  apply IH; unfold DEFAULT_REPLAY_BUFFER_BYTES in *; try done; lia.
Qed.

Definition race_reachable (n : nat) (st : Z * list thread) : Prop :=
  rtc race_step (0, replicate n Idle) st.
End Budget.

(** ** Properties *)


(** A served resume loses nothing: for a pane whose chunks carry consecutive
    sequence numbers, [replay_since] answers [InWindow] with exactly the chunks of
    the complete log newer than [resume_from_seq] and not newer than
    [latest_seq], or [GapExceeded] exactly when the token is in the future or
    older than the oldest retained chunk. *)
Theorem resume_is_gap_free (from budget resume latest : Z) (log : list (Z * list byte)) :
  Replay.consecutive from log → log ≠ [] →
  let b := Replay.run budget log in
  ∃ oldest, Replay.oldest_seq b = Some oldest ∧ from ≤ oldest ∧
  Replay.replay_since b resume latest =
    if decide (oldest ≤ resume ≤ latest)
    then InWindow (filter (λ e, resume < fst e ∧ fst e ≤ latest) log) latest
    else GapExceeded (Some oldest).
Proof.
  intros Hc Hne b. unfold b. rewrite Replay.run_retain. unfold Replay.replay_since, Replay.oldest_seq. simpl.
  destruct (Replay.retain budget log) as [|first r] eqn:E.
  { by apply Replay.retain_nonempty with (budget := budget) in Hne. }
  exists (fst first). split; [done|].
  destruct (Replay.retain_suffix budget log) as [d Hd].
  split.
  { apply (Replay.consecutive_range from log); [done|]. rewrite Hd, E. apply elem_of_app. right. by left. }
  simpl. destruct (Z.ltb_spec latest resume); [by rewrite decide_False by lia|].
  destruct (Z.leb_spec (fst first) resume); [|by rewrite decide_False by lia].
  rewrite decide_True by lia. f_equal. rewrite <- E.
  apply (Replay.replay_filter from budget log first); [done|by rewrite E|done].
Qed.

Definition sample_log : list (Z * list byte) := [(1, [104; 105]); (2, [10]); (3, [111; 107; 33]); (4, [10])].

Lemma resume_is_gap_free_witness :
  Replay.replay_since (Replay.run 5 sample_log) 3 4 = InWindow [(4, [10])] 4 ∧
  ∃ oldest, Replay.oldest_seq (Replay.run 5 sample_log) = Some oldest ∧ 1 ≤ oldest ∧
  Replay.replay_since (Replay.run 5 sample_log) 3 4 =
    if decide (oldest ≤ 3 ≤ 4)
    then InWindow (filter (λ e, 3 < fst e ∧ fst e ≤ 4) sample_log) 4
    else GapExceeded (Some oldest).
Proof.
  split; [vm_compute; reflexivity|].
  apply (resume_is_gap_free 1 5 3 4 sample_log); [simpl; lia|done].
Defined.

(** As long as callers do not interleave, the replay-buffer counter is a hard
    cap: after any sequence of spawns and drops it equals the sum of the live
    panes' grants and does not exceed [GLOBAL_REPLAY_BUFFER_BUDGET_BYTES]. *)
Theorem replay_budget_capped (ops : list Budget.op) :
  Budget.capped (Budget.run Budget.allocate_replay_budget Budget.release_replay_budget ops).
Proof.
  unfold Budget.run. induction ops as [|o ops IH] using rev_ind.
  - unfold Budget.capped. simpl. split_and!; [done|constructor|lia|vm_compute; discriminate].
  - rewrite foldl_app. simpl. by apply Budget.step_capped.
Qed.

(** The cap does not survive two concurrent spawns: the load and the add of
    [allocate_replay_budget] are separate atomic operations, and an interleaving
    of two callers takes the counter past [GLOBAL_REPLAY_BUFFER_BUDGET_BYTES]. *)
Theorem replay_budget_race :
  ∃ st, Budget.race_reachable 2 st ∧ Budget.GLOBAL_REPLAY_BUFFER_BUDGET_BYTES < fst st.
Proof.
  set (u := 0 + Z.of_nat 255 * Budget.DEFAULT_REPLAY_BUFFER_BYTES).
  exists (u + Budget.replay_grant u + Budget.replay_grant u, [Budget.Idle; Budget.Idle]).
  split; [|vm_compute; reflexivity]. unfold Budget.race_reachable.
  etransitivity; [apply (Budget.race_alloc 255 0 [Budget.Idle; Budget.Idle] 0); simpl; try lia; [done|vm_compute; discriminate]|].
  fold u. eapply rtc_l; [by apply (Budget.race_load _ _ 0)|].
  eapply rtc_l; [by apply (Budget.race_load _ _ 1)|].
  eapply rtc_l; [by apply (Budget.race_add _ _ 0 u)|].
  eapply rtc_l; [by apply (Budget.race_add _ _ 1 u)|]. simpl. apply rtc_refl.
Qed.

(** A pane granted 0 bytes still retains its newest chunk and still serves a
    resume from its latest sequence number; the buffer is never empty once
    something was pushed. *)
Theorem zero_budget_still_retains (log : list (Z * list byte)) (s : Z) (data : list byte) :
  rb_entries (Replay.run 0 (log ++ [(s, data)])) ≠ [] ∧
  Replay.replay_since (Replay.run 0 [(s, data)]) s s = InWindow [] s.
Proof.
  split.
  - rewrite Replay.run_retain. apply Replay.retain_nonempty. by destruct log.
  - rewrite Replay.run_retain. unfold Replay.replay_since. simpl.
    rewrite Z.ltb_irrefl, Z.leb_refl. f_equal. rewrite filter_cons_False; [done|]. simpl. lia.
Qed.

(** The scrollback counter is not bounded by its global ceiling: every pane is
    granted at least [MIN_SCROLLBACK_LINES], so [10 + n] live panes hold
    [GLOBAL_SCROLLBACK_BUDGET_LINES + n * MIN_SCROLLBACK_LINES] lines. *)
Theorem scrollback_budget_unbounded (n : nat) :
  fst (Budget.run Budget.allocate_scrollback_budget Budget.release_scrollback_budget
         (replicate (10 + n) Budget.Spawn)) =
  Budget.GLOBAL_SCROLLBACK_BUDGET_LINES + Z.of_nat n * Budget.MIN_SCROLLBACK_LINES.
Proof.
  induction n as [|n IH]; [vm_compute; reflexivity|].
  replace (10 + S n)%nat with ((10 + n) + 1)%nat by lia.
  unfold Budget.run in *. rewrite replicate_add, foldl_app. simpl (replicate 1 _). cbn [foldl].
  destruct (foldl _ _ (replicate (10 + n) Budget.Spawn)) as [used grants]. simpl in *. subst used.
  unfold sat_sub, Budget.GLOBAL_SCROLLBACK_BUDGET_LINES, Budget.MIN_SCROLLBACK_LINES, Budget.DEFAULT_SCROLLBACK_LINES. lia.
Qed.
