(* ===== verification/Restart.v ===== *)
(** * Restart policy and the per-pane lifecycle ([crates/tymux-core/src/restart.rs])

    The pure state machine behind automatic restarts: backoff delays, the sliding
    restart budget, operator stop/start/restart, and what survives a daemon
    restart. Times are unix milliseconds ([u64]); the jitter sample is an [f64].
    [f64::powi] has no specified precision, so it is a parameter. *)

From S2P Require Import Prelude Float.

(** ** Data *)

Inductive RestartMode := Never | OnFailure | Always | UnlessStopped.

#[export] Instance RestartMode_eq_dec : EqDecision RestartMode.
Proof. solve_decision. Defined.

Record RestartPolicy := mkPolicy {
  rp_mode : RestartMode;
  rp_max_restarts : Z;
  rp_window_ms : Z;
  rp_initial_delay_ms : Z;
  rp_multiplier : spec_float;
  rp_max_delay_ms : Z;
  rp_jitter : spec_float;
  rp_healthy_after_ms : Z;
}.

Definition f64_zero : spec_float := S754_zero false.
Definition f64_half : spec_float := S754_finite false 4503599627370496 (-53).
Definition f64_one : spec_float := S754_finite false 4503599627370496 (-52).
Definition f64_two : spec_float := S754_finite false 4503599627370496 (-51).
(** The [f64] nearest to 0.2. *)
Definition f64_one_fifth : spec_float := S754_finite false 7205759403792794 (-55).

Definition policy_default : RestartPolicy :=
  mkPolicy Never 5 60000 1000 f64_two 30000 f64_one_fifth 10000.

(** Why a policy is refused; the code formats each as a message. *)
Inductive PolicyError := BadMultiplier | BadJitter | BadDelays.

Definition validate (self : RestartPolicy) : result unit PolicyError :=
  if negb (sf_is_finite (rp_multiplier self)) || sf_lt (rp_multiplier self) f64_one then Err BadMultiplier
  else if negb (sf_is_finite (rp_jitter self))
          || negb (sf_le f64_zero (rp_jitter self) && sf_le (rp_jitter self) f64_one) then Err BadJitter
  else if rp_max_delay_ms self <? rp_initial_delay_ms self then Err BadDelays
  else Ok tt.

Inductive LifecycleState := Live | Exited | Backoff | Restarting | Failed | Stopped.

#[export] Instance LifecycleState_eq_dec : EqDecision LifecycleState.
Proof. solve_decision. Defined.

Definition state_restart_pending (s : LifecycleState) : bool :=
  match s with Backoff | Restarting => true | _ => false end.

Record ExitRecord := mkExit { er_code : option Z; er_signal : option Z; er_at_ms : Z }.

#[export] Instance ExitRecord_eq_dec : EqDecision ExitRecord.
Proof. solve_decision. Defined.

Inductive ExitKind :=
| NotRestarted
| Scheduled (delay_ms at_ms : Z)
| ManualRestart
| EFailed
| EStopped.

Record PersistedRestartState := mkPersisted {
  pr_policy : RestartPolicy;
  pr_state : LifecycleState;
  pr_restart_count : Z;
  pr_restart_log_ms : list Z;
  pr_consecutive_failures : Z;
  pr_last_exit : option ExitRecord;
}.

Record PaneStatusView := mkStatusView {
  sv_state : LifecycleState;
  sv_policy : RestartPolicy;
  sv_restart_count : Z;
  sv_restarts_in_window : Z;
  sv_consecutive_failures : Z;
  sv_last_exit : option ExitRecord;
  sv_next_restart_at_ms : option Z;
  sv_started_at_ms : option Z;
}.

Record PaneSupervisor := mkSup {
  sup_policy : RestartPolicy;
  sup_state : LifecycleState;
  sup_restart_count : Z;
  sup_restart_log : list Z;
  sup_consecutive_failures : Z;
  sup_started_at_ms : option Z;
  sup_last_exit : option ExitRecord;
  sup_next_restart_at_ms : option Z;
  sup_stop_requested : bool;
  sup_restart_requested : bool;
}.

(** Field updates. *)
Definition set_policy_field (v : RestartPolicy) (s : PaneSupervisor) : PaneSupervisor :=
  let 'mkSup _ b c d e f g h i j := s in mkSup v b c d e f g h i j.
Definition set_state (v : LifecycleState) (s : PaneSupervisor) : PaneSupervisor :=
  let 'mkSup a _ c d e f g h i j := s in mkSup a v c d e f g h i j.
Definition set_restart_count (v : Z) (s : PaneSupervisor) : PaneSupervisor :=
  let 'mkSup a b _ d e f g h i j := s in mkSup a b v d e f g h i j.
Definition set_restart_log (v : list Z) (s : PaneSupervisor) : PaneSupervisor :=
  let 'mkSup a b c _ e f g h i j := s in mkSup a b c v e f g h i j.
Definition set_consecutive_failures (v : Z) (s : PaneSupervisor) : PaneSupervisor :=
  let 'mkSup a b c d _ f g h i j := s in mkSup a b c d v f g h i j.
Definition set_started_at_ms (v : option Z) (s : PaneSupervisor) : PaneSupervisor :=
  let 'mkSup a b c d e _ g h i j := s in mkSup a b c d e v g h i j.
Definition set_last_exit (v : option ExitRecord) (s : PaneSupervisor) : PaneSupervisor :=
  let 'mkSup a b c d e f _ h i j := s in mkSup a b c d e f v h i j.
Definition set_next_restart_at_ms (v : option Z) (s : PaneSupervisor) : PaneSupervisor :=
  let 'mkSup a b c d e f g _ i j := s in mkSup a b c d e f g v i j.
Definition set_stop_requested (v : bool) (s : PaneSupervisor) : PaneSupervisor :=
  let 'mkSup a b c d e f g h _ j := s in mkSup a b c d e f g h v j.
Definition set_restart_requested (v : bool) (s : PaneSupervisor) : PaneSupervisor :=
  let 'mkSup a b c d e f g h i _ := s in mkSup a b c d e f g h i v.

Lemma sup_state_set_state v s : sup_state (set_state v s) = v.
Proof. by destruct s. Qed.

(** ** Operations *)

Definition sup_new (policy : RestartPolicy) : PaneSupervisor :=
  mkSup policy Exited 0 [] 0 None None None false false.

Definition restore (p : PersistedRestartState) : PaneSupervisor :=
  let state := match pr_state p with Stopped => Stopped | Failed => Failed | _ => Exited end in
  mkSup (pr_policy p) state (pr_restart_count p) (pr_restart_log_ms p)
    (pr_consecutive_failures p) None (pr_last_exit p) None false false.

Definition persisted (s : PaneSupervisor) : PersistedRestartState :=
  mkPersisted (sup_policy s) (sup_state s) (sup_restart_count s) (sup_restart_log s)
    (sup_consecutive_failures s) (sup_last_exit s).

Definition restart_pending (s : PaneSupervisor) : bool := state_restart_pending (sup_state s).

Definition window_start (s : PaneSupervisor) (now : Z) : Z :=
  if rp_window_ms (sup_policy s) =? 0 then 0 else sat_sub now (rp_window_ms (sup_policy s)).

Definition restarts_in_window (s : PaneSupervisor) (now : Z) : Z :=
  Z.of_nat (length (filter (λ t, window_start s now < t) (sup_restart_log s))).

Definition status (s : PaneSupervisor) (now : Z) : PaneStatusView :=
  mkStatusView (sup_state s) (sup_policy s) (sup_restart_count s) (restarts_in_window s now)
    (sup_consecutive_failures s) (sup_last_exit s) (sup_next_restart_at_ms s) (sup_started_at_ms s).

Definition on_started (s : PaneSupervisor) (now : Z) : PaneSupervisor :=
  set_restart_requested false (set_stop_requested false (set_next_restart_at_ms None
    (set_started_at_ms (Some now) (set_state Live s)))).

(** Whether the policy restarts after an exit with this code. *)
Definition wants_restart (mode : RestartMode) (code : option Z) : bool :=
  match mode with
  | Never => false
  | OnFailure => negb (bool_decide (code = Some 0))
  | Always | UnlessStopped => true
  end.

(** The loop that drops budget entries that left the window. *)
Fixpoint prune_log (start : Z) (log : list Z) : list Z :=
  match log with
  | t :: rest => if t <=? start then prune_log start rest else log
  | [] => []
  end.

(** True when a scheduled (or manual) restart is due. *)
Definition due (s : PaneSupervisor) (now : Z) : bool :=
  restart_pending s && match sup_next_restart_at_ms s with Some t => t <=? now | None => false end.

Definition begin_restart (s : PaneSupervisor) (now : Z) (automatic : bool) : PaneSupervisor :=
  let s := set_restart_count (sat_add u32_max (sup_restart_count s) 1) s in
  let s := if automatic then set_restart_log (sup_restart_log s ++ [now]) s else s in
  set_state Restarting (set_next_restart_at_ms None s).

Definition schedule_manual_restart_now (s : PaneSupervisor) (now : Z) : PaneSupervisor :=
  set_next_restart_at_ms (Some now) (set_state Restarting
    (set_restart_requested false (set_stop_requested false s))).

Definition request_stop (s : PaneSupervisor) : PaneSupervisor * bool :=
  let s := set_next_restart_at_ms None (set_restart_requested false s) in
  let process_running :=
    match sup_state s with
    | Live | Restarting => bool_decide (is_Some (sup_started_at_ms s))
    | _ => false
    end || sup_stop_requested s in
  let s := if process_running then set_stop_requested true s else s in
  (set_state Stopped s, process_running).

Definition request_restart (s : PaneSupervisor) (reset_backoff : bool) : PaneSupervisor * bool :=
  let s := if reset_backoff then set_restart_log [] (set_consecutive_failures 0 s) else s in
  let s := set_stop_requested false s in
  let process_running := bool_decide (is_Some (sup_started_at_ms s)) in
  let s := if process_running then set_state Restarting (set_restart_requested true s) else s in
  (s, process_running).

Definition reset_for_start (s : PaneSupervisor) : PaneSupervisor :=
  set_next_restart_at_ms None (set_restart_requested false (set_stop_requested false
    (set_restart_log [] (set_consecutive_failures 0 s)))).

Definition reset_budget (s : PaneSupervisor) : PaneSupervisor :=
  let s := set_restart_log [] (set_consecutive_failures 0 s) in
  if bool_decide (sup_state s = Failed) then set_state Exited s else s.

Definition set_policy (s : PaneSupervisor) (policy : RestartPolicy) : PaneSupervisor :=
  let s := set_policy_field policy s in
  if bool_decide (sup_state s = Backoff) then
    let code := match sup_last_exit s with Some e => er_code e | None => None end in
    if wants_restart (rp_mode policy) code then s
    else set_next_restart_at_ms None (set_state Exited s)
  else s.

Section Delays.
Context (powi : spec_float → Z → spec_float).

Definition delay_ms (self : RestartPolicy) (consecutive_failures : Z) (unit : spec_float) : Z :=
  if rp_initial_delay_ms self =? 0 then 0
  else
    let exp := Z.min consecutive_failures 1024 in
    let max := f64_of_Z (rp_max_delay_ms self) in
    let base := sf_min (f64_mul (f64_of_Z (rp_initial_delay_ms self)) (powi (rp_multiplier self) exp)) max in
    let jittered :=
      f64_mul base (f64_add f64_one (f64_mul (rp_jitter self)
        (f64_sub (f64_mul f64_two (sf_clamp f64_zero f64_one unit)) f64_one))) in
    round_as u64_max (sf_clamp f64_zero max jittered).

Definition after_failure (s : PaneSupervisor) (now : Z) (code ran_for : option Z) (unit : spec_float)
    : PaneSupervisor * ExitKind :=
  if negb (wants_restart (rp_mode (sup_policy s)) code) then (set_state Exited s, NotRestarted)
  else
    let s := match ran_for with
             | Some d => if rp_healthy_after_ms (sup_policy s) <=? d then set_consecutive_failures 0 s else s
             | None => s
             end in
    let s := set_restart_log (prune_log (window_start s now) (sup_restart_log s)) s in
    if rp_max_restarts (sup_policy s) <=? Z.of_nat (length (sup_restart_log s)) then
      (set_state Failed s, EFailed)
    else
      let delay := delay_ms (sup_policy s) (sup_consecutive_failures s) unit in
      let s := set_consecutive_failures (sat_add u32_max (sup_consecutive_failures s) 1) s in
      let at_ms := sat_add u64_max now delay in
      (set_next_restart_at_ms (Some at_ms) (set_state Backoff s), Scheduled delay at_ms).

Definition on_exit (s : PaneSupervisor) (now : Z) (code signal : option Z) (unit : spec_float)
    : PaneSupervisor * ExitKind :=
  let s := set_last_exit (Some (mkExit code signal now)) s in
  let ran_for := sat_sub now <$> sup_started_at_ms s in
  let s := set_next_restart_at_ms None (set_started_at_ms None s) in
  if sup_stop_requested s then
    (set_state Stopped (set_restart_requested false (set_stop_requested false s)), EStopped)
  else if sup_restart_requested s then
    (set_next_restart_at_ms (Some now) (set_state Restarting (set_restart_requested false s)), ManualRestart)
  else after_failure s now code ran_for unit.

Definition on_spawn_failed (s : PaneSupervisor) (now : Z) (unit : spec_float) : PaneSupervisor * ExitKind :=
  let s := set_next_restart_at_ms None (set_started_at_ms None s) in
  after_failure s now None None unit.

(** ** Lifecycle protocol

    The calls the supervision layer makes on one pane, each with its guard. A
    restart that is due (or requested on a dead pane) is [begin_restart] followed at
    the same instant by [on_started] or [on_spawn_failed]; a start or restart is refused
    when there is no pane to run it in. *)

Inductive lifecycle_event :=
| Ev_exit (now : Z) (code signal : option Z) (unit : spec_float)
| Ev_due (now : Z) (spawned : bool) (unit : spec_float)
| Ev_stop
| Ev_restart (reset_backoff : bool) (now : Z) (spawned : bool) (unit : spec_float)
| Ev_restart_later (reset_backoff : bool) (now : Z)
| Ev_start (now : Z) (spawned : bool) (unit : spec_float)
| Ev_adopt (now : Z)
| Ev_start_refused
| Ev_restart_refused (reset_backoff : bool)
| Ev_reset_budget
| Ev_set_policy (policy : RestartPolicy).

Definition is_running (s : PaneSupervisor) : bool := bool_decide (is_Some (sup_started_at_ms s)).

(** An exit needs a running process, a timer restart needs to be due, and a dead
    pane is what start, adoption and a deferred manual restart apply to. *)
Definition event_guard (s : PaneSupervisor) (ev : lifecycle_event) : bool :=
  match ev with
  | Ev_exit _ _ _ _ => is_running s
  | Ev_due now _ _ => due s now
  | Ev_restart_later _ _ | Ev_start _ _ _ | Ev_adopt _ => negb (is_running s)
  | Ev_start_refused | Ev_restart_refused _ => negb (is_running s) && negb (restart_pending s)
  | _ => true
  end.

Definition respawn (s : PaneSupervisor) (now : Z) (automatic spawned : bool) (unit : spec_float)
    : PaneSupervisor :=
  let s := begin_restart s now automatic in
  if spawned then on_started s now else fst (on_spawn_failed s now unit).

Definition apply_event (s : PaneSupervisor) (ev : lifecycle_event) : PaneSupervisor :=
  match ev with
  | Ev_exit now code signal unit => fst (on_exit s now code signal unit)
  | Ev_due now spawned unit => respawn s now (bool_decide (sup_state s = Backoff)) spawned unit
  | Ev_stop => fst (request_stop s)
  | Ev_restart reset now spawned unit =>
      let '(s', signaled) := request_restart s reset in
      if signaled then s' else respawn s' now false spawned unit
  | Ev_restart_later reset now => schedule_manual_restart_now (fst (request_restart s reset)) now
  | Ev_start now spawned unit => respawn (reset_for_start s) now false spawned unit
  | Ev_adopt now => on_started (reset_for_start s) now
  | Ev_start_refused => reset_for_start s
  | Ev_restart_refused reset => fst (request_restart s reset)
  | Ev_reset_budget => reset_budget s
  | Ev_set_policy policy => set_policy s policy
  end.

(** Runs a sequence of events; [None] if a guard fails. *)
Fixpoint run_events (s : PaneSupervisor) (evs : list lifecycle_event) : option PaneSupervisor :=
  match evs with
  | [] => Some s
  | ev :: evs => if event_guard s ev then run_events (apply_event s ev) evs else None
  end.

(** *** Invariant: which timers and flags each state allows *)

Definition wf_sup (s : PaneSupervisor) : Prop :=
  match sup_state s with
  | Live =>
      is_Some (sup_started_at_ms s) ∧ sup_next_restart_at_ms s = None ∧
      sup_stop_requested s = false ∧ sup_restart_requested s = false
  | Exited | Failed =>
      sup_started_at_ms s = None ∧ sup_next_restart_at_ms s = None ∧
      sup_stop_requested s = false ∧ sup_restart_requested s = false
  | Backoff =>
      sup_started_at_ms s = None ∧ is_Some (sup_next_restart_at_ms s) ∧
      sup_stop_requested s = false ∧ sup_restart_requested s = false
  | Restarting =>
      sup_stop_requested s = false ∧
      (is_Some (sup_started_at_ms s) ∧ sup_restart_requested s = true ∧ sup_next_restart_at_ms s = None ∨
       sup_started_at_ms s = None ∧ sup_restart_requested s = false ∧ is_Some (sup_next_restart_at_ms s))
  | Stopped =>
      sup_next_restart_at_ms s = None ∧ sup_restart_requested s = false ∧
      (sup_stop_requested s = true ↔ is_Some (sup_started_at_ms s))
  end.

(** A dead pane with no request outstanding. *)
Definition idle (s : PaneSupervisor) : Prop :=
  sup_started_at_ms s = None ∧ sup_next_restart_at_ms s = None ∧
  sup_stop_requested s = false ∧ sup_restart_requested s = false.

Lemma prune_log_split start log :
  ∃ old, log = old ++ prune_log start log ∧ Forall (λ a, a ≤ start) old.
Proof.
  induction log as [|t log (old & Hsplit & Hold)]; simpl; [by exists []|].
  destruct (Z.leb_spec t start); [|by exists []].
  exists (t :: old). split; [simpl; by f_equal|by constructor].
Qed.

#[local] Opaque delay_ms prune_log window_start sat_add Z.leb Z.of_nat.

Lemma after_failure_wf s now code ran_for unit :
  idle s → wf_sup (fst (after_failure s now code ran_for unit)).
Proof.
  destruct s. unfold idle. simpl. intros (-> & -> & -> & ->).
  unfold after_failure, wf_sup. simpl.
  destruct (wants_restart _ _); simpl; [|done].
  destruct ran_for as [d|]; [destruct (_ <=? d)|]; simpl;
    match goal with |- context [_ <=? ?x] => destruct (_ <=? x) end; simpl; by eauto 10.
Qed.

Lemma wf_dead_flags s :
  wf_sup s → sup_started_at_ms s = None →
  sup_stop_requested s = false ∧ sup_restart_requested s = false.
Proof.
  destruct s as [? st ? ? ? started ? ? stop rr]. unfold wf_sup. simpl. intros Hwf ->.
  destruct st, stop, rr; simpl in *; destruct_and?; try done.
  all: try (destruct Hwf as [_ [(? & _)|(_ & ? & _)]]; try done; by destruct H).
  all: exfalso; naive_solver.
Qed.

Lemma respawn_wf s now automatic spawned unit :
  sup_started_at_ms s = None → sup_stop_requested s = false → sup_restart_requested s = false →
  wf_sup (respawn s now automatic spawned unit).
Proof.
  destruct s. simpl. intros -> -> ->. unfold respawn. destruct spawned.
  - unfold wf_sup, begin_restart, on_started. destruct automatic; simpl; naive_solver.
  - unfold on_spawn_failed. apply after_failure_wf. destruct automatic; done.
Qed.

Lemma is_running_false s : is_running s = false ↔ sup_started_at_ms s = None.
Proof. unfold is_running. rewrite bool_decide_eq_false, <- eq_None_not_Some. done. Qed.

Lemma due_dead s now : wf_sup s → due s now = true → sup_started_at_ms s = None.
Proof.
  destruct s as [? st ? ? ? ? ? nx ? ?]. unfold wf_sup, due, restart_pending. simpl.
  destruct st, nx; simpl; try done; naive_solver.
Qed.

Lemma request_restart_dead s reset :
  sup_started_at_ms s = None →
  ∃ s', request_restart s reset = (s', false) ∧ sup_started_at_ms s' = None ∧
        sup_stop_requested s' = false ∧ sup_restart_requested s' = sup_restart_requested s ∧
        sup_state s' = sup_state s.
Proof. destruct s; simpl; intros ->. unfold request_restart. destruct reset; simpl; eauto 10. Qed.

Lemma request_stop_wf s : wf_sup s → wf_sup (fst (request_stop s)).
Proof.
  destruct s as [? st ? ? ? started ? nx stop rr]. unfold wf_sup, request_stop. simpl.
  destruct st, started, stop; simpl; intros; destruct_and?; simplify_eq; naive_solver.
Qed.

Lemma request_restart_wf s reset :
  wf_sup s → is_running s = true → wf_sup (fst (request_restart s reset)).
Proof.
  destruct s as [? st ? ? ? [started|] ? nx stop rr]; unfold wf_sup, request_restart, is_running; simpl; [|done].
  destruct reset, st; simpl; intros; destruct_and?; simplify_eq; naive_solver.
Qed.

Lemma apply_event_wf s ev : wf_sup s → event_guard s ev = true → wf_sup (apply_event s ev).
Proof.
  intros Hwf Hg. destruct ev; cbn [apply_event event_guard] in *.
  - destruct s as [? st ? ? ? started ? nx stop rr]. unfold on_exit. simpl.
    destruct stop; [unfold wf_sup; simpl; rewrite is_Some_alt; naive_solver|]. destruct rr; [by unfold wf_sup; simpl; eauto 10|].
    apply after_failure_wf. done.
  - pose proof (due_dead _ _ Hwf Hg) as Hd. destruct (wf_dead_flags _ Hwf Hd). by apply respawn_wf.
  - by apply request_stop_wf.
  - destruct (is_running s) eqn:Hr.
    + pose proof (request_restart_wf s reset_backoff Hwf Hr) as Hw.
      unfold request_restart in *. destruct s as [? ? ? ? ? [st|] ? ? ? ?]; [|done].
      destruct reset_backoff; simpl in *; done.
    + apply is_running_false in Hr. destruct (wf_dead_flags _ Hwf Hr) as [_ Hrr].
      destruct (request_restart_dead s reset_backoff Hr) as (s' & -> & ? & ? & E & _).
      apply respawn_wf; congruence.
  - apply negb_true_iff, is_running_false in Hg. destruct s as [? ? ? ? ? st ? ? ? ?]. simpl in Hg. subst.
    unfold request_restart, schedule_manual_restart_now, wf_sup. destruct reset_backoff; simpl; naive_solver.
  - apply negb_true_iff, is_running_false in Hg. destruct s. by apply respawn_wf.
  - destruct s. unfold wf_sup. simpl. eauto.
  - b2p. apply is_running_false in H. destruct s as [? st ? ? ? started ? nx ? ?]. simpl in *. subst.
    unfold wf_sup, restart_pending in *. destruct st; simpl in *; try done. rewrite is_Some_alt. naive_solver.
  - b2p. apply is_running_false in H. destruct s as [? st ? ? ? started ? nx ? ?]. simpl in *. subst.
    unfold wf_sup, restart_pending, request_restart in *.
    destruct st, reset_backoff; simpl in *; try done; rewrite ?is_Some_alt in *; naive_solver.
  - destruct s as [? st ? ? ? ? ? ? ? ?]. unfold reset_budget. simpl. unfold wf_sup in *. by destruct st.
  - destruct s as [? st ? ? ? ? ? ? ? ?]. unfold set_policy, wf_sup in *. simpl in *.
    destruct st; simpl; try done. destruct (wants_restart _ _); simpl; naive_solver.
Qed.

Lemma run_events_wf evs s s' : wf_sup s → run_events s evs = Some s' → wf_sup s'.
Proof.
  revert s. induction evs as [|ev evs IH]; intros s Hwf; simpl; [by intros [= <-]|].
  destruct (event_guard s ev) eqn:Hg; [|done]. apply IH. by apply apply_event_wf.
Qed.

(** *** Operator stop *)

(** Events by which an operator runs the pane again. *)
Definition operator_run (ev : lifecycle_event) : bool :=
  match ev with Ev_restart _ _ _ _ | Ev_restart_later _ _ | Ev_start _ _ _ | Ev_adopt _ => true | _ => false end.

Lemma stopped_not_due s now : sup_state s = Stopped → due s now = false.
Proof. unfold due, restart_pending. by intros ->. Qed.

Lemma stopped_step s ev :
  wf_sup s → sup_state s = Stopped → event_guard s ev = true → operator_run ev = false →
  sup_state (apply_event s ev) = Stopped.
Proof.
  intros Hwf Hst Hg Ho. destruct ev; try done; cbn [apply_event event_guard] in *.
  - destruct s as [? st ? ? ? started ? ? stop ?]. unfold wf_sup, is_running, on_exit in *. simpl in *.
    subst st. apply bool_decide_eq_true in Hg. destruct Hwf as (_ & _ & [_ Hs]).
    by rewrite (Hs Hg).
  - by rewrite stopped_not_due in Hg.
  - apply sup_state_set_state.
  - by destruct s.
  - unfold request_restart. destruct s as [? ? ? ? ? [] ? ? ? ?], reset_backoff; simpl in *; by subst.
  - unfold reset_budget. destruct s; simpl in *. by subst.
  - unfold set_policy. destruct s; simpl in *. by subst.
Qed.

Lemma stopped_run evs s s' :
  wf_sup s → sup_state s = Stopped → Forall (λ ev, operator_run ev = false) evs →
  run_events s evs = Some s' → sup_state s' = Stopped.
Proof.
  intros Hwf Hst Hev. revert s Hwf Hst. induction Hev as [|ev evs Ho _ IH]; intros s Hwf Hst; simpl.
  { by intros [= <-]. }
  destruct (event_guard s ev) eqn:Hg; [|done].
  apply IH; [by apply apply_event_wf|by apply stopped_step].
Qed.

(** *** Budget accounting

    The automatic restarts of a run, in order: the timer restarts that fire while
    the pane is in [Backoff]. *)
Fixpoint auto_restarts (s : PaneSupervisor) (evs : list lifecycle_event) : list Z :=
  match evs with
  | [] => []
  | ev :: evs =>
      match ev with
      | Ev_due now _ _ => if bool_decide (sup_state s = Backoff) then [now] else []
      | _ => []
      end ++ auto_restarts (apply_event s ev) evs
  end.

(** Events that neither clear the budget nor replace the policy. *)
Definition keeps_budget (ev : lifecycle_event) : bool :=
  match ev with
  | Ev_exit _ _ _ _ | Ev_due _ _ _ | Ev_stop | Ev_restart false _ _ _ | Ev_restart_later false _
  | Ev_restart_refused false => true
  | _ => false
  end.

Definition event_time (ev : lifecycle_event) : option Z :=
  match ev with
  | Ev_exit now _ _ _ | Ev_due now _ _ | Ev_restart _ now _ _ | Ev_restart_later _ now
  | Ev_start now _ _ | Ev_adopt now => Some now
  | _ => None
  end.

(** The clock never goes backwards. *)
Fixpoint clock_ok (last : Z) (evs : list lifecycle_event) : bool :=
  match evs with
  | [] => true
  | ev :: evs =>
      match event_time ev with
      | Some now => (last <=? now) && clock_ok now evs
      | None => clock_ok last evs
      end
  end.

(** How many of [hist] fall in the [window] milliseconds that end at [t]; a zero
    window is the whole lifetime. *)
Definition in_window (window t : Z) (hist : list Z) : Z :=
  Z.of_nat (length (filter (λ a, (window = 0 ∨ t - window < a) ∧ a ≤ t) hist)).

(** The budget log is what is left of the history [hist] once entries that have left the
    window are dropped. *)
Record budget_inv (last : Z) (hist : list Z) (s : PaneSupervisor) : Prop := {
  bi_past : Forall (λ a, 1 ≤ a ≤ last) hist;
  bi_split : ∃ dropped, hist = dropped ++ sup_restart_log s ∧
    Forall (λ a, rp_window_ms (sup_policy s) ≠ 0 ∧ a ≤ last - rp_window_ms (sup_policy s)) dropped;
  bi_pending : sup_state s = Backoff →
    Z.of_nat (length (sup_restart_log s)) < rp_max_restarts (sup_policy s);
  bi_bound : ∀ t, in_window (rp_window_ms (sup_policy s)) t hist ≤ rp_max_restarts (sup_policy s);
}.

Lemma budget_log_past last hist s :
  budget_inv last hist s → Forall (λ a, 1 ≤ a) (sup_restart_log s).
Proof.
  intros [Hp (dropped & -> & _) _ _]. apply Forall_app in Hp as [_ Hp].
  eapply Forall_impl; [exact Hp|simpl; lia].
Qed.

(** Later, with the same log and policy and not newly in [Backoff]. *)
Lemma budget_inv_weaken last last' hist s s' :
  budget_inv last hist s → last ≤ last' →
  sup_policy s' = sup_policy s → sup_restart_log s' = sup_restart_log s →
  (sup_state s' = Backoff → sup_state s = Backoff) →
  budget_inv last' hist s'.
Proof.
  intros [Hp (dropped & Hsplit & Hd) Hb Hw] Hl Epol Elog Est. split; rewrite ?Epol, ?Elog; auto.
  - eapply Forall_impl; [exact Hp|simpl; lia].
  - exists dropped. split; [done|]. eapply Forall_impl; [exact Hd|simpl; lia].
Qed.

(** Pruning at [now] only drops entries that have left the window. *)
Lemma budget_inv_prune last hist s now s' :
  budget_inv last hist s → last ≤ now → 0 ≤ rp_window_ms (sup_policy s) →
  sup_policy s' = sup_policy s →
  sup_restart_log s' = prune_log (window_start s now) (sup_restart_log s) →
  (sup_state s' = Backoff → Z.of_nat (length (sup_restart_log s')) < rp_max_restarts (sup_policy s')) →
  budget_inv now hist s'.
Proof.
  intros Hinv Hl Hw Epol Elog Hback. pose proof (budget_log_past _ _ _ Hinv) as Hpos.
  destruct Hinv as [Hp (dropped & Hsplit & Hd) _ Hb]. split; rewrite ?Epol in *; auto.
  - eapply Forall_impl; [exact Hp|simpl; lia].
  - destruct (prune_log_split (window_start s now) (sup_restart_log s)) as (old & Hs & Hold).
    exists (dropped ++ old). rewrite Elog, Hsplit, Hs at 1. rewrite <- app_assoc.
    split; [by rewrite <- Hs|]. apply Forall_app. split.
    { eapply Forall_impl; [exact Hd|simpl; lia]. }
    rewrite Hs in Hpos. apply Forall_app in Hpos as [Hpos _].
    apply Forall_forall. intros a Ha. rewrite Forall_forall in Hpos, Hold.
    specialize (Hpos a Ha). specialize (Hold a Ha). simpl in *.
    with_strategy transparent [window_start] (unfold window_start in Hold).
    destruct (Z.eqb_spec (rp_window_ms (sup_policy s)) 0); unfold sat_sub in *; lia.
Qed.

Lemma in_window_app window t h1 h2 : in_window window t (h1 ++ h2) = in_window window t h1 + in_window window t h2.
Proof. unfold in_window. rewrite filter_app, length_app. lia. Qed.

Lemma in_window_le window t h : in_window window t h ≤ Z.of_nat (length h).
Proof. unfold in_window. pose proof (length_filter (λ a, (window = 0 ∨ t - window < a) ∧ a ≤ t) h). lia. Qed.

Lemma in_window_none window t h :
  Forall (λ a, window ≠ 0 ∧ a ≤ t - window ∨ t < a) h → in_window window t h = 0.
Proof.
  unfold in_window. induction 1 as [|a h Ha _ IH]; [done|].
  rewrite filter_cons_False by lia. done.
Qed.

(** Charging an automatic restart at [now]. *)
Lemma budget_inv_charge last hist s now s' :
  budget_inv last hist s → 1 ≤ now → last ≤ now → sup_state s = Backoff →
  sup_policy s' = sup_policy s → sup_restart_log s' = sup_restart_log s ++ [now] →
  sup_state s' ≠ Backoff →
  budget_inv now (hist ++ [now]) s'.
Proof.
  intros [Hp (dropped & Hsplit & Hd) Hb Hw] H1 Hl Hst Epol Elog Hst'. specialize (Hb Hst).
  split; rewrite ?Epol; try done.
  - apply Forall_app. split; [eapply Forall_impl; [exact Hp|simpl; lia]|repeat constructor; lia].
  - exists dropped. rewrite Hsplit, Elog, app_assoc. split; [done|].
    eapply Forall_impl; [exact Hd|simpl; lia].
  - intros t. destruct (Z.le_gt_cases now t).
    + rewrite Hsplit, <- app_assoc, in_window_app, in_window_none.
      * pose proof (in_window_le (rp_window_ms (sup_policy s)) t (sup_restart_log s ++ [now])) as Hle.
        rewrite length_app in Hle. simpl in Hle. lia.
      * eapply Forall_impl; [exact Hd|simpl; lia].
    + rewrite in_window_app, (in_window_none _ _ [now]) by (repeat constructor; lia).
      specialize (Hw t). lia.
Qed.

(** The invariant together with the policy it is about. *)
Definition budgeted (policy : RestartPolicy) (last : Z) (hist : list Z) (s : PaneSupervisor) : Prop :=
  budget_inv last hist s ∧ sup_policy s = policy.

Lemma budgeted_same policy last last' hist s s' :
  budgeted policy last hist s → last ≤ last' →
  sup_policy s' = sup_policy s → sup_restart_log s' = sup_restart_log s →
  (sup_state s' = Backoff → sup_state s = Backoff) →
  budgeted policy last' hist s'.
Proof. intros [? <-] ? ? ? ?. split; [by eapply budget_inv_weaken|done]. Qed.

Lemma after_failure_budgeted policy last hist s now code ran_for unit :
  budgeted policy last hist s → last ≤ now → 0 ≤ rp_window_ms policy →
  budgeted policy now hist (fst (after_failure s now code ran_for unit)).
Proof.
  intros Hinv Hl Hw. unfold after_failure.
  destruct (wants_restart _ _); simpl; [|by apply (budgeted_same policy last now hist s); destruct s].
  set (s1 := match ran_for with Some _ => _ | None => s end).
  assert (Hs1 : budgeted policy last hist s1).
  { subst s1. destruct ran_for; [case_match|]; try done; by apply (budgeted_same policy last last hist s); destruct s. }
  clearbody s1. destruct Hs1 as [Hs1 <-].
  match goal with |- context [_ <=? ?x] => destruct (Z.leb_spec (rp_max_restarts (sup_policy
    (set_restart_log (prune_log (window_start s1 now) (sup_restart_log s1)) s1))) x) as [Hle|Hlt] end;
    (split; [eapply budget_inv_prune; [exact Hs1|done|done|by destruct s1|by destruct s1|]|by destruct s1]);
    destruct s1; simpl in *; done.
Qed.

Lemma begin_restart_budgeted policy last hist s now automatic :
  budgeted policy last hist s → last ≤ now → 1 ≤ now → (automatic = true → sup_state s = Backoff) →
  budgeted policy now (hist ++ if automatic then [now] else []) (begin_restart s now automatic).
Proof.
  intros [Hinv <-] Hl H1 Ha. split; [|by destruct s, automatic]. destruct automatic.
  - apply (budget_inv_charge last hist s); try done; [by apply Ha|destruct s; done..].
  - rewrite app_nil_r. apply (budget_inv_weaken last now hist s); try done; by destruct s.
Qed.

Lemma respawn_budgeted policy last hist s now automatic spawned unit :
  budgeted policy last hist s → last ≤ now → 1 ≤ now → 0 ≤ rp_window_ms policy →
  (automatic = true → sup_state s = Backoff) →
  budgeted policy now (hist ++ if automatic then [now] else []) (respawn s now automatic spawned unit).
Proof.
  intros Hinv Hl H1 Hw Ha. unfold respawn.
  pose proof (begin_restart_budgeted _ _ _ _ _ _ Hinv Hl H1 Ha) as Hb.
  destruct (begin_restart s now automatic) as [pol st rc log cf sa le nx sr rr]. destruct spawned.
  - by eapply budgeted_same; [exact Hb|lia|..].
  - eapply after_failure_budgeted; [|reflexivity|done]. eapply budgeted_same; [exact Hb|lia|done..].
Qed.

Definition event_now (last : Z) (ev : lifecycle_event) : Z := default last (event_time ev).

Lemma budget_step policy last hist s ev :
  budgeted policy last hist s → event_guard s ev = true → keeps_budget ev = true →
  1 ≤ last → last ≤ event_now last ev → 0 ≤ rp_window_ms policy →
  budgeted policy (event_now last ev)
    (hist ++ match ev with
             | Ev_due now _ _ => if bool_decide (sup_state s = Backoff) then [now] else []
             | _ => []
             end) (apply_event s ev).
Proof.
  intros Hinv Hg Hk H1 Hl Hw.
  destruct ev as [now code signal unit|now spawned unit| |[] now spawned unit|[] now| | | |[]| |]; try done;
    unfold event_now in *; cbn [apply_event event_guard event_time default from_option id] in *.
  - rewrite app_nil_r. destruct s as [pol st rc log cf sa le nx sr rr]. unfold on_exit. simpl.
    destruct sr; [|destruct rr]; [by eapply budgeted_same; [exact Hinv|..]..|].
    eapply after_failure_budgeted; [|reflexivity|done]. by eapply budgeted_same; [exact Hinv|..].
  - eapply respawn_budgeted; [done|done|lia|done|]. apply bool_decide_eq_true.
  - rewrite app_nil_r. eapply budgeted_same; [exact Hinv|lia|..].
    all: destruct s as [? [] ? ? ? [] ? ? [] ?]; done.
  - rewrite app_nil_r. destruct s as [pol st rc log cf [sa|] le nx sr rr]; simpl.
    + by eapply budgeted_same; [exact Hinv|..].
    + rewrite <- (app_nil_r hist). apply (respawn_budgeted policy last hist _ now false spawned unit);
        [|done|lia|done|done]. by eapply budgeted_same; [exact Hinv|lia|..].
  - rewrite app_nil_r. eapply budgeted_same; [exact Hinv|lia|..].
    all: destruct s as [? ? ? ? ? [] ? ? ? ?]; done.
  - rewrite app_nil_r. b2p. apply is_running_false in H. eapply budgeted_same; [exact Hinv|lia|..].
    all: destruct s as [? ? ? ? ? ? ? ? ? ?]; simpl in *; by subst.
Qed.

Lemma budget_run policy evs last hist s s' :
  budgeted policy last hist s → 1 ≤ last → 0 ≤ rp_window_ms policy →
  clock_ok last evs = true → Forall (λ ev, keeps_budget ev = true) evs →
  run_events s evs = Some s' →
  ∃ last', budgeted policy last' (hist ++ auto_restarts s evs) s'.
Proof.
  intros Hinv H1 Hw Hc Hk. revert last hist s Hinv H1 Hc.
  induction Hk as [|ev evs Hk _ IH]; intros last hist s Hinv H1 Hc Hrun; simpl in *.
  { injection Hrun as <-. rewrite app_nil_r. eauto. }
  destruct (event_guard s ev) eqn:Hg; [|done].
  assert (last ≤ event_now last ev ∧ clock_ok (event_now last ev) evs = true) as [Hl Hc'].
  { unfold event_now. destruct (event_time ev); simpl; [|done]. b2p. done. }
  pose proof (budget_step _ _ _ _ _ Hinv Hg Hk H1 Hl Hw) as Hstep.
  destruct (IH _ _ _ Hstep ltac:(lia) Hc' Hrun) as [last' Hfin].
  exists last'. by rewrite app_assoc.
Qed.

(** *** Crash loops

    Without operator events and with a lifetime budget, every exit and every timer
    restart uses up some of [crash_potential]. *)
Definition unattended (ev : lifecycle_event) : bool :=
  match ev with Ev_exit now _ _ _ | Ev_due now _ _ => 1 <=? now | _ => false end.

Definition crash_potential (s : PaneSupervisor) : Z :=
  let left := rp_max_restarts (sup_policy s) - Z.of_nat (length (sup_restart_log s)) in
  match sup_state s with Live => 2 * left + 1 | Backoff => 2 * left | _ => 0 end.

Record crash_inv (policy : RestartPolicy) (s : PaneSupervisor) : Prop := {
  ci_wf : wf_sup s;
  ci_policy : sup_policy s = policy;
  ci_log : Forall (λ a, 1 ≤ a) (sup_restart_log s);
  ci_len : Z.of_nat (length (sup_restart_log s)) ≤ rp_max_restarts policy;
  ci_state : match sup_state s with
             | Backoff => Z.of_nat (length (sup_restart_log s)) < rp_max_restarts policy
             | Restarting | Stopped => False
             | _ => True
             end;
}.

Lemma prune_log_lifetime log : Forall (λ a, 1 ≤ a) log → prune_log 0 log = log.
Proof.
  with_strategy transparent [prune_log Z.leb] (intros [|a log' Ha]; simpl; [done|];
  destruct (Z.leb_spec a 0); [lia|done]).
Qed.

Lemma after_failure_crash policy s now code ran_for unit :
  rp_window_ms policy = 0 → idle s → sup_policy s = policy →
  Forall (λ a, 1 ≤ a) (sup_restart_log s) →
  Z.of_nat (length (sup_restart_log s)) ≤ rp_max_restarts policy →
  let s' := fst (after_failure s now code ran_for unit) in
  crash_inv policy s' ∧
  crash_potential s' ≤ 2 * (rp_max_restarts policy - Z.of_nat (length (sup_restart_log s))).
Proof.
  intros Hw Hi <- Hlog Hlen s'. pose proof (after_failure_wf s now code ran_for unit Hi) as Hwf.
  fold s' in Hwf. revert Hwf. subst s'. unfold after_failure. destruct (wants_restart _ _); simpl.
  2: { intros Hwf. destruct s; simpl in *. split; [split; done|unfold crash_potential; simpl; lia]. }
  set (s1 := match ran_for with Some _ => _ | None => s end).
  assert (sup_policy s1 = sup_policy s ∧ sup_restart_log s1 = sup_restart_log s) as [Epol Elog].
  { subst s1. destruct ran_for; [case_match|]; by destruct s. }
  assert (Hprune : prune_log (window_start s1 now) (sup_restart_log s1) = sup_restart_log s).
  { with_strategy transparent [window_start] (unfold window_start).
    rewrite Epol, Hw. simpl. rewrite Elog. by apply prune_log_lifetime. }
  rewrite Hprune. clear Hprune Hi. clearbody s1. destruct s1 as [pol st rc log cf sa le nx sr rr].
  simpl in *. subst pol log. unfold crash_potential.
  destruct (Z.leb_spec (rp_max_restarts (sup_policy s)) (Z.of_nat (length (sup_restart_log s))));
    simpl; intros Hwf; (split; [split; simpl; done|lia]).
Qed.

Lemma crash_step policy s ev :
  rp_window_ms policy = 0 → crash_inv policy s → event_guard s ev = true → unattended ev = true →
  crash_inv policy (apply_event s ev) ∧ crash_potential (apply_event s ev) < crash_potential s.
Proof.
  intros Hw [Hwf Hpol Hlog Hlen Hst] Hg Hu.
  destruct ev as [now code signal unit|now spawned unit| | | | | | | | |]; try done;
    cbn [apply_event event_guard unattended] in *; b2p.
  - destruct s as [pol st rc log cf sa le nx sr rr]. unfold is_running, wf_sup, on_exit in *. simpl in *.
    apply bool_decide_eq_true in Hg as [t ->].
    destruct st; try done; try by destruct Hwf as [Hn _]. destruct Hwf as (_ & -> & -> & ->).
    match goal with |- context [after_failure ?x _ _ ?r _] =>
      destruct (after_failure_crash policy x now code r unit Hw) as [? Hp]; [done..|] end.
    split; [done|]. simpl in Hp. unfold crash_potential at 2. simpl. subst pol. lia.
  - unfold due, restart_pending in Hg. b2p.
    assert (Hback : sup_state s = Backoff) by (by destruct (sup_state s)).
    rewrite bool_decide_true by done. unfold respawn.
    destruct s as [pol st rc log cf sa le nx sr rr]. simpl in *. subst st pol.
    unfold wf_sup in Hwf. simpl in Hwf. destruct Hwf as (-> & _ & -> & ->).
    assert (Hlog' : Forall (λ a, 1 ≤ a) (log ++ [now])) by (apply Forall_app; repeat constructor; done).
    assert (Hlen' : Z.of_nat (length (log ++ [now])) = Z.of_nat (length log) + 1) by (rewrite length_app; simpl; lia).
    destruct spawned.
    + split; [split; simpl; try done; try (unfold wf_sup; simpl; by eauto); lia|].
      unfold crash_potential. simpl. lia.
    + unfold on_spawn_failed. simpl.
      match goal with |- context [after_failure ?x _ _ ?r _] =>
        destruct (after_failure_crash policy x now None r unit Hw) as [? Hp]; simpl; [done..|lia|] end.
      split; [done|]. simpl in Hp. unfold crash_potential at 2. simpl. lia.
Qed.

Lemma crash_run policy evs s s' :
  rp_window_ms policy = 0 → crash_inv policy s → Forall (λ ev, unattended ev = true) evs →
  run_events s evs = Some s' → Z.of_nat (length evs) + crash_potential s' ≤ crash_potential s ∧ crash_inv policy s'.
Proof.
  intros Hw Hinv Hu. revert s Hinv. induction Hu as [|ev evs Hu _ IH]; intros s Hinv; simpl.
  { intros [= <-]. split; [simpl; lia|done]. }
  destruct (event_guard s ev) eqn:Hg; [|done]. intros Hrun.
  destruct (crash_step policy s ev Hw Hinv Hg Hu) as [Hinv' Hlt].
  destruct (IH _ Hinv' Hrun). split; [lia|done].
Qed.

(** ** Properties *)

(** C33. Whatever the order of exits, timers and operator calls on a pane that starts new
    or restored from disk, its timers and request flags always fit its state; in
    particular a pending restart is never stuck: either the old process is still
    running (and its exit will trigger the restart) or a time is set at which the
    restart is due. *)
Theorem lifecycle_invariant s0 evs s :
  (∃ policy, s0 = sup_new policy) ∨ (∃ p, s0 = restore p) →
  run_events s0 evs = Some s →
  wf_sup s ∧
  (restart_pending s = true →
   is_running s = true ∨ ∃ t, sup_next_restart_at_ms s = Some t ∧ due s t = true).
Proof.
  intros H0 Hrun. assert (Hwf : wf_sup s).
  { eapply run_events_wf; [|exact Hrun]. destruct H0 as [[policy ->]|[p ->]]; [done|].
    destruct p as [? [] ? ? ? ?]; try done. unfold wf_sup. simpl. rewrite is_Some_alt. naive_solver. }
  split; [done|]. intros Hp. unfold due. rewrite Hp. unfold restart_pending, wf_sup, is_running in *.
  destruct (sup_state s); try done; destruct (sup_next_restart_at_ms s) as [t|];
    [right; exists t; split; [done|]; apply Z.leb_refl| |right; exists t; split; [done|]; apply Z.leb_refl|].
  - by destruct Hwf as (_ & [] & _).
  - destruct Hwf as (_ & [(? & _)|(_ & _ & [])]); [|done]. left. by apply bool_decide_eq_true.
Qed.

(** An operator stop is final until an operator runs the pane again: after
    [request_stop], no sequence of exits, timers, budget resets and policy changes
    leaves the [Stopped] state, and no restart ever becomes due. *)
Theorem stop_is_honoured s evs s' :
  wf_sup s → Forall (λ ev, operator_run ev = false) evs →
  run_events (apply_event s Ev_stop) evs = Some s' →
  sup_state s' = Stopped ∧ ∀ now, due s' now = false.
Proof.
  intros Hwf Hev Hrun. assert (Hst : sup_state s' = Stopped).
  { eapply stopped_run; [|apply sup_state_set_state|exact Hev|exact Hrun]. by apply request_stop_wf. }
  split; [done|]. intros now. by apply stopped_not_due.
Qed.

(** C34. The restart budget. Under one policy, while nothing happens to the pane but exits,
    timer restarts, stops and restarts by hand that leave the backoff as it is (no start, no
    reset of budget or backoff, no new policy), with a clock that never goes backwards, and
    from a state that is not waiting to restart and whose log is within the budget and not in
    the future: every period of [window_ms] milliseconds contains at most [max_restarts]
    automatic restarts (over the whole life of the pane when the window is 0), counting those
    already in the log. *)
Theorem restart_budget_respected policy t0 s evs s' :
  sup_policy s = policy → sup_state s ≠ Backoff → 0 ≤ rp_window_ms policy →
  1 ≤ t0 → Forall (λ a, 1 ≤ a ≤ t0) (sup_restart_log s) →
  Z.of_nat (length (sup_restart_log s)) ≤ rp_max_restarts policy →
  clock_ok t0 evs = true → Forall (λ ev, keeps_budget ev = true) evs →
  run_events s evs = Some s' →
  ∀ t, in_window (rp_window_ms policy) t (sup_restart_log s ++ auto_restarts s evs)
       ≤ rp_max_restarts policy.
Proof.
  intros Hpol Hst Hw H1 Hlog Hlen Hc Hk Hrun t.
  assert (Hinv : budgeted policy t0 (sup_restart_log s) s).
  { split; [|done]. split; [done| |done|].
    - exists []. split; [done|constructor].
    - intros u. pose proof (in_window_le (rp_window_ms (sup_policy s)) u (sup_restart_log s)). subst. lia. }
  destruct (budget_run _ _ _ _ _ _ Hinv H1 Hw Hc Hk Hrun) as (last & [_ _ _ Hb] & <-). apply Hb.
Qed.

(** C35. A crash loop ends: with a lifetime budget ([window_ms = 0]) and nobody
    intervening, a pane goes through at most [2 * max_restarts + 1] exits and timer
    restarts, whatever the exit codes, times and spawn outcomes. *)
Theorem crash_loop_terminates policy t0 evs s :
  rp_window_ms policy = 0 → 0 ≤ rp_max_restarts policy →
  Forall (λ ev, unattended ev = true) evs →
  run_events (on_started (sup_new policy) t0) evs = Some s →
  Z.of_nat (length evs) ≤ 2 * rp_max_restarts policy + 1.
Proof.
  intros Hw Hm Hu Hrun.
  assert (Hinv : crash_inv policy (on_started (sup_new policy) t0)).
  { split; simpl; done. }
  destruct (crash_run policy evs _ _ Hw Hinv Hu Hrun) as [Hle [_ Hpol _ Hlen Hst]].
  unfold crash_potential in Hle. rewrite Hpol in Hle. simpl in Hle.
  destruct (sup_state s); simpl in *; lia.
Qed.

End Delays.

(** A backoff delay is never negative and never exceeds [max_delay_ms], whatever the
    multiplier, jitter, failure count and random sample (NaN and infinities included) and
    however precise [powi] is, for every maximum that an [f64] holds exactly. *)
Lemma delay_within_max (powi : spec_float → Z → spec_float) policy failures unit :
  0 ≤ rp_max_delay_ms policy < 2 ^ 53 →
  0 ≤ delay_ms powi policy failures unit ≤ rp_max_delay_ms policy.
Proof.
  intros Hm. unfold delay_ms. destruct (Z.eqb_spec (rp_initial_delay_ms policy) 0); [lia|].
  by apply round_clamp_bound.
Qed.

(** Restoring what was persisted keeps the policy, the restart count, the budget
    log and the failure count, so the budget survives a daemon restart; the state is
    kept only when [Stopped] or [Failed] and is otherwise [Exited], no restart is
    pending and none can become due; persisting again gives the same record. *)
Theorem restore_persisted s now :
  let s' := restore (persisted s) in
  let keep := match sup_state s with Stopped => Stopped | Failed => Failed | _ => Exited end in
  persisted s' = persisted (set_state keep s) ∧
  restarts_in_window s' now = restarts_in_window s now ∧
  restart_pending s' = false ∧ due s' now = false ∧
  restore (persisted s') = s'.
Proof. destruct s as [? [] ? ? ? ? ? ? ? ?]; done. Qed.

(** One implementation of [powi], by repeated multiplication. *)
Definition powi_iter (x : spec_float) (n : Z) : spec_float := Nat.iter (Z.to_nat n) (f64_mul x) f64_one.

Definition always_policy : RestartPolicy := mkPolicy Always 2 0 1000 f64_two 30000 f64_zero 10000.

(** [set_policy] is documented to leave a pending backoff that the new policy would
    have scheduled. After a clean exit restarted by [Always] and a failed spawn, the
    backoff is one [OnFailure] would also have scheduled (a spawn failure has no exit
    code), yet switching to [OnFailure] cancels it, because the decision is made from
    the exit code of the run before. *)
Example set_policy_cancels_spawn_backoff :
  let on_failure := mkPolicy OnFailure 2 0 1000 f64_two 30000 f64_zero 10000 in
  let before policy := begin_restart (fst (on_exit powi_iter (on_started (sup_new policy) 1) 5 (Some 0) None f64_half)) 1005 true in
  let waiting := fst (on_spawn_failed powi_iter (before always_policy) 1005 f64_half) in
  sup_state waiting = Backoff ∧
  sup_state (fst (on_spawn_failed powi_iter (set_policy (before always_policy) on_failure) 1005 f64_half)) = Backoff ∧
  sup_state (set_policy waiting on_failure) = Exited.
Proof. vm_compute. done. Qed.

(** ** Witnesses *)

Definition crash_run_events : list lifecycle_event :=
  [ Ev_exit 5 (Some 1) None f64_half; Ev_due 1005 true f64_half;
    Ev_exit 1010 (Some 1) None f64_half; Ev_due 3010 false f64_half ].

Lemma lifecycle_invariant_witness :
  ∃ s, run_events powi_iter (on_started (sup_new always_policy) 1) crash_run_events = Some s ∧
       run_events powi_iter (sup_new always_policy) (Ev_adopt 1 :: crash_run_events) = Some s ∧ wf_sup s.
Proof.
  exists (mkSup always_policy Failed 2 [1005; 3010] 2 None (Some (mkExit (Some 1) None 1010)) None false false).
  split; [vm_compute; reflexivity|]. split; [vm_compute; reflexivity|].
  refine (proj1 (lifecycle_invariant powi_iter (sup_new always_policy) (Ev_adopt 1 :: crash_run_events) _ _ _)).
  - left. by exists always_policy.
  - vm_compute. reflexivity.
Defined.

Definition stop_run_events : list lifecycle_event :=
  [Ev_exit 9 (Some 1) (Some 15) f64_half; Ev_reset_budget].

Lemma stop_is_honoured_witness :
  ∃ s', run_events powi_iter (apply_event powi_iter (on_started (sup_new always_policy) 1) Ev_stop)
          stop_run_events = Some s' ∧ sup_state s' = Stopped.
Proof.
  exists (mkSup always_policy Stopped 0 [] 0 None (Some (mkExit (Some 1) (Some 15) 9)) None false false).
  split; [vm_compute; reflexivity|].
  refine (proj1 (stop_is_honoured powi_iter (on_started (sup_new always_policy) 1) stop_run_events _ _ _ _)).
  - unfold wf_sup. simpl. eauto.
  - repeat constructor.
  - vm_compute. reflexivity.
Defined.

Lemma restart_budget_respected_witness :
  in_window 0 5000 (auto_restarts powi_iter (on_started (sup_new always_policy) 1) crash_run_events) = 2 ∧
  in_window 0 5000 ([] ++ auto_restarts powi_iter (on_started (sup_new always_policy) 1) crash_run_events) ≤ 2.
Proof.
  split; [vm_compute; reflexivity|].
  eapply (restart_budget_respected powi_iter always_policy 1 (on_started (sup_new always_policy) 1));
    [reflexivity|discriminate|done|done|constructor|done|reflexivity|repeat constructor|vm_compute; reflexivity].
Defined.

Lemma crash_loop_terminates_witness :
  ∃ s, run_events powi_iter (on_started (sup_new always_policy) 1) crash_run_events = Some s ∧
       sup_state s = Failed ∧ Z.of_nat (length crash_run_events) ≤ 2 * 2 + 1.
Proof.
  exists (mkSup always_policy Failed 2 [1005; 3010] 2 None (Some (mkExit (Some 1) None 1010)) None false false).
  split; [vm_compute; reflexivity|]. split; [reflexivity|].
  eapply (crash_loop_terminates powi_iter always_policy 1);
    [reflexivity|done|repeat constructor|vm_compute; reflexivity].
Defined.

(** A maximum above that is accepted too, and is exceeded: 2^53 + 3 is rounded up to 2^53 + 4. *)
Definition huge_delay_policy : RestartPolicy := mkPolicy Always 5 60000 9007199254740995 f64_one 9007199254740995 f64_zero 10000.

Lemma huge_delay_exceeds_max :
  validate huge_delay_policy = Ok tt ∧ delay_ms powi_iter huge_delay_policy 0 f64_zero = rp_max_delay_ms huge_delay_policy + 1.
Proof. split; vm_compute; reflexivity. Qed.
