(* ===== verification/TermQuery.v ===== *)
(** * Terminal query replies ([crates/tymux-core/src/terminal_query.rs])

    Which escape sequences are queries, and the bytes the daemon answers with. The
    emulator's screen is reached through the accessor interface [Screen]. Bytes are
    [Z]; an ASCII literal is written with [ascii]. *)

From S2P Require Import Prelude.

(** ** Bytes and text *)

Definition ascii (s : string) : list byte := (λ c, Z.of_N (Ascii.N_of_ascii c)) <$> String.list_ascii_of_string s.

Definition ESC : byte := 27.
Definition BEL : byte := 7.

(** The digits of [n] in base 10, most significant first ([format!("{n}")]); the
    fuel bounds the number of digits. *)
Fixpoint dec_go (fuel : nat) (n : Z) : list byte :=
  match fuel with
  | O => []
  | S fuel => (if n <? 10 then [] else dec_go fuel (n / 10)) ++ [48 + n mod 10]
  end.
Definition dec (n : Z) : list byte := dec_go 20 n.

(** One lower-case hexadecimal digit, and [format!("{n:02x}")] of a byte. *)
Definition hex_digit (n : Z) : byte := if n <? 10 then 48 + n else 87 + n.
Definition hex2 (n : Z) : list byte := [hex_digit (n / 16); hex_digit (n mod 16)].

(** A digit's value in a radix ([char::to_digit]). *)
Definition to_digit (radix : Z) (b : byte) : option Z :=
  let d := if (48 <=? b) && (b <=? 57) then Some (b - 48)
           else if (97 <=? b) && (b <=? 122) then Some (b - 87)
           else if (65 <=? b) && (b <=? 90) then Some (b - 55)
           else None in
  let! v := d in if v <? radix then Some v else None.

Fixpoint digits_u8 (radix acc : Z) (s : list byte) : option Z :=
  match s with
  | [] => Some acc
  | b :: s =>
      let! d := to_digit radix b in
      if acc * radix + d <=? u8_max then digits_u8 radix (acc * radix + d) s else None
  end.

(** [u8::from_str_radix]: an optional [+], then at least one digit, in range. *)
Definition parse_u8 (radix : Z) (s : list byte) : option Z :=
  match s with
  | [] => None
  | b :: rest => if b =? 43 then (match rest with [] => None | _ => digits_u8 radix 0 rest end)
                 else digits_u8 radix 0 s
  end.

(** ** Queries *)

Inductive Query :=
| Da1
| Da2
| StatusReport
| CursorPosition
| DecCursorPosition
| XtVersion
| ModeReport (dec : bool) (mode : Z)
| SizeReport (kind : Z).

#[export] Instance Query_eq_dec : EqDecision Query.
Proof. solve_decision. Defined.

(** Bytes named as in the source: c n q p t > ? $. *)
Definition ch_c : byte := 99.
Definition ch_n : byte := 110.
Definition ch_q : byte := 113.
Definition ch_p : byte := 112.
Definition ch_t : byte := 116.
Definition ch_gt : byte := 62.
Definition ch_qm : byte := 63.
Definition ch_dollar : byte := 36.

Definition classify_csi (i1 i2 : option byte) (p0 : Z) (fin : byte) : option Query :=
  match i1, i2 with
  | None, None =>
      if fin =? ch_c then (if p0 =? 0 then Some Da1 else None)
      else if fin =? ch_n then
        (if p0 =? 5 then Some StatusReport else if p0 =? 6 then Some CursorPosition else None)
      else if fin =? ch_t then (if (p0 =? 18) || (p0 =? 19) then Some (SizeReport p0) else None)
      else None
  | Some a, None =>
      if (a =? ch_gt) && (fin =? ch_c) then (if p0 =? 0 then Some Da2 else None)
      else if (a =? ch_qm) && (fin =? ch_n) then (if p0 =? 6 then Some DecCursorPosition else None)
      else if (a =? ch_gt) && (fin =? ch_q) then (if p0 =? 0 then Some XtVersion else None)
      else if (a =? ch_dollar) && (fin =? ch_p) then Some (ModeReport false p0)
      else None
  | Some a, Some b =>
      if (a =? ch_qm) && (b =? ch_dollar) && (fin =? ch_p) then Some (ModeReport true p0) else None
  | None, Some _ => None
  end.

(** ** The emulator screen, as the replies see it ([vt100::Screen] accessors) *)

Inductive MouseProtocolMode := MouseNone | Press | PressRelease | ButtonMotion | AnyMotion.
Inductive MouseProtocolEncoding := EncDefault | EncUtf8 | EncSgr | EncUrxvt.

#[export] Instance MouseProtocolMode_eq_dec : EqDecision MouseProtocolMode.
Proof. solve_decision. Defined.
#[export] Instance MouseProtocolEncoding_eq_dec : EqDecision MouseProtocolEncoding.
Proof. solve_decision. Defined.

Class Screen (S : Type) := {
  mouse_protocol_mode : S → MouseProtocolMode;
  mouse_protocol_encoding : S → MouseProtocolEncoding;
  insert_mode : S → bool;
  newline_mode : S → bool;
  application_cursor : S → bool;
  origin_mode : S → bool;
  autowrap : S → bool;
  hide_cursor : S → bool;
  alternate_screen : S → bool;
  application_keypad : S → bool;
  focus_events : S → bool;
  bracketed_paste : S → bool;
  cursor_position : S → Z * Z;
  size : S → Z * Z;
  scroll_region : S → Z * Z;
}.

Definition NOT_RECOGNIZED : Z := 0.
Definition SET : Z := 1.
Definition RESET : Z := 2.
Definition PERMANENTLY_SET : Z := 3.
Definition PERMANENTLY_RESET : Z := 4.

Definition flag (on : bool) : Z := if on then SET else RESET.

Section Replies.
Context {S : Type} `{!Screen S}.

Definition mode_status (screen : S) (dec : bool) (mode : Z) : Z :=
  let mouse := mouse_protocol_mode screen in
  let encoding := mouse_protocol_encoding screen in
  if negb dec then
    if mode =? 2 then PERMANENTLY_RESET
    else if mode =? 4 then flag (insert_mode screen)
    else if mode =? 12 then PERMANENTLY_SET
    else if mode =? 20 then flag (newline_mode screen)
    else NOT_RECOGNIZED
  else if mode =? 1 then flag (application_cursor screen)
  else if mode =? 6 then flag (origin_mode screen)
  else if mode =? 7 then flag (autowrap screen)
  else if mode =? 8 then PERMANENTLY_SET
  else if mode =? 9 then flag (bool_decide (mouse = Press))
  else if mode =? 25 then flag (negb (hide_cursor screen))
  else if (mode =? 47) || (mode =? 1047) || (mode =? 1049) then flag (alternate_screen screen)
  else if mode =? 66 then flag (application_keypad screen)
  else if (mode =? 67) || (mode =? 1005) || (mode =? 1015) then PERMANENTLY_RESET
  else if mode =? 1000 then flag (bool_decide (mouse = PressRelease))
  else if mode =? 1002 then flag (bool_decide (mouse = ButtonMotion))
  else if mode =? 1003 then flag (bool_decide (mouse = AnyMotion))
  else if mode =? 1004 then flag (focus_events screen)
  else if mode =? 1006 then flag (bool_decide (encoding = EncSgr))
  else if mode =? 1048 then SET
  else if mode =? 2004 then flag (bracketed_paste screen)
  else NOT_RECOGNIZED.

Definition cursor_report (screen : S) : Z * Z :=
  let '(row, col) := cursor_position screen in
  let '(rows, cols) := size screen in
  let row := if origin_mode screen then sat_sub row (sat_sub (fst (scroll_region screen)) 1) else row in
  (Z.min (sat_add u16_max row 1) rows, Z.min (sat_add u16_max col 1) cols).

(** The crate version is a build-time constant. *)
Context (CARGO_PKG_VERSION : list byte).

Definition reply_for (query : Query) (screen : S) : list byte :=
  match query with
  | Da1 => ESC :: ascii "[?1;2c"
  | Da2 => ESC :: ascii "[>0;276;0c"
  | StatusReport => ESC :: ascii "[0n"
  | CursorPosition =>
      let '(r, c) := cursor_report screen in
      ESC :: ascii "[" ++ dec r ++ ascii ";" ++ dec c ++ ascii "R"
  | DecCursorPosition =>
      let '(r, c) := cursor_report screen in
      ESC :: ascii "[?" ++ dec r ++ ascii ";" ++ dec c ++ ascii ";1R"
  | XtVersion => ESC :: ascii "P>|tymux " ++ CARGO_PKG_VERSION ++ [ESC; 92]
  | ModeReport is_dec mode =>
      let status := mode_status screen is_dec mode in
      let prefix := if is_dec then ascii "?" else [] in
      ESC :: ascii "[" ++ prefix ++ dec mode ++ ascii ";" ++ dec status ++ ascii "$y"
  | SizeReport kind =>
      let '(rows, cols) := size screen in
      let op := if kind =? 18 then 8 else 9 in
      ESC :: ascii "[" ++ dec op ++ ascii ";" ++ dec rows ++ ascii ";" ++ dec cols ++ ascii "t"
  end.

(** The reply to a CSI the emulator did not handle, if it is one of our queries; [c] is
    a code point. *)
Definition csi_reply (screen : S) (i1 i2 : option byte) (params : list (list Z)) (c : Z)
    : option (list byte) :=
  let p0 := default 0 (head params ≫= head) in
  if c <=? u8_max then (λ query, reply_for query screen) <$> classify_csi i1 i2 p0 c else None.

End Replies.

(** ** Colours *)

Definition Rgb : Type := Z * Z * Z.

Record Colors := mkColors { col_fg : Rgb; col_bg : Rgb; col_cursor : Rgb }.

Definition colors_default : Colors := mkColors (255, 255, 255) (0, 0, 0) (255, 255, 255).

Definition parse_hex_color (s : list byte) : option Rgb :=
  match s with
  | h :: hex =>
      if h =? 35 then
        if negb (length hex =? 6)%nat || negb (forallb (λ b, b <? 128) hex) then None
        else
          let byte_at i := parse_u8 16 (take 2 (drop i hex)) in
          let! r := byte_at 0%nat in
          let! g := byte_at 2%nat in
          let! b := byte_at 4%nat in
          Some (r, g, b)
      else None
  | [] => None
  end.

Definition from_lookup (get : string → option (list byte)) : Colors :=
  let pick key default := match get key ≫= parse_hex_color with Some c => c | None => default end in
  mkColors (pick "TYMUXD_QUERY_FG" (col_fg colors_default))
           (pick "TYMUXD_QUERY_BG" (col_bg colors_default))
           (pick "TYMUXD_QUERY_CURSOR" (col_cursor colors_default)).

Definition ANSI16 : list Rgb :=
  [ (46, 52, 54); (204, 0, 0); (78, 154, 6); (196, 160, 0);
    (52, 101, 164); (117, 80, 123); (6, 152, 154); (211, 215, 207);
    (85, 87, 83); (239, 41, 41); (138, 226, 52); (252, 233, 79);
    (114, 159, 207); (173, 127, 168); (52, 226, 226); (238, 238, 236) ].

Definition LEVELS : list Z := [0; 95; 135; 175; 215; 255].

(** [None] is an index out of range or an arithmetic overflow. *)
Definition palette (index : Z) : option Rgb :=
  if index <=? 15 then ANSI16 !! Z.to_nat index
  else if index <=? 231 then
    let i := index - 16 in
    let! r := LEVELS !! Z.to_nat (i / 36) in
    let! g := LEVELS !! Z.to_nat ((i / 6) mod 6) in
    let! b := LEVELS !! Z.to_nat (i mod 6) in
    Some (r, g, b)
  else
    let v := 8 + 10 * (index - 232) in
    if v <=? u8_max then Some (v, v, v) else None.

Definition osc_color (prefix : list byte) (color : Rgb) (bel : bool) : list byte :=
  let '(r, g, b) := color in
  let fin := if bel then [BEL] else [ESC; 92] in
  ESC :: ascii "]" ++ prefix ++ ascii ";rgb:" ++ hex2 r ++ hex2 r ++ ascii "/" ++
    hex2 g ++ hex2 g ++ ascii "/" ++ hex2 b ++ hex2 b ++ fin.

Inductive OscItem := Dynamic (ident : Z) | Palette (index : Z).

#[export] Instance OscItem_eq_dec : EqDecision OscItem.
Proof. solve_decision. Defined.

Definition VTE_MAX_OSC_PARAMS : nat := 16.

(** [rest.chunks(2).map(...).collect()] over an even number of elements. *)
Fixpoint palette_pairs (rest : list (list byte)) : option (list OscItem) :=
  match rest with
  | idx :: q :: rest =>
      let! index := parse_u8 10 idx in
      if bool_decide (q = ascii "?") then
        let! items := palette_pairs rest in Some (Palette index :: items)
      else None
  | _ => Some []
  end.

(** [(base..=12).zip(rest)]: one item per further parameter, up to colour 12. *)
Fixpoint dynamic_items (base : Z) (n : nat) : list OscItem :=
  match n with
  | O => []
  | S n => if base <=? 12 then Dynamic base :: dynamic_items (base + 1) n else []
  end.

Definition is_qm (p : list byte) : bool := bool_decide (p = ascii "?").

Definition osc_query (params : list (list byte)) : option (list OscItem) :=
  match params with
  | [] => None
  | first :: rest =>
      let dynamic base :=
        if bool_decide (rest = []) || existsb (λ p, negb (is_qm p)) rest then None
        else Some (dynamic_items base (length rest)) in
      if bool_decide (first = ascii "10") then dynamic 10
      else if bool_decide (first = ascii "11") then dynamic 11
      else if bool_decide (first = ascii "12") then dynamic 12
      else if bool_decide (first = ascii "4") then
        let truncated := (VTE_MAX_OSC_PARAMS <=? length params)%nat in
        let rest := if truncated && Nat.odd (length rest) then take (length rest - 1) rest else rest in
        if bool_decide (rest = []) || Nat.odd (length rest) then None else palette_pairs rest
      else None
  end.

Definition osc_item_reply (bel : bool) (colors : Colors) (item : OscItem) : option (list byte) :=
  match item with
  | Palette i => (λ c, osc_color (ascii "4;" ++ dec i) c bel) <$> palette i
  | Dynamic ident =>
      let color := if ident =? 10 then col_fg colors else if ident =? 11 then col_bg colors else col_cursor colors in
      Some (osc_color (dec ident) color bel)
  end.

(** [None] if a palette lookup panics. *)
Definition osc_replies (params : list (list byte)) (bel : bool) (colors : Colors) : option (list (list byte)) :=
  mapM (osc_item_reply bel colors) (default [] (osc_query params)).

(** ** How a reply reads as a control sequence

    ECMA-48 parameter, intermediate and final bytes of one complete CSI: the private
    and intermediate bytes in order, the first parameter and the final byte. *)
Fixpoint csi_scan (inter : list byte) (p0 : Z) (first : bool) (s : list byte)
    : option (list byte * Z * byte) :=
  match s with
  | [] => None
  | b :: s =>
      if (48 <=? b) && (b <=? 57) then csi_scan inter (if first then p0 * 10 + (b - 48) else p0) first s
      else if (b =? 58) || (b =? 59) then csi_scan inter p0 false s
      else if (32 <=? b) && (b <=? 63) then csi_scan (inter ++ [b]) p0 first s
      else if (64 <=? b) && (b <=? 126) then match s with [] => Some (inter, p0, b) | _ => None end
      else None
  end.

Definition csi_parts (s : list byte) : option (list byte * Z * byte) :=
  match s with
  | e :: l :: s => if (e =? ESC) && (l =? 91) then csi_scan [] 0 true s else None
  | _ => None
  end.

(** The parameters of one complete OSC: its body split at semicolons. *)
Fixpoint split_semi (cur : list byte) (s : list byte) : list (list byte) :=
  match s with
  | [] => [cur]
  | b :: s => if b =? 59 then cur :: split_semi [] s else split_semi (cur ++ [b]) s
  end.

Definition osc_parts (bel : bool) (s : list byte) : option (list (list byte)) :=
  let fin := if bel then [BEL] else [ESC; 92] in
  match s with
  | e :: l :: s =>
      let body := take (length s - length fin) s in
      if (e =? ESC) && (l =? 93) && bool_decide (drop (length s - length fin) s = fin)
      then Some (split_semi [] body) else None
  | _ => None
  end.

(** What the daemon would do with this sequence if it saw it in a pane's output. *)
Definition is_csi_query (s : list byte) : bool :=
  match csi_parts s with
  | Some (inter, p0, fin) => bool_decide (is_Some (classify_csi (inter !! 0%nat) (inter !! 1%nat) p0 fin))
  | None => false
  end.
Definition is_osc_query (bel : bool) (s : list byte) : bool :=
  match osc_parts bel s with
  | Some params => bool_decide (is_Some (osc_query params))
  | None => false
  end.

(** ** Lemmas *)

Definition is_digit (b : byte) : bool := (48 <=? b) && (b <=? 57).

Lemma dec_go_digits fuel n : Forall (λ b, is_digit b = true) (dec_go fuel n).
Proof.
  revert n. induction fuel as [|fuel IH]; intros n; cbn [dec_go]; [constructor|].
  apply Forall_app. split; [destruct (n <? 10); [constructor|apply IH]|].
  repeat constructor. unfold is_digit. pose proof (Z.mod_pos_bound n 10). apply andb_true_iff.
  rewrite !Z.leb_le. lia.
Qed.

Lemma dec_digits n : Forall (λ b, is_digit b = true) (dec n).
Proof. apply dec_go_digits. Qed.

Lemma csi_scan_digits inter p0 first ds s :
  Forall (λ b, is_digit b = true) ds →
  ∃ p1, csi_scan inter p0 first (ds ++ s) = csi_scan inter p1 first s.
Proof.
  intros Hd. revert p0. induction Hd as [|b ds Hb _ IH]; intros p0; [by exists p0|].
  change ((b :: ds) ++ s) with (b :: (ds ++ s)). cbn [csi_scan].
  unfold is_digit in Hb. rewrite Hb. apply IH.
Qed.

(** Past the first parameter, digits are not accumulated. *)
Lemma csi_scan_later inter p0 n s : csi_scan inter p0 false (dec n ++ s) = csi_scan inter p0 false s.
Proof.
  induction (dec_digits n) as [|b ds Hb _ IH]; [done|].
  change ((b :: ds) ++ s) with (b :: (ds ++ s)). cbn [csi_scan].
  unfold is_digit in Hb. rewrite Hb. apply IH.
Qed.

Lemma csi_parts_cons s : csi_parts (ESC :: 91 :: s) = csi_scan [] 0 true s.
Proof. done. Qed.

(** Decimal and hexadecimal round trips over a byte's range. *)
Definition all_u8 (f : Z → bool) : bool := forallb (λ n, f (Z.of_nat n)) (seq 0 256).

Lemma all_u8_spec f n : all_u8 f = true → 0 ≤ n ≤ u8_max → f n = true.
Proof.
  intros Hall Hn. unfold all_u8 in Hall. rewrite forallb_forall in Hall.
  rewrite <- (Z2Nat.id n) by lia. apply Hall, in_seq. unfold u8_max in Hn. lia.
Qed.

Lemma parse_dec n : 0 ≤ n ≤ u8_max → parse_u8 10 (dec n) = Some n.
Proof.
  intros Hn.
  assert (Hall : all_u8 (λ n, bool_decide (parse_u8 10 (dec n) = Some n)) = true) by (vm_compute; reflexivity).
  by apply (all_u8_spec _ n Hall), bool_decide_eq_true_1 in Hn.
Qed.

Lemma parse_hex2 n : 0 ≤ n ≤ u8_max → parse_u8 16 (hex2 n) = Some n ∧ forallb (λ b, b <? 128) (hex2 n) = true.
Proof.
  intros Hn.
  assert (Hall : all_u8 (λ n, bool_decide (parse_u8 16 (hex2 n) = Some n) && forallb (λ b, b <? 128) (hex2 n)) = true)
    by (vm_compute; reflexivity).
  apply (all_u8_spec _ n Hall), andb_true_iff in Hn as [Hn ?]. by apply bool_decide_eq_true_1 in Hn.
Qed.

Lemma digits_u8_bounds radix acc s v :
  0 < radix → 0 ≤ acc ≤ u8_max → digits_u8 radix acc s = Some v → 0 ≤ v ≤ u8_max.
Proof.
  intros Hr. revert acc. induction s as [|b s IH]; intros acc Hacc; simpl; [by intros [= <-]|].
  destruct (to_digit radix b) as [d|] eqn:Hd; [|done].
  assert (0 ≤ d).
  { unfold to_digit in Hd. repeat case_match_eq; simplify_eq; b2p; lia. }
  destruct (Z.leb_spec (acc * radix + d) u8_max); [|done]. apply IH. nia.
Qed.

Lemma parse_u8_bounds radix s v : 0 < radix → parse_u8 radix s = Some v → 0 ≤ v ≤ u8_max.
Proof.
  intros Hr. unfold parse_u8. destruct s as [|b rest]; [done|].
  repeat case_match_eq; try done; apply digits_u8_bounds; done.
Qed.

Lemma palette_total n :
  0 ≤ n ≤ u8_max → ∃ r g b, palette n = Some (r, g, b) ∧
    0 ≤ r ≤ u8_max ∧ 0 ≤ g ≤ u8_max ∧ 0 ≤ b ≤ u8_max.
Proof.
  intros Hn.
  set (ok := λ n, match palette n with
    | Some (r, g, b) => (0 <=? r) && (r <=? u8_max) && ((0 <=? g) && (g <=? u8_max)) && ((0 <=? b) && (b <=? u8_max))
    | None => false end).
  assert (H : ok n = true) by (apply all_u8_spec; [vm_compute; reflexivity|done]).
  unfold ok in H. destruct (palette n) as [[[r g] b]|]; [|done]. b2p. exists r, g, b. done.
Qed.

Definition no_semi (s : list byte) : Prop := Forall (λ b, b ≠ 59) s.

Lemma split_semi_last cur s : no_semi s → split_semi cur s = [cur ++ s].
Proof.
  intros Hs. revert cur. induction Hs as [|b s Hb _ IH]; intros cur; simpl; [by rewrite app_nil_r|].
  apply Z.eqb_neq in Hb. by rewrite Hb, IH, <- app_assoc.
Qed.

Lemma split_semi_first cur s t : no_semi s → split_semi cur (s ++ 59 :: t) = (cur ++ s) :: split_semi [] t.
Proof.
  intros Hs. revert cur. induction Hs as [|b s Hb _ IH]; intros cur; [by rewrite app_nil_r|].
  apply Z.eqb_neq in Hb. simpl. by rewrite Hb, IH, <- app_assoc.
Qed.

Lemma dec_no_semi n : no_semi (dec n).
Proof. eapply Forall_impl; [apply dec_digits|]. intros b Hb. unfold is_digit in Hb. b2p. lia. Qed.

(** The colour text of a reply. *)
Definition rgb_text (color : Rgb) : list byte :=
  let '(r, g, b) := color in
  ascii "rgb:" ++ hex2 r ++ hex2 r ++ ascii "/" ++ hex2 g ++ hex2 g ++ ascii "/" ++ hex2 b ++ hex2 b.

Definition rgb_ok (color : Rgb) : Prop :=
  let '(r, g, b) := color in 0 ≤ r ≤ u8_max ∧ 0 ≤ g ≤ u8_max ∧ 0 ≤ b ≤ u8_max.

Lemma hex_digit_no_semi n : 0 ≤ n → hex_digit n ≠ 59.
Proof. intros. unfold hex_digit. destruct (Z.ltb_spec n 10); lia. Qed.

Lemma rgb_text_no_semi color : rgb_ok color → no_semi (rgb_text color).
Proof.
  destruct color as [[r g] b]. intros (Hr & Hg & Hb). unfold rgb_text, hex2.
  repeat (apply Forall_cons || apply Forall_app || split || apply Forall_nil); try done; apply hex_digit_no_semi; lia_div.
Qed.

Lemma rgb_text_not_qm color : rgb_text color ≠ ascii "?".
Proof. by destruct color as [[r g] b]. Qed.

Lemma osc_color_parts prefix color bel :
  osc_parts bel (osc_color prefix color bel) = Some (split_semi [] (prefix ++ 59 :: rgb_text color)).
Proof.
  unfold osc_color. destruct color as [[r g] b]. set (fin := if bel then [BEL] else [ESC; 92]).
  transitivity (osc_parts bel (ESC :: 93 :: (prefix ++ 59 :: rgb_text (r, g, b)) ++ fin)).
  { f_equal. simpl. rewrite <- !app_assoc. simpl. by rewrite <- ?app_assoc. }
  unfold osc_parts. fold fin. cbv zeta.
  rewrite length_app, Nat.add_sub, drop_app_length, take_app_length, bool_decide_true by done. done.
Qed.

Lemma osc_query_single first q : q ≠ ascii "?" → osc_query [first; q] = None.
Proof.
  intros Hq. unfold osc_query, is_qm. simpl. rewrite (bool_decide_false (q = _)) by done. simpl.
  repeat case_match; done.
Qed.

Lemma osc_query_set index q : q ≠ ascii "?" → osc_query [ascii "4"; index; q] = None.
Proof.
  intros Hq. change (osc_query [ascii "4"; index; q]) with (palette_pairs [index; q]). simpl.
  rewrite (bool_decide_false (q = _)) by done. by destruct (parse_u8 10 index).
Qed.

Lemma osc_item_reply_silent bel colors item reply :
  rgb_ok (col_fg colors) → rgb_ok (col_bg colors) → rgb_ok (col_cursor colors) →
  (∀ i, item = Palette i → 0 ≤ i ≤ u8_max) →
  osc_item_reply bel colors item = Some reply → is_osc_query bel reply = false.
Proof.
  intros Hfg Hbg Hcur Hi Hr. unfold is_osc_query. destruct item as [ident|i]; cbn [osc_item_reply] in Hr.
  - set (color := if ident =? 10 then _ else _) in Hr.
    assert (rgb_ok color) by (subst color; destruct (ident =? 10); [|destruct (ident =? 11)]; done).
    injection Hr as <-. rewrite osc_color_parts, split_semi_first by apply dec_no_semi.
    rewrite split_semi_last by (by apply rgb_text_no_semi).
    rewrite osc_query_single by apply rgb_text_not_qm. done.
  - destruct (palette_total i (Hi i eq_refl)) as (r & g & b & Hp & Hok). rewrite Hp in Hr.
    apply (inj Some) in Hr. cbv beta in Hr. subst reply. rewrite osc_color_parts.
    change (ascii "4;" ++ dec i) with (ascii "4" ++ [59] ++ dec i). rewrite <- !app_assoc. cbn [app].
    rewrite (split_semi_first [] (ascii "4") (dec i ++ _)) by (repeat constructor; done).
    rewrite split_semi_first by apply dec_no_semi.
    rewrite split_semi_last by (by apply rgb_text_no_semi).
    rewrite osc_query_set by apply rgb_text_not_qm. done.
Qed.

(** *** Palette queries *)

(** The parameters that ask for these palette entries. *)
Fixpoint print_pairs (idx : list Z) : list (list byte) :=
  match idx with [] => [] | i :: idx => dec i :: ascii "?" :: print_pairs idx end.

Lemma palette_pairs_print idx :
  Forall (λ i, 0 ≤ i ≤ u8_max) idx → palette_pairs (print_pairs idx) = Some (Palette <$> idx).
Proof.
  induction 1 as [|i idx Hi _ IH]; [done|]. cbn [print_pairs palette_pairs].
  rewrite parse_dec by done. cbv beta iota. by rewrite bool_decide_true, IH by done.
Qed.

Lemma print_pairs_length idx : length (print_pairs idx) = (2 * length idx)%nat.
Proof. induction idx as [|i idx IH]; simpl; lia. Qed.

Lemma palette_pairs_bounds rest items :
  palette_pairs rest = Some items →
  (length items = Nat.div2 (length rest)) ∧ Forall (λ it, ∃ i, it = Palette i ∧ 0 ≤ i ≤ u8_max) items.
Proof.
  revert items. induction rest as [rest IH] using (induction_ltof1 _ (@length _)). unfold ltof in IH.
  intros items. destruct rest as [|idx [|q rest]]; simpl; [by intros [= <-]..|].
  destruct (parse_u8 10 idx) as [i|] eqn:Hi; [|done]. case_bool_decide; [|done].
  destruct (palette_pairs rest) as [its|] eqn:Hp; [|done]. intros [= <-].
  destruct (IH rest ltac:(simpl; lia) _ Hp) as [Hl Hf]. split; [simpl; lia|].
  constructor; [|done]. exists i. split; [done|]. by apply (parse_u8_bounds 10 idx).
Qed.

Lemma dynamic_items_spec base n :
  Forall (λ it, ∃ ident, it = Dynamic ident) (dynamic_items base n) ∧
  (length (dynamic_items base n) ≤ Z.to_nat (13 - base))%nat.
Proof.
  revert base. induction n as [|n IH]; intros base; cbn [dynamic_items]; [split; [constructor|simpl; lia]|].
  destruct (Z.leb_spec base 12); [|split; [constructor|simpl; lia]].
  destruct (IH (base + 1)) as [Hf Hl]. split; [constructor; eauto|simpl; lia].
Qed.

(** What a recognised OSC query asks for: palette entries in range, or dynamic colours. *)
Lemma osc_query_items params items :
  osc_query params = Some items →
  Forall (λ it, ∀ i, it = Palette i → 0 ≤ i ≤ u8_max) items ∧
  ((length params ≤ VTE_MAX_OSC_PARAMS)%nat → (length items ≤ 7)%nat).
Proof.
  unfold osc_query. destruct params as [|first rest]; [done|].
  assert (Hdyn : ∀ base, 10 ≤ base → (if bool_decide (rest = []) || existsb (λ p, negb (is_qm p)) rest then None
     else Some (dynamic_items base (length rest))) = Some items →
     Forall (λ it, ∀ i, it = Palette i → 0 ≤ i ≤ u8_max) items ∧ (length items ≤ 7)%nat).
  { intros base Hb H. case_match_eq; [done|]. injection H as <-.
    destruct (dynamic_items_spec base (length rest)) as [Hf Hl]. split; [|lia].
    eapply Forall_impl; [exact Hf|]. by intros ? [ident ->]. }
  destruct (bool_decide (first = ascii "10")); [intros H'; destruct (Hdyn 10); [lia|done|auto]|].
  destruct (bool_decide (first = ascii "11")); [intros H'; destruct (Hdyn 11); [lia|done|auto]|].
  destruct (bool_decide (first = ascii "12")); [intros H'; destruct (Hdyn 12); [lia|done|auto]|].
  destruct (bool_decide (first = ascii "4")); [|done]. clear Hdyn.
  set (rest' := if _ && _ then _ else rest).
  assert (Hlen : (length (first :: rest) ≤ VTE_MAX_OSC_PARAMS → length rest' ≤ 15)%nat).
  { intros Hl. simpl in Hl. unfold VTE_MAX_OSC_PARAMS in Hl. subst rest'. case_match; rewrite ?length_take; lia. }
  case_match_eq; [done|]. intros Hp. apply palette_pairs_bounds in Hp as [Hl Hf]. split.
  - eapply Forall_impl; [exact Hf|]. intros ? (i & -> & Hi) ? [= <-]. done.
  - intros Hp. rewrite Hl. specialize (Hlen Hp).
    pose proof (Nat.div2_odd (length rest')). destruct (Nat.odd (length rest')); simpl in *; lia.
Qed.

(** *** Reading a reply back *)

Lemma csi_scan_semi inter p0 first s : csi_scan inter p0 first (ascii ";" ++ s) = csi_scan inter p0 false s.
Proof. done. Qed.

(** Reads past the numbers and separators of a reply. *)
Ltac scan_reply :=
  repeat (rewrite csi_scan_semi || rewrite csi_scan_later ||
    match goal with |- context [csi_scan ?i ?p ?f (dec ?n ++ ?s)] =>
      destruct (csi_scan_digits i p f (dec n) s (dec_digits n)) as [? ->] end).

Lemma csi_reply_silent {S : Type} `{!Screen S} version q (screen : S) :
  q ≠ Da2 → is_csi_query (reply_for version q screen) = false.
Proof.
  intros Hq. unfold is_csi_query, reply_for. destruct q as [| | | | | |is_dec mode|kind]; try done.
  - destruct (cursor_report screen) as [r c].
    change (csi_parts (ESC :: ascii "[" ++ ?x)) with (csi_scan [] 0 true x). scan_reply. done.
  - destruct (cursor_report screen) as [r c].
    change (csi_parts (ESC :: ascii "[?" ++ ?x)) with (csi_scan [63] 0 true x). scan_reply. done.
  - destruct is_dec.
    + change (csi_parts (ESC :: ascii "[" ++ ascii "?" ++ ?x)) with (csi_scan [63] 0 true x). scan_reply. done.
    + change (csi_parts (ESC :: ascii "[" ++ [] ++ ?x)) with (csi_scan [] 0 true x). scan_reply. done.
  - destruct (size screen) as [r c]. destruct (kind =? 18).
    + change (csi_parts (ESC :: ascii "[" ++ dec 8 ++ ?x)) with (csi_scan [] 8 true x). scan_reply. done.
    + change (csi_parts (ESC :: ascii "[" ++ dec 9 ++ ?x)) with (csi_scan [] 9 true x). scan_reply. done.
Qed.

(** ** Properties *)

(** The daemon does not answer its own replies: if a pane echoes a reply back into
    its output, no CSI reply (to any query but [Da2], on any screen) and no OSC colour
    reply (to any recognised colour query) is itself a query, so no reply loop can
    start from it. *)
Theorem replies_never_answered {S : Type} `{!Screen S} (version : list byte) :
  (∀ q (screen : S), q ≠ Da2 → is_csi_query (reply_for version q screen) = false) ∧
  (∀ params bel colors replies,
     rgb_ok (col_fg colors) → rgb_ok (col_bg colors) → rgb_ok (col_cursor colors) →
     osc_replies params bel colors = Some replies →
     Forall (λ r, is_osc_query bel r = false) replies).
Proof.
  split; [by intros; apply csi_reply_silent|].
  intros params bel colors replies Hfg Hbg Hc Hr. unfold osc_replies in Hr.
  apply mapM_Some in Hr. destruct (osc_query params) as [items|] eqn:Hq; simpl in Hr; [|by inversion Hr].
  apply osc_query_items in Hq as [Hi _].
  induction Hr as [|item reply items replies Hr _ IH]; [constructor|].
  apply Forall_cons in Hi as [Hi1 Hi]. constructor; [|by apply IH].
  by apply (osc_item_reply_silent bel colors item).
Qed.

(** The exception: the reply to a secondary device attributes query is itself
    classified as that query (only the first parameter is tested), so a pane that echoes
    its input verbatim is answered again for every echoed reply. *)
Example da2_reply_is_a_query {S : Type} `{!Screen S} version (screen : S) :
  is_csi_query (reply_for version Da2 screen) = true.
Proof. reflexivity. Qed.

(** A cursor report always names a cell of the screen (1-based), also with a wrap
    pending past the last column; in origin mode the row is relative to the top of the
    scroll region. *)
Theorem cursor_report_on_screen {S : Type} `{!Screen S} (screen : S) row col rows cols :
  cursor_position screen = (row, col) → size screen = (rows, cols) →
  0 ≤ row → 0 ≤ col → 1 ≤ rows ≤ u16_max → 1 ≤ cols ≤ u16_max →
  let '(r, c) := cursor_report screen in
  1 ≤ r ≤ rows ∧ 1 ≤ c ≤ cols ∧
  (row < rows → col ≤ cols →
   c = Z.min (col + 1) cols ∧
   r = if origin_mode screen then Z.max 0 (row - Z.max 0 (fst (scroll_region screen) - 1)) + 1 else row + 1).
Proof.
  intros Hp Hs ? ? ? ?. unfold cursor_report. rewrite Hp, Hs. destruct (origin_mode screen); machine_int.
Qed.

(** Every OSC colour query the daemon recognises is answered completely: no lookup
    panics, there is one reply per colour asked for (at most 7, since the tokenizer keeps
    at most 16 parameters), and a printed palette query of 1 to 7 entries is recognised
    as exactly these entries. *)
Theorem osc_queries_answered :
  (∀ params bel colors, ∃ replies, osc_replies params bel colors = Some replies ∧
     length replies = length (default [] (osc_query params)) ∧
     ((length params ≤ VTE_MAX_OSC_PARAMS)%nat → (length replies ≤ 7)%nat)) ∧
  (∀ idx, idx ≠ [] → (length idx ≤ 7)%nat → Forall (λ i, 0 ≤ i ≤ u8_max) idx →
     osc_query (ascii "4" :: print_pairs idx) = Some (Palette <$> idx)).
Proof.
  split.
  - intros params bel colors. unfold osc_replies. destruct (osc_query params) as [items|] eqn:Hq; simpl.
    2: { exists []. split; [done|]. simpl. lia. }
    apply osc_query_items in Hq as [Hi Hlen].
    assert (∃ replies, mapM (osc_item_reply bel colors) items = Some replies) as [replies Hr].
    { apply mapM_is_Some. eapply Forall_impl; [exact Hi|]. intros [ident|i] Hb; simpl; [done|].
      destruct (palette_total i (Hb i eq_refl)) as (r & g & b & -> & _). done. }
    exists replies. split; [done|]. apply length_mapM in Hr. rewrite <- Hr. done.
  - intros idx Hne Hl Hi. unfold osc_query.
    change (bool_decide (ascii "4" = ascii "10")) with false. change (bool_decide (ascii "4" = ascii "11")) with false.
    change (bool_decide (ascii "4" = ascii "12")) with false. rewrite (bool_decide_true (ascii "4" = ascii "4")) by done.
    cbv iota zeta. rewrite print_pairs_length.
    assert (Hodd : Nat.odd (2 * length idx) = false) by (rewrite Nat.odd_mul; done).
    rewrite Hodd, andb_false_r, print_pairs_length, Hodd, orb_false_r.
    rewrite bool_decide_false by (destruct idx; done). by apply palette_pairs_print.
Qed.

(** The colour override variables: every colour written as [#rrggbb] is read back
    exactly. *)
Theorem hex_color_roundtrip r g b :
  0 ≤ r ≤ u8_max → 0 ≤ g ≤ u8_max → 0 ≤ b ≤ u8_max →
  parse_hex_color (35 :: hex2 r ++ hex2 g ++ hex2 b) = Some (r, g, b).
Proof.
  intros Hr Hg Hb. destruct (parse_hex2 r Hr) as [Er Ar], (parse_hex2 g Hg) as [Eg Ag], (parse_hex2 b Hb) as [Eb Ab].
  unfold parse_hex_color. rewrite !forallb_app, Ar, Ag, Ab. cbv zeta.
  change (take 2 (drop 0 (hex2 r ++ hex2 g ++ hex2 b))) with (hex2 r).
  change (take 2 (drop 2 (hex2 r ++ hex2 g ++ hex2 b))) with (hex2 g).
  change (take 2 (drop 4 (hex2 r ++ hex2 g ++ hex2 b))) with (hex2 b).
  rewrite Er, Eg, Eb. done.
Qed.

(** The override is documented as [#rrggbb], but a sign is accepted in place of the
    first digit of each component: [#+1+2+3] is read as the colour 1, 2, 3. *)
Example hex_color_accepts_signs : parse_hex_color (ascii "#+1+2+3") = Some (1, 2, 3).
Proof. reflexivity. Qed.

(** ** Witnesses *)

(** A screen given by its cursor, size and scroll region; every mode is off. *)
Record PlainScreen := mkPlain { ps_cursor : Z * Z; ps_size : Z * Z; ps_origin : bool; ps_region : Z * Z }.

#[export] Instance plain_screen : Screen PlainScreen := {
  mouse_protocol_mode _ := MouseNone;
  mouse_protocol_encoding _ := EncDefault;
  insert_mode _ := false;
  newline_mode _ := false;
  application_cursor _ := false;
  origin_mode := ps_origin;
  autowrap _ := true;
  hide_cursor _ := false;
  alternate_screen _ := false;
  application_keypad _ := false;
  focus_events _ := false;
  bracketed_paste _ := false;
  cursor_position := ps_cursor;
  size := ps_size;
  scroll_region := ps_region;
}.

Lemma replies_never_answered_witness :
  osc_replies [ascii "4"; ascii "1"; ascii "?"] true colors_default =
    Some [ESC :: ascii "]4;1;rgb:cccc/0000/0000" ++ [BEL]] ∧
  Forall (λ r, is_osc_query true r = false) [ESC :: ascii "]4;1;rgb:cccc/0000/0000" ++ [BEL]].
Proof.
  split; [reflexivity|].
  refine (proj2 (replies_never_answered (S := PlainScreen) []) [ascii "4"; ascii "1"; ascii "?"] true colors_default _ _ _ _ _);
    [unfold rgb_ok, u8_max; simpl; lia..|reflexivity].
Defined.

Lemma cursor_report_on_screen_witness :
  cursor_report (mkPlain (23, 80) (24, 80) false (0, 0)) = (24, 80) ∧
  (let '(r, c) := cursor_report (mkPlain (23, 80) (24, 80) false (0, 0)) in 1 ≤ r ≤ 24 ∧ 1 ≤ c ≤ 80).
Proof.
  split; [reflexivity|].
  pose proof (cursor_report_on_screen (mkPlain (23, 80) (24, 80) false (0, 0)) 23 80 24 80
    eq_refl eq_refl ltac:(lia) ltac:(lia) ltac:(unfold u16_max; lia) ltac:(unfold u16_max; lia)) as H.
  simpl in *. destruct H as (? & ? & _). done.
Defined.

Lemma osc_queries_answered_witness :
  osc_query [ascii "4"; ascii "7"; ascii "?"; ascii "255"; ascii "?"] = Some [Palette 7; Palette 255].
Proof.
  refine (proj2 osc_queries_answered [7; 255] _ _ _); [done|simpl; lia|].
  repeat constructor; unfold u8_max; lia.
Defined.

Lemma hex_color_roundtrip_witness : parse_hex_color (ascii "#ff8000") = Some (255, 128, 0).
Proof. apply (hex_color_roundtrip 255 128 0); unfold u8_max; lia. Defined.
