(* ===== verification/Scanner.v ===== *)
(** * The query scanner ([crates/tymux-core/src/terminal_query/scanner.rs])

    Splits a pane's output into chunks as clients should see them, with and without
    terminal queries, holding back an unfinished sequence across chunk boundaries. The
    tokenizer ([vte::Parser]) and [memchr] are external crates: they are reached through
    the interfaces [VteParser] and [Memchr], whose laws state what the scanner relies on.
    Offsets ([usize]) are [nat]; a slice or subtraction that would panic is [None]. *)

From S2P Require Import Prelude TermQuery.

(** ** External crates *)

(** The callbacks of [vte::Perform] that the scanner implements. *)
Inductive vte_event :=
| Print
| Execute (b : byte)
| CsiDispatch (params : list (list Z)) (inter : list byte) (c : Z)
| OscDispatch (params : list (list byte))
| EscDispatch
| Hook
| Unhook.

Definition is_osc (ev : vte_event) : bool := match ev with OscDispatch _ => true | _ => false end.
Definition is_execute (ev : vte_event) : bool := match ev with Execute _ => true | _ => false end.

Definition CAN : byte := 24.
Definition SUB : byte := 26.

(** [advance p b] feeds one byte: the next parser state and the callbacks, in order. *)
Class VteParser (P : Type) := {
  advance : P → byte → P * list vte_event;
  csi_final p b params inter c :
    CsiDispatch params inter c ∈ snd (advance p b) → 64 ≤ b ≤ 126;
  osc_terminator p b params :
    OscDispatch params ∈ snd (advance p b) → b = BEL ∨ b = CAN ∨ b = SUB ∨ b = ESC;
  osc_once p b : (length (filter (λ ev, is_osc ev = true) (snd (advance p b))) ≤ 1)%nat;
  execute_once p b : (length (filter (λ ev, is_execute ev = true) (snd (advance p b))) ≤ 1)%nat;
  execute_byte p b c : Execute c ∈ snd (advance p b) → c = b ∧ b ≠ ESC;
}.

(** The first occurrence of a byte. *)
Class Memchr := {
  memchr : byte → list byte → option nat;
  memchr_first b s : memchr b s = fst <$> list_find (λ x, x = b) s;
}.

(** ** Data *)

Record Tracker := mkTracker {
  t_seq_start : option nat;
  t_non_ground : bool;
  t_index : nat;
  t_byte : byte;
  t_embedded_c0 : list byte;
  t_removals : list (nat * nat * list byte);
}.

Definition tracker_default : Tracker := mkTracker None false 0 0 [] [].

(** Longest open sequence held across a chunk boundary. *)
Definition MAX_HELD : Z := 64 * 1024.

Definition may_be_query_final (b : byte) : bool :=
  (b =? ch_c) || (b =? ch_n) || (b =? ch_q) || (b =? ch_p) || (b =? ch_t).

Definition tracker_remove (t : Tracker) (start fin : nat) : Tracker :=
  let 'mkTracker ss ng ix b c0 rm := t in mkTracker ss ng ix b [] (rm ++ [(start, fin, c0)]).

Definition tracker_close (t : Tracker) : Tracker :=
  let 'mkTracker _ _ ix b _ rm := t in mkTracker None false ix b [] rm.

Definition tracker_execute (t : Tracker) (byte : byte) : Tracker :=
  let 'mkTracker ss ng ix b c0 rm := t in
  if bool_decide (is_Some ss) && negb (byte =? CAN) && negb (byte =? SUB)
  then mkTracker ss ng ix b (c0 ++ [byte]) rm else t.

Definition tracker_csi_dispatch (t : Tracker) (params : list (list Z)) (inter : list byte) (c : Z) : Tracker :=
  let p0 := default 0 (head params ≫= head) in
  let t := match t_seq_start t with
           | Some start =>
               if (c <=? u8_max) && bool_decide (is_Some (classify_csi (inter !! 0%nat) (inter !! 1%nat) p0 c))
               then tracker_remove t start (t_index t + 1) else t
           | None => t
           end in
  tracker_close t.

Definition tracker_osc_dispatch (t : Tracker) (params : list (list byte)) : Tracker :=
  let t' := match t_seq_start t with
            | Some start =>
                if bool_decide (is_Some (osc_query params)) then
                  let fin := if t_byte t =? BEL then (t_index t + 1)%nat else t_index t in
                  tracker_remove t start fin
                else t
            | None => t
            end in
  if t_byte t =? BEL then tracker_close t' else t'.

Definition tracker_hook (t : Tracker) : Tracker :=
  let 'mkTracker _ ng ix b c0 rm := t in mkTracker None ng ix b c0 rm.

(** [impl vte::Perform for Tracker]. *)
Definition perform (t : Tracker) (ev : vte_event) : Tracker :=
  match ev with
  | Print => tracker_close t
  | Execute b => tracker_execute t b
  | CsiDispatch params inter c => tracker_csi_dispatch t params inter c
  | OscDispatch params => tracker_osc_dispatch t params
  | EscDispatch => tracker_close t
  | Hook => tracker_hook t
  | Unhook => tracker_close t
  end.

(** [buf[a..b]]; [None] when the range is out of bounds. *)
Definition slice {A} (a b : nat) (l : list A) : option (list A) :=
  if bool_decide (a ≤ b ∧ b ≤ length l)%nat then Some (take (b - a) (drop a l)) else None.

(** ** Finding sequences without the tokenizer *)

Section Scan.
Context `{!Memchr} {P : Type} `{!VteParser P}.

Definition SHORT : nat := 24.

Definition find_esc (s : list byte) : option nat :=
  let head := take (min (length s) SHORT) s in
  match fst <$> list_find (λ b, b = ESC) head with
  | Some p => Some p
  | None => if (SHORT <? length s)%nat then (λ p, (p + SHORT)%nat) <$> memchr ESC (drop SHORT s) else None
  end.

Fixpoint take_while_count (f : byte → bool) (s : list byte) : nat :=
  match s with [] => O | b :: s => if f b then S (take_while_count f s) else O end.

Definition complete_other_csi (s : list byte) : option nat :=
  match s with
  | e :: l :: rest =>
      if (length s <? 3)%nat || negb (e =? ESC) || negb (l =? 91) then None
      else
        let params := take_while_count (λ b, (32 <=? b) && (b <=? 63)) rest in
        let! fin := s !! (2 + params)%nat in
        if ((64 <=? fin) && (fin <=? 126)) && negb (may_be_query_final fin) then Some (params + 3)%nat else None
  | _ => None
  end.

(** What the scanner does after the tokenizer has seen byte [b] at [i]; [None] if
    [buf[start + 1]] is out of range. *)
Definition after_byte (t : Tracker) (buf : list byte) (i : nat) (b : byte) : option Tracker :=
  if b =? ESC then
    let 'mkTracker _ _ ix b _ rm := t in Some (mkTracker (Some i) true ix b [] rm)
  else if (b =? CAN) || (b =? SUB) then Some (tracker_close t)
  else if (64 <=? b) && (b <=? 126) then
    match t_seq_start t with
    | Some start =>
        if (start + 1 <? i)%nat then
          let! x := buf !! (start + 1)%nat in
          Some (if x =? 91 then tracker_close t else t)
        else Some t
    | None => Some t
    end
  else Some t.

Definition feed_byte (parser : P) (t : Tracker) (buf : list byte) (i : nat) (b : byte) : option (P * Tracker) :=
  let 'mkTracker ss ng _ _ c0 rm := t in
  let t := mkTracker ss ng i b c0 rm in
  let '(parser, evs) := advance parser b in
  let! t := after_byte (foldl perform t evs) buf i b in
  Some (parser, t).

(** The scanning loop from offset [i]; the fuel is the number of bytes left. *)
Fixpoint scan (fuel : nat) (parser : P) (t : Tracker) (buf : list byte) (i : nat) : option (P * Tracker) :=
  match fuel with
  | O => if (i <? length buf)%nat then None else Some (parser, t)
  | S fuel =>
      if (i <? length buf)%nat then
        let next i := let! b := buf !! i in
                      let! (parser, t) := feed_byte parser t buf i b in
                      scan fuel parser t buf (i + 1) in
        if negb (t_non_ground t) then
          match find_esc (drop i buf) with
          | None => Some (parser, t)
          | Some p =>
              let i := (i + p)%nat in
              match complete_other_csi (drop i buf) with
              | Some len => scan fuel parser t buf (i + len)
              | None => next i
              end
          end
        else next i
      else Some (parser, t)
  end.

(** ** The scanner *)

Record QueryScanner := mkScanner { qs_parser : P; qs_tracker : Tracker; qs_held : list byte }.

Record Scanned := mkScanned { sc_raw : list byte; sc_removed : option (list byte) }.

Definition stripped (s : Scanned) : list byte := default (sc_raw s) (sc_removed s).

Definition peek_held (q : QueryScanner) : list byte := qs_held q.

Definition take_held (q : QueryScanner) : list byte * QueryScanner :=
  let 'mkTracker _ ng ix b c0 rm := qs_tracker q in
  (qs_held q, mkScanner (qs_parser q) (mkTracker None ng ix b c0 rm) []).

(** The loop that drops the removed ranges from [emit], from offset [at_]. *)
Fixpoint splice (emit : list byte) (at_ : nat) (removals : list (nat * nat * list byte)) : option (list byte) :=
  match removals with
  | [] => slice at_ (length emit) emit
  | (start, fin, c0) :: rest =>
      let! pre := slice at_ start emit in
      let! out := splice emit fin rest in
      Some (pre ++ c0 ++ out)
  end.

(** The stripped view; [Some None] when nothing was removed. *)
Definition strip_removed (emit : list byte) (removals : list (nat * nat * list byte)) : option (option (list byte)) :=
  if bool_decide (removals = []) then Some None
  else let! out := splice emit 0 removals in Some (Some out).

(** What is held back after a scan: the tracker and the offset it is held from. *)
Definition hold_back (t : Tracker) (buf : list byte) : option (Tracker * nat) :=
  match t_seq_start t with
  | None => Some (t, length buf)
  | Some s =>
      if (s <=? length buf)%nat then
        let hold_from := if Z.of_nat (length buf - s) <=? MAX_HELD then s else length buf in
        if (hold_from <? length buf)%nat then Some (t, hold_from)
        else let 'mkTracker _ ng ix b _ rm := t in Some (mkTracker None ng ix b [] rm, hold_from)
      else None
  end.

Definition feed (q : QueryScanner) (chunk : list byte) : option (Scanned * QueryScanner) :=
  if bool_decide (qs_held q = []) && negb (t_non_ground (qs_tracker q))
     && bool_decide (memchr ESC chunk = None)
  then Some (mkScanned chunk None, q)
  else
    let held_len := length (qs_held q) in
    let buf := qs_held q ++ chunk in
    let 'mkTracker _ ng ix b c0 _ := qs_tracker q in
    let t := mkTracker (if (0 <? held_len)%nat then Some 0%nat else None) ng ix b c0 [] in
    let! (parser, t) := scan (length buf) (qs_parser q) t buf held_len in
    let! (t, hold_from) := hold_back t buf in
    let emit := take hold_from buf in
    let! removed := strip_removed emit (t_removals t) in
    Some (mkScanned emit removed, mkScanner parser t (drop hold_from buf)).

(** Feeding a stream chunk by chunk. *)
Fixpoint feed_all (q : QueryScanner) (chunks : list (list byte)) : option (list Scanned * QueryScanner) :=
  match chunks with
  | [] => Some ([], q)
  | c :: chunks =>
      let! (s, q) := feed q c in
      let! (ss, q) := feed_all q chunks in
      Some (s :: ss, q)
  end.

End Scan.
Arguments QueryScanner P : clear implicits.

(** ** Lemmas *)

Section Lemmas.
Context `{!Memchr} {P : Type} `{!VteParser P}.

Lemma list_find_app_r_fst {A} (Q : A → Prop) `{∀ x, Decision (Q x)} (l k : list A) :
  list_find Q l = None →
  fst <$> list_find Q (l ++ k) = (λ n, (n + length l)%nat) <$> (fst <$> list_find Q k).
Proof.
  intros Hl. rewrite list_find_app_r by done. destruct (list_find Q k) as [[n x]|]; done.
Qed.

(** [find_esc] finds the first ESC. *)
Lemma find_esc_first s : find_esc s = fst <$> list_find (λ b, b = ESC) s.
Proof.
  unfold find_esc. set (n := min (length s) SHORT).
  assert (Hs : s = take n s ++ drop n s) by (by rewrite take_drop).
  transitivity (fst <$> list_find (λ b, b = ESC) (take n s ++ drop n s)); [clear Hs|by rewrite <- Hs].
  destruct (list_find (λ b, b = ESC) (take n s)) as [[p x]|] eqn:Hf; simpl.
  - apply (list_find_app_l _ _ (drop n s)) in Hf. by rewrite Hf.
  - rewrite list_find_app_r_fst by done. destruct (Nat.ltb_spec SHORT (length s)) as [Hl|Hl].
    + assert (n = SHORT) as -> by (unfold n; lia). rewrite memchr_first, length_take, Nat.min_l by lia. done.
    + rewrite drop_ge by (unfold n; lia). done.
Qed.

Lemma find_esc_lookup s p : find_esc s = Some p → s !! p = Some ESC.
Proof.
  rewrite find_esc_first. destruct (list_find _ s) as [[n x]|] eqn:Hf; simpl; [|done].
  intros [= <-]. apply list_find_Some in Hf as (Hl & -> & _). done.
Qed.

Lemma find_esc_length s p : find_esc s = Some p → (p < length s)%nat.
Proof. intros Hp. apply find_esc_lookup, lookup_lt_Some in Hp. done. Qed.

Lemma take_while_count_spec f s :
  ∃ pre post, s = pre ++ post ∧ length pre = take_while_count f s ∧ Forall (λ b, f b = true) pre.
Proof.
  induction s as [|b s (pre & post & -> & Hl & Hf)]; simpl; [by exists [], []|].
  destruct (f b) eqn:Hb; [|by exists [], (b :: pre ++ post)].
  exists (b :: pre), post. simpl. split; [done|]. split; [by f_equal|by constructor].
Qed.

(** The shape of what [complete_other_csi] skips. *)
Lemma complete_other_csi_shape s n :
  complete_other_csi s = Some n →
  ∃ params fin rest, s = ESC :: 91 :: params ++ fin :: rest ∧ n = (length params + 3)%nat ∧
    Forall (λ b, 32 ≤ b ≤ 63) params ∧ 64 ≤ fin ≤ 126 ∧ may_be_query_final fin = false.
Proof.
  destruct s as [|e [|l rest]]; simpl; [done..|].
  destruct (_ || _ || _) eqn:Hg; [done|]. b2p. subst e l.
  destruct (take_while_count_spec (λ b, (32 <=? b) && (b <=? 63)) rest) as (pre & post & -> & Hl & Hf).
  rewrite <- Hl, lookup_app_r, Nat.sub_diag by lia. destruct post as [|fin post]; simpl; [done|].
  destruct (_ && negb _) eqn:Hfin; [|done]. intros [= <-]. b2p.
  exists pre, fin, post. split; [done|]. split; [done|]. split; [|done].
  eapply Forall_impl; [exact Hf|]. intros b Hb. simpl in Hb. b2p. done.
Qed.

(** Only finals accepted by [may_be_query_final] can be queries. *)
Lemma classify_csi_final i1 i2 p0 fin q :
  classify_csi i1 i2 p0 fin = Some q → may_be_query_final fin = true.
Proof.
  unfold classify_csi, may_be_query_final. intros Hc.
  repeat case_match_eq; try done; b2p; subst; reflexivity.
Qed.

Lemma csi_scan_final inter p0 first s fin i p f :
  Forall (λ b, 32 ≤ b ≤ 63) s → 64 ≤ fin ≤ 126 →
  csi_scan inter p0 first (s ++ [fin]) = Some (i, p, f) → f = fin.
Proof.
  intros Hs Hfin. revert inter p0 first. induction Hs as [|b s Hb _ IH]; intros inter p0 first; simpl.
  - repeat case_match; b2p; try done; try lia; intros Hc; by simplify_eq.
  - repeat case_match; b2p; try lia; try (by apply IH).
Qed.

(** *** Invariant of the scanning loop

    [range buf a b] is the bytes at offsets [a..b). The removals are disjoint, in order
    and end before [hi]; what replaces each is a subsequence of what it removes. *)
Definition range (buf : list byte) (a b : nat) : list byte := take (b - a) (drop a buf).

Fixpoint chain (buf : list byte) (lo : nat) (rm : list (nat * nat * list byte)) (hi : nat) : Prop :=
  match rm with
  | [] => (lo ≤ hi)%nat
  | (s, e, c0) :: rest => (lo ≤ s ≤ e)%nat ∧ sublist c0 (range buf s e) ∧ chain buf e rest hi
  end.

Lemma chain_mono buf lo rm hi hi' : chain buf lo rm hi → (hi ≤ hi')%nat → chain buf lo rm hi'.
Proof.
  revert lo. induction rm as [|[[s e] c0] rm IH]; intros lo; simpl; [lia|].
  intros (? & ? & ?) ?. eauto.
Qed.

Lemma chain_snoc buf lo rm s e c0 hi :
  chain buf lo rm s → (s ≤ e ≤ hi)%nat → sublist c0 (range buf s e) → chain buf lo (rm ++ [(s, e, c0)]) hi.
Proof.
  revert lo. induction rm as [|[[s' e'] c'] rm IH]; intros lo; simpl; [intros; repeat split; try lia; done|].
  intros (? & ? & ?) ? ?. eauto.
Qed.

Lemma range_mono buf a b c : (b ≤ c)%nat → sublist (range buf a b) (range buf a c).
Proof.
  intros Hbc. unfold range.
  replace (take (b - a) (drop a buf)) with (take (b - a) (take (c - a) (drop a buf)))
    by (rewrite take_take; f_equal; lia).
  apply sublist_take.
Qed.

Lemma range_snoc buf a i b : (a ≤ i)%nat → buf !! i = Some b → range buf a (i + 1) = range buf a i ++ [b].
Proof.
  intros Ha Hb. unfold range. replace (i + 1 - a)%nat with (S (i - a)) by lia.
  rewrite (take_S_r _ _ b); [done|]. rewrite lookup_drop. by replace (a + (i - a))%nat with i by lia.
Qed.

(** The tracker at offset [i]: an open sequence starts before [i] and after every
    removal, and its embedded controls are among its bytes. *)
Definition scan_inv (buf : list byte) (i : nat) (t : Tracker) : Prop :=
  match t_seq_start t with
  | Some s => (s < i)%nat ∧ chain buf 0 (t_removals t) s ∧ sublist (t_embedded_c0 t) (range buf s i)
  | None => chain buf 0 (t_removals t) i
  end.

Lemma scan_inv_mono buf i j t : scan_inv buf i t → (i ≤ j)%nat → scan_inv buf j t.
Proof.
  unfold scan_inv. destruct (t_seq_start t) as [s|]; [|eauto using chain_mono].
  intros (? & ? & ?) ?. split; [lia|]. split; [done|]. etrans; [done|]. by apply range_mono.
Qed.

Definition execs (evs : list vte_event) : nat := length (filter (λ ev, is_execute ev = true) evs).
Definition oscs (evs : list vte_event) : nat := length (filter (λ ev, is_osc ev = true) evs).

Lemma execs_cons ev evs : execs (ev :: evs) = ((if is_execute ev then 1 else 0) + execs evs)%nat.
Proof.
  unfold execs. destruct (is_execute ev) eqn:He;
    [rewrite filter_cons_True by done|rewrite filter_cons_False by congruence]; done.
Qed.

Lemma oscs_cons ev evs : oscs (ev :: evs) = ((if is_osc ev then 1 else 0) + oscs evs)%nat.
Proof.
  unfold oscs. destruct (is_osc ev) eqn:He;
    [rewrite filter_cons_True by done|rewrite filter_cons_False by congruence]; done.
Qed.

(** The laws of [VteParser], for the callbacks of one byte. *)
Definition lawful (b : byte) (ev : vte_event) : Prop :=
  match ev with
  | CsiDispatch _ _ _ => 64 ≤ b ≤ 126
  | OscDispatch _ => b = BEL ∨ b = CAN ∨ b = SUB ∨ b = ESC
  | Execute c => c = b ∧ b ≠ ESC
  | _ => True
  end.

Lemma advance_lawful (p : P) b : Forall (lawful b) (snd (advance p b)).
Proof.
  apply Forall_forall. intros [] Hin; simpl; try done.
  - by apply execute_byte in Hin.
  - by apply csi_final in Hin.
  - by apply osc_terminator in Hin.
Qed.

Definition at_byte (i : nat) (b : byte) (t : Tracker) : Prop := t_index t = i ∧ t_byte t = b.

Lemma at_byte_perform i b t ev : at_byte i b t → at_byte i b (perform t ev).
Proof.
  intros [<- <-]. destruct t as [ss ng ix bb c0 rm], ev; unfold at_byte; simpl; try done.
  - by destruct (_ && _ && _).
  - unfold tracker_csi_dispatch; simpl. destruct ss; [|done]. by destruct (_ && _).
  - unfold tracker_osc_dispatch; simpl. destruct ss; [|by destruct (bb =? BEL)].
    destruct (bool_decide _); by destruct (bb =? BEL).
Qed.

(** While the callbacks of a byte other than ESC, CAN and SUB run; [n] of them are
    still to push an embedded control. *)
Definition mid_inv (buf : list byte) (i n : nat) (t : Tracker) : Prop :=
  match t_seq_start t with
  | Some s => (s < i)%nat ∧ chain buf 0 (t_removals t) s ∧ sublist (t_embedded_c0 t) (range buf s (i + 1 - n))
  | None => chain buf 0 (t_removals t) (i + 1)
  end.

Lemma mid_close buf i n m t : mid_inv buf i n t → mid_inv buf i m (tracker_close t).
Proof.
  destruct t as [[s|] ng ix b c0 rm]; unfold mid_inv; simpl; [|done].
  intros (? & ? & _). eapply chain_mono; [done|lia].
Qed.

Lemma mid_remove buf i n m t s :
  mid_inv buf i n t → t_seq_start t = Some s → mid_inv buf i m (tracker_close (tracker_remove t s (i + 1))).
Proof.
  destruct t as [ss ng ix b c0 rm]; unfold mid_inv; simpl. intros Hinv ->. destruct Hinv as (? & ? & Hsub).
  apply chain_snoc; [done|lia|]. etrans; [exact Hsub|]. apply range_mono. lia.
Qed.

Lemma mid_perform buf i b ev evs t :
  buf !! i = Some b → b ≠ CAN → b ≠ SUB → b ≠ ESC → at_byte i b t → lawful b ev →
  (execs (ev :: evs) ≤ 1)%nat →
  mid_inv buf i (execs (ev :: evs)) t → mid_inv buf i (execs evs) (perform t ev).
Proof.
  intros Hb Hcan Hsub Hesc [Hix Hbt] Hlaw He Hinv.
  destruct ev as [|c|params inter c|params| | |]; simpl in Hlaw; cbn [perform]; try by eapply mid_close.
  - destruct Hlaw as [-> _]. rewrite execs_cons in *. simpl in *.
    assert (He0 : execs evs = 0%nat) by lia. rewrite He0 in *. destruct t as [[s|] ng ix bb c0 rm]; unfold mid_inv in *; simpl in *; [|done].
    apply Z.eqb_neq in Hcan, Hsub. rewrite Hcan, Hsub. simpl. destruct Hinv as (? & ? & Hs).
    split; [done|]. split; [done|]. rewrite Nat.sub_0_r. rewrite (range_snoc _ _ _ b) by (done || lia).
    apply sublist_app; [|done]. replace (i + 1 - 1)%nat with i in Hs by lia. done.
  - unfold tracker_csi_dispatch. destruct (t_seq_start t) as [s|] eqn:Hss; [|by eapply mid_close].
    rewrite Hix. destruct (_ && _); [by eapply mid_remove|by eapply mid_close].
  - unfold tracker_osc_dispatch. destruct Hlaw as [Hbel|[?|[?|?]]]; [|done..]. rewrite Hbt, Hbel. simpl.
    destruct (t_seq_start t) as [s|] eqn:Hss; [|by eapply mid_close].
    rewrite Hix. destruct (bool_decide _); [by eapply mid_remove|by eapply mid_close].
  - destruct t as [[s|] ng ix bb c0 rm]; unfold mid_inv in *; simpl in *; [|done].
    destruct Hinv as (? & ? & _). eapply chain_mono; [done|lia].
Qed.

Lemma mid_foldl buf i b evs t :
  buf !! i = Some b → b ≠ CAN → b ≠ SUB → b ≠ ESC → at_byte i b t → Forall (lawful b) evs →
  (execs evs ≤ 1)%nat → mid_inv buf i (execs evs) t → mid_inv buf i 0 (foldl perform t evs).
Proof.
  intros Hb H1 H2 H3 Hat Hlaw. revert t Hat. induction Hlaw as [|ev evs Hev _ IH]; intros t Hat He Hinv; [done|].
  simpl. apply IH; [by apply at_byte_perform| |by eapply mid_perform].
  rewrite execs_cons in He. lia.
Qed.

(** While the callbacks of ESC, CAN or SUB run: before the OSC callback, if any, the
    invariant holds; after it the removals still end by [i]. *)
Definition end_inv (buf : list byte) (i n : nat) (t : Tracker) : Prop :=
  chain buf 0 (t_removals t) i ∧ ((n = 0)%nat ∨ scan_inv buf i t).

Lemma scan_inv_chain buf i t : scan_inv buf i t → chain buf 0 (t_removals t) i.
Proof.
  unfold scan_inv. destruct (t_seq_start t); [|done]. intros (? & ? & _). eapply chain_mono; [done|lia].
Qed.

Lemma scan_inv_close buf i t : scan_inv buf i t → scan_inv buf i (tracker_close t).
Proof. intros Hinv. apply scan_inv_chain in Hinv. by destruct t. Qed.

Lemma end_perform buf i b ev evs t :
  b = CAN ∨ b = SUB ∨ b = ESC → at_byte i b t → lawful b ev → (oscs (ev :: evs) ≤ 1)%nat →
  end_inv buf i (oscs (ev :: evs)) t → end_inv buf i (oscs evs) (perform t ev).
Proof.
  intros Hb [Hix Hbt] Hlaw Ho [Hc Hinv]. rewrite oscs_cons in *.
  destruct ev as [|c|params inter c|params| | |]; simpl in *; try (split; [by destruct t|]; destruct Hinv;
    [by left|right; by apply scan_inv_close]).
  - unfold tracker_execute. destruct t as [ss ng ix bb c0 rm]. destruct Hlaw as [-> Hesc].
    assert ((b =? CAN) || (b =? SUB) = true) as Hcs by (destruct Hb as [->|[->|?]]; done).
    apply orb_true_iff in Hcs as [->| ->]; rewrite ?andb_false_r; done.
  - exfalso. destruct Hb as [->|[->| ->]]; unfold CAN, SUB, ESC in *; lia.
  - assert (He0 : oscs evs = 0%nat) by lia. rewrite He0 in *. destruct Hinv as [?|Hinv]; [lia|].
    assert (Hbel : b =? BEL = false) by (destruct Hb as [->|[->| ->]]; done).
    unfold tracker_osc_dispatch. rewrite Hbt, Hbel, Hix. destruct (t_seq_start t) as [s|] eqn:Hss; [|split; [done|by left]].
    destruct (bool_decide _); (split; [|by left]); [|done]. unfold scan_inv in Hinv. rewrite Hss in Hinv.
    destruct Hinv as (? & ? & ?). destruct t; simpl in *. apply chain_snoc; [done|lia|done].
  - split; [by destruct t|]. destruct Hinv as [?|Hinv]; [by left|right]. apply scan_inv_chain in Hinv. by destruct t.
Qed.

Lemma end_foldl buf i b evs t :
  b = CAN ∨ b = SUB ∨ b = ESC → at_byte i b t → Forall (lawful b) evs → (oscs evs ≤ 1)%nat →
  end_inv buf i (oscs evs) t → chain buf 0 (t_removals (foldl perform t evs)) i.
Proof.
  intros Hb Hat Hlaw. revert t Hat. induction Hlaw as [|ev evs Hev _ IH]; intros t Hat Ho Hinv; [apply Hinv|].
  simpl. apply IH; [by apply at_byte_perform| |by eapply end_perform].
  rewrite oscs_cons in Ho. lia.
Qed.

Lemma after_byte_plain buf i b t :
  b ≠ CAN → b ≠ SUB → b ≠ ESC → buf !! i = Some b → mid_inv buf i 0 t →
  ∃ t', after_byte t buf i b = Some t' ∧ scan_inv buf (i + 1) t'.
Proof.
  intros H1 H2 H3 Hb Hinv. unfold after_byte. apply Z.eqb_neq in H1, H2, H3. rewrite H1, H2, H3. simpl.
  assert (Hkeep : scan_inv buf (i + 1) t).
  { unfold mid_inv, scan_inv in *. rewrite Nat.sub_0_r in Hinv. destruct (t_seq_start t); [|done].
    destruct Hinv as (? & ? & ?). split; [lia|done]. }
  destruct (_ && _); [|eauto]. destruct (t_seq_start t) as [s|] eqn:Hss; [|eauto].
  destruct (Nat.ltb_spec (s + 1) i) as [Hlt|]; [|eauto].
  apply lookup_lt_Some in Hb. destruct (lookup_lt_is_Some_2 buf (s + 1)) as [x ->]; [lia|].
  eexists. split; [done|]. destruct (x =? 91); [by apply scan_inv_close|done].
Qed.

Lemma feed_byte_ok (p : P) t buf i b :
  buf !! i = Some b → scan_inv buf i t →
  ∃ p' t', feed_byte p t buf i b = Some (p', t') ∧ scan_inv buf (i + 1) t'.
Proof.
  intros Hb Hinv. destruct t as [ss ng ix bb c0 rm]. unfold feed_byte.
  pose proof (advance_lawful p b) as Hlaw. pose proof (osc_once p b) as Ho. pose proof (execute_once p b) as He.
  fold (oscs (snd (advance p b))) in Ho. fold (execs (snd (advance p b))) in He.
  destruct (advance p b) as [p' evs]. simpl in *. set (t := mkTracker ss ng i b c0 rm).
  assert (Hat : at_byte i b t) by done. change (scan_inv buf i t) in Hinv.
  destruct (decide (b = CAN ∨ b = SUB ∨ b = ESC)) as [Hend|Hplain].
  - assert (Hc : chain buf 0 (t_removals (foldl perform t evs)) i).
    { eapply end_foldl; try done. split; [by apply scan_inv_chain|by right]. }
    unfold after_byte. destruct (foldl perform t evs) as [ss' ng' ix' b' c0' rm']. simpl in Hc.
    destruct (b =? ESC) eqn:Hesc; [|destruct ((b =? CAN) || (b =? SUB)) eqn:Hcs].
    + eexists _, _. split; [done|]. unfold scan_inv. simpl. split; [lia|]. split; [done|apply sublist_nil_l].
    + eexists _, _. split; [done|]. unfold scan_inv. simpl. eapply chain_mono; [done|lia].
    + exfalso. b2p. destruct Hend as [->|[->| ->]]; done.
  - destruct (after_byte_plain buf i b (foldl perform t evs)) as (t' & -> & Hinv'); try tauto.
    + eapply mid_foldl; try done; try tauto. unfold mid_inv, scan_inv in *.
      destruct (t_seq_start t); [|eapply chain_mono; [done|lia]].
      destruct Hinv as (? & ? & Hs). split; [done|]. split; [done|]. etrans; [exact Hs|]. apply range_mono. lia.
    + eauto.
Qed.

Lemma scan_ok fuel (p : P) t buf i :
  (length buf - i ≤ fuel)%nat → (i ≤ length buf)%nat → scan_inv buf i t →
  ∃ p' t', scan fuel p t buf i = Some (p', t') ∧ scan_inv buf (length buf) t'.
Proof.
  revert p t i. induction fuel as [|fuel IH]; intros p t i Hf Hi Hinv; simpl;
    destruct (Nat.ltb_spec i (length buf)) as [Hlt|Hge]; try lia.
  1, 3: eexists _, _; (split; [done|]); by eapply scan_inv_mono.
  assert (Hnext : ∀ j, (i ≤ j < length buf)%nat → ∃ p' t',
    (let! b := buf !! j in let! (parser, t) := feed_byte p t buf j b in scan fuel parser t buf (j + 1)) = Some (p', t')
    ∧ scan_inv buf (length buf) t').
  { intros j Hj. destruct (lookup_lt_is_Some_2 buf j) as [b Hb]; [lia|]. rewrite Hb.
    destruct (feed_byte_ok p t buf j b Hb) as (p1 & t1 & -> & Hinv1); [eapply scan_inv_mono; [done|lia]|].
    apply IH; [lia..|done]. }
  destruct (negb (t_non_ground t)); [|apply Hnext; lia].
  destruct (find_esc (drop i buf)) as [k|] eqn:Hk.
  2: { eexists _, _. split; [done|]. eapply scan_inv_mono; [done|lia]. }
  apply find_esc_length in Hk. rewrite length_drop in Hk.
  destruct (complete_other_csi (drop (i + k) buf)) as [n|] eqn:Hn; [|apply Hnext; lia].
  apply complete_other_csi_shape in Hn as (params & fin & rest & Hs & -> & _).
  apply (f_equal length) in Hs. rewrite length_drop in Hs. simpl in Hs. rewrite length_app in Hs. simpl in Hs.
  apply IH; [lia..|]. eapply scan_inv_mono; [done|lia].
Qed.

Lemma chain_le buf lo rm hi : chain buf lo rm hi → (lo ≤ hi)%nat.
Proof.
  revert lo. induction rm as [|[[s e] c0] rm IH]; intros lo; simpl; [done|].
  intros (? & _ & Hc). apply IH in Hc. lia.
Qed.

Lemma range_take buf s e hi : (e ≤ hi)%nat → range (take hi buf) s e = range buf s e.
Proof. intros. unfold range. rewrite skipn_firstn_comm, take_take. f_equal. lia. Qed.

Lemma splice_ok buf lo rm hi :
  (hi ≤ length buf)%nat → chain buf lo rm hi →
  ∃ out, splice (take hi buf) lo rm = Some out ∧ sublist out (drop lo (take hi buf)).
Proof.
  intros Hhi. assert (Hlen : length (take hi buf) = hi) by (rewrite length_take; lia).
  revert lo. induction rm as [|[[s e] c0] rm IH]; intros lo; simpl.
  - intros Hlo. unfold slice. rewrite bool_decide_true by lia. eexists. split; [done|].
    rewrite take_ge by (rewrite length_drop; lia). done.
  - intros (Hs & Hsub & Hc). pose proof (chain_le _ _ _ _ Hc).
    destruct (IH e Hc) as (out & -> & Hout). unfold slice. rewrite bool_decide_true by lia.
    eexists. split; [done|].
    assert (Hsplit : drop lo (take hi buf) = take (s - lo) (drop lo (take hi buf)) ++ range buf s e ++ drop e (take hi buf)).
    { rewrite <- (range_take buf s e hi) by lia. unfold range.
      rewrite <- (take_drop (s - lo) (drop lo (take hi buf))) at 1. f_equal.
      rewrite drop_drop. replace (lo + (s - lo))%nat with s by lia.
      rewrite <- (take_drop (e - s) (drop s (take hi buf))) at 1. f_equal.
      rewrite drop_drop. f_equal. lia. }
    rewrite Hsplit at 2. apply sublist_app; [done|]. by apply sublist_app.
Qed.

(** The scanner between chunks. *)
Definition scanner_inv (q : QueryScanner P) : Prop :=
  Z.of_nat (length (qs_held q)) ≤ MAX_HELD ∧
  (qs_held q ≠ [] → sublist (t_embedded_c0 (qs_tracker q)) (qs_held q)).

Lemma hold_back_ok buf t :
  scan_inv buf (length buf) t →
  ∃ t' h, hold_back t buf = Some (t', h) ∧ t_removals t' = t_removals t ∧ (h ≤ length buf)%nat ∧
    chain buf 0 (t_removals t) h ∧ Z.of_nat (length (drop h buf)) ≤ MAX_HELD ∧
    (drop h buf ≠ [] → sublist (t_embedded_c0 t') (drop h buf)).
Proof.
  intros Hinv. pose proof (scan_inv_chain _ _ _ Hinv) as Hc. unfold hold_back, scan_inv in *.
  destruct (t_seq_start t) as [s|].
  - destruct Hinv as (Hs & Hcs & Hsub). rewrite (proj2 (Nat.leb_le _ _)) by lia.
    destruct (Z.leb_spec (Z.of_nat (length buf - s)) MAX_HELD).
    + rewrite (proj2 (Nat.ltb_lt _ _)) by done. exists t, s. repeat split; try done; [lia|rewrite length_drop; lia|].
      intros _. unfold range in Hsub. by rewrite take_ge in Hsub by (rewrite length_drop; lia).
    + rewrite Nat.ltb_irrefl. destruct t. eexists _, _. rewrite drop_all. repeat split; done.
  - exists t, (length buf). rewrite drop_all. repeat split; done.
Qed.

Lemma feed_ok (q : QueryScanner P) chunk :
  scanner_inv q →
  ∃ sc q', feed q chunk = Some (sc, q') ∧ scanner_inv q' ∧
    sc_raw sc ++ qs_held q' = qs_held q ++ chunk ∧ sublist (stripped sc) (sc_raw sc).
Proof.
  intros [Hmax Hemb]. unfold feed. destruct (_ && _ && _) eqn:Hfast.
  { eexists _, _. split; [done|]. rewrite !andb_true_iff in Hfast.
    destruct Hfast as [[Hheld%bool_decide_eq_true _] _]. simpl. rewrite Hheld, app_nil_r.
    unfold scanner_inv. rewrite Hheld. done. }
  clear Hfast. destruct q as [p [ss ng ix b c0 rm] held]. simpl in *.
  set (t := mkTracker _ ng ix b c0 []).
  assert (Hinit : scan_inv (held ++ chunk) (length held) t).
  { unfold scan_inv, t. simpl. destruct (Nat.ltb_spec 0 (length held)); simpl; [|lia].
    split; [done|]. split; [lia|]. unfold range. rewrite Nat.sub_0_r, drop_0, take_app_length.
    apply Hemb. intros ->. simpl in *. lia. }
  destruct (scan_ok (length (held ++ chunk)) p t (held ++ chunk) (length held)) as (p1 & t1 & -> & Hinv1);
    [lia|rewrite length_app; lia|done|].
  destruct (hold_back_ok _ _ Hinv1) as (t2 & h & -> & Hrm & Hh & Hc & Hm & He). rewrite Hrm. cbv zeta.
  destruct (splice_ok _ _ _ _ Hh Hc) as (out & Hout & Hsub). rewrite drop_0 in Hsub.
  unfold strip_removed. rewrite Hout. destruct (bool_decide _).
  all: eexists _, _; split; [done|]; split; [by split|]; split; [apply take_drop|done].
Qed.

End Lemmas.

(** ** Properties *)

Section Properties.
Context `{!Memchr} {P : Type} `{!VteParser P}.

(** A scanner at the start of a stream. *)
Definition fresh_scanner (p : P) : QueryScanner P := mkScanner p tracker_default [].

Lemma feed_all_ok (q : QueryScanner P) chunks :
  scanner_inv q →
  ∃ ss q', feed_all q chunks = Some (ss, q') ∧ scanner_inv q' ∧
    concat (sc_raw <$> ss) ++ qs_held q' = qs_held q ++ concat chunks ∧
    Forall (λ s, sublist (stripped s) (sc_raw s)) ss.
Proof.
  revert q. induction chunks as [|c chunks IH]; intros q Hq; simpl.
  { exists [], q. by rewrite app_nil_r. }
  destruct (feed_ok q c Hq) as (s & q1 & -> & Hq1 & Hraw & Hs).
  destruct (IH q1 Hq1) as (ss & q2 & -> & Hq2 & Hraw2 & Hss).
  exists (s :: ss), q2. split; [done|]. split; [done|]. split; [|by constructor].
  change (concat (sc_raw <$> s :: ss)) with (sc_raw s ++ concat (sc_raw <$> ss)).
  rewrite <- app_assoc, Hraw2, (app_assoc (sc_raw s)), Hraw, <- app_assoc. done.
Qed.

(** C39. The scanner is safe and lossless on every stream, however it is cut into chunks
    and whatever the tokenizer reports: it never panics (no slice out of range), the raw
    views followed by the bytes still held are exactly the stream, the bytes held never
    exceed [MAX_HELD], and every stripped view is its raw view with bytes left out, in
    order. *)
Theorem scanner_lossless (p : P) chunks :
  ∃ ss q, feed_all (fresh_scanner p) chunks = Some (ss, q) ∧
    concat (sc_raw <$> ss) ++ qs_held q = concat chunks ∧
    concat (sc_raw <$> ss) ++ fst (take_held q) = concat chunks ∧
    Z.of_nat (length (peek_held q)) ≤ MAX_HELD ∧
    Forall (λ s, sublist (stripped s) (sc_raw s)) ss.
Proof.
  destruct (feed_all_ok (fresh_scanner p) chunks) as (ss & q & Hf & [Hm _] & Hraw & Hs); [done|].
  exists ss, q. destruct q as [p' [] held]. done.
Qed.

(** Skipping is sound: the text skipped without the tokenizer ends at the first ESC,
    and a sequence skipped as "other CSI" is one complete CSI whose final byte no query
    has, so it is never a query whatever its parameters. *)
Theorem skipped_sequences_are_no_queries s :
  find_esc s = fst <$> list_find (λ b, b = ESC) s ∧
  (∀ n, complete_other_csi s = Some n →
     (3 ≤ n ≤ length s)%nat ∧ is_csi_query (take n s) = false ∧
     ∃ fin, s !! (n - 1)%nat = Some fin ∧ 64 ≤ fin ≤ 126 ∧ ∀ i1 i2 p0, classify_csi i1 i2 p0 fin = None).
Proof.
  split; [apply find_esc_first|]. intros n Hn.
  apply complete_other_csi_shape in Hn as (params & fin & rest & -> & -> & Hp & Hf & Hq).
  assert (Hno : ∀ i1 i2 p0, classify_csi i1 i2 p0 fin = None).
  { intros i1 i2 p0. destruct (classify_csi i1 i2 p0 fin) eqn:Hc; [|done].
    apply classify_csi_final in Hc. congruence. }
  split; [simpl; rewrite length_app; simpl; lia|]. split.
  - replace (length params + 3)%nat with (2 + (length params + 1))%nat by lia. cbn [take Nat.add].
    replace (params ++ fin :: rest) with ((params ++ [fin]) ++ rest) by (by rewrite <- app_assoc).
    replace (length params + 1)%nat with (length (params ++ [fin])) by (rewrite length_app; simpl; lia).
    rewrite take_app_length. unfold is_csi_query. rewrite csi_parts_cons.
    destruct (csi_scan [] 0 true (params ++ [fin])) as [[[i p] f]|] eqn:Hs; [|done].
    apply csi_scan_final in Hs as ->; [|done..]. by rewrite Hno.
  - exists fin. split; [|done]. apply (list_lookup_middle (ESC :: 91 :: params)). simpl. lia.
Qed.

End Properties.

(** ** Witnesses *)

#[export] Instance memchr_impl : Memchr := {
  memchr b s := fst <$> list_find (λ x, x = b) s;
  memchr_first b s := eq_refl;
}.

(** A small tokenizer for CSI and OSC sequences that satisfies the laws. *)
Inductive mini_state := MGround | MEsc | MCsi (inter : list byte) (p0 : Z) | MOsc (body : list byte).

Definition mini_advance (s : mini_state) (b : byte) : mini_state * list vte_event :=
  let ended := match s with MOsc body => [OscDispatch (split_semi [] body)] | _ => [] end in
  if b =? ESC then (MEsc, ended)
  else if (b =? CAN) || (b =? SUB) then (MGround, ended ++ [Execute b])
  else match s with
       | MGround => (MGround, if b <? 32 then [Execute b] else [Print])
       | MEsc => if b =? 91 then (MCsi [] 0, []) else if b =? 93 then (MOsc [], []) else (MGround, [EscDispatch])
       | MCsi inter p0 =>
           if b <? 32 then (s, [Execute b])
           else if (48 <=? b) && (b <=? 57) then (MCsi inter (p0 * 10 + (b - 48)), [])
           else if (64 <=? b) && (b <=? 126) then (MGround, [CsiDispatch [[p0]] inter b])
           else (MCsi (inter ++ [b]) p0, [])
       | MOsc body => if b =? BEL then (MGround, ended) else (MOsc (body ++ [b]), [])
       end.

Lemma mini_cases s b :
  snd (mini_advance s b) = [] ∨ (∃ ev, snd (mini_advance s b) = [ev] ∧ lawful b ev) ∨
  (∃ params, snd (mini_advance s b) = [OscDispatch params; Execute b] ∧ (b = CAN ∨ b = SUB)).
Proof.
  unfold mini_advance. destruct s as [| |inter p0|body]; simpl; repeat case_match; b2p; subst; simpl; try (by left);
    try (right; left; eexists; split; [reflexivity|]; simpl; unfold lawful, BEL, CAN, SUB, ESC in *; tauto || lia);
    (match goal with H : (_ || _) = true |- _ => apply orb_true_iff in H as [H|H]; b2p end);
    try (right; left; eexists; split; [reflexivity|]; simpl; unfold CAN, SUB, ESC in *; lia);
    right; right; eexists; (split; [reflexivity|tauto]).
Qed.

#[export] Program Instance mini_vte : VteParser mini_state := { advance := mini_advance }.
Next Obligation.
  intros p b params inter c Hin. destruct (mini_cases p b) as [E|[(ev & E & Hl)|(ps & E & _)]];
    rewrite E in Hin; set_unfold; [done|by destruct Hin as [<-|[]]|naive_solver].
Qed.
Next Obligation.
  intros p b params Hin. destruct (mini_cases p b) as [E|[(ev & E & Hl)|(ps & E & Hb)]];
    rewrite E in Hin; set_unfold; [done|by destruct Hin as [<-|[]]|tauto].
Qed.
Next Obligation.
  intros p b. destruct (mini_cases p b) as [E|[(ev & E & Hl)|(ps & E & _)]]; rewrite E; [simpl; lia| |simpl; lia].
  rewrite length_filter. simpl. lia.
Qed.
Next Obligation.
  intros p b. destruct (mini_cases p b) as [E|[(ev & E & Hl)|(ps & E & _)]]; rewrite E; [simpl; lia| |simpl; lia].
  rewrite length_filter. simpl. lia.
Qed.
Next Obligation.
  intros p b c Hin. destruct (mini_cases p b) as [E|[(ev & E & Hl)|(ps & E & Hb)]];
    rewrite E in Hin; set_unfold; [done|by destruct Hin as [<-|[]]|].
  destruct Hin as [?|[[= ->]|?]]; try done. split; [done|]. by destruct Hb as [->| ->].
Qed.

(** A cursor query split across two chunks, with text around it: the first chunk holds
    the open sequence back, the second removes it from the stripped view only. *)
Lemma scanner_lossless_witness :
  ∃ ss q, feed_all (fresh_scanner MGround) [ascii "ab" ++ [ESC; 91]; ascii "6nc"] = Some (ss, q) ∧
    sc_raw <$> ss = [ascii "ab"; [ESC; 91] ++ ascii "6nc"] ∧ stripped <$> ss = [ascii "ab"; ascii "c"] ∧
    Forall (λ s, sublist (stripped s) (sc_raw s)) ss.
Proof.
  destruct (scanner_lossless MGround [ascii "ab" ++ [ESC; 91]; ascii "6nc"]) as (ss & q & Hf & _ & _ & _ & Hs).
  exists ss, q. split; [done|]. revert Hf. vm_compute. intros [= <- <-]. split; [done|]. split; [done|]. exact Hs.
Defined.

Lemma skipped_sequences_are_no_queries_witness :
  complete_other_csi (ESC :: ascii "[31mx") = Some 5%nat ∧ is_csi_query (ESC :: ascii "[31m") = false.
Proof.
  split; [reflexivity|].
  refine (proj1 (proj2 (proj2 (skipped_sequences_are_no_queries (ESC :: ascii "[31mx")) 5%nat _))). reflexivity.
Defined.
