(* ===== verification/Clients.v ===== *)
(** * Registry of answering clients ([crates/tymux-core/src/terminal_query/clients.rs])

    A client's [Arc<Slot>] lives in [slots_alive] until its [LiveClient] is dropped; the
    registry keeps weak references, in registration order. *)

From S2P Require Import Prelude.

Abbreviation slot_id := positive (only parsing).

Record Slot := mkSlot { live_from : Z; answering : bool }.

(** [registered] is the vector of weak references; a reference upgrades exactly when its
    slot is in [slots_alive]. [next_slot] names the next allocation. *)
Record ClientRegistry := mkRegistry {
  registered : list slot_id;
  slots_alive : gmap slot_id Slot;
  next_slot : slot_id;
}.

Definition registry_default : ClientRegistry := mkRegistry [] ∅ 1%positive.

Definition register (r : ClientRegistry) : slot_id * ClientRegistry :=
  let slot := next_slot r in
  let kept := filter (λ w, is_Some (slots_alive r !! w)) (registered r) in
  (slot, mkRegistry (kept ++ [slot]) (<[slot := mkSlot u64_max true]> (slots_alive r)) (Pos.succ slot)).

Definition go_live_after (r : ClientRegistry) (c : slot_id) (seq : Z) : ClientRegistry :=
  mkRegistry (registered r) (alter (λ s, mkSlot seq (answering s)) c (slots_alive r)) (next_slot r).

Definition set_lagged (r : ClientRegistry) (c : slot_id) (lagged : bool) : ClientRegistry :=
  mkRegistry (registered r) (alter (λ s, mkSlot (live_from s) (negb lagged)) c (slots_alive r)) (next_slot r).

(** Dropping the client's handle frees its slot; the weak reference stays. *)
Definition drop_client (r : ClientRegistry) (c : slot_id) : ClientRegistry :=
  mkRegistry (registered r) (delete c (slots_alive r)) (next_slot r).

Definition has_answerer (r : ClientRegistry) (seq : Z) : bool :=
  existsb (λ w, match slots_alive r !! w with
                | Some s => answering s && (live_from s <? seq)
                | None => false
                end) (registered r).

(** ** Histories *)

Inductive client_op :=
| OpRegister
| OpLive (c : slot_id) (seq : Z)
| OpLagged (c : slot_id) (lagged : bool)
| OpDrop (c : slot_id).

Definition apply_op (r : ClientRegistry) (op : client_op) : ClientRegistry :=
  match op with
  | OpRegister => snd (register r)
  | OpLive c seq => go_live_after r c seq
  | OpLagged c lagged => set_lagged r c lagged
  | OpDrop c => drop_client r c
  end.

(** What one client [c] has been told by a history, by its own operations alone; [None]
    once its handle is gone (or before it is registered). *)
Definition client_view (n : slot_id) (c : slot_id) (v : option Slot) (op : client_op) : option Slot :=
  match op with
  | OpRegister => if bool_decide (c = n) then Some (mkSlot u64_max true) else v
  | OpLive c' seq => if bool_decide (c = c') then (λ s, mkSlot seq (answering s)) <$> v else v
  | OpLagged c' lagged => if bool_decide (c = c') then (λ s, mkSlot (live_from s) (negb lagged)) <$> v else v
  | OpDrop c' => if bool_decide (c = c') then None else v
  end.

Fixpoint view_after (n : slot_id) (c : slot_id) (v : option Slot) (ops : list client_op) : option Slot :=
  match ops with
  | [] => v
  | op :: ops =>
      view_after (match op with OpRegister => Pos.succ n | _ => n end) c (client_view n c v op) ops
  end.

(** ** Lemmas *)

Record registry_inv (r : ClientRegistry) : Prop := {
  ri_known : ∀ c, is_Some (slots_alive r !! c) → c ∈ registered r;
  ri_fresh : ∀ c, c ∈ registered r → (c < next_slot r)%positive;
}.

Lemma registry_inv_alive_fresh r c : registry_inv r → is_Some (slots_alive r !! c) → (c < next_slot r)%positive.
Proof. intros [Hk Hf] Hc. by apply Hf, Hk. Qed.

Lemma apply_op_inv r op : registry_inv r → registry_inv (apply_op r op).
Proof.
  intros Hinv. destruct op as [|c seq|c lagged|c]; simpl.
  - split; simpl.
    + intros c Hc. apply elem_of_app. destruct (decide (c = next_slot r)) as [->|Hne]; [right; set_solver|].
      rewrite lookup_insert_ne in Hc by done. left. apply list_elem_of_filter. split; [done|by apply Hinv].
    + intros c. rewrite elem_of_app, list_elem_of_filter, list_elem_of_singleton.
      intros [[_ Hc]| ->]; [apply Hinv in Hc|]; lia.
  - split; simpl; [|apply Hinv]. intros c'. rewrite lookup_alter_is_Some. apply Hinv.
  - split; simpl; [|apply Hinv]. intros c'. rewrite lookup_alter_is_Some. apply Hinv.
  - split; simpl; [|apply Hinv]. intros c'. rewrite lookup_delete_is_Some. intros [_ ?]. by apply Hinv.
Qed.

Lemma apply_op_next r op :
  next_slot (apply_op r op) = match op with OpRegister => Pos.succ (next_slot r) | _ => next_slot r end.
Proof. by destruct op. Qed.

Lemma apply_op_view r op c :
  slots_alive (apply_op r op) !! c = client_view (next_slot r) c (slots_alive r !! c) op.
Proof.
  destruct op as [|c' seq|c' lagged|c']; simpl; case_bool_decide; subst;
    by rewrite ?lookup_insert_eq, ?lookup_insert_ne, ?lookup_alter_eq, ?lookup_alter_ne,
      ?lookup_delete_eq, ?lookup_delete_ne.
Qed.

Lemma history_view ops r c :
  slots_alive (foldl apply_op r ops) !! c = view_after (next_slot r) c (slots_alive r !! c) ops.
Proof.
  revert r. induction ops as [|op ops IH]; intros r; simpl; [done|].
  by rewrite IH, apply_op_next, apply_op_view.
Qed.

Lemma history_inv ops r : registry_inv r → registry_inv (foldl apply_op r ops).
Proof. revert r. induction ops as [|op ops IH]; intros r Hr; simpl; [done|]. by apply IH, apply_op_inv. Qed.

Lemma has_answerer_spec r seq :
  registry_inv r →
  has_answerer r seq = true ↔
  ∃ c s, slots_alive r !! c = Some s ∧ answering s = true ∧ live_from s < seq.
Proof.
  intros Hinv. unfold has_answerer. rewrite existsb_exists. split.
  - intros (c & _ & Hc). destruct (slots_alive r !! c) as [s|] eqn:Hs; [|done]. b2p. eauto.
  - intros (c & s & Hs & Ha & Hl). exists c. rewrite Hs, Ha. split; [|by apply Z.ltb_lt].
    apply list_elem_of_In, Hinv. by rewrite Hs.
Qed.

(** ** Properties *)

(** Who answers is exactly what the clients said: after any interleaving of
    registrations, updates and drops, a chunk has an answerer if and only if some client
    that is still attached and not lagged went live before it. In particular a client
    whose attach is unfinished never counts, and one client's updates, and stale
    references to dropped clients, never change another's. *)
Theorem has_answerer_exact ops seq :
  has_answerer (foldl apply_op registry_default ops) seq = true ↔
  ∃ c s, view_after 1 c None ops = Some s ∧ answering s = true ∧ live_from s < seq.
Proof.
  rewrite has_answerer_spec.
  - assert (Hv : ∀ c, slots_alive (foldl apply_op registry_default ops) !! c = view_after 1 c None ops).
    { intros c. rewrite history_view. simpl. by rewrite lookup_empty. }
    split; intros (c & s & Hs & H); exists c, s; (split; [|done]); [by rewrite <- Hv|by rewrite Hv].
  - apply history_inv. split; simpl; [|set_solver]. intros c [s Hs]. by rewrite lookup_empty in Hs.
Qed.

(** The registry does not accumulate dead clients: right after a registration every
    reference it keeps is to an attached client, the new client is among them, and it is
    not yet the answerer of any chunk. *)
Theorem register_prunes ops seq :
  let r := foldl apply_op registry_default ops in
  let '(c, r') := register r in
  Forall (λ w, is_Some (slots_alive r' !! w)) (registered r') ∧ c ∈ registered r' ∧
  (seq ≤ u64_max → has_answerer r' seq = has_answerer r seq).
Proof.
  set (r := foldl apply_op registry_default ops). simpl.
  assert (Hinv : registry_inv r).
  { apply history_inv. split; simpl; [|set_solver]. intros c [s Hs]. by rewrite lookup_empty in Hs. }
  split; [|split].
  - apply Forall_app. split; [|repeat constructor; by rewrite lookup_insert_eq].
    apply Forall_forall. intros w Hw. apply list_elem_of_filter in Hw as [Hw _].
    apply lookup_insert_is_Some. destruct (decide (next_slot r = w)); eauto.
  - set_solver.
  - intros Hseq. apply eq_bool_prop_intro. rewrite !Is_true_true.
    rewrite (has_answerer_spec (snd (register r))) by (by apply (apply_op_inv r OpRegister)).
    rewrite has_answerer_spec by done. simpl. split; intros (c & s & Hs & Ha & Hl); exists c, s.
    + destruct (decide (next_slot r = c)) as [<-|Hne].
      * rewrite lookup_insert_eq in Hs. injection Hs as <-. simpl in Hl. lia.
      * by rewrite lookup_insert_ne in Hs.
    + rewrite lookup_insert_ne; [done|]. intros <-.
      pose proof (registry_inv_alive_fresh r (next_slot r) Hinv ltac:(eauto)). lia.
Qed.

(** ** Witnesses *)

(** Two clients: the first live after seq 5 and then lagged, the second live after 9. *)
Lemma has_answerer_exact_witness :
  let ops := [OpRegister; OpLive 1 5; OpRegister; OpLagged 1 true; OpLive 2 9] in
  has_answerer (foldl apply_op registry_default ops) 9 = false ∧
  has_answerer (foldl apply_op registry_default ops) 10 = true.
Proof.
  split; [reflexivity|].
  apply (proj2 (has_answerer_exact [OpRegister; OpLive 1 5; OpRegister; OpLagged 1 true; OpLive 2 9] 10)).
  exists 2%positive, (mkSlot 9 true). done.
Defined.

Lemma register_prunes_witness :
  let r := foldl apply_op registry_default [OpRegister; OpRegister; OpDrop 1%positive] in
  registered (snd (register r)) = [2%positive; 3%positive] ∧
  has_answerer (snd (register r)) 7 = has_answerer r 7.
Proof.
  split; [reflexivity|].
  refine (proj2 (proj2 (register_prunes [OpRegister; OpRegister; OpDrop 1%positive] 7)) _). unfold u64_max. lia.
Defined.
