(* ===== verification/Outbox.v ===== *)
(** * The reply outbox ([crates/tymux-core/src/terminal_query/outbox.rs])

    A bounded queue of replies with a token-bucket rate limit, drained by a writer thread
    that is started lazily, once per writer generation. Each critical section under the
    state lock is one definition; [os_step] interleaves them. Time is in nanoseconds. *)

From S2P Require Import Prelude Float.

Definition f64_div : spec_float → spec_float → spec_float := SFdiv 53 1024.

(** [Duration::as_secs_f64]. *)
Definition as_secs_f64 (nanos : Z) : spec_float :=
  f64_add (f64_of_Z (nanos / 1000000000)) (f64_div (f64_of_Z (nanos mod 1000000000)) (f64_of_Z 1000000000)).

Definition RATE_BURST : spec_float := f64_of_Z 16.
Definition RATE_REFILL_PER_SEC : spec_float := f64_of_Z 8.
Definition MAX_PENDING : nat := 32.

Definition reply : Type := list byte.

Section Outbox.
Context {W : Type}.

Record State := mkState {
  st_queue : list reply;
  st_tokens : spec_float;
  st_last : Z;
  st_closed : bool;
  st_writer : option W;
  st_generation : Z;
  st_accepted : Z;
}.

Definition outbox_new (writer : W) (now : Z) : State := mkState [] RATE_BURST now false (Some writer) 0 0.

(** What [offer] does while it holds the lock: the new state, and the writer (with its
    generation) for which a drain thread must now be started. *)
Definition offer (st : State) (r : reply) (now : Z) : State * option (W * Z) :=
  let 'mkState queue tokens last closed writer gen accepted := st in
  if closed || bool_decide (r ∈ queue) then (st, None)
  else
    let elapsed := as_secs_f64 (sat_sub now last) in
    let tokens := sf_min (f64_add tokens (f64_mul elapsed RATE_REFILL_PER_SEC)) RATE_BURST in
    if sf_lt tokens (f64_of_Z 1) then (mkState queue tokens now closed writer gen accepted, None)
    else
      let tokens := f64_sub tokens (f64_of_Z 1) in
      let queue := if (MAX_PENDING <=? length queue)%nat then tail queue else queue in
      (mkState (queue ++ [r]) tokens now closed None gen (accepted + 1), (λ w, (w, gen)) <$> writer).

Definition rearm (st : State) (writer : W) (now : Z) : State :=
  mkState [] RATE_BURST now false (Some writer) (st_generation st + 1) (st_accepted st).

Definition close (st : State) : State :=
  let 'mkState queue tokens last _ writer gen accepted := st in mkState queue tokens last true writer gen accepted.

(** One pass of a drain thread of generation [gen] under the lock. *)
Inductive drain_result := DExit | DWait | DReply (r : reply).

Definition drain_pass (st : State) (gen : Z) : drain_result * State :=
  let 'mkState queue tokens last closed writer g accepted := st in
  if closed || negb (g =? gen) then (DExit, st)
  else match queue with
       | r :: queue => (DReply r, mkState queue tokens last closed writer g accepted)
       | [] => (DWait, st)
       end.

(** ** The threads

    [spawning] are writers taken by an [offer] whose thread is not started yet; a
    running drain thread has its writer and the reply it is about to write. [offered]
    and [written] record, per generation, the replies accepted and written. *)
Record Sys := mkSys {
  sys_st : State;
  sys_spawning : gmap Z W;
  sys_threads : gmap Z (W * option reply);
  sys_armed : gmap Z W;
  sys_offered : list (Z * reply);
  sys_written : list (Z * W * reply);
}.

Definition sys_new (writer : W) (now : Z) : Sys :=
  mkSys (outbox_new writer now) ∅ ∅ {[0 := writer]} [] [].

(** Replies accepted by this [offer]. *)
Definition newly_accepted (st st' : State) (r : reply) : list (Z * reply) :=
  if st_accepted st' =? st_accepted st then [] else [(st_generation st, r)].

Inductive os_step : Sys → Sys → Prop :=
| Os_offer st sp th ar off wr r now st' start :
    offer st r now = (st', start) →
    os_step (mkSys st sp th ar off wr)
      (mkSys st' (match start with Some (w, g) => <[g := w]> sp | None => sp end) th ar
         (off ++ newly_accepted st st' r) wr)
| Os_spawned st sp th ar off wr g w :
    sp !! g = Some w →
    os_step (mkSys st sp th ar off wr) (mkSys st (delete g sp) (<[g := (w, None)]> th) ar off wr)
| Os_spawn_failed st sp th ar off wr g w :
    sp !! g = Some w →
    os_step (mkSys st sp th ar off wr) (mkSys (close st) (delete g sp) th ar off wr)
| Os_rearm st sp th ar off wr w now :
    os_step (mkSys st sp th ar off wr)
      (mkSys (rearm st w now) sp th (<[st_generation st + 1 := w]> ar) off wr)
| Os_close st sp th ar off wr :
    os_step (mkSys st sp th ar off wr) (mkSys (close st) sp th ar off wr)
| Os_take st sp th ar off wr g w r st' :
    th !! g = Some (w, None) → drain_pass st g = (DReply r, st') →
    os_step (mkSys st sp th ar off wr) (mkSys st' sp (<[g := (w, Some r)]> th) ar off wr)
| Os_exit st sp th ar off wr g w st' :
    th !! g = Some (w, None) → drain_pass st g = (DExit, st') →
    os_step (mkSys st sp th ar off wr) (mkSys st' sp (delete g th) ar off wr)
| Os_write st sp th ar off wr g w r :
    th !! g = Some (w, Some r) →
    os_step (mkSys st sp th ar off wr) (mkSys st sp (<[g := (w, None)]> th) ar off (wr ++ [(g, w, r)])).

End Outbox.
Arguments State W : clear implicits.
Arguments Sys W : clear implicits.

(** ** Lemmas *)

Section Lemmas.
Context {W : Type}.

(** [offer] either leaves the queue and the writer alone or appends the reply, dropping
    the oldest if the queue was full. *)
Lemma offer_cases (st st' : State W) r now start :
  offer st r now = (st', start) →
  st_generation st' = st_generation st ∧
  ((st_queue st' = st_queue st ∧ st_writer st' = st_writer st ∧ st_accepted st' = st_accepted st ∧ start = None) ∨
   (st_closed st = false ∧ r ∉ st_queue st ∧ st_writer st' = None ∧ st_accepted st' = st_accepted st + 1 ∧
    start = (λ w, (w, st_generation st)) <$> st_writer st ∧
    st_queue st' = (if (MAX_PENDING <=? length (st_queue st))%nat then tail (st_queue st) else st_queue st) ++ [r])).
Proof.
  destruct st as [queue tokens last closed writer gen accepted]. unfold offer.
  destruct (closed || bool_decide (r ∈ queue)) eqn:Hskip; [intros [= <- <-]; simpl; tauto|].
  apply orb_false_iff in Hskip as [-> Hin%bool_decide_eq_false].
  destruct (sf_lt _ _); intros [= <- <-]; simpl; [tauto|].
  split; [done|]. right. done.
Qed.

Definition queue_ok (queue : list reply) : Prop := (length queue ≤ MAX_PENDING)%nat ∧ NoDup queue.

Lemma push_ok queue r :
  queue_ok queue → r ∉ queue →
  queue_ok ((if (MAX_PENDING <=? length queue)%nat then tail queue else queue) ++ [r]).
Proof.
  unfold queue_ok, MAX_PENDING. intros [Hl Hn] Hr.
  assert (Htail : NoDup (tail queue) ∧ r ∉ tail queue).
  { destruct queue as [|a queue]; [done|]. simpl. apply NoDup_cons in Hn as [_ Hn]. set_solver. }
  destruct (Nat.leb_spec 32 (length queue)) as [Hf|Hf]; rewrite length_app; simpl; split.
  - destruct queue; simpl in *; lia.
  - apply NoDup_app. split; [apply Htail|]. split; [set_solver|apply NoDup_singleton].
  - lia.
  - apply NoDup_app. split; [done|]. split; [set_solver|apply NoDup_singleton].
Qed.

(** Replies accepted and written in generation [g]; the reply a thread is holding. *)
Definition off_of (g : Z) (off : list (Z * reply)) : list reply :=
  omap (λ '(g', r), if bool_decide (g' = g) then Some r else None) off.
Definition wr_of (g : Z) (wr : list (Z * W * reply)) : list reply :=
  omap (λ '(g', _, r), if bool_decide (g' = g) then Some r else None) wr.
Definition held_of (g : Z) (th : gmap Z (W * option reply)) : list reply :=
  match th !! g with Some (_, Some r) => [r] | _ => [] end.
Definition queue_of (g : Z) (st : State W) : list reply :=
  if bool_decide (g = st_generation st) then st_queue st else [].

Lemma off_of_app g a b : off_of g (a ++ b) = off_of g a ++ off_of g b.
Proof. apply omap_app. Qed.
Lemma wr_of_app g a b : wr_of g (a ++ b) = wr_of g a ++ wr_of g b.
Proof. apply omap_app. Qed.

Record sys_inv (s : Sys W) : Prop := {
  si_queue : queue_ok (st_queue (sys_st s));
  si_spawning : ∀ g w, sys_spawning s !! g = Some w →
    sys_armed s !! g = Some w ∧ g ≤ st_generation (sys_st s) ∧ sys_threads s !! g = None;
  si_threads : ∀ g w h, sys_threads s !! g = Some (w, h) →
    sys_armed s !! g = Some w ∧ g ≤ st_generation (sys_st s);
  si_writer : ∀ w, st_writer (sys_st s) = Some w →
    sys_armed s !! st_generation (sys_st s) = Some w ∧
    sys_spawning s !! st_generation (sys_st s) = None ∧ sys_threads s !! st_generation (sys_st s) = None;
  si_future : ∀ g, st_generation (sys_st s) < g → off_of g (sys_offered s) = [] ∧ sys_armed s !! g = None;
  si_flow : ∀ g, sublist (wr_of g (sys_written s) ++ held_of g (sys_threads s) ++ queue_of g (sys_st s))
                         (off_of g (sys_offered s));
  si_written : ∀ g w r, (g, w, r) ∈ sys_written s → sys_armed s !! g = Some w;
}.

Lemma sys_new_inv w now : sys_inv (sys_new w now).
Proof.
  split; simpl.
  - split; [simpl; unfold MAX_PENDING; lia|apply NoDup_nil_2].
  - intros g w'. by rewrite lookup_empty.
  - intros g w' h. by rewrite lookup_empty.
  - intros w' [= ->]. by rewrite lookup_singleton_eq.
  - intros g Hg. split; [done|]. by rewrite lookup_singleton_ne by lia.
  - intros g. unfold held_of, queue_of. rewrite lookup_empty. simpl. by destruct (bool_decide _).
  - intros g w' r Hin. set_solver.
Qed.

Lemma sublist_drop_mid {A} (a b c d : list A) : sublist (a ++ b ++ c) d → sublist (a ++ b ++ []) d.
Proof.
  intros Hs. etrans; [|exact Hs]. apply sublist_app; [done|]. apply sublist_app; [done|]. apply sublist_nil_l.
Qed.

Lemma tail_if_sublist {A} (b : bool) (q : list A) : sublist (if b then tail q else q) q.
Proof. destruct b, q; simpl; try done. by apply sublist_cons. Qed.

(** A step that changes only the state record, keeping queue, writer and generation. *)
Lemma inv_same_core st st' sp th ar off wr :
  sys_inv (mkSys st sp th ar off wr) →
  st_queue st' = st_queue st → st_writer st' = st_writer st → st_generation st' = st_generation st →
  sys_inv (@mkSys W st' sp th ar off wr).
Proof.
  intros Hinv Eq Ew Eg. destruct st as [q1 t1 l1 c1 w1 g1 a1], st' as [q2 t2 l2 c2 w2 g2 a2]. simpl in *. subst.
  by destruct Hinv.
Qed.

Lemma offer_inv (st : State W) sp th ar off wr r now st' start :
  sys_inv (mkSys st sp th ar off wr) → offer st r now = (st', start) →
  sys_inv (mkSys st' (match start with Some (w, g) => <[g := w]> sp | None => sp end) th ar
             (off ++ newly_accepted st st' r) wr).
Proof.
  intros Hinv Hoff. apply offer_cases in Hoff as (Eg & [(Eq & Ew & Ea & ->)|(Hc & Hr & Ew & Ea & Es & Eq)]).
  { unfold newly_accepted. rewrite Ea, Z.eqb_refl, app_nil_r. by eapply inv_same_core. }
  assert (Hnew : newly_accepted st st' r = [(st_generation st, r)]).
  { unfold newly_accepted. rewrite Ea. by destruct (Z.eqb_spec (st_accepted st + 1) (st_accepted st)); [lia|]. }
  rewrite Hnew. destruct Hinv as [Hq Hsp Hth Hw Hfut Hflow Hwr]. simpl in *.
  set (sp' := match start with Some (w, g) => <[g := w]> sp | None => sp end).
  assert (Hsp' : ∀ g w, sp' !! g = Some w → sp !! g = Some w ∨ (g = st_generation st ∧ st_writer st = Some w)).
  { intros g w. subst sp' start. destruct (st_writer st) as [w0|]; simpl; [|by left].
    intros [[<- <-]|[_ ?]]%lookup_insert_Some; eauto. }
  split; simpl; rewrite ?Eg, ?Ew; try done.
  - rewrite Eq. by apply push_ok.
  - intros g w [Hg|[-> Hg]]%Hsp'; [by apply Hsp|]. apply Hw in Hg as (? & ? & ?). done.
  - intros g Hg. destruct (Hfut g Hg) as [Ho Ha]. rewrite off_of_app, Ho. simpl.
    rewrite bool_decide_false by lia. done.
  - intros g. rewrite off_of_app. unfold queue_of. rewrite Eg. specialize (Hflow g). unfold queue_of in Hflow.
    simpl. case_bool_decide as Hg.
    + subst g. rewrite bool_decide_true by done. simpl. rewrite Eq, !app_assoc. apply sublist_app; [|done].
      etrans; [|exact Hflow]. rewrite <- app_assoc. repeat (apply sublist_app; [done|]). apply tail_if_sublist.
    + rewrite (bool_decide_false (st_generation st = g)) by done. simpl. rewrite !app_nil_r.
      by rewrite app_nil_r in Hflow.
Qed.

Lemma rearm_inv (st : State W) sp th ar off wr w now :
  sys_inv (mkSys st sp th ar off wr) →
  sys_inv (mkSys (rearm st w now) sp th (<[st_generation st + 1 := w]> ar) off wr).
Proof.
  intros [Hq Hsp Hth Hw Hfut Hflow Hwr]. simpl in *. set (g1 := st_generation st + 1).
  assert (Hnew : ar !! g1 = None) by (apply Hfut; lia).
  assert (Hkeep : ∀ g v, ar !! g = Some v → <[g1 := w]> ar !! g = Some v).
  { intros g v Hv. rewrite lookup_insert_ne; [done|]. intros <-. congruence. }
  split; simpl; fold g1.
  - split; [simpl; unfold MAX_PENDING; lia|apply NoDup_nil_2].
  - intros g v Hg. destruct (Hsp g v Hg) as (? & ? & ?). split; [by apply Hkeep|]. split; [lia|done].
  - intros g v h Hg. destruct (Hth g v h Hg). split; [by apply Hkeep|lia].
  - intros v [= <-]. split; [by rewrite lookup_insert_eq|]. split.
    + destruct (sp !! g1) as [v|] eqn:Hv; [|done]. apply Hsp in Hv as (? & ? & _). lia.
    + destruct (th !! g1) as [[v h]|] eqn:Hv; [|done]. apply Hth in Hv as [? ?]. lia.
  - intros g Hg. destruct (Hfut g) as [? ?]; [lia|]. rewrite lookup_insert_ne by lia. done.
  - intros g. specialize (Hflow g). unfold queue_of in *. simpl. destruct (bool_decide (g = st_generation st)).
    + replace (if bool_decide _ then [] else []) with (@nil reply) by (by destruct (bool_decide _)).
      by eapply sublist_drop_mid.
    + by destruct (bool_decide _).
  - intros g v r Hin. by eapply Hkeep, Hwr.
Qed.

Lemma take_inv (st : State W) sp th ar off wr g w r st' :
  sys_inv (mkSys st sp th ar off wr) → th !! g = Some (w, None) → drain_pass st g = (DReply r, st') →
  sys_inv (mkSys st' sp (<[g := (w, Some r)]> th) ar off wr).
Proof.
  intros [Hq Hsp Hth Hw Hfut Hflow Hwr] Hg Hpass. destruct st as [q t l c wt gen a]. unfold drain_pass in Hpass.
  destruct (c || negb (gen =? g)) eqn:Hc; [done|]. destruct q as [|r' q]; [done|]. injection Hpass as -> <-.
  b2p. subst gen. simpl in *. split; simpl; try done.
  - destruct Hq as [Hl Hn]. simpl in *. apply NoDup_cons in Hn as [_ ?]. split; [lia|done].
  - intros g' v Hv. destruct (Hsp g' v Hv) as (? & ? & ?). split; [done|]. split; [done|].
    rewrite lookup_insert_ne; [done|]. intros <-. congruence.
  - intros g' v h [[<- [= <- <-]]|[_ Hv]]%lookup_insert_Some; [|by eapply Hth]. by eapply Hth.
  - intros v Hv. destruct (Hw v Hv) as (_ & _ & ?). congruence.
  - intros g'. specialize (Hflow g'). unfold held_of, queue_of in *. simpl in *.
    destruct (decide (g' = g)) as [->|Hne].
    + rewrite lookup_insert_eq. rewrite Hg in Hflow. rewrite bool_decide_true in * by done. done.
    + rewrite lookup_insert_ne by done. by rewrite bool_decide_false in * by done.
Qed.

Lemma spawned_inv (st : State W) sp th ar off wr g w :
  sys_inv (mkSys st sp th ar off wr) → sp !! g = Some w →
  sys_inv (mkSys st (delete g sp) (<[g := (w, None)]> th) ar off wr).
Proof.
  intros [Hq Hsp Hth Hw Hfut Hflow Hwr] Hg. simpl in *. destruct (Hsp g w Hg) as (Ha & Hle & Hn).
  split; simpl; try done.
  - intros g' v [Hne Hv]%lookup_delete_Some. destruct (Hsp g' v Hv) as (? & ? & ?).
    rewrite lookup_insert_ne by done. done.
  - intros g' v h [[<- [= <- <-]]|[_ Hv]]%lookup_insert_Some; [done|by eapply Hth].
  - intros v Hv. destruct (Hw v Hv) as (? & Hs & ?). destruct (decide (g = st_generation st)) as [->|]; [congruence|].
    rewrite lookup_delete_ne, lookup_insert_ne by done. done.
  - intros g'. specialize (Hflow g'). unfold held_of in *. destruct (decide (g = g')) as [<-|].
    + rewrite lookup_insert_eq. by rewrite Hn in Hflow.
    + by rewrite lookup_insert_ne.
Qed.

Lemma close_core (st : State W) :
  st_queue (close st) = st_queue st ∧ st_writer (close st) = st_writer st ∧ st_generation (close st) = st_generation st.
Proof. by destruct st. Qed.

Lemma drop_spawning_inv (st : State W) sp th ar off wr g :
  sys_inv (mkSys st sp th ar off wr) → sys_inv (mkSys st (delete g sp) th ar off wr).
Proof.
  intros [Hq Hsp Hth Hw Hfut Hflow Hwr]. simpl in *. split; simpl; try done.
  - intros g' v [_ Hv]%lookup_delete_Some. by apply Hsp.
  - intros v Hv. destruct (Hw v Hv) as (? & Hs & ?). split; [done|]. split; [|done].
    apply lookup_delete_None. by right.
Qed.

Lemma exit_inv (st : State W) sp th ar off wr g w :
  sys_inv (mkSys st sp th ar off wr) → th !! g = Some (w, None) →
  sys_inv (mkSys st sp (delete g th) ar off wr).
Proof.
  intros [Hq Hsp Hth Hw Hfut Hflow Hwr] Hg. simpl in *. split; simpl; try done.
  - intros g' v Hv. destruct (Hsp g' v Hv) as (? & ? & ?). split; [done|]. split; [done|].
    apply lookup_delete_None. by right.
  - intros g' v h [_ Hv]%lookup_delete_Some. by eapply Hth.
  - intros v Hv. destruct (Hw v Hv) as (? & ? & Ht). congruence || (split; [done|]; split; [done|];
    apply lookup_delete_None; by right).
  - intros g'. specialize (Hflow g'). unfold held_of in *. destruct (decide (g = g')) as [<-|].
    + rewrite lookup_delete_eq. by rewrite Hg in Hflow.
    + by rewrite lookup_delete_ne.
Qed.

Lemma write_inv (st : State W) sp th ar off wr g w r :
  sys_inv (mkSys st sp th ar off wr) → th !! g = Some (w, Some r) →
  sys_inv (mkSys st sp (<[g := (w, None)]> th) ar off (wr ++ [(g, w, r)])).
Proof.
  intros [Hq Hsp Hth Hw Hfut Hflow Hwr] Hg. simpl in *. split; simpl; try done.
  - intros g' v Hv. destruct (Hsp g' v Hv) as (? & ? & ?). split; [done|]. split; [done|].
    rewrite lookup_insert_ne; [done|]. intros <-. congruence.
  - intros g' v h [[<- [= <- <-]]|[_ Hv]]%lookup_insert_Some; [|by eapply Hth]. by eapply Hth.
  - intros v Hv. destruct (Hw v Hv) as (? & ? & Ht). destruct (decide (g = st_generation st)) as [->|]; [congruence|].
    by rewrite lookup_insert_ne.
  - intros g'. specialize (Hflow g'). rewrite wr_of_app. unfold held_of in *. simpl.
    destruct (decide (g = g')) as [<-|].
    + rewrite lookup_insert_eq, bool_decide_true by done. rewrite Hg in Hflow. by rewrite <- app_assoc.
    + rewrite lookup_insert_ne, bool_decide_false by done. by rewrite app_nil_r.
  - intros g' v r' [Hin|[= -> -> ->]%list_elem_of_singleton]%elem_of_app; [by eapply Hwr|by eapply Hth].
Qed.

Lemma os_step_inv s s' : os_step s s' → sys_inv s → sys_inv s'.
Proof.
  destruct 1 as [? ? ? ? ? ? ? ? ? ? Hoff|? ? ? ? ? ? ? ? Hsp|st ? ? ? ? ? ? ? Hsp| |st| | |]; intros Hinv.
  - by eapply offer_inv.
  - by eapply spawned_inv.
  - destruct (close_core st) as (? & ? & ?). by eapply inv_same_core; [apply drop_spawning_inv|..].
  - by apply rearm_inv.
  - destruct (close_core st) as (? & ? & ?). by eapply inv_same_core.
  - by eapply take_inv.
  - unfold drain_pass in *. destruct st as [q t l c wt gen a].
    assert (st' = mkState q t l c wt gen a) as -> by (repeat case_match; congruence). by eapply exit_inv.
  - by eapply write_inv.
Qed.

Lemma os_reachable_inv w now s : rtc os_step (sys_new w now) s → sys_inv s.
Proof.
  intros Hr. apply (rtc_ind_r sys_inv (sys_new w now)) in Hr; [done|apply sys_new_inv|].
  intros y z _ Hstep Hy. by eapply os_step_inv.
Qed.

(** *** Bursts: the token arithmetic at one instant is exact. *)
Lemma token_step k :
  0 ≤ k ≤ 16 →
  sf_min (f64_add (f64_of_Z k) (f64_mul (as_secs_f64 0) RATE_REFILL_PER_SEC)) RATE_BURST = f64_of_Z k ∧
  sf_lt (f64_of_Z k) (f64_of_Z 1) = (k <? 1) ∧
  (1 ≤ k → f64_sub (f64_of_Z k) (f64_of_Z 1) = f64_of_Z (k - 1)).
Proof.
  intros Hk. rewrite <- (Z2Nat.id k) by lia. remember (Z.to_nat k) as n eqn:Hn.
  assert (Hle : (n ≤ 16)%nat) by lia. clear Hn Hk.
  do 17 (destruct n as [|n]; [vm_compute; repeat split; done|]). lia.
Qed.

Definition offer_all (st : State W) (rs : list reply) (now : Z) : State W :=
  foldl (λ st r, fst (offer st r now)) st rs.

Lemma offer_now queue k now writer gen accepted r :
  0 ≤ k ≤ 16 → r ∉ queue → (length queue < MAX_PENDING)%nat →
  fst (offer (mkState queue (f64_of_Z k) now false writer gen accepted) r now) =
    if k <? 1 then @mkState W queue (f64_of_Z k) now false writer gen accepted
    else mkState (queue ++ [r]) (f64_of_Z (k - 1)) now false None gen (accepted + 1).
Proof.
  intros Hk Hr Hl. destruct (token_step k Hk) as (E1 & E2 & E3). unfold offer.
  rewrite (bool_decide_false (r ∈ queue)) by done. cbn [orb].
  assert (sat_sub now now = 0) as -> by (unfold sat_sub; lia). cbv zeta. rewrite E1, E2.
  destruct (Z.ltb_spec k 1); [done|]. rewrite E3 by lia. by rewrite (proj2 (Nat.leb_gt _ _)).
Qed.

Lemma offer_all_burst rs now (st : State W) k :
  0 ≤ k ≤ 16 → st_tokens st = f64_of_Z k → st_last st = now → st_closed st = false →
  (length (st_queue st) = 16 - Z.to_nat k)%nat → NoDup (st_queue st ++ rs) →
  st_accepted (offer_all st rs now) = st_accepted st + Z.min k (Z.of_nat (length rs)) ∧
  st_queue (offer_all st rs now) = st_queue st ++ take (Z.to_nat k) rs.
Proof.
  revert st k. induction rs as [|r rs IH]; intros st k Hk Ht Hl Hc Hq Hn; cbn [offer_all foldl length].
  { rewrite take_nil, app_nil_r. split; [lia|done]. }
  fold (offer_all (fst (offer st r now)) rs now). destruct st as [queue tokens last closed writer gen accepted].
  cbn [st_tokens st_last st_closed st_queue st_accepted] in *. subst.
  assert (Hr : r ∉ queue). { apply NoDup_app in Hn as (_ & Hn & _). intros Hin. apply (Hn r Hin). set_solver. }
  rewrite offer_now by (done || (unfold MAX_PENDING; lia)). destruct (Z.ltb_spec k 1).
  - assert (k = 0) as -> by lia.
    destruct (IH (mkState queue (f64_of_Z 0) now false writer gen accepted) 0) as [-> ->]; try done.
    + simpl. apply NoDup_app in Hn as (? & Hn & ?%NoDup_cons). apply NoDup_app. split; [done|].
      split; [|tauto]. set_solver.
    + simpl. split; [lia|done].
  - destruct (IH (mkState (queue ++ [r]) (f64_of_Z (k - 1)) now false None gen (accepted + 1)) (k - 1)) as [-> ->];
      try done; simpl.
    + lia.
    + rewrite length_app. simpl. lia.
    + by rewrite <- app_assoc.
    + split; [lia|]. replace (Z.to_nat k) with (S (Z.to_nat (k - 1))) by lia. by rewrite <- app_assoc.
Qed.

(** ** Properties *)

(** In every interleaving of offers, thread starts (successful or not), rearms,
    closes and drain threads: the queue never exceeds [MAX_PENDING] and holds no reply
    twice. *)
Theorem outbox_bounded w now (s : Sys W) :
  rtc os_step (sys_new w now) s →
  (length (st_queue (sys_st s)) ≤ MAX_PENDING)%nat ∧ NoDup (st_queue (sys_st s)).
Proof. intros Hr. apply os_reachable_inv in Hr as [[Hl Hn] _ _ _ _ _ _]. done. Qed.

(** C40. Replies go to the process that asked, in order: in every interleaving, a drain
    thread writes only to the writer its generation was armed with, and the replies
    written in a generation (followed by the one being written and those still queued)
    are a subsequence of the replies accepted in that same generation, so none is
    written twice, out of order, or to a restarted process it was not meant for. *)
Theorem outbox_delivery w now (s : Sys W) g :
  rtc os_step (sys_new w now) s →
  sublist (wr_of g (sys_written s) ++ held_of g (sys_threads s) ++ queue_of g (sys_st s))
          (off_of g (sys_offered s)) ∧
  (∀ v r, (g, v, r) ∈ sys_written s → sys_armed s !! g = Some v).
Proof. intros Hr. apply os_reachable_inv in Hr as [_ _ _ _ _ Hflow Hwr]. eauto. Qed.

(** The rate limit: of any number of distinct replies offered to a fresh outbox at one
    instant, exactly the first 16 are accepted and queued, in order. *)
Theorem burst_limited (w : W) now rs :
  NoDup rs →
  let st := offer_all (outbox_new w now) rs now in
  st_accepted st = Z.min 16 (Z.of_nat (length rs)) ∧ st_queue st = take 16 rs.
Proof.
  intros Hn. destruct (offer_all_burst rs now (outbox_new w now) 16) as [Ha Hq]; done.
Qed.

End Lemmas.

(** ** Witnesses *)

Lemma outbox_delivery_witness :
  ∃ s : Sys nat, rtc os_step (sys_new 7%nat 0) s ∧ sys_written s = [(0, 7%nat, [1])] ∧
    sublist (wr_of 0 (sys_written s) ++ held_of 0 (sys_threads s) ++ queue_of 0 (sys_st s)) (off_of 0 (sys_offered s)).
Proof.
  set (st1 := fst (offer (outbox_new 7%nat 0) [1] 0)).
  set (st2 := snd (drain_pass st1 0)).
  exists (mkSys st2 (delete 0 (<[0 := 7%nat]> ∅)) (<[0 := (7%nat, None)]> (<[0 := (7%nat, Some [1])]> (<[0 := (7%nat, None)]> ∅)))
            {[0 := 7%nat]} [(0, [1])] ([] ++ [(0, 7%nat, [1])])).
  assert (Hr : rtc os_step (sys_new 7%nat 0) (mkSys st2 (delete 0 (<[0 := 7%nat]> ∅))
    (<[0 := (7%nat, None)]> (<[0 := (7%nat, Some [1])]> (<[0 := (7%nat, None)]> ∅))) {[0 := 7%nat]} [(0, [1])] ([] ++ [(0, 7%nat, [1])]))).
  { eapply rtc_l; [apply (Os_offer (outbox_new 7%nat 0) ∅ ∅ {[0 := 7%nat]} [] [] [1] 0 st1 (Some (7%nat, 0))); vm_compute; reflexivity|].
    eapply rtc_l; [apply (Os_spawned _ _ _ _ _ _ 0 7%nat); vm_compute; reflexivity|].
    eapply rtc_l; [apply (Os_take _ _ _ _ _ _ 0 7%nat [1] st2); vm_compute; reflexivity|].
    eapply rtc_l; [apply (Os_write _ _ _ _ _ _ 0 7%nat [1]); vm_compute; reflexivity|].
    apply rtc_refl. }
  split; [exact Hr|]. split; [reflexivity|]. exact (proj1 (outbox_delivery 7%nat 0 _ 0 Hr)).
Defined.

Lemma outbox_bounded_witness :
  (length (st_queue (sys_st (sys_new 7%nat 0))) ≤ MAX_PENDING)%nat.
Proof. exact (proj1 (outbox_bounded 7%nat 0 (sys_new 7%nat 0) (rtc_refl _ _))). Defined.

Lemma burst_limited_witness :
  st_queue (offer_all (outbox_new 7%nat 5) [[1]; [2]; [3]] 5) = [[1]; [2]; [3]].
Proof.
  apply (burst_limited 7%nat 5 [[1]; [2]; [3]]). apply (bool_decide_unpack _). vm_compute. exact I.
Defined.
