(* ===== verification/PaneStream.v ===== *)
(** * A pane's output stream ([crates/tymux-core/src/pane.rs])

    The reader thread turns what the child prints into numbered chunks: each is fed to the
    screen model, scanned for terminal queries, pushed to the replay buffer and broadcast.
    [reader] is where that thread stands between two locked sections; the sections are the
    functions below, composed with the scanner, the replay buffer and the client registry
    they call.

    The screen is a function of the bytes it was fed, so the model keeps those bytes
    ([fed]). [output_tx] is every message ever broadcast, in order; a receiver is a position
    in it. [hist] is a history variable: the chunks published so far. *)

From S2P Require Import Prelude ReplayBuffer TermQuery Scanner Clients.

(** ** Data *)

Definition PTY_READ_BUF_SIZE : Z := 4096.

(** Where a published chunk comes from: a read (and who answered its queries), the bytes
    still held at the end of the stream, or [inject_output]. *)
Inductive chunk_kind := KRead (daemon_answered : bool) | KRest | KInject.

Record Chunk := mkChunk {
  h_seq : Z;
  h_raw : list byte;
  h_stripped : list byte;
  h_kind : chunk_kind;
}.

Section Stream.
Context `{!Memchr} {P : Type} `{!VteParser P}.

(** The reader thread between two locked sections: not running; about to read; a chunk
    read and its answerer decided, the parser lock held; a chunk published, its message
    (if any) not yet sent; past the end of file; the held bytes published, not yet sent;
    everything sent, the exit not yet recorded. [RInject] is a call of [inject_output]
    between its locked section and its send: of the exit hook, which the reader runs before
    the exit is recorded, or of another thread, with the reader still to record its exit
    ([exiting]) or gone. *)
Inductive reader :=
| RNone
| RLoop (sc : QueryScanner P)
| RChunk (sc : QueryScanner P) (chunk : list byte) (next : Z) (daemon_answers : bool)
| RSend (sc : QueryScanner P) (msg : option (Z * list byte))
| REof (sc : QueryScanner P)
| RRest (msg : Z * list byte)
| RExit
| RInject (exiting : bool) (msg : Z * list byte).

Record PaneStream := mkPane {
  output_seq : Z;
  replay : ReplayBuffer;
  clients : ClientRegistry;
  fed : list byte;
  scanner_held : list byte;
  adopted_held : list byte;
  daemon_answers : bool;
  replies_open : bool;
  reads_frozen : bool;
  eof_seen : bool;
  exited : bool;
  restart_pending : bool;
  exit_code : option Z;
  output_tx : list (Z * list byte);
  rd : reader;
  hist : list Chunk;
}.

Definition set_rd (p : PaneStream) (r : reader) : PaneStream :=
  mkPane (output_seq p) (replay p) (clients p) (fed p) (scanner_held p) (adopted_held p) (daemon_answers p)
    (replies_open p) (reads_frozen p) (eof_seen p) (exited p) (restart_pending p) (exit_code p) (output_tx p) r (hist p).

Definition set_clients (p : PaneStream) (r : ClientRegistry) : PaneStream :=
  mkPane (output_seq p) (replay p) r (fed p) (scanner_held p) (adopted_held p) (daemon_answers p)
    (replies_open p) (reads_frozen p) (eof_seen p) (exited p) (restart_pending p) (exit_code p) (output_tx p) (rd p) (hist p).

(** The parts of a pane the supervisor and the hand-off write: the exit record, the
    pending restart and the freeze of reads. *)
Definition set_status (p : PaneStream) (ex pending : bool) (code : option Z) (frozen : bool) : PaneStream :=
  mkPane (output_seq p) (replay p) (clients p) (fed p) (scanner_held p) (adopted_held p) (daemon_answers p)
    (replies_open p) frozen (eof_seen p) ex pending code (output_tx p) (rd p) (hist p).

(** A freshly spawned pane, its reader not started. *)
Definition pane_new (budget : Z) : PaneStream :=
  mkPane 0 (Replay.new budget) registry_default [] [] [] false true false false false false None [] RNone [].

(** ** Publishing

    The replay push and the sequence bump, under the replay lock. *)
Definition publish (p : PaneStream) (seq : Z) (raw data : list byte) (k : chunk_kind) : PaneStream :=
  mkPane (output_seq p + 1) (Replay.push (replay p) seq data) (clients p) (fed p) (scanner_held p)
    (adopted_held p) (daemon_answers p) (replies_open p) (reads_frozen p) (eof_seen p) (exited p)
    (restart_pending p) (exit_code p) (output_tx p) (rd p) (hist p ++ [mkChunk seq raw data k]).

(** [parser.process]. *)
Definition process (p : PaneStream) (data : list byte) : PaneStream :=
  mkPane (output_seq p) (replay p) (clients p) (fed p ++ data) (scanner_held p) (adopted_held p)
    (daemon_answers p) (replies_open p) (reads_frozen p) (eof_seen p) (exited p) (restart_pending p)
    (exit_code p) (output_tx p) (rd p) (hist p).

(** [output_tx.send]. *)
Definition send (p : PaneStream) (msg : Z * list byte) : PaneStream :=
  mkPane (output_seq p) (replay p) (clients p) (fed p) (scanner_held p) (adopted_held p) (daemon_answers p)
    (replies_open p) (reads_frozen p) (eof_seen p) (exited p) (restart_pending p) (exit_code p)
    (output_tx p ++ [msg]) (rd p) (hist p).

(** ** The reader thread *)

(** The start of the thread: an adopted pane's unfinished sequence is re-tokenized. *)
Definition start_reader (vte_default : P) (p : PaneStream) : option PaneStream :=
  let! (_, sc) := feed (fresh_scanner vte_default) (adopted_held p) in
  Some (mkPane (output_seq p) (replay p) (clients p) (fed p) (peek_held sc) [] (daemon_answers p)
          (replies_open p) (reads_frozen p) false (exited p) (restart_pending p) (exit_code p)
          (output_tx p) (RLoop sc) (hist p)).

(** A read of [Ok(n)]: the parser lock is taken and the answerer of the chunk decided. *)
Definition read_decide (p : PaneStream) (sc : QueryScanner P) (chunk : list byte) : PaneStream :=
  let next := output_seq p + 1 in
  let answers := negb (has_answerer (clients p) next) in
  mkPane (output_seq p) (replay p) (clients p) (fed p) (scanner_held p) (adopted_held p) answers
    (replies_open p) (reads_frozen p) (eof_seen p) (exited p) (restart_pending p) (exit_code p)
    (output_tx p) (RChunk sc chunk next answers) (hist p).

(** The payload of a chunk's broadcast; an empty one is not sent. *)
Definition payload (daemon_answered : bool) (scanned : Scanned) : option (list byte) :=
  let data := if daemon_answered then stripped scanned else sc_raw scanned in
  if bool_decide (data = []) then None else Some data.

(** The rest of the locked section: parse, scan, refresh the copy of the held bytes, push
    and bump. *)
Definition read_publish (p : PaneStream) (sc : QueryScanner P) (chunk : list byte) (next : Z) (answers : bool) :
    option PaneStream :=
  let p := process p chunk in
  let! (scanned, sc) := feed sc chunk in
  let mirror :=
    if negb (bool_decide (scanner_held p = [])) || negb (bool_decide (peek_held sc = []))
    then peek_held sc else scanner_held p in
  let p := mkPane (output_seq p) (replay p) (clients p) (fed p) mirror (adopted_held p) (daemon_answers p)
    (replies_open p) (reads_frozen p) (eof_seen p) (exited p) (restart_pending p) (exit_code p)
    (output_tx p) (rd p) (hist p) in
  let p := publish p next (sc_raw scanned) (stripped scanned) (KRead answers) in
  Some (set_rd p (RSend sc (pair next <$> payload answers scanned))).

(** After the locks are released the message, if any, is broadcast. *)
Definition read_send (p : PaneStream) (sc : QueryScanner P) (msg : option (Z * list byte)) : PaneStream :=
  set_rd (match msg with Some m => send p m | None => p end) (RLoop sc).

(** [Ok(0)] or an error: the loop ends and the reply writer closes. *)
Definition read_eof (p : PaneStream) (sc : QueryScanner P) : PaneStream :=
  mkPane (output_seq p) (replay p) (clients p) (fed p) (scanner_held p) (adopted_held p) (daemon_answers p)
    false (reads_frozen p) true (exited p) (restart_pending p) (exit_code p) (output_tx p) (REof sc) (hist p).

(** A sequence still open at the end of the stream is released to every consumer. *)
Definition release_rest (p : PaneStream) (sc : QueryScanner P) : PaneStream :=
  let rest := fst (take_held sc) in
  if bool_decide (rest = []) then set_rd p RExit
  else
    let next := output_seq p + 1 in
    set_rd (publish p next rest rest KRest) (RRest (next, rest)).

Definition send_rest (p : PaneStream) (msg : Z * list byte) : PaneStream := set_rd (send p msg) RExit.

(** The exit becomes visible; the exit hook has set [restart_pending] before. A call of
    [inject_output] by another thread goes on. *)
Definition record_exit (p : PaneStream) (code : option Z) (pending : bool) : PaneStream :=
  set_rd (set_status p true pending code (reads_frozen p)) (match rd p with RInject _ msg => RInject false msg | _ => RNone end).

(** ** Output written by the daemon, and respawning *)

Definition inject_output (p : PaneStream) (data : list byte) : PaneStream :=
  let next := output_seq p + 1 in
  let p := process p data in
  set_rd (publish p next data data KInject) (RInject (match rd p with RExit => true | _ => false end) (next, data)).

Definition inject_send (p : PaneStream) (exiting : bool) (msg : Z * list byte) : PaneStream :=
  set_rd (send p msg) (if exiting then RExit else RNone).

(** The writes of [respawn_with] a stream depends on, up to its banner: the reply writer is
    rearmed, the exit code and flag are cleared. *)
Definition respawn_with (p : PaneStream) : PaneStream :=
  mkPane (output_seq p) (replay p) (clients p) (fed p) (scanner_held p) (adopted_held p) (daemon_answers p)
    true (reads_frozen p) (eof_seen p) false (restart_pending p) None (output_tx p) (rd p) (hist p).

(** ** Readers of the stream *)

Definition replay_since (p : PaneStream) (resume_from_seq : Z) : ReplayOutcome :=
  Replay.replay_since (replay p) resume_from_seq (output_seq p).

(** The screen (the bytes it was fed) and the sequence number, under the parser lock. *)
Definition snapshot_with_seq (p : PaneStream) : list byte * Z := (fed p, output_seq p).

(** Whether the reader holds the parser lock between two of its steps. *)
Definition parser_locked (p : PaneStream) : bool := match rd p with RChunk _ _ _ _ => true | _ => false end.

(** ** Steps

    The calls of [inject_output] are the supervisor's, one at a time under its lock, which a
    respawn is under too: in the exit hook, between the hook and the record of the exit, and
    between an exit and the start of the next reader. *)

Inductive pstep (vte_default : P) : PaneStream → PaneStream → Prop :=
| P_start p p' :
    rd p = RNone → exited p = false → start_reader vte_default p = Some p' → pstep vte_default p p'
| P_read p sc chunk :
    rd p = RLoop sc → reads_frozen p = false → chunk ≠ [] → Z.of_nat (length chunk) ≤ PTY_READ_BUF_SIZE →
    pstep vte_default p (read_decide p sc chunk)
| P_publish p p' sc chunk next answers :
    rd p = RChunk sc chunk next answers → read_publish p sc chunk next answers = Some p' → pstep vte_default p p'
| P_send p sc msg : rd p = RSend sc msg → pstep vte_default p (read_send p sc msg)
| P_eof p sc : rd p = RLoop sc → reads_frozen p = false → pstep vte_default p (read_eof p sc)
| P_rest p sc : rd p = REof sc → pstep vte_default p (release_rest p sc)
| P_send_rest p msg : rd p = RRest msg → pstep vte_default p (send_rest p msg)
| P_exit p code pending : rd p = RExit ∨ (∃ msg, rd p = RInject true msg) → pstep vte_default p (record_exit p code pending)
| P_inject p data : rd p = RNone ∨ rd p = RExit → pstep vte_default p (inject_output p data)
| P_inject_send p exiting msg : rd p = RInject exiting msg → pstep vte_default p (inject_send p exiting msg)
| P_respawn p : rd p = RNone → exited p = true → pstep vte_default p (respawn_with p)
| P_status p pending frozen :
    pstep vte_default p (set_status p (exited p) pending (exit_code p) frozen).

End Stream.
Arguments reader P : clear implicits.
Arguments PaneStream P : clear implicits.

(** ** The invariant of a stream *)

(** What is broadcast for a published chunk. *)
Definition bcast (h : Chunk) : option (Z * list byte) :=
  match h_kind h with
  | KRead answers =>
      let data := if answers then h_stripped h else h_raw h in
      if bool_decide (data = []) then None else Some (h_seq h, data)
  | KRest | KInject => Some (h_seq h, h_raw h)
  end.

(** What is kept for replay. *)
Definition replay_entry (h : Chunk) : Z * list byte := (h_seq h, h_stripped h).

Definition chunk_ok (h : Chunk) : Prop :=
  sublist (h_stripped h) (h_raw h) ∧
  match h_kind h with KRead _ => True | _ => h_stripped h = h_raw h end.

Section Inv.
Context `{!Memchr} {P : Type} `{!VteParser P}.
Implicit Types (p : PaneStream P) (vd : P).

(** The messages published but not yet sent. *)
Definition pending (r : reader P) : list (Z * list byte) :=
  match r with
  | RSend _ msg => option_list msg
  | RRest msg | RInject _ msg => [msg]
  | _ => []
  end.

(** The bytes processed by the screen that no published chunk carries yet. *)
Definition held (r : reader P) : list byte :=
  match r with
  | RLoop sc | RChunk sc _ _ _ | RSend sc _ | REof sc => qs_held sc
  | _ => []
  end.

Definition reader_ok (p : PaneStream P) : Prop :=
  match rd p with
  | RLoop sc | RSend sc _ | REof sc => scanner_inv sc ∧ scanner_held p = qs_held sc
  | RChunk sc _ next answers =>
      scanner_inv sc ∧ scanner_held p = qs_held sc ∧ next = output_seq p + 1 ∧ answers = daemon_answers p
  | _ => True
  end.

Record stream_inv (budget : Z) (p : PaneStream P) : Prop := {
  si_seq : output_seq p = Z.of_nat (length (hist p));
  si_consecutive : Replay.consecutive 1 (replay_entry <$> hist p);
  si_replay : replay p = Replay.run budget (replay_entry <$> hist p);
  si_sent : output_tx p ++ pending (rd p) = omap bcast (hist p);
  si_fed : fed p = concat (h_raw <$> hist p) ++ held (rd p);
  si_reader : reader_ok p;
  si_chunks : Forall chunk_ok (hist p);
  si_adopted : adopted_held p = [];
}.

Lemma stream_inv_new budget : stream_inv budget (pane_new budget).
Proof. by split. Qed.

(** What one more published chunk does to the log. *)
Lemma log_snoc budget h hs seq :
  seq = Z.of_nat (length hs) → h_seq h = seq + 1 →
  Replay.consecutive 1 (replay_entry <$> hs) →
  Replay.consecutive 1 (replay_entry <$> (hs ++ [h])) ∧
  Replay.run budget (replay_entry <$> (hs ++ [h])) =
    Replay.push (Replay.run budget (replay_entry <$> hs)) (h_seq h) (h_stripped h).
Proof.
  intros -> Hh Hc. rewrite fmap_app. split.
  - apply Replay.consecutive_app. rewrite length_fmap. split; [done|]. simpl. rewrite Hh. lia.
  - unfold Replay.run. by rewrite foldl_app.
Qed.

(** Publishing a chunk: [d] is what the screen is fed on the way, and the chunk takes its
    raw bytes from the front of what was held. *)
Lemma publish_inv budget p p' d raw data k :
  stream_inv budget p → pending (rd p) = [] →
  output_seq p' = output_seq p + 1 → replay p' = Replay.push (replay p) (output_seq p + 1) data →
  hist p' = hist p ++ [mkChunk (output_seq p + 1) raw data k] → output_tx p' = output_tx p →
  fed p' = fed p ++ d → adopted_held p' = adopted_held p →
  pending (rd p') = option_list (bcast (mkChunk (output_seq p + 1) raw data k)) →
  held (rd p) ++ d = raw ++ held (rd p') →
  chunk_ok (mkChunk (output_seq p + 1) raw data k) → reader_ok p' → stream_inv budget p'.
Proof.
  intros [Hseq Hc Hr Ht Hf _ Hck Had] Hpend Hseq' Hrep' Hh' Ht' Hf' Had' Hbc Hheld Hk Hrd'.
  destruct (log_snoc budget (mkChunk (output_seq p + 1) raw data k) (hist p) (output_seq p)) as [Hc' Hr'];
    [done..|]. rewrite Hpend, app_nil_r in Ht.
  split; [..|done| |congruence]; rewrite ?Hh'; [|done|..].
  - rewrite Hseq', length_app. simpl. lia.
  - by rewrite Hr', Hrep', Hr.
  - rewrite omap_app, Ht', <- Ht, Hbc. simpl. by destruct (bcast _).
  - rewrite Hf', Hf, fmap_app, concat_app, <- !app_assoc, Hheld. simpl. by rewrite app_nil_r.
  - apply Forall_app. by split; [|repeat constructor; try apply Hk].
Qed.

(** Consecutive entries carry the numbers 1, 2, ... *)
Lemma consecutive_seqZ from hs :
  Replay.consecutive from (replay_entry <$> hs) → h_seq <$> hs = seqZ from (Z.of_nat (length hs)).
Proof.
  revert from. induction hs as [|h hs IH]; intros from; [done|]. rewrite !fmap_cons. cbn [Replay.consecutive replay_entry].
  intros [Hh Hc]. rewrite seqZ_cons by (simpl; lia). rewrite (IH _ Hc), Hh. f_equal. f_equal; simpl; lia.
Qed.

Lemma start_inv budget vd p p' :
  stream_inv budget p → rd p = RNone → start_reader vd p = Some p' → stream_inv budget p'.
Proof.
  intros [] Hn Hs. unfold start_reader in Hs. rewrite si_adopted0 in Hs.
  destruct (feed_ok (fresh_scanner vd) []) as (s & q & Hfeed & Hq & Hraw & _); [done|].
  rewrite Hfeed in Hs. injection Hs as <-. simpl in Hraw.
  apply app_nil in Hraw as [_ Hheld]. rewrite Hn in *.
  split; simpl in *; try done. by rewrite Hheld.
Qed.

Lemma read_publish_inv budget p p' sc chunk next answers :
  stream_inv budget p → rd p = RChunk sc chunk next answers →
  read_publish p sc chunk next answers = Some p' → stream_inv budget p'.
Proof.
  intros Hinv Hrd Hp. pose proof (si_reader _ _ Hinv) as Hok. unfold reader_ok in Hok. rewrite Hrd in Hok.
  destruct Hok as (Hsc & Hmirror & -> & Hans).
  destruct (feed_ok sc chunk Hsc) as (scanned & sc' & Hfeed & Hsc' & Hraw & Hsub).
  unfold read_publish in Hp. rewrite Hfeed in Hp. injection Hp as <-. cbv zeta.
  eapply (publish_inv budget p _ chunk); try done; rewrite ?Hrd; try done; simpl.
  - unfold payload, bcast. simpl. by destruct answers, (bool_decide _).
  - split; [done|]. simpl. destruct (bool_decide (scanner_held p = [])) eqn:E1; [|done].
    destruct (bool_decide (peek_held sc' = [])) eqn:E2; simpl; [|done].
    apply bool_decide_eq_true in E1, E2. by rewrite E1, <- E2.
Qed.

Lemma send_inv budget p r msg :
  stream_inv budget p → pending (rd p) = option_list msg → pending r = [] → held r = held (rd p) →
  (∀ q : PaneStream P, scanner_held q = scanner_held p → reader_ok (set_rd q r)) →
  stream_inv budget (set_rd (match msg with Some m => send p m | None => p end) r).
Proof.
  intros [] Hp Hr Hh Hok. rewrite Hp in si_sent0.
  destruct msg as [m|]; (split; simpl in *; [done..| | | |done|done]);
    first [by rewrite Hr, ?app_nil_r, <- si_sent0, ?app_nil_r|by rewrite Hh|by apply Hok].
Qed.

Lemma pstep_inv budget vd p p' : pstep vd p p' → stream_inv budget p → stream_inv budget p'.
Proof.
  intros Hstep Hinv. pose proof (si_reader _ _ Hinv) as Hok. unfold reader_ok in Hok.
  destruct Hstep as [p p' Hrd _ Hs|p sc chunk Hrd _ _ _|p p' sc chunk next answers Hrd Hp|p sc msg Hrd|p sc Hrd _
    |p sc Hrd|p msg Hrd|p code pend Hrd|p data Hrd|p ex msg Hrd|p Hrd _|p pend frozen].
  - by eapply start_inv.
  - rewrite Hrd in Hok. destruct Hinv. split; simpl; rewrite ?Hrd in *; simpl in *; try done. by destruct Hok.
  - by eapply read_publish_inv.
  - rewrite Hrd in Hok. apply send_inv; rewrite ?Hrd; try done. intros q Hq. unfold reader_ok. simpl. by rewrite Hq.
  - rewrite Hrd in Hok. destruct Hinv. split; simpl; rewrite ?Hrd in *; simpl in *; done.
  - unfold release_rest. destruct sc as [pp [ts ng ix b c0 rm] hd]. simpl.
    destruct (bool_decide_reflect (hd = [])) as [->|Hne].
    + destruct Hinv. split; simpl; rewrite ?Hrd in *; simpl in *; done.
    + eapply (publish_inv budget p _ []); try done; rewrite ?Hrd; try done; simpl; by rewrite ?app_nil_r.
  - apply (send_inv budget p RExit (Some msg)); by rewrite ?Hrd.
  - unfold record_exit. destruct Hinv. destruct Hrd as [Hrd|[msg Hrd]]; rewrite Hrd in *; split; simpl in *; done.
  - destruct Hrd as [Hrd|Hrd]; (eapply (publish_inv budget p _ data); try done; rewrite ?Hrd; try done; simpl; by rewrite ?app_nil_r).
  - apply (send_inv budget p (if ex then RExit else RNone) (Some msg)); rewrite ?Hrd; by destruct ex.
  - destruct Hinv. split; simpl; rewrite ?Hrd in *; simpl in *; done.
  - destruct Hinv. by split.
Qed.

End Inv.
