(* ===== verification/Attach.v ===== *)
(** * Attaching to a pane ([attach] of [crates/tymuxd/src/main.rs])

    One [Client] per open [Attach] stream, next to the pane it is attached to. The phases of
    a client are the places where its task can be interleaved with the reader thread and with
    other clients: after subscribing, after registering, between a refused replay and the
    snapshot that follows it, before it goes live, and in the forwarding loops. Each step is
    the code between two such places.

    The broadcast channel is known by its documented behaviour only: a receiver is given, in
    order, the messages sent since it subscribed, or told that it lagged and how many messages
    were dropped for it. Which of the two happens is left open, so what is proved holds for
    every capacity. *)

From S2P Require Import Prelude ReplayBuffer TermQuery Scanner Clients PaneStream.

(** ** Data *)

(** A snapshot event carries the screen, here the bytes the screen was fed. *)
Inductive AttachEvent :=
| EvSnapshot (screen : list byte)
| EvGapExceeded (oldest_available_seq : Z)
| EvOutput (data : list byte)
| EvOutputChunk (seq : Z) (data : list byte)
| EvOutputGap
| EvLifecycle
| EvHeartbeat
| EvExited (code : option Z).

Inductive RecvError := Lagged (n : Z) | Closed.

Inductive ForwardStep := Emit (ev : AttachEvent) | Skip | End.

Definition forward_step_for_output_result (r : result (Z * list byte) RecvError) (threshold_seq : Z)
    (emit_output_chunk : bool) : ForwardStep :=
  match r with
  | Ok (seq, bytes) =>
      if seq <=? threshold_seq then Skip
      else if emit_output_chunk then Emit (EvOutputChunk seq bytes)
      else Emit (EvOutput bytes)
  | Err (Lagged _) => Emit EvOutputGap
  | Err Closed => End
  end.

(** Where an attach stands. In [CPoll] the forwarding loop is about to poll the channel; in
    [CIdle] it found it empty and goes on to the other branches of the [select!]. *)
Inductive cphase := CSubscribed | CRegistered | CGap | CPrimed | CBacklog | CPoll | CIdle | CEnded.

#[global] Instance cphase_eq_dec : EqDecision cphase.
Proof. solve_decision. Defined.

(** [cl_slot] is the client's [LiveClient]; [cl_pos] the position of its receiver;
    [cl_backlog] the replay chunks still to send; [cl_out] everything sent to the client.
    [cl_lagged] is the last value given to [set_lagged]. *)
Record Client := mkClient {
  cl_resume : option Z;
  cl_slot : positive;
  cl_pos : nat;
  cl_phase : cphase;
  cl_threshold : Z;
  cl_chunks : bool;
  cl_backlog : list (Z * list byte);
  cl_out : list AttachEvent;
  cl_lagged : bool;
}.

Definition set_phase (c : Client) (ph : cphase) : Client :=
  mkClient (cl_resume c) (cl_slot c) (cl_pos c) ph (cl_threshold c) (cl_chunks c) (cl_backlog c) (cl_out c) (cl_lagged c).

Definition emit (c : Client) (evs : list AttachEvent) : Client :=
  mkClient (cl_resume c) (cl_slot c) (cl_pos c) (cl_phase c) (cl_threshold c) (cl_chunks c) (cl_backlog c)
    (cl_out c ++ evs) (cl_lagged c).

(** The tuple the priming match returns, with the events that precede the live loop. *)
Definition primed (c : Client) (evs : list AttachEvent) (threshold : Z) (chunks : bool)
    (backlog : list (Z * list byte)) : Client :=
  mkClient (cl_resume c) (cl_slot c) (cl_pos c) CPrimed threshold chunks backlog (cl_out c ++ evs) (cl_lagged c).

Section Attach.
Context `{!Memchr} {P : Type} `{!VteParser P}.
Implicit Types (p : PaneStream P).

(** ** Opening the stream *)

(** [pane.subscribe()]: the receiver starts at the messages sent from now on. *)
Definition subscribe (p : PaneStream P) (resume_from_seq : option Z) : Client :=
  mkClient resume_from_seq 1 (length (output_tx p)) CSubscribed 0 false [] [] false.

Definition register_live_client (p : PaneStream P) (c : Client) : PaneStream P * Client :=
  let '(slot, r) := register (clients p) in
  (set_clients p r,
   mkClient (cl_resume c) slot (cl_pos c) CRegistered (cl_threshold c) (cl_chunks c) (cl_backlog c) (cl_out c) (cl_lagged c)).

(** The resume branch: a retained window becomes the backlog; otherwise the gap is reported
    and a snapshot follows. *)
Definition prime_resume (p : PaneStream P) (c : Client) (seq : Z) : Client :=
  match replay_since p seq with
  | InWindow chunks tail_seq => primed c [] tail_seq true chunks
  | GapExceeded oldest => set_phase (emit c [EvGapExceeded (default 0 oldest)]) CGap
  end.

(** The snapshot branches: [chunks] is whether the client asked to resume. *)
Definition prime_snapshot (p : PaneStream P) (c : Client) (chunks : bool) : Client :=
  let '(screen, seq) := snapshot_with_seq p in
  primed c [EvSnapshot screen] seq chunks [].

Definition client_go_live (p : PaneStream P) (c : Client) : PaneStream P * Client :=
  (set_clients p (go_live_after (clients p) (cl_slot c) (cl_threshold c)),
   set_phase c (if bool_decide (cl_backlog c = []) then CPoll else CBacklog)).

(** ** Forwarding *)

(** One iteration of the loop that sends the backlog. *)
Definition drain_backlog (c : Client) : Client :=
  match cl_backlog c with
  | [] => set_phase c CPoll
  | (seq, data) :: rest =>
      mkClient (cl_resume c) (cl_slot c) (cl_pos c) (if bool_decide (rest = []) then CPoll else CBacklog)
        (cl_threshold c) (cl_chunks c) rest (cl_out c ++ [EvOutputChunk seq data]) (cl_lagged c)
  end.

(** The [output_rx.recv()] branch: the answering flag, then the forwarding step. [taken] is
    how many messages the receiver moved past. *)
Definition on_recv (p : PaneStream P) (c : Client) (r : result (Z * list byte) RecvError) (taken : nat) :
    PaneStream P * Client :=
  let '(p, lagged) :=
    match r with
    | Err (Lagged _) => (set_clients p (set_lagged (clients p) (cl_slot c) true), true)
    | Ok _ => (set_clients p (set_lagged (clients p) (cl_slot c) false), false)
    | Err Closed => (p, cl_lagged c)
    end in
  let c := mkClient (cl_resume c) (cl_slot c) (cl_pos c + taken) CPoll (cl_threshold c) (cl_chunks c)
             (cl_backlog c) (cl_out c) lagged in
  match forward_step_for_output_result r (cl_threshold c) (cl_chunks c) with
  | Emit ev => (p, emit c [ev])
  | Skip => (p, c)
  | End => (set_clients p (drop_client (clients p) (cl_slot c)), set_phase c CEnded)
  end.

(** The exit branch: the terminal event, and the stream ends. *)
Definition client_exit (p : PaneStream P) (c : Client) : PaneStream P * Client :=
  (set_clients p (drop_client (clients p) (cl_slot c)), set_phase (emit c [EvExited (exit_code p)]) CEnded).

(** The client is gone: the next send fails and the task returns, which drops its handle (an
    attach that never registered has none). *)
Definition client_gone (p : PaneStream P) (c : Client) : PaneStream P :=
  match cl_phase c with
  | CSubscribed | CEnded => p
  | _ => set_clients p (drop_client (clients p) (cl_slot c))
  end.

(** ** The system *)

Record Sys := mkSys { pane : PaneStream P; attached : gmap nat Client }.

Definition sys_new (budget : Z) : Sys := mkSys (pane_new budget) ∅.

Definition final_exit (p : PaneStream P) : bool := exited p && negb (restart_pending p).

(** A step of client [c] of the pane [p]. *)
Inductive cstep (p : PaneStream P) (c : Client) : PaneStream P → Client → Prop :=
| C_register : cl_phase c = CSubscribed →
    cstep p c (fst (register_live_client p c)) (snd (register_live_client p c))
| C_resume seq : cl_phase c = CRegistered → cl_resume c = Some seq → cstep p c p (prime_resume p c seq)
| C_gap_snapshot : cl_phase c = CGap → parser_locked p = false → cstep p c p (prime_snapshot p c true)
| C_snapshot : cl_phase c = CRegistered → cl_resume c = None → parser_locked p = false →
    cstep p c p (prime_snapshot p c false)
| C_live : cl_phase c = CPrimed → cstep p c (fst (client_go_live p c)) (snd (client_go_live p c))
| C_drain : cl_phase c = CBacklog → cstep p c p (drain_backlog c)
| C_recv msg : cl_phase c = CPoll → output_tx p !! cl_pos c = Some msg →
    cstep p c (fst (on_recv p c (Ok msg) 1)) (snd (on_recv p c (Ok msg) 1))
| C_lagged n : cl_phase c = CPoll → (0 < n)%nat → (cl_pos c + n ≤ length (output_tx p))%nat →
    cstep p c (fst (on_recv p c (Err (Lagged (Z.of_nat n))) n)) (snd (on_recv p c (Err (Lagged (Z.of_nat n))) n))
| C_empty : cl_phase c = CPoll → cl_pos c = length (output_tx p) → cstep p c p (set_phase c CIdle)
| C_wake : cl_phase c = CIdle → cstep p c p (set_phase c CPoll)
| C_aux ev : cl_phase c = CIdle → (ev = EvHeartbeat ∨ ev = EvLifecycle) → cstep p c p (set_phase (emit c [ev]) CPoll)
| C_exit : cl_phase c = CIdle ∨ cl_phase c = CBacklog → final_exit p = true →
    cstep p c (fst (client_exit p c)) (snd (client_exit p c)).

Inductive sstep (vte_default : P) : Sys → Sys → Prop :=
| S_pane s p' : pstep vte_default (pane s) p' → sstep vte_default s (mkSys p' (attached s))
| S_open s i resume : attached s !! i = None →
    sstep vte_default s (mkSys (pane s) (<[i := subscribe (pane s) resume]> (attached s)))
| S_client s i c p' c' : attached s !! i = Some c → cstep (pane s) c p' c' →
    sstep vte_default s (mkSys p' (<[i := c']> (attached s)))
| S_gone s i c : attached s !! i = Some c →
    sstep vte_default s (mkSys (client_gone (pane s) c) (delete i (attached s))).

Definition reachable (vte_default : P) (budget : Z) (s : Sys) : Prop := rtc (sstep vte_default) (sys_new budget) s.

End Attach.
Arguments Sys P : clear implicits.

(** ** What a client was sent *)

(** The events that stand for output: the chunks, and the mark of a gap. *)
Definition is_stream (ev : AttachEvent) : bool :=
  match ev with EvOutput _ | EvOutputChunk _ _ | EvOutputGap => true | _ => false end.
Definition stream_events (evs : list AttachEvent) : list AttachEvent := filter (λ ev, is_stream ev = true) evs.

Definition chunk_ev (chunks : bool) (m : Z * list byte) : AttachEvent :=
  if chunks then EvOutputChunk (fst m) (snd m) else EvOutput (snd m).

(** Events that forward a run of messages in order, each whole and once, where every hole
    stands at an [OutputGap] in its place. *)
Inductive forwarded (chunks : bool) : list AttachEvent → list (Z * list byte) → Prop :=
| F_nil : forwarded chunks [] []
| F_chunk m evs msgs : forwarded chunks evs msgs → forwarded chunks (chunk_ev chunks m :: evs) (m :: msgs)
| F_gap lost evs msgs : forwarded chunks evs msgs → forwarded chunks (EvOutputGap :: evs) (lost ++ msgs).

Lemma forwarded_join chunks e1 m1 e2 m2 : forwarded chunks e1 m1 → forwarded chunks e2 m2 → forwarded chunks (e1 ++ e2) (m1 ++ m2).
Proof. intros H1 H2. induction H1; simpl; [done|by constructor|]. rewrite <- app_assoc. by constructor. Qed.

(** Without a gap, all of it. *)
Lemma forwarded_all chunks evs msgs : forwarded chunks evs msgs → EvOutputGap ∉ evs → evs = chunk_ev chunks <$> msgs.
Proof. induction 1 as [|m evs msgs _ IH|]; [done|..]; intros Hg; [|set_solver]. simpl. f_equal. apply IH. set_solver. Qed.

(** The screen the client was primed with, if it was. *)
Definition snapshot_of (evs : list AttachEvent) : option (list byte) :=
  head (omap (λ ev, match ev with EvSnapshot s => Some s | _ => None end) evs).

(** What the client asked to have replayed, of the complete log. *)
Definition missed (c : Client) (log : list (Z * list byte)) : list (Z * list byte) :=
  match snapshot_of (cl_out c), cl_resume c with
  | None, Some r => filter (λ e, r < fst e ∧ fst e ≤ cl_threshold c) log
  | _, _ => []
  end.

(** The messages a receiver at [pos] has been past that are newer than the priming. *)
Definition live_part (c : Client) (tx : list (Z * list byte)) : list (Z * list byte) :=
  filter (λ m, cl_threshold c < fst m) (take (cl_pos c) tx).

Definition covered (t : Z) (hs : list Chunk) : list byte := concat (h_raw <$> filter (λ h, h_seq h ≤ t) hs).

Section Inv.
Context `{!Memchr} {P : Type} `{!VteParser P}.
Implicit Types (p : PaneStream P) (s : Sys P) (vd : P).

(** ** Steps only extend the stream *)

Record extends (p p' : PaneStream P) : Prop := {
  ex_seq : output_seq p ≤ output_seq p';
  ex_hist : ∃ hs, hist p' = hist p ++ hs ∧ Forall (λ h, output_seq p < h_seq h) hs;
  ex_tx : output_tx p `prefix_of` output_tx p';
  ex_fed : fed p `prefix_of` fed p';
}.

Lemma extends_same p p' :
  output_seq p' = output_seq p → hist p' = hist p → output_tx p' = output_tx p → fed p' = fed p → extends p p'.
Proof.
  intros Hs Hh Ht Hf. split; rewrite ?Hs, ?Ht, ?Hf; try done. exists []. by rewrite app_nil_r.
Qed.

Lemma pstep_extends vd p p' budget :
  stream_inv budget p → pstep vd p p' → extends p p' ∧ clients p' = clients p.
Proof.
  intros Hinv Hstep. pose proof (si_reader _ _ Hinv) as Hok. unfold reader_ok in Hok.
  destruct Hstep as [p p' Hrd _ Hs|p sc chunk Hrd _ _ _|p p' sc chunk next answers Hrd Hp|p sc msg Hrd|p sc Hrd _
    |p sc Hrd|p msg Hrd|p code pend Hrd|p data Hrd|p ex msg Hrd|p Hrd _|p pend frozen];
    try (split; [by apply extends_same|done]).
  - unfold start_reader in Hs. destruct (feed _ _) as [[??]|]; [|done]. injection Hs as <-.
    split; [by apply extends_same|done].
  - rewrite Hrd in Hok. destruct Hok as (_ & _ & -> & _). unfold read_publish in Hp.
    destruct (feed _ _) as [[??]|]; [|done]. injection Hp as <-. split; [|done].
    split; simpl; [lia| |done|by apply prefix_app_r]. eexists. split; [done|]. repeat constructor. simpl. lia.
  - split; [|by destruct msg]. destruct msg; simpl; [|by apply extends_same].
    split; simpl; [lia| |by apply prefix_app_r|done]. exists []. by rewrite app_nil_r.
  - unfold release_rest. destruct (bool_decide _); (split; [|done]); [by apply extends_same|].
    split; simpl; [lia| |done|done]. eexists. split; [done|]. repeat constructor. simpl. lia.
  - split; [|done]. split; simpl; [lia| |by apply prefix_app_r|done]. exists []. by rewrite app_nil_r.
  - split; [|done]. split; simpl; [lia| |done|by apply prefix_app_r]. eexists. split; [done|].
    repeat constructor. simpl. lia.
  - split; [|done]. split; simpl; [lia| |by apply prefix_app_r|done]. exists []. by rewrite app_nil_r.
Qed.

(** ** The invariant of a client *)

Definition log (p : PaneStream P) : list (Z * list byte) := replay_entry <$> hist p.

(** What was sent: of the replay what the backlog does not still hold, and then, the backlog
    done, the messages the receiver has been past. *)
Definition sent (p : PaneStream P) (c : Client) : Prop :=
  ∃ replayed live, stream_events (cl_out c) = (chunk_ev true <$> replayed) ++ live ∧
    missed c (log p) = replayed ++ cl_backlog c ∧ (cl_backlog c ≠ [] → live = []) ∧
    forwarded (cl_chunks c) live (live_part c (output_tx p)).

Record delivery (p : PaneStream P) (c : Client) : Prop := {
  dl_threshold : cl_threshold c ≤ output_seq p;
  dl_chunks : cl_chunks c = bool_decide (is_Some (cl_resume c));
  dl_sent : sent p c;
  dl_snapshot screen : snapshot_of (cl_out c) = Some screen →
    screen `prefix_of` fed p ∧
    ∃ tail, screen = covered (cl_threshold c) (hist p) ++ tail ∧ Z.of_nat (length tail) ≤ MAX_HELD;
  dl_replay : snapshot_of (cl_out c) = None → is_Some (cl_resume c);
}.

Record client_inv (p : PaneStream P) (c : Client) : Prop := {
  ci_pos : (cl_pos c ≤ length (output_tx p))%nat;
  ci_phase : match cl_phase c with
             | CSubscribed | CRegistered => cl_out c = [] ∧ cl_backlog c = [] ∧ cl_lagged c = false
             | CGap => (∃ o, cl_out c = [EvGapExceeded o]) ∧ cl_backlog c = [] ∧ cl_lagged c = false ∧ is_Some (cl_resume c)
             | CPrimed => delivery p c ∧ cl_lagged c = false
             | CBacklog | CEnded => delivery p c
             | CPoll | CIdle => delivery p c ∧ cl_backlog c = []
             end;
}.

Lemma stream_events_app l k : stream_events (l ++ k) = stream_events l ++ stream_events k.
Proof. apply filter_app. Qed.

Lemma snapshot_of_app l k :
  snapshot_of (l ++ k) = match snapshot_of l with Some x => Some x | None => snapshot_of k end.
Proof. unfold snapshot_of. rewrite omap_app. by destruct (omap _ l). Qed.

(** Events that are no snapshots leave the priming as it was. *)
Lemma missed_emit c c' evs lg :
  cl_out c' = cl_out c ++ evs → snapshot_of evs = None → cl_resume c' = cl_resume c →
  cl_threshold c' = cl_threshold c → missed c' lg = missed c lg.
Proof.
  intros Ho Hs Hr Ht. unfold missed. rewrite Ho, Hr, Ht, snapshot_of_app, Hs. by destruct (snapshot_of (cl_out c)).
Qed.

Lemma filter_old {A} (Q : A → Prop) `{!∀ x, Decision (Q x)} (l k : list A) :
  Forall (λ x, ¬ Q x) k → filter Q (l ++ k) = filter Q l.
Proof.
  intros Hk. rewrite filter_app. replace (filter Q k) with (@nil A); [by rewrite app_nil_r|].
  induction Hk as [|x k Hx _ IH]; [done|]. by rewrite filter_cons_False.
Qed.

Lemma filter_all {A} (Q : A → Prop) `{!∀ x, Decision (Q x)} (l : list A) : Forall Q l → filter Q l = l.
Proof. induction 1 as [|x l Hx _ IH]; [done|]. by rewrite filter_cons_True, IH. Qed.

Lemma delivery_extends p p' c :
  extends p p' → (cl_pos c ≤ length (output_tx p))%nat → delivery p c → delivery p' c.
Proof.
  intros [Hseq [hs [Hh Hnew]] [tx Htx] [fd Hfd]] Hpos [Ht Hck (rp & lv & Hs1 & Hs2 & Hs3 & Hs4) Hsn Hrep].
  assert (Hmissed : missed c (log p') = missed c (log p)).
  { unfold missed, log. rewrite Hh, fmap_app. destruct (snapshot_of _); [done|]. destruct (cl_resume c); [|done].
    apply filter_old. apply Forall_fmap. eapply Forall_impl; [exact Hnew|]. simpl. lia. }
  assert (Hlive : live_part c (output_tx p') = live_part c (output_tx p)) by (unfold live_part; by rewrite Htx, take_app_le by done).
  split; try done; [lia| |].
  - exists rp, lv. by rewrite Hmissed, Hlive.
  - intros screen Hs. destruct (Hsn _ Hs) as [Hpre (tail & Htail & Hlen)]. split.
    + rewrite Hfd. by apply prefix_app_r.
    + exists tail. split; [|done]. rewrite Htail. f_equal. unfold covered. rewrite Hh.
      rewrite filter_old; [done|]. eapply Forall_impl; [exact Hnew|]. simpl. lia.
Qed.

Lemma client_extends p p' c : extends p p' → client_inv p c → client_inv p' c.
Proof.
  intros He [Hpos Hph]. assert (Hpos' : (cl_pos c ≤ length (output_tx p'))%nat).
  { destruct (ex_tx _ _ He) as [tx ->]. rewrite length_app. lia. }
  split; [done|]. destruct (cl_phase c); try done; try (destruct Hph as [Hd ?]; split; [|done]);
    by eapply delivery_extends.
Qed.

(** Emitting events that are no output, no snapshot and no gap changes nothing of what was
    sent. *)
Lemma delivery_quiet p c c' evs :
  delivery p c → cl_out c' = cl_out c ++ evs → stream_events evs = [] → snapshot_of evs = None →
  cl_resume c' = cl_resume c → cl_threshold c' = cl_threshold c → cl_chunks c' = cl_chunks c →
  cl_backlog c' = cl_backlog c → cl_pos c' = cl_pos c → delivery p c'.
Proof.
  intros [Ht Hck (rp & lv & Hs1 & Hs2 & Hs3 & Hs4) Hsn Hrep] Ho Hev Hse Hr Hth Hc Hb Hp.
  assert (Hsnap : snapshot_of (cl_out c') = snapshot_of (cl_out c)).
  { rewrite Ho, snapshot_of_app, Hse. by destruct (snapshot_of (cl_out c)). }
  split; rewrite ?Hsnap, ?Hth, ?Hr; try done; [congruence|]. exists rp, lv.
  rewrite Ho, stream_events_app, Hev, app_nil_r, Hb, (missed_emit c c' evs) by done. unfold live_part. rewrite Hc, Hp, Hth. done.
Qed.

(** ** Priming *)

Lemma hist_seqs budget p : stream_inv budget p → Forall (λ h, 1 ≤ h_seq h ≤ output_seq p) (hist p).
Proof.
  intros [Hseq Hc]. apply Forall_forall. intros h Hh.
  apply (Replay.consecutive_range 1 _ (replay_entry h)) in Hc; [|by apply list_elem_of_fmap_2].
  rewrite length_fmap in Hc. simpl in Hc. lia.
Qed.

Lemma tx_seqs budget p : stream_inv budget p → Forall (λ m, fst m ≤ output_seq p) (output_tx p).
Proof.
  intros Hinv. pose proof (hist_seqs _ _ Hinv) as Hs. apply Forall_forall. intros m Hm.
  assert (Hin : m ∈ omap bcast (hist p)) by (rewrite <- (si_sent _ _ Hinv); set_solver).
  apply list_elem_of_omap in Hin as (h & Hh & Hb). rewrite Forall_forall in Hs. apply Hs in Hh.
  unfold bcast in Hb. repeat case_match; simplify_eq; simpl; lia.
Qed.

Lemma live_none budget p c : stream_inv budget p → cl_threshold c = output_seq p → live_part c (output_tx p) = [].
Proof.
  intros Hinv Ht. unfold live_part. rewrite <- (app_nil_l (take _ _)), filter_old; [done|].
  apply Forall_take. eapply Forall_impl; [by apply (tx_seqs _ _ Hinv)|]. simpl. lia.
Qed.

Lemma replay_since_log budget p r ch t :
  stream_inv budget p → replay_since p r = InWindow ch t →
  t = output_seq p ∧ ch = filter (λ e, r < fst e ∧ fst e ≤ t) (log p).
Proof.
  intros Hinv. unfold replay_since. rewrite (si_replay _ _ Hinv), Replay.run_retain.
  unfold Replay.replay_since, Replay.oldest_seq. simpl.
  destruct (output_seq p <? r); [done|].
  destruct (default _ _ <=? r) eqn:Hle; [|done]. intros [= <- <-]. split; [done|].
  destruct (Replay.retain budget (replay_entry <$> hist p)) as [|first rest] eqn:E.
  - assert (Hnil : log p = []).
    { destruct (log p) as [|e l] eqn:El; [done|]. unfold log in El. rewrite El in E.
      by apply (Replay.retain_nonempty budget) in E. }
    by rewrite Hnil.
  - rewrite <- E. simpl in Hle. b2p. unfold log.
    eapply (Replay.replay_filter 1); [by apply Hinv|by rewrite E|done].
Qed.

Lemma prime_resume_inv budget p c r :
  stream_inv budget p → client_inv p c → cl_phase c = CRegistered → cl_resume c = Some r →
  client_inv p (prime_resume p c r).
Proof.
  intros Hinv [Hpos Hph] Hp Hr. rewrite Hp in Hph. destruct Hph as (Ho & Hb & Hl).
  unfold prime_resume. destruct (replay_since p r) as [ch t|o] eqn:E.
  - destruct (replay_since_log _ _ _ _ _ Hinv E) as [Ht Hch].
    assert (Hs : sent p (primed c [] t true ch)).
    { exists [], []. rewrite (live_none budget) by done. unfold missed. simpl. rewrite Ho, Hr, Hch. simpl.
      split; [done|]. split; [done|]. split; [done|constructor]. }
    split; [done|]. simpl. split; [|done]. split; simpl; rewrite ?Hr, ?Ho; try done. lia.
  - split; [done|]. simpl. rewrite Ho, Hr. eauto.
Qed.

Lemma held_bound budget p : stream_inv budget p → Z.of_nat (length (held (rd p))) ≤ MAX_HELD.
Proof.
  intros Hinv. pose proof (si_reader _ _ Hinv) as Hok. unfold reader_ok in Hok.
  destruct (rd p); simpl; try done; by destruct Hok as [[? _] _].
Qed.

Lemma prime_snapshot_inv budget p c ck :
  stream_inv budget p → client_inv p c →
  cl_phase c = CRegistered ∧ cl_resume c = None ∧ ck = false ∨ cl_phase c = CGap ∧ ck = true →
  client_inv p (prime_snapshot p c ck).
Proof.
  intros Hinv [Hpos Hph] Hcase. unfold prime_snapshot, snapshot_with_seq.
  assert (Hf : stream_events (cl_out c) = [] ∧ snapshot_of (cl_out c) = None ∧ cl_lagged c = false ∧
    ck = bool_decide (is_Some (cl_resume c))).
  { destruct Hcase as [(Hp & Hr & ->)|[Hp ->]]; rewrite Hp in Hph.
    - destruct Hph as (-> & _ & ?). by rewrite Hr.
    - destruct Hph as ([o ->] & _ & ? & [r ->]). done. }
  destruct Hf as (Hout & Hsn & Hl & ->).
  assert (Hs : sent p (primed c [EvSnapshot (fed p)] (output_seq p) (bool_decide (is_Some (cl_resume c))) [])).
  { exists [], []. rewrite (live_none budget) by done. unfold missed. simpl.
    rewrite stream_events_app, Hout, snapshot_of_app, Hsn. split; [done|]. split; [done|]. split; [done|constructor]. }
  split; [done|]. simpl. split; [|done].
  split; simpl; rewrite ?snapshot_of_app, ?Hsn; simpl; try done.
  intros screen [= <-]. split; [done|]. exists (held (rd p)). split; [|by eapply held_bound].
  rewrite (si_fed _ _ Hinv). f_equal. unfold covered. f_equal. f_equal. symmetry. apply filter_all.
  eapply Forall_impl; [by apply (hist_seqs budget)|]. simpl. lia.
Qed.

(** ** Forwarding *)

Lemma drain_inv p c : client_inv p c → cl_phase c = CBacklog → client_inv p (drain_backlog c).
Proof.
  intros [Hpos Hph] Hp. rewrite Hp in Hph. unfold drain_backlog. destruct (cl_backlog c) as [|[q d] rest] eqn:Hb.
  { split; [done|]. simpl. split; [|done]. by apply (delivery_quiet p c _ []); rewrite ?app_nil_r. }
  set (c' := mkClient _ _ _ _ _ _ _ _ _).
  assert (Hsnap : snapshot_of (cl_out c') = snapshot_of (cl_out c)).
  { simpl. rewrite snapshot_of_app. by destruct (snapshot_of (cl_out c)). }
  assert (Hd : delivery p c').
  { destruct Hph as [Ht Hck (rp & lv & Hs1 & Hs2 & Hs3 & Hs4) Hsn Hrep]. split; rewrite ?Hsnap; try done.
    rewrite Hb in Hs2, Hs3. rewrite Hs3 in Hs1, Hs4 by done. rewrite app_nil_r in Hs1.
    exists (rp ++ [(q, d)]), []. rewrite (missed_emit c c' [EvOutputChunk q d]), Hs2 by done. simpl.
    rewrite stream_events_app, Hs1, fmap_app, <- app_assoc, app_nil_r. split; [done|]. by rewrite <- app_assoc. }
  split; [done|]. unfold c' at 1. cbn [cl_phase]. destruct (bool_decide_reflect (rest = [])); [by split|done].
Qed.

(** Moving the receiver past [n] messages and emitting [evs] for them. *)
Lemma delivery_advance p c c' evs n msgs :
  delivery p c → cl_backlog c = [] → cl_backlog c' = [] → cl_out c' = cl_out c ++ evs → snapshot_of evs = None →
  cl_resume c' = cl_resume c → cl_threshold c' = cl_threshold c → cl_chunks c' = cl_chunks c →
  cl_pos c' = (cl_pos c + n)%nat → take n (drop (cl_pos c) (output_tx p)) = msgs →
  forwarded (cl_chunks c) (stream_events evs) (filter (λ m, cl_threshold c < fst m) msgs) → delivery p c'.
Proof.
  intros [Ht Hck (rp & lv & Hs1 & Hs2 & _ & Hs4) Hsn Hrep] Hb Hb' Ho Hse Hr Hth Hc Hp Hmsgs Hev.
  assert (Hsnap : snapshot_of (cl_out c') = snapshot_of (cl_out c)).
  { rewrite Ho, snapshot_of_app, Hse. by destruct (snapshot_of (cl_out c)). }
  split; rewrite ?Hsnap, ?Hth, ?Hr; try done; [congruence|]. exists rp, (lv ++ stream_events evs).
  rewrite Ho, stream_events_app, Hs1, app_assoc, (missed_emit c c' evs), Hs2, Hb, Hb' by done. split; [done|]. split; [done|]. split; [done|].
  rewrite Hc. replace (live_part c' (output_tx p)) with (live_part c (output_tx p) ++ filter (λ m, cl_threshold c < fst m) msgs);
    [by apply forwarded_join|].
  unfold live_part. by rewrite Hp, Hth, <- filter_app, <- Hmsgs, <- take_take_drop.
Qed.

Lemma recv_inv p c msg :
  client_inv p c → cl_phase c = CPoll → output_tx p !! cl_pos c = Some msg →
  client_inv p (snd (on_recv p c (Ok msg) 1)).
Proof.
  intros [Hpos Hph] Hp Hm. rewrite Hp in Hph. destruct Hph as [Hd Hb].
  assert (Hlt : (cl_pos c + 1 ≤ length (output_tx p))%nat) by (apply lookup_lt_Some in Hm; lia).
  assert (Htake : take 1 (drop (cl_pos c) (output_tx p)) = [msg]).
  { by rewrite (drop_S _ _ _ Hm). }
  destruct msg as [q d]. unfold on_recv. simpl.
  destruct (Z.leb_spec q (cl_threshold c)).
  - split; [done|]. simpl. split; [|done].
    eapply (delivery_advance p c _ [] 1); rewrite ?app_nil_r; try done.
    rewrite filter_cons_False by (simpl; lia). constructor.
  - destruct (cl_chunks c) eqn:Hck; (split; [done|]); simpl; (split; [|done]);
      (eapply (delivery_advance p c _ [_] 1); try done; rewrite Hck, filter_cons_True by (simpl; lia); exact (F_chunk _ (q, d) [] [] (F_nil _))).
Qed.

Lemma lagged_inv p c n :
  client_inv p c → cl_phase c = CPoll → (cl_pos c + n ≤ length (output_tx p))%nat →
  client_inv p (snd (on_recv p c (Err (Lagged (Z.of_nat n))) n)).
Proof.
  intros [Hpos Hph] Hp Hn. rewrite Hp in Hph. destruct Hph as [Hd Hb]. unfold on_recv. simpl.
  split; [done|]. simpl. split; [|done]. eapply (delivery_advance p c _ [EvOutputGap] n); try done.
  rewrite <- (app_nil_r (filter _ _)). apply F_gap, F_nil.
Qed.

(** ** Clients and the registry *)

Definition has_slot (c : Client) : bool := match cl_phase c with CSubscribed | CEnded => false | _ => true end.

(** What the client's slot holds. *)
Definition slot_of (c : Client) : Slot :=
  match cl_phase c with
  | CRegistered | CGap | CPrimed => mkSlot u64_max true
  | _ => mkSlot (cl_threshold c) (negb (cl_lagged c))
  end.

Record linked (r : ClientRegistry) (cs : gmap nat Client) : Prop := {
  lk_registry : registry_inv r;
  lk_slot i c : cs !! i = Some c → has_slot c = true → slots_alive r !! cl_slot c = Some (slot_of c);
  lk_owner sl : is_Some (slots_alive r !! sl) → ∃ i c, cs !! i = Some c ∧ has_slot c = true ∧ cl_slot c = sl;
  lk_inj i j c d : cs !! i = Some c → cs !! j = Some d → has_slot c = true → has_slot d = true →
    cl_slot c = cl_slot d → i = j;
}.

(** One client's own slot changes; the others' do not. *)
Lemma linked_update r r' cs i c c' f :
  linked r cs → cs !! i = Some c → has_slot c = true → has_slot c' = true → cl_slot c' = cl_slot c →
  registry_inv r' → slots_alive r' = alter f (cl_slot c) (slots_alive r) → slot_of c' = f (slot_of c) →
  linked r' (<[i := c']> cs).
Proof.
  intros [Hri Hsl Hown Hinj] Hi Hc Hc' Hs Hr' Hal Hf. split; [done|..].
  - intros j d [[<- <-]|[Hne Hj]]%lookup_insert_Some Hd; rewrite Hal.
    + rewrite Hs, lookup_alter_eq, (Hsl i c Hi Hc). simpl. by rewrite Hf.
    + rewrite lookup_alter_ne; [by eapply Hsl|]. intros E. apply Hne. by eapply Hinj.
  - intros sl. rewrite Hal, lookup_alter_is_Some. intros (j & d & Hj & Hd & Hsl')%Hown.
    destruct (decide (i = j)) as [<-|Hne].
    + exists i, c'. rewrite lookup_insert_eq. simplify_eq. eauto.
    + exists j, d. by rewrite lookup_insert_ne.
  - intros j k d e [[<- <-]|[Hne Hj]]%lookup_insert_Some [[<- <-]|[Hne' Hk]]%lookup_insert_Some Hd He E;
      [done|rewrite Hs in E; by eapply Hinj..|by eapply Hinj].
Qed.

Lemma linked_keep r cs i c c' :
  linked r cs → cs !! i = Some c → has_slot c = true → has_slot c' = true → cl_slot c' = cl_slot c →
  slot_of c' = slot_of c → linked r (<[i := c']> cs).
Proof.
  intros Hl Hi Hc Hc' Hs Hf. eapply (linked_update r r cs i c c' id); try done; [by apply Hl|].
  symmetry. apply alter_id. by intros ? _.
Qed.

(** A handle is dropped, and its client, if it stays, no longer counts as having one. *)
Lemma linked_drop r cs cs' i c :
  linked r cs → cs !! i = Some c → has_slot c = true →
  (∀ j, j ≠ i → cs' !! j = cs !! j) → (∀ c', cs' !! i = Some c' → has_slot c' = false) →
  linked (drop_client r (cl_slot c)) cs'.
Proof.
  intros [Hri Hsl Hown Hinj] Hi Hc Hother Hgone.
  assert (Hold : ∀ j d, cs' !! j = Some d → has_slot d = true → j ≠ i ∧ cs !! j = Some d).
  { intros j d Hj Hd. destruct (decide (j = i)) as [->|Hne]; [|by rewrite <- Hother].
    apply Hgone in Hj. congruence. }
  split; simpl.
  - by apply (apply_op_inv r (OpDrop (cl_slot c))).
  - intros j d Hj Hd. destruct (Hold j d Hj Hd) as [Hne Hj']. rewrite lookup_delete_ne; [by eapply Hsl|].
    intros E. apply Hne. symmetry. by eapply Hinj.
  - intros sl [Hne (j & d & Hj & Hd & Hsd)%Hown]%lookup_delete_is_Some. exists j, d.
    rewrite Hother; [done|]. intros ->. by simplify_eq.
  - intros j k d e Hj Hk Hd He E. apply Hold in Hj, Hk; try done. destruct Hj, Hk. by eapply Hinj.
Qed.

(** A client without a handle changes nothing. *)
Lemma linked_slotless r cs cs' i :
  linked r cs → (∀ c, cs !! i = Some c → has_slot c = false) →
  (∀ j, j ≠ i → cs' !! j = cs !! j) → (∀ c', cs' !! i = Some c' → has_slot c' = false) → linked r cs'.
Proof.
  intros [Hri Hsl Hown Hinj] Hi Hother Hgone.
  assert (Hold : ∀ j d, cs' !! j = Some d → has_slot d = true → cs !! j = Some d).
  { intros j d Hj Hd. destruct (decide (j = i)) as [->|Hne]; [|by rewrite <- Hother].
    apply Hgone in Hj. congruence. }
  split; [done|..].
  - intros j d Hj Hd. by eapply Hsl; [apply Hold|].
  - intros sl (j & d & Hj & Hd & Hsd)%Hown. exists j, d. rewrite Hother; [done|].
    intros ->. apply Hi in Hj. congruence.
  - intros j k d e Hj Hk Hd He. by eapply Hinj; eauto.
Qed.

Lemma linked_register r cs i c c' :
  linked r cs → cs !! i = Some c → has_slot c = false → cl_slot c' = next_slot r → cl_phase c' = CRegistered →
  linked (snd (register r)) (<[i := c']> cs).
Proof.
  intros [Hri Hsl Hown Hinj] Hi Hc Hs Hp.
  assert (Hfresh : ∀ j d, cs !! j = Some d → has_slot d = true → cl_slot d ≠ next_slot r).
  { intros j d Hj Hd E. pose proof (registry_inv_alive_fresh r (cl_slot d) Hri ltac:(eauto)). lia. }
  split; simpl.
  - by apply (apply_op_inv r OpRegister).
  - intros j d [[<- <-]|[Hne Hj]]%lookup_insert_Some Hd.
    + rewrite Hs, lookup_insert_eq. unfold slot_of. by rewrite Hp.
    + rewrite lookup_insert_ne; [by eapply Hsl|]. symmetry. by eapply Hfresh.
  - intros sl. destruct (decide (next_slot r = sl)) as [<-|Hne].
    + intros _. exists i, c'. rewrite lookup_insert_eq. unfold has_slot. by rewrite Hp.
    + rewrite lookup_insert_ne by done. intros (j & d & Hj & Hd & Hsd)%Hown. exists j, d.
      rewrite lookup_insert_ne; [done|]. intros <-. congruence.
  - intros j k d e [[<- <-]|[Hne Hj]]%lookup_insert_Some [[<- <-]|[Hne' Hk]]%lookup_insert_Some Hd He E; try done.
    + rewrite Hs in E. by destruct (Hfresh k e).
    + rewrite Hs in E. by destruct (Hfresh j d).
    + by eapply Hinj.
Qed.

(** ** The invariant of the system *)

Record sys_inv (budget : Z) (s : Sys P) : Prop := {
  sy_stream : stream_inv budget (pane s);
  sy_clients i c : attached s !! i = Some c → client_inv (pane s) c;
  sy_linked : linked (clients (pane s)) (attached s);
}.

Lemma stream_inv_clients budget p r : stream_inv budget p → stream_inv budget (set_clients p r).
Proof. by intros []. Qed.

Lemma client_inv_same p p' c :
  output_seq p' = output_seq p → hist p' = hist p → output_tx p' = output_tx p → fed p' = fed p →
  client_inv p c → client_inv p' c.
Proof. intros. eapply client_extends; [|done]. by apply extends_same. Qed.

(** A client's step touches of the pane only the registry. *)
Lemma cstep_pane p c p' c' : cstep p c p' c' → ∃ r, p' = set_clients p r.
Proof.
  destruct 1; try (by exists (clients p); destruct p); try by eexists.
  all: unfold on_recv; simpl; repeat case_match; by eexists.
Qed.

Lemma cstep_client budget p c p' c' :
  stream_inv budget p → client_inv p c → cstep p c p' c' → client_inv p c'.
Proof.
  intros Hst Hc Hstep.
  destruct Hstep as [Hp|r Hp Hr|Hp _|Hp Hr _|Hp|Hp|msg Hp Hm|n Hp _ Hn|Hp _|Hp|ev Hp Hev|Hp _].
  - destruct Hc as [Hpos Hph]. rewrite Hp in Hph. by split.
  - by eapply prime_resume_inv.
  - eapply prime_snapshot_inv; [done..|]. by right.
  - eapply prime_snapshot_inv; [done..|]. by left.
  - destruct Hc as [Hpos Hph]. rewrite Hp in Hph. destruct Hph as [Hd _].
    assert (Hd' : delivery p (snd (client_go_live p c))).
    { apply (delivery_quiet p c _ []); rewrite ?app_nil_r; done. }
    split; [done|]. simpl in *. destruct (bool_decide_reflect (cl_backlog c = [])); [by split|done].
  - by apply drain_inv.
  - by apply recv_inv.
  - by apply lagged_inv.
  - destruct Hc as [Hpos Hph]. rewrite Hp in Hph. destruct Hph as [Hd Hb]. split; [done|]. simpl. split; [|done].
    apply (delivery_quiet p c _ []); rewrite ?app_nil_r; done.
  - destruct Hc as [Hpos Hph]. rewrite Hp in Hph. destruct Hph as [Hd Hb]. split; [done|]. simpl. split; [|done].
    apply (delivery_quiet p c _ []); rewrite ?app_nil_r; done.
  - destruct Hc as [Hpos Hph]. rewrite Hp in Hph. destruct Hph as [Hd Hb]. split; [done|]. simpl. split; [|done].
    apply (delivery_quiet p c _ [ev]); destruct Hev as [-> | ->]; done.
  - destruct Hc as [Hpos Hph]. split; [done|]. simpl.
    assert (Hd : delivery p c) by (destruct Hp as [Hp|Hp]; rewrite Hp in Hph; [by destruct Hph|done]).
    apply (delivery_quiet p c _ [EvExited (exit_code p)]); done.
Qed.

Lemma cstep_linked p c p' c' cs i :
  client_inv p c → linked (clients p) cs → cs !! i = Some c → cstep p c p' c' →
  linked (clients p') (<[i := c']> cs).
Proof.
  intros [_ Hph] Hl Hi Hstep.
  assert (Hup : ∀ op f, (op = OpLive (cl_slot c) (cl_threshold c) ∧ f = (λ st, mkSlot (cl_threshold c) (answering st))) ∨
      (∃ b, op = OpLagged (cl_slot c) b ∧ f = (λ st, mkSlot (live_from st) (negb b))) →
    has_slot c = true → has_slot c' = true → cl_slot c' = cl_slot c → slot_of c' = f (slot_of c) →
    linked (apply_op (clients p) op) (<[i := c']> cs)).
  { intros op f Hop Hs Hs' Hsl Hf. eapply (linked_update _ _ _ i c c' f); try done.
    - apply apply_op_inv, Hl.
    - by destruct Hop as [[-> ->]|(b & -> & ->)]. }
  destruct Hstep as [Hp|r Hp Hr|Hp _|Hp Hr _|Hp|Hp|msg Hp Hm|n Hp _ Hn|Hp _|Hp|ev Hp Hev|Hp _];
    unfold has_slot, slot_of in Hup; simpl.
  - eapply linked_register; try done. unfold has_slot. by rewrite Hp.
  - unfold prime_resume. destruct (replay_since p r);
      (eapply linked_keep; [done..| | | |]; unfold has_slot, slot_of; by rewrite ?Hp).
  - eapply linked_keep; [done..| | | |]; unfold has_slot, slot_of; by rewrite ?Hp.
  - eapply linked_keep; [done..| | | |]; unfold has_slot, slot_of; by rewrite ?Hp.
  - rewrite Hp in Hph. destruct Hph as [_ Hlag].
    eapply (Hup (OpLive _ _)); [by left|..]; rewrite ?Hp; try done; simpl; destruct (bool_decide _); try done;
      by rewrite Hlag.
  - eapply linked_keep; [done..| | | |]; unfold has_slot, slot_of, drain_backlog; rewrite ?Hp;
      try destruct (cl_backlog c) as [|[??] ?]; simpl; repeat case_match; done.
  - destruct msg as [q d]. unfold on_recv in *. simpl in *.
    destruct (q <=? cl_threshold c); [|destruct (cl_chunks c)];
      (eapply (Hup (OpLagged _ false)); [right; by exists false|..]; by rewrite ?Hp).
  - unfold on_recv in *. simpl in *.
    eapply (Hup (OpLagged _ true)); [right; by exists true|..]; by rewrite ?Hp.
  - eapply linked_keep; [done..| | | |]; unfold has_slot, slot_of; by rewrite ?Hp.
  - eapply linked_keep; [done..| | | |]; unfold has_slot, slot_of; by rewrite ?Hp.
  - eapply linked_keep; [done..| | | |]; unfold has_slot, slot_of; by rewrite ?Hp.
  - eapply linked_drop; [done..| | |].
    + unfold has_slot. destruct Hp as [Hp|Hp]; by rewrite Hp.
    + intros j Hj. by rewrite lookup_insert_ne.
    + intros d. rewrite lookup_insert_eq. by intros [= <-].
Qed.

Lemma sstep_inv budget vd s s' : sstep vd s s' → sys_inv budget s → sys_inv budget s'.
Proof.
  intros Hstep [Hst Hcl Hl]. destruct Hstep as [s p' Hp|s i resume Hi|s i c p' c' Hi Hc|s i c Hi].
  - destruct (pstep_extends _ _ _ _ Hst Hp) as [He Hr]. split; simpl.
    + by eapply pstep_inv.
    + intros i c Hi. eapply client_extends; eauto.
    + by rewrite Hr.
  - split; simpl; [done|..].
    + intros j c [[<- <-]|[_ Hj]]%lookup_insert_Some; [|eauto]. by split.
    + eapply (linked_slotless _ _ _ i); [done|..].
      * intros c. by rewrite Hi.
      * intros j Hj. by rewrite lookup_insert_ne.
      * intros c. rewrite lookup_insert_eq. by intros [= <-].
  - pose proof (cstep_client _ _ _ _ _ Hst (Hcl _ _ Hi) Hc) as Hc'.
    pose proof (cstep_linked _ _ _ _ _ _ (Hcl _ _ Hi) Hl Hi Hc) as Hl'.
    destruct (cstep_pane _ _ _ _ Hc) as [r ->]. split; simpl; [by apply stream_inv_clients| |done].
    intros j d [[<- <-]|[_ Hj]]%lookup_insert_Some; (eapply (client_inv_same (pane s)); [done..|]); eauto.
  - assert (Hdel : ∀ j, j ≠ i → delete i (attached s) !! j = attached s !! j).
    { intros j Hj. by rewrite lookup_delete_ne. }
    assert (Hno : ∀ d, delete i (attached s) !! i = Some d → has_slot d = false).
    { intros d. by rewrite lookup_delete_eq. }
    assert (Hpane : ∃ r, client_gone (pane s) c = set_clients (pane s) r).
    { unfold client_gone. destruct (cl_phase c); (by eexists) || (exists (clients (pane s)); by destruct (pane s)). }
    assert (Hl' : linked (clients (client_gone (pane s) c)) (delete i (attached s))).
    { unfold client_gone. destruct (cl_phase c) eqn:Hp;
        first [eapply linked_drop; [done..| |done|done]; unfold has_slot; by rewrite Hp
              |eapply (linked_slotless _ _ _ i); [done| |done|done]; intros d Hd; simplify_eq; unfold has_slot; by rewrite Hp]. }
    destruct Hpane as [r Hr]. rewrite Hr in *. split; simpl; [by apply stream_inv_clients| |done].
    intros j d Hj%lookup_delete_Some. eapply (client_inv_same (pane s)); [done..|]. naive_solver.
Qed.

Lemma delivery_of_phase p c :
  client_inv p c → cl_phase c ∈ [CBacklog; CPoll; CIdle; CEnded] → delivery p c.
Proof. intros [_ Hph] Hp. destruct (cl_phase c); try (by set_solver); by destruct Hph || done. Qed.

Lemma attach_new_inv budget : sys_inv budget (sys_new budget).
Proof.
  split; simpl; [apply stream_inv_new|by intros i c|]. split; simpl.
  - split; simpl; [|set_solver]. intros c [st Hst]. by rewrite lookup_empty in Hst.
  - by intros.
  - intros sl [st Hst]. by rewrite lookup_empty in Hst.
  - by intros.
Qed.

Lemma attach_reachable_inv vd budget s : reachable vd budget s → sys_inv budget s.
Proof.
  intros Hr. unfold reachable in Hr. pose proof (attach_new_inv budget) as H0.
  remember (sys_new budget) as s0. clear Heqs0. revert H0.
  induction Hr as [|a b c Hab _ IH]; intros H0; [done|]. apply IH. by eapply sstep_inv.
Qed.

(** ** Who answers *)

Lemma live_threshold p c :
  client_inv p c → cl_phase c ∈ [CBacklog; CPoll; CIdle] → cl_threshold c ≤ output_seq p.
Proof. intros Hc Hp. apply (dl_threshold p c), delivery_of_phase; [done|]. set_solver. Qed.

Lemma daemon_answers_spec budget s :
  sys_inv budget s → output_seq (pane s) < u64_max →
  negb (has_answerer (clients (pane s)) (output_seq (pane s) + 1)) = true ↔
  ∀ i c, attached s !! i = Some c → ¬ (cl_phase c ∈ [CBacklog; CPoll; CIdle] ∧ cl_lagged c = false).
Proof.
  intros [Hst Hcl Hl] Hmax. rewrite negb_true_iff, <- not_true_iff_false, has_answerer_spec by apply Hl. split.
  - intros Hno i c Hi [Hp Hlag]. apply Hno. exists (cl_slot c), (slot_of c).
    pose proof (live_threshold _ _ (Hcl i c Hi) Hp).
    assert (Hs : has_slot c = true ∧ slot_of c = mkSlot (cl_threshold c) true).
    { unfold has_slot, slot_of. rewrite Hlag. destruct (cl_phase c); set_solver. }
    destruct Hs as [Hs Hso]. split; [by eapply lk_slot|]. rewrite Hso. simpl. split; [done|lia].
  - intros Hno (sl & st & Hsl & Ha & Hlt).
    destruct (lk_owner _ _ Hl sl) as (i & c & Hi & Hs & Hc); [by eauto|]. apply (Hno i c Hi).
    pose proof (lk_slot _ _ Hl i c Hi Hs) as Hst'. rewrite Hc, Hsl in Hst'. injection Hst' as ->.
    unfold has_slot, slot_of in *. destruct (cl_phase c); try done; simpl in *; try lia;
      (split; [set_solver|by destruct (cl_lagged c)]).
Qed.

(** ** Catching up *)

(** A run in which only client [i] moved, from [c] to [c'], reporting no gap. *)
Record quiet_run (s : Sys P) (i : nat) (c : Client) (s' : Sys P) (c' : Client) : Prop := {
  qr_attached : attached s' = <[i := c']> (attached s);
  qr_tx : output_tx (pane s') = output_tx (pane s);
  qr_hist : hist (pane s') = hist (pane s);
  qr_resume : cl_resume c' = cl_resume c;
  qr_threshold : cl_threshold c' = cl_threshold c;
  qr_gap : EvOutputGap ∈ cl_out c' → EvOutputGap ∈ cl_out c;
  qr_backlog : cl_backlog c' = [];
}.

Lemma quiet_run_trans s i c s1 c1 s2 c2 :
  quiet_run s i c s1 c1 → quiet_run s1 i c1 s2 c2 → quiet_run s i c s2 c2.
Proof.
  intros [Ha1 Ht1 Hh1 Hr1 Hth1 Hg1 _] [Ha2 Ht2 Hh2 Hr2 Hth2 Hg2 Hb]. split; try congruence; [|tauto].
  by rewrite Ha2, Ha1, insert_insert_eq.
Qed.

Lemma rtc_sstep_inv budget vd s s' : rtc (sstep vd) s s' → sys_inv budget s → sys_inv budget s'.
Proof. induction 1; [done|]. intros. by eapply IHrtc, sstep_inv. Qed.

(** The backlog is sent message by message. *)
Lemma drain_all vd s i c :
  attached s !! i = Some c → cl_phase c = CBacklog ∨ cl_phase c = CPoll ∧ cl_backlog c = [] →
  ∃ s' c', rtc (sstep vd) s s' ∧ quiet_run s i c s' c' ∧ cl_phase c' = CPoll ∧ pane s' = pane s ∧ cl_pos c' = cl_pos c.
Proof.
  remember (cl_backlog c) as bl eqn:Hb. revert s c Hb. induction bl as [|[q d] rest IH]; intros s c Hb Hi Hp.
  - destruct Hp as [Hp|[Hp _]].
    + exists (mkSys (pane s) (<[i := drain_backlog c]> (attached s))), (drain_backlog c).
      split; [by apply rtc_once; eapply S_client; [|by apply C_drain]|].
      unfold drain_backlog. rewrite <- Hb. by split.
    + exists s, c. split; [done|]. split; [|done]. split; try done. by rewrite insert_id.
  - destruct Hp as [Hp|[_ ?]]; [|done].
    set (c1 := drain_backlog c). set (s1 := mkSys (pane s) (<[i := c1]> (attached s))).
    assert (H1 : sstep vd s s1) by (eapply S_client; [done|by apply C_drain]).
    assert (Hc1 : cl_backlog c1 = rest ∧ cl_out c1 = cl_out c ++ [EvOutputChunk q d] ∧ cl_pos c1 = cl_pos c ∧
      cl_resume c1 = cl_resume c ∧ cl_threshold c1 = cl_threshold c ∧
      (cl_phase c1 = CBacklog ∨ cl_phase c1 = CPoll ∧ rest = [])).
    { unfold c1, drain_backlog. rewrite <- Hb. simpl. destruct (bool_decide_reflect (rest = [])); naive_solver. }
    destruct Hc1 as (Hb1 & Ho1 & Hpos1 & Hr1 & Ht1 & Hp1).
    destruct (IH s1 c1) as (s' & c' & Hs & [Ha Htx Hh Hr Ht Hg Hbl] & Hp' & Hpane & Hpos); [done|by apply lookup_insert_eq|done|].
    exists s', c'. split; [by eapply rtc_l|]. split; [|split; [done|split; [done|congruence]]].
    split; try congruence; try done.
    + rewrite Ha. apply insert_insert_eq.
    + rewrite Ho1 in Hg. set_solver.
Qed.

Lemma catch_up_live vd s i c :
  client_inv (pane s) c → attached s !! i = Some c → cl_phase c ∈ [CPrimed; CBacklog; CPoll; CIdle] →
  ∃ s' c', rtc (sstep vd) s s' ∧ quiet_run s i c s' c' ∧ cl_phase c' = CPoll.
Proof.
  intros [_ Hph] Hi Hp. destruct (cl_phase c) eqn:E; try (by set_solver).
  - set (r := client_go_live (pane s) c). set (s1 := mkSys (fst r) (<[i := snd r]> (attached s))).
    assert (H1 : sstep vd s s1) by (eapply S_client; [done|by apply C_live]).
    destruct (drain_all vd s1 i (snd r)) as (s' & c' & Hs & [Ha Htx Hh Hr Ht Hg Hbl] & Hp' & _).
    { by apply lookup_insert_eq. }
    { simpl. destruct (bool_decide_reflect (cl_backlog c = [])); [by right|by left]. }
    exists s', c'. split; [by eapply rtc_l|]. split; [|done]. split; try done. rewrite Ha. apply insert_insert_eq.
  - destruct (drain_all vd s i c) as (s' & c' & Hs & Hq & Hp' & _); [done|by left|]. by exists s', c'.
  - destruct Hph as [_ Hb]. exists s, c. split; [done|]. split; [|done]. split; try done. by rewrite insert_id.
  - destruct Hph as [_ Hb]. exists (mkSys (pane s) (<[i := set_phase c CPoll]> (attached s))), (set_phase c CPoll).
    split; [by apply rtc_once; eapply S_client; [|by apply C_wake]|]. by split.
Qed.

(** Receiving everything that is left. *)
Lemma catch_up_poll vd s i c :
  client_inv (pane s) c → attached s !! i = Some c → cl_phase c = CPoll →
  ∃ s' c', rtc (sstep vd) s s' ∧ quiet_run s i c s' c' ∧ cl_phase c' = CIdle ∧ cl_pos c' = length (output_tx (pane s')).
Proof.
  remember (length (output_tx (pane s)) - cl_pos c)%nat as n eqn:Hn. revert s c Hn.
  induction n as [|n IH]; intros s c Hn Hc Hi Hp; pose proof (ci_pos _ _ Hc); pose proof (ci_phase _ _ Hc) as Hph;
    rewrite Hp in Hph; destruct Hph as [Hd Hb].
  - exists (mkSys (pane s) (<[i := set_phase c CIdle]> (attached s))), (set_phase c CIdle).
    split; [apply rtc_once; eapply S_client; [done|apply C_empty; [done|lia]]|]. split; [by split|]. simpl. split; [done|lia].
  - destruct (lookup_lt_is_Some_2 (output_tx (pane s)) (cl_pos c)) as [msg Hm]; [lia|].
    pose proof (recv_inv _ _ _ Hc Hp Hm) as Hc1. pose proof (C_recv _ _ _ Hp Hm) as Hstep.
    set (r := on_recv (pane s) c (Ok msg) 1) in *. set (s1 := mkSys (fst r) (<[i := snd r]> (attached s))).
    assert (H1 : sstep vd s s1) by (by eapply S_client).
    assert (Hr : output_tx (fst r) = output_tx (pane s) ∧ hist (fst r) = hist (pane s) ∧
      output_seq (fst r) = output_seq (pane s) ∧ fed (fst r) = fed (pane s) ∧
      cl_pos (snd r) = (cl_pos c + 1)%nat ∧ cl_phase (snd r) = CPoll ∧ cl_resume (snd r) = cl_resume c ∧
      cl_threshold (snd r) = cl_threshold c ∧ (EvOutputGap ∈ cl_out (snd r) → EvOutputGap ∈ cl_out c)).
    { unfold r, on_recv. destruct msg as [q d]. simpl. destruct (q <=? _), (cl_chunks c); simpl; set_solver. }
    destruct Hr as (Ht & Hh & Hsq & Hfd & Hpos & Hp1 & Hre & Hth & Hg).
    destruct (IH s1 (snd r)) as (s' & c' & Hs & [Ha Htx' Hh' Hr' Hth' Hg' Hbl] & Hp' & Hpos').
    + simpl. rewrite Ht, Hpos. lia.
    + by eapply (client_inv_same (pane s)).
    + by apply lookup_insert_eq.
    + done.
    + exists s', c'. split; [by eapply rtc_l|]. simpl in *.
      split; [|by split]. split; try congruence; [|tauto]. rewrite Ha. apply insert_insert_eq.
Qed.

End Inv.

(** ** Running the system

    [exec] performs one chosen step when it is enabled, so that concrete runs evaluate. *)

Inductive action :=
| AStart | ARead (chunk : list byte) | APublish | ASend | AEof | ARest | ASendRest | AExit (code : option Z)
| AOpen (i : nat) (resume : option Z) | ARegister (i : nat) | APrime (i : nat) | ALive (i : nat) | ADrain (i : nat)
| ARecv (i : nat) | AEmpty (i : nat) | AClientExit (i : nat).

Section Exec.
Context `{!Memchr} {P : Type} `{!VteParser P}.
Context (vd : P).

Definition exec_pane (p : PaneStream P) (a : action) : option (PaneStream P) :=
  match a, rd p with
  | AStart, RNone => if exited p then None else start_reader vd p
  | ARead chunk, RLoop sc =>
      if negb (reads_frozen p) && negb (bool_decide (chunk = [])) && (Z.of_nat (length chunk) <=? PTY_READ_BUF_SIZE)
      then Some (read_decide p sc chunk) else None
  | APublish, RChunk sc chunk next answers => read_publish p sc chunk next answers
  | ASend, RSend sc msg => Some (read_send p sc msg)
  | AEof, RLoop sc => if reads_frozen p then None else Some (read_eof p sc)
  | ARest, REof sc => Some (release_rest p sc)
  | ASendRest, RRest msg => Some (send_rest p msg)
  | AExit code, RExit => Some (record_exit p code false)
  | _, _ => None
  end.

Definition exec_client (p : PaneStream P) (c : Client) (a : action) : option (PaneStream P * Client) :=
  match a, cl_phase c with
  | ARegister _, CSubscribed => Some (register_live_client p c)
  | APrime _, CRegistered =>
      match cl_resume c with
      | Some seq => Some (p, prime_resume p c seq)
      | None => if parser_locked p then None else Some (p, prime_snapshot p c false)
      end
  | APrime _, CGap => if parser_locked p then None else Some (p, prime_snapshot p c true)
  | ALive _, CPrimed => Some (client_go_live p c)
  | ADrain _, CBacklog => Some (p, drain_backlog c)
  | ARecv _, CPoll => let! msg := output_tx p !! cl_pos c in Some (on_recv p c (Ok msg) 1)
  | AEmpty _, CPoll => if bool_decide (cl_pos c = length (output_tx p)) then Some (p, set_phase c CIdle) else None
  | AClientExit _, CIdle => if final_exit p then Some (client_exit p c) else None
  | _, _ => None
  end.

Definition exec (s : Sys P) (a : action) : option (Sys P) :=
  match a with
  | AOpen i resume =>
      match attached s !! i with
      | None => Some (mkSys (pane s) (<[i := subscribe (pane s) resume]> (attached s)))
      | Some _ => None
      end
  | ARegister i | APrime i | ALive i | ADrain i | ARecv i | AEmpty i | AClientExit i =>
      let! c := attached s !! i in
      let! (p', c') := exec_client (pane s) c a in
      Some (mkSys p' (<[i := c']> (attached s)))
  | _ => let! p' := exec_pane (pane s) a in Some (mkSys p' (attached s))
  end.

Fixpoint exec_all (s : Sys P) (acts : list action) : option (Sys P) :=
  match acts with
  | [] => Some s
  | a :: acts => let! s := exec s a in exec_all s acts
  end.

Lemma exec_pane_step p a p' : exec_pane p a = Some p' → pstep vd p p'.
Proof.
  unfold exec_pane. destruct a; try done; destruct (rd p) eqn:Hrd; try done; intros E;
    repeat case_match; simplify_eq; b2p; rewrite ?bool_decide_eq_false in *; solve [by econstructor|apply P_exit; by left].
Qed.

Lemma exec_client_step p c a p' c' : exec_client p c a = Some (p', c') → cstep p c p' c'.
Proof.
  unfold exec_client. destruct a; try done; destruct (cl_phase c) eqn:Hp; try done; intros E.
  - injection E as <- <-. by apply C_register.
  - destruct (cl_resume c) eqn:Hr; [injection E as <- <-; by apply C_resume|].
    destruct (parser_locked p) eqn:Hl; [done|]. injection E as <- <-. by apply C_snapshot.
  - destruct (parser_locked p) eqn:Hl; [done|]. injection E as <- <-. by apply C_gap_snapshot.
  - injection E as <- <-. by apply C_live.
  - injection E as <- <-. by apply C_drain.
  - destruct (output_tx p !! cl_pos c) as [msg|] eqn:Hm; [|done].
    destruct (on_recv p c (Ok msg) 1) as [q d] eqn:Ho. injection E as <- <-.
    pose proof (C_recv p c msg Hp Hm) as Hs. by rewrite Ho in Hs.
  - destruct (bool_decide_reflect (cl_pos c = length (output_tx p))); [|done].
    injection E as <- <-. by apply C_empty.
  - destruct (final_exit p) eqn:Hf; [|done]. injection E as <- <-. apply C_exit; [by left|done].
Qed.

Lemma exec_step s a s' : exec s a = Some s' → sstep vd s s'.
Proof.
  assert (Hpane : (let! p' := exec_pane (pane s) a in Some (mkSys p' (attached s))) = Some s' → sstep vd s s').
  { destruct (exec_pane (pane s) a) eqn:E; [|done]. intros [= <-]. constructor. by eapply exec_pane_step. }
  assert (Hcl : ∀ i, (let! c := attached s !! i in let! (p', c') := exec_client (pane s) c a in
    Some (mkSys p' (<[i := c']> (attached s)))) = Some s' → sstep vd s s').
  { intros i. destruct (attached s !! i) as [c|] eqn:Hi; [|done].
    destruct (exec_client (pane s) c a) as [[p' c']|] eqn:E; [|done]. intros [= <-].
    eapply S_client; [done|]. by eapply exec_client_step. }
  unfold exec. destruct a; eauto. destruct (attached s !! i) eqn:Hi; [done|]. intros [= <-]. by constructor.
Qed.

Lemma exec_all_steps s acts s' : exec_all s acts = Some s' → rtc (sstep vd) s s'.
Proof.
  revert s. induction acts as [|a acts IH]; intros s; simpl; [by intros [= ->]|].
  destruct (exec s a) as [s1|] eqn:E; [|done]. intros Hs. eapply rtc_l; [by eapply exec_step|]. by apply IH.
Qed.

End Exec.
