(* ===== verification/AttachProps.v ===== *)
(** * Properties of output streaming and attaching

    What a pane's stream, its replay buffer and its attached clients guarantee together, on
    every interleaving of the reader thread, the supervisor and the clients. *)

From S2P Require Import Prelude ReplayBuffer TermQuery Scanner Clients PaneStream Attach.

Section Properties.
Context `{!Memchr} {P : Type} `{!VteParser P}.
Implicit Types (s : Sys P) (vd : P).

(** C9. The reader thread never panics, and the stream it publishes is consistent in every
    reachable state: chunks are numbered 1, 2, ... up to [output_seq]; the replay buffer is
    the buffer of the stripped chunks; what was broadcast, plus the message about to be, is
    the payload of every chunk in order; and the screen has been fed the raw chunks followed
    by the bytes still held back, of which there are none left once the reader is past the
    end of the stream. *)
Theorem stream_consistent vd budget s :
  reachable vd budget s →
  let p := pane s in
  output_seq p = Z.of_nat (length (hist p)) ∧
  h_seq <$> hist p = seqZ 1 (output_seq p) ∧
  replay p = Replay.run budget (replay_entry <$> hist p) ∧
  output_tx p ++ pending (rd p) = omap bcast (hist p) ∧
  fed p = concat (h_raw <$> hist p) ++ held (rd p) ∧
  Forall (λ h, sublist (h_stripped h) (h_raw h)) (hist p) ∧
  (∀ sc chunk next answers, rd p = RChunk sc chunk next answers →
     is_Some (read_publish p sc chunk next answers)).
Proof.
  intros Hr. destruct (sy_stream _ _ (attach_reachable_inv _ _ _ Hr)) as [Hseq Hc Hrep Htx Hfed Hok Hck _].
  cbv zeta. split; [done|]. split; [|split; [done|split; [done|split; [done|split]]]].
  - rewrite Hseq. by apply consecutive_seqZ.
  - eapply Forall_impl; [exact Hck|]. by intros h [? _].
  - intros sc chunk next answers Hrd. unfold reader_ok in Hok. rewrite Hrd in Hok. destruct Hok as [Hsc _].
    destruct (feed_ok sc chunk Hsc) as (scd & sc' & Hf & _). unfold read_publish. rewrite Hf. eauto.
Qed.

(** C8. What an attached client is sent is the stream from its priming on: in order, each
    chunk once, with a hole only where an [OutputGap] marks it. However its attach interleaves
    with the reader, the output a client has really been sent once it is live, or was when its
    stream ended, is the following. On a resume from [r] that the buffer could serve, first a
    part [replayed] of the chunks of the complete log after [r] and up to the threshold, in
    order from the first; the others are the backlog still to be sent. Only with an empty
    backlog, then, the broadcast messages newer than the threshold that its receiver has been
    past, each whole and once, where messages dropped for a receiver that lagged leave an
    [OutputGap] in their place; without such an event it is all of them. A client primed with a
    snapshot instead was given a screen that shows every chunk up to the threshold and at most
    the open sequence the next chunk repeats whole. Nothing is said of messages the receiver
    has not reached: the stream can end, with the pane's exit or with the client, before them. *)
Theorem attach_delivery vd budget s i c :
  reachable vd budget s → attached s !! i = Some c →
  cl_phase c ∈ [CBacklog; CPoll; CIdle; CEnded] →
  (∃ replayed live,
    stream_events (cl_out c) = (chunk_ev true <$> replayed) ++ live ∧
    missed c (replay_entry <$> hist (pane s)) = replayed ++ cl_backlog c ∧
    (cl_backlog c ≠ [] → live = []) ∧
    forwarded (cl_chunks c) live (live_part c (output_tx (pane s))) ∧
    (EvOutputGap ∉ cl_out c → live = chunk_ev (cl_chunks c) <$> live_part c (output_tx (pane s)))) ∧
  (snapshot_of (cl_out c) = None → is_Some (cl_resume c)) ∧
  ∀ screen, snapshot_of (cl_out c) = Some screen → ∃ tail,
    screen = covered (cl_threshold c) (hist (pane s)) ++ tail ∧
    screen `prefix_of` fed (pane s) ∧ Z.of_nat (length tail) ≤ MAX_HELD.
Proof.
  intros Hr Hi Hp. pose proof (sy_clients _ _ (attach_reachable_inv _ _ _ Hr) i c Hi) as Hc.
  destruct (delivery_of_phase _ _ Hc Hp) as [_ _ (rp & lv & H1 & H2 & H3 & H4) Hsn Hrep].
  split; [|split; [exact Hrep|]].
  - exists rp, lv. split; [done|]. split; [done|]. split; [done|]. split; [done|]. intros Hg. apply forwarded_all; [done|].
    intros Hin. apply Hg. assert (Hst : EvOutputGap ∈ stream_events (cl_out c)) by (rewrite H1; set_solver).
    by apply list_elem_of_filter in Hst as [_ Hst].
  - intros screen Hscr. destruct (Hsn screen Hscr) as (Hpre & tail & Ht & Hlen). eauto.
Qed.

(** C10. The queries of a chunk are left to one side, never to both. When the reader takes a
    chunk, the daemon answers its terminal queries if and only if no attached client is live
    and not lagged at that moment; if it does, the broadcast carries the stripped chunk, so no
    client is shown the queries. Otherwise the daemon does not answer and the broadcast is the
    raw chunk, with a number beyond the threshold of every such client, so that client's
    forwarding step emits it if its receiver comes to it. The replay buffer gets the stripped
    chunk either way, so a later resume does not ask again. (Whether the client it is left to
    does receive the chunk is not decided here: it may lag, leave, or be overtaken by the
    pane's exit.) *)
Theorem queries_answered_by_one_side vd budget s sc chunk :
  reachable vd budget s → rd (pane s) = RLoop sc → output_seq (pane s) < u64_max →
  let p := read_decide (pane s) sc chunk in
  let next := output_seq (pane s) + 1 in
  let live c := cl_phase c ∈ [CBacklog; CPoll; CIdle] ∧ cl_lagged c = false in
  ∃ p' sc' scanned, read_publish p sc chunk next (daemon_answers p) = Some p' ∧
    feed sc chunk = Some (scanned, sc') ∧
    last (hist p') = Some (mkChunk next (sc_raw scanned) (stripped scanned) (KRead (daemon_answers p))) ∧
    (daemon_answers p = true ↔ ∀ i c, attached s !! i = Some c → ¬ live c) ∧
    replay p' = Replay.push (replay (pane s)) next (stripped scanned) ∧
    pending (rd p') = option_list (pair next <$> payload (daemon_answers p) scanned) ∧
    ∀ i c data, attached s !! i = Some c → live c →
      forward_step_for_output_result (Ok (next, data)) (cl_threshold c) (cl_chunks c) =
        Emit (chunk_ev (cl_chunks c) (next, data)).
Proof.
  intros Hr Hrd Hmax. pose proof (attach_reachable_inv _ _ _ Hr) as Hinv. destruct (Hinv) as [Hst Hcl _]. cbv zeta.
  assert (Hsc : scanner_inv sc).
  { pose proof (si_reader _ _ Hst) as Hok. unfold reader_ok in Hok. rewrite Hrd in Hok. apply Hok. }
  destruct (feed_ok sc chunk Hsc) as (scanned & sc' & Hf & _).
  unfold read_publish. rewrite Hf. eexists _, sc', scanned.
  split; [done|]. split; [done|]. simpl. split; [by rewrite last_snoc|]. split; [by apply (daemon_answers_spec budget)|].
  split; [done|]. split; [done|]. intros i c data Hi [Hp _].
  pose proof (live_threshold _ _ (Hcl i c Hi) Hp). destruct (Z.leb_spec (output_seq (pane s) + 1) (cl_threshold c)); [lia|].
  unfold chunk_ev. by destruct (cl_chunks c).
Qed.

(** C11. A client is never stuck: from every reachable state an attached, primed client can, by
    steps of its own alone, reach the point where its backlog is sent and its receiver is past
    everything broadcast, without reporting a gap it had not reported before. *)
Theorem attach_catches_up vd budget s i c :
  reachable vd budget s → attached s !! i = Some c →
  cl_phase c ∈ [CPrimed; CBacklog; CPoll; CIdle] →
  ∃ s' c', rtc (sstep vd) s s' ∧ attached s' = <[i := c']> (attached s) ∧
    output_tx (pane s') = output_tx (pane s) ∧ hist (pane s') = hist (pane s) ∧
    cl_phase c' = CIdle ∧ cl_backlog c' = [] ∧ cl_pos c' = length (output_tx (pane s)) ∧
    cl_resume c' = cl_resume c ∧ cl_threshold c' = cl_threshold c ∧
    (EvOutputGap ∈ cl_out c' → EvOutputGap ∈ cl_out c).
Proof.
  intros Hr Hi Hp. pose proof (attach_reachable_inv _ _ _ Hr) as Hinv.
  destruct (catch_up_live vd s i c (sy_clients _ _ Hinv i c Hi) Hi Hp) as (s1 & c1 & H1 & Hq1 & Hp1).
  pose proof (rtc_sstep_inv _ _ _ _ H1 Hinv) as Hinv1.
  assert (Hi1 : attached s1 !! i = Some c1) by (rewrite (qr_attached _ _ _ _ _ Hq1); by rewrite lookup_insert_eq).
  destruct (catch_up_poll vd s1 i c1 (sy_clients _ _ Hinv1 i c1 Hi1) Hi1 Hp1) as (s2 & c2 & H2 & Hq2 & Hp2 & Hpos).
  pose proof (quiet_run_trans _ _ _ _ _ _ _ Hq1 Hq2) as [Ha Htx Hh Hre Hth Hg Hb].
  exists s2, c2. split; [by etrans|]. rewrite Ha, Htx, Hh. rewrite Htx in Hpos. done.
Qed.

End Properties.

(** ** Runs

    The tokenizer of the witnesses is the small one of [Scanner]. *)

(** Two chunks printed; a client attaches without resuming; then a chunk with a cursor query,
    which the client sees raw. *)
Definition run_snapshot : list action :=
  [AStart; ARead (ascii "hi"); APublish; ASend; AOpen 0 None; ARegister 0; ARead (ascii "!"); APublish;
   APrime 0; ALive 0; ASend; ARead (ESC :: ascii "[6nx"); APublish; ASend; ARecv 0; ARecv 0; AEmpty 0].

(** A second client resumes after chunk 1 while chunk 3 is being read. *)
Definition run_resume : list action :=
  run_snapshot ++ [AOpen 1 (Some 1); ARegister 1; APrime 1; ALive 1; ADrain 1; ARead (ascii "y"); APublish; ASend; ADrain 1; ARecv 1].

Definition state_after (acts : list action) : Sys mini_state :=
  default (sys_new 100) (exec_all MGround (sys_new 100) acts).

Lemma state_after_reachable acts :
  is_Some (exec_all MGround (sys_new 100) acts) → reachable MGround 100 (state_after acts).
Proof. intros [s Hs]. unfold state_after. rewrite Hs. simpl. by eapply exec_all_steps. Qed.

Definition client_after (acts : list action) (i : nat) : Client :=
  default (mkClient None 1 0 CSubscribed 0 false [] [] false) (attached (state_after acts) !! i).

(** The branch order of the forwarding loop does not make an exit wait for output already
    sent, as its comment says it does: the channel is polled before the exit flag, so the last
    chunk can be broadcast, and the exit recorded, between the two. The client is then told
    [Exited] and its stream ends with a broadcast chunk, beyond its threshold, never sent and
    no gap reported. *)
Theorem exit_can_overtake_output :
  let acts := [AStart; AOpen 0 None; ARegister 0; APrime 0; ALive 0; AEmpty 0; ARead (ascii "bye"); APublish; ASend;
               AEof; ARest; AExit (Some 0); AClientExit 0] in
  let c := client_after acts 0 in
  reachable MGround 100 (state_after acts) ∧
  cl_phase c = CEnded ∧ cl_out c = [EvSnapshot []; EvExited (Some 0)] ∧
  output_tx (pane (state_after acts)) = [(1, ascii "bye")] ∧ cl_pos c = 0%nat ∧ cl_threshold c = 0.
Proof.
  cbv zeta. split; [apply state_after_reachable; vm_compute; by eexists|]. vm_compute. done.
Qed.

(** ** Witnesses *)

Lemma stream_consistent_witness :
  reachable MGround 100 (state_after run_snapshot) ∧ output_seq (pane (state_after run_snapshot)) = 3 ∧
  replay (pane (state_after run_snapshot)) = Replay.run 100 [(1, ascii "hi"); (2, ascii "!"); (3, ascii "x")].
Proof.
  assert (Hr : reachable MGround 100 (state_after run_snapshot)) by (apply state_after_reachable; vm_compute; by eexists).
  split; [done|]. split; [vm_compute; done|].
  rewrite (proj1 (proj2 (proj2 (stream_consistent MGround 100 _ Hr)))). vm_compute. done.
Defined.

(** The client of [run_resume]: both chunks replayed, then the live one. *)
Lemma attach_delivery_witness :
  let c := client_after run_resume 1 in
  cl_threshold c = 3 ∧ stream_events (cl_out c) = [EvOutputChunk 2 (ascii "!"); EvOutputChunk 3 (ascii "x"); EvOutputChunk 4 (ascii "y")] ∧
  ∃ replayed live, stream_events (cl_out c) = (chunk_ev true <$> replayed) ++ live ∧
    missed c (replay_entry <$> hist (pane (state_after run_resume))) = replayed ++ [] ∧
    live = chunk_ev true <$> live_part c (output_tx (pane (state_after run_resume))).
Proof.
  cbv zeta. split; [vm_compute; done|]. split; [vm_compute; done|].
  destruct (attach_delivery MGround 100 (state_after run_resume) 1 (client_after run_resume 1)
    ltac:(apply state_after_reachable; vm_compute; by eexists) ltac:(vm_compute; done) ltac:(vm_compute; set_solver))
    as [(rp & lv & H1 & H2 & _ & _ & H5) _].
  assert (Hb : cl_backlog (client_after run_resume 1) = []) by (vm_compute; reflexivity).
  assert (Hk : cl_chunks (client_after run_resume 1) = true) by (vm_compute; reflexivity).
  assert (Hg : EvOutputGap ∉ cl_out (client_after run_resume 1)).
  { replace (cl_out (client_after run_resume 1)) with [EvOutputChunk 2 (ascii "!"); EvOutputChunk 3 (ascii "x"); EvOutputChunk 4 (ascii "y")]
      by (vm_compute; reflexivity). rewrite !not_elem_of_cons. repeat split; [discriminate..|apply not_elem_of_nil]. }
  rewrite Hb in H2. rewrite Hk in H5. exists rp, lv. exact (conj H1 (conj H2 (H5 Hg))).
Defined.

Lemma queries_answered_by_one_side_witness :
  ∃ sc, rd (pane (state_after run_snapshot)) = RLoop sc ∧
    daemon_answers (read_decide (pane (state_after run_snapshot)) sc (ESC :: ascii "[6n")) = false ∧
    ∃ p' sc' scanned, read_publish (read_decide (pane (state_after run_snapshot)) sc (ESC :: ascii "[6n")) sc
        (ESC :: ascii "[6n") 4 false = Some p' ∧ feed sc (ESC :: ascii "[6n") = Some (scanned, sc') ∧ stripped scanned = [].
Proof.
  eexists. split; [vm_compute; reflexivity|]. split; [vm_compute; reflexivity|].
  destruct (queries_answered_by_one_side MGround 100 (state_after run_snapshot) _ (ESC :: ascii "[6n")
    ltac:(apply state_after_reachable; vm_compute; by eexists) ltac:(vm_compute; reflexivity) ltac:(vm_compute; done))
    as (p' & sc' & scanned & Hp & Hf & _).
  exists p', sc', scanned. split; [exact Hp|]. split; [exact Hf|]. revert Hf. vm_compute. intros [= <- _]. done.
Defined.

Lemma attach_catches_up_witness :
  let acts := run_snapshot ++ [AOpen 1 (Some 1); ARegister 1; APrime 1] in
  ∃ s' c', rtc (sstep MGround) (state_after acts) s' ∧ attached s' = <[1%nat := c']> (attached (state_after acts)) ∧
    cl_phase c' = CIdle ∧ cl_pos c' = 3%nat.
Proof.
  cbv zeta. set (acts := _ ++ _).
  destruct (attach_catches_up MGround 100 (state_after acts) 1 (client_after acts 1)
    ltac:(apply state_after_reachable; vm_compute; by eexists) ltac:(vm_compute; done) ltac:(vm_compute; set_solver))
    as (s' & c' & Hs & Ha & _ & _ & Hp & _ & Hpos & _).
  exists s', c'. split; [done|]. split; [done|]. split; [done|]. rewrite Hpos. vm_compute. done.
Defined.
