(* ===== verification/Supervision.v ===== *)
(** * Pane supervision ([crates/tymux-core/src/supervision.rs])

    Drives the per-pane lifecycle of [Restart] from process exits, timers and operator
    calls. Panes are shared objects: they live in a heap indexed by reference, an entry's
    [Weak<Pane>] is an optional reference. Everything one method does under the
    supervision lock is one definition; the clock, the jitter sample and the outcome of
    an operating-system call are arguments. *)

From S2P Require Import Prelude Float Restart.

(** ** Panes, as supervision sees them ([pane.rs]) *)

Inductive LifecycleEventKind := EvExited | EvRestartScheduled | EvRestarted | EvFailed | EvStopped.

Record LifecycleEvent := mkEvent {
  le_kind : LifecycleEventKind;
  le_state : LifecycleState;
  le_exit_code : option Z;
  le_exit_signal : option Z;
  le_delay_ms : option Z;
  le_next_restart_at_ms : option Z;
  le_pid : option Z;
  le_restart_count : Z;
  le_at_ms : Z;
}.

(** The texts supervision writes into a pane's output, with the values they show. *)
Inductive Marker :=
| MkNotRestarting (code signal : option Z)
| MkRestartingIn (code signal : option Z) (delay_ms : Z)
| MkRestarting (code signal : option Z)
| MkGaveUp (code signal : option Z) (max_restarts window_ms : Z)
| MkExitStopped (code signal : option Z)
| MkRetrying (error : string) (delay_ms : Z)
| MkBudgetExhausted (error : string)
| MkStartFailed (error : string)
| MkCancelled
| MkStopped (restart_cancelled : bool)
| MkRestarted (pid : option Z) (restart_count : Z).

(** What subscribers of a pane observe, in order. *)
Inductive pane_note := Note_event (e : LifecycleEvent) | Note_output (m : Marker).

(** How far a process's reader thread has got: reading, process reaped (with whether it
    found an exit hook to call), hook called, exit published. *)
Inductive Reader := RReading | RReaped (call_hook : bool) | RHooked | RDone.

Record Pane := mkPane {
  p_id : Uuid;
  p_exited : bool;
  p_retired : bool;
  p_restart_pending : bool;
  p_pid : Z;
  p_last_signal : Z;
  p_generation : Z;
  p_exit_hook : bool;
  p_exit_checked : bool;
  p_exit_code : option Z;
  p_notes : list pane_note;
  p_reader : Reader;
}.

(** A pane whose process was just spawned. *)
Definition pane_spawned (id : Uuid) (pid : Z) : Pane :=
  mkPane id false false false pid 0 0 false false None [] RReading.

Definition set_restart_pending (pending : bool) (p : Pane) : Pane :=
  let 'mkPane id ex rt _ pid sg gen hk ck code notes rd := p in mkPane id ex rt pending pid sg gen hk ck code notes rd.
Definition add_note (n : pane_note) (p : Pane) : Pane :=
  let 'mkPane id ex rt rp pid sg gen hk ck code notes rd := p in mkPane id ex rt rp pid sg gen hk ck code (notes ++ [n]) rd.
Definition emit_lifecycle (e : LifecycleEvent) : Pane → Pane := add_note (Note_event e).
Definition inject_output (m : Marker) : Pane → Pane := add_note (Note_output m).

Definition retire (p : Pane) : Pane :=
  let 'mkPane id ex _ _ pid sg gen hk ck code notes rd := p in mkPane id ex true false pid sg gen hk ck code notes rd.

(** [set_exit_hook]: whether the child already exited without seeing the hook. *)
Definition set_exit_hook (p : Pane) : Pane * bool :=
  let 'mkPane id ex rt rp pid sg gen _ ck code notes rd := p in (mkPane id ex rt rp pid sg gen true ck code notes rd, ck).

Definition pane_pid (p : Pane) : option Z := if p_pid p =? 0 then None else Some (p_pid p).
Definition signal_sent (p : Pane) : option Z := if p_last_signal p =? 0 then None else Some (p_last_signal p).

Definition SIGTERM : Z := 15.

Definition SIGHUP : Z := 1.

(** [sent] is whether [kill(2)] succeeded (or found no process). The SIGKILL that follows
    after the grace period changes no state of the pane. *)
Definition signal_then_kill (p : Pane) (signal : Z) (sent : bool) : Pane * bool :=
  if p_pid p =? 0 then (p, true)
  else
    let 'mkPane id ex rt rp pid _ gen hk ck code notes rd := p in
    (mkPane id ex rt rp pid signal gen hk ck code notes rd, sent).

Definition terminate (p : Pane) (sent : bool) : Pane * bool := signal_then_kill p SIGTERM sent.
Definition kill (p : Pane) (sent : bool) : Pane * bool := signal_then_kill p SIGHUP sent.

Inductive RespawnError := PaneClosed | StillRunning | SpawnFailed (message : string).

Definition respawn_message (e : RespawnError) : string :=
  match e with
  | PaneClosed => "pane was closed"
  | StillRunning => "pane process is still running"
  | SpawnFailed message => message
  end.

(** [respawn_with]: [spawned] is the new process id or why starting it failed. *)
Definition respawn_with (p : Pane) (banner : option Z → Marker) (spawned : result (option Z) string)
    : Pane * result (option Z) RespawnError :=
  if p_retired p then (p, Err PaneClosed)
  else if negb (p_exited p) then (p, Err StillRunning)
  else match spawned with
       | Err message => (p, Err (SpawnFailed message))
       | Ok pid =>
           let 'mkPane id _ rt rp _ _ gen hk _ _ notes _ := p in
           (inject_output (banner pid) (mkPane id false rt rp (default 0 pid) 0 (gen + 1) hk false None notes RReading), Ok pid)
       end.

(** The end of the reader thread, in three steps: the process is reaped and the exit hook
    looked up; the hook runs (see [account_exit]); the exit is published. *)
Definition reader_reap (p : Pane) (code : option Z) : Pane :=
  let 'mkPane id ex rt rp _ sg gen hk _ _ notes _ := p in
  mkPane id ex rt rp 0 sg gen hk true code notes (RReaped hk).
Definition reader_hooked (p : Pane) : Pane :=
  let 'mkPane id ex rt rp pid sg gen hk ck code notes _ := p in mkPane id ex rt rp pid sg gen hk ck code notes RHooked.
Definition reader_publish (p : Pane) : Pane :=
  let 'mkPane id _ rt rp pid sg gen hk ck code notes _ := p in mkPane id true rt rp pid sg gen hk ck code notes RDone.

(** ** Data *)

Record Entry := mkEntry { e_sup : PaneSupervisor; e_pane : option N }.

(** [Inner], with the heap of panes it refers to. *)
Record Supervision := mkSupervision {
  sv_entries : gmap Uuid Entry;
  sv_dirty : gset Uuid;
  sv_heap : gmap N Pane;
}.

Inductive SignalOutcome := Signaled | Immediate.

(** The errors of these operations ([EngineError]). *)
Inductive SupervisionError :=
| PaneNotFound (id : Uuid)
| PaneRunning (id : Uuid)
| InvalidRestartPolicy (e : PolicyError)
| PaneStart (id : Uuid) (message : string).

Definition upgrade (s : Supervision) (e : Entry) : option (N * Pane) :=
  let! r := e_pane e in let! p := sv_heap s !! r in Some (r, p).

Definition running_pane (s : Supervision) (e : Entry) : option (N * Pane) :=
  match upgrade s e with Some (r, p) => if p_exited p then None else Some (r, p) | None => None end.

(** ** Announcements *)

Definition event (kind : LifecycleEventKind) (sup : PaneSupervisor) (now : Z) : LifecycleEvent :=
  let last := sup_last_exit sup in
  mkEvent kind (sup_state sup) (last ≫= er_code) (last ≫= er_signal) None (sup_next_restart_at_ms sup) None
    (sup_restart_count sup) now.

Definition event_scheduled (sup : PaneSupervisor) (now delay at_ms : Z) : LifecycleEvent :=
  let 'mkEvent k st c sg _ _ pid rc at_ := event EvRestartScheduled sup now in
  mkEvent k st c sg (Some delay) (Some at_ms) pid rc at_.

Definition event_pid (sup : PaneSupervisor) (now : Z) (pid : option Z) : LifecycleEvent :=
  let 'mkEvent k st c sg d nx _ rc at_ := event EvRestarted sup now in mkEvent k st c sg d nx pid rc at_.

Definition announce_exit (sup : PaneSupervisor) (kind : ExitKind) (code signal : option Z) (now : Z) (p : Pane) : Pane :=
  let p := emit_lifecycle (event EvExited sup now) p in
  match kind with
  | NotRestarted =>
      if bool_decide (rp_mode (sup_policy sup) = Never) then p else inject_output (MkNotRestarting code signal) p
  | Scheduled delay at_ms =>
      emit_lifecycle (event_scheduled sup now delay at_ms) (inject_output (MkRestartingIn code signal delay) p)
  | ManualRestart => inject_output (MkRestarting code signal) p
  | EFailed =>
      emit_lifecycle (event EvFailed sup now)
        (inject_output (MkGaveUp code signal (rp_max_restarts (sup_policy sup)) (rp_window_ms (sup_policy sup))) p)
  | EStopped => emit_lifecycle (event EvStopped sup now) (inject_output (MkExitStopped code signal) p)
  end.

Definition announce_failed_spawn (sup : PaneSupervisor) (kind : ExitKind) (error : string) (now : Z) (p : Pane) : Pane :=
  match kind with
  | Scheduled delay at_ms =>
      emit_lifecycle (event_scheduled sup now delay at_ms) (inject_output (MkRetrying error delay) p)
  | EFailed => emit_lifecycle (event EvFailed sup now) (inject_output (MkBudgetExhausted error) p)
  | _ => inject_output (MkStartFailed error) p
  end.

(** ** Operations *)

Section Ops.
Context (powi : spec_float → Z → spec_float).

Definition set_entry (s : Supervision) (id : Uuid) (e : Entry) : Supervision :=
  mkSupervision (<[id := e]> (sv_entries s)) (sv_dirty s) (sv_heap s).
Definition set_pane (s : Supervision) (r : N) (p : Pane) : Supervision :=
  mkSupervision (sv_entries s) (sv_dirty s) (<[r := p]> (sv_heap s)).
Definition mark_dirty (s : Supervision) (id : Uuid) : Supervision :=
  mkSupervision (sv_entries s) ({[id]} ∪ sv_dirty s) (sv_heap s).

(** Accounts the exit of the process of pane [r]; returns whether a restart is pending. *)
Definition account_exit (s : Supervision) (r : N) (code : option Z) (now : Z) (unit : spec_float) : Supervision * bool :=
  match sv_heap s !! r with
  | None => (s, false)
  | Some p =>
      match sv_entries s !! p_id p with
      | None => (s, false)
      | Some e =>
          if negb (bool_decide (e_pane e = Some r)) then (s, false)
          else
            let signal := signal_sent p in
            let '(sup, kind) := on_exit powi (e_sup e) now code signal unit in
            let p := announce_exit sup kind code signal now p in
            let pending := restart_pending sup in
            let p := set_restart_pending pending p in
            (mark_dirty (set_pane (set_entry s (p_id p) (mkEntry sup (e_pane e))) r p) (p_id p), pending)
      end
  end.

Definition install_hook (s : Supervision) (r : N) (now : Z) (unit : spec_float) : Supervision :=
  match sv_heap s !! r with
  | None => s
  | Some p =>
      let '(p, exited_before_hook) := set_exit_hook p in
      let s := set_pane s r p in
      if exited_before_hook then fst (account_exit s r (p_exit_code p) now unit) else s
  end.

(** [r] is a pane that is in the heap. *)
Definition register_live (s : Supervision) (r : N) (policy : RestartPolicy) (now : Z) (unit : spec_float) : Supervision :=
  match sv_heap s !! r with
  | None => s
  | Some p =>
      let sup := on_started (sup_new policy) now in
      install_hook (mark_dirty (set_entry s (p_id p) (mkEntry sup (Some r))) (p_id p)) r now unit
  end.

Definition register_restored (s : Supervision) (id : Uuid) (persisted : option PersistedRestartState)
    (default_policy : RestartPolicy) : Supervision :=
  let sup := match persisted with Some p => restore p | None => sup_new default_policy end in
  set_entry s id (mkEntry sup None).

Definition adopt_started (s : Supervision) (r : N) (fallback : RestartPolicy) (now : Z) (unit : spec_float) : Supervision :=
  match sv_heap s !! r with
  | None => s
  | Some p =>
      let sup := match sv_entries s !! p_id p with Some e => e_sup e | None => sup_new fallback end in
      let sup := on_started (reset_for_start sup) now in
      install_hook (mark_dirty (set_entry s (p_id p) (mkEntry sup (Some r))) (p_id p)) r now unit
  end.

Definition forget (s : Supervision) (id : Uuid) : Supervision :=
  let s' := match sv_entries s !! id with
            | None => s
            | Some e =>
                let s1 := mkSupervision (delete id (sv_entries s)) (sv_dirty s) (sv_heap s) in
                match upgrade s e with Some (r, p) => set_pane s1 r (retire p) | None => s1 end
            end in
  mkSupervision (sv_entries s') (sv_dirty s' ∖ {[id]}) (sv_heap s').

(** Spawns the next process for the entry of [id]. *)
Definition do_respawn (s : Supervision) (id : Uuid) (e : Entry) (automatic : bool)
    (spawned : result (option Z) string) (now : Z) (unit : spec_float) : Supervision * result (option Z) SupervisionError :=
  match upgrade s e with
  | None => (s, Err (PaneNotFound uuid_nil))
  | Some (r, p) =>
      if p_retired p then (s, Err (PaneNotFound (p_id p)))
      else
        let sup := begin_restart (e_sup e) now automatic in
        let '(p, res) := respawn_with p (λ pid, MkRestarted pid (sup_restart_count sup)) spawned in
        match res with
        | Ok pid =>
            let sup := on_started sup now in
            let p := emit_lifecycle (event_pid sup now pid) (set_restart_pending false p) in
            (set_pane (set_entry s id (mkEntry sup (e_pane e))) r p, Ok pid)
        | Err err =>
            let message := respawn_message err in
            let '(sup, kind) := on_spawn_failed powi sup now unit in
            let p := if p_retired p then p else announce_failed_spawn sup kind message now p in
            let p := set_restart_pending (restart_pending sup) p in
            (set_pane (set_entry s id (mkEntry sup (e_pane e))) r p, Err (PaneStart (p_id p) message))
        end
  end.

(** The panes whose restart is run by [run_due]. *)
Definition due_panes (s : Supervision) (now : Z) : list Uuid :=
  fst <$> filter (λ ide, due (e_sup (snd ide)) now = true ∧
                         match upgrade s (snd ide) with Some (_, p) => p_exited p | None => false end = true)
                 (map_to_list (sv_entries s)).

Definition run_due_one (spawned : Uuid → result (option Z) string) (unit : Uuid → spec_float) (now : Z)
    (s : Supervision) (id : Uuid) : Supervision :=
  match sv_entries s !! id with
  | None => s
  | Some e =>
      let automatic := bool_decide (sup_state (e_sup e) = Backoff) in
      mark_dirty (fst (do_respawn s id e automatic (spawned id) now (unit id))) id
  end.

(** When the next restart is due. *)
Definition next_due (s : Supervision) (now : Z) : option Z :=
  foldr (λ at_ms acc, Some (match acc with None => at_ms | Some b => Z.min at_ms b end)) None
    ((λ at_ms, Z.max at_ms (now + 1)) <$>
      omap (λ ide, if restart_pending (e_sup (snd ide)) then sup_next_restart_at_ms (e_sup (snd ide)) else None)
        (map_to_list (sv_entries s))).

Definition run_due (s : Supervision) (spawned : Uuid → result (option Z) string) (unit : Uuid → spec_float) (now : Z)
    : Supervision * option Z :=
  let s := foldl (run_due_one spawned unit now) s (due_panes s now) in
  (s, next_due s now).

Definition take_dirty (s : Supervision) : list Uuid * Supervision :=
  (elements (sv_dirty s), mkSupervision (sv_entries s) ∅ (sv_heap s)).

Definition state_of (s : Supervision) (id : Uuid) : option LifecycleState := sup_state ∘ e_sup <$> sv_entries s !! id.

Definition states (s : Supervision) : gmap Uuid LifecycleState := sup_state ∘ e_sup <$> sv_entries s.

Definition persisted_for (s : Supervision) (ids : list Uuid) : gmap Uuid PersistedRestartState :=
  list_to_map (omap (λ id, (λ e, (id, persisted (e_sup e))) <$> sv_entries s !! id) ids).

Record PaneStatus := mkPaneStatus { ps_pane_id : Uuid; ps_view : PaneStatusView; ps_pid : option Z; ps_now_ms : Z }.

Definition pane_status (s : Supervision) (id : Uuid) (now : Z) : option PaneStatus :=
  let! e := sv_entries s !! id in
  Some (mkPaneStatus id (status (e_sup e) now) (running_pane s e ≫= pane_pid ∘ snd) now).

Definition sv_set_policy (s : Supervision) (id : Uuid) (policy : RestartPolicy) (now : Z)
    : result Supervision SupervisionError :=
  let? _ := map_err InvalidRestartPolicy (validate policy) in
  let? e := ok_or (sv_entries s !! id) (PaneNotFound id) in
  let was_backoff := bool_decide (sup_state (e_sup e) = Backoff) in
  let sup := set_policy (e_sup e) policy in
  let s1 := set_entry s id (mkEntry sup (e_pane e)) in
  let s2 := match upgrade s e with
            | None => s1
            | Some (r, p) =>
                let p := set_restart_pending (restart_pending sup) p in
                let p := if was_backoff && bool_decide (sup_state sup = Exited)
                         then emit_lifecycle (event EvExited sup now) (inject_output MkCancelled p) else p in
                set_pane s1 r p
            end in
  Ok (mark_dirty s2 id).

(** [sent]: whether the signal could be delivered, and the error text otherwise. *)
Definition stop (s : Supervision) (id : Uuid) (sent : result unit string) (now : Z)
    : Supervision * result SignalOutcome SupervisionError :=
  match sv_entries s !! id with
  | None => (s, Err (PaneNotFound id))
  | Some e =>
      let before := e_sup e in
      let '(sup, needs_signal) := request_stop before in
      let s1 := set_entry s id (mkEntry sup (e_pane e)) in
      let pane := (λ '(r, p), (r, set_restart_pending false p)) <$> upgrade s e in
      let s2 := match pane with Some (r, p) => set_pane s1 r p | None => s1 end in
      if needs_signal then
        match pane with
        | Some (r, p) =>
            if p_exited p then (mark_dirty s2 id, Ok Signaled)
            else
              let '(p, ok) := terminate p (is_ok sent) in
              if ok then (mark_dirty (set_pane s2 r p) id, Ok Signaled)
              else
                let p := set_restart_pending (restart_pending before) p in
                (set_pane (set_entry s2 id (mkEntry before (e_pane e))) r p,
                 Err (PaneStart id (match sent with Err m => m | Ok _ => "" end)))
        | None => (mark_dirty s2 id, Ok Signaled)
        end
      else
        let s3 := match pane with
                  | Some (r, p) =>
                      if bool_decide (sup_state before = Stopped) then s2
                      else set_pane s2 r (emit_lifecycle (event EvStopped sup now)
                             (inject_output (MkStopped (bool_decide (sup_state before = Backoff))) p))
                  | None => s2
                  end in
        (mark_dirty s3 id, Ok Immediate)
  end.

Definition restart (s : Supervision) (id : Uuid) (reset_backoff : bool) (sent : result unit string)
    (spawned : result (option Z) string) (now : Z) (unit : spec_float)
    : Supervision * result SignalOutcome SupervisionError :=
  match sv_entries s !! id with
  | None => (s, Err (PaneNotFound id))
  | Some e =>
      let before := e_sup e in
      let '(sup, signaled) := request_restart before reset_backoff in
      let e1 := mkEntry sup (e_pane e) in
      let s1 := mark_dirty (set_entry s id e1) id in
      if signaled then
        match running_pane s1 e1 with
        | Some (r, p) =>
            let '(p, ok) := terminate p (is_ok sent) in
            if ok then (set_pane s1 r p, Ok Signaled)
            else (set_pane (set_entry s1 id (mkEntry before (e_pane e))) r p,
                  Err (PaneStart id (match sent with Err m => m | Ok _ => "" end)))
        | None => (s1, Ok Signaled)
        end
      else
        match running_pane s1 e1 with
        | Some (r, p) =>
            (set_pane (set_entry s1 id (mkEntry (schedule_manual_restart_now sup now) (e_pane e))) r
               (set_restart_pending true p), Ok Signaled)
        | None =>
            let '(s2, res) := do_respawn s1 id e1 false spawned now unit in
            (s2, match res with Ok _ => Ok Immediate | Err err => Err err end)
        end
  end.

Definition start (s : Supervision) (id : Uuid) (spawned : result (option Z) string) (now : Z) (unit : spec_float)
    : Supervision * result () SupervisionError :=
  match sv_entries s !! id with
  | None => (s, Err (PaneNotFound id))
  | Some e =>
      match running_pane s e with
      | Some _ => (s, Err (PaneRunning id))
      | None =>
          let e1 := mkEntry (reset_for_start (e_sup e)) (e_pane e) in
          let s1 := mark_dirty (set_entry s id e1) id in
          let '(s2, res) := do_respawn s1 id e1 false spawned now unit in
          (s2, match res with Ok _ => Ok () | Err err => Err err end)
      end
  end.

Definition sv_reset_budget (s : Supervision) (id : Uuid) : result Supervision SupervisionError :=
  let? e := ok_or (sv_entries s !! id) (PaneNotFound id) in
  Ok (mark_dirty (set_entry s id (mkEntry (reset_budget (e_sup e)) (e_pane e))) id).

End Ops.

(** ** The system: supervision calls interleaved with the reader threads *)

Inductive sv_step (powi : spec_float → Z → spec_float) : Supervision → Supervision → Prop :=
| Sv_spawn s r id pid :
    sv_heap s !! r = None → sv_step powi s (set_pane s r (pane_spawned id pid))
| Sv_register s r p policy now unit :
    sv_heap s !! r = Some p → p_exit_hook p = false → p_retired p = false → sv_entries s !! p_id p = None →
    sv_step powi s (register_live powi s r policy now unit)
| Sv_restored s id persisted policy :
    sv_entries s !! id = None → sv_step powi s (register_restored s id persisted policy)
| Sv_adopt s r p fallback now unit :
    sv_heap s !! r = Some p → p_exit_hook p = false → p_retired p = false →
    (∀ e, sv_entries s !! p_id p = Some e → e_pane e = None) →
    sv_step powi s (adopt_started powi s r fallback now unit)
| Sv_forget s id : sv_step powi s (forget s id)
| Sv_reap s r p code :
    sv_heap s !! r = Some p → p_reader p = RReading → sv_step powi s (set_pane s r (reader_reap p code))
| Sv_hook s r p call s' p' now unit :
    sv_heap s !! r = Some p → p_reader p = RReaped call →
    s' = (if call then fst (account_exit powi s r (p_exit_code p) now unit) else s) →
    sv_heap s' !! r = Some p' →
    sv_step powi s (set_pane s' r (reader_hooked p'))
| Sv_kill s r p sent :
    sv_heap s !! r = Some p → sv_step powi s (set_pane s r (fst (kill p sent)))
| Sv_publish s r p :
    sv_heap s !! r = Some p → p_reader p = RHooked → sv_step powi s (set_pane s r (reader_publish p))
| Sv_due s spawned unit now : sv_step powi s (fst (run_due powi s spawned unit now))
| Sv_take_dirty s : sv_step powi s (snd (take_dirty s))
| Sv_set_policy s s' id policy now : sv_set_policy s id policy now = Ok s' → sv_step powi s s'
| Sv_stop s id sent now : sv_step powi s (fst (stop s id sent now))
| Sv_restart s id reset sent spawned now unit :
    sv_step powi s (fst (restart powi s id reset sent spawned now unit))
| Sv_start s id spawned now unit : sv_step powi s (fst (start powi s id spawned now unit))
| Sv_reset_budget s s' id : sv_reset_budget s id = Ok s' → sv_step powi s s'.

Definition sv_init : Supervision := mkSupervision ∅ ∅ ∅.

(** ** Invariant *)

(** The reader thread still owes an accounting of its process's exit. *)
Definition reader_running (rd : Reader) : bool :=
  match rd with RReading | RReaped true => true | _ => false end.
Definition reader_checked (rd : Reader) : bool := match rd with RReading => false | _ => true end.
Definition reader_done (rd : Reader) : bool := match rd with RDone => true | _ => false end.

Record heap_ok (p : Pane) : Prop := {
  ho_exited : p_exited p = reader_done (p_reader p);
  ho_checked : p_exit_checked p = reader_checked (p_reader p);
  ho_hook : p_exit_hook p = false → p_reader p ≠ RReaped true;
}.

(** An entry and its pane: the supervisor believes a process runs exactly until the exit
    is accounted, and from then on the pane's [restart_pending] flag is the truth. *)
Record entry_ok (id : Uuid) (sup : PaneSupervisor) (p : Pane) : Prop := {
  eo_wf : wf_sup sup;
  eo_id : p_id p = id;
  eo_live : p_retired p = false;
  eo_hook : p_exit_hook p = true;
  eo_running : is_running sup = reader_running (p_reader p);
  eo_pending : reader_running (p_reader p) = false → p_restart_pending p = restart_pending sup;
}.

Definition entry_inv (s : Supervision) (id : Uuid) (e : Entry) : Prop :=
  match e_pane e with
  | None => wf_sup (e_sup e) ∧ is_running (e_sup e) = false ∧ restart_pending (e_sup e) = false
  | Some r => ∃ p, sv_heap s !! r = Some p ∧ entry_ok id (e_sup e) p
  end.

Record sv_inv (s : Supervision) : Prop := {
  si_heap : ∀ r p, sv_heap s !! r = Some p → heap_ok p;
  si_entries : ∀ id e, sv_entries s !! id = Some e → entry_inv s id e;
}.

(** *** Frame lemmas *)

Lemma sv_inv_dirty s d : sv_inv s → sv_inv (mkSupervision (sv_entries s) d (sv_heap s)).
Proof. intros [Hh He]. split; [exact Hh|exact He]. Qed.

Lemma sv_inv_mark s id : sv_inv s → sv_inv (mark_dirty s id).
Proof. apply sv_inv_dirty. Qed.

(** A pane that no entry refers to can change freely. *)
Lemma sv_inv_free_pane s r p' :
  sv_inv s → heap_ok p' →
  (∀ id e, sv_entries s !! id = Some e → e_pane e ≠ Some r) →
  sv_inv (set_pane s r p').
Proof.
  intros [Hh He] Hp Hfree. split; simpl.
  - intros r' q [[<- <-]|[_ Hq]]%lookup_insert_Some; [done|by eapply Hh].
  - intros id e Hid. specialize (He id e Hid). specialize (Hfree id e Hid). unfold entry_inv in *. simpl.
    destruct (e_pane e) as [r'|]; [|done]. rewrite lookup_insert_ne by congruence. done.
Qed.

(** Entry [id] and its own pane change together. *)
Lemma sv_inv_put s id r sup' p' :
  sv_inv s → (∀ id' e', sv_entries s !! id' = Some e' → id' ≠ id → e_pane e' ≠ Some r) →
  heap_ok p' → entry_ok id sup' p' →
  sv_inv (set_pane (set_entry s id (mkEntry sup' (Some r))) r p').
Proof.
  intros [Hh He] Hfree Hhp Hok. split; simpl.
  - intros r' q [[<- <-]|[_ Hq]]%lookup_insert_Some; [done|by eapply Hh].
  - intros id' e' [[<- <-]|[Hne He']]%lookup_insert_Some.
    + unfold entry_inv. simpl. rewrite lookup_insert_eq. eauto.
    + pose proof (He id' e' He') as H2. unfold entry_inv in *. simpl. specialize (Hfree id' e' He' ltac:(done)).
      destruct (e_pane e') as [r'|]; [|done]. rewrite lookup_insert_ne by congruence. done.
Qed.

(** Two entries never share a pane. *)
Lemma sv_inv_own s id e r :
  sv_inv s → sv_entries s !! id = Some e → e_pane e = Some r →
  ∀ id' e', sv_entries s !! id' = Some e' → id' ≠ id → e_pane e' ≠ Some r.
Proof.
  intros [Hh He] Hid Hr id' e' Hid' Hne Hr'. pose proof (He id e Hid) as H1. pose proof (He id' e' Hid') as H2.
  unfold entry_inv in *. rewrite Hr in H1. rewrite Hr' in H2.
  destruct H1 as (q & Hq & Hok1), H2 as (q' & Hq' & Hok2). rewrite Hq in Hq'. injection Hq' as ->.
  apply Hne. by rewrite <- (eo_id _ _ _ Hok1), <- (eo_id _ _ _ Hok2).
Qed.

(** Only the supervisor of entry [id] changes. *)
Lemma sv_inv_entry s id e sup' :
  sv_inv s → sv_entries s !! id = Some e →
  (∀ s0 : Supervision, sv_heap s0 = sv_heap s → entry_inv s0 id (mkEntry sup' (e_pane e))) →
  sv_inv (set_entry s id (mkEntry sup' (e_pane e))).
Proof.
  intros [Hh He] Hid Hok. split; [exact Hh|]. simpl.
  intros id' e' [[<- <-]|[Hne He']]%lookup_insert_Some; [by apply Hok|by apply He].
Qed.

Lemma upgrade_Some s e r p : upgrade s e = Some (r, p) ↔ e_pane e = Some r ∧ sv_heap s !! r = Some p.
Proof.
  unfold upgrade. destruct (e_pane e) as [r'|]; [|naive_solver].
  destruct (sv_heap s !! r') as [p'|] eqn:Hp; naive_solver congruence.
Qed.

Lemma upgrade_None s id e : sv_inv s → sv_entries s !! id = Some e → upgrade s e = None → e_pane e = None.
Proof.
  intros [_ He] Hid Hu. specialize (He id e Hid). unfold entry_inv, upgrade in *.
  destruct (e_pane e) as [r|]; [|done]. destruct He as (p & Hp & _). by rewrite Hp in Hu.
Qed.

(** *** What notes and flags leave alone *)

Definition core (p : Pane) : Uuid * bool * bool * bool * bool * Reader * Z :=
  (p_id p, p_exited p, p_retired p, p_exit_hook p, p_exit_checked p, p_reader p, p_generation p).

Lemma core_add_note n p : core (add_note n p) = core p.
Proof. by destruct p. Qed.
Lemma core_set_pending b p : core (set_restart_pending b p) = core p.
Proof. by destruct p. Qed.
Lemma core_announce_exit sup kind code signal now p : core (announce_exit sup kind code signal now p) = core p.
Proof. unfold announce_exit. destruct kind; [case_bool_decide|..]; by destruct p. Qed.
Lemma core_announce_failed sup kind err now p : core (announce_failed_spawn sup kind err now p) = core p.
Proof. destruct kind; by destruct p. Qed.
Lemma core_signal p sg b : core (fst (signal_then_kill p sg b)) = core p.
Proof. unfold signal_then_kill. destruct (p_pid p =? 0); by destruct p. Qed.
Lemma core_terminate p b : core (fst (terminate p b)) = core p.
Proof. apply core_signal. Qed.
Lemma pending_set b p : p_restart_pending (set_restart_pending b p) = b.
Proof. by destruct p. Qed.
Lemma pending_add_note n p : p_restart_pending (add_note n p) = p_restart_pending p.
Proof. by destruct p. Qed.
Lemma pending_terminate p b : p_restart_pending (fst (terminate p b)) = p_restart_pending p.
Proof. unfold terminate, signal_then_kill. destruct (p_pid p =? 0); by destruct p. Qed.
Lemma pending_signal p sg b : p_restart_pending (fst (signal_then_kill p sg b)) = p_restart_pending p.
Proof. unfold signal_then_kill. destruct (p_pid p =? 0); by destruct p. Qed.

Create Rewrite HintDb pane.
#[export] Hint Rewrite core_add_note core_set_pending core_announce_exit core_announce_failed core_terminate : pane.

Lemma core_fields p p' :
  core p' = core p →
  p_id p' = p_id p ∧ p_exited p' = p_exited p ∧ p_retired p' = p_retired p ∧ p_exit_hook p' = p_exit_hook p ∧
  p_exit_checked p' = p_exit_checked p ∧ p_reader p' = p_reader p ∧ p_generation p' = p_generation p.
Proof. unfold core. intros Hc. by simplify_eq. Qed.

Lemma heap_ok_core p p' : core p' = core p → heap_ok p → heap_ok p'.
Proof.
  intros (E1 & E2 & E3 & E4 & E5 & E6 & _)%core_fields [H1 H2 H3].
  split; rewrite ?E2, ?E4, ?E5, ?E6; done.
Qed.

Lemma entry_ok_core id sup sup' p p' :
  core p' = core p → entry_ok id sup p → wf_sup sup' → is_running sup' = is_running sup →
  (reader_running (p_reader p) = false → p_restart_pending p' = restart_pending sup') →
  entry_ok id sup' p'.
Proof.
  intros (E1 & E2 & E3 & E4 & E5 & E6 & _)%core_fields [H1 H2 H3 H4 H5 H6] Hw Hr Hp.
  split; rewrite ?E1, ?E3, ?E4, ?E6; try done. by rewrite Hr.
Qed.

(** *** The supervisor part of each operation is a run of lifecycle events *)

Section Steps.
Context (powi : spec_float → Z → spec_float).

(** [s'] is [s] with the supervisor of [id] (and its pane) replaced. *)
Definition updated (s s' : Supervision) (id : Uuid) (e : Entry) (sup' : PaneSupervisor) (r : N) (p' : Pane) : Prop :=
  sv_entries s' = <[id := mkEntry sup' (e_pane e)]> (sv_entries s) ∧ sv_heap s' = <[r := p']> (sv_heap s).

Lemma updated_inv s s' id e sup' r p p' :
  sv_inv s → sv_entries s !! id = Some e → e_pane e = Some r → sv_heap s !! r = Some p →
  updated s s' id e sup' r p' → heap_ok p' → entry_ok id sup' p' → sv_inv s'.
Proof.
  intros Hinv He Hr Hp [E1 E2] Hh Hok. destruct s' as [en d h]. simpl in *. subst. rewrite Hr.
  apply (sv_inv_dirty (set_pane (set_entry s id (mkEntry sup' (Some r))) r p')).
  apply sv_inv_put; try done. by eapply sv_inv_own.
Qed.

Lemma after_failure_dead s now code ran unit :
  is_running s = false → is_running (fst (after_failure powi s now code ran unit)) = false.
Proof.
  unfold after_failure, is_running. intros Hr. destruct s as [pol st rc log cf sa le nx sr rr]. simpl in *.
  destruct (wants_restart _ _); simpl; [|done].
  destruct ran as [d|]; [destruct (_ <=? d)|]; simpl;
    match goal with |- context [?a <=? ?x] => destruct (a <=? x) end; done.
Qed.

Lemma on_exit_dead s now code signal unit : is_running (fst (on_exit powi s now code signal unit)) = false.
Proof.
  unfold on_exit. destruct s as [pol st rc log cf sa le nx sr rr]. cbn -[after_failure is_running].
  destruct sr; [done|]. destruct rr; [done|]. by apply after_failure_dead.
Qed.

Lemma respawn_running s now automatic spawned unit :
  is_running (respawn powi s now automatic spawned unit) = spawned.
Proof.
  unfold respawn. destruct spawned; [by destruct s, automatic|].
  unfold on_spawn_failed. apply after_failure_dead. by destruct s, automatic.
Qed.

(** Spawning for a live entry whose process is gone. *)
Lemma do_respawn_updated s id e r p automatic spawned now unit :
  upgrade s e = Some (r, p) → p_retired p = false → p_exited p = true → heap_ok p →
  ∃ p', updated s (fst (do_respawn powi s id e automatic spawned now unit)) id e
          (respawn powi (e_sup e) now automatic (is_ok spawned) unit) r p' ∧
        p_id p' = p_id p ∧ p_retired p' = false ∧ p_exit_hook p' = p_exit_hook p ∧ heap_ok p' ∧
        reader_running (p_reader p') = is_ok spawned ∧
        (is_ok spawned = false →
         p_restart_pending p' = restart_pending (respawn powi (e_sup e) now automatic false unit)).
Proof.
  intros Hu Hret Hex Hok. unfold do_respawn. rewrite Hu, Hret. unfold respawn_with. rewrite Hret, Hex. simpl.
  destruct spawned as [pid|message]; simpl.
  - destruct p as [i ex rt rp pd sg gen hk ck code notes rd]. simpl in *. subst.
    eexists. split; [split; reflexivity|]. simpl. repeat split; done.
  - unfold respawn. destruct (on_spawn_failed powi (begin_restart (e_sup e) now automatic) now unit) as [sup kind] eqn:Hf.
    rewrite Hret. eexists. split; [split; reflexivity|]. simpl.
    set (p1 := announce_failed_spawn _ _ _ _ _).
    assert (Hc : core (set_restart_pending (restart_pending sup) p1) = core p) by (subst p1; by autorewrite with pane).
    pose proof (heap_ok_core _ _ Hc Hok) as Hok'. apply core_fields in Hc as (-> & _ & -> & -> & _ & -> & _).
    rewrite pending_set. destruct Hok as [Hd _ _]. rewrite Hex in Hd. destruct (p_reader p); done.
Qed.

(** [s'] follows [s] through permitted lifecycle events of each pane. *)
Definition initial_sup (sup : PaneSupervisor) : Prop := (∃ policy, sup = sup_new policy) ∨ (∃ p, sup = restore p).

Definition follows (s s' : Supervision) : Prop :=
  ∀ id e', sv_entries s' !! id = Some e' →
    match sv_entries s !! id with
    | Some e => ∃ evs, run_events powi (e_sup e) evs = Some (e_sup e')
    | None => ∃ sup0 evs, initial_sup sup0 ∧ run_events powi sup0 evs = Some (e_sup e')
    end.

Lemma follows_same s s' : sv_entries s' = sv_entries s → follows s s'.
Proof. intros E id e' He'. rewrite E in He'. rewrite He'. by exists []. Qed.

Lemma run_one sup ev : event_guard sup ev = true → run_events powi sup [ev] = Some (apply_event powi sup ev).
Proof. intros Hg. simpl. by rewrite Hg. Qed.

Lemma run_events_app evs1 evs2 a b c :
  run_events powi a evs1 = Some b → run_events powi b evs2 = Some c → run_events powi a (evs1 ++ evs2) = Some c.
Proof.
  revert a. induction evs1 as [|ev evs1 IH]; intros a; simpl; [by intros [= <-]|].
  destruct (event_guard a ev); [|done]. apply IH.
Qed.

(** Only entry [id] changes, by [evs]. *)
Lemma follows_entry s s' id e e' evs :
  sv_entries s !! id = Some e → run_events powi (e_sup e) evs = Some (e_sup e') →
  sv_entries s' = <[id := e']> (sv_entries s) → follows s s'.
Proof.
  intros He Hrun E id' e2 He2. rewrite E in He2. apply lookup_insert_Some in He2 as [[<- <-]|[_ He2]].
  - rewrite He. eauto.
  - rewrite He2. by exists [].
Qed.

Lemma dead_flags sup : wf_sup sup → is_running sup = false →
  sup_started_at_ms sup = None ∧ sup_stop_requested sup = false ∧ sup_restart_requested sup = false.
Proof. intros Hwf Hr%is_running_false. destruct (wf_dead_flags sup Hwf Hr). done. Qed.

(** One event on entry [id], with its pane updated consistently. *)
Lemma event_step s s' id e r p ev p' :
  sv_inv s → sv_entries s !! id = Some e → e_pane e = Some r → sv_heap s !! r = Some p →
  event_guard (e_sup e) ev = true →
  updated s s' id e (apply_event powi (e_sup e) ev) r p' →
  heap_ok p' → p_id p' = p_id p → p_retired p' = false → p_exit_hook p' = true →
  is_running (apply_event powi (e_sup e) ev) = reader_running (p_reader p') →
  (reader_running (p_reader p') = false → p_restart_pending p' = restart_pending (apply_event powi (e_sup e) ev)) →
  sv_inv s' ∧ follows s s'.
Proof.
  intros Hinv He Hr Hp Hg Hu Hh Hid Hret Hhk Hrun Hpend.
  pose proof (si_entries s Hinv id e He) as Hei. unfold entry_inv in Hei. rewrite Hr in Hei.
  destruct Hei as (q & Hq & [Hwf Hqid _ _ _ _]). rewrite Hp in Hq. injection Hq as <-.
  split; [|by apply (follows_entry s s' id e (mkEntry (apply_event powi (e_sup e) ev) (e_pane e)) [ev]);
    [|apply run_one|apply Hu]].
  eapply updated_inv; try done. split; try done; [by apply apply_event_wf|congruence].
Qed.

(** The pane of a live entry. *)
Lemma entry_pane s id e r :
  sv_inv s → sv_entries s !! id = Some e → e_pane e = Some r →
  ∃ p, sv_heap s !! r = Some p ∧ heap_ok p ∧ entry_ok id (e_sup e) p.
Proof.
  intros Hinv He Hr. pose proof (si_entries s Hinv id e He) as Hei. unfold entry_inv in Hei. rewrite Hr in Hei.
  destruct Hei as (p & Hp & Hok). exists p. split; [done|]. split; [by eapply si_heap|done].
Qed.

Lemma entry_no_pane s id e :
  sv_inv s → sv_entries s !! id = Some e → e_pane e = None →
  wf_sup (e_sup e) ∧ is_running (e_sup e) = false ∧ restart_pending (e_sup e) = false.
Proof.
  intros Hinv He Hr. pose proof (si_entries s Hinv id e He) as Hei. unfold entry_inv in Hei. by rewrite Hr in Hei.
Qed.

(** One event on an entry without a pane. *)
Lemma event_step_no_pane s s' id e ev :
  sv_inv s → sv_entries s !! id = Some e → e_pane e = None → event_guard (e_sup e) ev = true →
  sv_entries s' = <[id := mkEntry (apply_event powi (e_sup e) ev) None]> (sv_entries s) → sv_heap s' = sv_heap s →
  is_running (apply_event powi (e_sup e) ev) = false → restart_pending (apply_event powi (e_sup e) ev) = false →
  sv_inv s' ∧ follows s s'.
Proof.
  intros Hinv He Hn Hg E1 E2 Hr Hp. destruct (entry_no_pane s id e Hinv He Hn) as (Hwf & _ & _). split.
  - destruct s' as [en d h]. simpl in *. subst. apply (sv_inv_dirty (set_entry s id _)). rewrite <- Hn.
    apply sv_inv_entry; try done. intros s0 _. unfold entry_inv. simpl. rewrite Hn.
    split; [by apply apply_event_wf|done].
  - by apply (follows_entry s s' id e (mkEntry (apply_event powi (e_sup e) ev) None) [ev]); [|apply run_one|].
Qed.

(** *** Operations *)

Lemma respawn_step s id e r p automatic spawned now unit ev s0 sup0 :
  sv_inv s → sv_entries s !! id = Some e → e_pane e = Some r → sv_heap s !! r = Some p → p_exited p = true →
  sv_heap s0 = sv_heap s → sv_entries s0 = <[id := mkEntry sup0 (e_pane e)]> (sv_entries s) →
  event_guard (e_sup e) ev = true →
  apply_event powi (e_sup e) ev = respawn powi sup0 now automatic (is_ok spawned) unit →
  let s' := fst (do_respawn powi s0 id (mkEntry sup0 (e_pane e)) automatic spawned now unit) in
  sv_inv s' ∧ follows s s'.
Proof.
  intros Hinv He Hr Hp Hex Eh Ee Hg Hev s'.
  destruct (entry_pane s id e r Hinv He Hr) as (q & Hq & Hheap & Hok). rewrite Hp in Hq. injection Hq as <-.
  destruct (do_respawn_updated s0 id (mkEntry sup0 (e_pane e)) r p automatic spawned now unit)
    as (p' & [E1 E2] & Eid & Eret & Ehk & Hh' & Hrd & Hpd).
  { apply upgrade_Some. rewrite Eh. done. }
  { by apply Hok. } { done. } { done. }
  apply (event_step s s' id e r p ev p'); try done.
  - split; [|subst s'; by rewrite E2, Eh]. subst s'. rewrite E1, Ee, Hev. simpl. by rewrite insert_insert_eq.
  - rewrite Ehk. by apply Hok.
  - rewrite Hev, respawn_running. done.
  - rewrite Hev, Hrd. intros Hs. by rewrite (Hpd Hs), Hs.
Qed.

Lemma exited_dead s id e r p :
  sv_inv s → sv_entries s !! id = Some e → e_pane e = Some r → sv_heap s !! r = Some p → p_exited p = true →
  is_running (e_sup e) = false ∧ p_restart_pending p = restart_pending (e_sup e).
Proof.
  intros Hinv He Hr Hp Hex. destruct (entry_pane s id e r Hinv He Hr) as (q & Hq & [Hd _ _] & [_ _ _ _ Hrun Hpend]).
  rewrite Hp in Hq. injection Hq as <-. rewrite Hex in Hd. revert Hd Hrun Hpend.
  destruct (p_reader p); simpl; try done. intros _ -> Hpend. split; [done|by apply Hpend].
Qed.

Lemma start_step s id spawned now unit :
  sv_inv s → let s' := fst (start powi s id spawned now unit) in sv_inv s' ∧ follows s s'.
Proof.
  intros Hinv. unfold start. destruct (sv_entries s !! id) as [e|] eqn:He; [|by split; [|apply follows_same]].
  destruct (running_pane s e) as [[r p]|] eqn:Hrp; [by split; [|apply follows_same]|].
  set (s1 := mark_dirty _ _). set (e1 := mkEntry (reset_for_start (e_sup e)) (e_pane e)) in *.
  replace (fst (let '(s2, res) := do_respawn powi s1 id e1 false spawned now unit in _))
    with (fst (do_respawn powi s1 id e1 false spawned now unit))
    by (by destruct (do_respawn powi s1 id e1 false spawned now unit)).
  unfold running_pane in Hrp. destruct (upgrade s e) as [[r p]|] eqn:Hu.
  - destruct (p_exited p) eqn:Hex; [|done]. apply upgrade_Some in Hu as [Hr Hp].
    destruct (exited_dead s id e r p Hinv He Hr Hp Hex) as [Hdead _].
    eapply (respawn_step s id e r p false spawned now unit (Ev_start now (is_ok spawned) unit)); try done.
    simpl. by rewrite Hdead.
  - pose proof (upgrade_None s id e Hinv He Hu) as Hn. destruct (entry_no_pane s id e Hinv He Hn) as (Hwf & Hrun & Hpend).
    unfold do_respawn. replace (upgrade s1 e1) with (@None (N * Pane)) by (unfold upgrade; simpl; by rewrite Hn).
    simpl. eapply (event_step_no_pane s s1 id e Ev_start_refused); try done.
    + simpl. by rewrite Hrun, Hpend.
    + subst s1 e1. simpl. by rewrite Hn.
    + by destruct (e_sup e).
    + by destruct (e_sup e).
Qed.

Lemma request_restart_running sup reset :
  snd (request_restart sup reset) = is_running sup ∧
  is_running (fst (request_restart sup reset)) = is_running sup ∧
  (is_running sup = false → restart_pending (fst (request_restart sup reset)) = restart_pending sup).
Proof. destruct sup as [? ? ? ? ? [] ? ? ? ?], reset; done. Qed.

(** The process was signalled: the request is recorded, or withdrawn when the signal failed. *)
Lemma restart_signalled s st id e r p p1 sup' reset (now : Z) (unit : spec_float) :
  sv_inv s → sv_entries s !! id = Some e → e_pane e = Some r → sv_heap s !! r = Some p → core p1 = core p →
  is_running (e_sup e) = true →
  (sup' = fst (request_restart (e_sup e) reset) ∨ sup' = e_sup e) →
  sv_entries st = <[id := mkEntry sup' (e_pane e)]> (sv_entries s) → sv_heap st = <[r := p1]> (sv_heap s) →
  sv_inv st ∧ follows s st.
Proof.
  intros Hinv He Hr Hp Hct Hrun_e Hsup E1 E2. destruct (request_restart_running (e_sup e) reset) as (Esig & Erun & _).
  destruct (entry_pane s id e r Hinv He Hr) as (q & Hq & Hheap & Hok). rewrite Hp in Hq. injection Hq as <-.
  pose proof Hok as [Hwf Hpid Hret Hhk Hrun Hpend]. pose proof (core_fields _ _ Hct) as (F1 & F2 & F3 & F4 & F5 & F6 & _).
  assert (Hap : apply_event powi (e_sup e) (Ev_restart reset now true unit) = fst (request_restart (e_sup e) reset)).
  { cbn [apply_event]. destruct (request_restart _ _) as [sup signaled]. simpl in *. subst. by rewrite Hrun_e. }
  destruct Hsup as [-> | ->].
  - eapply (event_step s st id e r p (Ev_restart reset now true unit) p1); try done.
    + rewrite Hap. by split.
    + by eapply heap_ok_core.
    + by rewrite F3.
    + by rewrite F4.
    + rewrite Hap, F6, Erun. done.
    + by rewrite F6, <- Hrun, Hrun_e.
  - split; [|by eapply (follows_entry s st id e _ []); [..|exact E1]].
    eapply (updated_inv s st id e (e_sup e) r p p1); try done; [by eapply heap_ok_core|].
    eapply entry_ok_core; try done. by rewrite <- Hrun, Hrun_e.
Qed.

(** The process is on its way out: its restart is scheduled for when the exit is accounted. *)
Lemma restart_scheduled s st id e r p reset now :
  sv_inv s → sv_entries s !! id = Some e → e_pane e = Some r → sv_heap s !! r = Some p → is_running (e_sup e) = false →
  sv_entries st = <[id := mkEntry (schedule_manual_restart_now (fst (request_restart (e_sup e) reset)) now) (e_pane e)]> (sv_entries s) →
  sv_heap st = <[r := set_restart_pending true p]> (sv_heap s) →
  sv_inv st ∧ follows s st.
Proof.
  intros Hinv He Hr Hp Hrun_e E1 E2. destruct (request_restart_running (e_sup e) reset) as (_ & Erun & _).
  destruct (entry_pane s id e r Hinv He Hr) as (q & Hq & Hheap & Hok). rewrite Hp in Hq. injection Hq as <-.
  pose proof Hok as [Hwf Hpid Hret Hhk Hrun Hpend]. set (sup := fst (request_restart (e_sup e) reset)) in *.
  assert (Hap : apply_event powi (e_sup e) (Ev_restart_later reset now) = schedule_manual_restart_now sup now).
  { cbn [apply_event]. unfold sup. by destruct (request_restart _ _). }
  eapply (event_step s st id e r p (Ev_restart_later reset now) (set_restart_pending true p)); rewrite ?Hap; try done.
  - simpl. by rewrite Hrun_e.
  - eapply heap_ok_core; [apply core_set_pending|done].
  - by destruct p.
  - by destruct p.
  - by destruct p.
  - replace (is_running (schedule_manual_restart_now sup now)) with (is_running sup) by (by destruct sup).
    rewrite Erun, Hrun. by destruct p.
  - intros _. rewrite pending_set. by destruct sup.
Qed.

Lemma restart_step s id reset sent spawned now unit :
  sv_inv s → let s' := fst (restart powi s id reset sent spawned now unit) in sv_inv s' ∧ follows s s'.
Proof.
  intros Hinv. unfold restart. destruct (sv_entries s !! id) as [e|] eqn:He; [|by split; [|apply follows_same]].
  pose proof (request_restart_running (e_sup e) reset) as (Esig & Erun & Epend).
  destruct (request_restart (e_sup e) reset) as [sup signaled] eqn:Hreq. simpl in Esig, Erun, Epend. subst signaled.
  set (e1 := mkEntry sup (e_pane e)). set (s1 := mark_dirty (set_entry s id e1) id).
  assert (Hrp : running_pane s1 e1 = running_pane s e) by done. rewrite Hrp. clear Hrp.
  unfold running_pane. destruct (upgrade s e) as [[r p]|] eqn:Hu.
  - apply upgrade_Some in Hu as [Hr Hp]. destruct (entry_pane s id e r Hinv He Hr) as (q & Hq & Hheap & Hok).
    rewrite Hp in Hq. injection Hq as <-. pose proof Hok as [Hwf Hpid Hret Hhk Hrun Hpend].
    destruct (is_running (e_sup e)) eqn:Hrun_e.
    + assert (Hex : p_exited p = false) by (destruct Hheap as [-> _ _]; by destruct (p_reader p) as [|[]| |]).
      rewrite Hex. pose proof (core_terminate p (is_ok sent)) as Hct.
      destruct (terminate p (is_ok sent)) as [p1 ok]. simpl in Hct.
      destruct ok; simpl.
      * eapply (restart_signalled s _ id e r p p1 sup reset now unit); try done. left. by rewrite Hreq.
      * eapply (restart_signalled s _ id e r p p1 (e_sup e) reset now unit); try done; [by right|].
        simpl. by rewrite insert_insert_eq.
    + destruct (p_exited p) eqn:Hex.
      * replace (fst (let '(s2, res) := do_respawn powi s1 id e1 false spawned now unit in _))
          with (fst (do_respawn powi s1 id e1 false spawned now unit))
          by (by destruct (do_respawn powi s1 id e1 false spawned now unit)).
        eapply (respawn_step s id e r p false spawned now unit (Ev_restart reset now (is_ok spawned) unit)); try done.
        cbn [apply_event]. by rewrite Hreq.
      * simpl. eapply (restart_scheduled s _ id e r p reset now); try done.
        cbn [sv_entries set_pane set_entry s1 mark_dirty]. by rewrite insert_insert_eq, Hreq.
  - pose proof (upgrade_None s id e Hinv He Hu) as Hn. destruct (entry_no_pane s id e Hinv He Hn) as (Hwf & Hrun & Hpend).
    rewrite Hrun. simpl. unfold do_respawn.
    replace (upgrade s1 e1) with (@None (N * Pane)) by (unfold upgrade; simpl; by rewrite Hn).
    simpl. eapply (event_step_no_pane s s1 id e (Ev_restart_refused reset)); try done.
    + simpl. by rewrite Hrun, Hpend.
    + subst s1 e1. cbn [apply_event]. rewrite Hreq, Hn. done.
    + cbn [apply_event]. rewrite Hreq. simpl. by rewrite Erun.
    + cbn [apply_event]. rewrite Hreq. simpl. by rewrite Epend.
Qed.

(** An event that leaves the pane's process alone, on an entry with or without a pane. *)
Lemma quiet_event s s' id e ev :
  sv_inv s → sv_entries s !! id = Some e → event_guard (e_sup e) ev = true →
  sv_entries s' = <[id := mkEntry (apply_event powi (e_sup e) ev) (e_pane e)]> (sv_entries s) →
  is_running (apply_event powi (e_sup e) ev) = is_running (e_sup e) →
  (restart_pending (e_sup e) = false → restart_pending (apply_event powi (e_sup e) ev) = false) →
  match upgrade s e with
  | None => sv_heap s' = sv_heap s
  | Some (r, p) => ∃ p', sv_heap s' = <[r := p']> (sv_heap s) ∧ core p' = core p ∧
      (is_running (e_sup e) = false → p_restart_pending p' = restart_pending (apply_event powi (e_sup e) ev))
  end →
  sv_inv s' ∧ follows s s'.
Proof.
  intros Hinv He Hg Een Hrun Hpend Hheap. destruct (upgrade s e) as [[r p]|] eqn:Hu.
  - apply upgrade_Some in Hu as [Hr Hp]. destruct Hheap as (p' & Eh & Hc & Hpd).
    destruct (entry_pane s id e r Hinv He Hr) as (q & Hq & Hhp & [Hwf Hpid Hret Hhk Hr1 Hp1]).
    rewrite Hp in Hq. injection Hq as <-. pose proof (core_fields _ _ Hc) as (F1 & F2 & F3 & F4 & F5 & F6 & _).
    eapply (event_step s s' id e r p ev p'); try done.
    + by eapply heap_ok_core.
    + by rewrite F3.
    + by rewrite F4.
    + by rewrite F6, Hrun.
    + rewrite F6, <- Hr1. done.
  - pose proof (upgrade_None s id e Hinv He Hu) as Hn. destruct (entry_no_pane s id e Hinv He Hn) as (Hwf & Hr0 & Hp0).
    rewrite Hn in Een. eapply (event_step_no_pane s s' id e ev); try done; [by rewrite Hrun|by apply Hpend].
Qed.

Lemma set_policy_quiet sup policy :
  is_running (set_policy sup policy) = is_running sup ∧
  (restart_pending sup = false → restart_pending (set_policy sup policy) = false).
Proof.
  unfold set_policy. destruct sup as [? st ? ? ? ? ? ? ? ?]. simpl.
  case_bool_decide; [destruct (wants_restart _ _)|]; done.
Qed.

Lemma set_policy_step s s' id policy now :
  sv_inv s → sv_set_policy s id policy now = Ok s' → sv_inv s' ∧ follows s s'.
Proof.
  intros Hinv. unfold sv_set_policy. destruct (validate policy); [|done]. simpl.
  destruct (sv_entries s !! id) as [e|] eqn:He; [|done]. simpl. intros Hs.
  destruct (set_policy_quiet (e_sup e) policy) as [Hr Hp].
  apply (quiet_event s s' id e (Ev_set_policy policy)); try done.
  - injection Hs as <-. by destruct (upgrade s e) as [[r p]|].
  - injection Hs as <-. destruct (upgrade s e) as [[r p]|]; [|done]. eexists. split; [reflexivity|].
    split; [|intros _]; cbn [apply_event]; case_match; unfold emit_lifecycle, inject_output;
      rewrite ?core_add_note, ?core_set_pending, ?pending_add_note, ?pending_set; done.
Qed.

Lemma request_stop_quiet sup :
  is_running (fst (request_stop sup)) = is_running sup ∧ restart_pending (fst (request_stop sup)) = false.
Proof. destruct sup as [? [] ? ? ? [] ? ? [] ?]; done. Qed.

Lemma stop_signal_running sup : wf_sup sup → snd (request_stop sup) = is_running sup.
Proof.
  destruct sup as [? [] ? ? ? [] ? ? [] ?]; unfold wf_sup, request_stop, is_running; simpl; try done;
    rewrite ?is_Some_alt; naive_solver.
Qed.

Lemma stop_step s id sent now :
  sv_inv s → let s' := fst (stop s id sent now) in sv_inv s' ∧ follows s s'.
Proof.
  intros Hinv. unfold stop. destruct (sv_entries s !! id) as [e|] eqn:He; [|by split; [|apply follows_same]].
  destruct (request_stop_quiet (e_sup e)) as [Hr Hp].
  destruct (request_stop (e_sup e)) as [sup needs] eqn:Hreq. simpl in Hr, Hp.
  assert (Hquiet : ∀ st, sv_entries st = <[id := mkEntry sup (e_pane e)]> (sv_entries s) →
    match upgrade s e with
    | None => sv_heap st = sv_heap s
    | Some (r, p) => ∃ p', sv_heap st = <[r := p']> (sv_heap s) ∧ core p' = core p ∧ p_restart_pending p' = false
    end → sv_inv st ∧ follows s st).
  { intros st E1 E2.
    assert (Hap : apply_event powi (e_sup e) Ev_stop = sup) by (cbn [apply_event]; by rewrite Hreq).
    apply (quiet_event s st id e Ev_stop); rewrite ?Hap; try done.
    destruct (upgrade s e) as [[r p]|]; [|done]. destruct E2 as (p' & ? & ? & ?). exists p'. rewrite Hp. done. }
  destruct (upgrade s e) as [[r p]|] eqn:Hu; cbn [fmap option_fmap option_map].
  - destruct needs.
    + destruct (p_exited _) eqn:Hex.
      { apply Hquiet; [done|]. eexists. split; [reflexivity|]. split; [apply core_set_pending|apply pending_set]. }
      pose proof (core_terminate (set_restart_pending false p) (is_ok sent)) as Hct.
      pose proof (pending_terminate (set_restart_pending false p) (is_ok sent)) as Hpt.
      destruct (terminate (set_restart_pending false p) (is_ok sent)) as [p1 ok]. simpl in Hct, Hpt.
      rewrite core_set_pending in Hct. rewrite pending_set in Hpt. destruct ok; simpl.
      * apply Hquiet; [done|]. exists p1. split; [simpl; by rewrite insert_insert_eq|done].
      * apply upgrade_Some in Hu as [Hr0 Hp0].
        destruct (entry_pane s id e r Hinv He Hr0) as (q & Hq & Hhp & Hok). rewrite Hp0 in Hq. injection Hq as <-.
        set (p2 := set_restart_pending (restart_pending (e_sup e)) p1).
        assert (Hc2 : core p2 = core p) by (subst p2; by rewrite core_set_pending).
        assert (E2 : sv_entries (set_pane (set_entry (set_pane (set_entry s id (mkEntry sup (e_pane e))) r
          (set_restart_pending false p)) id (mkEntry (e_sup e) (e_pane e))) r p2) =
          <[id := mkEntry (e_sup e) (e_pane e)]> (sv_entries s)) by (simpl; by rewrite insert_insert_eq).
        split; [|by eapply (follows_entry s _ id e _ []); [..|exact E2]].
        eapply (updated_inv s _ id e (e_sup e) r p p2); try done.
        -- split; [exact E2|]. simpl. by rewrite insert_insert_eq.
        -- by eapply heap_ok_core.
        -- eapply entry_ok_core; try done; [apply Hok|]. intros _. subst p2. by rewrite pending_set.
    + case_bool_decide; apply Hquiet; try done.
      * eexists. split; [reflexivity|]. split; [apply core_set_pending|apply pending_set].
      * eexists. split; [simpl; rewrite insert_insert_eq; reflexivity|]. unfold emit_lifecycle, inject_output.
        rewrite !core_add_note, core_set_pending, !pending_add_note, pending_set. done.
  - destruct needs; by apply Hquiet.
Qed.

Lemma reset_budget_step s s' id : sv_inv s → sv_reset_budget s id = Ok s' → sv_inv s' ∧ follows s s'.
Proof.
  intros Hinv. unfold sv_reset_budget. destruct (sv_entries s !! id) as [e|] eqn:He; [|done]. simpl. intros [= <-].
  assert (Hq : is_running (reset_budget (e_sup e)) = is_running (e_sup e) ∧
               restart_pending (reset_budget (e_sup e)) = restart_pending (e_sup e)).
  { unfold reset_budget. destruct (e_sup e) as [? [] ? ? ? ? ? ? ? ?]; done. }
  destruct Hq as [Hr Hp]. apply (quiet_event s _ id e Ev_reset_budget); try done.
  - cbn [apply_event]. by rewrite Hp.
  - destruct (upgrade s e) as [[r p]|] eqn:Hu; [|done]. apply upgrade_Some in Hu as [Hr0 Hp0].
    exists p. split; [simpl; by rewrite insert_id|]. split; [done|]. intros Hdead. cbn [apply_event]. rewrite Hp.
    destruct (entry_pane s id e r Hinv He Hr0) as (q & Hq & _ & Hok). rewrite Hp0 in Hq. injection Hq as <-.
    apply Hok. by rewrite <- (eo_running _ _ _ Hok).
Qed.

Lemma forget_step s id : sv_inv s → sv_inv (forget s id) ∧ follows s (forget s id).
Proof.
  intros Hinv. unfold forget. destruct (sv_entries s !! id) as [e|] eqn:He.
  2: { split; [by apply sv_inv_dirty|by apply follows_same]. }
  assert (Hdel : ∀ id' e', delete id (sv_entries s) !! id' = Some e' → id' ≠ id ∧ sv_entries s !! id' = Some e').
  { intros id' e' [? ?]%lookup_delete_Some. done. }
  split.
  - apply sv_inv_dirty.
    assert (H1 : sv_inv (mkSupervision (delete id (sv_entries s)) (sv_dirty s) (sv_heap s))).
    { split; simpl; [apply Hinv|]. intros id' e' [_ He']%Hdel. by apply (si_entries s Hinv). }
    destruct (upgrade s e) as [[r p]|] eqn:Hu; [|exact H1]. apply upgrade_Some in Hu as [Hr Hp].
    apply sv_inv_free_pane; [exact H1| |].
    + pose proof (si_heap s Hinv r p Hp) as [? ? ?]. destruct p. by split.
    + simpl. intros id' e' [Hne He']%Hdel. exact (sv_inv_own s id e r Hinv He Hr id' e' He' Hne).
  - intros id' e' He'. assert (He2 : sv_entries s !! id' = Some e').
    { destruct (upgrade s e) as [[r p]|]; simpl in He'; by apply Hdel in He' as [_ ?]. }
    rewrite He2. by exists [].
Qed.

(** The exit of a pane's process, accounted for its entry. *)
Lemma account_exit_cases s r p code now unit :
  sv_heap s !! r = Some p →
  let s' := fst (account_exit powi s r code now unit) in
  (s' = s ∧ ∀ e, sv_entries s !! p_id p = Some e → e_pane e ≠ Some r) ∨
  (∃ e p', sv_entries s !! p_id p = Some e ∧ e_pane e = Some r ∧
     let sup' := apply_event powi (e_sup e) (Ev_exit now code (signal_sent p) unit) in
     updated s s' (p_id p) e sup' r p' ∧ core p' = core p ∧ p_restart_pending p' = restart_pending sup').
Proof.
  intros Hp. unfold account_exit. rewrite Hp. destruct (sv_entries s !! p_id p) as [e|] eqn:He; [|left; by split].
  case_bool_decide as Hr; simpl; [|left; split; [done|]; by intros e' [= <-]].
  right. exists e. destruct (on_exit powi (e_sup e) now code (signal_sent p) unit) as [sup kind] eqn:Hx. simpl.
  set (p1 := announce_exit _ _ _ _ _ _).
  assert (Hc : core (set_restart_pending (restart_pending sup) p1) = core p) by (subst p1; by autorewrite with pane).
  pose proof (core_fields _ _ Hc) as (F1 & _).
  exists (set_restart_pending (restart_pending sup) p1). split; [done|]. split; [done|].
  split; [split; simpl; [by rewrite F1|done]|]. split; [done|apply pending_set].
Qed.

Lemma reader_hooked_core p : core (reader_hooked p) = (p_id p, p_exited p, p_retired p, p_exit_hook p, p_exit_checked p, RHooked, p_generation p).
Proof. by destruct p. Qed.

Lemma heap_ok_hooked p b : heap_ok p → p_reader p = RReaped b → heap_ok (reader_hooked p).
Proof. intros [H1 H2 H3] Hr. rewrite Hr in *. destruct p; split; simpl in *; try done. Qed.

Lemma hook_step s r p call s' p' now unit :
  sv_inv s → sv_heap s !! r = Some p → p_reader p = RReaped call →
  s' = (if call then fst (account_exit powi s r (p_exit_code p) now unit) else s) →
  sv_heap s' !! r = Some p' →
  sv_inv (set_pane s' r (reader_hooked p')) ∧ follows s (set_pane s' r (reader_hooked p')).
Proof.
  intros Hinv Hp Hrd Hs' Hp'. pose proof (si_heap s Hinv r p Hp) as Hheap.
  destruct (account_exit_cases s r p (p_exit_code p) now unit Hp) as [[Es Hno]|(e & p1 & He & Hr & Hu & Hc & Hpd)].
  - assert (s' = s) as -> by (destruct call; congruence). rewrite Hp in Hp'. injection Hp' as <-.
    split; [|by apply follows_same]. apply sv_inv_free_pane; [done|by eapply heap_ok_hooked|].
    intros id e He Hr. pose proof (entry_pane s id e r Hinv He Hr) as (q & Hq & _ & Hok).
    rewrite Hp in Hq. injection Hq as <-. rewrite <- (eo_id _ _ _ Hok) in He. by apply (Hno e He).
  - destruct (entry_pane s (p_id p) e r Hinv He Hr) as (q & Hq & _ & Hok). rewrite Hp in Hq. injection Hq as <-.
    pose proof (eo_running _ _ _ Hok) as Hrun. rewrite Hrd in Hrun. destruct call; subst s'.
    + destruct Hu as [E1 E2]. rewrite E2, lookup_insert_eq in Hp'. injection Hp' as <-.
      pose proof (core_fields _ _ Hc) as (F1 & F2 & F3 & F4 & F5 & F6 & _).
      eapply (event_step s _ (p_id p) e r p (Ev_exit now (p_exit_code p) (signal_sent p) unit) (reader_hooked p1)); try done.
      * split; [done|]. simpl. by rewrite E2, insert_insert_eq.
      * eapply heap_ok_hooked; [by eapply heap_ok_core|]. by rewrite F6.
      * by destruct p1.
      * rewrite <- (eo_live _ _ _ Hok), <- F3. by destruct p1.
      * rewrite <- (eo_hook _ _ _ Hok), <- F4. by destruct p1.
      * cbn [apply_event]. rewrite on_exit_dead. by destruct p1.
      * intros _. rewrite <- Hpd. by destruct p1.
    + rewrite Hp in Hp'. injection Hp' as <-. split; [|by apply follows_same].
      apply (updated_inv s _ (p_id p) e (e_sup e) r p (reader_hooked p)); try done.
      * split; [|done]. simpl. by rewrite insert_id; destruct e.
      * by eapply heap_ok_hooked.
      * destruct Hok as [Hwf Hid Hret Hhk _ Hpend]. rewrite Hrd in Hpend. split; try done; destruct p; simpl in *; done.
Qed.

(** Reaping and publishing change only the reader's progress. *)
Lemma reader_step s r p p' :
  sv_inv s → sv_heap s !! r = Some p → heap_ok p' →
  (∀ id sup, entry_ok id sup p → entry_ok id sup p') →
  sv_inv (set_pane s r p') ∧ follows s (set_pane s r p').
Proof.
  intros Hinv Hp Hh Hok. split; [|by apply follows_same]. split; simpl.
  - intros r' q [[<- <-]|[_ Hq]]%lookup_insert_Some; [done|by eapply (si_heap s Hinv)].
  - intros id e He. pose proof (si_entries s Hinv id e He) as Hei. unfold entry_inv in *. simpl.
    destruct (e_pane e) as [r'|]; [|done]. destruct Hei as (q & Hq & Hq2). destruct (decide (r = r')) as [<-|Hne].
    + rewrite lookup_insert_eq. rewrite Hp in Hq. injection Hq as <-. eauto.
    + rewrite lookup_insert_ne by done. eauto.
Qed.

Lemma reap_step s r p code :
  sv_inv s → sv_heap s !! r = Some p → p_reader p = RReading →
  sv_inv (set_pane s r (reader_reap p code)) ∧ follows s (set_pane s r (reader_reap p code)).
Proof.
  intros Hinv Hp Hrd. pose proof (si_heap s Hinv r p Hp) as [H1 H2 H3].
  eapply reader_step; try done; destruct p as [i ex rt rp pd sg gen hk ck c n rd]; simpl in *; subst rd.
  - split; simpl; try done. by intros ->.
  - intros id sup [Hwf Hid Hret Hhk Hrun Hpend]. simpl in *. subst hk. split; simpl; done.
Qed.

Lemma kill_step s r p sent :
  sv_inv s → sv_heap s !! r = Some p →
  sv_inv (set_pane s r (fst (kill p sent))) ∧ follows s (set_pane s r (fst (kill p sent))).
Proof.
  intros Hinv Hp. pose proof (core_signal p SIGHUP sent) as Hc. eapply reader_step; [done|done| |].
  - eapply heap_ok_core; [exact Hc|]. by eapply (si_heap s Hinv).
  - intros id sup Hok. eapply entry_ok_core; [exact Hc|exact Hok|apply Hok|done|].
    intros Hr. unfold kill. rewrite pending_signal. by apply (eo_pending _ _ _ Hok).
Qed.

Lemma publish_step s r p :
  sv_inv s → sv_heap s !! r = Some p → p_reader p = RHooked →
  sv_inv (set_pane s r (reader_publish p)) ∧ follows s (set_pane s r (reader_publish p)).
Proof.
  intros Hinv Hp Hrd. pose proof (si_heap s Hinv r p Hp) as [H1 H2 H3].
  eapply reader_step; try done; destruct p as [i ex rt rp pd sg gen hk ck c n rd]; simpl in *; subst rd.
  - split; simpl; done.
  - intros id sup [Hwf Hid Hret Hhk Hrun Hpend]. simpl in *. split; simpl; done.
Qed.

(** Enrolling a pane that has no exit hook yet (new, or the successor of a restored
    record). *)
Lemma enroll_step s r p sup0 now unit :
  sv_inv s → sv_heap s !! r = Some p → p_exit_hook p = false → p_retired p = false →
  wf_sup sup0 → is_running sup0 = true →
  let s' := install_hook powi (mark_dirty (set_entry s (p_id p) (mkEntry sup0 (Some r))) (p_id p)) r now unit in
  sv_inv s' ∧ ∃ evs sup', run_events powi sup0 evs = Some sup' ∧
    sv_entries s' = <[p_id p := mkEntry sup' (Some r)]> (sv_entries s).
Proof.
  intros Hinv Hp Hhk Hret Hwf Hrun. pose proof (si_heap s Hinv r p Hp) as Hheap.
  assert (Hfree : ∀ id e, sv_entries s !! id = Some e → e_pane e ≠ Some r).
  { intros id e He Hr. destruct (entry_pane s id e r Hinv He Hr) as (q & Hq & _ & Hok).
    rewrite Hp in Hq. injection Hq as <-. pose proof (eo_hook _ _ _ Hok). congruence. }
  unfold install_hook. cbn [sv_heap mark_dirty set_entry]. rewrite Hp.
  destruct (set_exit_hook p) as [p1 before] eqn:Hset.
  assert (Hp1 : core p1 = (p_id p, p_exited p, p_retired p, true, p_exit_checked p, p_reader p, p_generation p) ∧
                before = p_exit_checked p).
  { destruct p; simpl in *. injection Hset as <- <-. done. }
  destruct Hp1 as [Hc Hbefore].
  assert (F : p_id p1 = p_id p ∧ p_exited p1 = p_exited p ∧ p_retired p1 = p_retired p ∧ p_exit_hook p1 = true ∧
    p_exit_checked p1 = p_exit_checked p ∧ p_reader p1 = p_reader p) by (unfold core in Hc; by simplify_eq).
  destruct F as (F1 & F2 & F3 & F4 & F5 & F6).
  assert (Hh1 : heap_ok p1) by (destruct Hheap as [? ? ?]; split; congruence).
  rewrite (ho_checked _ Hheap) in Hbefore.
  destruct before.
  - set (s1 := set_pane _ r p1). cbv zeta.
    destruct (account_exit_cases s1 r p1 (p_exit_code p1) now unit) as [[_ Hno]|(e & p2 & He & Hr & [E1 E2] & Hc2 & Hpd)].
    { simpl. by rewrite lookup_insert_eq. }
    { exfalso. apply (Hno (mkEntry sup0 (Some r))); [|done]. simpl. by rewrite F1, lookup_insert_eq. }
    simpl in He. rewrite F1, lookup_insert_eq in He. injection He as <-. simpl in E1, E2, Hpd.
    pose proof (core_fields _ _ Hc2) as (G1 & G2 & G3 & G4 & G5 & G6 & _).
    rewrite F1, insert_insert_eq in E1. rewrite insert_insert_eq in E2.
    set (sup' := fst (on_exit powi sup0 now (p_exit_code p1) (signal_sent p1) unit)) in *.
    assert (Hg : event_guard sup0 (Ev_exit now (p_exit_code p1) (signal_sent p1) unit) = true) by done.
    split.
    + destruct (fst (account_exit powi s1 r (p_exit_code p1) now unit)) as [en d h]. simpl in *. subst en h.
      apply (sv_inv_dirty (set_pane (set_entry s (p_id p) (mkEntry sup' (Some r))) r p2)).
      apply sv_inv_put; [done|by intros id' e' He' _; apply (Hfree id')|by eapply heap_ok_core|].
      split; [exact (apply_event_wf powi sup0 (Ev_exit now (p_exit_code p1) (signal_sent p1) unit) Hwf Hg)|congruence|congruence|congruence| |done].
      rewrite G6, F6. unfold sup'. rewrite on_exit_dead. destruct Hheap as [_ _ Hhook].
      specialize (Hhook Hhk). destruct (p_reader p) as [|[]| |]; done.
    + exists [Ev_exit now (p_exit_code p1) (signal_sent p1) unit], sup'. split; [|done].
      exact (run_one sup0 (Ev_exit now (p_exit_code p1) (signal_sent p1) unit) Hg).
  - split.
    + apply (sv_inv_dirty (set_pane (set_entry s (p_id p) (mkEntry sup0 (Some r))) r p1)).
      apply sv_inv_put; [done|by intros id' e' He' _; apply (Hfree id')|done|].
      split; try congruence; rewrite ?F6, ?Hrun; destruct (p_reader p); done.
    + exists [], sup0. done.
Qed.

Lemma register_step s r p policy now unit :
  sv_inv s → sv_heap s !! r = Some p → p_exit_hook p = false → p_retired p = false → sv_entries s !! p_id p = None →
  sv_inv (register_live powi s r policy now unit) ∧ follows s (register_live powi s r policy now unit).
Proof.
  intros Hinv Hp Hhk Hret Hnone. unfold register_live. rewrite Hp.
  destruct (enroll_step s r p (on_started (sup_new policy) now) now unit) as [Hi (evs & sup' & Hrun & Een)]; try done.
  split; [done|]. intros id e' He'. rewrite Een in He'. apply lookup_insert_Some in He' as [[<- <-]|[_ He']].
  - rewrite Hnone. exists (sup_new policy), (Ev_adopt now :: evs). split; [left; eauto|]. exact Hrun.
  - rewrite He'. by exists [].
Qed.

Lemma adopt_step s r p fallback now unit :
  sv_inv s → sv_heap s !! r = Some p → p_exit_hook p = false → p_retired p = false →
  (∀ e, sv_entries s !! p_id p = Some e → e_pane e = None) →
  sv_inv (adopt_started powi s r fallback now unit) ∧ follows s (adopt_started powi s r fallback now unit).
Proof.
  intros Hinv Hp Hhk Hret Hno. unfold adopt_started. rewrite Hp.
  set (sup := match sv_entries s !! p_id p with Some e => e_sup e | None => sup_new fallback end).
  assert (Hdead : is_running sup = false).
  { subst sup. destruct (sv_entries s !! p_id p) as [e|] eqn:He; [|done].
    by destruct (entry_no_pane s _ e Hinv He (Hno e eq_refl)) as (_ & ? & _). }
  destruct (enroll_step s r p (on_started (reset_for_start sup) now) now unit) as [Hi (evs & sup' & Hrun & Een)]; try done.
  { destruct sup. unfold wf_sup. simpl. eauto. }
  { by destruct sup. }
  split; [done|]. intros id e' He'. rewrite Een in He'. apply lookup_insert_Some in He' as [[<- <-]|[_ He']].
  - assert (Hall : run_events powi sup (Ev_adopt now :: evs) = Some sup').
    { simpl. by rewrite Hdead. }
    subst sup. destruct (sv_entries s !! p_id p) as [e|]; [eauto|]. eexists _, _. split; [left; eauto|exact Hall].
  - rewrite He'. by exists [].
Qed.

Lemma restored_step s id persisted policy :
  sv_inv s → sv_entries s !! id = None →
  sv_inv (register_restored s id persisted policy) ∧ follows s (register_restored s id persisted policy).
Proof.
  intros Hinv Hn. unfold register_restored.
  set (sup := match persisted with Some p => restore p | None => sup_new policy end).
  assert (Hs : initial_sup sup) by (subst sup; destruct persisted; [right|left]; eauto).
  assert (Hok : wf_sup sup ∧ is_running sup = false ∧ restart_pending sup = false).
  { subst sup. destruct persisted as [[? [] ? ? ? ?]|]; try done.
    split; [|done]. unfold wf_sup. simpl. rewrite is_Some_alt. naive_solver. }
  split.
  - split; simpl; [apply Hinv|]. intros id' e' [[<- <-]|[_ He']]%lookup_insert_Some; [done|by apply Hinv].
  - intros id' e'. simpl. intros [[<- <-]|[_ He']]%lookup_insert_Some; [rewrite Hn; exists sup, []; done|rewrite He'; by exists []].
Qed.

(** *** Timers *)

(** [s'] has the same entries as [s] apart from the supervisors' states, and follows it. *)
Definition follows_all (s s' : Supervision) : Prop :=
  (∀ id, is_Some (sv_entries s' !! id) ↔ is_Some (sv_entries s !! id)) ∧ follows s s'.

Lemma follows_trans s1 s2 s3 : follows_all s1 s2 → follows_all s2 s3 → follows_all s1 s3.
Proof.
  intros [D1 F1] [D2 F2]. split; [intros id; by rewrite D2, D1|].
  intros id e3 He3. specialize (F2 id e3 He3). destruct (sv_entries s2 !! id) as [e2|] eqn:He2.
  - specialize (F1 id e2 He2). destruct F2 as (evs2 & R2). destruct (sv_entries s1 !! id) as [e1|] eqn:He1.
    + destruct F1 as (evs1 & R1). exists (evs1 ++ evs2). by eapply run_events_app.
    + destruct F1 as (sup0 & evs1 & Hi & R1). exists sup0, (evs1 ++ evs2). split; [done|]. by eapply run_events_app.
  - assert (Hno : is_Some (sv_entries s2 !! id)) by (apply D2; eauto). rewrite He2 in Hno. by destruct Hno.
Qed.

(** A pane whose restart is due and whose exit is published. *)
Definition ready (s : Supervision) (now : Z) (id : Uuid) : Prop :=
  ∃ e r p, sv_entries s !! id = Some e ∧ e_pane e = Some r ∧ sv_heap s !! r = Some p ∧
           due (e_sup e) now = true ∧ p_exited p = true.

Lemma due_panes_ready s now id : id ∈ due_panes s now ↔ ready s now id.
Proof.
  unfold due_panes, ready. rewrite list_elem_of_fmap. split.
  - intros ([id' e] & -> & Hin). apply list_elem_of_filter in Hin as [[Hd Hx] Hin].
    apply elem_of_map_to_list in Hin. simpl in *. destruct (upgrade s e) as [[r p]|] eqn:Hu; [|done].
    apply upgrade_Some in Hu as [Hr Hp]. exists e, r, p. done.
  - intros (e & r & p & He & Hr & Hp & Hd & Hx). exists (id, e). split; [done|].
    apply list_elem_of_filter. split; [|by apply elem_of_map_to_list]. simpl. split; [done|].
    by rewrite (proj2 (upgrade_Some s e r p)).
Qed.

Lemma due_panes_NoDup s now : NoDup (due_panes s now).
Proof.
  unfold due_panes. eapply (sublist_NoDup _ (fst <$> map_to_list (sv_entries s))).
  { apply NoDup_fst_map_to_list. }
  apply sublist_map, sublist_filter.
Qed.

Lemma mark_step s id : follows_all s (mark_dirty s id).
Proof. split; [done|]. by apply follows_same. Qed.

Lemma run_due_one_step s spawned unit now id :
  sv_inv s → ready s now id →
  let s' := run_due_one powi spawned unit now s id in
  sv_inv s' ∧ follows_all s s' ∧ (∀ id', id' ≠ id → sv_entries s' !! id' = sv_entries s !! id') ∧
  (∀ r q, sv_heap s !! r = Some q → p_id q ≠ id → sv_heap s' !! r = Some q) ∧
  (∀ e, sv_entries s !! id = Some e → sv_entries s' !! id =
     Some (mkEntry (apply_event powi (e_sup e) (Ev_due now (is_ok (spawned id)) (unit id))) (e_pane e))).
Proof.
  intros Hinv (e & r & p & He & Hr & Hp & Hd & Hx). unfold run_due_one. rewrite He. cbv zeta.
  set (auto := bool_decide (sup_state (e_sup e) = Backoff)).
  destruct (entry_pane s id e r Hinv He Hr) as (q & Hq & Hh & Hok). rewrite Hp in Hq. injection Hq as <-.
  destruct (respawn_step s id e r p auto (spawned id) now (unit id) (Ev_due now (is_ok (spawned id)) (unit id)) s (e_sup e))
    as [Hi Hf]; try done.
  { rewrite insert_id; [done|]. by destruct e. }
  destruct (do_respawn_updated s id e r p auto (spawned id) now (unit id)) as (p' & [E1 E2] & _); try done.
  { by apply upgrade_Some. } { apply Hok. }
  replace (mkEntry (e_sup e) (e_pane e)) with e in Hi, Hf by (by destruct e).
  set (s1 := fst (do_respawn powi s id e auto (spawned id) now (unit id))) in *.
  split; [by apply sv_inv_mark|]. split; [|split; [|split]].
  - split; [|exact Hf]. intros id'. simpl. rewrite E1, lookup_insert_is_Some.
    destruct (decide (id = id')) as [<-|]; [rewrite He; split; eauto|]. split; [intros [?|[_ ?]]; done|eauto].
  - intros id' Hne. simpl. by rewrite E1, lookup_insert_ne.
  - intros r' q Hq Hne. simpl. rewrite E2, lookup_insert_ne; [done|]. intros <-. rewrite Hp in Hq. injection Hq as <-.
    by apply Hne, Hok.
  - intros e2 [= <-]. simpl. by rewrite E1, lookup_insert_eq.
Qed.

Lemma run_due_fold ids s spawned unit now :
  sv_inv s → NoDup ids → (∀ id, id ∈ ids → ready s now id) →
  let s' := foldl (run_due_one powi spawned unit now) s ids in
  sv_inv s' ∧ follows_all s s' ∧
  (∀ id e, sv_entries s !! id = Some e → sv_entries s' !! id =
     Some (if bool_decide (id ∈ ids)
           then mkEntry (apply_event powi (e_sup e) (Ev_due now (is_ok (spawned id)) (unit id))) (e_pane e) else e)).
Proof.
  revert s. induction ids as [|id ids IH]; intros s Hinv Hnd Hready; simpl.
  { split; [done|]. split; [split; [done|]; by apply follows_same|]. intros id e He. exact He. }
  apply NoDup_cons in Hnd as [Hnin Hnd].
  destruct (run_due_one_step s spawned unit now id Hinv) as (Hi & Hf & Hent & Hheap & Hself); [apply Hready; set_solver|].
  destruct (IH _ Hi Hnd) as (Hi' & Hf' & Hall).
  - intros id' Hin. destruct (Hready id') as (e & r & p & He & Hr & Hp & Hd & Hx); [set_solver|].
    exists e, r, p. rewrite Hent by set_solver. split; [done|]. split; [done|]. split; [|done].
    apply Hheap; [done|]. destruct (entry_pane s id' e r Hinv He Hr) as (q & Hq & _ & Hok).
    rewrite Hp in Hq. injection Hq as <-. rewrite (eo_id _ _ _ Hok). set_solver.
  - split; [done|]. split; [by eapply follows_trans|]. intros id' e He. destruct (decide (id' = id)) as [->|Hne].
    + rewrite (Hall id _ (Hself e He)). rewrite bool_decide_false, bool_decide_true by set_solver. done.
    + rewrite (Hall id' e) by (by rewrite Hent). f_equal. by rewrite (bool_decide_ext (id' ∈ ids) (id' ∈ id :: ids)) by set_solver.
Qed.

Lemma run_due_step s spawned unit now :
  sv_inv s →
  let s' := fst (run_due powi s spawned unit now) in
  sv_inv s' ∧ follows_all s s' ∧
  (∀ id e, sv_entries s !! id = Some e → sv_entries s' !! id =
     Some (if bool_decide (id ∈ due_panes s now)
           then mkEntry (apply_event powi (e_sup e) (Ev_due now (is_ok (spawned id)) (unit id))) (e_pane e) else e)).
Proof.
  intros Hinv. apply run_due_fold; [done|apply due_panes_NoDup|]. intros id. apply due_panes_ready.
Qed.

Lemma next_due_spec s now id e t :
  sv_entries s !! id = Some e → restart_pending (e_sup e) = true → sup_next_restart_at_ms (e_sup e) = Some t →
  ∃ n, next_due s now = Some n ∧ n ≤ Z.max t (now + 1).
Proof.
  intros He Hp Ht. unfold next_due. set (ats := _ <$> omap _ _).
  assert (Hin : Z.max t (now + 1) ∈ ats).
  { subst ats. apply list_elem_of_fmap. exists t. split; [done|]. apply list_elem_of_omap. exists (id, e).
    split; [by apply elem_of_map_to_list|]. simpl. by rewrite Hp. }
  clearbody ats. induction ats as [|a ats IH]; [set_solver|]. simpl.
  apply elem_of_cons in Hin as [<-|Hin].
  - destruct (foldr _ None ats); eexists; (split; [done|lia]).
  - destruct (IH Hin) as (n & -> & Hn). eexists. split; [done|lia].
Qed.

Lemma next_due_later s now n : next_due s now = Some n → now < n.
Proof.
  unfold next_due. generalize (omap (λ ide : Uuid * Entry, if restart_pending (e_sup (snd ide)) then sup_next_restart_at_ms (e_sup (snd ide)) else None) (map_to_list (sv_entries s))).
  intros l. revert n. induction l as [|a l IH]; intros n; [done|].
  change (Some (match foldr (λ at_ms acc, Some (match acc with None => at_ms | Some b => Z.min at_ms b end)) None ((λ at_ms, Z.max at_ms (now + 1)) <$> l) with None => Z.max a (now + 1) | Some b => Z.min (Z.max a (now + 1)) b end) = Some n → now < n).
  destruct (foldr _ None _) as [b|] eqn:Hb; intros [= <-]; [|lia]. specialize (IH b eq_refl). lia.
Qed.

Lemma sv_step_ok s s' : sv_step powi s s' → sv_inv s → sv_inv s' ∧ follows s s'.
Proof.
  destruct 1; intros Hinv.
  - split; [|by apply follows_same]. apply sv_inv_free_pane; [done|by split|].
    intros id' e He Hr. destruct (entry_pane s id' e r Hinv He Hr) as (p & Hp & _). congruence.
  - by eapply register_step.
  - by apply restored_step.
  - by eapply adopt_step.
  - by apply forget_step.
  - by apply reap_step.
  - by eapply hook_step.
  - by apply kill_step.
  - by apply publish_step.
  - destruct (run_due_step s spawned unit now Hinv) as (? & [_ ?] & _). done.
  - split; [by apply sv_inv_dirty|by apply follows_same].
  - by eapply set_policy_step.
  - by apply stop_step.
  - by apply restart_step.
  - by apply start_step.
  - by eapply reset_budget_step.
Qed.

Lemma sv_reachable_inv s : rtc (sv_step powi) sv_init s → sv_inv s.
Proof.
  intros Hr. apply (rtc_ind_r sv_inv sv_init) in Hr; [done| |].
  - split; simpl; [intros r p|intros id e]; by rewrite lookup_empty.
  - intros y z _ Hst Hy. by eapply sv_step_ok.
Qed.

(** *** Closed panes *)

(** A pane keeps its id; a retired one stays retired and never gets another process. *)
Definition mono (p p' : Pane) : Prop :=
  p_id p' = p_id p ∧ (p_retired p = true → p_retired p' = true ∧ p_generation p' = p_generation p).

Definition heap_mono (h h' : gmap N Pane) : Prop :=
  ∀ r p, h !! r = Some p → ∃ p', h' !! r = Some p' ∧ mono p p'.

Lemma mono_core p p' : core p' = core p → mono p p'.
Proof. intros (F1 & _ & F3 & _ & _ & _ & F7)%core_fields. split; [done|]. intros Hr. by rewrite F3, F7. Qed.

Lemma mono_trans p1 p2 p3 : mono p1 p2 → mono p2 p3 → mono p1 p3.
Proof.
  intros [I1 H1] [I2 H2]. split; [congruence|]. intros Hr. destruct (H1 Hr) as [Hr2 Hg2].
  destruct (H2 Hr2) as [? Hg3]. split; [done|congruence].
Qed.

Lemma heap_mono_refl h : heap_mono h h.
Proof. intros r p Hp. exists p. done. Qed.

Lemma heap_mono_trans h1 h2 h3 : heap_mono h1 h2 → heap_mono h2 h3 → heap_mono h1 h3.
Proof.
  intros H1 H2 r p Hp. destruct (H1 r p Hp) as (p2 & Hp2 & M2). destruct (H2 r p2 Hp2) as (p3 & Hp3 & M3).
  exists p3. split; [done|]. by eapply mono_trans.
Qed.

Lemma heap_mono_insert h r p p' : h !! r = Some p → mono p p' → heap_mono h (<[r := p']> h).
Proof.
  intros Hp Hm r' q Hq. destruct (decide (r = r')) as [<-|Hne].
  - rewrite lookup_insert_eq. rewrite Hp in Hq. injection Hq as <-. eauto.
  - rewrite lookup_insert_ne by done. exists q. done.
Qed.

Lemma heap_mono_fresh h r p' : h !! r = None → heap_mono h (<[r := p']> h).
Proof. intros Hn r' q Hq. rewrite lookup_insert_ne by congruence. exists q. done. Qed.

Lemma respawn_with_mono p banner spawned : mono p (fst (respawn_with p banner spawned)).
Proof.
  unfold respawn_with. split.
  - destruct (p_retired p); [done|]. destruct (p_exited p); [|done]. destruct spawned; by destruct p.
  - intros Hr. by rewrite Hr.
Qed.

Lemma do_respawn_mono s id e automatic spawned now unit :
  heap_mono (sv_heap s) (sv_heap (fst (do_respawn powi s id e automatic spawned now unit))).
Proof.
  unfold do_respawn. destruct (upgrade s e) as [[r p]|] eqn:Hu; [|apply heap_mono_refl].
  apply upgrade_Some in Hu as [_ Hp]. destruct (p_retired p) eqn:Hret; [apply heap_mono_refl|].
  destruct (respawn_with_mono p (λ pid, MkRestarted pid (sup_restart_count (begin_restart (e_sup e) now automatic))) spawned) as [Hid _].
  destruct (respawn_with _ _ _) as [p1 []]; [|destruct (on_spawn_failed _ _ _ _)]; simpl in Hid;
    apply (heap_mono_insert _ _ p); try done; (split; [|intros; congruence]); rewrite <-Hid.
  - apply core_fields. unfold emit_lifecycle. by autorewrite with pane.
  - apply core_fields. destruct (p_retired p1); by autorewrite with pane.
Qed.

Lemma account_exit_mono s r code now unit :
  heap_mono (sv_heap s) (sv_heap (fst (account_exit powi s r code now unit))).
Proof.
  destruct (sv_heap s !! r) as [p|] eqn:Hp.
  - destruct (account_exit_cases s r p code now unit Hp) as [[-> _]|(e & p' & _ & _ & [_ ->] & Hc & _)];
      [apply heap_mono_refl|]. apply (heap_mono_insert _ _ p); [done|by apply mono_core].
  - unfold account_exit. rewrite Hp. apply heap_mono_refl.
Qed.

Lemma install_hook_mono s r now unit : heap_mono (sv_heap s) (sv_heap (install_hook powi s r now unit)).
Proof.
  unfold install_hook. destruct (sv_heap s !! r) as [p|] eqn:Hp; [|apply heap_mono_refl].
  destruct (set_exit_hook p) as [p1 b] eqn:Hset.
  assert (H1 : heap_mono (sv_heap s) (<[r := p1]> (sv_heap s))).
  { apply (heap_mono_insert _ _ p); [done|]. destruct p. simpl in *. injection Hset as <- <-. done. }
  destruct b; [|done]. eapply heap_mono_trans; [exact H1|]. apply (account_exit_mono (set_pane s r p1)).
Qed.

Lemma run_due_mono ids s spawned unit now :
  heap_mono (sv_heap s) (sv_heap (foldl (run_due_one powi spawned unit now) s ids)).
Proof.
  revert s. induction ids as [|id ids IH]; intros s; simpl; [apply heap_mono_refl|].
  eapply heap_mono_trans; [|apply IH]. unfold run_due_one. destruct (sv_entries s !! id); [|apply heap_mono_refl].
  apply do_respawn_mono.
Qed.

Lemma stop_mono s id sent now : heap_mono (sv_heap s) (sv_heap (fst (stop s id sent now))).
Proof.
  unfold stop. destruct (sv_entries s !! id) as [e|]; [|apply heap_mono_refl].
  destruct (request_stop (e_sup e)) as [sup needs].
  destruct (upgrade s e) as [[r p]|] eqn:Hu; cbn [fmap option_fmap option_map].
  - apply upgrade_Some in Hu as [_ Hp].
    assert (Hins : ∀ p', core p' = core p → heap_mono (sv_heap s) (<[r := p']> (sv_heap s))).
    { intros p' Hc. apply (heap_mono_insert _ _ p); [done|by apply mono_core]. }
    destruct needs; [destruct (p_exited _)|case_bool_decide]; simpl.
    + apply Hins. apply core_set_pending.
    + pose proof (core_terminate (set_restart_pending false p) (is_ok sent)) as Hct.
      destruct (terminate _ _) as [p1 []]; simpl in *; rewrite insert_insert_eq; apply Hins;
        rewrite ?core_set_pending in *; done.
    + apply Hins. apply core_set_pending.
    + rewrite insert_insert_eq. apply Hins. unfold emit_lifecycle, inject_output. by autorewrite with pane.
  - destruct needs; apply heap_mono_refl.
Qed.

Lemma restart_mono s id reset sent spawned now unit :
  heap_mono (sv_heap s) (sv_heap (fst (restart powi s id reset sent spawned now unit))).
Proof.
  unfold restart. destruct (sv_entries s !! id) as [e|]; [|apply heap_mono_refl].
  destruct (request_restart (e_sup e) reset) as [sup signaled]. unfold running_pane.
  set (s1 := mark_dirty _ _). destruct (upgrade s1 _) as [[r p]|] eqn:Hu.
  - apply upgrade_Some in Hu as [_ Hp]. simpl in Hp.
    assert (Hins : ∀ p', core p' = core p → heap_mono (sv_heap s) (<[r := p']> (sv_heap s))).
    { intros p' Hc. apply (heap_mono_insert _ _ p); [done|by apply mono_core]. }
    destruct signaled, (p_exited p); simpl; try apply heap_mono_refl.
    + pose proof (core_terminate p (is_ok sent)) as Hct.
      destruct (terminate p (is_ok sent)) as [p1 []]; simpl in *; by apply Hins.
    + pose proof (do_respawn_mono s1 id (mkEntry sup (e_pane e)) false spawned now unit) as Hm.
      by destruct (do_respawn _ _ _ _ _ _ _ _).
    + apply Hins, core_set_pending.
  - destruct signaled; [apply heap_mono_refl|].
    pose proof (do_respawn_mono s1 id (mkEntry sup (e_pane e)) false spawned now unit) as Hm.
    by destruct (do_respawn _ _ _ _ _ _ _ _).
Qed.

Lemma sv_step_mono s s' : sv_step powi s s' → heap_mono (sv_heap s) (sv_heap s').
Proof.
  destruct 1 as [s r id pid Hn|s r p policy now unit Hp|s id ps pol Hn|s r p fb now unit Hp|s id|s r p code Hp Hrd
    |s r p call s' p' now unit Hp Hrd Hs' Hp'|s r p sent Hp|s r p Hp Hrd|s spawned unit now|s|s s' id policy now Hs|s id sent now
    |s id reset sent spawned now unit|s id spawned now unit|s s' id Hs].
  - by apply heap_mono_fresh.
  - unfold register_live. rewrite Hp. apply (install_hook_mono (mark_dirty (set_entry s (p_id p) _) (p_id p))).
  - apply heap_mono_refl.
  - unfold adopt_started. rewrite Hp. apply (install_hook_mono (mark_dirty (set_entry s (p_id p) _) (p_id p))).
  - unfold forget. destruct (sv_entries s !! id) as [e|]; [|apply heap_mono_refl].
    destruct (upgrade s e) as [[r p]|] eqn:Hu; [|apply heap_mono_refl]. apply upgrade_Some in Hu as [_ Hp].
    apply (heap_mono_insert _ _ p); [done|]. by destruct p.
  - apply (heap_mono_insert _ _ p); [done|]. by destruct p.
  - eapply (heap_mono_trans _ (sv_heap s')).
    + subst s'. destruct call; [apply account_exit_mono|apply heap_mono_refl].
    + apply (heap_mono_insert _ _ p'); [done|]. by destruct p'.
  - apply (heap_mono_insert _ _ p); [done|]. apply mono_core, core_signal.
  - apply (heap_mono_insert _ _ p); [done|]. by destruct p.
  - apply run_due_mono.
  - apply heap_mono_refl.
  - unfold sv_set_policy in Hs. destruct (validate policy); [|done]. simpl in Hs.
    destruct (sv_entries s !! id) as [e|]; [|done]. simpl in Hs. injection Hs as <-.
    destruct (upgrade s e) as [[r p]|] eqn:Hu; [|apply heap_mono_refl]. apply upgrade_Some in Hu as [_ Hp].
    apply (heap_mono_insert _ _ p); [done|]. apply mono_core. case_match; unfold emit_lifecycle, inject_output; by autorewrite with pane.
  - apply stop_mono.
  - apply restart_mono.
  - unfold start. destruct (sv_entries s !! id) as [e|]; [|apply heap_mono_refl].
    destruct (running_pane s e); [apply heap_mono_refl|]. set (s1 := mark_dirty _ _).
    pose proof (do_respawn_mono s1 id (mkEntry (reset_for_start (e_sup e)) (e_pane e)) false spawned now unit) as Hm.
    by destruct (do_respawn _ _ _ _ _ _ _ _).
  - unfold sv_reset_budget in Hs. destruct (sv_entries s !! id) as [e|]; [|done]. simpl in Hs. injection Hs as <-.
    apply heap_mono_refl.
Qed.

Lemma sv_steps_mono s s' : rtc (sv_step powi) s s' → heap_mono (sv_heap s) (sv_heap s').
Proof.
  induction 1 as [|x y z Hst _ IH]; [apply heap_mono_refl|].
  eapply heap_mono_trans; [by apply sv_step_mono|exact IH].
Qed.

(** *** Which pane each entry refers to *)

Definition refs (s : Supervision) : gmap Uuid (option N) := e_pane <$> sv_entries s.

Lemma refs_keep s id e e' :
  sv_entries s !! id = Some e → e_pane e' = e_pane e → refs (set_entry s id e') = refs s.
Proof.
  intros He Hp. unfold refs. simpl. rewrite fmap_insert, Hp. apply insert_id. by rewrite lookup_fmap, He.
Qed.

Lemma refs_do_respawn s id e e0 automatic spawned now unit :
  sv_entries s !! id = Some e0 → e_pane e = e_pane e0 →
  refs (fst (do_respawn powi s id e automatic spawned now unit)) = refs s.
Proof.
  intros He Hp. unfold do_respawn. destruct (upgrade s e) as [[r p]|]; [|done]. destruct (p_retired p); [done|].
  destruct (respawn_with _ _ _) as [p1 []]; [|destruct (on_spawn_failed _ _ _ _)]; by apply (refs_keep s id e0).
Qed.

Lemma refs_account_exit s r code now unit : refs (fst (account_exit powi s r code now unit)) = refs s.
Proof.
  unfold account_exit. destruct (sv_heap s !! r) as [p|]; [|done].
  destruct (sv_entries s !! p_id p) as [e|] eqn:He; [|done].
  case_bool_decide as Hr; [|done]. cbn [negb].
  destruct (on_exit _ _ _ _ _ _) as [sup kind]. cbn [fst].
  set (p2 := set_restart_pending _ _).
  assert (p_id p2 = p_id p) as ->.
  { apply core_fields. unfold p2. by autorewrite with pane. }
  by apply (refs_keep s (p_id p) e).
Qed.

Lemma refs_install_hook s r now unit : refs (install_hook powi s r now unit) = refs s.
Proof.
  unfold install_hook. destruct (sv_heap s !! r); [|done]. destruct (set_exit_hook _) as [p1 []]; [|done].
  by rewrite refs_account_exit.
Qed.

Lemma refs_register s r p policy now unit :
  sv_heap s !! r = Some p → refs (register_live powi s r policy now unit) = <[p_id p := Some r]> (refs s).
Proof.
  intros Hp. unfold register_live. rewrite Hp, refs_install_hook. unfold refs. simpl. by rewrite fmap_insert.
Qed.

Lemma refs_adopt s r p policy now unit :
  sv_heap s !! r = Some p → refs (adopt_started powi s r policy now unit) = <[p_id p := Some r]> (refs s).
Proof.
  intros Hp. unfold adopt_started. rewrite Hp, refs_install_hook. unfold refs. simpl. by rewrite fmap_insert.
Qed.

Lemma refs_restored s id persisted policy : refs (register_restored s id persisted policy) = <[id := None]> (refs s).
Proof. unfold refs. simpl. by rewrite fmap_insert. Qed.

Lemma refs_forget s id : refs (forget s id) = delete id (refs s).
Proof.
  unfold forget, refs. destruct (sv_entries s !! id) as [e|] eqn:He.
  - destruct (upgrade s e) as [[r p]|]; simpl; by rewrite fmap_delete.
  - simpl. rewrite delete_id; [done|]. by rewrite lookup_fmap, He.
Qed.

Lemma refs_run_due_one s id spawned unit now : refs (run_due_one powi spawned unit now s id) = refs s.
Proof.
  unfold run_due_one. destruct (sv_entries s !! id) as [e|] eqn:He; [|done].
  change (refs (mark_dirty ?s ?i)) with (refs s). by eapply refs_do_respawn.
Qed.

Lemma refs_run_due s spawned unit now : refs (fst (run_due powi s spawned unit now)) = refs s.
Proof.
  unfold run_due. cbn [fst]. generalize (due_panes s now) as ids. intros ids. revert s.
  induction ids as [|id ids IH]; intros s; simpl; [done|]. by rewrite IH, refs_run_due_one.
Qed.

Lemma refs_set_policy s s' id policy now : sv_set_policy s id policy now = Ok s' → refs s' = refs s.
Proof.
  unfold sv_set_policy. destruct (validate policy); [|done]. simpl.
  destruct (sv_entries s !! id) as [e|] eqn:He; [|done]. simpl. intros [= <-].
  destruct (upgrade s e) as [[r p]|]; by apply (refs_keep s id e).
Qed.

Lemma refs_stop s id sent now : refs (fst (stop s id sent now)) = refs s.
Proof.
  unfold stop. destruct (sv_entries s !! id) as [e|] eqn:He; [|done].
  destruct (request_stop _) as [sup needs].
  assert (Hk : ∀ sup, refs (set_entry s id (mkEntry sup (e_pane e))) = refs s) by (intros; by apply (refs_keep s id e)).
  assert (Hk2 : ∀ sup sup', refs (set_entry (set_entry s id (mkEntry sup (e_pane e))) id (mkEntry sup' (e_pane e))) = refs s).
  { intros. rewrite (refs_keep _ id (mkEntry sup0 (e_pane e))); [apply Hk|simpl; by rewrite lookup_insert_eq|done]. }
  destruct (upgrade s e) as [[r p]|]; simpl; destruct needs; [destruct (p_exited _); [|destruct (terminate _ _) as [p1 []]]| | |];
    simpl; try apply Hk; try apply Hk2. case_bool_decide; apply Hk.
Qed.

Lemma refs_restart s id reset sent spawned now unit :
  refs (fst (restart powi s id reset sent spawned now unit)) = refs s.
Proof.
  unfold restart. destruct (sv_entries s !! id) as [e|] eqn:He; [|done].
  destruct (request_restart _ _) as [sup signaled].
  assert (Hk : ∀ sup, refs (set_entry s id (mkEntry sup (e_pane e))) = refs s) by (intros; by apply (refs_keep s id e)).
  assert (Hk2 : ∀ sup sup', refs (set_entry (set_entry s id (mkEntry sup (e_pane e))) id (mkEntry sup' (e_pane e))) = refs s).
  { intros. rewrite (refs_keep _ id (mkEntry sup0 (e_pane e))); [apply Hk|simpl; by rewrite lookup_insert_eq|done]. }
  destruct signaled, (running_pane _ _) as [[r p]|]; simpl; try apply Hk2.
  - destruct (terminate _ _) as [p1 []]; simpl; [apply Hk|apply Hk2].
  - apply Hk.
  - destruct (do_respawn _ _ _ _ _ _ _ _) as [s2 res] eqn:Hd. simpl. replace s2 with (fst (s2, res)) by done. rewrite <-Hd.
    rewrite (refs_do_respawn _ id _ (mkEntry sup (e_pane e))); [apply Hk|simpl; by rewrite lookup_insert_eq|done].
Qed.

Lemma refs_start s id spawned now unit : refs (fst (start powi s id spawned now unit)) = refs s.
Proof.
  unfold start. destruct (sv_entries s !! id) as [e|] eqn:He; [|done]. destruct (running_pane s e); [done|].
  destruct (do_respawn _ _ _ _ _ _ _ _) as [s2 res] eqn:Hd. simpl. replace s2 with (fst (s2, res)) by done. rewrite <-Hd.
  rewrite (refs_do_respawn _ id _ (mkEntry (reset_for_start (e_sup e)) (e_pane e)));
    [by apply (refs_keep s id e)|simpl; by rewrite lookup_insert_eq|done].
Qed.

Lemma refs_reset_budget s s' id : sv_reset_budget s id = Ok s' → refs s' = refs s.
Proof.
  unfold sv_reset_budget. destruct (sv_entries s !! id) as [e|] eqn:He; [|done]. simpl. intros [= <-].
  by apply (refs_keep s id e).
Qed.

(** ** Properties *)

(** C36. Supervision refines the lifecycle of each pane: in every reachable state, each
    call and each step of a reader thread moves a pane's supervisor only along events
    the lifecycle permits there (an exit only while a process runs, a timer restart only
    when due, a start only of a dead pane), and new entries start from a fresh or
    restored supervisor. *)
Theorem supervision_follows_lifecycle s s' :
  rtc (sv_step powi) sv_init s → sv_step powi s s' → follows s s'.
Proof. intros Hr Hst. apply (sv_step_ok s s' Hst). by apply sv_reachable_inv. Qed.

(** What a client sees at an exit is the final verdict: in every reachable state, for
    every supervised pane, the supervisor is well formed, it believes a process runs
    exactly until that process's exit has been accounted, and as soon as the exit is
    visible the pane's [restart_pending] flag says whether a restart is on its way. *)
Theorem published_exit_has_verdict s id e r :
  rtc (sv_step powi) sv_init s → sv_entries s !! id = Some e → e_pane e = Some r →
  ∃ p, sv_heap s !! r = Some p ∧ p_id p = id ∧ p_retired p = false ∧ wf_sup (e_sup e) ∧
    is_running (e_sup e) = reader_running (p_reader p) ∧
    (p_exited p = true → is_running (e_sup e) = false ∧ p_restart_pending p = restart_pending (e_sup e)).
Proof.
  intros Hr He Hpane. pose proof (sv_reachable_inv s Hr) as Hinv.
  destruct (entry_pane s id e r Hinv He Hpane) as (p & Hp & _ & Hok). exists p.
  pose proof Hok as [Hwf Hid Hret _ Hrun _]. repeat (split; [done|]).
  intros Hex. by apply (exited_dead s id e r p Hinv He Hpane Hp Hex).
Qed.

(** A supervisor tick runs exactly the restarts that are due, and forgets none: every
    pane whose restart is due and whose exit is published gets one spawn attempt (charged
    to the budget only out of [Backoff]), every other pane is untouched, and the time
    returned is in the future and no later than any restart still pending (or the next
    millisecond if one is overdue). *)
Theorem run_due_complete s spawned unit now :
  rtc (sv_step powi) sv_init s →
  let '(s', next) := run_due powi s spawned unit now in
  (∀ id e, sv_entries s !! id = Some e →
     (ready s now id → sv_entries s' !! id =
        Some (mkEntry (apply_event powi (e_sup e) (Ev_due now (is_ok (spawned id)) (unit id))) (e_pane e))) ∧
     (¬ ready s now id → sv_entries s' !! id = Some e)) ∧
  (∀ id e t, sv_entries s' !! id = Some e → restart_pending (e_sup e) = true →
     sup_next_restart_at_ms (e_sup e) = Some t → ∃ n, next = Some n ∧ n ≤ Z.max t (now + 1)) ∧
  (∀ n, next = Some n → now < n).
Proof.
  intros Hr. pose proof (sv_reachable_inv s Hr) as Hinv.
  destruct (run_due_step s spawned unit now Hinv) as (_ & _ & Hall). unfold run_due in *. simpl in Hall.
  split; [|split].
  - intros id e He. rewrite (Hall id e He), <- due_panes_ready. split; intros Hd.
    + by rewrite bool_decide_true.
    + by rewrite bool_decide_false.
  - intros id e t. apply next_due_spec.
  - intros n. apply next_due_later.
Qed.

(** A closed pane stays closed: once [forget] has retired a pane, no sequence of
    calls, timers and reader steps gives it another process. *)
Theorem forgotten_pane_never_restarts s id e r p s' :
  sv_entries s !! id = Some e → e_pane e = Some r → sv_heap s !! r = Some p →
  rtc (sv_step powi) (forget s id) s' →
  sv_entries (forget s id) !! id = None ∧
  ∃ p', sv_heap s' !! r = Some p' ∧ p_retired p' = true ∧ p_generation p' = p_generation p.
Proof.
  intros He Hr Hp Hst. assert (Hf : sv_heap (forget s id) !! r = Some (retire p) ∧ sv_entries (forget s id) !! id = None).
  { unfold forget. rewrite He. rewrite (proj2 (upgrade_Some s e r p)) by done. simpl.
    by rewrite lookup_insert_eq, lookup_delete_eq. }
  destruct Hf as [Hh Hn]. split; [done|].
  destruct (sv_steps_mono _ _ Hst r (retire p) Hh) as (p' & Hp' & Hm). exists p'. split; [done|].
  destruct Hm as [_ Hm]. destruct Hm as [? Hg]; [by destruct p|]. split; [done|]. rewrite Hg. by destruct p.
Qed.

End Steps.

(** ** Witnesses *)

(** One pane, registered, crashed and waiting out its backoff. *)
Definition w_spawned : Supervision := set_pane sv_init 1%N (pane_spawned 7%N 100).
Definition w_live : Supervision := register_live powi_iter w_spawned 1%N always_policy 1 f64_half.
Definition w_reaped : Supervision :=
  match sv_heap w_live !! 1%N with Some p => set_pane w_live 1%N (reader_reap p (Some 1)) | None => w_live end.
Definition w_hooked : Supervision :=
  let s := fst (account_exit powi_iter w_reaped 1%N (Some 1) 5 f64_half) in
  match sv_heap s !! 1%N with Some p => set_pane s 1%N (reader_hooked p) | None => s end.
Definition w_exited : Supervision :=
  match sv_heap w_hooked !! 1%N with Some p => set_pane w_hooked 1%N (reader_publish p) | None => w_hooked end.

Lemma w_exited_reachable : rtc (sv_step powi_iter) sv_init w_exited.
Proof.
  eapply rtc_l; [apply (Sv_spawn _ sv_init 1%N 7%N 100); reflexivity|].
  eapply rtc_l; [apply (Sv_register _ w_spawned 1%N (pane_spawned 7%N 100) always_policy 1 f64_half); reflexivity|].
  eapply rtc_l.
  { eapply (Sv_reap _ w_live 1%N _ (Some 1)); [vm_compute; reflexivity|reflexivity]. }
  eapply rtc_l.
  { eapply (Sv_hook _ w_reaped 1%N _ true _ _ 5 f64_half); [vm_compute; reflexivity|reflexivity|reflexivity|vm_compute; reflexivity]. }
  eapply rtc_l.
  { eapply (Sv_publish _ w_hooked 1%N); [vm_compute; reflexivity|reflexivity]. }
  apply rtc_refl.
Qed.

Definition w_spawn_ok (_ : Uuid) : result (option Z) string := Ok (Some 101).
Definition w_jitter (_ : Uuid) : spec_float := f64_half.

Definition w_restarted : Supervision := fst (run_due powi_iter w_exited w_spawn_ok w_jitter 1005).

Lemma supervision_follows_lifecycle_witness :
  state_of w_exited 7%N = Some Backoff ∧ state_of w_restarted 7%N = Some Live ∧ follows powi_iter w_exited w_restarted.
Proof.
  split; [vm_compute; reflexivity|]. split; [vm_compute; reflexivity|].
  apply (supervision_follows_lifecycle powi_iter); [apply w_exited_reachable|apply Sv_due].
Defined.

Lemma published_exit_has_verdict_witness :
  ∃ e p, sv_entries w_exited !! 7%N = Some e ∧ sv_heap w_exited !! 1%N = Some p ∧ p_exited p = true ∧
         p_restart_pending p = true ∧ p_restart_pending p = restart_pending (e_sup e).
Proof.
  eexists _, _. split; [vm_compute; reflexivity|]. split; [vm_compute; reflexivity|].
  split; [reflexivity|]. split; [reflexivity|].
  edestruct (published_exit_has_verdict powi_iter w_exited 7%N) as (p & Hp & _ & _ & _ & _ & Hv);
    [apply w_exited_reachable|vm_compute; reflexivity|reflexivity|].
  vm_compute in Hp. injection Hp as <-. apply Hv. reflexivity.
Defined.

Lemma run_due_complete_witness :
  snd (run_due powi_iter w_exited w_spawn_ok w_jitter 4) = Some 1005 ∧
  (∀ n, snd (run_due powi_iter w_exited w_spawn_ok w_jitter 4) = Some n → 4 < n).
Proof.
  split; [vm_compute; reflexivity|].
  pose proof (run_due_complete powi_iter w_exited w_spawn_ok w_jitter 4 w_exited_reachable) as H.
  destruct (run_due powi_iter w_exited w_spawn_ok w_jitter 4) as [s' next]. apply H.
Defined.

Lemma forgotten_pane_never_restarts_witness :
  ∃ p', sv_heap (forget w_exited 7%N) !! 1%N = Some p' ∧ p_retired p' = true ∧ p_generation p' = 0.
Proof.
  edestruct (forgotten_pane_never_restarts powi_iter w_exited 7%N) as [_ H];
    [vm_compute; reflexivity|reflexivity|vm_compute; reflexivity|apply rtc_refl|exact H].
Defined.
