(* ===== verification/Launch.v ===== *)
(** * Launch descriptions and their resolution (launch.rs)

    A [Launch] names argument files, a stderr file and a stdin source; [prepare] reads
    and opens them. The operating system is the interface [FileSystem]: its state [W] is
    threaded through every call, so a file may change between two calls. The theorems say
    what a prepared launch contains, which argument an error blames, and that an argument
    that cannot be resolved leaves nothing behind. Only the [cfg(unix)] branch of the
    stdin pipe is modelled. *)

From S2P Require Import Prelude.

Abbreviation bytes := (list Z) (only parsing).

Definition MAX_ARG_STRLEN : Z := 128 * 1024.

Inductive ArgSpec := Literal (s : bytes) | FileContents (path : bytes).

Record Launch := mkLaunch {
  l_args : list bytes;
  l_env : gmap (list Z) (list Z);
  l_arg_specs : list ArgSpec;
  l_stderr_path : option bytes;
  l_stdin_path : option bytes;
  l_stdin_stream : bool;
}.

Record PreparedLaunch (File : Type) := mkPrepared {
  pl_args : list bytes;
  pl_stderr : option File;
  pl_stdin : option File;
  pl_stdin_writer : option File;
}.
Arguments mkPrepared {File} _ _ _ _.
Arguments pl_args {File} _.
Arguments pl_stderr {File} _.
Arguments pl_stdin {File} _.
Arguments pl_stdin_writer {File} _.

Inductive LaunchErrorKind := Invalid | NotFound | Precondition.

(** [std::io::ErrorKind]: only [NotFound] is told apart. *)
Inductive IoError := IoNotFound | IoOther (errno : Z).

Inductive PathRole := FileContentsPath | StderrPath | StdinPath.

Inductive LaunchError :=
| RelativePath (what : PathRole) (path : bytes)
| ArgFileRead (index : nat) (path : bytes) (source : IoError)
| ArgTooLarge (index : nat) (path : bytes)
| ArgNotUtf8 (index : nat) (path : bytes)
| ArgHasNul (index : nat) (path : bytes)
| StderrOpen (path : bytes) (source : IoError)
| StdinOpen (path : bytes) (source : IoError)
| StdinNotRegular (path : bytes)
| StdinConflict
| StdinPipe (source : IoError).

Definition kind (e : LaunchError) : LaunchErrorKind :=
  match e with
  | RelativePath _ _ | ArgTooLarge _ _ | ArgNotUtf8 _ _ | ArgHasNul _ _ | StdinNotRegular _ | StdinConflict => Invalid
  | ArgFileRead _ _ IoNotFound | StdinOpen _ IoNotFound => NotFound
  | ArgFileRead _ _ _ | StderrOpen _ _ | StdinOpen _ _ | StdinPipe _ => Precondition
  end.

(** ** What the standard library provides *)

(** [Path::is_absolute] on Unix. *)
Definition is_absolute (path : bytes) : bool := match path with 47 :: _ => true | _ => false end.

Definition in_range (lo hi b : Z) : bool := (lo <=? b) && (b <=? hi).
Definition utf8_tail (b : Z) : bool := in_range 128 191 b.

(** [String::from_utf8] accepts exactly the byte sequences of this table (Unicode, table
    3-7: well-formed UTF-8). *)
Fixpoint utf8_valid (bs : bytes) : bool :=
  match bs with
  | [] => true
  | b0 :: rest =>
      if in_range 0 127 b0 then utf8_valid rest
      else match rest with
      | b1 :: rest1 =>
          if in_range 194 223 b0 && utf8_tail b1 then utf8_valid rest1
          else match rest1 with
          | b2 :: rest2 =>
              if ((b0 =? 224) && in_range 160 191 b1 || in_range 225 236 b0 && utf8_tail b1
                  || (b0 =? 237) && in_range 128 159 b1 || in_range 238 239 b0 && utf8_tail b1)
                 && utf8_tail b2 then utf8_valid rest2
              else match rest2 with
              | b3 :: rest3 =>
                  if ((b0 =? 240) && in_range 144 191 b1 || in_range 241 243 b0 && utf8_tail b1
                      || (b0 =? 244) && in_range 128 143 b1)
                     && utf8_tail b2 && utf8_tail b3 then utf8_valid rest3
                  else false
              | [] => false
              end
          | [] => false
          end
      | [] => false
      end
  end.

(** The operating system as this module uses it. [fs_read_up_to f n] is
    [f.take(n).read_to_end(..)]: it stops at the end of the file or after [n] bytes, so
    with fewer than [n] bytes it has read the whole file ([fs_whole f w bs]: reading [f] in
    state [w] to its end yields [bs]). *)
Class FileSystem (W File : Type) := {
  fs_open : bytes → W → result File IoError * W;
  fs_read_up_to : File → Z → W → result bytes IoError * W;
  fs_open_append : bytes → W → result File IoError * W;
  fs_is_file : bytes → W → result bool IoError * W;
  fs_file_is_file : File → W → result bool IoError * W;
  fs_pipe : W → result (File * File) IoError * W;
  fs_whole : File → W → bytes → Prop;
  fs_read_short f n w bs w' : fs_read_up_to f n w = (Ok bs, w') → Z.of_nat (length bs) < n → fs_whole f w bs;
}.

(** ** Computations that use the operating system and may fail *)

Section Prepare.
Context {W File : Type} `{FS : FileSystem W File}.

Definition M (A : Type) : Type := W → result A LaunchError * W.

Definition ret {A} (a : A) : M A := λ w, (Ok a, w).
Definition fail {A} (e : LaunchError) : M A := λ w, (Err e, w).
Definition bind {A B} (c : M A) (k : A → M B) : M B :=
  λ w, match c w with (Ok a, w') => k a w' | (Err e, w') => (Err e, w') end.
Definition call {A} (op : W → result A IoError * W) (err : IoError → LaunchError) : M A :=
  λ w, let '(r, w') := op w in (map_err err r, w').

Notation "x ← c ; k" := (bind c (λ x, k)) (at level 20, c at level 100, k at level 200, right associativity).

Definition require_absolute (what : PathRole) (path : bytes) : M unit :=
  if is_absolute path then ret () else fail (RelativePath what path).

Definition read_arg_file (index : nat) (path : bytes) : M bytes :=
  _ ← require_absolute FileContentsPath path;
  let read_err source := ArgFileRead index path source in
  file ← call (fs_open path) read_err;
  bs ← call (fs_read_up_to file MAX_ARG_STRLEN) read_err;
  if Z.of_nat (length bs) + 1 >? MAX_ARG_STRLEN then fail (ArgTooLarge index path)
  else if existsb (Z.eqb 0) bs then fail (ArgHasNul index path)
  else if utf8_valid bs then ret bs
  else fail (ArgNotUtf8 index path).

Definition open_stderr (path : bytes) : M File :=
  _ ← require_absolute StderrPath path;
  call (fs_open_append path) (StderrOpen path).

Definition open_stdin (path : bytes) : M File :=
  _ ← require_absolute StdinPath path;
  regular ← call (fs_is_file path) (StdinOpen path);
  if negb regular then fail (StdinNotRegular path)
  else
    file ← call (fs_open path) (StdinOpen path);
    still_regular ← call (fs_file_is_file file) (StdinOpen path);
    if negb still_regular then fail (StdinNotRegular path) else ret file.

(** The argument loop of [prepare], from position [index]. *)
Fixpoint resolve_args (index : nat) (specs : list ArgSpec) (args : list bytes) : M (list bytes) :=
  match specs with
  | [] => ret args
  | spec :: rest =>
      arg ← match spec with Literal s => ret s | FileContents path => read_arg_file index path end;
      resolve_args (S index) rest (args ++ [arg])
  end.

(** [Option::map(f).transpose()?]. *)
Definition transpose {A B} (o : option A) (f : A → M B) : M (option B) :=
  match o with None => ret None | Some a => b ← f a; ret (Some b) end.

Definition prepare (l : Launch) : M (PreparedLaunch File) :=
  args ← resolve_args 0 (l_arg_specs l) (l_args l);
  stderr ← transpose (l_stderr_path l) open_stderr;
  if l_stdin_stream l && bool_decide (is_Some (l_stdin_path l)) then fail StdinConflict
  else
    stdin ← transpose (l_stdin_path l) open_stdin;
    if l_stdin_stream l then
      ends ← call fs_pipe StdinPipe;
      ret (mkPrepared args stderr (Some (fst ends)) (Some (snd ends)))
    else ret (mkPrepared args stderr stdin None).

(** ** Inversion of computations *)

Lemma bind_ok {A B} (c : M A) (k : A → M B) w b w' :
  bind c k w = (Ok b, w') → ∃ a w1, c w = (Ok a, w1) ∧ k a w1 = (Ok b, w').
Proof. unfold bind. destruct (c w) as [[a|e] w1]; intros; simplify_eq; eauto. Qed.

Lemma bind_err {A B} (c : M A) (k : A → M B) w e w' :
  bind c k w = (Err e, w') →
  c w = (Err e, w') ∨ ∃ a w1, c w = (Ok a, w1) ∧ k a w1 = (Err e, w').
Proof. unfold bind. destruct (c w) as [[a|e1] w1]; intros; simplify_eq; eauto. Qed.

Lemma call_ok {A} (op : W → result A IoError * W) err w a w' : call op err w = (Ok a, w') → op w = (Ok a, w').
Proof. unfold call. destruct (op w) as [[x|x] w1]; simpl; congruence. Qed.

Lemma require_absolute_ok what path w u w' :
  require_absolute what path w = (Ok u, w') → is_absolute path = true ∧ w' = w.
Proof. unfold require_absolute, ret, fail. destruct (is_absolute path); intros; by simplify_eq. Qed.

(** ** One argument *)

(** What may stand in argv for a requested argument. *)
Definition argument_ok (spec : ArgSpec) (arg : bytes) : Prop :=
  match spec with
  | Literal s => arg = s
  | FileContents path =>
      is_absolute path = true ∧ Z.of_nat (length arg) + 1 ≤ MAX_ARG_STRLEN ∧ 0 ∉ arg ∧ utf8_valid arg = true
      ∧ ∃ file w w1, fs_open path w = (Ok file, w1) ∧ fs_whole file w1 arg
  end.

Lemma existsb_no_nul (bs : bytes) : existsb (Z.eqb 0) bs = false → 0 ∉ bs.
Proof.
  intros Hn Hin. apply not_true_iff_false in Hn. apply Hn, existsb_exists.
  exists 0. by rewrite <-list_elem_of_In.
Qed.

Lemma read_arg_file_ok index path w arg w' :
  read_arg_file index path w = (Ok arg, w') → argument_ok (FileContents path) arg.
Proof.
  intros (? & w1 & Habs & H)%bind_ok. apply require_absolute_ok in Habs as [Habs ->].
  apply bind_ok in H as (file & w2 & Hopen%call_ok & H). apply bind_ok in H as (bs & w3 & Hread%call_ok & H).
  unfold fail, ret in H. destruct (Z.gtb_spec (Z.of_nat (length bs) + 1) MAX_ARG_STRLEN); [done|].
  destruct (existsb _ _) eqn:Hn; [done|]. destruct (utf8_valid bs) eqn:Hu; simplify_eq.
  split_and!; [done|lia|by apply existsb_no_nul|done|].
  exists file, w, w2. split; [done|]. eapply fs_read_short; [done|lia].
Qed.

(** The error of an argument file names the file and its position. *)
Definition blames (e : LaunchError) (index : nat) (path : bytes) : Prop :=
  e = RelativePath FileContentsPath path ∨ (∃ src, e = ArgFileRead index path src)
  ∨ e = ArgTooLarge index path ∨ e = ArgHasNul index path ∨ e = ArgNotUtf8 index path.

Lemma read_arg_file_err index path w e w' : read_arg_file index path w = (Err e, w') → blames e index path.
Proof.
  unfold blames, read_arg_file, bind, call, require_absolute, ret, fail.
  destruct (is_absolute path); intros H; [|simplify_eq; by left].
  destruct (fs_open path w) as [[file|src] w1]; simpl in H; [|simplify_eq; by eauto].
  destruct (fs_read_up_to file MAX_ARG_STRLEN w1) as [[bs|src] w2]; simpl in H; [|simplify_eq; by eauto].
  repeat case_match; simplify_eq; by eauto 6.
Qed.

(** ** The argument loop *)

Lemma resolve_args_ok index specs args w out w' :
  resolve_args index specs args w = (Ok out, w') →
  ∃ more, out = args ++ more ∧ Forall2 argument_ok specs more.
Proof.
  revert index args w. induction specs as [|spec specs IH]; intros index args w; simpl.
  - intros [= <- <-]. exists []. by rewrite app_nil_r.
  - intros (arg & w1 & Harg & H)%bind_ok. destruct (IH _ _ _ H) as (more & -> & Hmore).
    exists (arg :: more). rewrite <-app_assoc. split; [done|]. constructor; [|done].
    destruct spec; [by injection Harg|]. by eapply read_arg_file_ok.
Qed.

(** The first argument that fails: every earlier one was resolved, and it is blamed. *)
Lemma resolve_args_err index specs args w e w' :
  resolve_args index specs args w = (Err e, w') →
  ∃ i path out w1, specs !! i = Some (FileContents path)
    ∧ resolve_args index (take i specs) args w = (Ok out, w1)
    ∧ read_arg_file (index + i) path w1 = (Err e, w').
Proof.
  revert index args w. induction specs as [|spec specs IH]; intros index args w; simpl; [done|].
  intros [Harg|(arg & w1 & Harg & H)]%bind_err.
  - destruct spec as [s|path]; [done|]. exists 0%nat, path, args, w. by rewrite Nat.add_0_r.
  - destruct (IH _ _ _ H) as (i & path & out & w2 & Hi & Hout & He).
    exists (S i), path, out, w2. split_and!; [done| |by rewrite Nat.add_succ_r].
    simpl. unfold bind. by rewrite Harg.
Qed.

(** Reading arguments only opens and reads files. *)
Lemma read_arg_file_reads (I : W → Prop) index path w r w' :
  (∀ path v, I v → I (snd (fs_open path v))) → (∀ f n v, I v → I (snd (fs_read_up_to f n v))) →
  read_arg_file index path w = (r, w') → I w → I w'.
Proof.
  intros Hopen Hread H HI. revert H.
  unfold read_arg_file, bind, call, require_absolute, ret, fail.
  destruct (is_absolute path); [|intros; by simplify_eq].
  specialize (Hopen path w HI). destruct (fs_open path w) as [[file|src] w1]; simpl in *; [|intros; by simplify_eq].
  specialize (Hread file MAX_ARG_STRLEN w1 Hopen).
  destruct (fs_read_up_to file MAX_ARG_STRLEN w1) as [[bs|src] w2]; simpl in *; [|intros; by simplify_eq].
  repeat case_match; intros; by simplify_eq.
Qed.

Lemma resolve_args_reads (I : W → Prop) index specs args w r w' :
  (∀ path v, I v → I (snd (fs_open path v))) → (∀ f n v, I v → I (snd (fs_read_up_to f n v))) →
  resolve_args index specs args w = (r, w') → I w → I w'.
Proof.
  intros Hopen Hread. revert index args w. induction specs as [|spec specs IH]; intros index args w; simpl.
  { unfold ret. by intros [= <- <-]. }
  unfold bind. destruct spec as [s|path]; simpl; [eauto|].
  destruct (read_arg_file index path w) as [[a|e] w1] eqn:Hr; intros H HI; simplify_eq;
    pose proof (read_arg_file_reads I _ _ _ _ _ Hopen Hread Hr HI); eauto.
Qed.

Lemma open_stdin_ok path w f w' :
  open_stdin path w = (Ok f, w') → is_absolute path = true ∧ ∃ w1, fs_file_is_file f w1 = (Ok true, w').
Proof.
  intros (? & w1 & Habs & H)%bind_ok. apply require_absolute_ok in Habs as [? ->].
  apply bind_ok in H as (r & w2 & _ & H). destruct r; [|done]. simpl in H.
  apply bind_ok in H as (file & w3 & _ & H). apply bind_ok in H as (r & w4 & Hr & H).
  destruct r; [|done]. unfold ret in H. simplify_eq/=. apply call_ok in Hr. eauto.
Qed.

Lemma transpose_ok {A B} (o : option A) (f : A → M B) w ob w' :
  transpose o f w = (Ok ob, w') →
  (o = None ∧ ob = None ∧ w' = w) ∨ ∃ a b, o = Some a ∧ ob = Some b ∧ f a w = (Ok b, w').
Proof.
  destruct o as [a|]; simpl; [|intros [= <- <-]; by left].
  intros (b & w1 & Hb & H)%bind_ok. unfold ret in H. simplify_eq. right. eauto.
Qed.

(** What [prepare] hands to [exec]: the plain arguments first, then one entry per
    requested argument in order, literals verbatim and file arguments as the whole contents
    of an absolute path, shorter than [MAX_ARG_STRLEN] with its NUL, without NUL and valid
    UTF-8; a stderr file, a stdin and a stdin writer exactly where the launch asks for
    them, never both kinds of stdin, and a stdin file checked to be regular once open. *)
Theorem prepare_sound l w p w' :
  prepare l w = (Ok p, w') →
  (∃ more, pl_args p = l_args l ++ more ∧ Forall2 argument_ok (l_arg_specs l) more)
  ∧ (is_Some (pl_stderr p) ↔ is_Some (l_stderr_path l))
  ∧ (is_Some (pl_stdin p) ↔ is_Some (l_stdin_path l) ∨ l_stdin_stream l = true)
  ∧ (is_Some (pl_stdin_writer p) ↔ l_stdin_stream l = true)
  ∧ ¬ (is_Some (l_stdin_path l) ∧ l_stdin_stream l = true)
  ∧ (∀ path f, l_stdin_path l = Some path → pl_stdin p = Some f →
       is_absolute path = true ∧ ∃ w1 w2, fs_file_is_file f w1 = (Ok true, w2)).
Proof.
  intros (args & w1 & Hargs%resolve_args_ok & H)%bind_ok.
  apply bind_ok in H as (stderr & w2 & Hstderr%transpose_ok & H).
  assert (is_Some stderr ↔ is_Some (l_stderr_path l)) as Hs.
  { destruct Hstderr as [(-> & -> & _)|(a & b & -> & -> & _)]; split; intros; try done; by apply not_None_is_Some. }
  destruct (l_stdin_stream l) eqn:Hst; simpl in H.
  - case_bool_decide as Hp; [done|].
    apply bind_ok in H as (stdin & w3 & _ & H). apply bind_ok in H as ([rd wr] & w4 & _ & H).
    unfold ret in H. simplify_eq/=.
    split_and!; [done|done|by split; eauto|by split; eauto|by intros [??]|].
    intros path f Hpath. destruct Hp. eauto.
  - apply bind_ok in H as (stdin & w3 & Hstdin%transpose_ok & H). unfold ret in H. simplify_eq/=.
    destruct Hstdin as [(-> & -> & _)|(path & f & -> & -> & Hf)].
    + split_and!; eauto; try (split; naive_solver); naive_solver.
    + apply open_stdin_ok in Hf as [Habs [w5 Hf]].
      split_and!; eauto; try (split; naive_solver); naive_solver.
Qed.

(** An argument that cannot be resolved: the error names a [file_contents_path]
    argument and its position, every earlier argument was resolved, and nothing but reads
    has happened: any property of the system that opening and reading files preserve (no
    stderr file created, no pipe made) still holds. *)
Theorem prepare_blames_argument l w e w' (I : W → Prop) :
  (∀ path v, I v → I (snd (fs_open path v))) →
  (∀ f n v, I v → I (snd (fs_read_up_to f n v))) →
  I w →
  fst (resolve_args 0 (l_arg_specs l) (l_args l) w) = Err e →
  prepare l w = (Err e, w') →
  I w' ∧ ∃ i path out w1, l_arg_specs l !! i = Some (FileContents path) ∧ blames e i path
    ∧ resolve_args 0 (take i (l_arg_specs l)) (l_args l) w = (Ok out, w1).
Proof.
  intros Hopen Hread HI He. destruct (resolve_args 0 _ _ w) as [r w1] eqn:Hres. simpl in He. subst r.
  intros Hp. unfold prepare, bind at 1 in Hp. rewrite Hres in Hp. simplify_eq.
  split; [by eapply resolve_args_reads|].
  destruct (resolve_args_err _ _ _ _ _ _ Hres) as (i & path & out & w1 & Hi & Hout & Hr).
  exists i, path, out, w1. split_and!; [done| |done]. by eapply read_arg_file_err.
Qed.

End Prepare.

(** ** A file system with two files, for the witnesses

    A state lists the files that exist, the files created by an append, and the number of
    pipes; a handle is the path, or one end of a pipe. *)

Inductive mini_file := MFile (path : bytes) | MPipe (n : nat) (write_end : bool).
Record mini_fs := mkMini { mf_files : gmap (list Z) (list Z); mf_created : list bytes; mf_pipes : nat }.

Definition mini_content (f : mini_file) (w : mini_fs) : bytes :=
  match f with MFile path => default [] (mf_files w !! path) | MPipe _ _ => [] end.

#[export, refine] Instance mini_filesystem : FileSystem mini_fs mini_file := {
  fs_open path w := (match mf_files w !! path with Some _ => Ok (MFile path) | None => Err IoNotFound end, w);
  fs_read_up_to f n w := (Ok (take (Z.to_nat n) (mini_content f w)), w);
  fs_open_append path w := (Ok (MFile path), mkMini (mf_files w) (path :: mf_created w) (mf_pipes w));
  fs_is_file path w := (Ok (bool_decide (is_Some (mf_files w !! path))), w);
  fs_file_is_file f w := (Ok (match f with MFile _ => true | _ => false end), w);
  fs_pipe w := (Ok (MPipe (mf_pipes w) false, MPipe (mf_pipes w) true),
                mkMini (mf_files w) (mf_created w) (S (mf_pipes w)));
  fs_whole f w bs := bs = mini_content f w;
}.
Proof.
  intros f n w bs w' [= <- <-] Hlen. apply take_ge. rewrite length_take in Hlen. lia.
Defined.

(** The file [/a] holds ["hi"]. *)
Definition w_path_a : bytes := [47; 97].
Definition w_path_b : bytes := [47; 98].
Definition w_fs : mini_fs := mkMini {[ w_path_a := [104; 105] ]} [] 0.
Definition w_launch : Launch :=
  mkLaunch [[45; 120]] ∅ [Literal [121]; FileContents w_path_a] (Some w_path_b) (Some w_path_a) false.
Definition w_bad_launch : Launch :=
  mkLaunch [[45; 120]] ∅ [Literal [121]; FileContents w_path_b] (Some w_path_b) None false.

Lemma prepare_sound_witness :
  let p := mkPrepared [[45; 120]; [121]; [104; 105]] (Some (MFile w_path_b)) (Some (MFile w_path_a)) None in
  (∃ more, pl_args p = l_args w_launch ++ more ∧ Forall2 argument_ok (l_arg_specs w_launch) more)
  ∧ is_Some (pl_stderr p).
Proof.
  intros p. destruct (prepare_sound w_launch w_fs p (mkMini {[ w_path_a := [104; 105] ]} [w_path_b] 0)) as (H & Hs & _);
    [vm_compute; reflexivity|]. split; [exact H|]. apply Hs. eexists. reflexivity.
Defined.

Lemma prepare_blames_argument_witness :
  mf_created w_fs = [] ∧ ∃ i path out w1, l_arg_specs w_bad_launch !! i = Some (FileContents path)
    ∧ blames (ArgFileRead 1 w_path_b IoNotFound) i path
    ∧ resolve_args 0 (take i (l_arg_specs w_bad_launch)) (l_args w_bad_launch) w_fs = (Ok out, w1).
Proof.
  apply (prepare_blames_argument w_bad_launch w_fs _ w_fs (λ w, mf_created w = []));
    [by intros|by intros|reflexivity|vm_compute; reflexivity|vm_compute; reflexivity].
Defined.
