(* ===== verification/Persistence.v ===== *)
(** * Session records on disk (persistence.rs)

    The engine's session data, the records it is written to and rebuilt from, their
    validation, and the directory of record files. The theorems: a record that is loaded
    and written again is unchanged, whatever the daemon writes passes the validation it is
    loaded with, a crash in the middle of a save leaves the old record or the new one, and
    pruning removes exactly the stale records.

    The JSON codec (serde_json) and the text of a session id (uuid) are parameters. *)

From S2P Require Import Prelude Float Layout Restart Launch.

Definition CURRENT_SCHEMA_VERSION : Z := 1.

(** ** Records *)

Record PersistedPaneRecord := mkPaneRecord {
  pp_pane_id : Uuid;
  pp_command : list Z;
  pp_cwd : list Z;
  pp_rows : Z;
  pp_cols : Z;
  pp_exit_code : option Z;
  pp_launch : Launch;
  pp_restart : option PersistedRestartState;
}.

Inductive PersistedLayoutNode :=
| PLeaf (pane : PersistedPaneRecord)
| PSplit (orientation : Orientation) (children : list (PersistedLayoutNode * spec_float)).

Record PersistedWindowRecord := mkWindowRecord {
  pw_id : Uuid;
  pw_name : list Z;
  pw_layout : PersistedLayoutNode;
}.

Record PersistedSessionRecord := mkSessionRecord {
  ps_schema_version : Z;
  ps_session_id : Uuid;
  ps_name : list Z;
  ps_windows : list PersistedWindowRecord;
  ps_active_window_id : Uuid;
  ps_default_restart_policy : option RestartPolicy;
}.

(** ** The engine's data (engine.rs) *)

Record WindowState := mkWindow {
  w_id : Uuid;
  w_name : list Z;
  w_layout : LayoutNode;
  w_rows : Z;
  w_cols : Z;
}.

Record SessionState := mkSession {
  s_id : Uuid;
  s_name : list Z;
  s_windows : list WindowState;
  s_active_window_id : Uuid;
  s_default_restart_policy : RestartPolicy;
}.

(** A live entry holds a reference to a pane. *)
Inductive PaneEntry := EntryLive (pane : N) | EntryDead (record : PersistedPaneRecord).

(** What this code reads of the pane behind a reference. *)
Record PaneView := mkView {
  v_command : list Z;
  v_cwd : list Z;
  v_launch : Launch;
  v_size : Z * Z;
  v_exited : bool;
  v_exit_code : option Z;
}.

Definition launch_default : Launch := mkLaunch [] ∅ [] None None false.

(** ** Validation *)

Definition f32_hundredth : spec_float := S754_finite false 10737418 (-30).

(** Rust's [f32] sum of an iterator. *)
Definition f32_sum (rs : list spec_float) : spec_float := fold_left f32_add rs (S754_zero true).

Inductive StructureError := WrongChildren (n : nat) | WrongRatios (sum : spec_float).

Definition ratios_ok (rs : list spec_float) : bool :=
  negb (sf_gt (SFabs (f32_sub (f32_sum rs) f32_one)) f32_hundredth).

Fixpoint validate_structure (n : PersistedLayoutNode) : result unit StructureError :=
  match n with
  | PLeaf _ => Ok tt
  | PSplit _ children =>
      if negb (length children =? 2)%nat then Err (WrongChildren (length children))
      else if negb (ratios_ok (map snd children)) then Err (WrongRatios (f32_sum (map snd children)))
      else
        (fix walk (cs : list (PersistedLayoutNode * spec_float)) : result unit StructureError :=
           match cs with
           | [] => Ok tt
           | (child, _) :: cs => match validate_structure child with Ok _ => walk cs | Err e => Err e end
           end) children
  end.

Inductive ValidateError := UnknownSchema (version : Z) | BadStructure (e : StructureError).

Fixpoint validate_windows (ws : list PersistedWindowRecord) : result unit ValidateError :=
  match ws with
  | [] => Ok tt
  | w :: ws =>
      match validate_structure (pw_layout w) with Ok _ => validate_windows ws | Err e => Err (BadStructure e) end
  end.

Definition validate_record (r : PersistedSessionRecord) : result unit ValidateError :=
  if negb (ps_schema_version r =? CURRENT_SCHEMA_VERSION) then Err (UnknownSchema (ps_schema_version r))
  else validate_windows (ps_windows r).

(** ** Writing and reading a layout *)

Section Conversion.
Context (view : N → PaneView).

Definition pane_record (pane_id : Uuid) (entry : option PaneEntry) : PersistedPaneRecord :=
  match entry with
  | Some (EntryLive r) =>
      let v := view r in
      mkPaneRecord pane_id (v_command v) (v_cwd v) (fst (v_size v) mod 65536) (snd (v_size v) mod 65536)
        (v_exit_code v) (v_launch v) None
  | Some (EntryDead record) => record
  | None => mkPaneRecord pane_id [] [] 0 0 None launch_default None
  end.

Definition with_restart (restart : option PersistedRestartState) (r : PersistedPaneRecord) : PersistedPaneRecord :=
  let 'mkPaneRecord id command cwd rows cols code launch old := r in
  mkPaneRecord id command cwd rows cols code launch (match restart with Some _ => restart | None => old end).

Fixpoint from_live (node : LayoutNode) (panes : gmap Uuid PaneEntry) (restart : gmap Uuid PersistedRestartState)
    : PersistedLayoutNode :=
  match node with
  | Leaf pane_id => PLeaf (with_restart (restart !! pane_id) (pane_record pane_id (panes !! pane_id)))
  | Split o children => PSplit o (map (λ c, (from_live (fst c) panes restart, snd c)) children)
  end.

(** The live tree, and the map of panes with a dead entry for every leaf walked. *)
Fixpoint persisted_layout_to_live (node : PersistedLayoutNode) (panes : gmap Uuid PaneEntry)
    : LayoutNode * gmap Uuid PaneEntry :=
  match node with
  | PLeaf pane => (leaf (pp_pane_id pane), <[pp_pane_id pane := EntryDead pane]> panes)
  | PSplit o children =>
      let '(children', panes') :=
        (fix walk (cs : list (PersistedLayoutNode * spec_float)) panes :=
           match cs with
           | [] => ([], panes)
           | (c, ratio) :: cs =>
               let '(c', panes1) := persisted_layout_to_live c panes in
               let '(cs', panes2) := walk cs panes1 in
               ((c', ratio) :: cs', panes2)
           end) children panes in
      (Split o children', panes')
  end.

(** [!=] on policies: derived, field by field, floats as floats. *)
Definition f64_eqb (x y : spec_float) : bool :=
  match sf_compare x y with Some Eq => true | _ => false end.
Definition policy_eqb (p q : RestartPolicy) : bool :=
  bool_decide (rp_mode p = rp_mode q) && (rp_max_restarts p =? rp_max_restarts q)
  && (rp_window_ms p =? rp_window_ms q) && (rp_initial_delay_ms p =? rp_initial_delay_ms q)
  && f64_eqb (rp_multiplier p) (rp_multiplier q) && (rp_max_delay_ms p =? rp_max_delay_ms q)
  && f64_eqb (rp_jitter p) (rp_jitter q) && (rp_healthy_after_ms p =? rp_healthy_after_ms q).

Definition from_session_state_with_restart (session : SessionState) (panes : gmap Uuid PaneEntry)
    (restart : gmap Uuid PersistedRestartState) : PersistedSessionRecord :=
  mkSessionRecord CURRENT_SCHEMA_VERSION (s_id session) (s_name session)
    (map (λ w, mkWindowRecord (w_id w) (w_name w) (from_live (w_layout w) panes restart)) (s_windows session))
    (s_active_window_id session)
    (if policy_eqb (s_default_restart_policy session) policy_default then None
     else Some (s_default_restart_policy session)).

Definition from_session_state (session : SessionState) (panes : gmap Uuid PaneEntry) : PersistedSessionRecord :=
  from_session_state_with_restart session panes ∅.

End Conversion.

(** ** Induction over trees with lists of children *)

Lemma layout_node_ind (P : LayoutNode → Prop) :
  (∀ id, P (Leaf id)) → (∀ o cs, Forall (λ c, P (fst c)) cs → P (Split o cs)) → ∀ n, P n.
Proof.
  intros HL HS. fix IH 1. intros [id|o cs]; [done|]. apply HS.
  induction cs as [|[c r] cs IHcs]; constructor; [apply IH|done].
Qed.

Lemma persisted_node_ind (P : PersistedLayoutNode → Prop) :
  (∀ pane, P (PLeaf pane)) → (∀ o cs, Forall (λ c, P (fst c)) cs → P (PSplit o cs)) → ∀ n, P n.
Proof.
  intros HL HS. fix IH 1. intros [pane|o cs]; [done|]. apply HS.
  induction cs as [|[c r] cs IHcs]; constructor; [apply IH|done].
Qed.

(** ** Round trips *)

(** The pane records of a tree in tree order, and the tree of its pane ids. *)
Fixpoint records (n : PersistedLayoutNode) : list PersistedPaneRecord :=
  match n with PLeaf pane => [pane] | PSplit _ cs => flat_map (λ c, records (fst c)) cs end.
Fixpoint erase (n : PersistedLayoutNode) : LayoutNode :=
  match n with
  | PLeaf pane => Leaf (pp_pane_id pane)
  | PSplit o cs => Split o (map (λ c, (erase (fst c), snd c)) cs)
  end.

Definition insert_dead (m : gmap Uuid PaneEntry) (r : PersistedPaneRecord) : gmap Uuid PaneEntry :=
  <[pp_pane_id r := EntryDead r]> m.

Lemma to_live_eq n panes :
  persisted_layout_to_live n panes = (erase n, foldl insert_dead panes (records n)).
Proof.
  revert n panes. apply (persisted_node_ind (λ n, ∀ panes, _)); [done|].
  intros o cs Hcs panes. cbn [persisted_layout_to_live erase records].
  assert (∀ panes, (fix walk (cs : list (PersistedLayoutNode * spec_float)) panes :=
           match cs with
           | [] => ([], panes)
           | (c, ratio) :: cs =>
               let '(c', panes1) := persisted_layout_to_live c panes in
               let '(cs', panes2) := walk cs panes1 in
               ((c', ratio) :: cs', panes2)
           end) cs panes
         = (map (λ c, (erase (fst c), snd c)) cs, foldl insert_dead panes (flat_map (λ c, records (fst c)) cs))) as Hw.
  { clear panes. induction Hcs as [|[c r] cs Hc Hcs IH]; intros panes; [done|].
    simpl in Hc. rewrite Hc, IH. cbn [flat_map map fst snd]. by rewrite foldl_app. }
  by rewrite Hw.
Qed.

Lemma leaves_erase n : leaves (erase n) = map pp_pane_id (records n).
Proof.
  revert n. apply persisted_node_ind; [done|]. intros o cs Hcs. cbn [erase leaves records].
  induction Hcs as [|[c r] cs Hc Hcs IH]; [done|]. cbn [flat_map map fst] in *. by rewrite Hc, IH, map_app.
Qed.

Lemma foldl_insert_dead rs panes id :
  id ∉ map pp_pane_id rs → foldl insert_dead panes rs !! id = panes !! id.
Proof.
  revert panes. induction rs as [|r rs IH]; intros panes; [done|]. cbn [map foldl].
  rewrite not_elem_of_cons. intros [??]. rewrite IH by done. unfold insert_dead. by rewrite lookup_insert_ne.
Qed.

Lemma foldl_insert_dead_in rs panes r :
  NoDup (map pp_pane_id rs) → r ∈ rs → foldl insert_dead panes rs !! pp_pane_id r = Some (EntryDead r).
Proof.
  revert panes. induction rs as [|r' rs IH]; intros panes Hnd Hin; [by apply elem_of_nil in Hin|].
  cbn [map foldl] in *. apply NoDup_cons in Hnd as [Hr Hnd]. apply elem_of_cons in Hin as [->|Hin]; [|auto].
  rewrite foldl_insert_dead by done. unfold insert_dead. by rewrite lookup_insert_eq.
Qed.

Section RoundTrip.
Context (view : N → PaneView).

Lemma with_restart_None r : with_restart None r = r.
Proof. by destruct r. Qed.

Lemma from_live_erase n panes :
  (∀ r, r ∈ records n → panes !! pp_pane_id r = Some (EntryDead r)) → from_live view (erase n) panes ∅ = n.
Proof.
  revert n. apply (persisted_node_ind (λ n, _ → _ = _)).
  - intros pane Hp. simpl. rewrite Hp by set_solver. by rewrite lookup_empty, with_restart_None.
  - intros o cs Hcs Hp. cbn [erase from_live records] in *. f_equal.
    induction Hcs as [|[c r] cs Hc Hcs IH]; [done|]. cbn [map flat_map fst snd] in *.
    rewrite Hc by (intros; apply Hp; set_solver). rewrite IH by (intros; apply Hp; set_solver). done.
Qed.

(** The entries of the pane map carry their own ids. *)
Definition own_ids (panes : gmap Uuid PaneEntry) : Prop :=
  ∀ id r, panes !! id = Some (EntryDead r) → pp_pane_id r = id.

Lemma pane_record_id id panes restart :
  own_ids panes → pp_pane_id (with_restart restart (pane_record view id (panes !! id))) = id.
Proof.
  intros Hown. destruct (panes !! id) as [[r|record]|] eqn:He; [done| |done].
  apply Hown in He. by destruct record.
Qed.

Lemma erase_from_live n panes restart : own_ids panes → erase (from_live view n panes restart) = n.
Proof.
  intros Hown. revert n. apply layout_node_ind.
  - intros id. cbn [from_live erase]. by rewrite pane_record_id.
  - intros o cs Hcs. cbn [from_live erase]. f_equal. rewrite map_map.
    induction Hcs as [|[c r] cs Hc Hcs IH]; [done|]. cbn [map fst snd] in *. by rewrite Hc, IH.
Qed.

End RoundTrip.

(** ** Validation of what is written *)

Fixpoint live_valid (n : LayoutNode) : bool :=
  match n with
  | Leaf _ => true
  | Split _ cs => (length cs =? 2)%nat && ratios_ok (map snd cs) && forallb (λ c, live_valid (fst c)) cs
  end.

Lemma validate_walk (cs : list (PersistedLayoutNode * spec_float)) :
  (fix walk (cs : list (PersistedLayoutNode * spec_float)) : result unit StructureError :=
           match cs with
           | [] => Ok tt
           | (child, _) :: cs => match validate_structure child with Ok _ => walk cs | Err e => Err e end
           end) cs = Ok tt ↔ Forall (λ c, validate_structure (fst c) = Ok tt) cs.
Proof.
  induction cs as [|[c r] cs IH]; [split; [constructor|done]|].
  rewrite Forall_cons. cbn [fst]. destruct (validate_structure c) as [[]|e]; naive_solver.
Qed.

Lemma validate_erase n : validate_structure n = Ok tt ↔ live_valid (erase n) = true.
Proof.
  revert n. apply persisted_node_ind; [done|]. intros o cs Hcs. cbn [validate_structure erase live_valid].
  rewrite length_map, map_map. change (map (λ x, snd (erase (fst x), snd x)) cs) with (map snd cs).
  destruct (length cs =? 2)%nat; cbn [negb andb]; [|done].
  destruct (ratios_ok (map snd cs)); cbn [negb andb]; [|done].
  rewrite validate_walk, forallb_forall, Forall_forall. rewrite Forall_forall in Hcs. split.
  - intros Hv x [c [<- Hin]]%in_map_iff. cbn [fst]. apply Hcs; [by apply list_elem_of_In|].
    apply Hv. by apply list_elem_of_In.
  - intros Hv c Hin. apply Hcs; [done|]. apply (Hv (erase (fst c), snd c)), in_map_iff.
    exists c. split; [done|]. by apply list_elem_of_In.
Qed.

Lemma live_valid_split o a ra b rb :
  live_valid (Split o [(a, ra); (b, rb)]) = ratios_ok [ra; rb] && (live_valid a && live_valid b).
Proof. cbn. by rewrite andb_true_r. Qed.

Lemma ratios_ok_halves : ratios_ok [f32_half; f32_half] = true.
Proof. vm_compute. reflexivity. Qed.

Lemma live_valid_subst n target t :
  live_valid t = true → live_valid n = true → live_valid (subst_leaf n target t) = true.
Proof.
  intros Ht. revert n. apply (layout_node_ind (λ n, _ → _)).
  - intros id _. simpl. by case_bool_decide.
  - intros o cs Hcs. cbn [live_valid subst_leaf]. rewrite length_map, map_map.
    change (map (λ x, snd (subst_leaf (fst x) target t, snd x)) cs) with (map snd cs).
    rewrite !andb_true_iff. intros [Hlr Hv]. split; [done|].
    rewrite forallb_forall in *. rewrite Forall_forall in Hcs.
    intros x [c [<- Hin]]%in_map_iff. apply Hcs; [by apply list_elem_of_In|auto].
Qed.

Lemma live_valid_remove n : wf_layout n = true → ∀ id n',
  live_valid n = true → remove n id = Some (Collapsed n') → live_valid n' = true.
Proof.
  revert n. layout_induction; intros id' n' Hv.
  - simpl. case_bool_decide; [done|]. by intros [= <-].
  - rewrite live_valid_split, !andb_true_iff in Hv. destruct Hv as (Hr & Hva & Hvb).
    rewrite remove_split.
    destruct (contains a id' && is_leaf a); [by intros [= <-]|].
    destruct (contains b id' && is_leaf b); [by intros [= <-]|].
    destruct (contains a id').
    { destruct (remove a id') as [[a'|]|] eqn:Hrm; intros; simplify_eq; [|done].
      rewrite live_valid_split, Hr, Hvb. by rewrite (IHa id' a'). }
    destruct (contains b id').
    { destruct (remove b id') as [[b'|]|] eqn:Hrm; intros; simplify_eq; [|done].
      rewrite live_valid_split, Hr, Hva. by rewrite (IHb id' b'). }
    intros [= <-]. by rewrite live_valid_split, Hr, Hva, Hvb.
Qed.

(** ** The directory of record files *)

Record DirEntry := mkDirEntry { de_contents : option (list Z); de_modified : option Z }.

(** The sessions directory: whether it can be listed, and its files by name. An entry
    whose contents or modification time is [None] cannot be read or stat'd. *)
Record Store := mkStore { st_listable : bool; st_files : gmap (list Z) DirEntry }.

(** Text of a session id, and the JSON codec. *)
Class RecordCodec := {
  uuid_text : Uuid → list Z;
  to_json : PersistedSessionRecord → option (list Z);
  from_json : list Z → option PersistedSessionRecord;
  uuid_text_inj id id' : uuid_text id = uuid_text id' → id = id';
  uuid_text_nonempty id : uuid_text id ≠ [];
}.

Definition json : list Z := [106; 115; 111; 110].
Definition tmp : list Z := [116; 109; 112].

(** A name split at its last dot. *)
Fixpoint split_last_dot (name : list Z) : option (list Z * list Z) :=
  match name with
  | [] => None
  | c :: rest =>
      match split_last_dot rest with
      | Some (before, after) => Some (c :: before, after)
      | None => if c =? 46 then Some ([], rest) else None
      end
  end.

(** [Path::extension] of a file name. *)
Definition extension (name : list Z) : option (list Z) :=
  if bool_decide (name = [46; 46]) then None
  else match split_last_dot name with Some (_ :: _, after) => Some after | _ => None end.

Definition is_record_file (name : list Z) : bool := bool_decide (extension name = Some json).

Section Backend.
Context `{RecordCodec}.

Definition final_path (session_id : Uuid) : list Z := uuid_text session_id ++ 46 :: json.
Definition tmp_path (session_id : Uuid) : list Z := uuid_text session_id ++ 46 :: json ++ 46 :: tmp.

(** How the two system calls of [save] go: writing the temporary file completes, or stops
    (before creating it, or after some bytes); renaming it succeeds or not. A process killed
    in the middle of a save leaves the same files as one of these. *)
Inductive WriteOutcome := Written | NotCreated | WrittenUpTo (n : nat).

Definition save (st : Store) (record : PersistedSessionRecord) (write : WriteOutcome) (renamed : bool) (now : Z)
    : Store * bool :=
  match to_json record with
  | None => (st, false)
  | Some bytes =>
      let tmp_file := tmp_path (ps_session_id record) in
      let put contents := mkStore (st_listable st) (<[tmp_file := mkDirEntry (Some contents) (Some now)]> (st_files st)) in
      match write with
      | NotCreated => (st, false)
      | WrittenUpTo n => (put (take n bytes), false)
      | Written =>
          if renamed then
            (mkStore (st_listable st)
               (<[final_path (ps_session_id record) := mkDirEntry (Some bytes) (Some now)]>
                  (delete tmp_file (st_files (put bytes)))), true)
          else (put bytes, false)
      end
  end.

(** What [load_all] takes from one directory entry. *)
Definition load_entry (name : list Z) (e : DirEntry) : option PersistedSessionRecord :=
  if negb (is_record_file name) then None
  else
    let! bytes := de_contents e in
    let! record := from_json bytes in
    match validate_record record with Ok _ => Some record | Err _ => None end.

Definition load_all (st : Store) : list PersistedSessionRecord :=
  if st_listable st then omap (λ kv, load_entry (fst kv) (snd kv)) (map_to_list (st_files st)) else [].

(** [delete] ignores a failed removal. *)
Definition delete_record (st : Store) (session_id : Uuid) (removed : bool) : Store :=
  if removed then mkStore (st_listable st) (delete (final_path session_id) (st_files st)) else st.

Definition stale (max_age now : Z) (name : list Z) (e : DirEntry) : bool :=
  is_record_file name &&
  match de_modified e with
  | None => false
  | Some modified => if now <? modified then false else negb (now - modified <=? max_age)
  end.

(** [removable name] is whether removing that file succeeds. *)
Definition prune_stale_at (st : Store) (max_age now : Z) (removable : list Z → bool) : Store * nat :=
  if st_listable st then
    foldl (λ '(st, pruned) '(name, e),
             if stale max_age now name e && removable name
             then (mkStore (st_listable st) (delete name (st_files st)), S pruned)
             else (st, pruned))
          (st, 0%nat) (map_to_list (st_files st))
  else (st, 0%nat).

(** *** Names *)

Lemma split_last_dot_none name : 46 ∉ name → split_last_dot name = None.
Proof.
  induction name as [|c name IH]; [done|]. rewrite not_elem_of_cons. intros [Hc Hn]. simpl.
  rewrite IH by done. by rewrite (proj2 (Z.eqb_neq c 46)).
Qed.

Lemma split_last_dot_app before after :
  46 ∉ after → split_last_dot (before ++ 46 :: after) = Some (before, after).
Proof.
  intros Ha. induction before as [|c before IH]; simpl; [by rewrite split_last_dot_none|]. by rewrite IH.
Qed.

Lemma extension_app before after :
  before ≠ [] → after ≠ [] → 46 ∉ after → extension (before ++ 46 :: after) = Some after.
Proof.
  intros Hb Hne Ha. unfold extension. rewrite split_last_dot_app by done.
  rewrite bool_decide_false.
  - by destruct before.
  - destruct before as [|a [|b [|]]], after; simpl; try done.
Qed.

Lemma is_record_final id : is_record_file (final_path id) = true.
Proof.
  unfold is_record_file, final_path. rewrite extension_app; [by rewrite bool_decide_true| | |].
  - apply uuid_text_nonempty.
  - done.
  - unfold json. set_solver.
Qed.

Lemma is_record_tmp id : is_record_file (tmp_path id) = false.
Proof.
  unfold is_record_file, tmp_path. rewrite (app_assoc _ (46 :: json) (46 :: tmp)), extension_app.
  - by apply bool_decide_false.
  - intros [Hn _]%app_nil. by apply uuid_text_nonempty in Hn.
  - done.
  - unfold tmp. set_solver.
Qed.

Lemma final_path_inj id id' : final_path id = final_path id' → id = id'.
Proof. unfold final_path. intros Hp%app_inv_tail. by apply uuid_text_inj. Qed.

Lemma tmp_ne_final id id' : tmp_path id ≠ final_path id'.
Proof. intros He. pose proof (is_record_tmp id) as Ht. rewrite He, is_record_final in Ht. done. Qed.

(** *** What a directory holds *)

(** The record a file name contributes. *)
Definition load_file (st : Store) (name : list Z) : option PersistedSessionRecord :=
  if st_listable st then st_files st !! name ≫= load_entry name else None.

Lemma elem_of_load_all st r : r ∈ load_all st ↔ ∃ name, load_file st name = Some r.
Proof.
  unfold load_all, load_file. destruct (st_listable st); [|set_solver].
  rewrite list_elem_of_omap. split.
  - intros ([name e] & Hin%elem_of_map_to_list & Hr). exists name. by rewrite Hin.
  - intros (name & (e & He & Hr)%bind_Some). exists (name, e). by rewrite elem_of_map_to_list.
Qed.

Lemma load_file_insert st name name' e :
  load_file (mkStore (st_listable st) (<[name := e]> (st_files st))) name' =
  if st_listable st then (if bool_decide (name' = name) then load_entry name e else load_file st name') else None.
Proof.
  unfold load_file. simpl. destruct (st_listable st); [|done].
  case_bool_decide; subst; [by rewrite lookup_insert_eq|by rewrite lookup_insert_ne].
Qed.

Lemma load_entry_tmp id e : load_entry (tmp_path id) e = None.
Proof. unfold load_entry. by rewrite is_record_tmp. Qed.

Lemma load_file_tmp st id : load_file st (tmp_path id) = None.
Proof.
  unfold load_file. destruct (st_listable st); [|done].
  destruct (st_files st !! _); simpl; [apply load_entry_tmp|done].
Qed.

Lemma load_file_put_tmp st id e name :
  load_file (mkStore (st_listable st) (<[tmp_path id := e]> (st_files st))) name = load_file st name.
Proof.
  rewrite load_file_insert. unfold load_file at 1. destruct (st_listable st) eqn:Hl.
  - case_bool_decide; [subst|by unfold load_file; rewrite Hl].
    rewrite load_entry_tmp. symmetry. apply load_file_tmp.
  - unfold load_file. by rewrite Hl.
Qed.

(** The renamed file replaces the record; the temporary file is gone. *)
Lemma load_file_saved st id bytes now name :
  load_file (mkStore (st_listable st)
     (<[final_path id := mkDirEntry (Some bytes) (Some now)]>
        (delete (tmp_path id) (<[tmp_path id := mkDirEntry (Some bytes) (Some now)]> (st_files st))))) name =
  if bool_decide (name = final_path id)
  then (if st_listable st then load_entry name (mkDirEntry (Some bytes) (Some now)) else None)
  else load_file st name.
Proof.
  rewrite delete_insert_eq. unfold load_file. simpl. case_bool_decide as Hn; [subst; by rewrite lookup_insert_eq|].
  destruct (st_listable st); [|done]. rewrite lookup_insert_ne by done.
  destruct (decide (name = tmp_path id)) as [->|Ht]; [|by rewrite lookup_delete_ne].
  rewrite lookup_delete_eq. simpl. destruct (st_files st !! tmp_path id); simpl; [|done].
  by rewrite load_entry_tmp.
Qed.

(** C38. A save is atomic: one that fails, or is cut short anywhere (nothing written, part
    of the temporary file written, all of it written but not renamed), leaves exactly the
    records that could be loaded before; one that succeeds changes only the record of its
    own session, and a record the codec reads back and that validates is then loaded. *)
Theorem save_is_atomic st r write renamed now st' ok :
  save st r write renamed now = (st', ok) →
  if ok then
    (∀ name, name ≠ final_path (ps_session_id r) → load_file st' name = load_file st name)
    ∧ (∀ bytes, st_listable st = true → to_json r = Some bytes → from_json bytes = Some r →
         validate_record r = Ok tt → load_file st' (final_path (ps_session_id r)) = Some r ∧ r ∈ load_all st')
  else ∀ name, load_file st' name = load_file st name.
Proof.
  unfold save. destruct (to_json r) as [bytes|] eqn:Hj; [|intros [= <- <-]; done].
  destruct write; [|intros [= <- <-]; done|intros [= <- <-] name; apply load_file_put_tmp].
  destruct renamed; [|intros [= <- <-] name; apply load_file_put_tmp].
  intros [= <- <-]. cbn [st_files]. split.
  - intros name Hn. rewrite load_file_saved. by rewrite bool_decide_false.
  - intros bytes' Hl [= <-] Hr Hv. rewrite elem_of_load_all.
    match goal with |- ?P ∧ _ => assert P as Hf end; [|eauto].
    rewrite load_file_saved, bool_decide_true, Hl by done.
    unfold load_entry. rewrite is_record_final. simpl. by rewrite Hr, Hv.
Qed.

(** *** Pruning *)

Definition pruned_entry (max_age now : Z) (removable : list Z → bool) (kv : list Z * DirEntry) : bool :=
  stale max_age now (fst kv) (snd kv) && removable (fst kv).

Lemma prune_fold max_age now removable l st k :
  let '(st', n) := foldl (λ '(st, pruned) '(name, e),
             if stale max_age now name e && removable name
             then (mkStore (st_listable st) (delete name (st_files st)), S pruned)
             else (st, pruned)) (st, k) l in
  (NoDup (map fst l) → (∀ name, name ∈ map fst l → is_Some (st_files st !! name)) →
     (size (st_files st) + k = size (st_files st') + n)%nat)
  ∧ ∀ name, st_files st' !! name =
      if bool_decide (name ∈ map fst (List.filter (pruned_entry max_age now removable) l)) then None else st_files st !! name.
Proof.
  revert st k. induction l as [|[name e] l IH]; intros st k; cbn [foldl].
  { split; [done|]. intros name. by rewrite bool_decide_false by (simpl; set_solver). }
  cbn [List.filter]. change (pruned_entry max_age now removable (name, e)) with (stale max_age now name e && removable name).
  cbn [map fst]. destruct (stale max_age now name e && removable name).
  2:{ specialize (IH st k). destruct (foldl _ _ l) as [st' n]. destruct IH as [Hs IH]. split; [|done].
      intros [_ Hnd]%NoDup_cons Hin. apply Hs; [done|]. set_solver. }
  specialize (IH (mkStore (st_listable st) (delete name (st_files st))) (S k)).
  destruct (foldl _ _ l) as [st' n]. destruct IH as [Hs IH]. split.
  { intros [Hnot Hnd]%NoDup_cons Hin. rewrite <-Nat.add_1_r in Hs. cbn [st_files] in Hs.
    destruct (Hin name) as [x Hx]; [set_solver|].
    pose proof (map_size_non_empty_iff (st_files st)) as Hne.
    rewrite map_size_delete_Some in Hs by eauto.
    assert (size (st_files st) ≠ 0%nat).
    { apply Hne. intros Hem. rewrite Hem, lookup_empty in Hx. done. }
    rewrite <-Hs; [lia|done|]. intros name' Hn. rewrite lookup_delete_ne by set_solver. apply Hin. set_solver. }
  intros name'. rewrite IH. cbn [map fst st_files].
  destruct (decide (name' = name)) as [->|Hne].
  - rewrite lookup_delete_eq, (bool_decide_true (_ ∈ _ :: _)) by set_solver. by case_bool_decide.
  - rewrite lookup_delete_ne by done. do 2 case_bool_decide; set_solver.
Qed.

(** Pruning removes exactly the record files that are older than the limit (never one
    modified in the future or whose time is unknown, and nothing but record files), keeps a
    file that cannot be removed, and reports how many it removed. *)
Theorem prune_exact st max_age now removable st' n :
  prune_stale_at st max_age now removable = (st', n) →
  (∀ name, st_files st' !! name =
     match st_files st !! name with
     | Some e => if st_listable st && stale max_age now name e && removable name then None else Some e
     | None => None
     end)
  ∧ (size (st_files st) = size (st_files st') + n)%nat.
Proof.
  unfold prune_stale_at. destruct (st_listable st) eqn:Hl; [|intros [= <- <-]; split; [|lia]; intros name;
    by destruct (st_files st !! name)].
  pose proof (prune_fold max_age now removable (map_to_list (st_files st)) st 0) as Hf.
  destruct (foldl _ _ _) as [st1 k]. destruct Hf as (Hs & Hf). intros [= -> <-].
  assert (∀ name, st_files st' !! name = match st_files st !! name with
     | Some e => if stale max_age now name e && removable name then None else Some e | None => None end) as Hn.
  { intros name. rewrite Hf. case_bool_decide as Hin.
    - apply list_elem_of_fmap in Hin as ([name' e] & -> & Hin%list_elem_of_In).
      apply filter_In in Hin as [Hin%list_elem_of_In%elem_of_map_to_list Hp]. cbn [fst]. rewrite Hin.
      unfold pruned_entry in Hp. cbn [fst snd] in Hp. by rewrite Hp.
    - destruct (st_files st !! name) as [e|] eqn:He; [|done].
      destruct (stale max_age now name e && removable name) eqn:Hp; [|done]. destruct Hin.
      apply list_elem_of_fmap. exists (name, e). split; [done|]. apply list_elem_of_In, filter_In.
      split; [by apply list_elem_of_In, elem_of_map_to_list|done]. }
  split; [done|]. rewrite <-Hs; [lia|apply NoDup_fst_map_to_list|].
  intros name ([? e] & -> & Hin%elem_of_map_to_list)%list_elem_of_fmap. eauto.
Qed.

End Backend.

(** ** Layouts the daemon can hold *)

(** A layout grows from a single pane, or from a loaded record with ratios between 0 and 1,
    by splits and removals. *)
Inductive grown : LayoutNode → Prop :=
| grown_leaf id : grown (Leaf id)
| grown_loaded p :
    validate_structure p = Ok tt → wf_layout (erase p) = true → NoDup (leaves (erase p)) → grown (erase p)
| grown_split n n' target o new_pane rows cols :
    grown n → new_pane ∉ leaves n → is_u16 rows → is_u16 cols →
    split n target o new_pane rows cols = Some (n', Ok tt) → grown n'
| grown_remove n n' id : grown n → remove n id = Some (Collapsed n') → grown n'.

Lemma split_ok_subst n target o new_pane rows cols n' :
  wf_layout n = true → NoDup (leaves n) → is_u16 rows → is_u16 cols →
  split n target o new_pane rows cols = Some (n', Ok tt) →
  target ∈ leaves n ∧ n' = subst_leaf n target (split_node target new_pane o).
Proof.
  intros Hwf Hnd Hr Hc Hs. destruct (decide (target ∈ leaves n)) as [Hin|Hin].
  - destruct (split_spec n target o new_pane rows cols Hwf Hnd Hr Hc Hin) as (rects & rect & _ & _ & He).
    rewrite He in Hs. destruct (split_check o rect); by simplify_eq.
  - rewrite split_absent in Hs by done. done.
Qed.

Lemma leaves_split_node target new_pane o : leaves (split_node target new_pane o) = [target; new_pane].
Proof. done. Qed.

Lemma grown_ok n : grown n → wf_layout n = true ∧ NoDup (leaves n) ∧ live_valid n = true.
Proof.
  induction 1 as [id|p Hv Hwf Hnd|n n' target o new_pane rows cols _ (Hwf & Hnd & Hlv) Hnew Hr Hc Hs|n n' id _ (Hwf & Hnd & Hlv) Hr].
  - split_and!; [done|apply NoDup_singleton|done].
  - split_and!; [done|done|by apply validate_erase].
  - destruct (split_ok_subst _ _ _ _ _ _ _ Hwf Hnd Hr Hc Hs) as [Hin ->]. split_and!.
    + by apply wf_subst_leaf.
    + rewrite leaves_subst_leaf by done. by apply NoDup_flat_map_insert.
    + apply live_valid_subst; [|done]. unfold split_node. by rewrite live_valid_split, ratios_ok_halves.
  - destruct (remove_ok n Hwf id Hnd) as (out & Ho & Hp). rewrite Hr in Ho. simplify_eq. destruct Hp as [Hw Hl].
    split_and!; [done|rewrite Hl; by apply NoDup_filter|exact (live_valid_remove n Hwf id _ Hlv Hr)].
Qed.

Lemma validate_windows_ok ws :
  Forall (λ w, validate_structure (pw_layout w) = Ok tt) ws → validate_windows ws = Ok tt.
Proof. induction 1 as [|w ws Hw Hws IH]; simpl; [done|]. by rewrite Hw. Qed.

(** C37. What the daemon writes it can load: for every session whose layouts grew by splits
    and removals, the written record passes validation, and its layouts read back are the
    session's layouts, with the same window ids and names. *)
Theorem written_records_load view s panes restart :
  own_ids panes → Forall (λ w, grown (w_layout w)) (s_windows s) →
  let r := from_session_state_with_restart view s panes restart in
  validate_record r = Ok tt
  ∧ map (λ w, (pw_id w, pw_name w, fst (persisted_layout_to_live (pw_layout w) ∅))) (ps_windows r)
    = map (λ w, (w_id w, w_name w, w_layout w)) (s_windows s).
Proof.
  intros Hown Hg r. split.
  - unfold validate_record, r. cbn. apply validate_windows_ok. rewrite Forall_map.
    eapply Forall_impl; [exact Hg|]. intros w (_ & _ & Hv)%grown_ok. cbn [pw_layout].
    apply validate_erase. rewrite erase_from_live by done. exact Hv.
  - unfold r. cbn. rewrite map_map. apply map_ext. intros w. cbn.
    by rewrite to_live_eq, (erase_from_live view).
Qed.

(** Loading a layout and writing it again loses nothing: the rebuilt tree has the
    record's panes in order, every other pane is untouched, and the tree written back is
    the one that was loaded, exit codes and launch descriptions included. *)
Theorem reload_roundtrip view node panes :
  NoDup (map pp_pane_id (records node)) →
  let '(n, panes') := persisted_layout_to_live node panes in
  from_live view n panes' ∅ = node
  ∧ leaves n = map pp_pane_id (records node)
  ∧ ∀ id, id ∉ leaves n → panes' !! id = panes !! id.
Proof.
  intros Hnd. rewrite to_live_eq. split_and!.
  - apply from_live_erase. intros r Hr. by apply foldl_insert_dead_in.
  - apply leaves_erase.
  - intros id. rewrite leaves_erase. apply foldl_insert_dead.
Qed.

(** ** Examples *)

Definition w_pane (id : Uuid) : PersistedPaneRecord :=
  mkPaneRecord id [115; 104] [47] 24 80 (Some 3) launch_default None.

Definition f32_two : spec_float := f32_of_u16 2.
Definition f32_minus_one : spec_float := S754_finite true 8388608 (-23).

Definition w_bad_layout : PersistedLayoutNode :=
  PSplit Horizontal [(PLeaf (w_pane 1%N), f32_two); (PLeaf (w_pane 2%N), f32_minus_one)].
Definition w_bad_record : PersistedSessionRecord :=
  mkSessionRecord 1 9%N [] [mkWindowRecord 8%N [] w_bad_layout] 8%N None.

(** Validation is weaker than the layout's invariant: a record whose ratios are 2 and -1
    passes, and computing the geometry of the layout it loads subtracts 160 columns from 80
    (an arithmetic overflow). *)
Theorem validation_admits_overflow :
  validate_record w_bad_record = Ok tt
  ∧ compute_geometry (fst (persisted_layout_to_live w_bad_layout ∅)) 24 80 = None.
Proof. split; vm_compute; reflexivity. Qed.

Definition w_view (_ : N) : PaneView := mkView [115; 104] [47] launch_default (24, 80) false None.
Definition w_layout_ok : PersistedLayoutNode :=
  PSplit Horizontal [(PLeaf (w_pane 1%N), f32_half); (PLeaf (w_pane 2%N), f32_half)].
Definition w_session : SessionState :=
  mkSession 9%N [97] [mkWindow 8%N [48] (Split Horizontal [(Leaf 1%N, f32_half); (Leaf 2%N, f32_half)]) 24 80] 8%N
    policy_default.
Definition w_panes : gmap Uuid PaneEntry := {[ 1%N := EntryLive 5%N; 2%N := EntryDead (w_pane 2%N) ]}.

Lemma w_session_grown : Forall (λ w, grown (w_layout w)) (s_windows w_session).
Proof.
  constructor; [|constructor]. apply (grown_loaded w_layout_ok); [vm_compute; reflexivity..|].
  apply (bool_decide_unpack _). vm_compute. exact I.
Qed.

Lemma w_panes_own : own_ids w_panes.
Proof.
  intros id r. unfold w_panes. rewrite lookup_insert_Some, lookup_singleton_Some. naive_solver.
Qed.

Lemma written_records_load_witness :
  validate_record (from_session_state_with_restart w_view w_session w_panes ∅) = Ok tt.
Proof. exact (proj1 (written_records_load w_view w_session w_panes ∅ w_panes_own w_session_grown)). Defined.

Lemma reload_roundtrip_witness :
  from_live w_view (fst (persisted_layout_to_live w_layout_ok ∅)) (snd (persisted_layout_to_live w_layout_ok ∅)) ∅
  = w_layout_ok.
Proof.
  pose proof (reload_roundtrip w_view w_layout_ok ∅) as Hr.
  destruct (persisted_layout_to_live w_layout_ok ∅) as [n panes'] eqn:He. cbn [fst snd]. apply Hr.
  apply (bool_decide_unpack _). vm_compute. exact I.
Defined.

(** A codec that knows one record. *)
Definition w_record : PersistedSessionRecord := from_session_state w_view w_session w_panes.
#[export, refine] Instance mini_codec : RecordCodec := {
  uuid_text id := [Z.of_N id];
  to_json r := Some [Z.of_N (ps_session_id r)];
  from_json bytes := match bytes with [9] => Some w_record | _ => None end;
}.
Proof. by intros id id' [= ?%N2Z.inj]. done. Defined.

Definition w_store : Store := mkStore true {[ [1] := mkDirEntry None None ]}.

Lemma save_is_atomic_witness :
  w_record ∈ load_all (fst (save w_store w_record Written true 5))
  ∧ load_file (fst (save w_store w_record (WrittenUpTo 0) true 5)) (final_path 9%N) = None.
Proof.
  split.
  - pose proof (save_is_atomic w_store w_record Written true 5 _ _ (surjective_pairing _)) as Hs.
    change (snd (save w_store w_record Written true 5)) with true in Hs. cbv iota in Hs.
    apply (proj2 Hs [9]); vm_compute; reflexivity.
  - pose proof (save_is_atomic w_store w_record (WrittenUpTo 0) true 5 _ _ (surjective_pairing _)) as Hs.
    change (snd (save w_store w_record (WrittenUpTo 0) true 5)) with false in Hs. cbv iota in Hs.
    rewrite Hs. vm_compute. reflexivity.
Defined.

Lemma prune_exact_witness :
  let st := fst (save w_store w_record Written true 5) in
  st_files (fst (prune_stale_at st 10 16 (λ _, true))) !! final_path 9%N = None.
Proof.
  intros st. rewrite (proj1 (prune_exact st 10 16 (λ _, true) _ _ (surjective_pairing _))).
  vm_compute. reflexivity.
Defined.
