(* ===== verification/Engine.v ===== *)
(** * The engine: sessions, windows and panes (engine.rs)

    The daemon's state and every operation on it: creating, splitting, closing, killing
    and reviving, the supervision calls, viewports and window geometry, snapshots and
    persistence. Panes live in the heap of [Supervision.v] (their lifecycle) and in
    [en_props] (what they were started with, and their size), under the same reference.

    The invariant ties the four structures the code keeps in step: the layouts' leaves, the
    map of panes, the reverse index and the supervision entries. It holds in every state
    reachable by operations that do not overlap and by the reader threads. Each operation is
    here one function, the whole call; [EngineConc.v] cuts the calls that change the structure
    at the places where they release a lock, and relates the two. Spawning a process, signals,
    resizing a pty and resolving a launch are arguments (what the operating system
    answered); ids are fresh where the code draws a random uuid. A computation that would
    panic is [None]. *)

From S2P Require Import Prelude Float Layout Restart TermQuery Supervision Launch Persistence.

Set Warnings "-register-all".

Definition DEFAULT_ROWS : Z := 24.
Definition DEFAULT_COLS : Z := 80.
Definition MAX_PANE_ROWS : Z := 500.
Definition MAX_PANE_COLS : Z := 1000.

(** ** Data *)

(** The storage seam: what the engine calls. *)
Class PersistenceBackend (B : Type) := {
  b_save : PersistedSessionRecord → B → B * bool;
  b_delete : Uuid → B → B;
}.

(** What a pane was started with, and its current size. *)
Record PaneProps := mkProps {
  pr_command : list Z;
  pr_cwd : list Z;
  pr_launch : Launch;
  pr_size : Z * Z;
}.

(** [WindowIndex]: pane to window, window to session. *)
Record WindowIndex := mkIndex { ix_pane_window : gmap Uuid Uuid; ix_window_session : gmap Uuid Uuid }.

Record Engine (B : Type) := mkEngine {
  en_sessions : gmap Uuid SessionState;
  en_panes : gmap Uuid PaneEntry;
  en_viewports : gmap Uuid (gmap Z (Z * Z));
  en_next_client_id : Z;
  en_watchers : gmap Uuid nat;
  en_index : WindowIndex;
  en_supervision : Supervision;
  en_props : gmap N PaneProps;
  en_backend : B;
}.
Arguments mkEngine {B} _ _ _ _ _ _ _ _ _.
Arguments en_sessions {B} _.
Arguments en_panes {B} _.
Arguments en_viewports {B} _.
Arguments en_next_client_id {B} _.
Arguments en_watchers {B} _.
Arguments en_index {B} _.
Arguments en_supervision {B} _.
Arguments en_props {B} _.
Arguments en_backend {B} _.

Inductive EngineError :=
| EPaneNotFound (id : Uuid)
| ESessionNotFound (id : Uuid)
| EBelowMinimumSize (rows cols : Z)
| EBelowRecommendedSize (rows : Z)
| EReviveLaunch (pane_id : Uuid) (message : string)
| EPaneRunning (id : Uuid)
| EPaneStopped (id : Uuid)
| EPaneFailed (id : Uuid)
| EInvalidRestartPolicy (e : PolicyError)
| EPaneStart (pane_id : Uuid) (message : string).

(** The errors of supervision are engine errors. *)
Definition supervision_error (e : SupervisionError) : EngineError :=
  match e with
  | PaneNotFound id => EPaneNotFound id
  | PaneRunning id => EPaneRunning id
  | InvalidRestartPolicy why => EInvalidRestartPolicy why
  | PaneStart id message => EPaneStart id message
  end.

Definition layout_error (e : LayoutError) : EngineError :=
  match e with
  | LBelowMinimumSize rows cols => EBelowMinimumSize rows cols
  | LBelowRecommendedSize rows => EBelowRecommendedSize rows
  | LPaneNotFound id => EPaneNotFound id
  end.

(** ** Snapshots *)

Record PaneInfo := mkInfo {
  i_id : Uuid; i_rows : Z; i_cols : Z; i_live : bool; i_cwd : list Z; i_state : LifecycleState;
}.

Inductive LayoutSnapshot :=
| SnapLeaf (info : PaneInfo)
| SnapSplit (orientation : Orientation) (children : list (LayoutSnapshot * spec_float)).

Record WindowSnapshot := mkWindowSnapshot { ws_id : Uuid; ws_name : list Z; ws_layout : LayoutSnapshot }.
Record SessionSnapshot := mkSessionSnapshot {
  ss_id : Uuid; ss_name : list Z; ss_windows : list WindowSnapshot; ss_live : bool;
}.

Inductive PaneHandle := HandleLive (pane : N) | HandleDead (record : PersistedPaneRecord) | HandleMissing.
Inductive LayoutHandle :=
| HLeaf (pane_id : Uuid) (handle : PaneHandle)
| HSplit (orientation : Orientation) (children : list (LayoutHandle * spec_float)).
Record WindowHandle := mkWindowHandle { wh_id : Uuid; wh_name : list Z; wh_layout : LayoutHandle }.
Record SessionHandle := mkSessionHandle { sh_id : Uuid; sh_name : list Z; sh_windows : list WindowHandle }.

(** The pane's supervision state, or what liveness says for a pane supervision does not know. *)
Definition pane_state (sup : Supervision) (pane_id : Uuid) (live : bool) : LifecycleState :=
  default (if live then Live else Exited) (state_of sup pane_id).

Definition live_info (v : PaneView) : Z * Z * bool * list Z :=
  (fst (v_size v), snd (v_size v), negb (v_exited v), v_cwd v).
Definition record_info (r : PersistedPaneRecord) : Z * Z * bool * list Z := (pp_rows r, pp_cols r, false, pp_cwd r).

Definition leaf_info (sup : Supervision) (pane_id : Uuid) (i : Z * Z * bool * list Z) : PaneInfo :=
  let '(rows, cols, live, cwd) := i in mkInfo pane_id rows cols live cwd (pane_state sup pane_id live).

Section Snapshots.
Context (view : N → PaneView) (sup : Supervision).

Fixpoint window_has_live_pane (layout : LayoutSnapshot) : bool :=
  match layout with
  | SnapLeaf info => i_live info
  | SnapSplit _ children => existsb (λ c, window_has_live_pane (fst c)) children
  end.

Fixpoint layout_to_snapshot (node : LayoutNode) (panes : gmap Uuid PaneEntry) : LayoutSnapshot :=
  match node with
  | Leaf pane_id =>
      SnapLeaf (leaf_info sup pane_id
        match panes !! pane_id with
        | Some (EntryLive r) => live_info (view r)
        | Some (EntryDead record) => record_info record
        | None => (0, 0, false, [])
        end)
  | Split o children => SnapSplit o (map (λ c, (layout_to_snapshot (fst c) panes, snd c)) children)
  end.

Definition session_to_snapshot (session : SessionState) (panes : gmap Uuid PaneEntry) : SessionSnapshot :=
  let windows := map (λ w, mkWindowSnapshot (w_id w) (w_name w) (layout_to_snapshot (w_layout w) panes)) (s_windows session) in
  mkSessionSnapshot (s_id session) (s_name session) windows (existsb (λ w, window_has_live_pane (ws_layout w)) windows).

Fixpoint layout_to_handle (node : LayoutNode) (panes : gmap Uuid PaneEntry) : LayoutHandle :=
  match node with
  | Leaf pane_id =>
      HLeaf pane_id match panes !! pane_id with
                    | Some (EntryLive r) => HandleLive r
                    | Some (EntryDead record) => HandleDead record
                    | None => HandleMissing
                    end
  | Split o children => HSplit o (map (λ c, (layout_to_handle (fst c) panes, snd c)) children)
  end.

Fixpoint handle_to_layout_snapshot (handle : LayoutHandle) : LayoutSnapshot :=
  match handle with
  | HLeaf pane_id h =>
      SnapLeaf (leaf_info sup pane_id
        match h with
        | HandleLive r => live_info (view r)
        | HandleDead record => record_info record
        | HandleMissing => (0, 0, false, [])
        end)
  | HSplit o children => SnapSplit o (map (λ c, (handle_to_layout_snapshot (fst c), snd c)) children)
  end.

End Snapshots.

(** The two phases of [list_sessions]: under the locks, then without them. *)
Definition session_handles (sessions : gmap Uuid SessionState) (panes : gmap Uuid PaneEntry) : list SessionHandle :=
  map (λ s, mkSessionHandle (s_id s) (s_name s)
              (map (λ w, mkWindowHandle (w_id w) (w_name w) (layout_to_handle (w_layout w) panes)) (s_windows s)))
      (map snd (map_to_list sessions)).

Definition handle_snapshot (view : N → PaneView) (sup : Supervision) (h : SessionHandle) : SessionSnapshot :=
  let windows := map (λ w, mkWindowSnapshot (wh_id w) (wh_name w) (handle_to_layout_snapshot view sup (wh_layout w))) (sh_windows h) in
  mkSessionSnapshot (sh_id h) (sh_name h) windows (existsb (λ w, window_has_live_pane (ws_layout w)) windows).

(** ** The emulator of a pane

    What the engine asks of it: a new size. [None] is a panic. A well-formed emulator takes
    every size of at least one row and one column that a pane can have, and panics on a size
    of no rows or no columns. *)
Class Emulator (T : Type) := {
  vt_set_size : T → Z → Z → option T;
  emulator_size : T → Z * Z;
  emulator_ok : T → Prop;
  vt_set_size_ok t rows cols :
    emulator_ok t → 1 ≤ rows ≤ MAX_PANE_ROWS → 1 ≤ cols ≤ MAX_PANE_COLS →
    ∃ t', vt_set_size t rows cols = Some t' ∧ emulator_ok t';
  vt_set_size_zero t rows cols : emulator_ok t → rows < 1 ∨ cols < 1 → vt_set_size t rows cols = None;
  vt_set_size_size t rows cols t' : vt_set_size t rows cols = Some t' → emulator_size t' = (rows, cols);
}.

(** ** Operations *)

(** What [Pane::spawn] returned: the reference of the new pane, its id and process id, and
    the working directory it ended up in when none was asked for. *)
Record Spawned := mkSpawned { sp_ref : N; sp_id : Uuid; sp_pid : option Z; sp_cwd : list Z }.

(** The clock and the jitter drawn for an operation. *)
Record Tick := mkTick { t_now : Z; t_unit : spec_float }.

Inductive PaneLookup := LookupLive (pane : N) | LookupDead | LookupUnknown.

Record ClosePaneOutcome := mkClosed {
  c_window_closed : option (Uuid * list Z);
  c_session_closed : option (Uuid * list Z);
  c_session : option SessionSnapshot;
}.

Inductive ReviveOutcome := Revived (pane_count : nat) | AlreadyLive.

Inductive CreateError := CreateInvalidPolicy (e : PolicyError) | CreateSpawnFailed.

Section Operations.
Context {B : Type} `{BK : PersistenceBackend B} (powi : spec_float → Z → spec_float) (default_shell : list Z).

Implicit Types (e : Engine B).

Definition set_sessions e v : Engine B :=
  let 'mkEngine _ panes vp nc wt ix sup props b := e in mkEngine v panes vp nc wt ix sup props b.
Definition set_panes e v : Engine B :=
  let 'mkEngine ss _ vp nc wt ix sup props b := e in mkEngine ss v vp nc wt ix sup props b.
Definition set_viewports e v : Engine B :=
  let 'mkEngine ss panes _ nc wt ix sup props b := e in mkEngine ss panes v nc wt ix sup props b.
Definition set_next_client_id e v : Engine B :=
  let 'mkEngine ss panes vp _ wt ix sup props b := e in mkEngine ss panes vp v wt ix sup props b.
Definition set_watchers e v : Engine B :=
  let 'mkEngine ss panes vp nc _ ix sup props b := e in mkEngine ss panes vp nc v ix sup props b.
Definition set_index e v : Engine B :=
  let 'mkEngine ss panes vp nc wt _ sup props b := e in mkEngine ss panes vp nc wt v sup props b.
Definition set_supervision e v : Engine B :=
  let 'mkEngine ss panes vp nc wt ix _ props b := e in mkEngine ss panes vp nc wt ix v props b.
Definition set_props e v : Engine B :=
  let 'mkEngine ss panes vp nc wt ix sup _ b := e in mkEngine ss panes vp nc wt ix sup v b.
Definition set_backend e v : Engine B :=
  let 'mkEngine ss panes vp nc wt ix sup props _ := e in mkEngine ss panes vp nc wt ix sup props v.

Definition set_session e (id : Uuid) (s : SessionState) : Engine B := set_sessions e (<[id := s]> (en_sessions e)).

(** [Engine::default], on an empty heap. *)
Definition engine_new (b : B) : Engine B :=
  mkEngine ∅ ∅ ∅ 1 ∅ (mkIndex ∅ ∅) sv_init ∅ b.

Definition window_for_pane (ix : WindowIndex) (pane_id : Uuid) : option Uuid := ix_pane_window ix !! pane_id.
Definition session_for_window (ix : WindowIndex) (window_id : Uuid) : option Uuid := ix_window_session ix !! window_id.
Definition insert_pane (ix : WindowIndex) (pane_id window_id : Uuid) : WindowIndex :=
  mkIndex (<[pane_id := window_id]> (ix_pane_window ix)) (ix_window_session ix).
Definition insert_window (ix : WindowIndex) (window_id session_id : Uuid) : WindowIndex :=
  mkIndex (ix_pane_window ix) (<[window_id := session_id]> (ix_window_session ix)).
Definition remove_pane (ix : WindowIndex) (pane_id : Uuid) : WindowIndex :=
  mkIndex (delete pane_id (ix_pane_window ix)) (ix_window_session ix).
Definition remove_window (ix : WindowIndex) (window_id : Uuid) : WindowIndex :=
  mkIndex (ix_pane_window ix) (delete window_id (ix_window_session ix)).

(** What the engine reads of a pane it holds a reference to. *)
Definition is_exited e (r : N) : bool :=
  match sv_heap (en_supervision e) !! r with Some p => p_exited p | None => true end.
Definition pane_view e (r : N) : PaneView :=
  let props := default (mkProps [] [] launch_default (0, 0)) (en_props e !! r) in
  mkView (pr_command props) (pr_cwd props) (pr_launch props) (pr_size props) (is_exited e r)
    (sv_heap (en_supervision e) !! r ≫= p_exit_code).

(** A successful [Pane::spawn_launch]. *)
Definition spawn_pane e (command : list Z) (launch : Launch) (cwd : option (list Z)) (rows cols : Z) (sp : Spawned) : Engine B :=
  set_props (set_supervision e (set_pane (en_supervision e) (sp_ref sp) (pane_spawned (sp_id sp) (default 0 (sp_pid sp)))))
    (<[sp_ref sp := mkProps command (default (sp_cwd sp) cwd) launch (rows, cols)]> (en_props e)).

Definition session_panes (s : SessionState) : list Uuid := flat_map (λ w, leaves (w_layout w)) (s_windows s).

Definition snapshot_persisted_record e (session_id : Uuid) : option PersistedSessionRecord :=
  (λ session, from_session_state_with_restart (pane_view e) session (en_panes e)
                (persisted_for (en_supervision e) (session_panes session))) <$> en_sessions e !! session_id.

(** [save_persisted]: a failed save is only logged. *)
Definition save_persisted e (record : option PersistedSessionRecord) : Engine B :=
  match record with None => e | Some r => set_backend e (fst (b_save r (en_backend e))) end.

Definition persist_session e (session_id : Uuid) : Engine B := save_persisted e (snapshot_persisted_record e session_id).

Definition notify_window_changed e (window_id : Uuid) : Engine B :=
  set_watchers e (alter S window_id (en_watchers e)).
Definition watch_window e (window_id : Uuid) : Engine B :=
  match en_watchers e !! window_id with None => set_watchers e (<[window_id := 0%nat]> (en_watchers e)) | Some _ => e end.

(** *** Startup *)

Definition load_window (session_id : Uuid) (default_policy : RestartPolicy) e (w : PersistedWindowRecord)
    : Engine B * WindowState :=
  let '(layout, panes) := persisted_layout_to_live (pw_layout w) (en_panes e) in
  let window := mkWindow (pw_id w) (pw_name w) layout DEFAULT_ROWS DEFAULT_COLS in
  let e := set_panes e panes in
  let e := set_index e (insert_window (en_index e) (w_id window) session_id) in
  let e := foldl (λ e pane_id,
      let e := set_index e (insert_pane (en_index e) pane_id (w_id window)) in
      let restored := match en_panes e !! pane_id with Some (EntryDead r) => pp_restart r | _ => None end in
      set_supervision e (register_restored (en_supervision e) pane_id restored default_policy)) e (leaves layout) in
  (e, window).

Fixpoint load_windows (session_id : Uuid) (default_policy : RestartPolicy) e (ws : list PersistedWindowRecord)
    : Engine B * list WindowState :=
  match ws with
  | [] => (e, [])
  | w :: ws =>
      let '(e, window) := load_window session_id default_policy e w in
      let '(e, windows) := load_windows session_id default_policy e ws in
      (e, window :: windows)
  end.

Definition load_record e (record : PersistedSessionRecord) : Engine B :=
  let default_policy := default policy_default (ps_default_restart_policy record) in
  let '(e, windows) := load_windows (ps_session_id record) default_policy e (ps_windows record) in
  set_session e (ps_session_id record)
    (mkSession (ps_session_id record) (ps_name record) windows (ps_active_window_id record) default_policy).

Definition load_persisted e (records : list PersistedSessionRecord) : Engine B := foldl load_record e records.

(** *** Lookups *)

Definition window_and_session_for_pane e (pane_id : Uuid) : result (Uuid * Uuid) EngineError :=
  let? window_id := ok_or (window_for_pane (en_index e) pane_id) (EPaneNotFound pane_id) in
  let? session_id := ok_or (session_for_window (en_index e) window_id) (EPaneNotFound pane_id) in
  Ok (window_id, session_id).

Definition session_of_pane e (pane_id : Uuid) : result Uuid EngineError :=
  let? (_, s) := window_and_session_for_pane e pane_id in Ok s.

Definition pane_lookup e (pane_id : Uuid) : PaneLookup :=
  match en_panes e !! pane_id with
  | None => LookupUnknown
  | Some (EntryDead _) => LookupDead
  | Some (EntryLive r) => if is_exited e r then LookupDead else LookupLive r
  end.

Definition exited_pane e (pane_id : Uuid) : option N :=
  match en_panes e !! pane_id with Some (EntryLive r) => if is_exited e r then Some r else None | _ => None end.

Definition dead_pane_exit_code e (pane_id : Uuid) : option (option Z) :=
  match en_panes e !! pane_id with
  | Some (EntryDead record) => Some (pp_exit_code record)
  | Some (EntryLive r) => if is_exited e r then Some (v_exit_code (pane_view e r)) else None
  | None => None
  end.

Definition held_pane e (pane_id : Uuid) : option N :=
  match en_panes e !! pane_id with Some (EntryLive r) => Some r | _ => None end.

Definition is_restored_record e (pane_id : Uuid) : bool :=
  match en_panes e !! pane_id with Some (EntryDead _) => true | _ => false end.

Definition list_sessions e : list SessionSnapshot :=
  map (handle_snapshot (pane_view e) (en_supervision e)) (session_handles (en_sessions e) (en_panes e)).

Definition session_snapshot e (session_id : Uuid) : option SessionSnapshot :=
  (λ s, session_to_snapshot (pane_view e) (en_supervision e) s (en_panes e)) <$> en_sessions e !! session_id.

Definition window_snapshot e (window_id : Uuid) : option WindowSnapshot :=
  (λ w, mkWindowSnapshot (w_id w) (w_name w) (layout_to_snapshot (pane_view e) (en_supervision e) (w_layout w) (en_panes e)))
    <$> find (λ w, bool_decide (w_id w = window_id)) (flat_map s_windows (map snd (map_to_list (en_sessions e)))).

Definition attached_client_count e (window_id : Uuid) : Z :=
  match en_viewports e !! window_id with Some clients => Z.of_nat (base.size clients) mod 2 ^ 32 | None => 0 end.

(** *** Sessions and windows *)

Definition create_session_supervised e (name : list Z) (command : option (list Z)) (launch : Launch) (cwd : option (list Z))
    (policy : RestartPolicy) (spawned : option Spawned) (window_id session_id : Uuid) (t : Tick)
    : Engine B * result Uuid CreateError :=
  match Restart.validate policy with
  | Err why => (e, Err (CreateInvalidPolicy why))
  | Ok _ =>
      match spawned with
      | None => (e, Err CreateSpawnFailed)
      | Some sp =>
          let e := spawn_pane e (default default_shell command) launch cwd DEFAULT_ROWS DEFAULT_COLS sp in
          let window := mkWindow window_id [48] (leaf (sp_id sp)) DEFAULT_ROWS DEFAULT_COLS in
          let e := set_session e session_id (mkSession session_id name [window] window_id policy) in
          let e := set_panes e (<[sp_id sp := EntryLive (sp_ref sp)]> (en_panes e)) in
          let e := set_supervision e (register_live powi (en_supervision e) (sp_ref sp) policy (t_now t) (t_unit t)) in
          let e := set_index e (insert_pane (insert_window (en_index e) window_id session_id) (sp_id sp) window_id) in
          (persist_session e session_id, Ok session_id)
      end
  end.

Definition create_window e (session_id : Uuid) (command : option (list Z)) (spawned : option Spawned) (window_id : Uuid) (t : Tick)
    : Engine B * result SessionSnapshot EngineError :=
  match spawned with
  | None => (e, Err (ESessionNotFound session_id))
  | Some sp =>
      let e := spawn_pane e (default default_shell command) launch_default None DEFAULT_ROWS DEFAULT_COLS sp in
      match en_sessions e !! session_id with
      | None => (e, Err (ESessionNotFound session_id))
      | Some s =>
          let window := mkWindow window_id (dec (Z.of_nat (length (s_windows s)))) (leaf (sp_id sp)) DEFAULT_ROWS DEFAULT_COLS in
          let s := mkSession (s_id s) (s_name s) (s_windows s ++ [window]) window_id (s_default_restart_policy s) in
          let e := set_session e session_id s in
          let e := set_panes e (<[sp_id sp := EntryLive (sp_ref sp)]> (en_panes e)) in
          let e := set_supervision e
                     (register_live powi (en_supervision e) (sp_ref sp) (s_default_restart_policy s) (t_now t) (t_unit t)) in
          let e := set_index e (insert_pane (insert_window (en_index e) window_id session_id) (sp_id sp) window_id) in
          let snapshot := session_to_snapshot (pane_view e) (en_supervision e) s (en_panes e) in
          (persist_session e session_id, Ok snapshot)
      end
  end.

(** Forgets a pane, drops its entry and kills its process if it runs. *)
Definition drop_pane e (pane_id : Uuid) : Engine B :=
  let e := set_supervision e (forget (en_supervision e) pane_id) in
  let entry := en_panes e !! pane_id in
  let e := set_panes e (delete pane_id (en_panes e)) in
  match entry with
  | Some (EntryLive r) =>
      match sv_heap (en_supervision e) !! r with
      | Some p => if p_exited p then e else set_supervision e (set_pane (en_supervision e) r (fst (kill p true)))
      | None => e
      end
  | _ => e
  end.

Definition kill_session e (id : Uuid) : Engine B * result unit EngineError :=
  match en_sessions e !! id with
  | None => (e, Err (ESessionNotFound id))
  | Some session =>
      let e := set_sessions e (delete id (en_sessions e)) in
      let pane_ids := session_panes session in
      let ix := foldl (λ ix w, remove_window ix (w_id w)) (en_index e) (s_windows session) in
      let e := set_index e (foldl remove_pane ix pane_ids) in
      let e := foldl drop_pane e pane_ids in
      (set_backend e (b_delete id (en_backend e)), Ok tt)
  end.

(** The window of a session, by id: its position and value. *)
Definition find_window (s : SessionState) (window_id : Uuid) : option (nat * WindowState) :=
  list_find (λ w, w_id w = window_id) (s_windows s).

Definition with_layout (w : WindowState) (layout : LayoutNode) : WindowState :=
  mkWindow (w_id w) (w_name w) layout (w_rows w) (w_cols w).
Definition with_windows (s : SessionState) (ws : list WindowState) (active : Uuid) : SessionState :=
  mkSession (s_id s) (s_name s) ws active (s_default_restart_policy s).

(** [split_pane] in its phases, between which other threads may run: the pane is spawned
    and the layout split under the [sessions] lock; the pane is registered; the snapshot is
    taken, indexing [sessions] (a panic when the session is gone meanwhile). *)
Definition split_layout e (pane_id : Uuid) (o : Orientation) (new_pane_id : Uuid)
    : option (Engine B * result (Uuid * Uuid * RestartPolicy) EngineError) :=
  match window_and_session_for_pane e pane_id with
  | Err err => Some (e, Err err)
  | Ok (window_id, session_id) =>
      match en_sessions e !! session_id with
      | None => Some (e, Err (EPaneNotFound pane_id))
      | Some s =>
          match find_window s window_id with
          | None => Some (e, Err (EPaneNotFound pane_id))
          | Some (i, w) =>
              let! (layout, outcome) := split (w_layout w) pane_id o new_pane_id (w_rows w) (w_cols w) in
              let e := set_session e session_id
                         (with_windows s (<[i := with_layout w layout]> (s_windows s)) (s_active_window_id s)) in
              match outcome with
              | Ok _ => Some (e, Ok (window_id, session_id, s_default_restart_policy s))
              | Err err => Some (e, Err (layout_error err))
              end
          end
      end
  end.

Definition split_register e (sp : Spawned) (window_id : Uuid) (policy : RestartPolicy) (t : Tick) : Engine B :=
  let e := set_panes e (<[sp_id sp := EntryLive (sp_ref sp)]> (en_panes e)) in
  let e := set_supervision e (register_live powi (en_supervision e) (sp_ref sp) policy (t_now t) (t_unit t)) in
  set_index e (insert_pane (en_index e) (sp_id sp) window_id).

Definition split_finish e (window_id session_id : Uuid) : option (Engine B * SessionSnapshot) :=
  let! snapshot := session_snapshot e session_id in
  Some (notify_window_changed (persist_session e session_id) window_id, snapshot).

Definition split_pane e (pane_id : Uuid) (o : Orientation) (command : option (list Z)) (spawned : option Spawned) (t : Tick)
    : option (Engine B * result SessionSnapshot EngineError) :=
  match spawned with
  | None => Some (e, Err (EPaneNotFound pane_id))
  | Some sp =>
      let e := spawn_pane e (default default_shell command) launch_default None DEFAULT_ROWS DEFAULT_COLS sp in
      let! (e, r) := split_layout e pane_id o (sp_id sp) in
      match r with
      | Err err => Some (e, Err err)
      | Ok (window_id, session_id, policy) =>
          let e := split_register e sp window_id policy t in
          let! (e, snapshot) := split_finish e window_id session_id in
          Some (e, Ok snapshot)
      end
  end.

Definition close_pane e (pane_id : Uuid) : option (Engine B * result ClosePaneOutcome EngineError) :=
  match window_and_session_for_pane e pane_id with
  | Err err => Some (e, Err err)
  | Ok (window_id, session_id) =>
      match en_sessions e !! session_id with
      | None => Some (e, Err (EPaneNotFound pane_id))
      | Some s =>
          match find_window s window_id with
          | None => Some (e, Err (EPaneNotFound pane_id))
          | Some (i, w) =>
              let rest := take i (s_windows s) ++ drop (S i) (s_windows s) in
              let! removed := remove (w_layout w) pane_id in
              let '(window_closed, windows) :=
                match removed with
                | Collapsed layout => (None, take i rest ++ with_layout w layout :: drop i rest)
                | WindowEmpty => (Some (w_id w, w_name w), rest)
                end in
              let session_closed := match windows with [] => Some (s_id s, s_name s) | _ => None end in
              let active := match windows with
                            | first :: _ => match window_closed with Some _ => w_id first | None => s_active_window_id s end
                            | [] => s_active_window_id s
                            end in
              let s := with_windows s windows active in
              let '(e, removed_session, snapshot) :=
                match session_closed with
                | Some _ => (set_sessions e (delete session_id (en_sessions e)), Some s, None)
                | None =>
                    let e := set_session e session_id s in
                    (e, None, Some (session_to_snapshot (pane_view e) (en_supervision e) s (en_panes e)))
                end in
              let e := match removed_session with
                       | Some _ => set_backend e (b_delete session_id (en_backend e))
                       | None => persist_session e session_id
                       end in
              let e := set_index e (remove_pane (en_index e) pane_id) in
              let e := match window_closed with
                       | Some (closed, _) => set_index e (remove_window (en_index e) closed)
                       | None => e
                       end in
              let e := drop_pane e pane_id in
              let e := match removed_session with
                       | Some s => foldl drop_pane e (session_panes s)
                       | None => e
                       end in
              let e := match window_closed with None => notify_window_changed e (w_id w) | Some _ => e end in
              Some (e, Ok (mkClosed window_closed session_closed snapshot))
          end
      end
  end.

(** *** Starting panes *)

Definition start_pane_inner e (pane_id : Uuid) (fallback : RestartPolicy) (spawned : result Spawned string)
    (respawned : result (option Z) string) (t : Tick) : Engine B * result unit EngineError :=
  match en_panes e !! pane_id with
  | None => (e, Err (EPaneNotFound pane_id))
  | Some (EntryLive r) =>
      if is_exited e r then
        let '(sup, res) := start powi (en_supervision e) pane_id respawned (t_now t) (t_unit t) in
        (set_supervision e sup, map_err supervision_error res)
      else (e, Err (EPaneRunning pane_id))
  | Some (EntryDead record) =>
      match spawned with
      | Err message => (e, Err (EPaneStart pane_id message))
      | Ok sp =>
          let e := spawn_pane e (pp_command record) (pp_launch record) (Some (pp_cwd record))
                     (Z.max (pp_rows record) MIN_PANE_ROWS) (Z.max (pp_cols record) MIN_PANE_COLS)
                     (mkSpawned (sp_ref sp) pane_id (sp_pid sp) (sp_cwd sp)) in
          let e := set_panes e (<[pane_id := EntryLive (sp_ref sp)]> (en_panes e)) in
          (set_supervision e (adopt_started powi (en_supervision e) (sp_ref sp) fallback (t_now t) (t_unit t)), Ok tt)
      end
  end.

(** The answers of the operating system to a revive, per pane. *)
Record ReviveEnv := mkReviveEnv {
  re_prepared : Uuid → result unit string;
  re_spawned : Uuid → result Spawned string;
  re_respawned : Uuid → result (option Z) string;
  re_tick : Tick;
}.

Definition entry_running e (id : Uuid) : bool :=
  match en_panes e !! id with Some (EntryLive r) => negb (is_exited e r) | _ => false end.

Definition held_state (st : option LifecycleState) : bool :=
  match st with Some (Stopped | Failed) => true | _ => false end.

(** The launch of every pane to revive is resolved before anything starts. *)
Fixpoint revive_check e (prepared : Uuid → result unit string) (ids : list Uuid) : result unit EngineError :=
  match ids with
  | [] => Ok tt
  | id :: ids =>
      match en_panes e !! id with
      | None => revive_check e prepared ids
      | Some _ => match prepared id with
                  | Err message => Err (EReviveLaunch id message)
                  | Ok _ => revive_check e prepared ids
                  end
      end
  end.

Definition revive_one (env : ReviveEnv) (fallback : RestartPolicy) (acc : Engine B * nat) (id : Uuid) : Engine B * nat :=
  let '(e, n) := acc in
  let '(e, res) := start_pane_inner e id fallback (re_spawned env id) (re_respawned env id) (re_tick env) in
  (e, if is_ok res then S n else n).

Definition revive_session e (session_id : Uuid) (env : ReviveEnv) : Engine B * result ReviveOutcome EngineError :=
  match en_sessions e !! session_id with
  | None => (e, Err (ESessionNotFound session_id))
  | Some session =>
      let pane_ids := session_panes session in
      let fallback := s_default_restart_policy session in
      if existsb (entry_running e) pane_ids then (e, Ok AlreadyLive)
      else
        let held := List.filter (λ id, held_state (state_of (en_supervision e) id)) pane_ids in
        let ids := List.filter (λ id, negb (held_state (state_of (en_supervision e) id))) pane_ids in
        match ids, held with
        | [], id :: _ =>
            (e, Err match state_of (en_supervision e) id with Some Stopped => EPaneStopped id | _ => EPaneFailed id end)
        | _, _ =>
            match revive_check e (re_prepared env) ids with
            | Err err => (e, Err err)
            | Ok _ =>
                let '(e, revived) := foldl (revive_one env fallback) (e, 0%nat) ids in
                (persist_session e session_id, Ok (Revived revived))
            end
        end
  end.

(** *** Supervision *)

Definition persist_dirty_supervision e : Engine B :=
  let '(dirty, sup) := take_dirty (en_supervision e) in
  let e := set_supervision e sup in
  foldl persist_session e
    (remove_dups (omap (λ id, match session_of_pane e id with Ok s => Some s | Err _ => None end) dirty)).

Definition supervise_tick e (spawned : Uuid → result (option Z) string) (unit : Uuid → spec_float) (now : Z)
    : Engine B * option Z :=
  let '(sup, next) := run_due powi (en_supervision e) spawned unit now in
  (persist_dirty_supervision (set_supervision e sup), next).

Definition set_restart_policy e (pane_id : Uuid) (policy : RestartPolicy) (now : Z)
    : Engine B * result PaneStatus EngineError :=
  match session_of_pane e pane_id with
  | Err err => (e, Err err)
  | Ok session_id =>
      match sv_set_policy (en_supervision e) pane_id policy now with
      | Err err => (e, Err (supervision_error err))
      | Ok sup =>
          let e := persist_session (set_supervision e sup) session_id in
          (e, ok_or (pane_status (en_supervision e) pane_id now) (EPaneNotFound pane_id))
      end
  end.

(** The loop over existing panes stops at the first error, keeping what was applied. *)
Fixpoint apply_policy (sup : Supervision) (ids : list Uuid) (policy : RestartPolicy) (now : Z)
    : Supervision * result unit EngineError :=
  match ids with
  | [] => (sup, Ok tt)
  | id :: ids =>
      match sv_set_policy sup id policy now with
      | Err err => (sup, Err (supervision_error err))
      | Ok sup => apply_policy sup ids policy now
      end
  end.

Definition set_session_restart_policy e (session_id : Uuid) (policy : RestartPolicy) (apply_to_existing : bool) (now : Z)
    : Engine B * result unit EngineError :=
  match Restart.validate policy with
  | Err why => (e, Err (EInvalidRestartPolicy why))
  | Ok _ =>
      match en_sessions e !! session_id with
      | None => (e, Err (ESessionNotFound session_id))
      | Some s =>
          let e := set_session e session_id (mkSession (s_id s) (s_name s) (s_windows s) (s_active_window_id s) policy) in
          let '(sup, res) :=
            if apply_to_existing then apply_policy (en_supervision e) (session_panes s) policy now
            else (en_supervision e, Ok tt) in
          let e := set_supervision e sup in
          match res with Err err => (e, Err err) | Ok _ => (persist_session e session_id, Ok tt) end
      end
  end.

Definition stop_pane e (pane_id : Uuid) (sent : result unit string) (now : Z) : Engine B * result SignalOutcome EngineError :=
  match session_of_pane e pane_id with
  | Err err => (e, Err err)
  | Ok session_id =>
      let '(sup, res) := stop (en_supervision e) pane_id sent now in
      let e := set_supervision e sup in
      match res with
      | Err err => (e, Err (supervision_error err))
      | Ok outcome => (persist_session e session_id, Ok outcome)
      end
  end.

Definition restart_pane e (pane_id : Uuid) (reset_backoff : bool) (sent : result unit string) (spawned : result Spawned string)
    (respawned : result (option Z) string) (t : Tick) : Engine B * result SignalOutcome EngineError :=
  match session_of_pane e pane_id with
  | Err err => (e, Err err)
  | Ok session_id =>
      let '(e, res) :=
        if is_restored_record e pane_id then
          let '(e, res) := start_pane_inner e pane_id policy_default spawned respawned t in
          (e, match res with Ok _ => Ok Immediate | Err err => Err err end)
        else
          let '(sup, res) := restart powi (en_supervision e) pane_id reset_backoff sent respawned (t_now t) (t_unit t) in
          (set_supervision e sup, map_err supervision_error res) in
      match res with Err err => (e, Err err) | Ok outcome => (persist_session e session_id, Ok outcome) end
  end.

Definition start_pane e (pane_id : Uuid) (spawned : result Spawned string) (respawned : result (option Z) string) (t : Tick)
    : Engine B * result unit EngineError :=
  match session_of_pane e pane_id with
  | Err err => (e, Err err)
  | Ok session_id =>
      let '(e, res) := start_pane_inner e pane_id policy_default spawned respawned t in
      match res with Err err => (e, Err err) | Ok _ => (persist_session e session_id, Ok tt) end
  end.

Definition reset_restart_budget e (pane_id : Uuid) : Engine B * result unit EngineError :=
  match session_of_pane e pane_id with
  | Err err => (e, Err err)
  | Ok session_id =>
      match sv_reset_budget (en_supervision e) pane_id with
      | Err err => (e, Err (supervision_error err))
      | Ok sup => (persist_session (set_supervision e sup) session_id, Ok tt)
      end
  end.

(** *** Viewports and geometry *)

Definition clamp_viewport (rows cols : Z) : Z * Z :=
  (clamp MIN_PANE_ROWS MAX_PANE_ROWS rows, clamp MIN_PANE_COLS MAX_PANE_COLS cols).

Definition new_client_id e : Engine B * Z :=
  (set_next_client_id e ((en_next_client_id e + 1) mod 2 ^ 64), en_next_client_id e).

(** The minimum of a non-empty list; [None] is the [unwrap] on an empty iterator. *)
Definition min_list (l : list Z) : option Z :=
  match l with [] => None | x :: l => Some (foldl Z.min x l) end.

Definition effective_size (clients : option (gmap Z (Z * Z))) : option (Z * Z) :=
  match clients with
  | Some m =>
      match map snd (map_to_list m) with
      | [] => Some (DEFAULT_ROWS, DEFAULT_COLS)
      | sizes =>
          let! rows := min_list (map fst sizes) in
          let! cols := min_list (map snd sizes) in
          Some (rows, cols)
      end
  | None => Some (DEFAULT_ROWS, DEFAULT_COLS)
  end.

Definition live_pane_rects e (rects : list (Uuid * PtyRect)) : list (N * PtyRect) :=
  omap (λ '(id, rect), match en_panes e !! id with Some (EntryLive r) => Some (r, rect) | _ => None end) rects.

Section Resize.
Context {T : Type} `{EM : Emulator T}.

(** [Pane::resize]; [resized] is whether the pty accepted the new size. The size is recorded
    once the emulator has it. *)
Definition resize_pane (resized : bool) (props : PaneProps) (term : T) (rect : PtyRect) : option (PaneProps * T) :=
  let rows := Z.min (rect_rows rect) MAX_PANE_ROWS in
  let cols := Z.min (rect_cols rect) MAX_PANE_COLS in
  if bool_decide (pr_size props = (rows, cols)) then Some (props, term)
  else if resized then
    let! term := vt_set_size term rows cols in
    Some (mkProps (pr_command props) (pr_cwd props) (pr_launch props) (rows, cols), term)
  else Some (props, term).

(** The emulators of the panes, by reference. *)
Definition set_emulator (ts : N → T) (r : N) (t : T) : N → T := λ r', if N.eqb r' r then t else ts r'.

Fixpoint resize_panes e (ts : N → T) (resized : N → bool) (l : list (N * PtyRect)) : option (Engine B * (N → T)) :=
  match l with
  | [] => Some (e, ts)
  | (r, rect) :: l =>
      match en_props e !! r with
      | None => resize_panes e ts resized l
      | Some props =>
          let! (props, t) := resize_pane (resized r) props (ts r) rect in
          resize_panes (set_props e (<[r := props]> (en_props e))) (set_emulator ts r t) resized l
      end
  end.

Definition recompute_window_geometry e (ts : N → T) (window_id : Uuid) (resized : N → bool)
    : option (Engine B * (N → T) * option (Z * Z)) :=
  let! (rows, cols) := effective_size (en_viewports e !! window_id) in
  match session_for_window (en_index e) window_id with
  | None => Some (e, ts, None)
  | Some session_id =>
      match en_sessions e !! session_id with
      | None => Some (e, ts, None)
      | Some s =>
          match find_window s window_id with
          | None => Some (e, ts, None)
          | Some (i, w) =>
              let w := mkWindow (w_id w) (w_name w) (w_layout w) rows cols in
              let e := set_session e session_id (with_windows s (<[i := w]> (s_windows s)) (s_active_window_id s)) in
              let! rects := compute_geometry (w_layout w) rows cols in
              let! (e, ts) := resize_panes e ts resized (live_pane_rects e rects) in
              let e := notify_window_changed e window_id in
              Some (persist_session e session_id, ts, Some (rows, cols))
          end
      end
  end.

Definition report_viewport_and_recompute e (ts : N → T) (window_id : Uuid) (client_id rows cols : Z) (resized : N → bool)
    : option (Engine B * (N → T) * option (Z * Z)) :=
  let size := clamp_viewport rows cols in
  let clients := default ∅ (en_viewports e !! window_id) in
  recompute_window_geometry (set_viewports e (<[window_id := <[client_id := size]> clients]> (en_viewports e))) ts window_id resized.

End Resize.

Definition unregister_viewport e (window_id : Uuid) (client_id : Z) : Engine B :=
  set_viewports e (alter (delete client_id) window_id (en_viewports e)).

End Operations.
