(* ===== verification/EngineInv.v ===== *)
(** * Consistency of the engine

    The invariant that ties the layouts, the map of panes, the reverse index and the
    supervision entries together, and that every operation of [Engine.v] preserves it, in
    every order of operations that do not overlap, with steps of the panes' reader threads
    between them. What is left of it when operations overlap is in [EngineConc.v]. *)

From S2P Require Import Prelude Float Layout Restart TermQuery Supervision Launch Persistence Engine.

(** ** The invariant *)

Definition window_ok (w : WindowState) : Prop :=
  wf_layout (w_layout w) = true ∧ NoDup (leaves (w_layout w))
  ∧ MIN_PANE_ROWS ≤ w_rows w ≤ MAX_PANE_ROWS ∧ MIN_PANE_COLS ≤ w_cols w ≤ MAX_PANE_COLS.

(** The sessions and the reverse index describe the same windows and panes: the index is
    exact, so a window belongs to one session and a pane to one window. *)
Record sessions_ok (ss : gmap Uuid SessionState) (ix : WindowIndex) : Prop := {
  so_id sid s : ss !! sid = Some s → s_id s = sid;
  so_active sid s : ss !! sid = Some s → s_active_window_id s ∈ map w_id (s_windows s);
  so_nodup sid s : ss !! sid = Some s → NoDup (map w_id (s_windows s));
  so_window sid s w : ss !! sid = Some s → w ∈ s_windows s → window_ok w;
  so_ws wid sid :
    ix_window_session ix !! wid = Some sid ↔ ∃ s, ss !! sid = Some s ∧ wid ∈ map w_id (s_windows s);
  so_pw pid wid :
    ix_pane_window ix !! pid = Some wid ↔
    ∃ sid s w, ss !! sid = Some s ∧ w ∈ s_windows s ∧ w_id w = wid ∧ pid ∈ leaves (w_layout w);
}.

(** The reference of a live entry. *)
Definition entry_ref (en : PaneEntry) : option N := match en with EntryLive r => Some r | EntryDead _ => None end.

(** Every pane has a supervision entry for the same pane, and its own id. *)
Record panes_ok (panes : gmap Uuid PaneEntry) (sup : Supervision) (props : gmap N PaneProps) : Prop := {
  po_ref id : refs sup !! id = entry_ref <$> panes !! id;
  po_live id r : panes !! id = Some (EntryLive r) →
    (∃ p, sv_heap sup !! r = Some p ∧ p_id p = id) ∧ is_Some (props !! r);
  po_dead id rec : panes !! id = Some (EntryDead rec) → pp_pane_id rec = id;
}.

Definition viewports_ok (vp : gmap Uuid (gmap Z (Z * Z))) : Prop :=
  ∀ wid m c rows cols, vp !! wid = Some m → m !! c = Some (rows, cols) →
  MIN_PANE_ROWS ≤ rows ≤ MAX_PANE_ROWS ∧ MIN_PANE_COLS ≤ cols ≤ MAX_PANE_COLS.

Record inv {B} (e : Engine B) : Prop := {
  inv_sessions : sessions_ok (en_sessions e) (en_index e);
  inv_dom id : is_Some (ix_pane_window (en_index e) !! id) ↔ is_Some (en_panes e !! id);
  inv_panes : panes_ok (en_panes e) (en_supervision e) (en_props e);
  inv_sup : sv_inv (en_supervision e);
  inv_viewports : viewports_ok (en_viewports e);
}.

(** *** Replacing and removing a session *)

Definition session_windows (ss : gmap Uuid SessionState) (sid : Uuid) : list Uuid :=
  match ss !! sid with Some s => map w_id (s_windows s) | None => [] end.

Lemma elem_window_id w (ws : list WindowState) : w ∈ ws → w_id w ∈ map w_id ws.
Proof. intros. apply list_elem_of_fmap. eauto. Qed.

Lemma window_session_unique ss ix wid sid s sid' s' :
  sessions_ok ss ix → ss !! sid = Some s → wid ∈ map w_id (s_windows s) →
  ss !! sid' = Some s' → wid ∈ map w_id (s_windows s') → sid = sid'.
Proof.
  intros Hok Hs Hw Hs' Hw'.
  pose proof (proj2 (so_ws _ _ Hok wid sid) (ex_intro _ s (conj Hs Hw))) as H1.
  pose proof (proj2 (so_ws _ _ Hok wid sid') (ex_intro _ s' (conj Hs' Hw'))) as H2. congruence.
Qed.

Lemma sessions_ok_put ss ix sid s' ix' :
  sessions_ok ss ix →
  s_id s' = sid → s_active_window_id s' ∈ map w_id (s_windows s') → NoDup (map w_id (s_windows s')) →
  (∀ w, w ∈ s_windows s' → window_ok w) →
  (∀ wid x, ix_window_session ix' !! wid = Some x ↔
     (x ≠ sid ∧ ix_window_session ix !! wid = Some x) ∨ (x = sid ∧ wid ∈ map w_id (s_windows s'))) →
  (∀ pid wid, ix_pane_window ix' !! pid = Some wid ↔
     (wid ∉ session_windows ss sid ∧ ix_pane_window ix !! pid = Some wid)
     ∨ ∃ w, w ∈ s_windows s' ∧ w_id w = wid ∧ pid ∈ leaves (w_layout w)) →
  sessions_ok (<[sid := s']> ss) ix'.
Proof.
  intros Hok Hid Hact Hnd Hwin Hws Hpw. split.
  - intros sid0 s [[<- <-]|[_ Hs]]%lookup_insert_Some; [done|by eapply so_id].
  - intros sid0 s [[<- <-]|[_ Hs]]%lookup_insert_Some; [done|by eapply so_active].
  - intros sid0 s [[<- <-]|[_ Hs]]%lookup_insert_Some; [done|by eapply so_nodup].
  - intros sid0 s w [[<- <-]|[_ Hs]]%lookup_insert_Some; [auto|by eapply so_window].
  - intros wid x. rewrite Hws, (so_ws _ _ Hok). split.
    + intros [(Hne & s & Hs & Hw)|[-> Hw]].
      * exists s. by rewrite lookup_insert_ne.
      * exists s'. by rewrite lookup_insert_eq.
    + intros (s & [[<- <-]|[Hne Hs]]%lookup_insert_Some & Hw); [by right|left; split; eauto].
  - intros pid wid. rewrite Hpw, (so_pw _ _ Hok). split.
    + intros [(Hn & sid0 & s & w & Hs & Hw & <- & Hp)|(w & Hw & <- & Hp)].
      * exists sid0, s, w. rewrite lookup_insert_ne; [done|]. intros <-. apply Hn.
        unfold session_windows. rewrite Hs. eauto using elem_window_id.
      * exists sid, s', w. by rewrite lookup_insert_eq.
    + intros (sid0 & s & w & [[<- <-]|[Hne Hs]]%lookup_insert_Some & Hw & <- & Hp); [by right; eauto|].
      left. split; [|eauto 7]. unfold session_windows. destruct (ss !! sid) as [s0|] eqn:Hs0; [|by intros ?%elem_of_nil].
      intros Hin. apply Hne. eapply (window_session_unique ss ix); eauto using elem_window_id.
Qed.

Lemma sessions_ok_delete ss ix sid ix' :
  sessions_ok ss ix →
  (∀ wid x, ix_window_session ix' !! wid = Some x ↔ x ≠ sid ∧ ix_window_session ix !! wid = Some x) →
  (∀ pid wid, ix_pane_window ix' !! pid = Some wid ↔
     wid ∉ session_windows ss sid ∧ ix_pane_window ix !! pid = Some wid) →
  sessions_ok (delete sid ss) ix'.
Proof.
  intros Hok Hws Hpw. split.
  - intros sid0 s [_ Hs]%lookup_delete_Some. by eapply so_id.
  - intros sid0 s [_ Hs]%lookup_delete_Some. by eapply so_active.
  - intros sid0 s [_ Hs]%lookup_delete_Some. by eapply so_nodup.
  - intros sid0 s w [_ Hs]%lookup_delete_Some. by eapply so_window.
  - intros wid x. rewrite Hws, (so_ws _ _ Hok). split.
    + intros (Hne & s & Hs & Hw). exists s. by rewrite lookup_delete_ne.
    + intros (s & [Hne Hs]%lookup_delete_Some & Hw). eauto.
  - intros pid wid. rewrite Hpw, (so_pw _ _ Hok). split.
    + intros (Hn & sid0 & s & w & Hs & Hw & <- & Hp). exists sid0, s, w. rewrite lookup_delete_ne; [done|].
      intros <-. apply Hn. unfold session_windows. rewrite Hs. eauto using elem_window_id.
    + intros (sid0 & s & w & [Hne Hs]%lookup_delete_Some & Hw & <- & Hp). split; [|eauto 7].
      unfold session_windows. destruct (ss !! sid) as [s0|] eqn:Hs0; [|by intros ?%elem_of_nil].
      intros Hin. apply Hne. eapply (window_session_unique ss ix); eauto using elem_window_id.
Qed.

(** *** What does not matter to the invariant *)

(** The parts of the state the invariant speaks of. *)
Definition same_state {B} (e e' : Engine B) : Prop :=
  en_sessions e' = en_sessions e ∧ en_index e' = en_index e ∧ en_panes e' = en_panes e
  ∧ en_supervision e' = en_supervision e ∧ en_props e' = en_props e ∧ en_viewports e' = en_viewports e.

#[export] Instance same_state_refl {B} : Reflexive (@same_state B).
Proof. by intros e. Qed.
#[export] Instance same_state_trans {B} : Transitive (@same_state B).
Proof. intros e1 e2 e3 (A1&A2&A3&A4&A5&A6) (C1&C2&C3&C4&C5&C6). unfold same_state. repeat split; congruence. Qed.

Lemma inv_same {B} (e e' : Engine B) : same_state e e' → inv e → inv e'.
Proof.
  intros (E1&E2&E3&E4&E5&E6) [H1 H2 H3 H4 H5].
  by split; rewrite ?E1, ?E2, ?E3, ?E4, ?E5, ?E6.
Qed.

Section Invariant.
Context {B : Type} `{BK : PersistenceBackend B} (powi : spec_float → Z → spec_float) (default_shell : list Z).
Implicit Types (e : Engine B).
#[local] Opaque forget kill register_live adopt_started register_restored.

Lemma persist_same e sid : same_state e (persist_session e sid).
Proof. unfold persist_session, save_persisted. destruct (snapshot_persisted_record e sid); by destruct e. Qed.

Lemma notify_same e wid : same_state e (notify_window_changed e wid).
Proof. by destruct e. Qed.

Lemma set_backend_same e b : same_state e (set_backend e b).
Proof. by destruct e. Qed.

Lemma persist_all_same e sids : same_state e (foldl persist_session e sids).
Proof.
  revert e. induction sids as [|sid sids IH]; intros e; simpl; [done|].
  etrans; [apply persist_same|apply IH].
Qed.

(** *** Supervision calls that keep every entry's pane *)

Definition quiet (s s' : Supervision) : Prop := rtc (sv_step powi) s s' ∧ refs s' = refs s.

Lemma quiet_inv s s' : quiet s s' → sv_inv s → sv_inv s'.
Proof. intros [Hst _]. induction Hst as [|x y z Hxy _ IH]; [done|]. intros Hi. by eapply IH, sv_step_ok. Qed.

Lemma panes_ok_quiet panes sup sup' props : quiet sup sup' → panes_ok panes sup props → panes_ok panes sup' props.
Proof.
  intros [Hst Hr] [P1 P2 P3]. split; [|intros id r Hid|done].
  - intros id. by rewrite Hr.
  - destruct (P2 id r Hid) as ((p & Hp & Hpid) & Hprops). split; [|done].
    destruct (sv_steps_mono _ _ _ Hst r p Hp) as (p' & Hp' & Hm & _). exists p'. split; [done|congruence].
Qed.

Lemma quiet_refl s : quiet s s.
Proof. done. Qed.

Lemma quiet_step s s' : sv_step powi s s' → refs s' = refs s → quiet s s'.
Proof. intros. split; [by apply rtc_once|done]. Qed.

Lemma quiet_trans s1 s2 s3 : quiet s1 s2 → quiet s2 s3 → quiet s1 s3.
Proof. intros [S1 R1] [S2 R2]. split; [by etrans|congruence]. Qed.

(** An operation that only changes supervision, quietly. *)
Lemma inv_quiet e sup' : inv e → quiet (en_supervision e) sup' → inv (set_supervision e sup').
Proof.
  intros [H1 H2 H3 H4 H5] Hq. destruct e. simpl in *. split; simpl; try done.
  - by eapply panes_ok_quiet.
  - by eapply quiet_inv.
Qed.

(** *** Panes that come and go *)

Lemma panes_ok_spawn panes sup props r id pid pr :
  panes_ok panes sup props → sv_heap sup !! r = None →
  panes_ok panes (set_pane sup r (pane_spawned id pid)) (<[r := pr]> props).
Proof.
  intros [P1 P2 P3] Hr. split; [done| |done]. intros id' r' Hid. destruct (P2 id' r' Hid) as ((p & Hp & Hpid) & Hs).
  simpl. split.
  - exists p. rewrite lookup_insert_ne by congruence. done.
  - apply lookup_insert_is_Some'. by right.
Qed.

Lemma panes_ok_add panes sup sup' props r p :
  panes_ok panes sup props → sv_heap sup !! r = Some p → is_Some (props !! r) →
  sv_step powi sup sup' → refs sup' = <[p_id p := Some r]> (refs sup) →
  panes_ok (<[p_id p := EntryLive r]> panes) sup' props.
Proof.
  intros [P1 P2 P3] Hp Hprops Hst Hr. pose proof (sv_step_mono _ _ _ Hst) as Hm. split.
  - intros id. rewrite Hr. destruct (decide (id = p_id p)) as [->|Hne].
    + by rewrite !lookup_insert_eq.
    + by rewrite !lookup_insert_ne.
  - intros id r' [[<- [= <-]]|[_ Hid]]%lookup_insert_Some.
    + split; [|done]. destruct (Hm r p Hp) as (p' & Hp' & Hid & _). eauto.
    + destruct (P2 id r' Hid) as ((q & Hq & Hqid) & Hs). split; [|done].
      destruct (Hm r' q Hq) as (q' & Hq' & Hid' & _). exists q'. split; [done|congruence].
  - intros id rec [[<- ?]|[_ Hid]]%lookup_insert_Some; [done|eauto].
Qed.

Lemma entries_none panes sup props id :
  panes_ok panes sup props → panes !! id = None → sv_entries sup !! id = None.
Proof.
  intros Hp Hid. pose proof (po_ref _ _ _ Hp id) as Hr. rewrite Hid in Hr. unfold refs in Hr.
  rewrite lookup_fmap in Hr. by destruct (sv_entries sup !! id).
Qed.

(** Registering a pane that was just spawned. *)
Lemma register_new panes sup props r id pid pr policy now unit :
  panes_ok panes sup props → sv_inv sup → sv_heap sup !! r = None → panes !! id = None →
  let sup1 := set_pane sup r (pane_spawned id pid) in
  let sup2 := register_live powi sup1 r policy now unit in
  panes_ok (<[id := EntryLive r]> panes) sup2 (<[r := pr]> props) ∧ sv_inv sup2.
Proof.
  intros Hp Hi Hr Hid sup1 sup2.
  assert (Hh : sv_heap sup1 !! r = Some (pane_spawned id pid)) by (unfold sup1; simpl; by rewrite lookup_insert_eq).
  assert (Hs1 : sv_step powi sup sup1) by by constructor.
  assert (Hs2 : sv_step powi sup1 sup2).
  { eapply Sv_register; [exact Hh|done|done|]. simpl. by eapply entries_none. }
  split.
  - apply (panes_ok_add panes sup1 sup2 _ r (pane_spawned id pid)).
    + by apply panes_ok_spawn.
    + done.
    + by rewrite lookup_insert_eq.
    + done.
    + exact (refs_register powi sup1 r _ _ _ _ Hh).
  - by eapply sv_step_ok, sv_step_ok.
Qed.

(** Adopting the new process of a restored pane. *)
Lemma adopt_new panes sup props r id pid pr rec fallback now unit :
  panes_ok panes sup props → sv_inv sup → sv_heap sup !! r = None → panes !! id = Some (EntryDead rec) →
  let sup1 := set_pane sup r (pane_spawned id pid) in
  let sup2 := adopt_started powi sup1 r fallback now unit in
  panes_ok (<[id := EntryLive r]> panes) sup2 (<[r := pr]> props) ∧ sv_inv sup2.
Proof.
  intros Hp Hi Hr Hid sup1 sup2.
  assert (Hh : sv_heap sup1 !! r = Some (pane_spawned id pid)) by (unfold sup1; simpl; by rewrite lookup_insert_eq).
  assert (Hs1 : sv_step powi sup sup1) by by constructor.
  assert (Hs2 : sv_step powi sup1 sup2).
  { eapply Sv_adopt; [exact Hh|done|done|]. simpl. intros en Hen.
    pose proof (po_ref _ _ _ Hp id) as Href. rewrite Hid in Href. unfold refs in Href.
    rewrite lookup_fmap, Hen in Href. simpl in Href. congruence. }
  split.
  - apply (panes_ok_add panes sup1 sup2 _ r (pane_spawned id pid)).
    + by apply panes_ok_spawn.
    + done.
    + by rewrite lookup_insert_eq.
    + done.
    + exact (refs_adopt powi sup1 r _ _ _ _ Hh).
  - by eapply sv_step_ok, sv_step_ok.
Qed.

(** *** Dropping panes *)

Definition panes_inv e : Prop :=
  panes_ok (en_panes e) (en_supervision e) (en_props e) ∧ sv_inv (en_supervision e).

Definition same_frame e e' : Prop :=
  en_sessions e' = en_sessions e ∧ en_index e' = en_index e ∧ en_viewports e' = en_viewports e
  ∧ en_props e' = en_props e ∧ en_backend e' = en_backend e.

Lemma panes_ok_forget panes sup props id :
  panes_ok panes sup props → panes_ok (delete id panes) (forget sup id) props.
Proof.
  intros [P1 P2 P3]. pose proof (sv_step_mono powi _ _ (Sv_forget _ sup id)) as Hm. split.
  - intros id'. rewrite refs_forget. destruct (decide (id' = id)) as [->|Hne].
    + by rewrite !lookup_delete_eq.
    + by rewrite !lookup_delete_ne.
  - intros id' r [_ Hid]%lookup_delete_Some. destruct (P2 id' r Hid) as ((p & Hp & Hpid) & Hs). split; [|done].
    destruct (Hm r p Hp) as (p' & Hp' & Hid' & _). exists p'. split; [done|congruence].
  - intros id' rec [_ Hid]%lookup_delete_Some. eauto.
Qed.

Lemma drop_pane_ok e id :
  panes_inv e →
  panes_inv (drop_pane e id) ∧ same_frame e (drop_pane e id) ∧ en_panes (drop_pane e id) = delete id (en_panes e).
Proof.
  intros [Hp Hi]. destruct e as [ss panes vp nc wt ix sup props b]. unfold drop_pane, panes_inv, same_frame. cbn in *.
  pose proof (panes_ok_forget panes sup props id Hp) as Hp1.
  assert (Hi1 : sv_inv (forget sup id)) by (eapply (sv_step_ok powi); [constructor|done]).
  destruct (panes !! id) as [[r|rec]|]; try by split_and!.
  destruct (sv_heap (forget sup id) !! r) as [p|] eqn:Hr; [|by split_and!].
  destruct (p_exited p); cbn; [by split_and!|].
  assert (Hq : quiet (forget sup id) (set_pane (forget sup id) r (fst (kill p true)))).
  { apply quiet_step; [by constructor|done]. }
  split_and!; try done; [by eapply panes_ok_quiet|by eapply quiet_inv].
Qed.

Definition delete_all (ids : list Uuid) (panes : gmap Uuid PaneEntry) : gmap Uuid PaneEntry :=
  foldl (λ m id, delete id m) panes ids.

Lemma drop_panes_ok e ids :
  panes_inv e →
  panes_inv (foldl drop_pane e ids) ∧ same_frame e (foldl drop_pane e ids)
  ∧ en_panes (foldl drop_pane e ids) = delete_all ids (en_panes e).
Proof.
  revert e. induction ids as [|id ids IH]; intros e Hi; simpl; [done|].
  destruct (drop_pane_ok e id Hi) as (Hi1 & (F1&F2&F3&F4&F5) & Hp1). destruct (IH _ Hi1) as (Hi2 & (G1&G2&G3&G4&G5) & Hp2).
  split_and!; [done| |by rewrite Hp2, Hp1]. unfold same_frame. repeat split; congruence.
Qed.

Lemma lookup_delete_all {A} ids (m : gmap Uuid A) id :
  foldl (λ m id, delete id m) m ids !! id = if bool_decide (id ∈ ids) then None else m !! id.
Proof.
  revert m. induction ids as [|x ids IH]; intros m; cbn [foldl]; [by rewrite bool_decide_false by set_solver|].
  rewrite IH. destruct (decide (id = x)) as [->|Hne].
  - rewrite (bool_decide_true (x ∈ x :: ids)), lookup_delete_eq by set_solver. by case_bool_decide.
  - rewrite lookup_delete_ne by done. apply (f_equal (λ b, if b : bool then None else m !! id)).
    apply bool_decide_ext. set_solver.
Qed.

(** *** Sessions and the index under each change *)

Definition old_windows (ss : gmap Uuid SessionState) (sid : Uuid) : list WindowState :=
  match ss !! sid with Some s => s_windows s | None => [] end.

Lemma session_windows_old ss sid : session_windows ss sid = map w_id (old_windows ss sid).
Proof. unfold session_windows, old_windows. by destruct (ss !! sid). Qed.

Lemma ws_session ss ix wid sid :
  sessions_ok ss ix → ix_window_session ix !! wid = Some sid ↔ wid ∈ map w_id (old_windows ss sid).
Proof.
  intros Hok. rewrite (so_ws _ _ Hok). unfold old_windows. split.
  - intros (s & -> & Hw). done.
  - destruct (ss !! sid) as [s|] eqn:Hs; [eauto|by intros ?%elem_of_nil].
Qed.

Lemma pw_session ss ix pid w sid :
  sessions_ok ss ix → w ∈ old_windows ss sid →
  ix_pane_window ix !! pid = Some (w_id w) ↔ pid ∈ leaves (w_layout w).
Proof.
  intros Hok Hw. rewrite (so_pw _ _ Hok). unfold old_windows in Hw.
  destruct (ss !! sid) as [s|] eqn:Hs; [|by apply elem_of_nil in Hw]. split; [|eauto 7].
  intros (sid' & s' & w' & Hs' & Hw' & He & Hp).
  assert (sid' = sid) as ->.
  { eapply (window_session_unique ss ix); [done|exact Hs'| |exact Hs|apply elem_window_id, Hw].
    rewrite <-He. by apply elem_window_id. }
  rewrite Hs in Hs'. injection Hs' as <-.
  assert (w' = w) as ->; [|done].
  pose proof (so_nodup _ _ Hok _ _ Hs) as Hnd. apply list_elem_of_lookup in Hw as [i Hi], Hw' as [j Hj].
  assert (i = j) as ->; [|congruence].
  eapply (NoDup_lookup _ _ _ (w_id w) Hnd).
  - change (map w_id (s_windows s)) with (w_id <$> s_windows s). by rewrite list_lookup_fmap, Hi.
  - change (map w_id (s_windows s)) with (w_id <$> s_windows s). rewrite list_lookup_fmap, Hj. simpl. by rewrite He.
Qed.

(** A new window with one new pane, in an existing or in a new session. *)
Lemma sessions_ok_push ss ix sid s' win pid :
  sessions_ok ss ix → ix_window_session ix !! w_id win = None → ix_pane_window ix !! pid = None →
  s_id s' = sid → s_windows s' = old_windows ss sid ++ [win] → s_active_window_id s' = w_id win →
  window_ok win → leaves (w_layout win) = [pid] →
  sessions_ok (<[sid := s']> ss) (insert_pane (insert_window ix (w_id win) sid) pid (w_id win)).
Proof.
  intros Hok Hw0 Hp0 Hid Hws Hact Hwin Hl.
  assert (Hnew : w_id win ∉ map w_id (old_windows ss sid)).
  { rewrite <-(ws_session ss ix _ sid Hok). congruence. }
  apply (sessions_ok_put ss ix); try done.
  - rewrite Hact, Hws, map_app. set_solver.
  - rewrite Hws, map_app. apply NoDup_app. split; [|split].
    + unfold old_windows. destruct (ss !! sid) as [s|] eqn:Hs; [by eapply so_nodup|constructor].
    + intros x Hx ->%list_elem_of_singleton. done.
    + apply NoDup_singleton.
  - intros w. rewrite Hws, elem_of_app, list_elem_of_singleton. intros [Hin| ->]; [|done].
    unfold old_windows in Hin. destruct (ss !! sid) eqn:Hs; [by eapply so_window|by apply elem_of_nil in Hin].
  - intros wid x. simpl. rewrite Hws, map_app, lookup_insert_Some, elem_of_app. simpl. rewrite list_elem_of_singleton.
    destruct (decide (x = sid)) as [->|Hx].
    + rewrite (ws_session ss ix _ sid Hok). destruct (decide (wid = w_id win)) as [->|Hw]; [naive_solver|].
      split; [|naive_solver]. intros [[<- _]|[_ ?]]; naive_solver.
    + destruct (decide (wid = w_id win)) as [->|Hw]; [|naive_solver]. rewrite Hw0. naive_solver.
  - intros p wid. simpl. rewrite lookup_insert_Some, Hws, session_windows_old.
    destruct (decide (wid = w_id win)) as [->|Hw].
    + split.
      * intros [[<- _]|[Hne Hp]].
        -- right. exists win. rewrite Hl. set_solver.
        -- exfalso. apply (so_pw _ _ Hok) in Hp as (sid' & s & w & Hs & Hin & He & _).
           assert (ix_window_session ix !! w_id win = Some sid') as Hc; [|congruence].
           apply (ws_session ss ix _ sid' Hok). unfold old_windows. rewrite Hs, <-He. by apply elem_window_id.
      * intros [[_ Hp]|(w & Hin & He & Hpl)].
        -- destruct (decide (pid = p)) as [->|]; [congruence|by right].
        -- rewrite elem_of_app, list_elem_of_singleton in Hin. destruct Hin as [Hin| ->].
           ++ destruct Hnew. rewrite <-He. by apply elem_window_id.
           ++ left. rewrite Hl in Hpl. apply list_elem_of_singleton in Hpl. done.
    + split.
      * intros [[_ ?]|[Hne Hp]]; [congruence|]. destruct (decide (wid ∈ map w_id (old_windows ss sid))) as [Hin|]; [|by left].
        right. apply list_elem_of_fmap in Hin as (w & -> & Hin). exists w. split; [set_solver|]. split; [done|].
        by apply (pw_session ss ix p w sid Hok Hin).
      * intros [[_ Hp]|(w & Hin & He & Hpl)].
        -- right. split; [congruence|done].
        -- rewrite elem_of_app, list_elem_of_singleton in Hin. destruct Hin as [Hin| ->]; [|congruence].
           pose proof (proj2 (pw_session ss ix p w sid Hok Hin) Hpl) as Hp. right. split; congruence.
Qed.

(** One window of a session changes in place. *)
Lemma sessions_ok_window ss ix sid s i w w' ix' :
  sessions_ok ss ix → ss !! sid = Some s → s_windows s !! i = Some w → w_id w' = w_id w → window_ok w' →
  ix_window_session ix' = ix_window_session ix →
  (∀ p wid, wid ≠ w_id w → ix_pane_window ix' !! p = Some wid ↔ ix_pane_window ix !! p = Some wid) →
  (∀ p, ix_pane_window ix' !! p = Some (w_id w) ↔ p ∈ leaves (w_layout w')) →
  sessions_ok (<[sid := with_windows s (<[i := w']> (s_windows s)) (s_active_window_id s)]> ss) ix'.
Proof.
  intros Hok Hs Hi Hid Hwin Hws Hother Hown.
  assert (Hmap : map w_id (<[i := w']> (s_windows s)) = map w_id (s_windows s)).
  { change (w_id <$> <[i := w']> (s_windows s) = w_id <$> s_windows s).
    rewrite list_fmap_insert, Hid. apply list_insert_id. by rewrite list_lookup_fmap, Hi. }
  assert (Hold : old_windows ss sid = s_windows s) by (unfold old_windows; by rewrite Hs).
  assert (Hin : ∀ x, x ∈ <[i := w']> (s_windows s) → x = w' ∨ x ∈ s_windows s ∧ w_id x ≠ w_id w).
  { intros x Hx. apply list_elem_of_lookup in Hx as [j Hj]. destruct (decide (i = j)) as [<-|Hne].
    - rewrite list_lookup_insert_eq in Hj by (by eapply lookup_lt_Some). left. congruence.
    - rewrite list_lookup_insert_ne in Hj by done. right. split; [by eapply list_elem_of_lookup_2|].
      intros He. apply Hne. eapply (NoDup_lookup _ _ _ (w_id w) (so_nodup _ _ Hok _ _ Hs)).
      + change (map w_id (s_windows s)) with (w_id <$> s_windows s). by rewrite list_lookup_fmap, Hi.
      + change (map w_id (s_windows s)) with (w_id <$> s_windows s). rewrite list_lookup_fmap, Hj. simpl. by rewrite He. }
  apply (sessions_ok_put ss ix); simpl; rewrite ?Hmap.
  - done.
  - by eapply so_id.
  - by eapply so_active.
  - by eapply so_nodup.
  - intros x [->|[Hx _]]%Hin; [done|by eapply so_window].
  - intros wid x. rewrite Hws. destruct (decide (x = sid)) as [->|Hne]; [|naive_solver].
    rewrite (ws_session ss ix _ sid Hok), Hold. naive_solver.
  - intros p wid. rewrite session_windows_old, Hold. destruct (decide (wid = w_id w)) as [->|Hne].
    + rewrite Hown. split.
      * intros Hp. right. exists w'. split_and!; [|done|done].
        eapply (list_elem_of_lookup_2 _ i), list_lookup_insert_eq. by eapply lookup_lt_Some.
      * intros [[Hn _]|(x & [->|[_ Hx]]%Hin & He & Hp)]; [|done|done].
        destruct Hn. apply elem_window_id. by eapply list_elem_of_lookup_2.
    + rewrite (Hother p wid Hne). split.
      * intros Hp. destruct (decide (wid ∈ map w_id (s_windows s))) as [Hwid|]; [|by left]. right.
        apply list_elem_of_fmap in Hwid as (x & -> & Hx). exists x. split_and!; [|done|].
        -- apply list_elem_of_lookup in Hx as [j Hj]. apply (list_elem_of_lookup_2 _ j).
           rewrite list_lookup_insert_ne; [done|]. intros <-. congruence.
        -- apply (pw_session ss ix p x sid Hok); [by rewrite Hold|done].
      * intros [[_ Hp]|(x & [->|[Hx _]]%Hin & <- & Hp)]; [done|congruence|].
        apply (pw_session ss ix p x sid Hok); [by rewrite Hold|done].
Qed.

Lemma elem_without (ws : list WindowState) i w x :
  NoDup (map w_id ws) → ws !! i = Some w →
  x ∈ take i ws ++ drop (S i) ws ↔ x ∈ ws ∧ w_id x ≠ w_id w.
Proof.
  intros Hnd Hi. pose proof (take_drop_middle ws i w Hi) as Heq. rewrite <-Heq in Hnd at 1.
  rewrite map_app in Hnd. simpl in Hnd. apply NoDup_app in Hnd as (_ & Hd & [Hn _]%NoDup_cons).
  rewrite <-Heq at 3. rewrite !elem_of_app, elem_of_cons. split.
  - intros [Hx|Hx]; (split; [auto|]); intros He.
    + apply (Hd (w_id x)); [by apply elem_window_id|rewrite He; apply elem_of_cons; by left].
    + apply Hn. rewrite <-He. by apply elem_window_id.
  - intros [[Hx|[->|Hx]] Hne]; auto. done.
Qed.

Lemma NoDup_without (ws : list WindowState) i : NoDup (map w_id ws) → NoDup (map w_id (take i ws ++ drop (S i) ws)).
Proof.
  intros Hnd. change (NoDup (w_id <$> take i ws ++ drop (S i) ws)). rewrite <-delete_take_drop, list_fmap_delete.
  eapply sublist_NoDup; [exact Hnd|apply sublist_delete].
Qed.

(** One window of a session is removed; others are left. *)
Lemma sessions_ok_remove ss ix sid s i w active ix' :
  sessions_ok ss ix → ss !! sid = Some s → s_windows s !! i = Some w →
  active ∈ map w_id (take i (s_windows s) ++ drop (S i) (s_windows s)) →
  ix_window_session ix' = delete (w_id w) (ix_window_session ix) →
  (∀ p wid, ix_pane_window ix' !! p = Some wid ↔ wid ≠ w_id w ∧ ix_pane_window ix !! p = Some wid) →
  sessions_ok (<[sid := with_windows s (take i (s_windows s) ++ drop (S i) (s_windows s)) active]> ss) ix'.
Proof.
  intros Hok Hs Hi Hact Hws Hpw. pose proof (so_nodup _ _ Hok _ _ Hs) as Hnd.
  assert (Hold : old_windows ss sid = s_windows s) by (unfold old_windows; by rewrite Hs).
  apply (sessions_ok_put ss ix); simpl; try done.
  - by eapply so_id.
  - by apply NoDup_without.
  - intros x [Hx _]%(elem_without _ _ w); [by eapply so_window|done|done].
  - intros wid x. rewrite Hws, lookup_delete_Some. rewrite list_elem_of_fmap.
    setoid_rewrite (elem_without _ _ w _ Hnd Hi). destruct (decide (x = sid)) as [->|Hne].
    + rewrite (ws_session ss ix _ sid Hok), Hold, list_elem_of_fmap. naive_solver.
    + split; [naive_solver|]. intros [[_ Hw]|[? _]]; [|done]. split; [|done]. intros <-.
      apply Hne. assert (ix_window_session ix !! w_id w = Some sid) as Hc; [|congruence].
      apply (ws_session ss ix _ sid Hok). rewrite Hold. apply elem_window_id. by eapply list_elem_of_lookup_2.
  - intros p wid. rewrite Hpw, session_windows_old, Hold. setoid_rewrite (elem_without _ _ w _ Hnd Hi). split.
    + intros [Hne Hp]. destruct (decide (wid ∈ map w_id (s_windows s))) as [Hwid|]; [|by left]. right.
      apply list_elem_of_fmap in Hwid as (x & -> & Hx). exists x. split_and!; [done|done|done|].
      apply (pw_session ss ix p x sid Hok); [by rewrite Hold|done].
    + intros [[Hn Hp]|(x & [Hx Hne] & <- & Hp)].
      * split; [|done]. intros ->. apply Hn, elem_window_id. by eapply list_elem_of_lookup_2.
      * split; [done|]. apply (pw_session ss ix p x sid Hok); [by rewrite Hold|done].
Qed.

(** *** Each operation *)

(** The ids and references a spawn or an operation draws are new. *)
Definition fresh_spawn e (sp : Spawned) : Prop :=
  sv_heap (en_supervision e) !! sp_ref sp = None ∧ en_panes e !! sp_id sp = None.

Lemma index_fresh e id : inv e → en_panes e !! id = None → ix_pane_window (en_index e) !! id = None.
Proof.
  intros Hi Hid. destruct (ix_pane_window (en_index e) !! id) eqn:Hx; [|done].
  destruct (proj1 (inv_dom e Hi id)) as [y Hy]; [eauto|congruence].
Qed.

Lemma inv_spawn e command launch cwd rows cols sp :
  inv e → sv_heap (en_supervision e) !! sp_ref sp = None → inv (spawn_pane e command launch cwd rows cols sp).
Proof.
  intros [H1 H2 H3 H4 H5] Hr. destruct e. simpl in *. split; simpl; try done.
  - by apply panes_ok_spawn.
  - eapply (sv_step_ok powi); [by constructor|done].
Qed.

(** A spawned pane joins a window: the sessions and the index change with it. *)
Lemma inv_join e sp pr policy (t : Tick) ss' ix' :
  inv e → fresh_spawn e sp →
  sessions_ok ss' ix' → ix_pane_window ix' = <[sp_id sp := default uuid_nil (ix_pane_window ix' !! sp_id sp)]> (ix_pane_window (en_index e)) →
  inv (mkEngine ss' (<[sp_id sp := EntryLive (sp_ref sp)]> (en_panes e)) (en_viewports e) (en_next_client_id e) (en_watchers e) ix'
         (register_live powi (set_pane (en_supervision e) (sp_ref sp) (pane_spawned (sp_id sp) (default 0 (sp_pid sp)))) (sp_ref sp)
            policy (t_now t) (t_unit t))
         (<[sp_ref sp := pr]> (en_props e)) (en_backend e)).
Proof.
  intros [H1 H2 H3 H4 H5] [Hr Hid] Hss Hpw.
  destruct (register_new _ _ _ (sp_ref sp) (sp_id sp) (default 0 (sp_pid sp)) pr policy (t_now t) (t_unit t) H3 H4 Hr Hid)
    as [Hp Hs].
  split; simpl; try done. intros id. rewrite Hpw, !lookup_insert_is_Some'. by rewrite H2.
Qed.

Lemma window_ok_default id name pane : window_ok (mkWindow id name (leaf pane) DEFAULT_ROWS DEFAULT_COLS).
Proof. unfold window_ok. simpl. split; [done|]. split; [apply NoDup_singleton|]. by split. Qed.

Lemma create_session_ok e name command launch cwd policy spawned wid sid t :
  inv e → (∀ sp, spawned = Some sp → fresh_spawn e sp) →
  ix_window_session (en_index e) !! wid = None → en_sessions e !! sid = None →
  inv (fst (create_session_supervised powi default_shell e name command launch cwd policy spawned wid sid t)).
Proof.
  intros Hi Hf Hw Hs. unfold create_session_supervised. destruct (Restart.validate policy); [|done].
  destruct spawned as [sp|]; [|done]. specialize (Hf sp eq_refl). cbn [fst].
  eapply inv_same; [apply persist_same|].
  pose proof (inv_join e sp (mkProps (default default_shell command) (default (sp_cwd sp) cwd) launch (DEFAULT_ROWS, DEFAULT_COLS))
    policy t (<[sid := mkSession sid name [mkWindow wid [48] (leaf (sp_id sp)) DEFAULT_ROWS DEFAULT_COLS] wid policy]> (en_sessions e))
    (insert_pane (insert_window (en_index e) wid sid) (sp_id sp) wid) Hi Hf) as Hj.
  destruct e. simpl in *. apply Hj; [|by rewrite lookup_insert_eq].
  apply (sessions_ok_push _ _ sid _ (mkWindow wid [48] (leaf (sp_id sp)) DEFAULT_ROWS DEFAULT_COLS)); try done.
  - apply (inv_sessions _ Hi).
  - apply (index_fresh _ _ Hi), Hf.
  - simpl. unfold old_windows. by rewrite Hs.
  - apply window_ok_default.
Qed.

Lemma create_window_ok e sid command spawned wid t :
  inv e → (∀ sp, spawned = Some sp → fresh_spawn e sp) → ix_window_session (en_index e) !! wid = None →
  inv (fst (create_window powi default_shell e sid command spawned wid t)).
Proof.
  intros Hi Hf Hw. unfold create_window. destruct spawned as [sp|]; [|done]. specialize (Hf sp eq_refl).
  set (e1 := spawn_pane _ _ _ _ _ _ _).
  assert (Hss : en_sessions e1 = en_sessions e) by by destruct e. rewrite Hss.
  destruct (en_sessions e !! sid) as [s|] eqn:Hs; [|by apply inv_spawn, Hf]. cbn [fst].
  eapply inv_same; [apply persist_same|].
  set (win := mkWindow wid (dec (Z.of_nat (length (s_windows s)))) (leaf (sp_id sp)) DEFAULT_ROWS DEFAULT_COLS).
  pose proof (inv_join e sp (mkProps (default default_shell command) (sp_cwd sp) launch_default (DEFAULT_ROWS, DEFAULT_COLS))
    (s_default_restart_policy s) t
    (<[sid := mkSession (s_id s) (s_name s) (s_windows s ++ [win]) wid (s_default_restart_policy s)]> (en_sessions e))
    (insert_pane (insert_window (en_index e) wid sid) (sp_id sp) wid) Hi Hf) as Hj.
  assert (so : sessions_ok (<[sid := mkSession (s_id s) (s_name s) (s_windows s ++ [win]) wid (s_default_restart_policy s)]> (en_sessions e))
    (insert_pane (insert_window (en_index e) wid sid) (sp_id sp) wid)).
  { apply (sessions_ok_push _ _ sid _ win); try done.
    - apply (inv_sessions _ Hi).
    - apply (index_fresh _ _ Hi), Hf.
    - simpl. by eapply (so_id _ _ (inv_sessions _ Hi)).
    - simpl. unfold old_windows. by rewrite Hs.
    - apply window_ok_default. }
  unfold e1. clear e1 Hss. destruct e. simpl in *. apply Hj; [done|by rewrite lookup_insert_eq].
Qed.

Lemma foldl_remove_window ix ws :
  foldl (λ ix w, remove_window ix (w_id w)) ix ws
  = mkIndex (ix_pane_window ix) (foldl (λ m id, delete id m) (ix_window_session ix) (map w_id ws)).
Proof. revert ix. induction ws as [|w ws IH]; intros ix; simpl; [by destruct ix|]. by rewrite IH. Qed.

Lemma foldl_remove_pane ix ids :
  foldl remove_pane ix ids
  = mkIndex (foldl (λ m id, delete id m) (ix_pane_window ix) ids) (ix_window_session ix).
Proof. revert ix. induction ids as [|id ids IH]; intros ix; simpl; [by destruct ix|]. by rewrite IH. Qed.

Lemma elem_session_panes s pid : pid ∈ session_panes s ↔ ∃ w, w ∈ s_windows s ∧ pid ∈ leaves (w_layout w).
Proof.
  unfold session_panes. rewrite list_elem_of_In, in_flat_map. setoid_rewrite list_elem_of_In. naive_solver.
Qed.

Lemma kill_session_ok e id : inv e → inv (fst (kill_session e id)).
Proof.
  intros Hi. unfold kill_session. destruct (en_sessions e !! id) as [s|] eqn:Hs; [|done]. cbn [fst].
  eapply inv_same; [apply set_backend_same|].
  set (e1 := set_index _ _).
  pose proof (inv_sessions _ Hi) as Hok. pose proof (inv_dom _ Hi) as Hdom.
  assert (Hp1 : panes_inv e1) by (destruct Hi; by destruct e).
  destruct (drop_panes_ok e1 (session_panes s) Hp1) as ((Hp & Hsv) & (F1&F2&F3&F4&_) & Hpanes).
  assert (Hix : en_index e1 = mkIndex (foldl (λ m id, delete id m) (ix_pane_window (en_index e)) (session_panes s))
      (foldl (λ m id, delete id m) (ix_window_session (en_index e)) (map w_id (s_windows s)))).
  { unfold e1. destruct e. simpl. by rewrite foldl_remove_window, foldl_remove_pane. }
  assert (Hold : old_windows (en_sessions e) id = s_windows s) by (unfold old_windows; by rewrite Hs).
  assert (Hpw : ∀ pid wid, ix_pane_window (en_index e) !! pid = Some wid →
      pid ∈ session_panes s ↔ wid ∈ map w_id (s_windows s)).
  { intros pid wid Hp0. rewrite elem_session_panes, list_elem_of_fmap. split.
    - intros (w & Hw & Hl). exists w. split; [|done].
      assert (ix_pane_window (en_index e) !! pid = Some (w_id w)) as Hx; [|congruence].
      apply (pw_session _ _ _ _ id Hok); [by rewrite Hold|done].
    - intros (w & -> & Hw). exists w. split; [done|]. apply (pw_session _ _ _ _ id Hok) in Hp0; [done|by rewrite Hold]. }
  split.
  - rewrite F1, F2, Hix. replace (en_sessions e1) with (delete id (en_sessions e)) by (by unfold e1; destruct e).
    apply (sessions_ok_delete _ (en_index e)); [done| |].
    + intros wid x. simpl. rewrite lookup_delete_all. case_bool_decide as Hin.
      * split; [done|]. intros [Hne Hx]. destruct Hne.
        assert (ix_window_session (en_index e) !! wid = Some id) as Hy; [|congruence].
        apply (ws_session _ _ _ id Hok). by rewrite Hold.
      * split; [|naive_solver]. intros Hx. split; [|done]. intros ->. apply (ws_session _ _ _ id Hok) in Hx. by rewrite Hold in Hx.
    + intros pid wid. simpl. rewrite lookup_delete_all, session_windows_old, Hold. case_bool_decide as Hin.
      * split; [done|]. intros [Hne Hx]. by apply (Hpw _ _ Hx) in Hin.
      * split; [|naive_solver]. intros Hx. split; [|done]. intros Hy. by apply (Hpw _ _ Hx) in Hy.
  - intros pid. rewrite F2, Hix, Hpanes. unfold delete_all. simpl. rewrite !lookup_delete_all.
    replace (en_panes e1) with (en_panes e) by (by unfold e1; destruct e). case_bool_decide; [done|apply Hdom].
  - done.
  - done.
  - rewrite F3. replace (en_viewports e1) with (en_viewports e) by (by unfold e1; destruct e). apply (inv_viewports _ Hi).
Qed.

Lemma find_window_Some s wid i w : find_window s wid = Some (i, w) → s_windows s !! i = Some w ∧ w_id w = wid.
Proof. unfold find_window. intros (Hi & Hw & _)%list_find_Some. done. Qed.

Lemma find_window_in s w : w ∈ s_windows s → is_Some (find_window s (w_id w)).
Proof. intros [i Hi]%list_elem_of_lookup. unfold find_window. by eapply list_find_elem_of; [by eapply list_elem_of_lookup_2|]. Qed.

(** The window and the session of a pane the index knows are really there. *)
Lemma pane_address e pid wid sid :
  inv e → window_and_session_for_pane e pid = Ok (wid, sid) →
  ∃ s i w, en_sessions e !! sid = Some s ∧ find_window s wid = Some (i, w) ∧ s_windows s !! i = Some w
    ∧ w_id w = wid ∧ pid ∈ leaves (w_layout w) ∧ window_ok w.
Proof.
  intros Hi. unfold window_and_session_for_pane, window_for_pane, session_for_window.
  destruct (ix_pane_window (en_index e) !! pid) as [wid'|] eqn:Hp; [|done]. simpl.
  destruct (ix_window_session (en_index e) !! wid') as [sid'|] eqn:Hw; [|done]. simpl. intros [= -> ->].
  pose proof (inv_sessions _ Hi) as Hok.
  destruct (proj1 (so_ws _ _ Hok wid sid) Hw) as (s & Hs & Hwid).
  apply list_elem_of_fmap in Hwid as (w0 & -> & Hw0).
  destruct (find_window_in s w0 Hw0) as [[i w] Hf]. destruct (find_window_Some _ _ _ _ Hf) as [Hiw Hid].
  exists s, i, w. split_and!; try done.
  - apply (pw_session (en_sessions e) (en_index e) pid w sid Hok); [|by rewrite Hid].
    unfold old_windows. rewrite Hs. by eapply list_elem_of_lookup_2.
  - eapply (so_window _ _ Hok); [done|]. by eapply list_elem_of_lookup_2.
Qed.

Lemma window_ok_u16 w : window_ok w → is_u16 (w_rows w) ∧ is_u16 (w_cols w).
Proof.
  intros (_ & _ & Hr & Hc). unfold MIN_PANE_ROWS, MAX_PANE_ROWS, MIN_PANE_COLS, MAX_PANE_COLS in *. machine_int.
Qed.

Lemma set_session_same e sid s : en_sessions e !! sid = Some s → same_state e (set_session e sid s).
Proof. intros Hs. destruct e. unfold same_state. simpl in *. by rewrite insert_id. Qed.

Lemma with_windows_id s i w :
  s_windows s !! i = Some w → with_windows s (<[i := with_layout w (w_layout w)]> (s_windows s)) (s_active_window_id s) = s.
Proof.
  intros Hi. replace (with_layout w (w_layout w)) with w by by destruct w. rewrite list_insert_id by done. by destruct s.
Qed.

(** A refused split leaves everything as it was; a split adds its new leaf. *)
Lemma split_layout_cases e pid o new :
  inv e →
  ∃ e' r, split_layout e pid o new = Some (e', r) ∧
  match r with
  | Err _ => same_state e e'
  | Ok (wid, sid, policy) =>
      ∃ s i w, window_and_session_for_pane e pid = Ok (wid, sid) ∧ en_sessions e !! sid = Some s
        ∧ s_windows s !! i = Some w ∧ w_id w = wid ∧ window_ok w ∧ pid ∈ leaves (w_layout w)
        ∧ policy = s_default_restart_policy s
        ∧ e' = set_session e sid (with_windows s (<[i := with_layout w (subst_leaf (w_layout w) pid (split_node pid new o))]> (s_windows s))
                 (s_active_window_id s))
  end.
Proof.
  intros Hi. unfold split_layout.
  destruct (window_and_session_for_pane e pid) as [[wid sid]|err] eqn:Ha; [|by exists e, (Err err)].
  destruct (pane_address e pid wid sid Hi Ha) as (s & i & w & Hs & Hf & Hiw & Hid & Hin & Hw).
  rewrite Hs, Hf. destruct (window_ok_u16 w Hw) as [Hr Hc]. destruct Hw as (Hwf & Hnd & Hsz).
  destruct (split_spec (w_layout w) pid o new (w_rows w) (w_cols w) Hwf Hnd Hr Hc Hin) as (rects & rect & _ & _ & ->).
  destruct (split_check o rect) as [err|].
  - do 2 eexists. split; [reflexivity|]. simpl. rewrite with_windows_id by done. by apply set_session_same.
  - do 2 eexists. split; [reflexivity|]. exists s, i, w. split_and!; try done.
Qed.

Lemma window_ok_subst w pid new o :
  window_ok w → new ∉ leaves (w_layout w) →
  window_ok (with_layout w (subst_leaf (w_layout w) pid (split_node pid new o))).
Proof.
  intros (Hwf & Hnd & Hsz) Hnew. unfold window_ok. simpl. split_and!; try apply Hsz.
  - by apply wf_subst_leaf.
  - rewrite leaves_subst_leaf by done. by apply NoDup_flat_map_insert.
Qed.

Lemma split_pane_ok e pid o command spawned t :
  inv e → (∀ sp, spawned = Some sp → fresh_spawn e sp) →
  ∃ e' r, split_pane powi default_shell e pid o command spawned t = Some (e', r) ∧ inv e'.
Proof.
  intros Hi Hf. unfold split_pane. destruct spawned as [sp|]; [|by eauto]. specialize (Hf sp eq_refl).
  set (e1 := spawn_pane _ _ _ _ _ _ _).
  assert (Hi1 : inv e1) by by apply inv_spawn, Hf.
  destruct (split_layout_cases e1 pid o (sp_id sp) Hi1) as (e2 & r & -> & Hr).
  destruct r as [[[wid sid] policy]|err]; [|by eauto using inv_same].
  destruct Hr as (s & i & w & _ & Hs & Hiw & Hid & Hw & Hin & -> & ->).
  assert (Hnew : sp_id sp ∉ leaves (w_layout w)).
  { intros Hc. assert (ix_pane_window (en_index e1) !! sp_id sp = None) as Hn.
    { apply (index_fresh _ _ Hi1). unfold e1. destruct e. apply Hf. }
    apply (pw_session _ _ _ _ sid (inv_sessions _ Hi1)) in Hc; [congruence|].
    unfold old_windows. rewrite Hs. by eapply list_elem_of_lookup_2. }
  set (w' := with_layout w _) in *. set (s' := with_windows s _ _).
  assert (Hso : sessions_ok (<[sid := s']> (en_sessions e)) (insert_pane (en_index e) (sp_id sp) wid)).
  { assert (Hss : en_sessions e1 = en_sessions e) by by destruct e. rewrite Hss in Hs.
    pose proof (inv_sessions _ Hi) as Hok. pose proof (index_fresh e (sp_id sp) Hi (proj2 Hf)) as Hfr.
    assert (Hold : w ∈ old_windows (en_sessions e) sid)
      by (unfold old_windows; rewrite Hs; by eapply list_elem_of_lookup_2).
    apply (sessions_ok_window _ (en_index e) sid s i w w'); try done.
    - by apply window_ok_subst.
    - intros p wid' Hne. simpl. rewrite <-Hid. rewrite lookup_insert_Some. split; [naive_solver|].
      intros Hp. right. split; [congruence|done].
    - intros p. simpl. rewrite <-Hid, lookup_insert_Some, (pw_session _ _ p w sid Hok Hold).
      rewrite elem_of_leaves_subst by apply Hw. split; [naive_solver|].
      intros [Hp|[-> _]]; [|by left]. right. split; [congruence|done]. }
  pose proof (inv_join e sp (mkProps (default default_shell command) (sp_cwd sp) launch_default (DEFAULT_ROWS, DEFAULT_COLS))
    (s_default_restart_policy s) t _ _ Hi Hf Hso) as Hj.
  simpl in Hj. rewrite lookup_insert_eq in Hj. specialize (Hj eq_refl).
  unfold split_register, split_finish, session_snapshot.
  set (e3 := set_index _ _).
  assert (He3 : e3 = mkEngine (<[sid := s']> (en_sessions e)) (<[sp_id sp := EntryLive (sp_ref sp)]> (en_panes e)) (en_viewports e)
    (en_next_client_id e) (en_watchers e) (insert_pane (en_index e) (sp_id sp) wid)
    (register_live powi (set_pane (en_supervision e) (sp_ref sp) (pane_spawned (sp_id sp) (default 0 (sp_pid sp)))) (sp_ref sp)
            (s_default_restart_policy s) (t_now t) (t_unit t))
    (<[sp_ref sp := mkProps (default default_shell command) (sp_cwd sp) launch_default (DEFAULT_ROWS, DEFAULT_COLS)]> (en_props e))
    (en_backend e)) by (unfold e3, e1; by destruct e).
  rewrite He3. cbn [en_sessions]. rewrite lookup_insert_eq. cbn [fmap option_fmap option_map].
  do 2 eexists. split; [reflexivity|]. eapply inv_same; [apply notify_same|]. eapply inv_same; [apply persist_same|]. exact Hj.
Qed.

Lemma inv_drop e pid :
  sessions_ok (en_sessions e) (en_index e) → panes_inv e → viewports_ok (en_viewports e) →
  (∀ id, is_Some (ix_pane_window (en_index e) !! id) ↔ id ≠ pid ∧ is_Some (en_panes e !! id)) →
  inv (drop_pane e pid).
Proof.
  intros Hso Hp Hv Hdom. destruct (drop_pane_ok e pid Hp) as ((Hp1 & Hs1) & (F1&F2&F3&F4&_) & Hpanes).
  split; rewrite ?F1, ?F2, ?F3; try done. intros id. rewrite Hdom, Hpanes.
  destruct (decide (id = pid)) as [->|Hne].
  - rewrite lookup_delete_eq. split; [naive_solver|by intros [? ?]].
  - rewrite lookup_delete_ne by done. naive_solver.
Qed.

Lemma insert_without {A} (l : list A) i x :
  (i < length l)%nat →
  take i (take i l ++ drop (S i) l) ++ x :: drop i (take i l ++ drop (S i) l) = <[i := x]> l.
Proof.
  intros Hi. rewrite insert_take_drop by done.
  rewrite take_app_length' by (rewrite length_take; lia). by rewrite drop_app_length' by (rewrite length_take; lia).
Qed.

Lemma pw_delete e pid w sid (Hi : inv e) :
  w ∈ old_windows (en_sessions e) sid → pid ∈ leaves (w_layout w) →
  ∀ p wid, delete pid (ix_pane_window (en_index e)) !! p = Some wid ↔
    if bool_decide (wid = w_id w) then p ∈ leaves (w_layout w) ∧ p ≠ pid else ix_pane_window (en_index e) !! p = Some wid.
Proof.
  intros Hw Hin p wid. pose proof (inv_sessions _ Hi) as Hok. rewrite lookup_delete_Some.
  case_bool_decide as Hwid; [subst wid; rewrite (pw_session _ _ p w sid Hok Hw); naive_solver|].
  split; [naive_solver|]. intros Hp. split; [|done]. intros ->.
  apply (pw_session _ _ _ w sid Hok Hw) in Hin. congruence.
Qed.

(** The sessions and the index after a pane is closed. *)
Lemma close_collapsed e sid s i w pid n' :
  inv e → en_sessions e !! sid = Some s → s_windows s !! i = Some w → window_ok w → pid ∈ leaves (w_layout w) →
  wf_layout n' = true → leaves n' = filter (λ x, x ≠ pid) (leaves (w_layout w)) →
  sessions_ok (<[sid := with_windows s (<[i := with_layout w n']> (s_windows s)) (s_active_window_id s)]> (en_sessions e))
    (remove_pane (en_index e) pid).
Proof.
  intros Hi Hs Hiw (Hwf & Hnd & Hsz) Hin Hwf' Hl. pose proof (inv_sessions _ Hi) as Hok.
  assert (Hold : w ∈ old_windows (en_sessions e) sid) by (unfold old_windows; rewrite Hs; by eapply list_elem_of_lookup_2).
  apply (sessions_ok_window _ (en_index e) sid s i w); try done.
  - split_and!; try apply Hsz; [done|]. simpl. rewrite Hl. by apply NoDup_filter.
  - intros p wid Hne. simpl. rewrite (pw_delete e pid w sid Hi Hold Hin). by rewrite bool_decide_false.
  - intros p. simpl. rewrite (pw_delete e pid w sid Hi Hold Hin), bool_decide_true, Hl, list_elem_of_filter by done. naive_solver.
Qed.

Lemma close_empty e sid s i w pid ix' :
  inv e → en_sessions e !! sid = Some s → s_windows s !! i = Some w → w_layout w = Leaf pid →
  ix' = remove_window (remove_pane (en_index e) pid) (w_id w) →
  match take i (s_windows s) ++ drop (S i) (s_windows s) with
  | [] => sessions_ok (delete sid (en_sessions e)) ix'
  | first :: _ =>
      sessions_ok (<[sid := with_windows s (take i (s_windows s) ++ drop (S i) (s_windows s)) (w_id first)]> (en_sessions e)) ix'
  end.
Proof.
  intros Hi Hs Hiw Hl ->. pose proof (inv_sessions _ Hi) as Hok.
  assert (Hws : old_windows (en_sessions e) sid = s_windows s) by (unfold old_windows; by rewrite Hs).
  assert (Hold : w ∈ old_windows (en_sessions e) sid) by (rewrite Hws; by eapply list_elem_of_lookup_2).
  assert (Hin : pid ∈ leaves (w_layout w)) by (rewrite Hl; simpl; set_solver).
  assert (Hpw : ∀ p wid, ix_pane_window (remove_window (remove_pane (en_index e) pid) (w_id w)) !! p = Some wid ↔
      wid ≠ w_id w ∧ ix_pane_window (en_index e) !! p = Some wid).
  { intros p wid. simpl. rewrite (pw_delete e pid w sid Hi Hold Hin), Hl. simpl.
    case_bool_decide; [set_solver|naive_solver]. }
  destruct (take i (s_windows s) ++ drop (S i) (s_windows s)) as [|first rest] eqn:Hr.
  - assert (Hone : ∀ wid, wid ∈ map w_id (s_windows s) ↔ wid = w_id w).
    { intros wid. pose proof (take_drop_middle _ _ _ Hiw) as Hm. apply app_nil in Hr as [H1 H2].
      rewrite H1, H2 in Hm. rewrite <-Hm. simpl. set_solver. }
    apply (sessions_ok_delete _ (en_index e)); [done| |].
    + intros wid x. simpl. rewrite lookup_delete_Some. destruct (decide (x = sid)) as [->|Hne].
      * rewrite (ws_session _ _ _ sid Hok), Hws, Hone. naive_solver.
      * split; [naive_solver|]. intros [_ Hx]. split; [|done]. intros <-. apply Hne.
        assert (ix_window_session (en_index e) !! w_id w = Some sid) as Hy; [|congruence].
        apply (ws_session _ _ _ sid Hok). rewrite Hws. by apply Hone.
    + intros p wid. rewrite Hpw, session_windows_old, Hws, Hone. done.
  - rewrite <-Hr. apply (sessions_ok_remove _ (en_index e) sid s i w); try done.
    rewrite Hr. simpl. set_solver.
Qed.

Lemma index_others e pid : inv e → ∀ id, is_Some (delete pid (ix_pane_window (en_index e)) !! id) ↔ id ≠ pid ∧ is_Some (en_panes e !! id).
Proof.
  intros Hi id. destruct (decide (id = pid)) as [->|Hne].
  - rewrite lookup_delete_eq. split; [by intros [? ?]|naive_solver].
  - rewrite lookup_delete_ne, (inv_dom _ Hi) by done. naive_solver.
Qed.

(** What a close leaves once its window is gone too. *)
Lemma inv_after_empty e e1 pid wid :
  inv e → sessions_ok (en_sessions e1) (remove_window (remove_pane (en_index e) pid) wid) →
  en_index e1 = en_index e → en_panes e1 = en_panes e → en_supervision e1 = en_supervision e →
  en_props e1 = en_props e → en_viewports e1 = en_viewports e →
  let e2 := set_index e1 (remove_pane (en_index e1) pid) in
  inv (drop_pane (set_index e2 (remove_window (en_index e2) wid)) pid).
Proof.
  intros Hi Hs1 S2 S3 S4 S5 S6 e2. assert (Hpi : panes_inv e) by (split; apply Hi). unfold e2. apply inv_drop.
  - replace (en_sessions _) with (en_sessions e1) by by destruct e1.
    replace (en_index _) with (remove_window (remove_pane (en_index e1) pid) wid) by by destruct e1. by rewrite S2.
  - unfold panes_inv. destruct e1. simpl in *. subst. exact Hpi.
  - destruct e1. simpl in *. subst. apply (inv_viewports _ Hi).
  - intros id. destruct e1. simpl in *. subst. apply (index_others e pid Hi id).
Qed.

Lemma close_pane_ok e pid : inv e → ∃ e' r, close_pane e pid = Some (e', r) ∧ inv e'.
Proof.
  intros Hi. unfold close_pane. destruct (window_and_session_for_pane e pid) as [[wid sid]|err] eqn:Ha; [|by eauto].
  destruct (pane_address e pid wid sid Hi Ha) as (s & i & w & Hs & Hf & Hiw & Hid & Hin & Hw).
  rewrite Hs, Hf. pose proof Hw as (Hwf & Hnd & _).
  assert (Hlen : (i < length (s_windows s))%nat) by by eapply lookup_lt_Some.
  assert (Hpi : panes_inv e) by (split; apply Hi).
  destruct (remove_ok (w_layout w) Hwf pid Hnd) as (out & -> & Hpost). cbn zeta. destruct out as [n'|].
  - destruct Hpost as [Hwf' Hl]. rewrite insert_without by done.
    pose proof (close_collapsed e sid s i w pid n' Hi Hs Hiw Hw Hin Hwf' Hl) as Hso.
    assert (∃ first rest, <[i := with_layout w n']> (s_windows s) = first :: rest) as (first & rest & Hne).
    { destruct (<[i := with_layout w n']> (s_windows s)) eqn:He; [|by eauto].
      apply (f_equal length) in He. rewrite length_insert in He. simpl in He. lia. }
    rewrite Hne in *. do 2 eexists. split; [reflexivity|].
    eapply inv_same; [apply notify_same|]. set (e1 := persist_session _ _).
    pose proof (persist_same (set_session e sid (with_windows s (first :: rest) (s_active_window_id s))) sid) as Hsame. fold e1 in Hsame.
    destruct Hsame as (S1&S2&S3&S4&S5&S6). clearbody e1.
    assert (P1 : en_sessions (set_index e1 (remove_pane (en_index e1) pid)) = en_sessions e1) by by destruct e1.
    assert (P2 : en_index (set_index e1 (remove_pane (en_index e1) pid)) = remove_pane (en_index e1) pid) by by destruct e1.
    assert (P3 : en_panes (set_index e1 (remove_pane (en_index e1) pid)) = en_panes e1) by by destruct e1.
    apply inv_drop.
    + rewrite P1, P2, S1, S2. destruct e. exact Hso.
    + unfold panes_inv. replace (en_supervision (set_index e1 _)) with (en_supervision e1) by by destruct e1.
      replace (en_props (set_index e1 _)) with (en_props e1) by by destruct e1. rewrite P3, S3, S4, S5. destruct e. exact Hpi.
    + replace (en_viewports (set_index e1 _)) with (en_viewports e1) by by destruct e1. rewrite S6. destruct e. apply (inv_viewports _ Hi).
    + intros id. rewrite P2, P3, S2, S3. simpl. pose proof (index_others e pid Hi id) as Ho. destruct e. exact Ho.
  - simpl in Hpost.
    pose proof (close_empty e sid s i w pid _ Hi Hs Hiw Hpost eq_refl) as Hso.
    set (rest := take i (s_windows s) ++ drop (S i) (s_windows s)) in *.
    destruct rest as [|first rest'] eqn:Hrest.
    + do 2 eexists. split; [reflexivity|]. apply (inv_after_empty e); try done; by destruct e.
    + do 2 eexists. split; [reflexivity|].
      destruct (persist_same (set_session e sid (with_windows s (first :: rest') (w_id first))) sid) as (S1&S2&S3&S4&S5&S6).
      apply (inv_after_empty e); [done|..]; rewrite ?S1, ?S2, ?S3, ?S4, ?S5, ?S6; by destruct e.
Qed.

(** *** Starting panes and the supervision calls *)

Lemma start_quiet sup id spawned now unit : quiet sup (fst (start powi sup id spawned now unit)).
Proof. apply quiet_step; [constructor|apply refs_start]. Qed.

Lemma start_pane_inner_ok e id fallback spawned respawned t :
  inv e → (∀ sp, spawned = Ok sp → sv_heap (en_supervision e) !! sp_ref sp = None) →
  inv (fst (start_pane_inner powi e id fallback spawned respawned t)).
Proof.
  intros Hi Hf. unfold start_pane_inner. destruct (en_panes e !! id) as [[r|rec]|] eqn:Hid; [| |done].
  - destruct (is_exited e r); [|done].
    pose proof (start_quiet (en_supervision e) id respawned (t_now t) (t_unit t)) as Hq.
    destruct (start _ _ _ _ _ _) as [sup res]. by apply inv_quiet.
  - destruct spawned as [sp|]; [|done]. specialize (Hf sp eq_refl). cbn [fst].
    set (pr := mkProps (pp_command rec) (pp_cwd rec) (pp_launch rec) (Z.max (pp_rows rec) MIN_PANE_ROWS, Z.max (pp_cols rec) MIN_PANE_COLS)).
    destruct (adopt_new _ _ _ (sp_ref sp) id (default 0 (sp_pid sp)) pr rec fallback (t_now t) (t_unit t)
      (inv_panes _ Hi) (inv_sup _ Hi) Hf Hid) as [Hp Hs].
    destruct Hi as [H1 H2 H3 H4 H5]. destruct e. simpl in *. split; simpl; try done.
    intros id'. rewrite H2, lookup_insert_is_Some'. split; [by right|].
    intros [<-|?]; [by rewrite Hid|done].
Qed.

(** Every reference a revive's spawns return is unused when it is returned. *)
Fixpoint revive_fresh (env : ReviveEnv) (fallback : RestartPolicy) (acc : Engine B * nat) (ids : list Uuid) : Prop :=
  match ids with
  | [] => True
  | id :: ids =>
      (∀ sp, re_spawned env id = Ok sp → sv_heap (en_supervision (fst acc)) !! sp_ref sp = None)
      ∧ revive_fresh env fallback (revive_one powi env fallback acc id) ids
  end.

Lemma revive_fold_ok env fallback ids acc :
  inv (fst acc) → revive_fresh env fallback acc ids → inv (fst (foldl (revive_one powi env fallback) acc ids)).
Proof.
  revert acc. induction ids as [|id ids IH]; intros [e n] Hi Hf; simpl; [done|]. destruct Hf as [Hf Hfs].
  apply IH; [|done]. unfold revive_one. pose proof (start_pane_inner_ok e id fallback (re_spawned env id) (re_respawned env id) (re_tick env) Hi Hf) as Hs.
  by destruct (start_pane_inner _ _ _ _ _ _ _).
Qed.

Definition revive_ids e (s : SessionState) : list Uuid :=
  List.filter (λ id, negb (held_state (state_of (en_supervision e) id))) (session_panes s).

Lemma revive_session_ok e sid env :
  inv e →
  (∀ s, en_sessions e !! sid = Some s → revive_fresh env (s_default_restart_policy s) (e, 0%nat) (revive_ids e s)) →
  inv (fst (revive_session powi e sid env)).
Proof.
  intros Hi Hf. unfold revive_session. destruct (en_sessions e !! sid) as [s|]; [|done]. specialize (Hf s eq_refl).
  destruct (existsb _ _); [done|]. fold (revive_ids e s).
  assert (Hgo : inv (fst (match revive_check e (re_prepared env) (revive_ids e s) with
    | Ok _ => let '(e, revived) := foldl (revive_one powi env (s_default_restart_policy s)) (e, 0%nat) (revive_ids e s) in
              (persist_session e sid, Ok (Revived revived))
    | Err err => (e, Err err) end))).
  { destruct (revive_check _ _ _); [|done]. pose proof (revive_fold_ok env _ _ (e, 0%nat) Hi Hf) as Hr.
    destruct (foldl _ _ _) as [e' n]. cbn [fst]. by eapply inv_same; [apply persist_same|]. }
  destruct (revive_ids e s) as [|]; [|exact Hgo].
  destruct (List.filter _ _); [exact Hgo|done].
Qed.

Lemma inv_persist_quiet e sup sid :
  inv e → quiet (en_supervision e) sup → inv (persist_session (set_supervision e sup) sid).
Proof. intros. eapply inv_same; [apply persist_same|]. by apply inv_quiet. Qed.

Lemma supervise_tick_ok e spawned unit now : inv e → inv (fst (supervise_tick powi e spawned unit now)).
Proof.
  intros Hi. unfold supervise_tick.
  assert (Hq : quiet (en_supervision e) (fst (run_due powi (en_supervision e) spawned unit now)))
    by (apply quiet_step; [constructor|apply refs_run_due]).
  destruct (run_due _ _ _ _ _) as [sup next]. cbn [fst] in *. unfold persist_dirty_supervision.
  assert (Hq2 : quiet sup (snd (take_dirty sup))) by (apply quiet_step; [constructor|done]).
  destruct (take_dirty _) as [dirty sup2] eqn:Htd.
  assert (Hsup2 : sup2 = snd (take_dirty sup)) by (destruct e; simpl in Htd; unfold take_dirty; by injection Htd as <- <-).
  eapply inv_same; [apply persist_all_same|]. apply inv_quiet; [by apply inv_quiet|]. subst. by destruct e.
Qed.

Lemma set_restart_policy_ok e id policy now : inv e → inv (fst (set_restart_policy e id policy now)).
Proof.
  intros Hi. unfold set_restart_policy. destruct (session_of_pane e id) as [sid|]; [|done].
  destruct (sv_set_policy _ _ _ _) as [sup|] eqn:Hs; [|done]. cbn [fst]. apply inv_persist_quiet; [done|].
  apply quiet_step; [by eapply Sv_set_policy|by eapply refs_set_policy].
Qed.

Lemma apply_policy_quiet sup ids policy now : quiet sup (fst (apply_policy sup ids policy now)).
Proof.
  revert sup. induction ids as [|id ids IH]; intros sup; simpl; [done|].
  destruct (sv_set_policy sup id policy now) as [sup'|] eqn:Hs; [|done].
  eapply quiet_trans; [|apply IH]. apply quiet_step; [by eapply Sv_set_policy|by eapply refs_set_policy].
Qed.

Lemma set_session_restart_policy_ok e sid policy all now :
  inv e → inv (fst (set_session_restart_policy e sid policy all now)).
Proof.
  intros Hi. unfold set_session_restart_policy. destruct (Restart.validate policy); [|done].
  destruct (en_sessions e !! sid) as [s|] eqn:Hs; [|done].
  set (s' := mkSession _ _ _ _ _).
  assert (Hi1 : inv (set_session e sid s')).
  { pose proof Hi as [H1 H2 H3 H4 H5].
    assert (Hso : sessions_ok (<[sid := s']> (en_sessions e)) (en_index e)).
    { assert (Hold : old_windows (en_sessions e) sid = s_windows s) by (unfold old_windows; by rewrite Hs).
      apply (sessions_ok_put _ (en_index e)); try done; unfold s'; simpl.
      - by eapply (so_id _ _ H1).
      - by eapply (so_active _ _ H1).
      - by eapply (so_nodup _ _ H1).
      - intros w Hw. by eapply (so_window _ _ H1).
      - intros wid x. destruct (decide (x = sid)) as [->|]; [|naive_solver].
        rewrite (ws_session _ _ _ sid H1), Hold. naive_solver.
      - intros p wid. rewrite session_windows_old, Hold. split.
        + intros Hp. destruct (decide (wid ∈ map w_id (s_windows s))) as [Hw|]; [|by left]. right.
          apply list_elem_of_fmap in Hw as (w & -> & Hw). exists w. split_and!; [done|done|].
          apply (pw_session _ _ p w sid H1); [by rewrite Hold|done].
        + intros [[_ ?]|(w & Hw & <- & Hp)]; [done|]. apply (pw_session _ _ p w sid H1); [by rewrite Hold|done]. }
    destruct e. simpl in *. by split. }
  assert (Hq : quiet (en_supervision (set_session e sid s'))
     (fst (if all then apply_policy (en_supervision (set_session e sid s')) (session_panes s) policy now
           else (en_supervision (set_session e sid s'), Ok tt)))).
  { destruct all; [apply apply_policy_quiet|done]. }
  destruct (if all then _ else _) as [sup [|]]; cbn [fst] in *; [by apply inv_persist_quiet|by apply inv_quiet].
Qed.

Lemma stop_pane_ok e id sent now : inv e → inv (fst (stop_pane e id sent now)).
Proof.
  intros Hi. unfold stop_pane. destruct (session_of_pane e id) as [sid|]; [|done].
  assert (Hq : quiet (en_supervision e) (fst (stop (en_supervision e) id sent now)))
    by (apply quiet_step; [constructor|apply refs_stop]).
  destruct (stop _ _ _ _) as [sup [|]]; cbn [fst] in *; [by apply inv_persist_quiet|by apply inv_quiet].
Qed.

Lemma restart_pane_ok e id reset sent spawned respawned t :
  inv e → (∀ sp, spawned = Ok sp → sv_heap (en_supervision e) !! sp_ref sp = None) →
  inv (fst (restart_pane powi e id reset sent spawned respawned t)).
Proof.
  intros Hi Hf. unfold restart_pane. destruct (session_of_pane e id) as [sid|]; [|done].
  assert (Hq : quiet (en_supervision e) (fst (restart powi (en_supervision e) id reset sent respawned (t_now t) (t_unit t))))
    by (apply quiet_step; [constructor|apply refs_restart]).
  pose proof (start_pane_inner_ok e id policy_default spawned respawned t Hi Hf) as Hs.
  destruct (is_restored_record e id).
  - destruct (start_pane_inner _ _ _ _ _ _ _) as [e' [|]]; cbn [fst] in *; [by eapply inv_same; [apply persist_same|]|done].
  - destruct (restart _ _ _ _ _ _ _ _) as [sup [|]]; cbn [fst map_err] in *; [by apply inv_persist_quiet|by apply inv_quiet].
Qed.

Lemma start_pane_ok e id spawned respawned t :
  inv e → (∀ sp, spawned = Ok sp → sv_heap (en_supervision e) !! sp_ref sp = None) →
  inv (fst (start_pane powi e id spawned respawned t)).
Proof.
  intros Hi Hf. unfold start_pane. destruct (session_of_pane e id) as [sid|]; [|done].
  pose proof (start_pane_inner_ok e id policy_default spawned respawned t Hi Hf) as Hs.
  destruct (start_pane_inner _ _ _ _ _ _ _) as [e' [|]]; cbn [fst] in *; [by eapply inv_same; [apply persist_same|]|done].
Qed.

Lemma reset_restart_budget_ok e id : inv e → inv (fst (reset_restart_budget e id)).
Proof.
  intros Hi. unfold reset_restart_budget. destruct (session_of_pane e id) as [sid|]; [|done].
  destruct (sv_reset_budget _ _) as [sup|] eqn:Hs; [|done]. cbn [fst]. apply inv_persist_quiet; [done|].
  apply quiet_step; [by eapply Sv_reset_budget|by eapply refs_reset_budget].
Qed.

(** *** Viewports and geometry *)

Definition size_ok (sz : Z * Z) : Prop :=
  MIN_PANE_ROWS ≤ fst sz ≤ MAX_PANE_ROWS ∧ MIN_PANE_COLS ≤ snd sz ≤ MAX_PANE_COLS.

Lemma min_list_spec l m : min_list l = Some m → m ∈ l ∧ ∀ x, x ∈ l → m ≤ x.
Proof.
  destruct l as [|x l]; [done|]. simpl. intros [= <-].
  assert (∀ y, foldl Z.min y l ∈ y :: l ∧ foldl Z.min y l ≤ y ∧ ∀ z, z ∈ l → foldl Z.min y l ≤ z) as Hgen.
  { induction l as [|a l IH]; intros y; simpl; [set_solver by lia|].
    destruct (IH (Z.min y a)) as (Hin & Hle & Hall). split_and!.
    - apply elem_of_cons in Hin as [Hin|Hin]; [|set_solver]. rewrite Hin.
      destruct (Z.min_spec y a) as [[_ ->]|[_ ->]]; set_solver.
    - lia.
    - intros z [->|Hz]%elem_of_cons; [lia|auto]. }
  destruct (Hgen x) as (Hin & Hle & Hall). split; [done|]. intros z [->|Hz]%elem_of_cons; auto.
Qed.

(** The effective size exists: it is the default without clients, and with clients the
    minimum in each dimension, which some client reported. *)
Lemma effective_size_spec clients :
  ∃ rows cols, effective_size clients = Some (rows, cols) ∧
  match clients with
  | Some m =>
      if bool_decide (m = ∅) then rows = DEFAULT_ROWS ∧ cols = DEFAULT_COLS
      else (∀ c r k, m !! c = Some (r, k) → rows ≤ r ∧ cols ≤ k)
           ∧ (∃ c k, m !! c = Some (rows, k)) ∧ (∃ c r, m !! c = Some (r, cols))
  | None => rows = DEFAULT_ROWS ∧ cols = DEFAULT_COLS
  end.
Proof.
  destruct clients as [m|]; [|by exists DEFAULT_ROWS, DEFAULT_COLS]. unfold effective_size.
  assert (Hel : ∀ v, v ∈ map snd (map_to_list m) ↔ ∃ c, m !! c = Some v).
  { intros v. rewrite list_elem_of_fmap. split.
    - intros ([c v'] & -> & Hin%elem_of_map_to_list). eauto.
    - intros [c Hc]. exists (c, v). by rewrite elem_of_map_to_list. }
  destruct (map snd (map_to_list m)) as [|v vs] eqn:Hl.
  - exists DEFAULT_ROWS, DEFAULT_COLS. split; [done|]. rewrite bool_decide_true; [done|].
    apply map_empty. intros c. destruct (m !! c) eqn:Hc; [|done]. exfalso. eapply elem_of_nil, Hel. eauto.
  - assert (∃ rows, min_list (map fst (v :: vs)) = Some rows) as [rows Hr] by (simpl; eauto).
    assert (∃ cols, min_list (map snd (v :: vs)) = Some cols) as [cols Hc] by (simpl; eauto).
    exists rows, cols. rewrite Hr, Hc. split; [done|]. rewrite bool_decide_false.
    2:{ intros ->. destruct (proj1 (Hel v)) as [c ?]; [set_solver|done]. }
    apply min_list_spec in Hr as [Hr1 Hr2], Hc as [Hc1 Hc2]. split_and!.
    + intros c r k Hck. assert (Hin : (r, k) ∈ v :: vs) by (apply Hel; eauto).
      split; [apply Hr2|apply Hc2]; apply list_elem_of_fmap; by exists (r, k).
    + apply list_elem_of_fmap in Hr1 as ([r k] & -> & Hin). apply Hel in Hin as [c Hc]. by exists c, k.
    + apply list_elem_of_fmap in Hc1 as ([r k] & -> & Hin). apply Hel in Hin as [c Hc]. by exists c, r.
Qed.

Lemma effective_size_ok vp wid :
  viewports_ok vp → ∃ rows cols, effective_size (vp !! wid) = Some (rows, cols) ∧ size_ok (rows, cols).
Proof.
  intros Hv. destruct (effective_size_spec (vp !! wid)) as (rows & cols & He & Hs). exists rows, cols. split; [done|].
  destruct (vp !! wid) as [m|] eqn:Hm; [case_bool_decide|]; [by destruct Hs as [-> ->]| |by destruct Hs as [-> ->]].
  destruct Hs as (_ & (c & k & Hr) & (c' & r & Hc)). unfold size_ok. simpl.
  destruct (Hv _ _ _ _ _ Hm Hr), (Hv _ _ _ _ _ Hm Hc). done.
Qed.

Lemma set_live_props_ok e r props : inv e → inv (set_props e (<[r := props]> (en_props e))).
Proof.
  intros [H1 H2 [P1 P2 P3] H4 H5]. destruct e. simpl in *. split; simpl; try done. split; [done| |done].
  intros id r' Hid. destruct (P2 id r' Hid) as [? Hs]. split; [done|]. apply lookup_insert_is_Some'. by right.
Qed.

Section Emulators.
Context {T : Type} `{EM : Emulator T}.
Implicit Types (ts : N → T).

Lemma resize_panes_ok e ts resized l e' ts' : resize_panes e ts resized l = Some (e', ts') → inv e → inv e'.
Proof.
  revert e ts. induction l as [|[r rect] l IH]; intros e ts; cbn [resize_panes]; [by intros [= <- <-]|].
  destruct (en_props e !! r) as [props|]; [|apply IH]. destruct (resize_pane _ _ _ _) as [[props' t]|]; [|done]. cbn [mbind option_bind].
  intros H Hi. by eapply IH, set_live_props_ok.
Qed.

(** Every running pane of the window gets at least one row and one column of the size its
    clients leave it. *)
Definition geometry_fits e (wid : Uuid) : Prop :=
  ∀ rows cols sid s w rects id rect r,
    effective_size (en_viewports e !! wid) = Some (rows, cols) → en_sessions e !! sid = Some s → w ∈ s_windows s → w_id w = wid →
    compute_geometry (w_layout w) rows cols = Some rects → (id, rect) ∈ rects → en_panes e !! id = Some (EntryLive r) →
    1 ≤ rect_rows rect ∧ 1 ≤ rect_cols rect.

Lemma resize_panes_returns e ts resized l :
  (∀ r, emulator_ok (ts r)) → Forall (λ p, 1 ≤ rect_rows (snd p) ∧ 1 ≤ rect_cols (snd p)) l →
  ∃ e' ts', resize_panes e ts resized l = Some (e', ts') ∧ ∀ r, emulator_ok (ts' r).
Proof.
  revert e ts. induction l as [|[r rect] l IH]; intros e ts Ht Hl; cbn [resize_panes]; [by eauto|].
  apply Forall_cons in Hl as [[Hr Hc] Hl]. cbn [snd] in *. destruct (en_props e !! r) as [props|]; [|by apply IH].
  assert (Hp : ∃ props' t, resize_pane (resized r) props (ts r) rect = Some (props', t) ∧ emulator_ok t).
  { unfold resize_pane. case_bool_decide; [by eauto|]. destruct (resized r); [|by eauto].
    destruct (vt_set_size_ok (ts r) (Z.min (rect_rows rect) MAX_PANE_ROWS) (Z.min (rect_cols rect) MAX_PANE_COLS)) as (t & -> & Hok);
      [done|unfold MAX_PANE_ROWS; lia|unfold MAX_PANE_COLS; lia|]. cbn [mbind option_bind]. by eauto. }
  destruct Hp as (props' & t & -> & Hok). cbn [mbind option_bind]. apply IH; [|done].
  intros r'. unfold set_emulator. destruct (N.eqb r' r); [done|apply Ht].
Qed.

(** What a recompute does up to the resizing of the panes. *)
Lemma recompute_spec e ts wid resized :
  inv e → ∃ rows cols, effective_size (en_viewports e !! wid) = Some (rows, cols) ∧ size_ok (rows, cols) ∧
    match ix_window_session (en_index e) !! wid with
    | None => recompute_window_geometry e ts wid resized = Some (e, ts, None)
    | Some sid => ∃ s i w rects,
        let w' := mkWindow (w_id w) (w_name w) (w_layout w) rows cols in
        let e1 := set_session e sid (with_windows s (<[i := w']> (s_windows s)) (s_active_window_id s)) in
        en_sessions e !! sid = Some s ∧ s_windows s !! i = Some w ∧ w_id w = wid ∧ window_ok w ∧ inv e1 ∧
        compute_geometry (w_layout w) rows cols = Some rects ∧ map fst rects = leaves (w_layout w) ∧ tiles 0 0 rows cols rects ∧
        recompute_window_geometry e ts wid resized =
          let! (e2, ts2) := resize_panes e1 ts resized (live_pane_rects e rects) in
          Some (persist_session (notify_window_changed e2 wid) sid, ts2, Some (rows, cols))
    end.
Proof.
  intros Hi. unfold recompute_window_geometry.
  destruct (effective_size_ok _ wid (inv_viewports _ Hi)) as (rows & cols & Heff & Hsz). exists rows, cols. rewrite Heff.
  split; [done|]. split; [done|]. cbn [mbind option_bind]. unfold session_for_window.
  destruct (ix_window_session (en_index e) !! wid) as [sid|] eqn:Hw; [|done].
  pose proof (inv_sessions _ Hi) as Hok.
  destruct (proj1 (so_ws _ _ Hok wid sid) Hw) as (s & Hs & Hwid). rewrite Hs.
  apply list_elem_of_fmap in Hwid as (w0 & -> & Hw0). destruct (find_window_in s w0 Hw0) as [[i w] Hf]. rewrite Hf.
  destruct (find_window_Some _ _ _ _ Hf) as [Hiw Hid].
  assert (Hwok : window_ok w) by (eapply (so_window _ _ Hok); [done|]; by eapply list_elem_of_lookup_2).
  assert (Hu : is_u16 rows ∧ is_u16 cols).
  { unfold size_ok, MIN_PANE_ROWS, MAX_PANE_ROWS, MIN_PANE_COLS, MAX_PANE_COLS in Hsz. simpl in Hsz. machine_int. }
  destruct (compute_geometry_ok (w_layout w) rows cols (proj1 Hwok) (proj1 Hu) (proj2 Hu)) as (rects & Hg & Hfst & Ht).
  exists s, i, w, rects. cbv zeta. split_and!; try done.
  - assert (Hso : sessions_ok (<[sid := with_windows s (<[i := mkWindow (w_id w) (w_name w) (w_layout w) rows cols]> (s_windows s)) (s_active_window_id s)]> (en_sessions e)) (en_index e)).
    { apply (sessions_ok_window _ (en_index e) sid s i w); try done.
      - destruct Hwok as (? & ? & _). by split_and!; try apply Hsz.
      - intros p. apply (pw_session _ _ p w sid Hok). unfold old_windows. rewrite Hs. by eapply list_elem_of_lookup_2. }
    destruct Hi as [H1 H2 H3 H4 H5]. destruct e. by split.
  - cbn [w_layout]. rewrite Hg. cbn [mbind option_bind]. unfold live_pane_rects. by destruct e.
Qed.

Lemma recompute_ok e ts wid resized e' ts' r :
  inv e → recompute_window_geometry e ts wid resized = Some (e', ts', r) →
  inv e' ∧ match r with Some sz => size_ok sz | None => ix_window_session (en_index e) !! wid = None end.
Proof.
  intros Hi. destruct (recompute_spec e ts wid resized Hi) as (rows & cols & _ & Hsz & H).
  destruct (ix_window_session _ !! wid) as [sid|]; [|rewrite H; by intros [= <- <- <-]].
  destruct H as (s & i & w & rects & _ & _ & _ & _ & Hi1 & _ & _ & _ & ->).
  destruct (resize_panes _ _ _ _) as [[e2 ts2]|] eqn:Hr; [|done]. cbn [mbind option_bind]. intros [= <- <- <-]. split; [|done].
  eapply inv_same; [apply persist_same|]. eapply inv_same; [apply notify_same|]. by eapply resize_panes_ok.
Qed.

Lemma recompute_returns e ts wid resized :
  inv e → (∀ r, emulator_ok (ts r)) → geometry_fits e wid →
  ∃ e' ts' r, recompute_window_geometry e ts wid resized = Some (e', ts', r) ∧ ∀ r, emulator_ok (ts' r).
Proof.
  intros Hi Ht Hfit. destruct (recompute_spec e ts wid resized Hi) as (rows & cols & Heff & _ & H).
  destruct (ix_window_session _ !! wid) as [sid|]; [|rewrite H; by eauto 6].
  destruct H as (s & i & w & rects & Hs & Hiw & Hid & _ & _ & Hg & _ & _ & ->). cbv zeta.
  match goal with |- context [resize_panes ?e1 ts resized ?l] => destruct (resize_panes_returns e1 ts resized l Ht) as (e2 & ts2 & -> & Hok) end.
  - apply Forall_forall. intros [r rect] Hin. unfold live_pane_rects in Hin. apply list_elem_of_omap in Hin as ([id rect'] & Hin & Hp).
    destruct (en_panes e !! id) as [[r'|]|] eqn:Hpid; simplify_eq. eapply (Hfit rows cols sid s w); eauto. by eapply list_elem_of_lookup_2.
  - cbn [mbind option_bind]. by eauto 6.
Qed.

Lemma clamp_viewport_ok rows cols : size_ok (clamp_viewport rows cols).
Proof. split; apply clamp_bounds; done. Qed.

(** The engine with the viewport a client reports. *)
Definition with_viewport e (wid : Uuid) (c rows cols : Z) : Engine B :=
  set_viewports e (<[wid := <[c := clamp_viewport rows cols]> (default ∅ (en_viewports e !! wid))]> (en_viewports e)).

Lemma with_viewport_view e wid c rows cols : viewports_ok (en_viewports e) → viewports_ok (en_viewports (with_viewport e wid c rows cols)).
Proof.
  intros H5. destruct e. simpl in *. intros wid' m c' r k [[<- <-]|[_ Hm]]%lookup_insert_Some Hc; [|by eapply H5].
  apply lookup_insert_Some in Hc as [[<- Hv]|[_ Hc]].
  - pose proof (clamp_viewport_ok rows cols) as Hsz. rewrite Hv in Hsz. apply Hsz.
  - destruct (en_viewports !! wid) as [m0|] eqn:Hm0; [by eapply H5|done].
Qed.

Lemma with_viewport_ok e wid c rows cols : inv e → inv (with_viewport e wid c rows cols).
Proof.
  intros Hi. pose proof (with_viewport_view e wid c rows cols (inv_viewports _ Hi)) as Hv.
  destruct Hi as [H1 H2 H3 H4 H5]. destruct e. by split.
Qed.

Lemma report_viewport_ok e ts wid c rows cols resized e' ts' r :
  inv e → report_viewport_and_recompute e ts wid c rows cols resized = Some (e', ts', r) →
  inv e' ∧ match r with Some sz => size_ok sz | None => ix_window_session (en_index e) !! wid = None end.
Proof.
  intros Hi H. apply recompute_ok in H; [|by apply with_viewport_ok]. by destruct e.
Qed.
End Emulators.

Lemma unregister_ok e wid c : inv e → inv (unregister_viewport e wid c).
Proof.
  intros [H1 H2 H3 H4 H5]. destruct e. simpl in *. split; simpl; try done.
  intros wid' m c' r k Hm Hc. destruct (decide (wid = wid')) as [<-|Hne].
  - rewrite lookup_alter_eq in Hm. apply fmap_Some in Hm as (m0 & Hm0 & ->).
    apply lookup_delete_Some in Hc as [_ Hc]. by eapply H5.
  - rewrite lookup_alter_ne in Hm by done. by eapply H5.
Qed.

(** *** Loading records at startup *)

Definition record_ids (w : PersistedWindowRecord) : list Uuid := map pp_pane_id (records (pw_layout w)).

(** Registering the restored panes of one window. *)
Lemma restore_fold_ok wid default_policy ids e :
  let e' := foldl (λ e pane_id,
      let e := set_index e (insert_pane (en_index e) pane_id wid) in
      let restored := match en_panes e !! pane_id with Some (EntryDead r) => pp_restart r | _ => None end in
      set_supervision e (register_restored (en_supervision e) pane_id restored default_policy)) e ids in
  NoDup ids → (∀ id, id ∈ ids → refs (en_supervision e) !! id = None) → sv_inv (en_supervision e) →
  en_sessions e' = en_sessions e ∧ en_panes e' = en_panes e ∧ en_viewports e' = en_viewports e ∧ en_props e' = en_props e
  ∧ ix_window_session (en_index e') = ix_window_session (en_index e)
  ∧ (∀ p, ix_pane_window (en_index e') !! p = if bool_decide (p ∈ ids) then Some wid else ix_pane_window (en_index e) !! p)
  ∧ (∀ p, refs (en_supervision e') !! p = if bool_decide (p ∈ ids) then Some None else refs (en_supervision e) !! p)
  ∧ sv_heap (en_supervision e') = sv_heap (en_supervision e) ∧ sv_inv (en_supervision e').
Proof.
  cbn zeta. revert e. induction ids as [|id ids IH]; intros e Hnd Hfr Hsv; cbn [foldl]; [by split_and!|].
  apply NoDup_cons in Hnd as [Hid Hnd].
  set (e1 := set_index e _).
  set (rst := match en_panes e1 !! id with Some (EntryDead r) => pp_restart r | _ => None end).
  set (e2 := set_supervision e1 _).
  assert (Hsup : en_supervision e2 = register_restored (en_supervision e) id rst default_policy) by (unfold e2, e1, rst; by destruct e).
  assert (Hre : refs (en_supervision e2) = <[id := None]> (refs (en_supervision e))) by by rewrite Hsup, refs_restored.
  destruct (IH e2) as (I1&I2&I3&I4&I5&I6&I7&I8&I9); [done| | |].
  { intros x Hx. rewrite Hre, lookup_insert_ne by set_solver. apply Hfr. set_solver. }
  { rewrite Hsup. eapply (sv_step_ok powi); [|done]. constructor.
    pose proof (Hfr id ltac:(set_solver)) as Hn. unfold refs in Hn. rewrite lookup_fmap in Hn.
    by destruct (sv_entries (en_supervision e) !! id). }
  assert (Hpw : ix_pane_window (en_index e2) = <[id := wid]> (ix_pane_window (en_index e))) by (unfold e2, e1; by destruct e).
  split_and!.
  - rewrite I1. unfold e2, e1. by destruct e.
  - rewrite I2. unfold e2, e1. by destruct e.
  - rewrite I3. unfold e2, e1. by destruct e.
  - rewrite I4. unfold e2, e1. by destruct e.
  - rewrite I5. unfold e2, e1. by destruct e.
  - intros p. rewrite I6, Hpw. destruct (decide (p = id)) as [->|Hne].
    + rewrite lookup_insert_eq, (bool_decide_true (id ∈ id :: ids)) by set_solver. by case_bool_decide.
    + rewrite lookup_insert_ne by done. rewrite (bool_decide_ext (p ∈ id :: ids) (p ∈ ids)) by set_solver. done.
  - intros p. rewrite I7, Hre. destruct (decide (p = id)) as [->|Hne].
    + rewrite lookup_insert_eq, (bool_decide_true (id ∈ id :: ids)) by set_solver. by case_bool_decide.
    + rewrite lookup_insert_ne by done. rewrite (bool_decide_ext (p ∈ id :: ids) (p ∈ ids)) by set_solver. done.
  - rewrite I8, Hsup. done.
  - done.
Qed.

(** The effect of loading windows on the panes and the index. *)
Definition loaded e e' (ids : list Uuid) (pw : Uuid → option Uuid) (wids : list Uuid) (sid : Uuid) : Prop :=
  en_sessions e' = en_sessions e ∧ en_viewports e' = en_viewports e ∧ panes_inv e'
  ∧ (∀ wid, ix_window_session (en_index e') !! wid = if bool_decide (wid ∈ wids) then Some sid else ix_window_session (en_index e) !! wid)
  ∧ (∀ p, ix_pane_window (en_index e') !! p = match pw p with Some wid => Some wid | None => ix_pane_window (en_index e) !! p end)
  ∧ (∀ id, is_Some (en_panes e' !! id) ↔ is_Some (en_panes e !! id) ∨ id ∈ ids).

Definition live_window (w : PersistedWindowRecord) : WindowState :=
  mkWindow (pw_id w) (pw_name w) (erase (pw_layout w)) DEFAULT_ROWS DEFAULT_COLS.

Lemma foldl_insert_dead_dom rs panes id :
  is_Some (foldl insert_dead panes rs !! id) ↔ is_Some (panes !! id) ∨ id ∈ map pp_pane_id rs.
Proof.
  revert panes. induction rs as [|r rs IH]; intros panes; cbn [foldl map]; [set_solver|].
  rewrite IH. unfold insert_dead. rewrite lookup_insert_is_Some'. set_solver.
Qed.

Lemma load_window_ok sid policy e w :
  panes_inv e → NoDup (record_ids w) → (∀ id, id ∈ record_ids w → en_panes e !! id = None) →
  snd (load_window sid policy e w) = live_window w
  ∧ loaded e (fst (load_window sid policy e w)) (record_ids w)
      (λ p, if bool_decide (p ∈ record_ids w) then Some (pw_id w) else None) [pw_id w] sid.
Proof.
  intros [Hp Hsv] Hnd Hfr. unfold load_window. rewrite to_live_eq. cbn zeta. cbn [w_id].
  split; [done|]. set (panes' := foldl insert_dead (en_panes e) (records (pw_layout w))). cbn [fst].
  rewrite leaves_erase. fold (record_ids w).
  set (e1 := set_index (set_panes e panes') _).
  assert (Hs1 : en_supervision e1 = en_supervision e) by (unfold e1; by destruct e).
  destruct (restore_fold_ok (pw_id w) policy (record_ids w) e1) as (I1&I2&I3&I4&I5&I6&I7&I8&I9); [done| |by rewrite Hs1|].
  { intros id Hid. rewrite Hs1, (po_ref _ _ _ Hp), Hfr by done. done. }
  cbn zeta in *. set (e2 := foldl _ e1 (record_ids w)) in *. clearbody e2.
  assert (Hpn : en_panes e1 = panes') by (unfold e1; by destruct e).
  assert (Hdead : ∀ id, id ∈ record_ids w → ∃ r, panes' !! id = Some (EntryDead r) ∧ pp_pane_id r = id).
  { intros id Hid. unfold record_ids in Hid. apply list_elem_of_fmap in Hid as (r & -> & Hr). exists r. split; [|done].
    by apply foldl_insert_dead_in. }
  assert (Hkeep : ∀ id, id ∉ record_ids w → panes' !! id = en_panes e !! id) by (intros id Hid; by apply foldl_insert_dead).
  unfold loaded. split_and!.
  - rewrite I1. unfold e1. by destruct e.
  - rewrite I3. unfold e1. by destruct e.
  - split; [|done]. rewrite I2, Hpn. split.
    + intros id. rewrite I7, Hs1. case_bool_decide as Hid.
      * destruct (Hdead id Hid) as (r & -> & _). done.
      * rewrite (Hkeep id Hid). apply (po_ref _ _ _ Hp).
    + intros id r Hid. destruct (decide (id ∈ record_ids w)) as [Hin|Hin].
      * destruct (Hdead id Hin) as (r' & Hr' & _). congruence.
      * rewrite (Hkeep id Hin) in Hid. rewrite I8, I4, Hs1. replace (en_props e1) with (en_props e) by (unfold e1; by destruct e).
        by apply (po_live _ _ _ Hp).
    + intros id rec Hid. destruct (decide (id ∈ record_ids w)) as [Hin|Hin].
      * destruct (Hdead id Hin) as (r' & Hr' & <-). congruence.
      * rewrite (Hkeep id Hin) in Hid. by apply (po_dead _ _ _ Hp).
  - intros wid. rewrite I5. replace (ix_window_session (en_index e1)) with (<[pw_id w := sid]> (ix_window_session (en_index e))) by (unfold e1; by destruct e).
    case_bool_decide as Hw.
    + apply list_elem_of_singleton in Hw as ->. by rewrite lookup_insert_eq.
    + rewrite lookup_insert_ne; [done|set_solver].
  - intros p. rewrite I6. replace (ix_pane_window (en_index e1)) with (ix_pane_window (en_index e)) by (unfold e1; by destruct e).
    by case_bool_decide.
  - intros id. rewrite I2, Hpn. apply foldl_insert_dead_dom.
Qed.

(** The window that owns a pane id among records. *)
Fixpoint window_of_pane (ws : list PersistedWindowRecord) (p : Uuid) : option Uuid :=
  match ws with
  | [] => None
  | w :: ws => match window_of_pane ws p with
               | Some wid => Some wid
               | None => if bool_decide (p ∈ record_ids w) then Some (pw_id w) else None
               end
  end.

Lemma load_windows_ok sid policy ws e :
  panes_inv e → NoDup (flat_map record_ids ws) → (∀ id, id ∈ flat_map record_ids ws → en_panes e !! id = None) →
  snd (load_windows sid policy e ws) = map live_window ws
  ∧ loaded e (fst (load_windows sid policy e ws)) (flat_map record_ids ws) (window_of_pane ws) (map pw_id ws) sid.
Proof.
  revert e. induction ws as [|w ws IH]; intros e Hp Hnd Hfr; simpl.
  { split; [done|]. unfold loaded. split_and!; try done. set_solver. }
  cbn [flat_map] in Hnd, Hfr. apply NoDup_app in Hnd as (Hnd1 & Hdis & Hnd2).
  destruct (load_window_ok sid policy e w Hp Hnd1) as (Hw & L1&L2&L3&L4&L5&L6); [intros; apply Hfr; set_solver|].
  destruct (load_window sid policy e w) as [e1 window]. cbn [fst snd] in *.
  destruct (IH e1 L3 Hnd2) as (Hws & M1&M2&M3&M4&M5&M6).
  { intros id Hid. apply eq_None_not_Some. rewrite L6, Hfr by set_solver.
    intros [[? ?]|Hin]; [done|]. by apply (Hdis id). }
  destruct (load_windows sid policy e1 ws) as [e2 windows]. cbn [fst snd] in *.
  split; [by rewrite Hw, Hws|]. unfold loaded. split_and!; try congruence; try done.
  - intros wid. rewrite M4, L4. cbn [map]. repeat case_bool_decide; set_solver.
  - intros p. rewrite M5, L5. by destruct (window_of_pane ws p); [|case_bool_decide].
  - intros id. rewrite M6, L6. set_solver.
Qed.

(** Records that can be loaded together: ids are distinct, every session has its active
    window, and the layouts are well formed. *)
Definition record_ok (r : PersistedSessionRecord) : Prop :=
  ps_active_window_id r ∈ map pw_id (ps_windows r) ∧ ∀ w, w ∈ ps_windows r → wf_layout (erase (pw_layout w)) = true.

Definition records_ok (rs : list PersistedSessionRecord) : Prop :=
  NoDup (map ps_session_id rs) ∧ NoDup (flat_map (λ r, map pw_id (ps_windows r)) rs)
  ∧ NoDup (flat_map (λ r, flat_map record_ids (ps_windows r)) rs) ∧ ∀ r, r ∈ rs → record_ok r.

Lemma window_of_pane_Some ws p wid :
  window_of_pane ws p = Some wid → ∃ w, w ∈ ws ∧ pw_id w = wid ∧ p ∈ record_ids w.
Proof.
  induction ws as [|w ws IH]; cbn [window_of_pane]; [done|].
  destruct (window_of_pane ws p) as [x|].
  - intros [= ->]. destruct (IH eq_refl) as (w' & ? & ? & ?). exists w'. set_solver.
  - case_bool_decide; [|done]. intros [= <-]. exists w. set_solver.
Qed.

Lemma window_of_pane_in ws p w :
  NoDup (flat_map record_ids ws) → w ∈ ws → p ∈ record_ids w → window_of_pane ws p = Some (pw_id w).
Proof.
  induction ws as [|w' ws IH]; cbn [flat_map window_of_pane]; intros Hnd Hin Hp; [by apply elem_of_nil in Hin|].
  apply NoDup_app in Hnd as (_ & Hdis & Hnd). apply elem_of_cons in Hin as [->|Hin]; [|by rewrite IH].
  destruct (window_of_pane ws p) as [x|] eqn:Ho; [|by rewrite bool_decide_true].
  apply window_of_pane_Some in Ho as (w2 & Hw2 & _ & Hp2). exfalso. apply (Hdis p Hp).
  rewrite list_elem_of_In, in_flat_map. exists w2. by rewrite <-!list_elem_of_In.
Qed.

(** The ids of a record are unknown to the engine. *)
Definition fresh_record e (r : PersistedSessionRecord) : Prop :=
  en_sessions e !! ps_session_id r = None
  ∧ (∀ wid, wid ∈ map pw_id (ps_windows r) → ix_window_session (en_index e) !! wid = None)
  ∧ (∀ id, id ∈ flat_map record_ids (ps_windows r) → en_panes e !! id = None).

Lemma elem_live_window w ws :
  w ∈ map live_window ws → ∃ r, r ∈ ws ∧ w = live_window r ∧ w_id w = pw_id r ∧ leaves (w_layout w) = record_ids r.
Proof. intros (r & -> & Hr)%list_elem_of_fmap. exists r. split_and!; try done. apply leaves_erase. Qed.

Lemma record_ids_NoDup ws x : NoDup (flat_map record_ids ws) → x ∈ ws → NoDup (record_ids x).
Proof.
  intros Hnd Hx. induction ws as [|y ys IH]; [by apply elem_of_nil in Hx|].
  cbn [flat_map] in Hnd. apply NoDup_app in Hnd as (? & _ & ?). apply elem_of_cons in Hx as [->|Hx]; auto.
Qed.

Lemma window_of_pane_None ws id :
  NoDup (flat_map record_ids ws) → window_of_pane ws id = None ↔ id ∉ flat_map record_ids ws.
Proof.
  intros Hnd. rewrite list_elem_of_In, in_flat_map. setoid_rewrite <-list_elem_of_In. split.
  - intros Ho (w & Hw & Hp). by rewrite (window_of_pane_in _ id w Hnd Hw Hp) in Ho.
  - intros Hn. destruct (window_of_pane _ _) eqn:Ho; [|done]. destruct Hn.
    apply window_of_pane_Some in Ho as (w & ? & _ & ?). eauto.
Qed.

Lemma load_record_ok e r :
  inv e → record_ok r → fresh_record e r → NoDup (map pw_id (ps_windows r)) → NoDup (flat_map record_ids (ps_windows r)) →
  inv (load_record e r)
  ∧ (∀ sid, is_Some (en_sessions (load_record e r) !! sid) ↔ is_Some (en_sessions e !! sid) ∨ sid = ps_session_id r)
  ∧ (∀ wid, is_Some (ix_window_session (en_index (load_record e r)) !! wid) ↔
       is_Some (ix_window_session (en_index e) !! wid) ∨ wid ∈ map pw_id (ps_windows r))
  ∧ (∀ id, is_Some (en_panes (load_record e r) !! id) ↔
       is_Some (en_panes e !! id) ∨ id ∈ flat_map record_ids (ps_windows r)).
Proof.
  intros Hi [Hact Hwf] (Fs & Fw & Fp) Hndw Hndp. unfold load_record.
  set (policy := default policy_default (ps_default_restart_policy r)).
  destruct (load_windows_ok (ps_session_id r) policy (ps_windows r) e) as (Hws & L1&L2&L3&L4&L5&L6);
    [split; apply Hi|done|done|].
  destruct (load_windows _ _ _ _) as [e1 windows]. cbn [fst snd] in *. subst windows.
  set (s := mkSession _ _ _ _ _). pose proof (inv_sessions _ Hi) as Hok.
  assert (Hids : map w_id (map live_window (ps_windows r)) = map pw_id (ps_windows r)) by (rewrite map_map; done).
  assert (Hso : sessions_ok (<[ps_session_id r := s]> (en_sessions e)) (en_index e1)).
  { apply (sessions_ok_put _ (en_index e)); try done; unfold s; simpl; rewrite ?Hids; try done.
    - intros w (x & Hx & -> & _ & Hl)%elem_live_window. unfold window_ok. split_and!; [by apply Hwf| |done..].
      rewrite Hl. by eapply record_ids_NoDup.
    - intros wid x. rewrite L4. case_bool_decide as Hw.
      + rewrite (Fw wid Hw). naive_solver.
      + destruct (decide (x = ps_session_id r)) as [->|]; [|naive_solver].
        split; [|naive_solver]. intros Hx. apply (so_ws _ _ Hok) in Hx as (? & ? & _). congruence.
    - intros p wid. rewrite L5. unfold session_windows. rewrite Fs.
      destruct (window_of_pane (ps_windows r) p) as [x|] eqn:Ho.
      + destruct (window_of_pane_Some _ _ _ Ho) as (w & Hw & <- & Hp). split.
        * intros [= <-]. right. exists (live_window w). split_and!; [by apply list_elem_of_fmap; eauto|done|].
          unfold live_window. cbn [w_layout]. by rewrite leaves_erase.
        * intros [[_ Hpw]|(w2 & (y & Hy & -> & Hid & Hl)%elem_live_window & <- & Hp2)].
          -- exfalso. assert (en_panes e !! p = None) as Hn.
             { apply Fp. rewrite list_elem_of_In, in_flat_map. exists w. by rewrite <-!list_elem_of_In. }
             destruct (proj1 (inv_dom _ Hi p)) as [? ?]; [eauto|congruence].
          -- rewrite Hl in Hp2. rewrite (window_of_pane_in _ p y Hndp Hy Hp2) in Ho. by injection Ho as <-.
      + split; [set_solver|]. intros [[_ ?]|(w2 & (y & Hy & -> & Hid & Hl)%elem_live_window & <- & Hp2)]; [done|].
        rewrite Hl in Hp2. rewrite (window_of_pane_in _ p y Hndp Hy Hp2) in Ho. done. }
  assert (Q : en_sessions (set_session e1 (ps_session_id r) s) = <[ps_session_id r := s]> (en_sessions e)
    ∧ en_index (set_session e1 (ps_session_id r) s) = en_index e1 ∧ en_panes (set_session e1 (ps_session_id r) s) = en_panes e1
    ∧ en_supervision (set_session e1 (ps_session_id r) s) = en_supervision e1
    ∧ en_props (set_session e1 (ps_session_id r) s) = en_props e1 ∧ en_viewports (set_session e1 (ps_session_id r) s) = en_viewports e).
  { rewrite <-L1, <-L2. by destruct e1. }
  destruct Q as (Q1&Q2&Q3&Q4&Q5&Q6).
  pose proof (λ id, window_of_pane_None (ps_windows r) id Hndp) as Hpw.
  split_and!.
  - split; rewrite ?Q1, ?Q2, ?Q3, ?Q4, ?Q5, ?Q6; try done; [|apply L3|apply L3|apply (inv_viewports _ Hi)].
    intros id. rewrite L5, L6. destruct (window_of_pane (ps_windows r) id) eqn:Ho.
    + split; [|done]. intros _. right. apply dec_stable. rewrite <-Hpw. congruence.
    + apply Hpw in Ho. rewrite (inv_dom _ Hi). naive_solver.
  - intros sid. rewrite Q1, lookup_insert_is_Some'. naive_solver.
  - intros wid. rewrite Q2, L4. case_bool_decide; [|naive_solver]. split; [by right|done].
  - intros id. by rewrite Q3, L6.
Qed.

Lemma load_persisted_ok e rs :
  inv e → records_ok rs → (∀ r, r ∈ rs → fresh_record e r) → inv (load_persisted e rs).
Proof.
  unfold load_persisted. revert e. induction rs as [|r rs IH]; intros e Hi (Hs & Hw & Hp & Hok) Hfr; [done|].
  cbn [foldl map flat_map] in *. apply NoDup_cons in Hs as [Hs1 Hs]. apply NoDup_app in Hw as (Hw1 & Hw2 & Hw), Hp as (Hp1 & Hp2 & Hp).
  destruct (load_record_ok e r Hi) as (Hi' & Ds & Dw & Dp); [apply Hok; set_solver|apply Hfr; set_solver|done|done|].
  apply IH; [done| |].
  { split_and!; try done. intros r' Hr'. apply Hok. set_solver. }
  intros r' Hr'. destruct (Hfr r') as (F1 & F2 & F3); [set_solver|]. split_and!.
  - apply eq_None_not_Some. rewrite Ds, F1. intros [[? ?]|He]; [done|]. apply Hs1. rewrite <-He.
    apply list_elem_of_fmap. eauto.
  - intros wid Hwid. apply eq_None_not_Some. rewrite Dw, F2 by done. intros [[? ?]|He]; [done|].
    apply (Hw2 wid He). rewrite list_elem_of_In, in_flat_map. exists r'. by rewrite <-!list_elem_of_In.
  - intros id Hid. apply eq_None_not_Some. rewrite Dp, F3 by done. intros [[? ?]|He]; [done|].
    apply (Hp2 id He). rewrite list_elem_of_In, in_flat_map. exists r'. by rewrite <-!list_elem_of_In.
Qed.

(** ** The system: engine calls interleaved with the reader threads of the panes *)

Inductive reader_event : Supervision → Supervision → Prop :=
| Rd_reap s r p code :
    sv_heap s !! r = Some p → p_reader p = RReading → reader_event s (set_pane s r (reader_reap p code))
| Rd_hook s r p call s' p' now unit :
    sv_heap s !! r = Some p → p_reader p = RReaped call →
    s' = (if call then fst (account_exit powi s r (p_exit_code p) now unit) else s) →
    sv_heap s' !! r = Some p' → reader_event s (set_pane s' r (reader_hooked p'))
| Rd_publish s r p :
    sv_heap s !! r = Some p → p_reader p = RHooked → reader_event s (set_pane s r (reader_publish p)).

Lemma reader_event_quiet s s' : reader_event s s' → quiet s s'.
Proof.
  destruct 1 as [s r p code Hp Hr|s r p call s' p' now unit Hp Hr Hs Hp'|s r p Hp Hr]; apply quiet_step.
  - by constructor.
  - done.
  - by eapply Sv_hook.
  - change (refs s' = refs s). subst s'. destruct call; [apply refs_account_exit|done].
  - by constructor.
  - done.
Qed.

(** One operation of the engine, or one step of a reader thread. Ids and references drawn
    by an operation are new. *)
Inductive engine_step : Engine B → Engine B → Prop :=
| En_create e name command launch cwd policy spawned wid sid t :
    (∀ sp, spawned = Some sp → fresh_spawn e sp) →
    ix_window_session (en_index e) !! wid = None → en_sessions e !! sid = None →
    engine_step e (fst (create_session_supervised powi default_shell e name command launch cwd policy spawned wid sid t))
| En_window e sid command spawned wid t :
    (∀ sp, spawned = Some sp → fresh_spawn e sp) → ix_window_session (en_index e) !! wid = None →
    engine_step e (fst (create_window powi default_shell e sid command spawned wid t))
| En_kill e sid : engine_step e (fst (kill_session e sid))
| En_split e pid o command spawned t e' r :
    (∀ sp, spawned = Some sp → fresh_spawn e sp) →
    split_pane powi default_shell e pid o command spawned t = Some (e', r) → engine_step e e'
| En_close e pid e' r : close_pane e pid = Some (e', r) → engine_step e e'
| En_revive e sid env :
    (∀ s, en_sessions e !! sid = Some s → revive_fresh env (s_default_restart_policy s) (e, 0%nat) (revive_ids e s)) →
    engine_step e (fst (revive_session powi e sid env))
| En_start e pid spawned respawned t :
    (∀ sp, spawned = Ok sp → sv_heap (en_supervision e) !! sp_ref sp = None) →
    engine_step e (fst (start_pane powi e pid spawned respawned t))
| En_restart e pid reset sent spawned respawned t :
    (∀ sp, spawned = Ok sp → sv_heap (en_supervision e) !! sp_ref sp = None) →
    engine_step e (fst (restart_pane powi e pid reset sent spawned respawned t))
| En_stop e pid sent now : engine_step e (fst (stop_pane e pid sent now))
| En_reset e pid : engine_step e (fst (reset_restart_budget e pid))
| En_policy e pid policy now : engine_step e (fst (set_restart_policy e pid policy now))
| En_session_policy e sid policy all now : engine_step e (fst (set_session_restart_policy e sid policy all now))
| En_tick e spawned unit now : engine_step e (fst (supervise_tick powi e spawned unit now))
| En_viewport T (EM : Emulator T) e ts wid c rows cols resized e' ts' r :
    report_viewport_and_recompute e ts wid c rows cols resized = Some (e', ts', r) → engine_step e e'
| En_recompute T (EM : Emulator T) e ts wid resized e' ts' r :
    recompute_window_geometry e ts wid resized = Some (e', ts', r) → engine_step e e'
| En_unregister e wid c : engine_step e (unregister_viewport e wid c)
| En_client e : engine_step e (fst (new_client_id e))
| En_watch e wid : engine_step e (watch_window e wid)
| En_reader e sup' : reader_event (en_supervision e) sup' → engine_step e (set_supervision e sup').

Lemma engine_step_ok e e' : engine_step e e' → inv e → inv e'.
Proof.
  destruct 1 as [| | |e pid o command spawned t e' r Hf Hs|e pid e' r Hc| | | | | | | | |T EM e ts wid c rows cols resized e' ts' r Hv
    |T EM e ts wid resized e' ts' r Hv| | | |e sup' Hr]; intros Hi.
  - by apply create_session_ok.
  - by apply create_window_ok.
  - by apply kill_session_ok.
  - destruct (split_pane_ok e pid o command spawned t Hi Hf) as (e2 & r2 & He & Hi2). rewrite Hs in He. by simplify_eq.
  - destruct (close_pane_ok e pid Hi) as (e2 & r2 & He & Hi2). rewrite Hc in He. by simplify_eq.
  - by apply revive_session_ok.
  - by apply start_pane_ok.
  - by apply restart_pane_ok.
  - by apply stop_pane_ok.
  - by apply reset_restart_budget_ok.
  - by apply set_restart_policy_ok.
  - by apply set_session_restart_policy_ok.
  - by apply supervise_tick_ok.
  - by eapply report_viewport_ok.
  - by eapply recompute_ok.
  - by apply unregister_ok.
  - eapply inv_same; [|exact Hi]. by destruct e.
  - eapply inv_same; [|exact Hi]. unfold watch_window. destruct (en_watchers e !! wid); by destruct e.
  - apply inv_quiet; [done|by apply reader_event_quiet].
Qed.

Lemma inv_new (b : B) : inv (engine_new b).
Proof.
  split; simpl.
  - split; simpl; try done; intros; (split; [done|]); intros; by destruct_and?; naive_solver.
  - intros id. split; by intros [? ?].
  - by split.
  - by split.
  - done.
Qed.

(** A state the daemon can be in: started on some records, after any operations. *)
Definition reachable (b : B) e : Prop :=
  ∃ rs, records_ok rs ∧ rtc engine_step (load_persisted (engine_new b) rs) e.

Lemma reachable_inv b e : reachable b e → inv e.
Proof.
  intros (rs & Hrs & Hst). assert (H0 : inv (load_persisted (engine_new b) rs)).
  { apply load_persisted_ok; [apply inv_new|done|]. by intros r _. }
  induction Hst as [|x y z Hxy _ IH]; [done|]. by eapply IH, engine_step_ok.
Qed.

End Invariant.
