(* ===== verification/EngineProps.v ===== *)
(** * What the engine guarantees

    The properties of the operations of [Engine.v], proved from the invariant of
    [EngineInv.v]: consistency in every reachable state, no panic in an operation that runs
    alone, the geometry applied by a resize, the two ways of taking snapshots, killing,
    reviving, and closing a pane that was split off. The last section runs the engine on
    concrete inputs: the witnesses, and three schedules in which the code does not do what
    it means to. *)

From S2P Require Import Prelude Float Layout Restart TermQuery Supervision Launch Persistence Engine EngineInv.

Section Properties.
Context {B : Type} `{BK : PersistenceBackend B} (powi : spec_float → Z → spec_float) (default_shell : list Z).
Implicit Types (e : Engine B).

(** ** Lemmas *)

(** Two live entries never share a pane. *)
Lemma live_ref_inj e id id' r :
  inv e → en_panes e !! id = Some (EntryLive r) → en_panes e !! id' = Some (EntryLive r) → id = id'.
Proof.
  intros Hi H1 H2. destruct (po_live _ _ _ (inv_panes _ Hi) _ _ H1) as [(p & Hp & <-) _].
  destruct (po_live _ _ _ (inv_panes _ Hi) _ _ H2) as [(q & Hq & <-) _]. congruence.
Qed.

Lemma live_pane_rects_elem e rects r rect :
  (r, rect) ∈ live_pane_rects e rects ↔ ∃ id, (id, rect) ∈ rects ∧ en_panes e !! id = Some (EntryLive r).
Proof.
  unfold live_pane_rects. rewrite list_elem_of_omap. split.
  - intros ([id rect'] & Hin & He). destruct (en_panes e !! id) as [[]|] eqn:Hid; simplify_eq. eauto.
  - intros (id & Hin & Hid). exists (id, rect). by rewrite Hid.
Qed.

Lemma live_pane_rects_NoDup e rects :
  inv e → NoDup (map fst rects) → NoDup (map fst (live_pane_rects e rects)).
Proof.
  intros Hi. induction rects as [|[id rect] rects IH]; cbn [map fst]; [constructor|].
  intros [Hid Hnd]%NoDup_cons. specialize (IH Hnd).
  change (live_pane_rects e ((id, rect) :: rects)) with
    (match match en_panes e !! id with Some (EntryLive r) => Some (r, rect) | _ => None end with
     | Some y => y :: live_pane_rects e rects | None => live_pane_rects e rects end).
  destruct (en_panes e !! id) as [[r|]|] eqn:He; [|done|done]. cbn [map fst]. constructor; [|done].
  intros ([r' rect'] & Hr & Hin)%list_elem_of_fmap. cbn [fst] in Hr. subst r'.
  apply live_pane_rects_elem in Hin as (id' & Hin & He').
  assert (id' = id) as -> by by eapply live_ref_inj. apply Hid, list_elem_of_fmap. by exists (id, rect').
Qed.

Section Resizing.
Context {T : Type} `{EM : Emulator T}.
Implicit Types (ts : N → T).

Lemma resize_panes_frame e ts resized l e' ts' :
  resize_panes e ts resized l = Some (e', ts') → en_sessions e' = en_sessions e ∧ en_panes e' = en_panes e.
Proof.
  revert e ts. induction l as [|[r rect] l IH]; intros e ts; cbn [resize_panes]; [by intros [= <- <-]|].
  destruct (en_props e !! r) as [props|]; [|apply IH]. destruct (resize_pane _ _ _ _) as [[props' t]|]; [|done]. cbn [mbind option_bind].
  intros [-> ->]%IH. by destruct e.
Qed.

Lemma resize_panes_other e ts resized l e' ts' r :
  resize_panes e ts resized l = Some (e', ts') → r ∉ map fst l → en_props e' !! r = en_props e !! r ∧ ts' r = ts r.
Proof.
  revert e ts. induction l as [|[r' rect'] l IH]; intros e ts; cbn [resize_panes map fst]; [by intros [= <- <-]|].
  rewrite not_elem_of_cons. destruct (en_props e !! r') as [props|]; [|intros H [_ Hr]; by eapply IH].
  destruct (resize_pane _ _ _ _) as [[props' t]|]; [|done]. cbn [mbind option_bind]. intros H [Hne Hr].
  destruct (IH _ _ H Hr) as [-> ->]. unfold set_emulator. destruct e. cbn. rewrite lookup_insert_ne by done.
  by destruct (N.eqb_spec r r').
Qed.

(** A pane of the list is resized once. *)
Lemma resize_panes_one e ts resized l e' ts' r rect p :
  resize_panes e ts resized l = Some (e', ts') → NoDup (map fst l) → (r, rect) ∈ l → en_props e !! r = Some p →
  ∃ p' t, resize_pane (resized r) p (ts r) rect = Some (p', t) ∧ en_props e' !! r = Some p' ∧ ts' r = t.
Proof.
  revert e ts. induction l as [|[r' rect'] l IH]; intros e ts; cbn [resize_panes map fst]; [by intros _ _ ?%elem_of_nil|].
  intros H Hnd Hin Hp. apply NoDup_cons in Hnd as [Hr Hnd]. apply elem_of_cons in Hin as [[= <- <-]|Hin].
  - rewrite Hp in H. destruct (resize_pane _ _ _ _) as [[p' t]|]; [|done]. cbn [mbind option_bind] in H. exists p', t. split; [done|].
    destruct (resize_panes_other _ _ _ _ _ _ r H Hr) as [-> ->]. unfold set_emulator. rewrite N.eqb_refl. destruct e. cbn.
    by rewrite lookup_insert_eq.
  - assert (Hne : r ≠ r') by (intros ->; apply Hr, list_elem_of_fmap; by exists (r', rect)).
    destruct (en_props e !! r') as [props|] eqn:Hp'; [|by eapply IH].
    destruct (resize_pane _ _ _ _) as [[p' t]|]; [|done]. cbn [mbind option_bind] in H.
    destruct (IH _ _ H Hnd Hin) as (p2 & t2 & H2 & H3 & H4); [destruct e; cbn in *; by rewrite lookup_insert_ne|].
    unfold set_emulator in H2. rewrite (proj2 (N.eqb_neq r r') Hne) in H2. by exists p2, t2.
Qed.

(** The size is taken, by the record and by the emulator, or nothing changes. *)
Lemma resize_pane_spec resized p t rect p' t' :
  rect_rows rect ≤ MAX_PANE_ROWS → rect_cols rect ≤ MAX_PANE_COLS → emulator_size t = pr_size p →
  resize_pane resized p t rect = Some (p', t') →
  if resized then pr_size p' = (rect_rows rect, rect_cols rect) ∧ emulator_size t' = (rect_rows rect, rect_cols rect) else p' = p ∧ t' = t.
Proof.
  intros Hr Hc Hs. unfold resize_pane. rewrite !Z.min_l by done. case_bool_decide as E.
  - intros [= <- <-]. destruct resized; [|done]. by rewrite Hs.
  - destruct resized; [|by intros [= <- <-]]. destruct (vt_set_size _ _ _) as [t2|] eqn:H; [|done]. cbn [mbind option_bind].
    intros [= <- <-]. split; [done|]. by eapply vt_set_size_size.
Qed.
End Resizing.

(** ** Properties *)

(** C1. Consistency between calls. As long as no two calls of the engine overlap - each runs to
    its end before the next begins, in any order, with the reader threads anywhere in between -
    in every state the engine reaches a pane id is a leaf of a window exactly if the engine
    holds an entry for it, exactly if supervision holds one for the same pane; the reverse
    index gives exactly that window and its session; layouts are well formed without repeated
    panes; and every window's size is within the limits. *)
Theorem engine_consistent b e :
  reachable powi default_shell b e →
  inv e
  ∧ (∀ pid, is_Some (en_panes e !! pid) ↔
       ∃ sid s w, en_sessions e !! sid = Some s ∧ w ∈ s_windows s ∧ pid ∈ leaves (w_layout w)
         ∧ window_and_session_for_pane e pid = Ok (w_id w, sid))
  ∧ (∀ pid, is_Some (sv_entries (en_supervision e) !! pid) ↔ is_Some (en_panes e !! pid)).
Proof.
  intros Hi%reachable_inv. pose proof (inv_sessions _ Hi) as Hok. split_and!; [done| |].
  - intros pid. rewrite <-(inv_dom _ Hi). split.
    + intros [wid Hp]. destruct (proj1 (so_pw _ _ Hok _ _) Hp) as (sid & s & w & Hs & Hw & <- & Hin).
      exists sid, s, w. split_and!; try done.
      unfold window_and_session_for_pane, window_for_pane, session_for_window. rewrite Hp. simpl.
      rewrite (proj2 (so_ws _ _ Hok (w_id w) sid)); [done|]. exists s. eauto using elem_window_id.
    + intros (sid & s & w & Hs & Hw & Hin & _). exists (w_id w). apply (so_pw _ _ Hok). eauto 7.
  - intros pid. pose proof (po_ref _ _ _ (inv_panes _ Hi) pid) as Hr. unfold refs in Hr. rewrite lookup_fmap in Hr.
    destruct (sv_entries _ !! pid), (en_panes e !! pid); simpl in Hr; try done; by split; eauto.
Qed.

(** No operation that runs alone panics: in every reachable state splitting and closing a
    pane return a result, and so does recomputing a window's geometry for any reported
    viewport that leaves every running pane at least one row and one column. *)
Theorem operations_alone_return {T} `{EM : Emulator T} b e (ts : N → T) pid o command spawned t wid c rows cols resized :
  reachable powi default_shell b e → (∀ sp, spawned = Some sp → fresh_spawn e sp) → (∀ r, emulator_ok (ts r)) →
  geometry_fits (with_viewport e wid c rows cols) wid →
  is_Some (split_pane powi default_shell e pid o command spawned t)
  ∧ is_Some (close_pane e pid)
  ∧ ∃ e' ts' r, report_viewport_and_recompute e ts wid c rows cols resized = Some (e', ts', r)
            ∧ match r with Some sz => size_ok sz | None => ix_window_session (en_index e) !! wid = None end.
Proof.
  intros Hi%reachable_inv Hf Ht Hfit. split_and!.
  - destruct (split_pane_ok powi default_shell e pid o command spawned t Hi Hf) as (e' & r & -> & _). done.
  - destruct (close_pane_ok powi e pid Hi) as (e' & r & -> & _). done.
  - destruct (recompute_returns (with_viewport e wid c rows cols) ts wid resized) as (e' & ts' & r & H & _); [by apply with_viewport_ok|done|done|].
    exists e', ts', r. split; [exact H|]. by destruct (report_viewport_ok e ts wid c rows cols resized e' ts' r Hi H).
Qed.


(** *** Snapshots *)

Lemma handle_layout view sup n panes :
  handle_to_layout_snapshot view sup (layout_to_handle n panes) = layout_to_snapshot view sup n panes.
Proof.
  revert n. apply layout_node_ind.
  - intros id. simpl. by destruct (panes !! id) as [[]|].
  - intros o cs Hcs. cbn [layout_to_handle handle_to_layout_snapshot layout_to_snapshot]. f_equal. rewrite map_map.
    induction Hcs as [|[c r] cs Hc Hcs IH]; [done|]. cbn [map fst snd] in *. by rewrite Hc, IH.
Qed.

(** Listing sessions in two phases, first resolving handles under the locks and then
    reading the panes without them, gives what one pass under the locks gives when nothing
    changes in between: every session once, with the same tree, sizes and liveness. *)
Theorem list_sessions_two_phase e :
  list_sessions e =
  map (λ s, session_to_snapshot (pane_view e) (en_supervision e) s (en_panes e)) (map snd (map_to_list (en_sessions e))).
Proof.
  unfold list_sessions, session_handles. rewrite map_map. apply map_ext. intros s.
  unfold handle_snapshot, session_to_snapshot. cbn [sh_windows sh_id sh_name]. rewrite map_map.
  assert (Hw : map (λ w, mkWindowSnapshot (w_id w) (w_name w)
      (handle_to_layout_snapshot (pane_view e) (en_supervision e) (layout_to_handle (w_layout w) (en_panes e)))) (s_windows s)
    = map (λ w, mkWindowSnapshot (w_id w) (w_name w) (layout_to_snapshot (pane_view e) (en_supervision e) (w_layout w) (en_panes e))) (s_windows s)).
  { apply map_ext. intros w. by rewrite handle_layout. }
  cbn [wh_id wh_name wh_layout]. by rewrite Hw.
Qed.

(** *** Killing *)

(** Killing a session takes all of it and nothing else: its panes are unknown to lookups,
    to the index and to supervision (so none of them can be restarted), its windows are gone,
    and every pane of another session is held exactly as before. *)
Theorem kill_session_removes e sid s e' :
  inv e → en_sessions e !! sid = Some s → kill_session e sid = (e', Ok tt) →
  en_sessions e' = delete sid (en_sessions e)
  ∧ (∀ pid, pid ∈ session_panes s → pane_lookup e' pid = LookupUnknown
       ∧ window_and_session_for_pane e' pid = Err (EPaneNotFound pid) ∧ sv_entries (en_supervision e') !! pid = None)
  ∧ (∀ pid, pid ∉ session_panes s → en_panes e' !! pid = en_panes e !! pid).
Proof.
  intros Hi Hs Hk. pose proof (kill_session_ok powi e sid Hi) as Hi'. rewrite Hk in Hi'. cbn [fst] in Hi'.
  unfold kill_session in Hk. rewrite Hs in Hk. injection Hk as Hk.
  set (e1 := set_index _ _) in Hk.
  assert (Hp1 : panes_inv e1) by (destruct Hi; by destruct e).
  destruct (drop_panes_ok powi e1 (session_panes s) Hp1) as (_ & (F1&_) & Hpanes).
  assert (Hpn : en_panes e' = delete_all (session_panes s) (en_panes e)).
  { rewrite <-Hk. replace (en_panes e) with (en_panes e1) by (unfold e1; by destruct e). rewrite <-Hpanes. by destruct (foldl drop_pane e1 _). }
  assert (Hlk : ∀ pid, en_panes e' !! pid = if bool_decide (pid ∈ session_panes s) then None else en_panes e !! pid).
  { intros pid. rewrite Hpn. apply lookup_delete_all. }
  split_and!.
  - rewrite <-Hk. transitivity (en_sessions (foldl drop_pane e1 (session_panes s))); [by destruct (foldl drop_pane e1 _)|].
    rewrite F1. unfold e1. by destruct e.
  - intros pid Hin. specialize (Hlk pid). rewrite bool_decide_true in Hlk by done. split_and!.
    + unfold pane_lookup. by rewrite Hlk.
    + unfold window_and_session_for_pane, window_for_pane. by rewrite (index_fresh e' pid Hi' Hlk).
    + by eapply entries_none; [apply (inv_panes _ Hi')|].
  - intros pid Hin. rewrite Hlk. by rewrite bool_decide_false.
Qed.

(** *** Reviving *)

(** A revive that does not revive changes nothing: when a pane still runs, when the
    session is unknown, when every pane was stopped or gave up, or when any launch cannot be
    resolved any more, the engine is left exactly as it was; and in particular a revive with
    a running pane never starts a second process. *)
Theorem revive_refusals_change_nothing e sid env e' r :
  revive_session powi e sid env = (e', r) → (∀ n, r ≠ Ok (Revived n)) →
  e' = e
  ∧ (r = Ok AlreadyLive ↔ ∃ s, en_sessions e !! sid = Some s ∧ ∃ pid, pid ∈ session_panes s ∧ entry_running e pid = true).
Proof.
  unfold revive_session. destruct (en_sessions e !! sid) as [s|] eqn:Hs.
  2:{ intros [= <- <-] _. split; [done|]. split; [done|]. by intros (s & ? & _). }
  destruct (existsb (entry_running e) (session_panes s)) eqn:Hx.
  { intros [= <- <-] _. split; [done|]. split; [|done]. intros _. exists s. split; [done|].
    apply existsb_exists in Hx as (pid & Hin & Hr). exists pid. by rewrite list_elem_of_In. }
  assert (Hno : ¬ ∃ s', Some s = Some s' ∧ ∃ pid, pid ∈ session_panes s' ∧ entry_running e pid = true).
  { intros (s' & [= <-] & pid & Hin & Hr). rewrite <-not_true_iff_false in Hx. apply Hx, existsb_exists.
    exists pid. by rewrite <-list_elem_of_In. }
  assert (Hgo : ∀ ids, match revive_check e (re_prepared env) ids with
    | Ok _ => let '(e, revived) := foldl (revive_one powi env (s_default_restart_policy s)) (e, 0%nat) ids in
              (persist_session e sid, Ok (Revived revived))
    | Err err => (e, Err err) end = (e', r) → (∀ n, r ≠ Ok (Revived n)) →
    e' = e ∧ (r = Ok AlreadyLive ↔ ∃ s', Some s = Some s' ∧ ∃ pid, pid ∈ session_panes s' ∧ entry_running e pid = true)).
  { intros ids. destruct (revive_check _ _ _).
    - destruct (foldl _ _ _) as [e1 n]. intros [= <- <-] Hn. by destruct (Hn n).
    - intros [= <- <-] _. split; [done|]. split; [done|]. intros H. by destruct Hno. }
  generalize (List.filter (λ id, negb (held_state (state_of (en_supervision e) id))) (session_panes s)) as ids. intros ids.
  generalize (List.filter (λ id, held_state (state_of (en_supervision e) id)) (session_panes s)) as held. intros held.
  destruct ids; [destruct held as [|id held]|]; [apply Hgo| |apply Hgo].
  intros [= <- <-] _. split; [done|]. split; [|intros H; by destruct Hno]. by destruct (state_of _ _) as [[]|].
Qed.

(** *** Splitting and closing *)

Lemma delete_insert_fresh {A} (m : gmap Uuid A) k x : m !! k = None → delete k (<[k := x]> m) = m.
Proof. intros Hk. by rewrite delete_insert_eq, delete_id. Qed.

(** The state after a split that succeeded. *)
Lemma split_pane_success e pid o command sp t e1 snap :
  inv e → fresh_spawn e sp →
  split_pane powi default_shell e pid o command (Some sp) t = Some (e1, Ok snap) →
  inv e1 ∧ ∃ sid s i w, en_sessions e !! sid = Some s ∧ s_windows s !! i = Some w ∧ window_ok w ∧ pid ∈ leaves (w_layout w)
    ∧ en_sessions e1 = <[sid := with_windows s (<[i := with_layout w (subst_leaf (w_layout w) pid (split_node pid (sp_id sp) o))]> (s_windows s))
                         (s_active_window_id s)]> (en_sessions e)
    ∧ en_panes e1 = <[sp_id sp := EntryLive (sp_ref sp)]> (en_panes e)
    ∧ en_index e1 = insert_pane (en_index e) (sp_id sp) (w_id w)
    ∧ ix_window_session (en_index e) !! w_id w = Some sid.
Proof.
  intros Hi Hf Hs. split.
  { destruct (split_pane_ok powi default_shell e pid o command (Some sp) t Hi) as (e2 & r2 & He & Hi2); [by intros ? [= <-]|].
    rewrite Hs in He. by injection He as <- _. }
  unfold split_pane in Hs. set (e0 := spawn_pane _ _ _ _ _ _ _) in Hs.
  assert (H0 : inv e0) by (by apply (inv_spawn powi), Hf).
  destruct (split_layout_cases e0 pid o (sp_id sp) H0) as (e2 & r & Hl & Hr). rewrite Hl in Hs.
  destruct r as [[[wid sid] policy]|err]; [|done].
  destruct Hr as (s & i & w & _ & Hss & Hiw & Hid & Hw & Hin & -> & ->).
  assert (E0 : en_sessions e0 = en_sessions e ∧ en_panes e0 = en_panes e ∧ en_index e0 = en_index e) by (unfold e0; by destruct e).
  destruct E0 as (E1 & E2 & E3). rewrite E1 in Hss. clearbody e0.
  unfold split_finish in Hs. destruct (session_snapshot _ _); [|done]. injection Hs as <- _.
  match goal with |- context [notify_window_changed (persist_session ?x sid) wid] => set (e3 := x) end.
  destruct (persist_same e3 sid) as (S1&S2&S3&_). destruct (notify_same (persist_session e3 sid) wid) as (T1&T2&T3&_).
  exists sid, s, i, w. rewrite T1, T2, T3, S1, S2, S3. unfold e3. clear S1 S2 S3 T1 T2 T3 e3. destruct e0. cbn in E1, E2, E3 |- *. subst.
  split_and!; try done. apply (so_ws _ _ (inv_sessions _ Hi)). exists s. split; [done|].
  apply elem_window_id. by eapply list_elem_of_lookup_2.
Qed.

(** What the rest of a close does once the layout has been written back: the pane leaves the
    panes and the index, nothing else of them changes. *)
Lemma close_rest e sid s pid wid :
  panes_inv e →
  let e2 := persist_session (set_session e sid s) sid in
  let e4 := notify_window_changed (drop_pane (set_index e2 (remove_pane (en_index e2) pid)) pid) wid in
  en_sessions e4 = <[sid := s]> (en_sessions e) ∧ en_panes e4 = delete pid (en_panes e)
  ∧ en_index e4 = remove_pane (en_index e) pid.
Proof.
  intros Hp e2 e4. destruct (persist_same (set_session e sid s) sid) as (S1&S2&S3&S4&S5&_). fold e2 in S1, S2, S3, S4, S5.
  set (e3 := set_index e2 _) in *.
  assert (P : en_sessions e3 = <[sid := s]> (en_sessions e) ∧ en_panes e3 = en_panes e ∧ en_index e3 = remove_pane (en_index e) pid
    ∧ en_supervision e3 = en_supervision e ∧ en_props e3 = en_props e).
  { unfold e3. rewrite S2. clear -S1 S3 S4 S5. destruct e2, e. simpl in *. by subst. }
  destruct P as (P1&P2&P3&P4&P5).
  assert (Hp3 : panes_inv e3) by (unfold panes_inv; by rewrite P2, P4, P5).
  destruct (drop_pane_ok powi e3 pid Hp3) as (_ & (F1&F2&_) & Hpn).
  destruct (notify_same (drop_pane e3 pid) wid) as (T1&T2&T3&_). unfold e4. by rewrite T1, T2, T3, F1, F2, Hpn, P1, P2, P3.
Qed.

(** A window found under its id is the one at the index it is known to stand at. *)
Lemma found_at e sid s i w j w2 :
  inv e → en_sessions e !! sid = Some s → s_windows s !! i = Some w → s_windows s !! j = Some w2 → w_id w2 = w_id w →
  j = i ∧ w2 = w.
Proof.
  intros Hi Hs Hw Hw2 Hid. assert (i = j) as <-; [|split; congruence].
  apply (NoDup_lookup (w_id <$> s_windows s) i j (w_id w)).
  - exact (so_nodup _ _ (inv_sessions _ Hi) sid s Hs).
  - by rewrite list_lookup_fmap, Hw.
  - rewrite list_lookup_fmap, Hw2. simpl. by rewrite Hid.
Qed.

(** Closing the pane that a split created undoes the split: it succeeds, closes no window,
    and the sessions (layouts, names, sizes, active window), the panes and the reverse index
    are what they were before the split. *)
Theorem split_close_roundtrip e pid o command sp t e1 snap :
  inv e → fresh_spawn e sp →
  split_pane powi default_shell e pid o command (Some sp) t = Some (e1, Ok snap) →
  ∃ e2 out, close_pane e1 (sp_id sp) = Some (e2, Ok out) ∧ c_window_closed out = None ∧ c_session_closed out = None
    ∧ en_sessions e2 = en_sessions e ∧ en_panes e2 = en_panes e ∧ en_index e2 = en_index e.
Proof.
  intros Hi Hf Hs. destruct (split_pane_success _ _ _ _ _ _ _ _ Hi Hf Hs) as (Hi1 & sid & s & i & w & Hss & Hiw & Hw & Hin & E1 & E2 & E3 & Hws).
  set (new := sp_id sp) in *. set (w' := with_layout w _) in *. set (s' := with_windows s _ _) in *.
  assert (Ha : window_and_session_for_pane e1 new = Ok (w_id w, sid)).
  { unfold window_and_session_for_pane, window_for_pane, session_for_window. rewrite E3. simpl. rewrite lookup_insert_eq. simpl. by rewrite Hws. }
  assert (Hlen : (i < length (s_windows s))%nat) by by eapply lookup_lt_Some.
  assert (Hnew : new ∉ leaves (w_layout w)).
  { intros Hc. apply (pw_session _ _ _ _ sid (inv_sessions _ Hi)) in Hc.
    - by rewrite (index_fresh e new Hi (proj2 Hf)) in Hc.
    - unfold old_windows. rewrite Hss. by eapply list_elem_of_lookup_2. }
  destruct (pane_address e1 new _ _ Hi1 Ha) as (s2 & j & w2 & Hs2 & Hf2 & Hj & Hid2 & _ & _).
  rewrite E1, lookup_insert_eq in Hs2. injection Hs2 as <-.
  assert (Hi' : s_windows s' !! i = Some w') by (unfold s'; simpl; by rewrite list_lookup_insert_eq).
  destruct (found_at e1 sid s' i w' j w2 Hi1) as [-> ->]; [by rewrite E1, lookup_insert_eq|done..|].
  unfold close_pane. rewrite Ha, E1, lookup_insert_eq, Hf2. destruct Hw as (Hwf & Hnd & _).
  assert (Hrm : remove (w_layout w') new = Some (Collapsed (w_layout w))) by (by apply split_then_remove).
  rewrite Hrm. cbn zeta. rewrite insert_without by (unfold s'; simpl; by rewrite length_insert).
  assert (Hwins : <[i := with_layout w' (w_layout w)]> (s_windows s') = s_windows s).
  { unfold s'. simpl. rewrite list_insert_insert_eq. apply list_insert_id. rewrite Hiw. f_equal. by destruct w. }
  rewrite Hwins. destruct (s_windows s) as [|first rest] eqn:Hfr; [simpl in Hlen; lia|].
  do 2 eexists. split; [reflexivity|]. split; [done|]. split; [done|].
  assert (Hsb : with_windows s' (first :: rest) (s_active_window_id s') = s) by (unfold s'; destruct s; simpl in *; by subst).
  rewrite Hsb. cbn zeta.
  destruct (close_rest e1 sid s new (w_id w')) as (-> & -> & ->); [split; apply Hi1|]. split_and!.
  - by rewrite E1, insert_insert_eq, insert_id.
  - rewrite E2. apply delete_insert_fresh, Hf.
  - rewrite E3. unfold remove_pane, insert_pane. simpl.
    rewrite delete_insert_fresh by (apply (index_fresh e new Hi), Hf). by destruct (en_index e).
Qed.

End Properties.

(** ** Concrete runs *)

(** A backend that keeps the records in memory. *)
#[export] Instance memory_backend : PersistenceBackend (gmap Uuid PersistedSessionRecord) := {
  b_save r b := (<[ps_session_id r := r]> b, true);
  b_delete id b := delete id b;
}.

(** The file backend of [Persistence.v], with a file system that answers every call. *)
#[export] Instance store_backend `{RecordCodec} : PersistenceBackend Store := {
  b_save r st := save st r Written true 0;
  b_delete id st := delete_record st id true;
}.

Definition w_shell : list Z := [115; 104].
Definition w_t : Tick := mkTick 1 f64_half.
Definition w_engine : Type := Engine (gmap Uuid PersistedSessionRecord).
Definition w_new : w_engine := engine_new ∅.

Definition w_sp (r id : N) : Spawned := mkSpawned r id (Some (Z.of_N (100 + r))) [47].

(** Session 30 with window 20 and pane 10, then two vertical splits of pane 10. *)
Definition w_one : w_engine :=
  fst (create_session_supervised powi_iter w_shell w_new [97] None launch_default None policy_default (Some (w_sp 1 10)) 20%N 30%N w_t).
Definition w_split (e : w_engine) (o : Orientation) (r id : N) : w_engine :=
  match split_pane powi_iter w_shell e 10%N o None (Some (w_sp r id)) w_t with Some (e', _) => e' | None => e end.
Definition w_two : w_engine := w_split w_one Vertical 2 11.
Definition w_three : w_engine := w_split w_two Vertical 3 12.

(** The smallest emulator: its size. *)
#[export, refine] Instance size_emulator : Emulator (Z * Z) := {
  vt_set_size _ rows cols := if (rows <? 1) || (cols <? 1) then None else Some (rows, cols);
  emulator_size t := t;
  emulator_ok _ := True; vt_set_size_ok := _; vt_set_size_zero := _; vt_set_size_size := _;
}.
Proof.
  - intros _ rows cols _ Hr Hc. rewrite (proj2 (Z.ltb_ge rows 1)), (proj2 (Z.ltb_ge cols 1)) by lia. by exists (rows, cols).
  - intros _ rows cols _ Hz. assert (E : (rows <? 1) || (cols <? 1) = true) by (apply orb_true_iff; rewrite !Z.ltb_lt; lia). by rewrite E.
  - intros _ rows cols t'. destruct (_ || _); [done|]. by intros [= <-].
Defined.
Definition w_sizes (_ : N) : Z * Z := (24, 80).

Lemma w_records_ok : records_ok [].
Proof. split_and!; [constructor..|by intros r ?%elem_of_nil]. Qed.

Lemma w_fresh_spawn (e : w_engine) r id :
  sv_heap (en_supervision e) !! r = None → en_panes e !! id = None → ∀ sp, Some (w_sp r id) = Some sp → fresh_spawn e sp.
Proof. intros Hr Hid sp [= <-]. by split. Qed.

Lemma w_one_reachable : reachable powi_iter w_shell (∅ : gmap Uuid PersistedSessionRecord) w_one.
Proof.
  exists []. split; [exact w_records_ok|]. apply rtc_once.
  apply (En_create powi_iter w_shell w_new); [apply w_fresh_spawn; reflexivity|reflexivity|reflexivity].
Qed.

Lemma w_step_split (e : w_engine) o r id :
  sv_heap (en_supervision e) !! r = None → en_panes e !! id = None →
  is_Some (split_pane powi_iter w_shell e 10%N o None (Some (w_sp r id)) w_t) →
  reachable powi_iter w_shell (∅ : gmap Uuid PersistedSessionRecord) e →
  reachable powi_iter w_shell (∅ : gmap Uuid PersistedSessionRecord) (w_split e o r id).
Proof.
  intros Hr Hid [[e' res] Hs] (rs & Hrs & Hst). exists rs. split; [done|]. eapply rtc_r; [exact Hst|].
  eapply (En_split powi_iter w_shell e 10%N o None (Some (w_sp r id)) w_t _ res); [by apply w_fresh_spawn|].
  unfold w_split. by rewrite Hs.
Qed.

Lemma w_two_reachable : reachable powi_iter w_shell (∅ : gmap Uuid PersistedSessionRecord) w_two.
Proof.
  apply w_step_split; [vm_compute; reflexivity|vm_compute; reflexivity| |exact w_one_reachable].
  vm_compute. eexists. reflexivity.
Qed.

Lemma w_three_reachable : reachable powi_iter w_shell (∅ : gmap Uuid PersistedSessionRecord) w_three.
Proof.
  apply w_step_split; [vm_compute; reflexivity|vm_compute; reflexivity| |exact w_two_reachable].
  vm_compute. eexists. reflexivity.
Qed.

Lemma engine_consistent_witness :
  inv w_two ∧ is_Some (en_panes w_two !! 11%N).
Proof.
  split; [|vm_compute; eexists; reflexivity].
  exact (proj1 (engine_consistent powi_iter w_shell ∅ w_two w_two_reachable)).
Defined.

(** Two panes of twelve rows. *)
Lemma w_two_fits : geometry_fits w_two 20%N.
Proof.
  intros rows cols sid s w rects id rect r He Hs Hw Hid Hg Hin _.
  assert (E : effective_size (en_viewports w_two !! 20%N) = Some (24, 80)) by (vm_compute; reflexivity).
  rewrite E in He. injection He as <- <-.
  assert (Hall : map_Forall (λ _ s, forallb (λ w, match compute_geometry (w_layout w) 24 80 with
    | Some l => forallb (λ p, (1 <=? rect_rows (snd p)) && (1 <=? rect_cols (snd p))) l | None => true end) (s_windows s) = true) (en_sessions w_two))
    by (apply (bool_decide_unpack _); vm_compute; exact I).
  specialize (Hall sid s Hs). simpl in Hall. rewrite forallb_forall in Hall. specialize (Hall w (proj1 (list_elem_of_In _ _) Hw)). rewrite Hg in Hall.
  rewrite forallb_forall in Hall. specialize (Hall _ (proj1 (list_elem_of_In _ _) Hin)). cbn [snd] in Hall. b2p. lia.
Qed.


Lemma kill_session_removes_witness :
  pane_lookup (fst (kill_session w_two 30%N)) 11%N = LookupUnknown.
Proof.
  destruct (en_sessions w_two !! 30%N) as [s|] eqn:Hs; [|exfalso; revert Hs; vm_compute; discriminate].
  destruct (kill_session w_two 30%N) as [e' r] eqn:Hk.
  assert (r = Ok tt) as ->. { unfold kill_session in Hk. rewrite Hs in Hk. by injection Hk. }
  destruct (kill_session_removes powi_iter w_two 30%N s e' (reachable_inv powi_iter w_shell ∅ w_two w_two_reachable) Hs Hk)
    as (_ & Hp & _). apply (Hp 11%N).
  assert (11%N ∈ match en_sessions w_two !! 30%N with Some s => session_panes s | None => [] end) as Hin
    by (apply (bool_decide_unpack _); vm_compute; exact I).
  by rewrite Hs in Hin.
Defined.

Definition w_env : ReviveEnv :=
  mkReviveEnv (λ _, Ok tt) (λ _, Err EmptyString) (λ _, Err EmptyString) w_t.

Lemma revive_refusals_change_nothing_witness :
  fst (revive_session powi_iter w_two 30%N w_env) = w_two.
Proof.
  assert (Hr : snd (revive_session powi_iter w_two 30%N w_env) = Ok AlreadyLive) by (vm_compute; reflexivity).
  apply (revive_refusals_change_nothing powi_iter w_two 30%N w_env _ _ (surjective_pairing _)).
  rewrite Hr. discriminate.
Defined.

Lemma split_close_roundtrip_witness :
  ∃ e2 out, close_pane w_two 11%N = Some (e2, Ok out) ∧ c_window_closed out = None ∧ c_session_closed out = None
    ∧ en_sessions e2 = en_sessions w_one ∧ en_panes e2 = en_panes w_one ∧ en_index e2 = en_index w_one.
Proof.
  destruct (split_pane powi_iter w_shell w_one 10%N Vertical None (Some (w_sp 2 11)) w_t) as [[e1 r]|] eqn:Hs;
    [|exfalso; revert Hs; vm_compute; discriminate].
  assert (Hr : match split_pane powi_iter w_shell w_one 10%N Vertical None (Some (w_sp 2 11)) w_t with
               | Some (_, Ok _) => true | _ => false end = true) by (vm_compute; reflexivity).
  rewrite Hs in Hr. destruct r as [snap|]; [|discriminate].
  replace w_two with e1 by (unfold w_two, w_split; by rewrite Hs).
  apply (split_close_roundtrip powi_iter w_shell w_one 10%N Vertical None (w_sp 2 11) w_t e1 snap
    (reachable_inv powi_iter w_shell ∅ w_one w_one_reachable)); [split; vm_compute; reflexivity|exact Hs].
Defined.

(** A window of two rows can hold a pane of none: the viewport is clamped to the minimum
    pane size, but the panes' shares of it are not, so after two vertical splits a client
    that reports two rows makes the engine resize a pane to zero rows. *)
Theorem small_viewport_zero_rows :
  reachable powi_iter w_shell (∅ : gmap Uuid PersistedSessionRecord) w_three
  ∧ (let! (_, w) := (en_sessions w_three !! 30%N ≫= λ s, find_window s 20%N) in compute_geometry (w_layout w) 2 80 ≫= head) =
      Some (10%N, mkRect 0 0 0 80)
  ∧ report_viewport_and_recompute w_three w_sizes 20%N 1 2 80 (λ _, true) = None.
Proof. split; [exact w_three_reachable|]. split; vm_compute; reflexivity. Qed.

(** The first two phases of a split of pane 10, with a kill of the session in between the
    second and the third. *)
Definition w_race : option (w_engine * SessionSnapshot) :=
  let e := spawn_pane w_one w_shell launch_default None DEFAULT_ROWS DEFAULT_COLS (w_sp 2 11) in
  match split_layout e 10%N Vertical 11%N with
  | Some (e, Ok (window_id, session_id, policy)) =>
      let e := fst (kill_session e session_id) in
      split_finish (split_register powi_iter e (w_sp 2 11) window_id policy w_t) window_id session_id
  | _ => Some (w_one, mkSessionSnapshot 0%N [] [] false)
  end.

(** A kill that runs between the phases of a split makes the split panic (with the
    [sessions] and [panes] locks held): it indexes the session it looked up before, which is
    gone; the pane it registered in between belongs to no session. *)
Theorem split_kill_race_panics :
  w_race = None
  ∧ let e := fst (kill_session (match split_layout (spawn_pane w_one w_shell launch_default None DEFAULT_ROWS DEFAULT_COLS (w_sp 2 11))
                                        10%N Vertical 11%N with Some (e, _) => e | None => w_one end) 30%N) in
    let e := split_register powi_iter e (w_sp 2 11) 20%N policy_default w_t in
    en_sessions e = ∅ ∧ is_Some (en_panes e !! 11%N) ∧ is_Some (sv_entries (en_supervision e) !! 11%N).
Proof. split; [vm_compute; reflexivity|]. cbv zeta. split_and!; vm_compute; [reflexivity|eexists; reflexivity..]. Qed.

(** A refused split leaves a process behind: the pane is spawned before the size is
    checked, and on refusal nothing holds it: no entry, no supervision, no kill. *)
Theorem refused_split_leaks_pane :
  match split_pane powi_iter w_shell w_one 10%N Horizontal None (Some (w_sp 2 11)) w_t with
  | Some (e, Ok _) =>
      match split_pane powi_iter w_shell e 10%N Vertical None (Some (w_sp 3 12)) w_t with
      | Some (e, Ok _) =>
          match split_pane powi_iter w_shell e 10%N Horizontal None (Some (w_sp 4 13)) w_t with
          | Some (e, Err err) =>
              err = EBelowRecommendedSize 12 ∧ en_panes e !! 13%N = None ∧ sv_entries (en_supervision e) !! 13%N = None
              ∧ (λ p, (p_exited p, p_retired p, p_last_signal p)) <$> sv_heap (en_supervision e) !! 4%N = Some (false, false, 0)
          | _ => False
          end
      | _ => False
      end
  | _ => False
  end.
Proof. vm_compute. split_and!; reflexivity. Qed.
