(* ===== verification/EngineConc.v ===== *)
(** * Overlapping calls of the engine ([crates/tymux-core/src/engine.rs])

    [Engine.v] gives each call of the engine as one function. In the daemon calls overlap:
    the sessions, the panes, the index, supervision and the viewports have a lock each, and a
    call holds one only for a part of its work. Here the calls that change the structure are
    cut into the parts they run under a lock, and run in any interleaving with each other and
    with everything else the daemon does. A call that is not interleaved does what its
    function in [Engine.v] says; what holds of all interleavings is less. *)

From S2P Require Import Prelude Float Layout Restart TermQuery Supervision Launch Persistence Engine EngineInv EngineProps.

(** ** Calls in parts *)

Inductive Reply :=
| ReSession (r : result SessionSnapshot EngineError)
| ReId (id : Uuid)
| ReUnit (r : result unit EngineError)
| ReClosed (r : result ClosePaneOutcome EngineError)
| ReSize (r : option (Z * Z))
| OutOfFuel.

(** A call that runs, by the part it does next, with its local variables. *)
Inductive Call :=
| SplitLookup (pane_id : Uuid) (o : Orientation) (sp : Spawned) (t : Tick)
| SplitLayout (pane_id window_id session_id : Uuid) (o : Orientation) (sp : Spawned) (t : Tick)
| SplitPanes (window_id session_id : Uuid) (sp : Spawned) (policy : RestartPolicy) (t : Tick)
| SplitRegister (window_id session_id : Uuid) (sp : Spawned) (policy : RestartPolicy) (t : Tick)
| SplitIndex (window_id session_id : Uuid) (sp : Spawned)
| SplitSnapshot (window_id session_id : Uuid)
| SplitPersist (window_id session_id : Uuid) (snapshot : SessionSnapshot)
| SplitNotify (window_id : Uuid) (snapshot : SessionSnapshot)
| WindowPush (session_id window_id : Uuid) (sp : Spawned) (t : Tick)
| WindowPanes (session_id window_id : Uuid) (sp : Spawned) (policy : RestartPolicy) (t : Tick)
| WindowRegister (session_id window_id : Uuid) (sp : Spawned) (policy : RestartPolicy) (t : Tick)
| WindowIndex_ (session_id window_id : Uuid) (sp : Spawned)
| WindowSnapshot_ (session_id : Uuid)
| WindowPersist (session_id : Uuid) (snapshot : SessionSnapshot)
| CreateInsert (session_id window_id : Uuid) (name : list Z) (sp : Spawned) (policy : RestartPolicy) (t : Tick)
| CreatePanes (session_id window_id : Uuid) (sp : Spawned) (policy : RestartPolicy) (t : Tick)
| CreateRegister (session_id window_id : Uuid) (sp : Spawned) (policy : RestartPolicy) (t : Tick)
| CreateIndex (session_id window_id : Uuid) (sp : Spawned)
| CreatePersist (session_id : Uuid)
| KillRemove (session_id : Uuid)
| KillIndex (session_id : Uuid) (session : SessionState)
| KillPanes (session_id : Uuid) (session : SessionState)
| KillDelete (session_id : Uuid)
| CloseLookup (pane_id : Uuid)
| CloseLayout (pane_id window_id session_id : Uuid)
| CloseSnapshot (pane_id session_id : Uuid) (window : WindowState) (window_closed : option (Uuid * list Z))
| ClosePersist (pane_id session_id : Uuid) (window : WindowState) (removed : option SessionState) (outcome : ClosePaneOutcome)
| CloseIndex (pane_id : Uuid) (window : WindowState) (removed : option SessionState) (outcome : ClosePaneOutcome)
| ClosePanes (pane_id : Uuid) (window : WindowState) (removed : option SessionState) (outcome : ClosePaneOutcome)
| CloseNotify (window : WindowState) (outcome : ClosePaneOutcome)
| ReportViewport (window_id : Uuid) (client_id rows cols : Z) (resized : N → bool)
| RecomputeSize (window_id : Uuid) (resized : N → bool)
| RecomputeIndex (window_id : Uuid) (rows cols : Z) (resized : N → bool)
| RecomputeLayout (window_id session_id : Uuid) (rows cols : Z) (resized : N → bool)
| RecomputePanes (window_id session_id : Uuid) (rows cols : Z) (rects : list (Uuid * PtyRect)) (resized : N → bool)
| RecomputeResize (window_id session_id : Uuid) (rows cols : Z) (rects : list (N * PtyRect)) (resized : N → bool)
| RecomputeNotify (window_id session_id : Uuid) (rows cols : Z)
| RecomputePersist (session_id : Uuid) (rows cols : Z)
| PolicySession (session_id : Uuid) (policy : RestartPolicy) (apply_to_existing : bool) (now : Z)
| PolicyPane (session_id : Uuid) (pane_ids : list Uuid) (policy : RestartPolicy) (now : Z)
| PolicyPersist (session_id : Uuid).

(** The parts that take the [sessions] lock, and those that keep it from the part before. *)
Definition needs_sessions (c : Call) : bool :=
  match c with
  | SplitLayout _ _ _ _ _ _ | SplitSnapshot _ _ | SplitPersist _ _ _ | WindowPush _ _ _ _ | WindowPersist _ _
  | CreateInsert _ _ _ _ _ _ | CreatePersist _ | KillRemove _ | CloseLayout _ _ _ | ClosePersist _ _ _ None _
  | RecomputeLayout _ _ _ _ _ | RecomputePersist _ _ _ | PolicySession _ _ _ _ | PolicyPersist _ => true
  | _ => false
  end.

Definition holds_sessions (c : Call) : bool :=
  match c with
  | WindowPanes _ _ _ _ _ | WindowRegister _ _ _ _ _ | WindowIndex_ _ _ _ | WindowSnapshot_ _ | CloseSnapshot _ _ _ _ => true
  | _ => false
  end.

Section Parts.
Context {B : Type} `{BK : PersistenceBackend B} (powi : spec_float → Z → spec_float) {T : Type} `{EM : Emulator T}.
Implicit Types (e : Engine B) (ts : N → T).

Definition State : Type := Engine B * (N → T).

(** One part of a call: the state afterwards and what remains of it, or its reply. [None] is
    a panic. *)
Definition part (st : State) (c : Call) : option (State * (Call + Reply)) :=
  let '(e, ts) := st in
  let go e c := Some ((e, ts), inl c) in
  let done e r := Some ((e, ts), inr r) in
  match c with
  | SplitLookup pane_id o sp t =>
      match window_and_session_for_pane e pane_id with
      | Err err => done e (ReSession (Err err))
      | Ok (window_id, session_id) => go e (SplitLayout pane_id window_id session_id o sp t)
      end
  | SplitLayout pane_id window_id session_id o sp t =>
      match en_sessions e !! session_id with
      | None => done e (ReSession (Err (EPaneNotFound pane_id)))
      | Some s =>
          match find_window s window_id with
          | None => done e (ReSession (Err (EPaneNotFound pane_id)))
          | Some (i, w) =>
              let! (layout, outcome) := split (w_layout w) pane_id o (sp_id sp) (w_rows w) (w_cols w) in
              let e := set_session e session_id
                         (with_windows s (<[i := with_layout w layout]> (s_windows s)) (s_active_window_id s)) in
              match outcome with
              | Ok _ => go e (SplitPanes window_id session_id sp (s_default_restart_policy s) t)
              | Err err => done e (ReSession (Err (layout_error err)))
              end
          end
      end
  | SplitPanes window_id session_id sp policy t =>
      go (set_panes e (<[sp_id sp := EntryLive (sp_ref sp)]> (en_panes e))) (SplitRegister window_id session_id sp policy t)
  | SplitRegister window_id session_id sp policy t =>
      go (set_supervision e (register_live powi (en_supervision e) (sp_ref sp) policy (t_now t) (t_unit t))) (SplitIndex window_id session_id sp)
  | SplitIndex window_id session_id sp => go (set_index e (insert_pane (en_index e) (sp_id sp) window_id)) (SplitSnapshot window_id session_id)
  | SplitSnapshot window_id session_id =>
      let! snapshot := session_snapshot e session_id in go e (SplitPersist window_id session_id snapshot)
  | SplitPersist window_id session_id snapshot => go (persist_session e session_id) (SplitNotify window_id snapshot)
  | SplitNotify window_id snapshot => done (notify_window_changed e window_id) (ReSession (Ok snapshot))
  | WindowPush session_id window_id sp t =>
      match en_sessions e !! session_id with
      | None => done e (ReSession (Err (ESessionNotFound session_id)))
      | Some s =>
          let window := mkWindow window_id (dec (Z.of_nat (length (s_windows s)))) (leaf (sp_id sp)) DEFAULT_ROWS DEFAULT_COLS in
          go (set_session e session_id (mkSession (s_id s) (s_name s) (s_windows s ++ [window]) window_id (s_default_restart_policy s)))
            (WindowPanes session_id window_id sp (s_default_restart_policy s) t)
      end
  | WindowPanes session_id window_id sp policy t =>
      go (set_panes e (<[sp_id sp := EntryLive (sp_ref sp)]> (en_panes e))) (WindowRegister session_id window_id sp policy t)
  | WindowRegister session_id window_id sp policy t =>
      go (set_supervision e (register_live powi (en_supervision e) (sp_ref sp) policy (t_now t) (t_unit t))) (WindowIndex_ session_id window_id sp)
  | WindowIndex_ session_id window_id sp =>
      go (set_index e (insert_pane (insert_window (en_index e) window_id session_id) (sp_id sp) window_id)) (WindowSnapshot_ session_id)
  | WindowSnapshot_ session_id =>
      let! snapshot := session_snapshot e session_id in go e (WindowPersist session_id snapshot)
  | WindowPersist session_id snapshot => done (persist_session e session_id) (ReSession (Ok snapshot))
  | CreateInsert session_id window_id name sp policy t =>
      let window := mkWindow window_id [48] (leaf (sp_id sp)) DEFAULT_ROWS DEFAULT_COLS in
      go (set_session e session_id (mkSession session_id name [window] window_id policy)) (CreatePanes session_id window_id sp policy t)
  | CreatePanes session_id window_id sp policy t =>
      go (set_panes e (<[sp_id sp := EntryLive (sp_ref sp)]> (en_panes e))) (CreateRegister session_id window_id sp policy t)
  | CreateRegister session_id window_id sp policy t =>
      go (set_supervision e (register_live powi (en_supervision e) (sp_ref sp) policy (t_now t) (t_unit t))) (CreateIndex session_id window_id sp)
  | CreateIndex session_id window_id sp =>
      go (set_index e (insert_pane (insert_window (en_index e) window_id session_id) (sp_id sp) window_id)) (CreatePersist session_id)
  | CreatePersist session_id => done (persist_session e session_id) (ReId session_id)
  | KillRemove id =>
      match en_sessions e !! id with
      | None => done e (ReUnit (Err (ESessionNotFound id)))
      | Some session => go (set_sessions e (delete id (en_sessions e))) (KillIndex id session)
      end
  | KillIndex id session =>
      let ix := foldl (λ ix w, remove_window ix (w_id w)) (en_index e) (s_windows session) in
      go (set_index e (foldl remove_pane ix (session_panes session))) (KillPanes id session)
  | KillPanes id session => go (foldl drop_pane e (session_panes session)) (KillDelete id)
  | KillDelete id => done (set_backend e (b_delete id (en_backend e))) (ReUnit (Ok tt))
  | CloseLookup pane_id =>
      match window_and_session_for_pane e pane_id with
      | Err err => done e (ReClosed (Err err))
      | Ok (window_id, session_id) => go e (CloseLayout pane_id window_id session_id)
      end
  | CloseLayout pane_id window_id session_id =>
      match en_sessions e !! session_id with
      | None => done e (ReClosed (Err (EPaneNotFound pane_id)))
      | Some s =>
          match find_window s window_id with
          | None => done e (ReClosed (Err (EPaneNotFound pane_id)))
          | Some (i, w) =>
              let rest := take i (s_windows s) ++ drop (S i) (s_windows s) in
              let! removed := remove (w_layout w) pane_id in
              let '(window_closed, windows) :=
                match removed with
                | Collapsed layout => (None, take i rest ++ with_layout w layout :: drop i rest)
                | WindowEmpty => (Some (w_id w, w_name w), rest)
                end in
              let session_closed := match windows with [] => Some (s_id s, s_name s) | _ => None end in
              let active := match windows with
                            | first :: _ => match window_closed with Some _ => w_id first | None => s_active_window_id s end
                            | [] => s_active_window_id s
                            end in
              let s := with_windows s windows active in
              match session_closed with
              | Some _ =>
                  go (set_sessions e (delete session_id (en_sessions e)))
                    (ClosePersist pane_id session_id w (Some s) (mkClosed window_closed session_closed None))
              | None => go (set_session e session_id s) (CloseSnapshot pane_id session_id w window_closed)
              end
          end
      end
  | CloseSnapshot pane_id session_id w window_closed =>
      let! snapshot := session_snapshot e session_id in
      go e (ClosePersist pane_id session_id w None (mkClosed window_closed None (Some snapshot)))
  | ClosePersist pane_id session_id w removed outcome =>
      let e := match removed with
               | Some _ => set_backend e (b_delete session_id (en_backend e))
               | None => persist_session e session_id
               end in
      go e (CloseIndex pane_id w removed outcome)
  | CloseIndex pane_id w removed outcome =>
      let e := set_index e (remove_pane (en_index e) pane_id) in
      let e := match c_window_closed outcome with
               | Some (closed, _) => set_index e (remove_window (en_index e) closed)
               | None => e
               end in
      go e (ClosePanes pane_id w removed outcome)
  | ClosePanes pane_id w removed outcome =>
      let e := drop_pane e pane_id in
      let e := match removed with Some s => foldl drop_pane e (session_panes s) | None => e end in
      go e (CloseNotify w outcome)
  | CloseNotify w outcome =>
      done (match c_window_closed outcome with None => notify_window_changed e (w_id w) | Some _ => e end) (ReClosed (Ok outcome))
  | ReportViewport window_id client_id rows cols resized => go (with_viewport e window_id client_id rows cols) (RecomputeSize window_id resized)
  | RecomputeSize window_id resized =>
      let! (rows, cols) := effective_size (en_viewports e !! window_id) in go e (RecomputeIndex window_id rows cols resized)
  | RecomputeIndex window_id rows cols resized =>
      match session_for_window (en_index e) window_id with
      | None => done e (ReSize None)
      | Some session_id => go e (RecomputeLayout window_id session_id rows cols resized)
      end
  | RecomputeLayout window_id session_id rows cols resized =>
      match en_sessions e !! session_id with
      | None => done e (ReSize None)
      | Some s =>
          match find_window s window_id with
          | None => done e (ReSize None)
          | Some (i, w) =>
              let w := mkWindow (w_id w) (w_name w) (w_layout w) rows cols in
              let e := set_session e session_id (with_windows s (<[i := w]> (s_windows s)) (s_active_window_id s)) in
              let! rects := compute_geometry (w_layout w) rows cols in
              go e (RecomputePanes window_id session_id rows cols rects resized)
          end
      end
  | RecomputePanes window_id session_id rows cols rects resized =>
      go e (RecomputeResize window_id session_id rows cols (live_pane_rects e rects) resized)
  | RecomputeResize window_id session_id rows cols l resized =>
      match l with
      | [] => go e (RecomputeNotify window_id session_id rows cols)
      | (r, rect) :: l =>
          let! (e, ts) := resize_panes e ts resized [(r, rect)] in
          Some ((e, ts), inl (RecomputeResize window_id session_id rows cols l resized))
      end
  | RecomputeNotify window_id session_id rows cols => go (notify_window_changed e window_id) (RecomputePersist session_id rows cols)
  | RecomputePersist session_id rows cols => done (persist_session e session_id) (ReSize (Some (rows, cols)))
  | PolicySession session_id policy apply_to_existing now =>
      match en_sessions e !! session_id with
      | None => done e (ReUnit (Err (ESessionNotFound session_id)))
      | Some s =>
          go (set_session e session_id (mkSession (s_id s) (s_name s) (s_windows s) (s_active_window_id s) policy))
            (PolicyPane session_id (if apply_to_existing then session_panes s else []) policy now)
      end
  | PolicyPane session_id [] policy now => go e (PolicyPersist session_id)
  | PolicyPane session_id (id :: ids) policy now =>
      match sv_set_policy (en_supervision e) id policy now with
      | Err err => done e (ReUnit (Err (supervision_error err)))
      | Ok sup => go (set_supervision e sup) (PolicyPane session_id ids policy now)
      end
  | PolicyPersist session_id => done (persist_session e session_id) (ReUnit (Ok tt))
  end.

(** A call whose parts run one after the other with nothing in between. *)
Fixpoint alone (fuel : nat) (st : State) (c : Call) : option (State * Reply) :=
  match fuel with
  | O => Some (st, OutOfFuel)
  | S fuel =>
      let! (st, next) := part st c in
      match next with inl c => alone fuel st c | inr r => Some (st, r) end
  end.

(** What a call gives when it is alone, with any fuel from some point on. *)
Definition gives (st : State) (c : Call) (out : option (State * Reply)) : Prop := ∃ n, ∀ m, alone (n + m) st c = out.
End Parts.

(** ** A call that is not interleaved *)

Section Alone.
Context {B : Type} `{BK : PersistenceBackend B} (powi : spec_float → Z → spec_float) (default_shell : list Z) {T : Type} `{EM : Emulator T}.
Implicit Types (e : Engine B) (ts : N → T).

Definition reply {A} (f : A → Reply) ts (x : Engine B * A) : State (T := T) * Reply := ((fst x, ts), f (snd x)).

Lemma gives_part (st st' : State) (c c' : Call) out : part powi st c = Some (st', inl c') → gives powi st' c' out → gives powi st c out.
Proof. intros Hp [n Hn]. exists (S n). intros m. cbn [Nat.add alone]. rewrite Hp. cbn [mbind option_bind]. apply Hn. Qed.

Lemma gives_done (st st' : State) (c : Call) r : part powi st c = Some (st', inr r) → gives powi st c (Some (st', r)).
Proof. intros Hp. exists 1%nat. intros m. cbn [Nat.add alone]. by rewrite Hp. Qed.

Lemma gives_panic (st : State) (c : Call) : part powi st c = None → gives powi st c None.
Proof. intros Hp. exists 1%nat. intros m. cbn [Nat.add alone]. by rewrite Hp. Qed.

(** Runs the parts of a call whose branches are known. *)
Ltac parts :=
  repeat first [eapply gives_done; reflexivity | eapply gives_panic; reflexivity | eapply gives_part; [reflexivity|]].

Lemma split_alone e ts pid o sp t :
  gives powi (e, ts) (SplitLookup pid o sp t)
    (let! (e, r) := split_layout e pid o (sp_id sp) in
     match r with
     | Err err => Some (reply ReSession ts (e, Err err))
     | Ok (window_id, session_id, policy) =>
         let! (e, snapshot) := split_finish (split_register powi e sp window_id policy t) window_id session_id in
         Some (reply ReSession ts (e, Ok snapshot))
     end).
Proof.
  unfold split_layout. destruct (window_and_session_for_pane e pid) as [[wid sid]|err] eqn:Hw;
    [|eapply gives_done; unfold part; by rewrite Hw].
  eapply gives_part; [unfold part; by rewrite Hw|]. destruct (en_sessions e !! sid) as [s|] eqn:Hs; [|eapply gives_done; unfold part; by rewrite Hs].
  destruct (find_window s wid) as [[i w]|] eqn:Hf; [|eapply gives_done; unfold part; by rewrite Hs, Hf].
  destruct (split _ _ _ _ _ _) as [[layout outcome]|] eqn:Hsp; [|eapply gives_panic; unfold part; by rewrite Hs, Hf, Hsp].
  cbn [mbind option_bind]. destruct outcome as [[]|err]; [|eapply gives_done; unfold part; by rewrite Hs, Hf, Hsp].
  eapply gives_part; [unfold part; by rewrite Hs, Hf, Hsp|]. cbn [mbind option_bind]. unfold split_finish, split_register.
  do 3 (eapply gives_part; [reflexivity|]).
  match goal with |- gives _ (?e3, ts) _ _ => destruct (session_snapshot e3 sid) as [snap|] eqn:Hsn end;
    [|eapply gives_panic; unfold part; by rewrite Hsn].
  eapply gives_part; [unfold part; by rewrite Hsn|]. eapply gives_part; [reflexivity|]. by eapply gives_done.
Qed.

Lemma kill_alone e ts id : gives powi (e, ts) (KillRemove id) (Some (reply ReUnit ts (kill_session e id))).
Proof.
  unfold kill_session. destruct (en_sessions e !! id) as [s|] eqn:Hs; [|eapply gives_done; unfold part; by rewrite Hs].
  eapply gives_part; [unfold part; by rewrite Hs|]. do 2 (eapply gives_part; [reflexivity|]). by eapply gives_done.
Qed.

Lemma create_alone e ts name command launch cwd policy sp wid sid t :
  Restart.validate policy = Ok tt →
  gives powi (spawn_pane e (default default_shell command) launch cwd DEFAULT_ROWS DEFAULT_COLS sp, ts) (CreateInsert sid wid name sp policy t)
    (Some ((fst (create_session_supervised powi default_shell e name command launch cwd policy (Some sp) wid sid t), ts), ReId sid)).
Proof.
  intros Hv. unfold create_session_supervised. rewrite Hv. do 4 (eapply gives_part; [reflexivity|]). by eapply gives_done.
Qed.

Lemma window_alone e ts command sp wid sid t :
  gives powi (spawn_pane e (default default_shell command) launch_default None DEFAULT_ROWS DEFAULT_COLS sp, ts) (WindowPush sid wid sp t)
    (Some (reply ReSession ts (create_window powi default_shell e sid command (Some sp) wid t))).
Proof.
  unfold create_window. cbv zeta. set (e1 := spawn_pane _ _ _ _ _ _ _).
  destruct (en_sessions e1 !! sid) as [s|] eqn:Hs; [|eapply gives_done; unfold part; by rewrite Hs].
  eapply gives_part; [unfold part; by rewrite Hs|]. do 3 (eapply gives_part; [reflexivity|]).
  eapply gives_part.
  - unfold part, session_snapshot. match goal with |- context [en_sessions ?x !! sid] => replace (en_sessions x !! sid) with
      (Some (mkSession (s_id s) (s_name s) (s_windows s ++ [mkWindow wid (dec (Z.of_nat (length (s_windows s)))) (leaf (sp_id sp)) DEFAULT_ROWS DEFAULT_COLS])
        wid (s_default_restart_policy s))) by (destruct e1; symmetry; apply lookup_insert_eq) end. reflexivity.
  - by eapply gives_done.
Qed.

Lemma close_alone e ts pid :
  gives powi (e, ts) (CloseLookup pid) (reply ReClosed ts <$> close_pane e pid).
Proof.
  unfold close_pane. destruct (window_and_session_for_pane e pid) as [[wid sid]|err] eqn:Hw;
    [|eapply gives_done; unfold part; by rewrite Hw].
  eapply gives_part; [unfold part; by rewrite Hw|]. destruct (en_sessions e !! sid) as [s|] eqn:Hs; [|eapply gives_done; unfold part; by rewrite Hs].
  destruct (find_window s wid) as [[i w]|] eqn:Hf; [|eapply gives_done; unfold part; by rewrite Hs, Hf].
  cbv zeta. destruct (remove (w_layout w) pid) as [removed|] eqn:Hr; [|eapply gives_panic; unfold part; by rewrite Hs, Hf, Hr].
  cbn [mbind option_bind]. set (rest := take i _ ++ _).
  destruct (match removed with Collapsed layout => _ | WindowEmpty => _ end) as [closed windows] eqn:Hc.
  destruct windows as [|first ws].
  - eapply gives_part; [unfold part; rewrite Hs, Hf, Hr; cbn [mbind option_bind]; cbv zeta; fold rest; by rewrite Hc|].
    do 3 (eapply gives_part; [reflexivity|]). destruct closed as [[cid cn]|]; by eapply gives_done.
  - eapply gives_part; [unfold part; rewrite Hs, Hf, Hr; cbn [mbind option_bind]; cbv zeta; fold rest; by rewrite Hc|].
    eapply gives_part.
    { unfold part, session_snapshot. match goal with |- context [en_sessions (set_session e sid ?s') !! sid] =>
        replace (en_sessions (set_session e sid s') !! sid) with (Some s') by (destruct e; symmetry; apply lookup_insert_eq) end. reflexivity. }
    do 3 (eapply gives_part; [reflexivity|]). destruct closed as [[cid cn]|]; by eapply gives_done.
Qed.

Lemma resize_panes_cons e ts resized r rect l :
  resize_panes e ts resized ((r, rect) :: l) = let! (e, ts) := resize_panes e ts resized [(r, rect)] in resize_panes e ts resized l.
Proof. cbn [resize_panes]. destruct (en_props e !! r) as [p|]; [|done]. destruct (resize_pane _ _ _ _) as [[p' t]|]; done. Qed.

Lemma resize_alone e ts wid sid rows cols l resized :
  gives powi (e, ts) (RecomputeResize wid sid rows cols l resized)
    (let! (e, ts) := resize_panes e ts resized l in
     Some (reply ReSize ts (persist_session (notify_window_changed e wid) sid, Some (rows, cols)))).
Proof.
  revert e ts. induction l as [|[r rect] l IH]; intros e ts.
  - do 2 (eapply gives_part; [reflexivity|]). by eapply gives_done.
  - rewrite resize_panes_cons. destruct (resize_panes e ts resized [(r, rect)]) as [[e1 ts1]|] eqn:Hr;
      [|eapply gives_panic; cbn [part]; by rewrite Hr].
    eapply gives_part; [cbn [part]; by rewrite Hr|]. cbn [mbind option_bind]. apply IH.
Qed.

Lemma viewport_alone e ts wid c rows cols resized :
  gives powi (e, ts) (ReportViewport wid c rows cols resized)
    (let! (e, ts, r) := report_viewport_and_recompute e ts wid c rows cols resized in Some (reply ReSize ts (e, r))).
Proof.
  eapply gives_part; [reflexivity|]. unfold report_viewport_and_recompute. cbv zeta. fold (with_viewport e wid c rows cols).
  generalize (with_viewport e wid c rows cols). clear e rows cols. intros e. unfold recompute_window_geometry.
  destruct (effective_size _) as [[rows cols]|] eqn:He; [|eapply gives_panic; unfold part; by rewrite He].
  eapply gives_part; [unfold part; by rewrite He|]. cbn [mbind option_bind].
  destruct (session_for_window (en_index e) wid) as [sid|] eqn:Hw; [|eapply gives_done; unfold part; by rewrite Hw].
  eapply gives_part; [unfold part; by rewrite Hw|]. destruct (en_sessions e !! sid) as [s|] eqn:Hs; [|eapply gives_done; unfold part; by rewrite Hs].
  destruct (find_window s wid) as [[i w]|] eqn:Hf; [|eapply gives_done; unfold part; by rewrite Hs, Hf].
  cbv zeta. destruct (compute_geometry _ rows cols) as [rects|] eqn:Hg; [|eapply gives_panic; unfold part; by rewrite Hs, Hf, Hg].
  eapply gives_part; [unfold part; by rewrite Hs, Hf, Hg|]. cbn [mbind option_bind]. eapply gives_part; [reflexivity|].
  match goal with |- gives _ (?e1, ts) _ _ => pose proof (resize_alone e1 ts wid sid rows cols (live_pane_rects e1 rects) resized) as [n Hn] end.
  exists n. intros m. rewrite Hn. destruct (resize_panes _ _ _ _) as [[e2 ts2]|]; done.
Qed.
End Alone.

(** ** The structure of the sessions *)

Definition used_pane (ss : gmap Uuid SessionState) (pid sid wid : Uuid) : Prop :=
  ∃ s w, ss !! sid = Some s ∧ w ∈ s_windows s ∧ w_id w = wid ∧ pid ∈ leaves (w_layout w).
Definition used_window (ss : gmap Uuid SessionState) (wid sid : Uuid) : Prop :=
  ∃ s, ss !! sid = Some s ∧ wid ∈ map w_id (s_windows s).

(** Sessions have their own id and an active window, windows their own ids, well-formed
    layouts and a size within the limits, and a pane is in one place. *)
Record structure (ss : gmap Uuid SessionState) : Prop := {
  sc_id sid s : ss !! sid = Some s → s_id s = sid;
  sc_active sid s : ss !! sid = Some s → s_active_window_id s ∈ map w_id (s_windows s);
  sc_nodup sid s : ss !! sid = Some s → NoDup (map w_id (s_windows s));
  sc_window sid s w : ss !! sid = Some s → w ∈ s_windows s → window_ok w;
  sc_once pid sid wid sid' wid' : used_pane ss pid sid wid → used_pane ss pid sid' wid' → sid = sid' ∧ wid = wid';
}.

(** The panes, windows and sessions of [ss'] are those of [ss], and at most the new ones. *)
Record grows (np nw ns : option Uuid) (ss ss' : gmap Uuid SessionState) : Prop := {
  gr_pane pid sid wid : used_pane ss' pid sid wid → used_pane ss pid sid wid ∨ np = Some pid;
  gr_window wid sid : used_window ss' wid sid → used_window ss wid sid ∨ nw = Some wid;
  gr_session sid : is_Some (ss' !! sid) → is_Some (ss !! sid) ∨ ns = Some sid;
}.

Lemma grows_refl np nw ns ss : grows np nw ns ss ss.
Proof. split; auto. Qed.

Section Structure.
Context (ss : gmap Uuid SessionState) (Hss : structure ss) (sid : Uuid).

Lemma structure_delete : structure (delete sid ss).
Proof.
  assert (Hl : ∀ sid' s, delete sid ss !! sid' = Some s → ss !! sid' = Some s) by (by intros sid' s [_ H]%lookup_delete_Some).
  assert (Hu : ∀ pid sid' wid, used_pane (delete sid ss) pid sid' wid → used_pane ss pid sid' wid)
    by (intros pid sid' wid (s & w & H & ?); exists s, w; by split; [apply Hl|]).
  destruct Hss as [H1 H2 H3 H4 H5]. split; eauto.
Qed.

Lemma grows_delete np nw ns : grows np nw ns ss (delete sid ss).
Proof.
  split.
  - intros pid sid' wid (s & w & [_ H]%lookup_delete_Some & ?). left. by exists s, w.
  - intros wid sid' (s & [_ H]%lookup_delete_Some & ?). left. by exists s.
  - intros sid' [s [_ H]%lookup_delete_Some]. left. by eexists.
Qed.

(** A session is put in place of what was there: its panes are its old ones in their old
    windows, or the new one, in one window. *)
Context (np nw ns : option Uuid) (s' : SessionState).
Context (Hold : ∀ wid, wid ∈ map w_id (s_windows s') → used_window ss wid sid ∨ nw = Some wid).
Context (Hpane : ∀ w pid, w ∈ s_windows s' → pid ∈ leaves (w_layout w) → used_pane ss pid sid (w_id w) ∨ np = Some pid).
Context (Hns : is_Some (ss !! sid) ∨ ns = Some sid).

Lemma grows_insert : grows np nw ns ss (<[sid := s']> ss).
Proof.
  split.
  - intros pid sid' wid (s & w & [[<- <-]|[Hne H]]%lookup_insert_Some & Hw & <- & Hp); [by apply Hpane|]. left. by exists s, w.
  - intros wid sid' (s & [[<- <-]|[Hne H]]%lookup_insert_Some & Hw); [by apply Hold|]. left. by exists s.
  - intros sid' [s [[<- <-]|[Hne H]]%lookup_insert_Some]; [done|]. left. by eexists.
Qed.

Context (Hid : s_id s' = sid) (Hactive : s_active_window_id s' ∈ map w_id (s_windows s')) (Hnd : NoDup (map w_id (s_windows s'))).
Context (Hok : ∀ w, w ∈ s_windows s' → window_ok w).
Context (Hnew : ∀ pid, np = Some pid → ∀ sid wid, ¬ used_pane ss pid sid wid).
Context (Hone : ∀ pid w w', np = Some pid → w ∈ s_windows s' → w' ∈ s_windows s' → pid ∈ leaves (w_layout w) → pid ∈ leaves (w_layout w') → w_id w = w_id w').

Lemma structure_insert : structure (<[sid := s']> ss).
Proof.
  assert (Hu : ∀ pid sid' wid, used_pane (<[sid := s']> ss) pid sid' wid → used_pane ss pid sid' wid ∨ (sid' = sid ∧ np = Some pid)).
  { intros pid sid' wid (s & w & [[<- <-]|[Hne H]]%lookup_insert_Some & Hw & <- & Hp); [|left; by exists s, w].
    destruct (Hpane w pid Hw Hp); auto. }
  split.
  - intros sid' s [[<- <-]|[_ H]]%lookup_insert_Some; [done|]. by apply (sc_id _ Hss).
  - intros sid' s [[<- <-]|[_ H]]%lookup_insert_Some; [done|]. by eapply (sc_active _ Hss).
  - intros sid' s [[<- <-]|[_ H]]%lookup_insert_Some; [done|]. by eapply (sc_nodup _ Hss).
  - intros sid' s w [[<- <-]|[_ H]]%lookup_insert_Some; [by apply Hok|]. by eapply (sc_window _ Hss).
  - intros pid sid1 wid1 sid2 wid2 H1 H2. destruct (Hu _ _ _ H1) as [U1|[-> N1]], (Hu _ _ _ H2) as [U2|[-> N2]].
    + by eapply (sc_once _ Hss).
    + by destruct (Hnew _ N2 _ _ U1).
    + by destruct (Hnew _ N1 _ _ U2).
    + split; [done|]. destruct H1 as (s1 & w1 & E1 & Hw1 & <- & P1), H2 as (s2 & w2 & E2 & Hw2 & <- & P2).
      rewrite lookup_insert_eq in E1, E2. simplify_eq. by eapply Hone.
Qed.
End Structure.

(** A window is replaced by one with the same id whose panes are the old ones and at most a
    new one. *)
Lemma structure_window ss sid s i w w' np active :
  structure ss → ss !! sid = Some s → s_windows s !! i = Some w → w_id w' = w_id w → window_ok w' →
  active ∈ map w_id (s_windows s) →
  (∀ pid, pid ∈ leaves (w_layout w') → pid ∈ leaves (w_layout w) ∨ np = Some pid) →
  (∀ pid, np = Some pid → ∀ sid wid, ¬ used_pane ss pid sid wid) →
  structure (<[sid := with_windows s (<[i := w']> (s_windows s)) active]> ss) ∧
  grows np None None ss (<[sid := with_windows s (<[i := w']> (s_windows s)) active]> ss).
Proof.
  intros Hss Hs Hi Hid Hok Ha Hp Hn. set (s' := with_windows _ _ _).
  assert (Hids : map w_id (s_windows s') = map w_id (s_windows s)).
  { change (map w_id (s_windows s')) with (w_id <$> <[i := w']> (s_windows s)). rewrite list_fmap_insert, Hid.
    change (map w_id (s_windows s)) with (w_id <$> s_windows s). apply list_insert_id. by rewrite list_lookup_fmap, Hi. }
  assert (Hcase : ∀ v, v ∈ s_windows s' → v = w' ∨ v ∈ s_windows s).
  { intros v [j Hj]%list_elem_of_lookup. apply list_lookup_insert_Some in Hj as [(_ & <- & _)|[_ Hj]]; [by left|right; by eapply list_elem_of_lookup_2]. }
  assert (Hold : ∀ wid, wid ∈ map w_id (s_windows s') → used_window ss wid sid ∨ None = Some wid) by (intros wid Hw; left; exists s; by rewrite <-Hids).
  assert (Hpane : ∀ v pid, v ∈ s_windows s' → pid ∈ leaves (w_layout v) → used_pane ss pid sid (w_id v) ∨ np = Some pid).
  { intros v pid [->|Hv]%Hcase Hpid; [destruct (Hp _ Hpid) as [Hpid'|]; [left|by right]|left].
    - exists s, w. split_and!; try done. by eapply list_elem_of_lookup_2.
    - by exists s, v. }
  split; [|apply grows_insert; try done; left; by eexists].
  apply (structure_insert ss Hss sid np None None s'); try done; try (left; by eexists).
  - exact (sc_id _ Hss sid s Hs).
  - by rewrite Hids.
  - rewrite Hids. by eapply (sc_nodup _ Hss).
  - intros v [->|Hv]%Hcase; [done|]. by eapply (sc_window _ Hss).
  - intros pid v1 v2 Hnp Hv1 Hv2 H1 H2. apply Hcase in Hv1 as [->|Hv1], Hv2 as [->|Hv2]; [done| | |];
      exfalso; [eapply (Hn pid Hnp sid (w_id v2)); by exists s, v2|eapply (Hn pid Hnp sid (w_id v1)); by exists s, v1..].
Qed.

(** ** All interleavings *)

(** The ids a call has drawn and not yet put into the sessions. *)
Definition new_pane (c : Call) : option Uuid :=
  match c with
  | SplitLookup _ _ sp _ | SplitLayout _ _ _ _ sp _ | WindowPush _ _ sp _ | CreateInsert _ _ _ sp _ _ => Some (sp_id sp)
  | _ => None
  end.
Definition new_window (c : Call) : option Uuid :=
  match c with WindowPush _ wid _ _ | CreateInsert _ wid _ _ _ _ => Some wid | _ => None end.
Definition new_session (c : Call) : option Uuid := match c with CreateInsert sid _ _ _ _ _ => Some sid | _ => None end.

(** The session a call has under the lock it keeps. *)
Definition held_session (c : Call) : option Uuid :=
  match c with
  | WindowPanes sid _ _ _ _ | WindowRegister sid _ _ _ _ | WindowIndex_ sid _ _ | WindowSnapshot_ sid | CloseSnapshot _ sid _ _ => Some sid
  | _ => None
  end.

(** The size a recompute has read from the viewports. *)
Definition read_size (c : Call) : option (Z * Z) :=
  match c with RecomputeIndex _ rows cols _ | RecomputeLayout _ _ rows cols _ => Some (rows, cols) | _ => None end.

(** How calls begin. *)
Definition first_part (c : Call) : bool :=
  match c with
  | SplitLookup _ _ _ _ | WindowPush _ _ _ _ | CreateInsert _ _ _ _ _ _ | KillRemove _ | CloseLookup _
  | ReportViewport _ _ _ _ _ | RecomputeSize _ _ | PolicySession _ _ _ _ => true
  | _ => false
  end.

Definition fresh_in (ss : gmap Uuid SessionState) (c : Call) : Prop :=
  (∀ pid, new_pane c = Some pid → ∀ sid wid, ¬ used_pane ss pid sid wid) ∧
  (∀ wid, new_window c = Some wid → ∀ sid, ¬ used_window ss wid sid) ∧
  (∀ sid, new_session c = Some sid → ss !! sid = None).

Definition apart (c c' : Call) : Prop :=
  (∀ x, new_pane c = Some x → new_pane c' ≠ Some x) ∧ (∀ x, new_window c = Some x → new_window c' ≠ Some x) ∧
  (∀ x, new_session c = Some x → new_session c' ≠ Some x).

Section Machine.
Context {B : Type} `{BK : PersistenceBackend B} (powi : spec_float → Z → spec_float) {T : Type} `{EM : Emulator T}.
Implicit Types (e : Engine B) (ts : N → T) (cs : gmap nat Call).

(** The engine, the emulators and the calls that run, by thread. *)
Record Config := mkConfig { cf_engine : Engine B; cf_emulators : N → T; cf_calls : gmap nat Call }.

(** The [sessions] lock is free for thread [k]. *)
Definition may_run cs (k : nat) (c : Call) : Prop :=
  needs_sessions c = true → ∀ k' c', cs !! k' = Some c' → holds_sessions c' = false.

(** A call starts, with new ids; a call does its next part; or something else happens in the
    daemon: reader threads, supervision, starting and stopping of panes, persistence. It may
    change anything but the sessions, and of the viewports it only drops some. *)
Inductive conc_step : Config → Config → Prop :=
| starts e ts cs k c :
    cs !! k = None → first_part c = true → fresh_in (en_sessions e) c → (∀ k' c', cs !! k' = Some c' → apart c c') →
    conc_step (mkConfig e ts cs) (mkConfig e ts (<[k := c]> cs))
| goes_on e ts cs k c e' ts' c' :
    cs !! k = Some c → may_run cs k c → part powi (e, ts) c = Some ((e', ts'), inl c') →
    conc_step (mkConfig e ts cs) (mkConfig e' ts' (<[k := c']> cs))
| returns e ts cs k c e' ts' r :
    cs !! k = Some c → may_run cs k c → part powi (e, ts) c = Some ((e', ts'), inr r) →
    conc_step (mkConfig e ts cs) (mkConfig e' ts' (delete k cs))
| elsewhere e ts cs e' ts' :
    en_sessions e' = en_sessions e → viewports_ok (en_viewports e') → (∀ r, emulator_ok (ts' r)) →
    conc_step (mkConfig e ts cs) (mkConfig e' ts' cs).

Record conc_ok (cf : Config) : Prop := {
  co_structure : structure (en_sessions (cf_engine cf));
  co_viewports : viewports_ok (en_viewports (cf_engine cf));
  co_emulators r : emulator_ok (cf_emulators cf r);
  co_fresh k c : cf_calls cf !! k = Some c → fresh_in (en_sessions (cf_engine cf)) c;
  co_apart k k' c c' : cf_calls cf !! k = Some c → cf_calls cf !! k' = Some c' → k ≠ k' → apart c c';
  co_lock k k' c c' : cf_calls cf !! k = Some c → cf_calls cf !! k' = Some c' → holds_sessions c = true → holds_sessions c' = true → k = k';
  co_held k c sid : cf_calls cf !! k = Some c → held_session c = Some sid → is_Some (en_sessions (cf_engine cf) !! sid);
  co_size k c sz : cf_calls cf !! k = Some c → read_size c = Some sz → size_ok sz;
}.

(** *** One part *)

(** The parts that write the sessions. *)
Definition writes_sessions (c : Call) : bool :=
  match c with
  | SplitLayout _ _ _ _ _ _ | WindowPush _ _ _ _ | CreateInsert _ _ _ _ _ _ | KillRemove _ | CloseLayout _ _ _
  | RecomputeLayout _ _ _ _ _ | PolicySession _ _ _ _ => true
  | _ => false
  end.

Lemma drop_pane_frame e pid : en_sessions (drop_pane e pid) = en_sessions e ∧ en_viewports (drop_pane e pid) = en_viewports e.
Proof. unfold drop_pane. destruct e. cbn. repeat case_match; done. Qed.

Lemma drop_panes_frame e pids :
  en_sessions (foldl drop_pane e pids) = en_sessions e ∧ en_viewports (foldl drop_pane e pids) = en_viewports e.
Proof.
  revert e. induction pids as [|pid pids IH]; intros e; [done|]. cbn [foldl]. destruct (IH (drop_pane e pid)) as [-> ->]. apply drop_pane_frame.
Qed.

Lemma resize_panes_view e ts resized l e' ts' :
  resize_panes e ts resized l = Some (e', ts') → en_sessions e' = en_sessions e ∧ en_viewports e' = en_viewports e.
Proof.
  revert e ts. induction l as [|[r rect] l IH]; intros e ts; cbn [resize_panes]; [by intros [= <- <-]|].
  destruct (en_props e !! r) as [props|]; [|apply IH]. destruct (resize_pane _ _ _ _) as [[props' t]|]; [|done]. cbn [mbind option_bind].
  intros [-> ->]%IH. by destruct e.
Qed.

Lemma persist_frame e sid : en_sessions (persist_session e sid) = en_sessions e ∧ en_viewports (persist_session e sid) = en_viewports e.
Proof. destruct (persist_same e sid) as (H1 & _ & _ & _ & _ & H6). done. Qed.

Ltac frame_part :=
  repeat match goal with
  | |- context [en_sessions (persist_session ?e ?s)] => rewrite (proj1 (persist_frame e s))
  | |- context [en_viewports (persist_session ?e ?s)] => rewrite (proj2 (persist_frame e s))
  | |- context [en_sessions (foldl drop_pane ?e ?l)] => rewrite (proj1 (drop_panes_frame e l))
  | |- context [en_viewports (foldl drop_pane ?e ?l)] => rewrite (proj2 (drop_panes_frame e l))
  | |- context [en_sessions (drop_pane ?e ?l)] => rewrite (proj1 (drop_pane_frame e l))
  | |- context [en_viewports (drop_pane ?e ?l)] => rewrite (proj2 (drop_pane_frame e l))
  end.

Lemma part_sessions e ts c e' ts' next :
  writes_sessions c = false → part powi (e, ts) c = Some ((e', ts'), next) → en_sessions e' = en_sessions e.
Proof.
  intros Hw H. destruct c; try discriminate Hw; cbn [part] in H;
    repeat match type of H with context [match ?x with _ => _ end] => destruct x eqn:? end; cbn [mbind option_bind] in H; simplify_eq;
    frame_part; try done; try (by destruct e); try (by eapply resize_panes_view).
  all: try (destruct e; cbn; frame_part; done).
Qed.
Lemma part_viewports e ts c e' ts' next :
  viewports_ok (en_viewports e) → part powi (e, ts) c = Some ((e', ts'), next) → viewports_ok (en_viewports e').
Proof.
  intros Hv H. assert (Hcase : en_viewports e' = en_viewports e ∨ ∃ wid cl rows cols, e' = with_viewport e wid cl rows cols).
  { destruct c; cbn [part] in H;
      repeat match type of H with context [match ?x with _ => _ end] => destruct x eqn:? end; cbn [mbind option_bind] in H; simplify_eq;
      first [right; by eauto|left]; frame_part; try done; try (by destruct e); try (by eapply resize_panes_view);
      destruct e; cbn; frame_part; done. }
  destruct Hcase as [->|(wid & cl & rows & cols & ->)]; [done|]. by apply with_viewport_view.
Qed.

Lemma resize_one_emulators e ts resized r rect e' ts' :
  (∀ r, emulator_ok (ts r)) → resize_panes e ts resized [(r, rect)] = Some (e', ts') → ∀ r, emulator_ok (ts' r).
Proof.
  intros Ht. cbn [resize_panes]. destruct (en_props e !! r) as [props|]; [|by intros [= _ <-]].
  destruct (resize_pane _ _ _ _) as [[props' t]|] eqn:Hr; [|done]. cbn [mbind option_bind]. intros [= _ <-] r'.
  unfold set_emulator. destruct (N.eqb r' r); [|apply Ht]. revert Hr. unfold resize_pane. case_bool_decide; [by intros [= _ <-]|].
  destruct (resized r); [|by intros [= _ <-]].
  destruct (decide (1 ≤ Z.min (rect_rows rect) MAX_PANE_ROWS ∧ 1 ≤ Z.min (rect_cols rect) MAX_PANE_COLS)) as [[H1 H2]|Hz].
  - destruct (vt_set_size_ok (ts r) _ _ (Ht r) (conj H1 (Z.le_min_r _ _)) (conj H2 (Z.le_min_r _ _))) as (t2 & -> & Hok). by intros [= _ <-].
  - rewrite vt_set_size_zero by (try apply Ht; lia). done.
Qed.

Lemma part_emulators e ts c e' ts' next :
  (∀ r, emulator_ok (ts r)) → part powi (e, ts) c = Some ((e', ts'), next) → ∀ r, emulator_ok (ts' r).
Proof.
  intros Ht H. destruct c; cbn [part] in H;
    repeat match type of H with context [match ?x with _ => _ end] => destruct x eqn:? end; cbn [mbind option_bind] in H; simplify_eq; try done.
  by eapply resize_one_emulators.
Qed.

(** The parts that write the sessions keep their structure. *)
Definition keeps (c : Call) (ss ss' : gmap Uuid SessionState) : Prop :=
  structure ss' ∧ grows (new_pane c) (new_window c) (new_session c) ss ss'.

Lemma split_part e ts pid wid sid o sp t e' ts' next :
  structure (en_sessions e) → fresh_in (en_sessions e) (SplitLayout pid wid sid o sp t) →
  part powi (e, ts) (SplitLayout pid wid sid o sp t) = Some ((e', ts'), next) →
  keeps (SplitLayout pid wid sid o sp t) (en_sessions e) (en_sessions e').
Proof.
  intros Hss (Hnew & _) H. cbn [part] in H. destruct (en_sessions e !! sid) as [s|] eqn:Hs; [|simplify_eq; split; [done|apply grows_refl]].
  destruct (find_window s wid) as [[i w]|] eqn:Hf; [|simplify_eq; split; [done|apply grows_refl]].
  destruct (find_window_Some _ _ _ _ Hf) as [Hi Hid]. pose proof (list_elem_of_lookup_2 _ _ _ Hi) as Hin.
  destruct (sc_window _ Hss sid s w Hs Hin) as (Hwf & Hnd & Hr & Hc).
  assert (Hfree : sp_id sp ∉ leaves (w_layout w)) by (intros Hp; apply (Hnew _ eq_refl sid wid); by exists s, w).
  assert (Hu : is_u16 (w_rows w) ∧ is_u16 (w_cols w)) by (unfold MIN_PANE_ROWS, MAX_PANE_ROWS, MIN_PANE_COLS, MAX_PANE_COLS in *; machine_int).
  assert (Hsplit : ∃ layout out, split (w_layout w) pid o (sp_id sp) (w_rows w) (w_cols w) = Some (layout, out) ∧
    window_ok (with_layout w layout) ∧ ∀ p, p ∈ leaves layout → p ∈ leaves (w_layout w) ∨ Some (sp_id sp) = Some p).
  { assert (Hsame : window_ok (with_layout w (w_layout w))) by (by destruct w).
    destruct (decide (pid ∈ leaves (w_layout w))) as [Hp|Hp].
    - destruct (split_spec (w_layout w) pid o (sp_id sp) (w_rows w) (w_cols w) Hwf Hnd (proj1 Hu) (proj2 Hu) Hp) as (rects & rect & _ & _ & ->).
      destruct (split_check o rect); do 2 eexists; (split; [done|]); [by auto|]. split; [by apply window_ok_subst|].
      intros p. rewrite elem_of_leaves_subst by done. naive_solver.
    - rewrite split_absent by done. do 2 eexists. by auto. }
  destruct Hsplit as (layout & out & Hsp & Hok & Hl). rewrite Hsp in H. cbn [mbind option_bind] in H.
  assert (He : en_sessions e' = <[sid := with_windows s (<[i := with_layout w layout]> (s_windows s)) (s_active_window_id s)]> (en_sessions e))
    by (destruct out; simplify_eq; by destruct e).
  rewrite He. destruct (structure_window (en_sessions e) sid s i w (with_layout w layout) (Some (sp_id sp)) (s_active_window_id s)) as [H1 [G1 G2 G3]]; try done.
  by eapply (sc_active _ Hss).
Qed.

Lemma recompute_part e ts wid sid rows cols resized e' ts' next :
  structure (en_sessions e) → size_ok (rows, cols) →
  part powi (e, ts) (RecomputeLayout wid sid rows cols resized) = Some ((e', ts'), next) →
  keeps (RecomputeLayout wid sid rows cols resized) (en_sessions e) (en_sessions e').
Proof.
  intros Hss Hsz H. cbn [part] in H. destruct (en_sessions e !! sid) as [s|] eqn:Hs; [|simplify_eq; split; [done|apply grows_refl]].
  destruct (find_window s wid) as [[i w]|] eqn:Hf; [|simplify_eq; split; [done|apply grows_refl]].
  destruct (find_window_Some _ _ _ _ Hf) as [Hi Hid]. pose proof (list_elem_of_lookup_2 _ _ _ Hi) as Hin.
  destruct (sc_window _ Hss sid s w Hs Hin) as (Hwf & Hnd & _).
  destruct (compute_geometry _ _ _) as [rects|]; [|done]. cbn [mbind option_bind] in H. injection H as <- <- <-.
  replace (en_sessions (set_session e sid _)) with
    (<[sid := with_windows s (<[i := mkWindow (w_id w) (w_name w) (w_layout w) rows cols]> (s_windows s)) (s_active_window_id s)]> (en_sessions e)) by (by destruct e).
  destruct (structure_window (en_sessions e) sid s i w (mkWindow (w_id w) (w_name w) (w_layout w) rows cols) None (s_active_window_id s)) as [H1 [G1 G2 G3]]; try done.
  - by eapply (sc_active _ Hss).
  - by left.
Qed.

Lemma kill_part e ts sid e' ts' next :
  structure (en_sessions e) → part powi (e, ts) (KillRemove sid) = Some ((e', ts'), next) → keeps (KillRemove sid) (en_sessions e) (en_sessions e').
Proof.
  intros Hss H. cbn [part] in H. destruct (en_sessions e !! sid) as [s|]; simplify_eq; [|split; [done|apply grows_refl]].
  replace (en_sessions (set_sessions e _)) with (delete sid (en_sessions e)) by (by destruct e).
  split; [by apply structure_delete|apply grows_delete].
Qed.

Lemma policy_part e ts sid policy all now e' ts' next :
  structure (en_sessions e) → part powi (e, ts) (PolicySession sid policy all now) = Some ((e', ts'), next) →
  keeps (PolicySession sid policy all now) (en_sessions e) (en_sessions e').
Proof.
  intros Hss H. cbn [part] in H. destruct (en_sessions e !! sid) as [s|] eqn:Hs; simplify_eq; [|split; [done|apply grows_refl]].
  replace (en_sessions (set_session e sid _)) with (<[sid := mkSession (s_id s) (s_name s) (s_windows s) (s_active_window_id s) policy]> (en_sessions e)) by (by destruct e).
  assert (Hw : ∀ wid, wid ∈ map w_id (s_windows s) → used_window (en_sessions e) wid sid ∨ None = Some wid) by (left; by exists s).
  assert (Hp : ∀ w pid, w ∈ s_windows s → pid ∈ leaves (w_layout w) → used_pane (en_sessions e) pid sid (w_id w) ∨ None = Some pid) by (left; by exists s, w).
  split; [|apply grows_insert; try done; left; by eexists].
  apply (structure_insert (en_sessions e) Hss sid None None None); try done; [left; by eexists|..].
  - exact (sc_id _ Hss sid s Hs).
  - exact (sc_active _ Hss sid s Hs).
  - exact (sc_nodup _ Hss sid s Hs).
  - exact (λ w, sc_window _ Hss sid s w Hs).
Qed.

Lemma push_part e ts sid wid sp t e' ts' next :
  structure (en_sessions e) → fresh_in (en_sessions e) (WindowPush sid wid sp t) →
  part powi (e, ts) (WindowPush sid wid sp t) = Some ((e', ts'), next) →
  keeps (WindowPush sid wid sp t) (en_sessions e) (en_sessions e').
Proof.
  intros Hss (Hnp & Hnw & _) H. cbn [part] in H. destruct (en_sessions e !! sid) as [s|] eqn:Hs; simplify_eq; [|split; [done|apply grows_refl]].
  set (w0 := mkWindow wid _ _ _ _). set (s' := mkSession _ _ _ _ _).
  replace (en_sessions (set_session e sid s')) with (<[sid := s']> (en_sessions e)) by (by destruct e).
  assert (Hcase : ∀ w, w ∈ s_windows s' → w ∈ s_windows s ∨ w = w0) by (intros w [?|?%list_elem_of_singleton]%elem_of_app; auto).
  assert (Hids : map w_id (s_windows s') = map w_id (s_windows s) ++ [wid]) by (cbn [s' s_windows]; by rewrite map_app).
  assert (Hw : ∀ v, v ∈ map w_id (s_windows s') → used_window (en_sessions e) v sid ∨ Some wid = Some v).
  { intros v. rewrite Hids, elem_of_app, list_elem_of_singleton. intros [Hv| ->]; [left; by exists s|by right]. }
  assert (Hp : ∀ w pid, w ∈ s_windows s' → pid ∈ leaves (w_layout w) → used_pane (en_sessions e) pid sid (w_id w) ∨ Some (sp_id sp) = Some pid).
  { intros w pid [Hin| ->]%Hcase Hl; [left; by exists s, w|]. apply list_elem_of_singleton in Hl as ->. by right. }
  split; [|apply grows_insert; try done; left; by eexists].
  apply (structure_insert (en_sessions e) Hss sid (Some (sp_id sp)) (Some wid) None s'); try done; [left; by eexists|exact (sc_id _ Hss sid s Hs)|..].
  - rewrite Hids. apply elem_of_app. right. by apply list_elem_of_singleton.
  - rewrite Hids. apply NoDup_app. split; [by eapply (sc_nodup _ Hss)|]. split; [|apply NoDup_singleton].
    intros x Hx ->%list_elem_of_singleton. apply (Hnw wid eq_refl sid). by exists s.
  - intros w [Hin| ->]%Hcase; [by eapply (sc_window _ Hss)|]. unfold window_ok. cbn. split_and!; try done. apply NoDup_singleton.
  - intros pid w w' [= <-] H1 H2 P1 P2. apply Hcase in H1 as [H1| ->]; [exfalso; apply (Hnp (sp_id sp) eq_refl sid (w_id w)); by exists s, w|].
    apply Hcase in H2 as [H2| ->]; [exfalso; apply (Hnp (sp_id sp) eq_refl sid (w_id w')); by exists s, w'|done].
Qed.

Lemma create_part e ts sid wid name sp policy t e' ts' next :
  structure (en_sessions e) → fresh_in (en_sessions e) (CreateInsert sid wid name sp policy t) →
  part powi (e, ts) (CreateInsert sid wid name sp policy t) = Some ((e', ts'), next) →
  keeps (CreateInsert sid wid name sp policy t) (en_sessions e) (en_sessions e').
Proof.
  intros Hss (Hnp & Hnw & _) H. cbn [part] in H. simplify_eq. set (s' := mkSession _ _ _ _ _).
  replace (en_sessions (set_session e sid s')) with (<[sid := s']> (en_sessions e)) by (by destruct e).
  assert (Hw : ∀ v, v ∈ map w_id (s_windows s') → used_window (en_sessions e) v sid ∨ Some wid = Some v)
    by (intros v ->%list_elem_of_singleton; by right).
  assert (Hp : ∀ w pid, w ∈ s_windows s' → pid ∈ leaves (w_layout w) → used_pane (en_sessions e) pid sid (w_id w) ∨ Some (sp_id sp) = Some pid)
    by (intros w pid ->%list_elem_of_singleton ->%list_elem_of_singleton; by right).
  split; [|apply grows_insert; try done; by right].
  apply (structure_insert (en_sessions e) Hss sid (Some (sp_id sp)) (Some wid) (Some sid) s'); try done; [by right|..].
  - by apply list_elem_of_singleton.
  - apply NoDup_singleton.
  - intros w ->%list_elem_of_singleton. unfold window_ok. cbn. split_and!; try done. apply NoDup_singleton.
  - by intros pid w w' _ ->%list_elem_of_singleton ->%list_elem_of_singleton.
Qed.

Lemma close_part e ts pid wid sid e' ts' next :
  structure (en_sessions e) → part powi (e, ts) (CloseLayout pid wid sid) = Some ((e', ts'), next) →
  keeps (CloseLayout pid wid sid) (en_sessions e) (en_sessions e').
Proof.
  intros Hss H. cbn [part] in H. destruct (en_sessions e !! sid) as [s|] eqn:Hs; [|simplify_eq; split; [done|apply grows_refl]].
  destruct (find_window s wid) as [[i w]|] eqn:Hf; [|simplify_eq; split; [done|apply grows_refl]].
  destruct (find_window_Some _ _ _ _ Hf) as [Hi Hid]. pose proof (list_elem_of_lookup_2 _ _ _ Hi) as Hin.
  destruct (sc_window _ Hss sid s w Hs Hin) as (Hwf & Hnd & Hsz).
  assert (Hdel : keeps (CloseLayout pid wid sid) (en_sessions e) (delete sid (en_sessions e))) by (split; [by apply structure_delete|apply grows_delete]).
  destruct (remove_ok (w_layout w) Hwf pid Hnd) as ([layout|] & Hr & Hpost); rewrite Hr in H; cbn [mbind option_bind] in H.
  - rewrite insert_without in H by (by eapply lookup_lt_Some). destruct Hpost as [Hwf' Hl].
    destruct (structure_window (en_sessions e) sid s i w (with_layout w layout) None (s_active_window_id s)) as [H1 [G1 G2 G3]]; try done.
    + split_and!; cbn; [done|rewrite Hl; by apply NoDup_filter|apply Hsz..].
    + by eapply (sc_active _ Hss).
    + intros p Hp. cbn in Hp. rewrite Hl in Hp. apply list_elem_of_filter in Hp as [_ Hp]. by left.
    + assert (Hne : ∃ first ws, <[i := with_layout w layout]> (s_windows s) = first :: ws).
      { destruct (<[i := with_layout w layout]> (s_windows s)) as [|first ws] eqn:E; [|by eauto]. exfalso.
        apply (f_equal length) in E. rewrite length_insert in E. apply lookup_lt_Some in Hi. simpl in E. lia. }
      destruct Hne as (first & ws & Hne). rewrite Hne in *. simplify_eq.
      replace (en_sessions (set_session e sid _)) with (<[sid := with_windows s (first :: ws) (s_active_window_id s)]> (en_sessions e)) by (by destruct e).
      split; [done|]. by split.
  - destruct (take i (s_windows s) ++ drop (S i) (s_windows s)) as [|first ws] eqn:Hrest; simplify_eq.
    { replace (en_sessions (set_sessions e _)) with (delete sid (en_sessions e)) by (by destruct e). done. }
    assert (Hsub : sublist (first :: ws) (s_windows s)).
    { rewrite <- Hrest. rewrite <- (take_drop i (s_windows s)) at 3. apply sublist_app; [done|]. rewrite (drop_S _ _ _ Hi). by constructor. }
    set (s' := with_windows s (first :: ws) (w_id first)).
    replace (en_sessions (set_session e sid s')) with (<[sid := s']> (en_sessions e)) by (by destruct e).
    assert (Hel : ∀ v, v ∈ s_windows s' → v ∈ s_windows s) by (intros v Hv; by eapply elem_of_sublist).
    assert (Hw : ∀ v, v ∈ map w_id (s_windows s') → used_window (en_sessions e) v sid ∨ None = Some v).
    { intros v (x & -> & Hx)%list_elem_of_fmap. left. exists s. split; [done|]. apply list_elem_of_fmap. eauto. }
    assert (Hp : ∀ v p, v ∈ s_windows s' → p ∈ leaves (w_layout v) → used_pane (en_sessions e) p sid (w_id v) ∨ None = Some p)
      by (intros v p Hv Hl; left; exists s, v; eauto).
    split; [|apply grows_insert; try done; left; by eexists].
    apply (structure_insert (en_sessions e) Hss sid None None None s'); try done; [left; by eexists|exact (sc_id _ Hss sid s Hs)|left|..].
    + eapply sublist_NoDup; [by eapply (sc_nodup _ Hss)|]. by apply sublist_map.
    + intros v Hv. by eapply (sc_window _ Hss); [|apply Hel].
Qed.

Lemma part_keeps e ts c e' ts' next :
  structure (en_sessions e) → fresh_in (en_sessions e) c → (∀ sz, read_size c = Some sz → size_ok sz) →
  part powi (e, ts) c = Some ((e', ts'), next) → keeps c (en_sessions e) (en_sessions e').
Proof.
  intros Hss Hf Hsz H. destruct (writes_sessions c) eqn:Hw.
  - destruct c; try discriminate Hw; [by eapply split_part|by eapply push_part|by eapply create_part|by eapply kill_part|by eapply close_part
      |by eapply recompute_part; [|apply Hsz|]|by eapply policy_part].
  - rewrite (part_sessions _ _ _ _ _ _ Hw H). split; [done|apply grows_refl].
Qed.

(** What remains of a call: fewer new ids, none once the sessions are written. *)
Lemma part_next_new e ts c e' ts' c' :
  part powi (e, ts) c = Some ((e', ts'), inl c') →
  (new_pane c' = None ∨ writes_sessions c = false ∧ new_pane c' = new_pane c) ∧ new_window c' = None ∧ new_session c' = None.
Proof.
  intros H. destruct c; cbn [part] in H;
    repeat match type of H with context [match ?x with _ => _ end] => destruct x eqn:? end; cbn [mbind option_bind] in H; simplify_eq;
    (split; [first [by left|by right]|by split]).
Qed.

Lemma part_next_held e ts c e' ts' c' :
  part powi (e, ts) c = Some ((e', ts'), inl c') → ∀ sid, held_session c' = Some sid →
  (held_session c = Some sid ∧ writes_sessions c = false) ∨ (needs_sessions c = true ∧ is_Some (en_sessions e' !! sid)).
Proof.
  intros H sid Hs. destruct c; cbn [part] in H;
    repeat match type of H with context [match ?x with _ => _ end] => destruct x eqn:? end; cbn [mbind option_bind] in H; simplify_eq;
    cbn in Hs; simplify_eq; first [by left|right; split; [done|]]; destruct e; cbn; rewrite lookup_insert_eq; by eexists.
Qed.

Lemma part_next_size e ts c e' ts' c' :
  viewports_ok (en_viewports e) → (∀ sz, read_size c = Some sz → size_ok sz) → part powi (e, ts) c = Some ((e', ts'), inl c') →
  ∀ sz, read_size c' = Some sz → size_ok sz.
Proof.
  intros Hv Hc H sz Hs. destruct c; cbn [part] in H;
    repeat match type of H with context [match ?x with _ => _ end] => destruct x eqn:? end; cbn [mbind option_bind] in H; simplify_eq;
    cbn in Hs; simplify_eq; [|by apply Hc].
  destruct (effective_size_ok _ window_id Hv) as (r & k & E & Hok). congruence.
Qed.

Lemma holds_held c : holds_sessions c = true ↔ is_Some (held_session c).
Proof. destruct c; cbn; split; try done; try (by intros [? [=]]); intros _; by eexists. Qed.

Lemma writes_needs c : writes_sessions c = true → needs_sessions c = true.
Proof. by destruct c. Qed.

Lemma holds_no_needs c : holds_sessions c = true → needs_sessions c = false.
Proof. by destruct c. Qed.

Lemma fresh_grows c c' ss ss' :
  fresh_in ss c' → grows (new_pane c) (new_window c) (new_session c) ss ss' → apart c c' → fresh_in ss' c'.
Proof.
  intros (F1 & F2 & F3) [G1 G2 G3] (A1 & A2 & A3). split; [|split].
  - intros pid Hp sid wid [Hu|Hn]%G1; [by eapply F1|]. by apply (A1 pid Hn).
  - intros wid Hw sid [Hu|Hn]%G2; [by eapply F2|]. by apply (A2 wid Hn).
  - intros sid Hs. apply eq_None_not_Some. intros [[x Hx]|Hn]%G3; [by rewrite (F3 _ Hs) in Hx|]. by apply (A3 sid Hn).
Qed.

Lemma apart_sym c c' : apart c c' → apart c' c.
Proof. unfold apart. naive_solver. Qed.

(** What a part does to the calls of the other threads. *)
Lemma part_others e ts cs k c e' ts' next :
  conc_ok (mkConfig e ts cs) → cs !! k = Some c → may_run cs k c → part powi (e, ts) c = Some ((e', ts'), next) →
  structure (en_sessions e') ∧ viewports_ok (en_viewports e') ∧ (∀ r, emulator_ok (ts' r)) ∧
  ∀ k' c', k' ≠ k → cs !! k' = Some c' → fresh_in (en_sessions e') c' ∧
    ∀ sid, held_session c' = Some sid → is_Some (en_sessions e' !! sid).
Proof.
  intros Hok Hk Hrun H. destruct (part_keeps e ts c e' ts' next) as [Hs Hg]; [apply Hok|by eapply (co_fresh _ Hok)|exact (λ sz, co_size _ Hok k c sz Hk)|done|].
  split; [done|]. split; [by eapply part_viewports; [apply Hok|]|]. split; [by eapply part_emulators; [apply (co_emulators _ Hok)|]|].
  intros k' c' Hne Hk'. split.
  - eapply fresh_grows; [by eapply (co_fresh _ Hok)|done|]. by eapply (co_apart _ Hok).
  - intros sid Hh. destruct (writes_sessions c) eqn:Hw.
    + apply writes_needs in Hw. specialize (Hrun Hw k' c' Hk'). assert (holds_sessions c' = true) by (apply holds_held; by eexists). congruence.
    + rewrite (part_sessions _ _ _ _ _ _ Hw H). by eapply (co_held _ Hok).
Qed.

Lemma conc_step_ok cf cf' : conc_step cf cf' → conc_ok cf → conc_ok cf'.
Proof.
  destruct 1 as [e ts cs k c Hk Hfirst Hf Ha|e ts cs k c e' ts' c' Hk Hrun H|e ts cs k c e' ts' r Hk Hrun H|e ts cs e' ts' Hs Hv Ht]; intros Hok.
  - assert (Hh : holds_sessions c = false ∧ held_session c = None ∧ read_size c = None) by (by destruct c).
    destruct Hh as (Hh & Hhs & Hrs). destruct Hok as [O1 O2 O3 O4 O5 O6 O7 O8]. cbn [cf_engine cf_emulators cf_calls] in *.
    split; cbn [cf_engine cf_emulators cf_calls]; try done.
    + intros k' c' [[<- <-]|[_ H]]%lookup_insert_Some; [done|by eapply O4].
    + intros k1 k2 c1 c2 [[<- <-]|[Hn1 H1]]%lookup_insert_Some [[<- <-]|[Hn2 H2]]%lookup_insert_Some Hne;
        [done|by eapply Ha|apply apart_sym; by eapply Ha|by eapply (O5 k1 k2)].
    + intros k1 k2 c1 c2 [[<- <-]|[Hn1 H1]]%lookup_insert_Some [[<- <-]|[Hn2 H2]]%lookup_insert_Some Hc1 Hc2; try congruence. by eapply (O6 k1 k2).
    + intros k' c' sid [[<- <-]|[_ H]]%lookup_insert_Some Hc; [congruence|by eapply O7].
    + intros k' c' sz [[<- <-]|[_ H]]%lookup_insert_Some Hc; [congruence|by eapply O8].
  - destruct (part_others e ts cs k c e' ts' (inl c') Hok Hk Hrun H) as (P1 & P2 & P3 & P4).
    destruct (part_next_new e ts c e' ts' c' H) as (N1 & N2 & N3). pose proof (part_next_held e ts c e' ts' c' H) as N4.
    assert (Hcf : fresh_in (en_sessions e') c').
    { destruct (co_fresh _ Hok k c Hk) as (F1 & _). split; [|split]; [|intros ? E; congruence..]. destruct N1 as [N1|[Hw N1]]; [intros ? E; congruence|].
      rewrite N1, (part_sessions _ _ _ _ _ _ Hw H). exact F1. }
    assert (Hca : ∀ c2, apart c c2 → apart c' c2).
    { intros c2 (A1 & A2 & A3). split; [|split]; [|intros ? E; congruence..]. destruct N1 as [N1|[_ N1]]; rewrite N1; [done|exact A1]. }
    assert (Hlock : holds_sessions c' = true → ∀ k2 c2, k2 ≠ k → cs !! k2 = Some c2 → holds_sessions c2 = false).
    { intros [sid Hh]%holds_held k2 c2 Hne H2. destruct (N4 sid Hh) as [[Hc _]|[Hn _]]; [|by apply (Hrun Hn k2)].
      destruct (holds_sessions c2) eqn:E; [|done]. exfalso. apply Hne. eapply (co_lock _ Hok); [exact H2|exact Hk|done|]. apply holds_held. by eexists. }
    split; cbn [cf_engine cf_emulators cf_calls]; try done.
    + intros k1 c1 [[<- <-]|[Hn H1]]%lookup_insert_Some; [done|]. by apply (P4 k1 c1 (not_eq_sym Hn)).
    + intros k1 k2 c1 c2 [[<- <-]|[Hn1 H1]]%lookup_insert_Some [[<- <-]|[Hn2 H2]]%lookup_insert_Some Hne; [done|apply Hca; by eapply (co_apart _ Hok)
        |apply apart_sym, Hca; by eapply (co_apart _ Hok)|by eapply (co_apart _ Hok k1 k2)].
    + intros k1 k2 c1 c2 [[<- <-]|[Hn1 H1]]%lookup_insert_Some [[<- <-]|[Hn2 H2]]%lookup_insert_Some Hc1 Hc2; [done| | |by eapply (co_lock _ Hok k1 k2)].
      * rewrite (Hlock Hc1 k2 c2) in Hc2; done.
      * rewrite (Hlock Hc2 k1 c1) in Hc1; done.
    + intros k1 c1 sid [[<- <-]|[Hn H1]]%lookup_insert_Some Hh; [|by eapply (P4 k1 c1 (not_eq_sym Hn))].
      destruct (N4 sid Hh) as [[Hc Hw]|[_ Hp]]; [|done]. rewrite (part_sessions _ _ _ _ _ _ Hw H). by eapply (co_held _ Hok).
    + intros k1 c1 sz [[<- <-]|[Hn H1]]%lookup_insert_Some Hr; [|by eapply (co_size _ Hok)].
      eapply (part_next_size e ts c e' ts' c'); [apply Hok|exact (λ sz, co_size _ Hok k c sz Hk)|done|done].
  - destruct (part_others e ts cs k c e' ts' (inr r) Hok Hk Hrun H) as (P1 & P2 & P3 & P4).
    split; cbn [cf_engine cf_emulators cf_calls]; try done.
    + intros k1 c1 [Hn H1]%lookup_delete_Some. by apply (P4 k1 c1 (not_eq_sym Hn)).
    + intros k1 k2 c1 c2 [Hn1 H1]%lookup_delete_Some [Hn2 H2]%lookup_delete_Some. by apply (co_apart _ Hok k1 k2).
    + intros k1 k2 c1 c2 [Hn1 H1]%lookup_delete_Some [Hn2 H2]%lookup_delete_Some. by apply (co_lock _ Hok k1 k2).
    + intros k1 c1 sid [Hn H1]%lookup_delete_Some. by apply (P4 k1 c1 (not_eq_sym Hn)).
    + intros k1 c1 sz [Hn H1]%lookup_delete_Some. by apply (co_size _ Hok k1).
  - destruct Hok as [O1 O2 O3 O4 O5 O6 O7 O8]. cbn [cf_engine cf_emulators cf_calls] in *. split; cbn [cf_engine cf_emulators cf_calls]; rewrite ?Hs; done.
Qed.

(** *** Everything else *)

(** The operations that are not cut into parts, and the reader threads, leave the sessions
    and the viewports alone; a client that goes takes its viewport with it. *)
Definition leaves_sessions e e' : Prop := en_sessions e' = en_sessions e ∧ en_viewports e' = en_viewports e.

Lemma start_inner_leaves e pid fallback spawned respawned t :
  leaves_sessions e (fst (start_pane_inner powi e pid fallback spawned respawned t)).
Proof. unfold start_pane_inner, leaves_sessions. repeat (case_match; simplify_eq; cbn [fst]); by destruct e. Qed.

Lemma persist_leaves e e' sid : leaves_sessions e e' → leaves_sessions e (persist_session e' sid).
Proof. unfold leaves_sessions. by destruct (persist_frame e' sid) as [-> ->]. Qed.

Lemma persist_all_leaves e e' sids : leaves_sessions e e' → leaves_sessions e (foldl persist_session e' sids).
Proof. revert e'. induction sids as [|sid sids IH]; intros e' H; [done|]. by apply IH, persist_leaves. Qed.

Lemma supervision_leaves e sup : leaves_sessions e (set_supervision e sup).
Proof. by destruct e. Qed.

Lemma other_calls_leave_sessions e :
  (∀ pid spawned respawned t, leaves_sessions e (fst (start_pane powi e pid spawned respawned t))) ∧
  (∀ pid reset sent spawned respawned t, leaves_sessions e (fst (restart_pane powi e pid reset sent spawned respawned t))) ∧
  (∀ pid sent now, leaves_sessions e (fst (stop_pane e pid sent now))) ∧
  (∀ pid, leaves_sessions e (fst (reset_restart_budget e pid))) ∧
  (∀ pid policy now, leaves_sessions e (fst (set_restart_policy e pid policy now))) ∧
  (∀ spawned unit now, leaves_sessions e (fst (supervise_tick powi e spawned unit now))) ∧
  (∀ sid env, leaves_sessions e (fst (revive_session powi e sid env))) ∧
  (∀ sup, leaves_sessions e (set_supervision e sup)) ∧
  (∀ wid cl, en_sessions (unregister_viewport e wid cl) = en_sessions e).
Proof.
  split_and!.
  - intros. unfold start_pane. case_match; [|done]. destruct (start_pane_inner _ _ _ _ _ _ _) as [e1 res] eqn:E.
    pose proof (start_inner_leaves e pid policy_default spawned respawned t) as H1. rewrite E in H1. destruct res; [by apply persist_leaves|done].
  - intros. unfold restart_pane. case_match; [|done]. destruct (is_restored_record e pid).
    + destruct (start_pane_inner _ _ _ _ _ _ _) as [e1 res] eqn:E.
      pose proof (start_inner_leaves e pid policy_default spawned respawned t) as H1. rewrite E in H1. destruct res; [by apply persist_leaves|done].
    + destruct (restart _ _ _ _ _ _ _ _) as [sup res]. destruct res; cbn; [apply persist_leaves|]; apply supervision_leaves.
  - intros. unfold stop_pane. case_match; [|done]. destruct (stop _ _ _ _) as [sup res]. destruct res; cbn; [apply persist_leaves|]; apply supervision_leaves.
  - intros. unfold reset_restart_budget. case_match; [|done]. case_match; [|done]. apply persist_leaves, supervision_leaves.
  - intros. unfold set_restart_policy. case_match; [|done]. case_match; [|done]. apply persist_leaves, supervision_leaves.
  - intros. unfold supervise_tick, persist_dirty_supervision. destruct (run_due _ _ _ _ _) as [sup next]. destruct (take_dirty _) as [dirty sup2].
    apply persist_all_leaves. by destruct e.
  - intros. unfold revive_session. case_match; [|done]. case_match; [done|].
    assert (Hfold : ∀ env fallback ids acc, leaves_sessions e (fst acc) → leaves_sessions e (fst (foldl (revive_one powi env fallback) acc ids))).
    { intros env' fallback ids. induction ids as [|id ids IH]; intros [e1 n] Ha; [done|]. cbn [foldl]. apply IH. unfold revive_one.
      destruct (start_pane_inner _ _ _ _ _ _ _) as [e2 res] eqn:E.
      pose proof (start_inner_leaves e1 id fallback (re_spawned env' id) (re_respawned env' id) (re_tick env')) as [H1 H2]. rewrite E in H1, H2.
      destruct Ha as [A1 A2]. cbn [fst] in *. split; congruence. }
    repeat case_match; simplify_eq; try done; apply persist_leaves;
      match goal with E : foldl (revive_one _ ?env ?f) (e, _) ?ids = _ |- _ => specialize (Hfold env f ids (e, 0%nat)); rewrite E in Hfold; by apply Hfold end.
  - intros. apply supervision_leaves.
  - intros. by destruct e.
Qed.

(** *** Reachable configurations *)

Lemma sessions_structure ss ix : sessions_ok ss ix → structure ss.
Proof.
  intros Hok. split; [apply (so_id _ _ Hok)|apply (so_active _ _ Hok)|apply (so_nodup _ _ Hok)|apply (so_window _ _ Hok)|].
  intros pid sid wid sid' wid' (s & w & Hs & Hw & <- & Hp) (s' & w' & Hs' & Hw' & <- & Hp').
  assert (H1 : ix_pane_window ix !! pid = Some (w_id w)) by (apply (so_pw _ _ Hok); eauto 8).
  assert (H2 : ix_pane_window ix !! pid = Some (w_id w')) by (apply (so_pw _ _ Hok); eauto 8).
  assert (E : w_id w = w_id w') by congruence.
  assert (H3 : ix_window_session ix !! w_id w = Some sid) by (apply (so_ws _ _ Hok); exists s; eauto using elem_window_id).
  assert (H4 : ix_window_session ix !! w_id w = Some sid') by (rewrite E; apply (so_ws _ _ Hok); exists s'; eauto using elem_window_id).
  split; congruence.
Qed.

(** After any calls that did not overlap, any calls that do. *)
Definition conc_reachable (default_shell : list Z) (cf : Config) : Prop :=
  ∃ b e ts, reachable powi default_shell b e ∧ (∀ r, emulator_ok (ts r)) ∧ rtc conc_step (mkConfig e ts ∅) cf.

Lemma conc_reachable_ok default_shell cf : conc_reachable default_shell cf → conc_ok cf.
Proof.
  intros (b & e & ts & Hr & Ht & Hst). apply reachable_inv in Hr.
  assert (H0 : conc_ok (mkConfig e ts ∅)).
  { split; cbn [cf_engine cf_emulators cf_calls]; try done; [by eapply sessions_structure, inv_sessions|apply Hr]. }
  clear Ht Hr. remember (mkConfig e ts ∅) as cf0 eqn:E. clear E. induction Hst as [|x y z Hxy _ IH]; [done|]. by eapply IH, conc_step_ok.
Qed.

(** *** Panics *)

(** The session a split looked up is gone when it takes its snapshot. *)
Definition vanished e (c : Call) : Prop := ∃ wid sid, c = SplitSnapshot wid sid ∧ en_sessions e !! sid = None.

(** A pane, whose terminal accepts the change, is to get a size of no rows or no columns. *)
Definition degenerate e (c : Call) : Prop :=
  ∃ wid sid rows cols r rect l resized props, c = RecomputeResize wid sid rows cols ((r, rect) :: l) resized ∧ resized r = true ∧
    en_props e !! r = Some props ∧ (rect_rows rect < 1 ∨ rect_cols rect < 1) ∧
    pr_size props ≠ (Z.min (rect_rows rect) MAX_PANE_ROWS, Z.min (rect_cols rect) MAX_PANE_COLS).

Lemma resize_panics e ts resized r rect :
  (∀ r, emulator_ok (ts r)) → resize_panes e ts resized [(r, rect)] = None ↔
  resized r = true ∧ ∃ props, en_props e !! r = Some props ∧ (rect_rows rect < 1 ∨ rect_cols rect < 1) ∧
    pr_size props ≠ (Z.min (rect_rows rect) MAX_PANE_ROWS, Z.min (rect_cols rect) MAX_PANE_COLS).
Proof.
  intros Ht. cbn [resize_panes]. destruct (en_props e !! r) as [props|]; [|split; [done|by intros (_ & ? & ? & _)]].
  unfold resize_pane. case_bool_decide as Hsz; [split; [done|]; intros (_ & p & [= <-] & _ & ?); done|].
  destruct (resized r); [|split; [done|by intros [? _]]].
  destruct (decide (rect_rows rect < 1 ∨ rect_cols rect < 1)) as [Hz|Hz].
  - rewrite vt_set_size_zero by (try apply Ht; unfold MAX_PANE_ROWS, MAX_PANE_COLS; lia). split; [|done]. intros _. split; [done|]. by exists props.
  - destruct (vt_set_size_ok (ts r) (Z.min (rect_rows rect) MAX_PANE_ROWS) (Z.min (rect_cols rect) MAX_PANE_COLS)) as (t & -> & _);
      [apply Ht|unfold MAX_PANE_ROWS; lia|unfold MAX_PANE_COLS; lia|]. split; [done|]. intros (_ & p & _ & ? & _). done.
Qed.

Lemma part_panics e ts cs k c :
  conc_ok (mkConfig e ts cs) → cs !! k = Some c → part powi (e, ts) c = None → vanished e c ∨ degenerate e c.
Proof.
  intros Hok Hk H. pose proof (co_structure _ Hok) as Hss. cbn [cf_engine] in Hss.
  assert (Hheld : ∀ sid, held_session c = Some sid → is_Some (session_snapshot e sid)).
  { intros sid Hh. destruct (co_held _ Hok k c sid Hk Hh) as [s Hs]. cbn [cf_engine] in Hs. unfold session_snapshot. rewrite Hs. by eexists. }
  destruct c; try discriminate H; cbn [part] in H.
  - by repeat case_match.
  - destruct (en_sessions e !! session_id) as [s|] eqn:Hs; [|done]. destruct (find_window s window_id) as [[i w]|] eqn:Hf; [|done].
    destruct (find_window_Some _ _ _ _ Hf) as [Hi _].
    destruct (sc_window _ Hss session_id s w Hs (list_elem_of_lookup_2 _ _ _ Hi)) as (Hwf & Hnd & Hr & Hc).
    assert (Hu : is_u16 (w_rows w) ∧ is_u16 (w_cols w)) by (unfold MIN_PANE_ROWS, MAX_PANE_ROWS, MIN_PANE_COLS, MAX_PANE_COLS in *; machine_int).
    destruct (decide (pane_id ∈ leaves (w_layout w))) as [Hp|Hp]; [|rewrite split_absent in H by done; discriminate H].
    destruct (split_spec (w_layout w) pane_id o (sp_id sp) (w_rows w) (w_cols w) Hwf Hnd (proj1 Hu) (proj2 Hu) Hp) as (rects & rect & _ & _ & E).
    rewrite E in H. destruct (split_check o rect); discriminate H.
  - left. exists window_id, session_id. split; [done|]. unfold session_snapshot in H. by destruct (en_sessions e !! session_id).
  - by repeat case_match.
  - destruct (Hheld _ eq_refl) as [x Hx]. by rewrite Hx in H.
  - by repeat case_match.
  - by repeat case_match.
  - destruct (en_sessions e !! session_id) as [s|] eqn:Hs; [|done]. destruct (find_window s window_id) as [[i w]|] eqn:Hf; [|done].
    destruct (find_window_Some _ _ _ _ Hf) as [Hi _].
    destruct (sc_window _ Hss session_id s w Hs (list_elem_of_lookup_2 _ _ _ Hi)) as (Hwf & Hnd & _).
    destruct (remove_ok (w_layout w) Hwf pane_id Hnd) as ([layout|] & Hr & _); rewrite Hr in H; cbn [mbind option_bind] in H; by repeat case_match.
  - destruct (Hheld _ eq_refl) as [x Hx]. by rewrite Hx in H.
  - destruct (effective_size_ok _ window_id (co_viewports _ Hok)) as (rows & cols & E & _). cbn [cf_engine] in E. by rewrite E in H.
  - by repeat case_match.
  - destruct (en_sessions e !! session_id) as [s|] eqn:Hs; [|done]. destruct (find_window s window_id) as [[i w]|] eqn:Hf; [|done].
    destruct (find_window_Some _ _ _ _ Hf) as [Hi _].
    destruct (sc_window _ Hss session_id s w Hs (list_elem_of_lookup_2 _ _ _ Hi)) as (Hwf & _).
    pose proof (co_size _ Hok k _ (rows, cols) Hk eq_refl) as Hsz. unfold size_ok, MIN_PANE_ROWS, MAX_PANE_ROWS, MIN_PANE_COLS, MAX_PANE_COLS in Hsz. simpl in Hsz.
    destruct (compute_geometry_ok (w_layout w) rows cols Hwf) as (rects & Hg & _); [machine_int|machine_int|]. cbn [w_layout] in H. by rewrite Hg in H.
  - right. destruct rects as [|[r rect] l]; [done|]. destruct (resize_panes e ts resized [(r, rect)]) as [[e2 ts2]|] eqn:E; [done|].
    apply resize_panics in E as (Hres & props & Hp & Hz & Hne); [|apply (co_emulators _ Hok)]. unfold degenerate. by do 9 eexists.
  - by repeat case_match.
  - by repeat case_match.
Qed.
End Machine.

(** ** Properties *)

Section Properties.
Context {B : Type} `{BK : PersistenceBackend B} (powi : spec_float → Z → spec_float) (default_shell : list Z) {T : Type} `{EM : Emulator T}.

(** C2. The parts of a call, run one after the other with nothing in between, are the call:
    they return what its definition returns, leave the state it leaves, and panic when it
    panics, for splitting and closing a pane, creating and killing a session, adding a window
    and reporting a viewport, on every state. *)
Theorem uninterrupted_calls_are_the_operations (e : Engine B) (ts : N → T) :
  (∀ pid o command sp t,
     gives powi (spawn_pane e (default default_shell command) launch_default None DEFAULT_ROWS DEFAULT_COLS sp, ts) (SplitLookup pid o sp t)
       (reply ReSession ts <$> split_pane powi default_shell e pid o command (Some sp) t)) ∧
  (∀ pid, gives powi (e, ts) (CloseLookup pid) (reply ReClosed ts <$> close_pane e pid)) ∧
  (∀ sid, gives powi (e, ts) (KillRemove sid) (Some (reply ReUnit ts (kill_session e sid)))) ∧
  (∀ name command launch cwd policy sp wid sid t, Restart.validate policy = Ok tt →
     gives powi (spawn_pane e (default default_shell command) launch cwd DEFAULT_ROWS DEFAULT_COLS sp, ts) (CreateInsert sid wid name sp policy t)
       (Some ((fst (create_session_supervised powi default_shell e name command launch cwd policy (Some sp) wid sid t), ts), ReId sid))) ∧
  (∀ command sp wid sid t,
     gives powi (spawn_pane e (default default_shell command) launch_default None DEFAULT_ROWS DEFAULT_COLS sp, ts) (WindowPush sid wid sp t)
       (Some (reply ReSession ts (create_window powi default_shell e sid command (Some sp) wid t)))) ∧
  (∀ wid c rows cols resized,
     gives powi (e, ts) (ReportViewport wid c rows cols resized)
       (let! (e, ts, r) := report_viewport_and_recompute e ts wid c rows cols resized in Some (reply ReSize ts (e, r)))).
Proof.
  split; [|split; [intros; apply close_alone|split; [intros; apply kill_alone|split; [intros; by apply create_alone|
    split; [intros; apply window_alone|intros; apply viewport_alone]]]]].
  intros pid o command sp t. unfold split_pane. set (e1 := spawn_pane _ _ _ _ _ _ _).
  destruct (split_alone powi e1 ts pid o sp t) as [n Hn]. exists n. intros m. rewrite Hn. clear Hn.
  destruct (split_layout e1 pid o (sp_id sp)) as [[e2 [[[wid sid] policy]|err]]|]; cbn [mbind option_bind]; try done.
  by destruct (split_finish _ _ _) as [[e3 snap]|].
Qed.

(** C3. The sessions stay well formed however calls overlap: in every interleaving of the
    parts of any number of calls with each other and with everything else the daemon does,
    up to a first panic, every session has its own id and an active window, every window its
    own id, a well-formed layout without repeated panes and a size within the limits, and no
    pane is in two windows. *)
Theorem sessions_stay_well_formed (cf : Config (B := B) (T := T)) :
  conc_reachable powi default_shell cf → structure (en_sessions (cf_engine cf)).
Proof. intros H. by eapply co_structure, conc_reachable_ok. Qed.

End Properties.

(** ** Witnesses *)

(** Runs the parts of the calls in the order of a schedule of threads. *)
Definition w_cfg : Type := Config (B := gmap Uuid PersistedSessionRecord) (T := Z * Z).

Definition w_part (k : nat) (cf : w_cfg) : option w_cfg :=
  let! c := cf_calls cf !! k in
  if negb (needs_sessions c) || bool_decide (map_Forall (λ _ c, holds_sessions c = false) (cf_calls cf)) then
    let! ((e, ts), next) := part powi_iter (cf_engine cf, cf_emulators cf) c in
    Some (mkConfig e ts match next with inl c => <[k := c]> (cf_calls cf) | inr _ => delete k (cf_calls cf) end)
  else None.

Lemma w_part_step k cf cf' : w_part k cf = Some cf' → conc_step powi_iter cf cf'.
Proof.
  destruct cf as [e ts cs]. unfold w_part. cbn [cf_engine cf_emulators cf_calls]. destruct (cs !! k) as [c|] eqn:Hk; [|done]. cbn [mbind option_bind].
  destruct (_ || _) eqn:Hm; [|done].
  assert (Hrun : may_run cs k c).
  { intros Hn k' c' Hk'. rewrite Hn in Hm. apply bool_decide_eq_true in Hm. exact (Hm k' c' Hk'). }
  destruct (part _ _ _) as [[[e' ts'] [c'|r]]|] eqn:Hp; [| |done]; cbn [mbind option_bind]; intros [= <-]; [by eapply goes_on|by eapply returns].
Qed.

Fixpoint w_run (schedule : list nat) (cf : w_cfg) : option w_cfg :=
  match schedule with [] => Some cf | k :: ks => let! cf := w_part k cf in w_run ks cf end.

Lemma w_run_steps schedule cf cf' : w_run schedule cf = Some cf' → rtc (conc_step powi_iter) cf cf'.
Proof.
  revert cf. induction schedule as [|k ks IH]; intros cf; cbn [w_run]; [by intros [= <-]; constructor|].
  destruct (w_part k cf) as [cf1|] eqn:E; [|done]. cbn [mbind option_bind]. intros H. eapply rtc_l; [by eapply w_part_step|by apply IH].
Qed.

(** Thread 1 splits pane 10; once it has split the layout, thread 2 kills the session; then
    thread 1 goes on. *)
Definition w_start : w_cfg :=
  mkConfig (spawn_pane w_one w_shell launch_default None DEFAULT_ROWS DEFAULT_COLS (w_sp 2 11)) w_sizes ∅.
Definition w_split_cfg (cf : w_cfg) : w_cfg := mkConfig (cf_engine cf) (cf_emulators cf) (<[1%nat := SplitLookup 10%N Vertical (w_sp 2 11) w_t]> (cf_calls cf)).
Definition w_kill_cfg (cf : w_cfg) : w_cfg := mkConfig (cf_engine cf) (cf_emulators cf) (<[2%nat := KillRemove 30%N]> (cf_calls cf)).
Definition w_race_cfg : option w_cfg := let! cf := w_run [1; 1]%nat (w_split_cfg w_start) in w_run [2; 1; 1; 1]%nat (w_kill_cfg cf).

Lemma w_race_reachable cf : w_race_cfg = Some cf → conc_reachable powi_iter w_shell cf.
Proof.
  unfold w_race_cfg. destruct (w_run [1; 1]%nat (w_split_cfg w_start)) as [cf1|] eqn:E1; [|done]. cbn [mbind option_bind]. intros E2.
  exists ∅, w_one, w_sizes. split; [exact w_one_reachable|]. split; [exact (λ _, I)|].
  eapply (rtc_l _ _ w_start); [apply elsewhere; [reflexivity|apply (inv_viewports _ (reachable_inv _ _ _ _ w_one_reachable))|exact (λ _, I)]|].
  eapply (rtc_l _ _ (w_split_cfg w_start)).
  { apply starts; [reflexivity|reflexivity| |intros k' c' Hx; exfalso; exact (lookup_empty_Some k' c' Hx)].
    split; [|by split]. intros pid [= <-] sid wid (s & w & Hs & Hw & _ & Hp).
    assert (Hall : map_Forall (λ _ s, Forall (λ w, 11%N ∉ leaves (w_layout w)) (s_windows s)) (en_sessions (cf_engine w_start)))
      by (apply (bool_decide_unpack _); vm_compute; exact I).
    exact (proj1 (Forall_forall _ _) (Hall sid s Hs) w Hw Hp). }
  eapply (transitivity (R := rtc _)); [apply (w_run_steps _ _ _ E1)|]. eapply (rtc_l _ _ (w_kill_cfg cf1)); [|apply (w_run_steps _ _ _ E2)].
  assert (Hc : (λ cf, (cf_calls cf !! 2%nat : option Call)) <$> w_run [1; 1]%nat (w_split_cfg w_start) = Some None) by (vm_compute; reflexivity).
  rewrite E1 in Hc. injection Hc as Hc. destruct cf1 as [e1 ts1 cs1]. apply starts; [exact Hc|reflexivity|by split|]. intros k' c' _. by split.
Qed.

Lemma w_race_runs : ∃ cf, w_race_cfg = Some cf ∧ cf_calls cf !! 1%nat = Some (SplitSnapshot 20%N 30%N) ∧ en_sessions (cf_engine cf) !! 30%N = None.
Proof. eexists. split; [vm_compute; reflexivity|]. split; vm_compute; reflexivity. Qed.

Lemma uninterrupted_calls_are_the_operations_witness :
  gives powi_iter (w_two, w_sizes) (CloseLookup 11%N) (reply ReClosed w_sizes <$> close_pane w_two 11%N) ∧ is_Some (close_pane w_two 11%N).
Proof.
  split; [|vm_compute; eexists; reflexivity].
  exact (proj1 (proj2 (uninterrupted_calls_are_the_operations powi_iter w_shell w_two w_sizes)) 11%N).
Defined.

Lemma sessions_stay_well_formed_witness :
  ∃ cf, w_race_cfg = Some cf ∧ structure (en_sessions (cf_engine cf)).
Proof.
  destruct w_race_runs as (cf & E & _). exists cf. split; [exact E|]. exact (sessions_stay_well_formed powi_iter w_shell cf (w_race_reachable cf E)).
Defined.


