(* ===== verification/Listener.v ===== *)
(** * The daemon's listeners

    [listener_health.rs]: raising the file-descriptor limit, the pressure warning, and the
    stream of accepted connections that swallows passing errors and gives up on lasting ones.
    Times are milliseconds; every reading of a clock is an argument. The system calls
    ([setrlimit], [accept]) are arguments; the text of log lines is not modelled. *)

From S2P Require Import Prelude.

(** ** The descriptor limit *)

Definition MACOS_OPEN_MAX : Z := 10240.
Definition DEFAULT_NOFILE_CAP : Z := 1048576.
Definition FD_PRESSURE_PERCENT : Z := 80.
Definition ACCEPT_ERROR_LOG_INTERVAL : Z := 10000.

Definition desired_soft_limit (soft hard cap : Z) : Z := Z.max soft (Z.min hard cap).

Definition nofile_cap (macos : bool) : Z := if macos then MACOS_OPEN_MAX else DEFAULT_NOFILE_CAP.

Record NofileLimits := mkLimits { soft_before : Z; soft_after : Z; hard_limit : Z }.

(** [target - soft] at [u64]: an underflow is a panic. *)
Definition next_lower_target (target soft : Z) : option (option Z) :=
  if target <? soft then None
  else let next := soft + (target - soft) / 2 in Some (if soft <? next then Some next else None).

Section Raise.
Context {K E : Type} (set : K → Z → K * option E).

(** The loop of [raise_with]; [None] is a panic, [Some None] that the fuel ran out. *)
Fixpoint raise_loop (fuel : nat) (k : K) (soft candidate : Z) : option (option (K * result Z E)) :=
  match fuel with
  | O => Some None
  | S fuel =>
      match set k candidate with
      | (k, None) => Some (Some (k, Ok candidate))
      | (k, Some e) =>
          let! next := next_lower_target candidate soft in
          match next with
          | Some next => raise_loop fuel k soft next
          | None => Some (Some (k, Err e))
          end
      end
  end.

(** The gap to the current limit halves with every attempt: 65 are enough for [u64]. *)
Definition raise_with (k : K) (soft target : Z) : option (option (K * result Z E)) := raise_loop 65 k soft target.

Definition raise_nofile_limit (k : K) (getrlimit : result (Z * Z) E) (macos : bool) :
    option (option (K * result NofileLimits E)) :=
  match getrlimit with
  | Err e => Some (Some (k, Err e))
  | Ok (soft, hard) =>
      let target := desired_soft_limit soft hard (nofile_cap macos) in
      if target =? soft then Some (Some (k, Ok (mkLimits soft soft hard)))
      else
        let! r := raise_with k soft target in
        Some ((λ '(k, r), (k, match r with Ok v => Ok (mkLimits soft v hard) | Err e => Err e end)) <$> r)
  end.

End Raise.

(** [None] is an overflow of [u64]. *)
Definition u64_mul (a b : Z) : option Z := if a * b <=? u64_max then Some (a * b) else None.

Definition fd_pressure (open limit : Z) : option bool :=
  if 0 <? limit then
    let! a := u64_mul open 100 in
    let! b := u64_mul limit FD_PRESSURE_PERCENT in
    Some (b <=? a)
  else Some false.

(** ** Accept errors *)

Inductive AcceptErrorKind := Fatal | FdExhausted | Transient.

(** The Linux numbers. *)
Definition EBADF : Z := 9.
Definition EINVAL : Z := 22.
Definition ENFILE : Z := 23.
Definition EMFILE : Z := 24.
Definition ENOTSOCK : Z := 88.

Definition classify_accept_error (raw_os_error : option Z) : AcceptErrorKind :=
  match raw_os_error with
  | Some n =>
      if (n =? EBADF) || (n =? ENOTSOCK) || (n =? EINVAL) then Fatal
      else if (n =? EMFILE) || (n =? ENFILE) then FdExhausted else Transient
  | None => Transient
  end.

Record AcceptErrorLimiter := mkLimiter { last_logged : option Z; suppressed : Z }.

Definition limiter_default : AcceptErrorLimiter := mkLimiter None 0.

Definition admit_error (l : AcceptErrorLimiter) (now : Z) : AcceptErrorLimiter * option Z :=
  let due := match last_logged l with
             | None => true
             | Some t => ACCEPT_ERROR_LOG_INTERVAL <=? sat_sub now t
             end in
  if due then (mkLimiter (Some now) 0, Some (suppressed l))
  else (mkLimiter (last_logged l) (suppressed l + 1), None).

Definition ACCEPT_BACKOFF_START : Z := 10.
Definition ACCEPT_BACKOFF_MAX : Z := 1000.
Definition ACCEPT_PERSISTENT_ERROR_LIMIT : Z := 120000.

Record ListenerState := mkListener {
  limiter : AcceptErrorLimiter;
  backoff : Z;
  failing_since : option Z;
  last_error : option Z;
}.

Definition listener_new : ListenerState := mkListener limiter_default ACCEPT_BACKOFF_START None None.

(** What the incoming stream yields; an error comes with the three clock readings made for it. *)
Inductive incoming := InEnd | InConn | InErr (raw_os_error : option Z) (t_log t_now t_elapsed : Z).

(** What the loop does: end, yield a connection, yield the error after reporting the listener
    dead, or sleep and go on. *)
Inductive verdict := VEnd | VConn | VDead | VSleep (ms : Z).

Definition on_incoming (st : ListenerState) (i : incoming) : ListenerState * verdict :=
  match i with
  | InEnd => (st, VEnd)
  | InConn => (mkListener (limiter st) ACCEPT_BACKOFF_START None (last_error st), VConn)
  | InErr e t_log now t_elapsed =>
      let lim := fst (admit_error (limiter st) t_log) in
      match classify_accept_error e with
      | Fatal => (mkListener lim (backoff st) (failing_since st) (last_error st), VDead)
      | _ =>
          let quiet := match last_error st with Some t => ACCEPT_BACKOFF_MAX * 2 <? sat_sub now t | None => false end in
          let since0 := if quiet then None else failing_since st in
          let backoff0 := if quiet then ACCEPT_BACKOFF_START else backoff st in
          let since := default now since0 in
          if ACCEPT_PERSISTENT_ERROR_LIMIT <=? sat_sub t_elapsed since
          then (mkListener lim backoff0 (Some since) (Some now), VDead)
          else (mkListener lim (Z.min (backoff0 * 2) ACCEPT_BACKOFF_MAX) (Some since) (Some now), VSleep backoff0)
      end
  end.

Fixpoint log_accept_errors (st : ListenerState) (ins : list incoming) : ListenerState * list verdict :=
  match ins with
  | [] => (st, [])
  | i :: ins =>
      match on_incoming st i with
      | (st, VEnd) => (st, [VEnd])
      | (st, v) => let '(st, vs) := log_accept_errors st ins in (st, v :: vs)
      end
  end.

(** ** The limit is raised *)

Section Raised.
Context {K E : Type} (set : K → Z → K * option E).

(** The loop ends within its fuel and never panics; it returns the first value the kernel took,
    which is above the old limit, or the last error. *)
Lemma raise_loop_ends n k soft c :
  0 < c - soft < 2 ^ Z.of_nat n →
  ∃ k' r, raise_loop set (S n) k soft c = Some (Some (k', r)) ∧
    match r with Ok v => soft < v ≤ c ∧ ∃ k0, snd (set k0 v) = None | Err _ => True end.
Proof.
  revert k c. induction n as [|n IH]; intros k c Hc; [simpl in Hc; lia|].
  cbn [raise_loop]. destruct (set k c) as [k1 [e|]] eqn:Hset.
  - unfold next_lower_target. rewrite (proj2 (Z.ltb_ge c soft)) by lia.
    destruct (Z.ltb_spec soft (soft + (c - soft) / 2)) as [Hn|]; [|by do 2 eexists; split].
    assert (Hp : 2 ^ Z.of_nat (S n) = 2 * 2 ^ Z.of_nat n) by (rewrite Nat2Z.inj_succ, Z.pow_succ_r by lia; done).
    destruct (IH k1 (soft + (c - soft) / 2)) as (k' & r & Hr & Hpost); [lia_div|]. exists k', r. split; [exact Hr|].
    destruct r as [v|]; [|done]. destruct Hpost as [Hv Hk]. split; [lia_div|done].
  - do 2 eexists. split; [done|]. split; [lia|]. exists k. by rewrite Hset.
Qed.

(** Against a kernel that takes every value up to [lim]. *)
Lemma raise_loop_half n k soft c lim :
  (∀ k v, snd (set k v) = None ↔ v ≤ lim) → soft < lim →
  0 < c - soft < 2 ^ Z.of_nat n →
  ∃ k' v, raise_loop set (S n) k soft c = Some (Some (k', Ok v)) ∧ soft < v ≤ lim ∧
    (v = c ∨ lim - soft ≤ 2 * (v - soft) + 1).
Proof.
  intros Hk Hlim. revert k c. induction n as [|n IH]; intros k c Hc; [simpl in Hc; lia|].
  cbn [raise_loop]. pose proof (Hk k c) as Hkc. destruct (set k c) as [k1 [e|]] eqn:Hset; simpl in Hkc.
  - assert (lim < c) by (destruct (Z.le_gt_cases c lim) as [Hle|]; [by apply Hkc in Hle|done]).
    unfold next_lower_target. rewrite (proj2 (Z.ltb_ge c soft)) by lia.
    assert (Hp : 2 ^ Z.of_nat (S n) = 2 * 2 ^ Z.of_nat n) by (rewrite Nat2Z.inj_succ, Z.pow_succ_r by lia; done).
    rewrite (proj2 (Z.ltb_lt _ _)) by lia_div.
    destruct (IH k1 (soft + (c - soft) / 2)) as (k' & v & Hr & Hv & Hh'); [lia_div|].
    exists k', v. split; [exact Hr|]. split; [done|]. right. destruct Hh' as [->|]; lia_div.
  - do 2 eexists. split; [done|]. assert (c ≤ lim) by (by apply Hkc). split; [lia|by left].
Qed.

(** Raising the descriptor limit always ends, within 65 attempts for 64-bit limits, and
    never panics: it returns a value the kernel accepted, above the old limit and at most the
    target, or an error; and when the kernel accepts every value up to some ceiling above the
    old limit, it succeeds and gets at least half of what the ceiling allows. *)
Theorem raise_limit_terminates k soft target :
  0 ≤ soft < target → target ≤ u64_max →
  (∃ k' r, raise_with set k soft target = Some (Some (k', r)) ∧
     match r with Ok v => soft < v ≤ target ∧ ∃ k0, snd (set k0 v) = None | Err _ => True end) ∧
  (∀ lim, (∀ k v, snd (set k v) = None ↔ v ≤ lim) → soft < lim →
     ∃ k' v, raise_with set k soft target = Some (Some (k', Ok v)) ∧ soft < v ≤ lim ∧
       (v = target ∨ lim - soft ≤ 2 * (v - soft) + 1)).
Proof.
  intros Hs Ht. assert (Hg : 0 < target - soft < 2 ^ Z.of_nat 64) by (change (2 ^ Z.of_nat 64) with (u64_max + 1); lia).
  split; [by apply raise_loop_ends|]. intros lim Hk Hlim. by apply (raise_loop_half 64).
Qed.

End Raised.

(** ** Lasting errors are noticed *)

(** Non-fatal errors, each within two seconds of the one before. *)
Fixpoint streak (prev : Z) (ins : list incoming) : Prop :=
  match ins with
  | [] => True
  | InErr e _ now el :: ins =>
      classify_accept_error e ≠ Fatal ∧ prev ≤ now ≤ prev + ACCEPT_BACKOFF_MAX * 2 ∧ now ≤ el ∧ streak now ins
  | _ => False
  end.

(** What is done about an error of a streak that began at [t1]. *)
Definition noticed (t1 : Z) (i : incoming) (v : verdict) : Prop :=
  match i with
  | InErr _ _ _ el =>
      if ACCEPT_PERSISTENT_ERROR_LIMIT <=? el - t1 then v = VDead
      else ∃ ms, v = VSleep ms ∧ ACCEPT_BACKOFF_START ≤ ms ≤ ACCEPT_BACKOFF_MAX
  | _ => False
  end.

Definition backoff_ok (st : ListenerState) : Prop := ACCEPT_BACKOFF_START ≤ backoff st ≤ ACCEPT_BACKOFF_MAX.

(** One error of a streak, the first one included. *)
Lemma error_noticed st e tl now el t1 :
  classify_accept_error e ≠ Fatal → backoff_ok st → t1 ≤ now ≤ el →
  match last_error st with Some t => failing_since st = None ∨ now ≤ t + ACCEPT_BACKOFF_MAX * 2 | None => True end →
  default now (failing_since st) = t1 →
  noticed t1 (InErr e tl now el) (snd (on_incoming st (InErr e tl now el))) ∧
  snd (on_incoming st (InErr e tl now el)) ≠ VEnd ∧
  (let st' := fst (on_incoming st (InErr e tl now el)) in
   backoff_ok st' ∧ failing_since st' = Some t1 ∧ last_error st' = Some now).
Proof.
  intros He Hb Ht Hq Hs. unfold on_incoming, backoff_ok, ACCEPT_BACKOFF_START, ACCEPT_BACKOFF_MAX in *.
  set (quiet := match last_error st with Some t => _ | None => false end).
  assert (Hsince : default now (if quiet then None else failing_since st) = t1).
  { unfold quiet. destruct (last_error st) as [t|]; [|done]. destruct (Z.ltb_spec (1000 * 2) (sat_sub now t)); [|done].
    destruct Hq as [Hn|]; [by rewrite Hn in Hs|]. unfold sat_sub in *. lia. }
  set (b0 := if quiet then 10 else backoff st). assert (Hb0 : 10 ≤ b0 ≤ 1000) by (unfold b0; destruct quiet; lia).
  unfold noticed, ACCEPT_BACKOFF_START, ACCEPT_BACKOFF_MAX. rewrite Hsince.
  replace (sat_sub el t1) with (el - t1) by (unfold sat_sub; lia).
  destruct (classify_accept_error e); [done|..]; destruct (ACCEPT_PERSISTENT_ERROR_LIMIT <=? el - t1);
    cbn [fst snd backoff failing_since last_error]; split_and!; try done; eauto; lia.
Qed.

Lemma streak_noticed ins st t1 prev :
  backoff_ok st → failing_since st = Some t1 → last_error st = Some prev → t1 ≤ prev → streak prev ins →
  Forall2 (noticed t1) ins (snd (log_accept_errors st ins)).
Proof.
  revert st prev. induction ins as [|i ins IH]; intros st prev Hb Hf Hl Hp Hs; [constructor|].
  destruct i as [| |e tl now el]; [done|done|]. destruct Hs as (He & Hnow & Hel & Hs).
  destruct (error_noticed st e tl now el t1) as (Hn & Hne & Hb' & Hf' & Hl'); [done|done|lia|rewrite Hl; right; lia|by rewrite Hf|].
  cbn [log_accept_errors]. destruct (on_incoming st (InErr e tl now el)) as [st' v]. cbn [fst snd] in *.
  specialize (IH st' now Hb' Hf' Hl' ltac:(lia) Hs). destruct (log_accept_errors st' ins) as [st2 vs]. simpl in *.
  destruct v; try done; by constructor.
Qed.

(** A listener that only fails is given up, neither early nor never: in a run of non-fatal
    accept errors each within two seconds of the one before, every error seen less than two
    minutes after the first is slept on, for between ten milliseconds and a second, and the
    first one seen later reports the listener dead. *)
Theorem lasting_errors_end_the_listener st e tl t1 el ins :
  backoff_ok st → failing_since st = None → classify_accept_error e ≠ Fatal → t1 ≤ el → streak t1 ins →
  Forall2 (noticed t1) (InErr e tl t1 el :: ins) (snd (log_accept_errors st (InErr e tl t1 el :: ins))).
Proof.
  intros Hb Hf He Hel Hs.
  destruct (error_noticed st e tl t1 el t1) as (Hn & Hne & Hb' & Hf' & Hl');
    [done|done|lia|destruct (last_error st); [by left|done]|by rewrite Hf|].
  cbn [log_accept_errors]. destruct (on_incoming st (InErr e tl t1 el)) as [st' v]. cbn [fst snd] in *.
  pose proof (streak_noticed ins st' t1 t1 Hb' Hf' Hl' ltac:(lia) Hs) as Hrest.
  destruct (log_accept_errors st' ins) as [st2 vs]. simpl in *. destruct v; try done; by constructor.
Qed.

(** ** No error goes uncounted *)

(** Feeds the limiter the times of some errors; the counts it reports, newest last. *)
Fixpoint admit_all (l : AcceptErrorLimiter) (ts : list Z) : AcceptErrorLimiter * list Z :=
  match ts with
  | [] => (l, [])
  | t :: ts =>
      let '(l, o) := admit_error l t in
      let '(l, os) := admit_all l ts in (l, match o with Some n => n :: os | None => os end)
  end.

Lemma errors_all_counted l ts :
  let '(l', logged) := admit_all l ts in
  suppressed l + Z.of_nat (length ts) = foldr Z.add 0 logged + Z.of_nat (length logged) + suppressed l'.
Proof.
  revert l. induction ts as [|t ts IH]; intros l; [simpl; lia|]. cbn [admit_all length].
  unfold admit_error. destruct (match last_logged l with None => true | Some t0 => _ end); cbn [fst snd].
  - specialize (IH (mkLimiter (Some t) 0)). destruct (admit_all _ ts) as [l' logged]. cbn [foldr length suppressed] in *. lia.
  - specialize (IH (mkLimiter (last_logged l) (suppressed l + 1))). destruct (admit_all _ ts) as [l' logged].
    cbn [foldr length suppressed] in *. lia.
Qed.

(** An unlimited descriptor limit overflows the pressure test. *)
Lemma fd_pressure_overflows : fd_pressure 3 u64_max = None.
Proof. reflexivity. Qed.

(** ** Witnesses *)

(** A kernel that takes values up to 1000. *)
Definition capped (k : unit) (v : Z) : unit * option unit := (tt, if v <=? 1000 then None else Some tt).

Lemma raise_limit_terminates_witness :
  raise_with capped tt 256 10240 = Some (Some (tt, Ok 880)) ∧
  ∃ k' r, raise_with capped tt 256 10240 = Some (Some (k', r)) ∧
    match r with Ok v => 256 < v ≤ 10240 ∧ ∃ k0, snd (capped k0 v) = None | Err _ => True end.
Proof.
  split; [reflexivity|]. apply (raise_limit_terminates capped tt 256 10240); [lia|unfold u64_max; lia].
Defined.

Lemma lasting_errors_end_the_listener_witness :
  Forall2 (noticed 0) [InErr (Some EMFILE) 0 0 0; InErr (Some EMFILE) 1000 1000 1000; InErr None 2000 2000 120000]
    (snd (log_accept_errors listener_new [InErr (Some EMFILE) 0 0 0; InErr (Some EMFILE) 1000 1000 1000; InErr None 2000 2000 120000])).
Proof.
  apply (lasting_errors_end_the_listener listener_new (Some EMFILE) 0 0 0 [InErr (Some EMFILE) 1000 1000 1000; InErr None 2000 2000 120000]);
    [done|done|done|lia|]. simpl. split_and!; done.
Defined.
