(* ===== verification/Auth.v ===== *)
(** * Who may use the daemon

    [auth.rs] and the part of the daemon's start-up that decides how each listener is guarded:
    bearer tokens for TCP, peer credentials for the Unix socket, and the directory and
    permissions of the socket. Strings are lists of characters; the environment, the account
    database, [/proc] and peer credentials are arguments. The files involved are the parent
    directory of the socket and the socket itself, which other users may touch between two
    system calls. *)

From S2P Require Import Prelude TermQuery.

(** ** Options *)

(** [str::strip_prefix]. *)
Definition strip_prefix (pre s : list Z) : option (list Z) :=
  if bool_decide (take (length pre) s = pre) then Some (drop (length pre) s) else None.

(** [--flag value], else [--flag=value]. *)
Definition flag_value (flag : list Z) (args : list (list Z)) : option (list Z) :=
  match (let! (i, _) := list_find (λ a, a = flag) args in args !! S i) with
  | Some v => Some v
  | None => head (omap (strip_prefix (flag ++ ascii "=")) args)
  end.

Definition or_else {A} (a b : option A) : option A := match a with Some x => Some x | None => b end.

Definition non_empty (v : list Z) : option (list Z) := if bool_decide (v = []) then None else Some v.

(** [BearerToken::parse], the only constructor of a token. *)
Definition BearerToken_parse (raw : list Z) : option (list Z) := non_empty raw.

Definition resolve_token (args : list (list Z)) (env : list Z → option (list Z)) : option (list Z) :=
  let! t := or_else (flag_value (ascii "--token") args) (env (ascii "TYMUXD_TOKEN")) in BearerToken_parse t.

(** [PathBuf::join] of a relative name. *)
Definition path_join (p s : list Z) : list Z :=
  match last p with Some c => if c =? 47 then p ++ s else p ++ [47] ++ s | None => s end.

Definition default_uds_socket_path (uid : Z) (env : list Z → option (list Z)) : list Z :=
  match (let! v := env (ascii "XDG_RUNTIME_DIR") in non_empty v) with
  | Some dir => path_join (path_join dir (ascii "tymuxd")) (ascii "tymuxd.sock")
  | None =>
      let base := default (ascii "/tmp") (let! v := env (ascii "TMPDIR") in non_empty v) in
      path_join (path_join base (ascii "tymuxd-" ++ dec uid)) (ascii "tymuxd.sock")
  end.

Definition resolve_uds_socket_path (args : list (list Z)) (uid : Z) (env : list Z → option (list Z)) : list Z :=
  let e := let! v := env (ascii "TYMUXD_SOCKET_PATH") in non_empty v in
  default (default_uds_socket_path uid env) (or_else (flag_value (ascii "--socket-path") args) e).

Definition resolve_socket_group_name (args : list (list Z)) (env : list Z → option (list Z)) : option (list Z) :=
  let! v := or_else (flag_value (ascii "--socket-group") args) (env (ascii "TYMUXD_SOCKET_GROUP")) in non_empty v.

Definition resolve_tcp_disabled (args : list (list Z)) (env : list Z → option (list Z)) : bool :=
  bool_decide (ascii "--disable-tcp-loopback" ∈ args)
  || match env (ascii "TYMUXD_DISABLE_TCP_LOOPBACK") with Some v => negb (bool_decide (v = [])) | None => false end.

Definition check_non_loopback_requires_token (is_loopback : bool) (token : option (list Z)) : result unit unit :=
  match token with
  | None => if is_loopback then Ok tt else Err tt
  | Some _ => Ok tt
  end.

(** ** Guards of the two listeners *)

Inductive Rejection := MissingToken | InvalidToken | NotAuthorized.

(** [BearerAuthInterceptor::call]; [header] is the [authorization] header when it is text.
    [constant_time_eq] decides equality. The counter is the number of rejections. *)
Definition bearer_call (token : list Z) (rejections : Z) (header : option (list Z)) : Z * result unit Rejection :=
  match (let! v := header in strip_prefix (ascii "Bearer ") v) with
  | None => (rejections + 1, Err MissingToken)
  | Some supplied => if bool_decide (supplied = token) then (rejections, Ok tt) else (rejections + 1, Err InvalidToken)
  end.

Record PeerIdentity := mkPeer { peer_uid : Z; peer_gid : Z; peer_pid : option Z }.

(** [str::lines]: a carriage return before the newline is dropped. *)
Definition drop_cr (l : list Z) : list Z :=
  match last l with Some c => if c =? 13 then removelast l else l | None => l end.
Fixpoint lines_go (s cur : list Z) : list (list Z) :=
  match s with
  | [] => if bool_decide (cur = []) then [] else [cur]
  | c :: s => if c =? 10 then drop_cr cur :: lines_go s [] else lines_go s (cur ++ [c])
  end.
Definition lines (s : list Z) : list (list Z) := lines_go s [].

Definition digit (c : Z) : option Z := if (48 <=? c) && (c <=? 57) then Some (c - 48) else None.

Fixpoint parse_digits (acc : Z) (s : list Z) : option Z :=
  match s with
  | [] => Some acc
  | c :: s =>
      let! v := digit c in
      let n := acc * 10 + v in
      if n <=? u32_max then parse_digits n s else None
  end.

(** [str::parse::<u32>]: an optional plus sign and at least one digit. *)
Definition parse_u32 (s : list Z) : option Z :=
  let s := match s with 43 :: (_ :: _) as s => tail s | _ => s end in
  match s with [] => None | _ => parse_digits 0 s end.

(** [status] is the text of [/proc/<pid>/status], if it could be read. *)
Definition peer_is_group_member_linux (status : option (list Z)) (gid : Z) : bool :=
  match (let! s := status in head (omap (strip_prefix (ascii "Groups:")) (lines s))) with
  | Some groups => existsb (Z.eqb gid) (omap parse_u32 (split_whitespace groups))
  | None => false
  end.

(** [linux] is the build's target; [proc_status] reads [/proc]. *)
Definition peer_is_group_member (linux : bool) (proc_status : Z → option (list Z)) (peer : PeerIdentity) (gid : Z) : bool :=
  match (if linux then peer_pid peer else None) with
  | Some pid => peer_is_group_member_linux (proc_status pid) gid
  | None => peer_gid peer =? gid
  end.

Definition peer_is_authorized (linux : bool) (proc_status : Z → option (list Z)) (daemon_uid : Z)
    (allowed_gid : option Z) (peer : PeerIdentity) : bool :=
  if peer_uid peer =? daemon_uid then true
  else match allowed_gid with Some gid => peer_is_group_member linux proc_status peer gid | None => false end.

Record UdsAuthDecision := mkDecision { authorized : bool; dec_uid : option Z; dec_gid : option Z }.

(** [PreAuthorizedUnixStream::new]: decided once, when the connection is accepted. *)
Definition pre_authorize (linux : bool) (proc_status : Z → option (list Z)) (daemon_uid : Z) (allowed_gid : option Z)
    (cred : option PeerIdentity) : UdsAuthDecision :=
  mkDecision (match cred with Some p => peer_is_authorized linux proc_status daemon_uid allowed_gid p | None => false end)
    (peer_uid <$> cred) (peer_gid <$> cred).

(** [UdsPeerCredInterceptor::call]. *)
Definition uds_call (rejections : Z) (decision : option UdsAuthDecision) : Z * result unit Rejection :=
  match decision with
  | Some d => if authorized d then (rejections, Ok tt) else (rejections + 1, Err NotAuthorized)
  | None => (rejections + 1, Err NotAuthorized)
  end.

(** ** Start-up *)

(** How the daemon serves: who may use the socket, and the TCP listener with its token if it has
    one. *)
Record Serving := mkServing { sv_uid : Z; sv_gid : option Z; sv_tcp : option (option (list Z)) }.

(** [main], up to the servers; [gid_by_name] is [resolve_gid_by_name]. [Err] is an exit. *)
Definition startup (args : list (list Z)) (env : list Z → option (list Z)) (uid : Z) (is_loopback : bool)
    (gid_by_name : list Z → option Z) : result Serving unit :=
  let token := resolve_token args env in
  let? _ := check_non_loopback_requires_token is_loopback token in
  let? gid := match resolve_socket_group_name args env with
              | Some name => match gid_by_name name with Some gid => Ok (Some gid) | None => Err tt end
              | None => Ok None
              end in
  Ok (mkServing uid gid (if resolve_tcp_disabled args env then None else Some token)).

(** One request: over TCP with its header, or over a connection of the socket. *)
Inductive ServiceRequest := OverTcp (header : option (list Z)) | OverUds (decision : option UdsAuthDecision).

Definition admitted (sv : Serving) (r : ServiceRequest) : bool :=
  match r with
  | OverTcp header =>
      match sv_tcp sv with
      | None => false
      | Some None => true
      | Some (Some token) => is_ok (snd (bearer_call token 0 header))
      end
  | OverUds decision => is_ok (snd (uds_call 0 decision))
  end.

(** ** The socket and its directory *)

Record Meta := mkMeta { m_owner : Z; m_mode : Z }.

(** What stands at the parent path: a directory, or a symbolic link (owned by who made it) and
    the directory it leads to, if any. *)
Inductive Entry := EDir (m : Meta) | ELink (owner : Z) (target : option Meta).

(** The parent, the process's umask, and the socket with its mode and group. *)
Record Fs := mkFs { parent : option Entry; umask : Z; sock : option (Z * option Z) }.

Definition set_parent (fs : Fs) (p : option Entry) : Fs := mkFs p (umask fs) (sock fs).
Definition set_umask (fs : Fs) (u : Z) : Fs := mkFs (parent fs) u (sock fs).
Definition set_sock (fs : Fs) (s : option (Z * option Z)) : Fs := mkFs (parent fs) (umask fs) s.

(** [Path::exists] follows links. *)
Definition parent_exists (fs : Fs) : bool :=
  match parent fs with Some (EDir _) | Some (ELink _ (Some _)) => true | _ => false end.

(** [symlink_metadata] does not; a link has all permission bits. *)
Definition link_meta (e : Entry) : Meta :=
  match e with EDir m => mkMeta (m_owner m) (Z.land (m_mode m) 511) | ELink o _ => mkMeta o 511 end.

(** [create_dir_all]: a directory there already, or a link to one, is fine. *)
Definition create_dir_all (euid : Z) (fs : Fs) : option Fs :=
  match parent fs with
  | None => Some (set_parent fs (Some (EDir (mkMeta euid (Z.land 511 (Z.lnot (umask fs)))))))
  | Some (EDir _) | Some (ELink _ (Some _)) => Some fs
  | Some (ELink _ None) => None
  end.

(** [set_permissions] follows links; only the owner or root may. *)
Definition may_chmod (euid : Z) (m : Meta) : bool := (m_owner m =? euid) || (euid =? 0).
Definition set_permissions (euid mode : Z) (fs : Fs) : option Fs :=
  match parent fs with
  | Some (EDir m) =>
      if may_chmod euid m then Some (set_parent fs (Some (EDir (mkMeta (m_owner m) mode)))) else None
  | Some (ELink o (Some m)) =>
      if may_chmod euid m then Some (set_parent fs (Some (ELink o (Some (mkMeta (m_owner m) mode))))) else None
  | _ => None
  end.

Definition expected_parent_mode (group_gid : option Z) : Z := match group_gid with Some _ => 488 | None => 448 end.

(** [between1] and [between2] are what other users do between the system calls. [Err] is the
    refusal or the failed call. *)
Definition ensure_socket_parent_dir (euid : Z) (has_parent : bool) (group_gid : option Z) (between1 between2 : Fs → Fs)
    (fs : Fs) : Fs * result unit unit :=
  if negb has_parent then (fs, Ok tt)
  else if parent_exists fs then
    let fs := between1 fs in
    match parent fs with
    | None => (fs, Err tt)
    | Some e =>
        let m := link_meta e in
        if negb (m_owner m =? euid) || negb (m_mode m =? expected_parent_mode group_gid) then (fs, Err tt) else (fs, Ok tt)
    end
  else
    let fs := between1 fs in
    match create_dir_all euid fs with
    | None => (fs, Err tt)
    | Some fs =>
        let fs := between2 fs in
        match set_permissions euid (expected_parent_mode group_gid) fs with
        | Some fs => (fs, Ok tt)
        | None => (fs, Err tt)
        end
    end.

(** [bind] creates the socket with the umask of the moment; [bind_ok] and [chown_ok] are whether
    the calls succeed. *)
Definition bind_uds_listener (euid : Z) (has_parent : bool) (group_gid : option Z) (between1 between2 : Fs → Fs)
    (bind_ok chown_ok : bool) (fs : Fs) : Fs * result unit unit :=
  match ensure_socket_parent_dir euid has_parent group_gid between1 between2 fs with
  | (fs, Err e) => (fs, Err e)
  | (fs, Ok _) =>
      let old := umask fs in
      let fs := set_umask fs (match group_gid with Some _ => 79 | None => 127 end) in
      let fs := if bind_ok then set_sock fs (Some (Z.land 511 (Z.lnot (umask fs)), None)) else fs in
      let fs := set_umask fs old in
      if negb bind_ok then (fs, Err tt)
      else
        match group_gid with
        | None => (fs, Ok tt)
        | Some gid => if chown_ok then (set_sock fs ((λ s, (fst s, Some gid)) <$> sock fs), Ok tt) else (fs, Err tt)
        end
  end.

(** [reconcile_stale_socket]; [probe] is the outcome of connecting. *)
Inductive probe_result := PConnected | PRefused | PNotFound | PFailed.

Definition reconcile_stale_socket (probe : probe_result) (remove_ok : bool) (fs : Fs) : Fs * result unit unit :=
  match sock fs with
  | None => (fs, Ok tt)
  | Some _ =>
      match probe with
      | PConnected | PFailed => (fs, Err tt)
      | PRefused | PNotFound => if remove_ok then (set_sock fs None, Ok tt) else (fs, Err tt)
      end
  end.

(** ** Lemmas *)

Lemma strip_prefix_Some pre s r : strip_prefix pre s = Some r ↔ s = pre ++ r.
Proof.
  unfold strip_prefix. case_bool_decide as E; split.
  - intros [= <-]. by rewrite <- E at 1; rewrite take_drop.
  - intros ->. by rewrite drop_app_length.
  - done.
  - intros ->. by rewrite take_app_length in E.
Qed.

Lemma bearer_call_ok token n header :
  is_ok (snd (bearer_call token n header)) = true ↔ header = Some (ascii "Bearer " ++ token).
Proof.
  unfold bearer_call. destruct header as [v|]; [|done].
  destruct (strip_prefix (ascii "Bearer ") v) as [s|] eqn:E.
  - apply strip_prefix_Some in E as ->. case_bool_decide as Hs; simpl; split; try done; [by subst|].
    intros [= H]. by destruct Hs.
  - split; [done|]. intros Hv. assert (v = ascii "Bearer " ++ token) as Hv' by congruence.
    apply strip_prefix_Some in Hv'. congruence.
Qed.

Lemma resolve_token_nonempty args env : resolve_token args env ≠ Some [].
Proof.
  unfold resolve_token, BearerToken_parse, non_empty. destruct (or_else _ _) as [t|]; [|done]. case_bool_decide; [done|]. by intros [= ->].
Qed.

(** The directory is the daemon's own, with exactly the bits it asked for. *)
Definition private_dir (euid : Z) (group_gid : option Z) (fs : Fs) : Prop :=
  ∃ m, parent fs = Some (EDir m) ∧ m_owner m = euid ∧ Z.land (m_mode m) 511 = expected_parent_mode group_gid.

(** Others put nothing where the directory is about to be made, and leave it there. *)
Definition left_alone (between1 between2 : Fs → Fs) (fs : Fs) : Prop :=
  parent (between1 fs) = None ∧ ∀ x, parent (between2 x) = parent x.

(** The umask is the daemon's own; nobody else changes it. *)
Definition own_umask (between : Fs → Fs) : Prop := ∀ x, umask (between x) = umask x.

Lemma ensure_private euid gid between1 between2 fs :
  own_umask between1 → own_umask between2 →
  let '(fs', r) := ensure_socket_parent_dir euid true gid between1 between2 fs in
  umask fs' = umask fs ∧ (r = Ok tt → parent_exists fs = true ∨ left_alone between1 between2 fs → private_dir euid gid fs').
Proof.
  intros H1 H2. unfold ensure_socket_parent_dir. simpl. destruct (parent_exists fs) eqn:Hex.
  - destruct (parent (between1 fs)) as [e|] eqn:Hp; [|by rewrite H1].
    destruct (negb _ || negb _) eqn:Hc; [by rewrite H1|]. b2p. rewrite H1. split; [done|]. intros _ _.
    destruct e as [m|o t]; simpl in *; [exists m; by rewrite Hp|].
    unfold expected_parent_mode in *. destruct gid; lia.
  - unfold create_dir_all, set_permissions, may_chmod, left_alone. destruct (parent (between1 fs)) as [[m|o [m|]]|] eqn:Hp; try (by rewrite H1).
    + assert (Hu : umask (between2 (between1 fs)) = umask fs) by (by rewrite H2, H1).
      destruct (parent (between2 _)) as [[m'|o' [m'|]]|]; repeat case_match; simpl; (split; [by subst; simplify_eq/=|]); intros; naive_solver.
    + assert (Hu : umask (between2 (between1 fs)) = umask fs) by (by rewrite H2, H1).
      destruct (parent (between2 _)) as [[m'|o' [m'|]]|]; repeat case_match; simpl; (split; [by subst; simplify_eq/=|]); intros; naive_solver.
    + set (fs1 := set_parent _ _). assert (Hu : umask (between2 fs1) = umask fs) by (by rewrite H2; simpl; rewrite H1).
      destruct (parent (between2 fs1)) as [[m'|o' [m'|]]|] eqn:Hp2; repeat case_match; simplify_eq/=; (split; [done|]); try done;
        intros _ [?|[_ Hb]]; try done; rewrite Hb in Hp2; simpl in Hp2; try done. injection Hp2 as <-.
      exists (mkMeta euid (expected_parent_mode gid)). split; [done|]. split; [done|]. simpl. by destruct gid.
Qed.

(** ** Properties *)

(** C27. Who is served. Whatever the arguments and the environment, if the daemon starts: on an
    address that is not a loopback one, a request over TCP is served exactly when the listener
    is on, a token is configured, and the authorization header is [Bearer] followed by that,
    never empty, token; on a loopback address without a token, exactly when the listener is on;
    and nobody is served over TCP when the listener is off. A request over the socket is served
    exactly when the peer recorded at accept time is the daemon's own user or, with a group
    configured, a member of it. (A loopback address with a token configured is left out.) *)
Theorem service_access_control args env uid is_loopback gid_by_name sv :
  startup args env uid is_loopback gid_by_name = Ok sv →
  (is_loopback = false → ∀ header, admitted sv (OverTcp header) = true ↔
     resolve_tcp_disabled args env = false ∧
     ∃ token, resolve_token args env = Some token ∧ token ≠ [] ∧ header = Some (ascii "Bearer " ++ token)) ∧
  (is_loopback = true → resolve_token args env = None → ∀ header,
     admitted sv (OverTcp header) = true ↔ resolve_tcp_disabled args env = false) ∧
  (∀ header, resolve_tcp_disabled args env = true → admitted sv (OverTcp header) = false) ∧
  (∀ linux proc cred, admitted sv (OverUds (Some (pre_authorize linux proc (sv_uid sv) (sv_gid sv) cred))) = true ↔
     ∃ p, cred = Some p ∧ (peer_uid p = uid ∨ ∃ name gid, resolve_socket_group_name args env = Some name ∧
       gid_by_name name = Some gid ∧ peer_is_group_member linux proc p gid = true)) ∧
  admitted sv (OverUds None) = false.
Proof.
  intros Hs. unfold startup in Hs. pose proof (resolve_token_nonempty args env) as Hne.
  destruct (check_non_loopback_requires_token is_loopback (resolve_token args env)) eqn:Hc; [|done].
  destruct (match resolve_socket_group_name args env with Some _ => _ | None => _ end) as [gid|] eqn:Hg; [|done].
  injection Hs as <-. split_and!; [| | | |done].
  - intros -> header. simpl. destruct (resolve_tcp_disabled args env); [naive_solver|].
    destruct (resolve_token args env) as [token|]; simpl in *; [|done].
    rewrite bearer_call_ok. naive_solver.
  - intros -> Ht header. simpl. rewrite Ht. destruct (resolve_tcp_disabled args env); naive_solver.
  - intros header Hd. simpl. by rewrite Hd.
  - intros linux proc cred. simpl. destruct cred as [p|]; simpl; [|naive_solver].
    unfold peer_is_authorized. destruct (Z.eqb_spec (peer_uid p) uid) as [E|E]; simpl; [naive_solver|].
    destruct (resolve_socket_group_name args env) as [name|]; simpl in Hg.
    + destruct (gid_by_name name) as [g|] eqn:Hn; [|done]. injection Hg as <-.
      destruct (peer_is_group_member linux proc p g) eqn:Hm; simpl; naive_solver.
    + injection Hg as <-. simpl. naive_solver.
Qed.


(** ** Where the code differs from what is written *)

(** A flag that is present but empty is not "absent": it hides the environment. *)
Lemma empty_token_flag_hides_env :
  resolve_token [ascii "--token="] (λ _, Some (ascii "secret")) = None ∧
  resolve_socket_group_name [ascii "--socket-group="] (λ _, Some (ascii "dev")) = None ∧
  resolve_uds_socket_path [ascii "--socket-path="] 0 (λ _, Some (ascii "/run/x")) = [].
Proof. repeat split; vm_compute; reflexivity. Qed.

(** A link another user plants after the existence check is accepted, and the permissions of
    the directory it leads to are changed. *)
Lemma planted_link_is_accepted :
  let fs := mkFs None 18 None in
  let plant fs := set_parent fs (Some (ELink 1001 (Some (mkMeta 1000 493)))) in
  ensure_socket_parent_dir 1000 true None plant id fs = (mkFs (Some (ELink 1001 (Some (mkMeta 1000 448)))) 18 None, Ok tt).
Proof. reflexivity. Qed.

(** With a token configured a loopback listener asks for it too. *)
Lemma loopback_token_enforced :
  match startup [ascii "--token"; ascii "t"] (λ _, None) 1000 true (λ _, None) with
  | Ok sv => admitted sv (OverTcp None) = false
  | Err _ => False
  end.
Proof. vm_compute. reflexivity. Qed.

(** ** Witnesses *)

Lemma service_access_control_witness :
  let args := [ascii "--token"; ascii "t"; ascii "--socket-group=dev"] in
  ∃ sv, startup args (λ _, None) 1000 false (λ _, Some 50) = Ok sv ∧
    (admitted sv (OverTcp (Some (ascii "Bearer t"))) = true ↔
       resolve_tcp_disabled args (λ _, None) = false ∧
       ∃ token, resolve_token args (λ _, None) = Some token ∧ token ≠ [] ∧ Some (ascii "Bearer t") = Some (ascii "Bearer " ++ token)).
Proof.
  eexists. split; [vm_compute; reflexivity|].
  refine (proj1 (service_access_control [ascii "--token"; ascii "t"; ascii "--socket-group=dev"] (λ _, None) 1000 false (λ _, Some 50) _ _) eq_refl _).
  vm_compute. reflexivity.
Defined.

