(* ===== verification/Startup.v ===== *)
(** * Start and end of the daemon ([crates/tymuxd/src/main.rs], [auth.rs])

    The steps of [main] in their order, two daemons started at once on one socket, the probe
    that watches the TCP listener, and the end of the process. What the system answers is an
    argument; [None] is a panic. *)

From S2P Require Import Prelude Layout Restart TermQuery Persistence Supervision Engine EngineProps Listener Auth.

(** ** One daemon per socket

    [acquire_socket_lock], [reconcile_stale_socket] and [bind_uds_listener] of any number of
    daemons on the same path, interleaved at their system calls. The lock is held until the
    process ends; the socket's file outlives it. *)
Module Start.

Inductive pc := New | Locked | Probed (stale : bool) | Clear | Serving | Gone.

(** Who holds the lock, and the file of the socket: the daemon that bound it, if there is one. *)
Record st := mkSt {
  lock : option nat;
  sock : option nat;
  at_ : nat → pc;
}.

Definition goto (s : st) (d : nat) (p : pc) : nat → pc := λ x, if decide (x = d) then p else at_ s x.

(** A connection is answered when whoever bound the socket still serves it. *)
Definition answers (s : st) : bool := match sock s with Some d => match at_ s d with Serving => true | _ => false end | None => false end.

Inductive step : st → st → Prop :=
| lock_taken s d : at_ s d = New → lock s = None → step s (mkSt (Some d) (sock s) (goto s d Locked))
| lock_busy s d h : at_ s d = New → lock s = Some h → step s (mkSt (lock s) (sock s) (goto s d Gone))
| nothing_there s d : at_ s d = Locked → sock s = None → step s (mkSt (lock s) (sock s) (goto s d Clear))
| probe s d : at_ s d = Locked → is_Some (sock s) → step s (mkSt (lock s) (sock s) (goto s d (Probed (negb (answers s)))))
| already_running s d : at_ s d = Probed false → step s (mkSt (if decide (lock s = Some d) then None else lock s) (sock s) (goto s d Gone))
| remove_stale s d : at_ s d = Probed true → step s (mkSt (lock s) None (goto s d Clear))
| bind s d : at_ s d = Clear → sock s = None → step s (mkSt (lock s) (Some d) (goto s d Serving))
| bind_refused s d x : at_ s d = Clear → sock s = Some x → step s (mkSt (if decide (lock s = Some d) then None else lock s) (sock s) (goto s d Gone))
| dies s d : at_ s d ≠ Gone → step s (mkSt (if decide (lock s = Some d) then None else lock s) (sock s) (goto s d Gone)).

Definition init : st := mkSt None None (λ _, New).

Definition past_lock (p : pc) : bool := match p with New | Gone => false | _ => true end.

(** Past the lock only its holder is anywhere, and a socket that is served is the one in the
    file system. *)
Definition inv (s : st) : Prop :=
  (∀ d, past_lock (at_ s d) = true → lock s = Some d) ∧ (∀ d, at_ s d = Serving → sock s = Some d).

(** A step of the holder [d] that leaves the lock alone. *)
Lemma holder_moves s d p k :
  inv s → past_lock (at_ s d) = true → past_lock p = true → (p = Serving → k = Some d) →
  inv (mkSt (lock s) k (goto s d p)).
Proof.
  intros [Hl Hv] Hd Hp Hk. assert (Hall : ∀ x, past_lock (at_ s x) = true → x = d) by (intros x Hx; apply Hl in Hx; apply Hl in Hd; congruence).
  split; intros x Hx; cbn [lock sock at_] in *; unfold goto in *; case_decide; subst; auto.
  assert (x = d) by (apply Hall; by rewrite Hx). done.
Qed.

(** A daemon that ends gives its lock back, if it had it. *)
Lemma start_leaves s d : inv s → inv (mkSt (if decide (lock s = Some d) then None else lock s) (sock s) (goto s d Gone)).
Proof.
  intros [Hl Hv]. split; intros x Hx; cbn [lock sock at_] in *; unfold goto in *; destruct (decide (x = d)) as [->|Hne]; try done.
  - apply Hl in Hx. rewrite decide_False; [done|]. congruence.
  - by apply Hv.
Qed.

Lemma start_step_inv s s' : inv s → step s s' → inv s'.
Proof.
  intros Hi Hs. destruct Hs as [s d Ha Hn|s d h Ha Hn|s d Ha Hn|s d Ha Hn|s d Ha|s d Ha|s d Ha Hn|s d x Ha Hn|s d Ha];
    try (by apply start_leaves); try (apply holder_moves; rewrite ?Ha; done).
  - destruct Hi as [Hl Hv]. split; intros x Hx; cbn [lock sock at_] in *; unfold goto in *; case_decide; subst; try done; [|by apply Hv].
    apply Hl in Hx. congruence.
  - destruct Hi as [Hl Hv]. split; intros x Hx; cbn [lock sock at_] in *; unfold goto in *; case_decide; try done; auto.
Qed.

Lemma start_reach_inv s : rtc step init s → inv s.
Proof.
  revert s. apply rtc_ind_r; [|intros y z _ Hyz Hy; by eapply start_step_inv]. by split.
Qed.
End Start.

(** C22. Two daemons never serve one socket. However many are started on the same path, in
    every interleaving of their system calls and deaths, at most one is past the lock; the
    file of a socket that is being served is its own, so none removes or replaces the socket
    of a running daemon. *)
Theorem one_daemon_per_socket s d d' :
  rtc Start.step Start.init s → Start.at_ s d = Start.Serving → Start.past_lock (Start.at_ s d') = true →
  d' = d ∧ Start.sock s = Some d.
Proof.
  intros Hr Hd Hp. destruct (Start.start_reach_inv s Hr) as [Hl Hv]. split; [|by apply Hv].
  assert (H1 : Start.past_lock (Start.at_ s d) = true) by (by rewrite Hd). apply Hl in H1, Hp. congruence.
Qed.

Lemma one_daemon_per_socket_witness :
  ∃ s, rtc Start.step Start.init s ∧ Start.at_ s 0%nat = Start.Gone ∧ Start.at_ s 1%nat = Start.Serving ∧ 1%nat = 1%nat ∧ Start.sock s = Some 1%nat.
Proof.
  set (s0 := Start.init). set (s1 := Start.mkSt (Some 0%nat) None (Start.goto s0 0 Start.Locked)).
  set (s2 := Start.mkSt (Some 0%nat) None (Start.goto s1 0 Start.Clear)). set (s3 := Start.mkSt (Some 0%nat) (Some 0%nat) (Start.goto s2 0 Start.Serving)).
  set (s4 := Start.mkSt None (Some 0%nat) (Start.goto s3 0 Start.Gone)). set (s5 := Start.mkSt (Some 1%nat) (Some 0%nat) (Start.goto s4 1 Start.Locked)).
  set (s6 := Start.mkSt (Some 1%nat) (Some 0%nat) (Start.goto s5 1 (Start.Probed true))). set (s7 := Start.mkSt (Some 1%nat) None (Start.goto s6 1 Start.Clear)).
  set (s8 := Start.mkSt (Some 1%nat) (Some 1%nat) (Start.goto s7 1 Start.Serving)).
  assert (Hr : rtc Start.step Start.init s8).
  { eapply (rtc_l _ s0 s1); [by apply Start.lock_taken|]. eapply (rtc_l _ s1 s2); [by apply Start.nothing_there|].
    eapply (rtc_l _ s2 s3); [by apply Start.bind|]. eapply (rtc_l _ s3 s4); [by apply (Start.dies s3 0)|].
    eapply (rtc_l _ s4 s5); [by apply Start.lock_taken|]. eapply (rtc_l _ s5 s6); [by apply (Start.probe s5 1); [|eexists]|].
    eapply (rtc_l _ s6 s7); [by apply Start.remove_stale|]. eapply (rtc_l _ s7 s8); [by apply Start.bind|]. apply rtc_refl. }
  exists s8. split; [exact Hr|]. split; [reflexivity|]. split; [reflexivity|].
  apply (one_daemon_per_socket s8 1 1 Hr); reflexivity.
Defined.

(** ** The steps of [main] *)

Fixpoint digits_upto (max acc : Z) (s : list Z) : option Z :=
  match s with
  | [] => Some acc
  | c :: s => let! v := digit c in let n := acc * 10 + v in if n <=? max then digits_upto max n s else None
  end.

(** [str::parse::<u64>] *)
Definition parse_u64 (s : list Z) : option Z :=
  let s := match s with 43 :: (_ :: _) as s => tail s | _ => s end in
  match s with [] => None | _ => digits_upto u64_max 0 s end.

(** Seconds. *)
Definition STALE_SESSION_MAX_AGE : Z := 30 * 24 * 60 * 60.

(** [TYMUXD_STALE_SESSION_MAX_AGE_DAYS]; [None] is the overflow of [days * 86400]. *)
Definition stale_session_max_age (env : list Z → option (list Z)) : option Z :=
  match (let! v := env (ascii "TYMUXD_STALE_SESSION_MAX_AGE_DAYS") in parse_u64 v) with
  | Some days => u64_mul days 86400
  | None => Some STALE_SESSION_MAX_AGE
  end.

(** [count_orphan_candidates]. *)
Fixpoint count_node (n : PersistedLayoutNode) : nat :=
  match n with
  | PLeaf pane => if negb (bool_decide (pp_command pane = [])) && bool_decide (pp_exit_code pane = None) then 1 else 0
  | PSplit _ children => foldr (λ c acc, count_node (fst c) + acc)%nat 0%nat children
  end.

Definition count_orphan_candidates (rs : list PersistedSessionRecord) : nat :=
  foldr (λ w acc, count_node (pw_layout w) + acc)%nat 0%nat (flat_map ps_windows rs).

(** What [main] does to the world, in order. *)
Inductive effect :=
| Detached
| LimitRaised
| DirEnsured
| LockTaken
| Reconciled
| UdsBound
| StoreOpened
| Pruned (max_age : Z)
| Loaded (restored orphans : nat)
| TcpBound.

Inductive boot_end (B : Type) :=
| Usage
| Failed
| Panicked
| Running (sv : Serving) (socket_path : list Z) (e : Engine B).
Arguments Usage {B}.
Arguments Failed {B}.
Arguments Panicked {B}.
Arguments Running {B} _ _ _.

(** The answers of the system to one start: the address ([None] does not parse, otherwise
    whether it is loopback), the groups, what others do to the socket's directory, the lock,
    the probe of an old socket, the clock. *)
Record Answers := mkAnswers {
  an_loopback : option bool;
  an_uid : Z;
  an_gid_by_name : list Z → option Z;
  an_has_parent : bool;
  an_between : nat → Fs → Fs;
  an_lock_ok : bool;
  an_probe : probe_result;
  an_remove_ok : bool;
  an_bind_ok : bool;
  an_chown_ok : bool;
  an_store_ok : bool;
  an_now : Z;
  an_removable : list Z → bool;
  an_tcp_bind_ok : bool;
}.

(** The world: the socket's place, the records, and what has been done, newest last. *)
Record World := mkWorld { wo_fs : Fs; wo_store : Store; wo_done : list effect }.

Definition did (w : World) (e : effect) : World := mkWorld (wo_fs w) (wo_store w) (wo_done w ++ [e]).
Definition with_fs (w : World) (fs : Fs) : World := mkWorld fs (wo_store w) (wo_done w).
Definition with_store (w : World) (st : Store) : World := mkWorld (wo_fs w) st (wo_done w).

Section Boot.
Context `{!RecordCodec} {B : Type} `{BK : PersistenceBackend B}.
Context (args : list (list Z)) (env : list Z → option (list Z)) (an : Answers) (backend : Store → B).

Definition has_arg (names : list (list Z)) : bool := existsb (λ a, bool_decide (a ∈ names)) args.

(** From the records to the listeners. *)
Definition boot_engine (sv : Serving) (path : list Z) (w : World) : World * boot_end B :=
  if negb (an_store_ok an) then (w, Failed)
  else
    let w := did w StoreOpened in
    match stale_session_max_age env with
    | None => (w, Panicked)
    | Some max_age =>
        let w :=
          if max_age =? 0 then w
          else did (with_store w (fst (prune_stale_at (wo_store w) max_age (an_now an) (an_removable an)))) (Pruned max_age) in
        let records := load_all (wo_store w) in
        let e := load_persisted (engine_new (backend (wo_store w))) records in
        let w := did w (Loaded (length records) (count_orphan_candidates records)) in
        match sv_tcp sv with
        | None => (w, Running sv path e)
        | Some _ => if an_tcp_bind_ok an then (did w TcpBound, Running sv path e) else (w, Failed)
        end
    end.

(** From the socket's directory to the bound socket. *)
Definition boot_socket (sv : Serving) (path : list Z) (w : World) : World * boot_end B :=
  let '(fs, r) := ensure_socket_parent_dir (an_uid an) (an_has_parent an) (sv_gid sv) (an_between an 0) (an_between an 1) (wo_fs w) in
  let w := with_fs w fs in
  match r with
  | Err _ => (w, Failed)
  | Ok _ =>
      let w := did w DirEnsured in
      if negb (an_lock_ok an) then (w, Failed)
      else
        let w := did w LockTaken in
        let '(fs, r) := reconcile_stale_socket (an_probe an) (an_remove_ok an) (wo_fs w) in
        let w := with_fs w fs in
        match r with
        | Err _ => (w, Failed)
        | Ok _ =>
            let w := did w Reconciled in
            let '(fs, r) := bind_uds_listener (an_uid an) (an_has_parent an) (sv_gid sv) (an_between an 2) (an_between an 3)
              (an_bind_ok an) (an_chown_ok an) (wo_fs w) in
            let w := with_fs w fs in
            match r with Err _ => (w, Failed) | Ok _ => boot_engine sv path (did w UdsBound) end
        end
  end.

(** [main] up to the servers. *)
Definition boot (w : World) : World * boot_end B :=
  if has_arg [ascii "-h"; ascii "--help"] then (w, Usage)
  else if has_arg [ascii "--build-info"] then (w, Usage)
  else if has_arg [ascii "-V"; ascii "--version"] then (w, Usage)
  else
    let w := did (did w Detached) LimitRaised in
    match an_loopback an with
    | None => (w, Failed)
    | Some is_loopback =>
        match startup args env (an_uid an) is_loopback (an_gid_by_name an) with
        | Err _ => (w, Failed)
        | Ok sv => boot_socket sv (resolve_uds_socket_path args (an_uid an) env) w
        end
    end.
End Boot.

(** ** What a start leaves behind *)

Section BootProps.
Context `{!RecordCodec} {B : Type} `{BK : PersistenceBackend B}.

Definition all_dead (e : Engine B) : Prop := map_Forall (λ _ entry, ∃ r, entry = EntryDead r) (en_panes e).

Lemma dead_records rs (panes : gmap Uuid PaneEntry) :
  map_Forall (λ _ entry, ∃ r, entry = EntryDead r) panes → map_Forall (λ _ entry, ∃ r, entry = EntryDead r) (foldl insert_dead panes rs).
Proof.
  revert panes. induction rs as [|r rs IH]; intros panes Hp; [done|]. cbn [foldl]. apply IH. unfold insert_dead.
  apply map_Forall_insert_2; [by eexists|done].
Qed.

Lemma load_window_dead sid policy e w : all_dead e → all_dead (fst (load_window sid policy e w)).
Proof.
  intros He. unfold load_window. rewrite to_live_eq. cbn zeta. cbn [fst].
  assert (Hfold : ∀ (f : Engine B → Uuid → Engine B) ids e0, (∀ e id, en_panes (f e id) = en_panes e) → all_dead e0 → all_dead (foldl f e0 ids)).
  { intros g ids. induction ids as [|id ids IH]; intros e0 Hg H0; [done|]. cbn [foldl]. apply IH; [done|]. unfold all_dead. by rewrite Hg. }
  apply Hfold; [by intros [] id|]. unfold all_dead. destruct e. cbn in *. by apply dead_records.
Qed.

Lemma load_windows_dead sid policy ws e : all_dead e → all_dead (fst (load_windows sid policy e ws)).
Proof.
  revert e. induction ws as [|w ws IH]; intros e He; [done|]. cbn [load_windows].
  pose proof (load_window_dead sid policy e w He) as H1. destruct (load_window sid policy e w) as [e1 win].
  specialize (IH e1 H1). by destruct (load_windows sid policy e1 ws).
Qed.

Lemma load_persisted_dead rs e : all_dead e → all_dead (load_persisted e rs).
Proof.
  unfold load_persisted. revert e. induction rs as [|r rs IH]; intros e He; [done|]. cbn [foldl]. apply IH. unfold load_record.
  pose proof (load_windows_dead (ps_session_id r) (default policy_default (ps_default_restart_policy r)) (ps_windows r) e He) as H1.
  destruct (load_windows _ _ e _) as [e1 wins]. unfold all_dead, set_session, set_sessions in *. by destruct e1.
Qed.

Lemma count_node_records n : count_node n = length (filter (λ r, pp_command r ≠ [] ∧ pp_exit_code r = None) (records n)).
Proof.
  revert n. apply persisted_node_ind.
  - intros r. cbn [count_node records]. rewrite filter_cons, filter_nil. repeat case_bool_decide; case_decide; naive_solver.
  - intros o cs Hcs. cbn [count_node records]. induction Hcs as [|[c q] cs Hc _ IH]; [done|]. cbn [foldr flat_map fst] in *.
    rewrite filter_app, length_app, <- Hc. by rewrite IH.
Qed.

(** The whole of a start. *)
Definition to_socket : list effect := [Detached; LimitRaised; DirEnsured; LockTaken; Reconciled; UdsBound].
Definition to_engine (max_age : Z) (restored orphans : nat) : list effect :=
  [StoreOpened] ++ (if max_age =? 0 then [] else [Pruned max_age]) ++ [Loaded restored orphans].
Definition plan (max_age : Z) (restored orphans : nat) (tcp : bool) : list effect :=
  to_socket ++ to_engine max_age restored orphans ++ (if tcp then [TcpBound] else []).

(** A start that does not come to serve stopped somewhere on the way. *)
Definition stopped (d : list effect) : Prop := ∃ max_age n o, d `prefix_of` plan max_age n o false.

Definition pruned (env : list Z → option (list Z)) (an : Answers) (st : Store) : Store :=
  match stale_session_max_age env with
  | Some max_age => if max_age =? 0 then st else fst (prune_stale_at st max_age (an_now an) (an_removable an))
  | None => st
  end.

Lemma boot_engine_spec env an backend sv path w0 w r :
  wo_done w0 = to_socket → boot_engine (B:=B) env an backend sv path w0 = (w, r) →
  match r with
  | Usage => False
  | Failed => stopped (wo_done w)
  | Panicked => stopped (wo_done w) ∧ stale_session_max_age env = None
  | Running sv' path' e => sv' = sv ∧ path' = path ∧ wo_store w = pruned env an (wo_store w0) ∧
      e = load_persisted (engine_new (backend (wo_store w))) (load_all (wo_store w)) ∧
      ∃ max_age, stale_session_max_age env = Some max_age ∧
        wo_done w = plan max_age (length (load_all (wo_store w))) (count_orphan_candidates (load_all (wo_store w))) (bool_decide (is_Some (sv_tcp sv)))
  end.
Proof.
  intros Hd. unfold boot_engine, pruned. destruct (an_store_ok an); cbn [negb].
  2: { intros [= <- <-]. rewrite Hd. exists 0, 0%nat, 0%nat. by eexists. }
  destruct (stale_session_max_age env) as [max_age|] eqn:Ea.
  2: { intros [= <- <-]. split; [|done]. cbn [did wo_done]. rewrite Hd. exists 0, 0%nat, 0%nat. by eexists. }
  set (w1 := if max_age =? 0 then _ else _). set (recs := load_all (wo_store w1)).
  assert (Hst : wo_store w1 = if max_age =? 0 then wo_store w0 else fst (prune_stale_at (wo_store w0) max_age (an_now an) (an_removable an))).
  { unfold w1. by destruct (max_age =? 0). }
  assert (Hw1 : wo_done w1 ++ [Loaded (length recs) (count_orphan_candidates recs)] = to_socket ++ to_engine max_age (length recs) (count_orphan_candidates recs)).
  { unfold w1, to_engine. destruct (max_age =? 0); cbn [did with_store wo_done]; rewrite Hd, <- ?app_assoc; done. }
  destruct (sv_tcp sv) as [t|] eqn:Et; [destruct (an_tcp_bind_ok an)|]; intros [= <- <-]; cbn [did wo_done wo_store]; fold recs.
  - rewrite Hw1. split; [done|]. split; [done|]. split; [done|]. split; [done|]. exists max_age. split; [done|].
    rewrite bool_decide_true by by eexists. unfold plan. by rewrite <- app_assoc.
  - rewrite Hw1. exists max_age, (length recs), (count_orphan_candidates recs). unfold plan. by rewrite app_nil_r.
  - rewrite Hw1. split; [done|]. split; [done|]. split; [done|]. split; [done|]. exists max_age. split; [done|].
    rewrite bool_decide_false by (by intros []). unfold plan. by rewrite app_nil_r.
Qed.

Lemma boot_engine_grows env an backend sv path w0 w r :
  boot_engine (B:=B) env an backend sv path w0 = (w, r) → ∃ k, wo_done w = wo_done w0 ++ k.
Proof.
  unfold boot_engine. repeat (case_match; try done); intros [= <- <-]; cbn [did with_store wo_done]; rewrite <- ?app_assoc; try (by eexists).
  exists []. by rewrite app_nil_r.
Qed.

Lemma stopped_early d : d `prefix_of` to_socket → stopped d.
Proof. intros [k Hk]. exists 0, 0%nat, 0%nat. exists (k ++ to_engine 0 0 0). unfold plan. rewrite Hk, app_nil_r. by rewrite app_assoc. Qed.

(** C23. The daemon starts in one order and stops at the first thing that is wrong. Asked for
    its usage it touches nothing. Otherwise, whatever the system answers, what it has done
    is a beginning of one sequence: it looks at the socket only under the lock, touches the
    session records only once its socket is bound, and listens on TCP last; when it serves it
    has done all of it, with the access rules [startup] decided, from the records that are
    left after pruning, and with every session dead. A failed start has not pruned or loaded
    a record unless the socket was bound, and it panics only on an age of records too large
    to be counted in seconds. *)
Theorem boot_in_order args env an backend w0 w r :
  wo_done w0 = [] → boot (B:=B) args env an backend w0 = (w, r) →
  (UdsBound ∉ wo_done w → wo_store w = wo_store w0) ∧
  match r with
  | Usage => w = w0
  | Failed => stopped (wo_done w)
  | Panicked => stopped (wo_done w) ∧ stale_session_max_age env = None
  | Running sv path e =>
      (∃ lo, an_loopback an = Some lo ∧ startup args env (an_uid an) lo (an_gid_by_name an) = Ok sv) ∧
      path = resolve_uds_socket_path args (an_uid an) env ∧ wo_store w = pruned env an (wo_store w0) ∧ all_dead e ∧
      e = load_persisted (engine_new (backend (wo_store w))) (load_all (wo_store w)) ∧
      ∃ max_age, stale_session_max_age env = Some max_age ∧
        wo_done w = plan max_age (length (load_all (wo_store w))) (count_orphan_candidates (load_all (wo_store w))) (bool_decide (is_Some (sv_tcp sv)))
  end.
Proof.
  intros Hd. unfold boot. do 3 (destruct (has_arg _ _); [by intros [= <- <-]|]). cbv zeta.
  set (w1 := did (did w0 Detached) LimitRaised). assert (H1 : wo_done w1 = [Detached; LimitRaised]) by (unfold w1; cbn [did wo_done]; by rewrite Hd).
  destruct (an_loopback an) as [lo|]; [|intros [= <- <-]; split; [done|]; apply stopped_early; rewrite H1; by eexists].
  destruct (startup _ _ _ _ _) as [sv|] eqn:Es; [|intros [= <- <-]; split; [done|]; apply stopped_early; rewrite H1; by eexists].
  unfold boot_socket. destruct (ensure_socket_parent_dir _ _ _ _ _ _) as [fs1 [[]|]]; cbv zeta.
  2: { intros [= <- <-]. split; [done|]. apply stopped_early. cbn [with_fs wo_done]. rewrite H1. by eexists. }
  destruct (an_lock_ok an); cbn [negb].
  2: { intros [= <- <-]. split; [done|]. apply stopped_early. cbn [did with_fs wo_done]. rewrite H1. by eexists. }
  destruct (reconcile_stale_socket _ _ _) as [fs2 [[]|]].
  2: { intros [= <- <-]. split; [done|]. apply stopped_early. cbn [did with_fs wo_done]. rewrite H1. by eexists. }
  destruct (bind_uds_listener _ _ _ _ _ _ _ _) as [fs3 [[]|]].
  2: { intros [= <- <-]. split; [done|]. apply stopped_early. cbn [did with_fs wo_done]. rewrite H1. by eexists. }
  set (w2 := did _ UdsBound). intros Hb. assert (H2 : wo_done w2 = to_socket) by (unfold w2; cbn [did with_fs wo_done]; by rewrite H1).
  pose proof (boot_engine_spec _ _ _ _ _ _ _ _ H2 Hb) as Hr. split.
  - intros Hn. exfalso. apply Hn. destruct (boot_engine_grows _ _ _ _ _ _ _ _ Hb) as [k ->]. rewrite H2. unfold to_socket. set_solver.
  - destruct r as [| | |sv' path e]; try done. destruct Hr as (-> & -> & Hs & He & Hp). split; [by exists lo|]. split; [done|].
    split; [exact Hs|]. split; [|by split]. rewrite He. apply load_persisted_dead. by intros id x Hx.
Qed.
End BootProps.

(** ** The probe of the TCP listener *)

Definition TCP_HEALTH_PROBE_WARN_THRESHOLD : Z := 3.
Definition TCP_HEALTH_PROBE_EXIT_THRESHOLD : Z := 4.

Inductive IpAddr := V4 (a : Z) | V6 (a : Z).

Definition is_unspecified (ip : IpAddr) : bool := match ip with V4 a | V6 a => a =? 0 end.

(** [Ipv4Addr::LOCALHOST] is 127.0.0.1, [Ipv6Addr::LOCALHOST] is ::1. *)
Definition localhost (ip : IpAddr) : IpAddr := match ip with V4 _ => V4 0x7F000001 | V6 _ => V6 1 end.

(** [IpAddr::is_loopback]: 127.0.0.0/8 and ::1. *)
Definition ip_is_loopback (ip : IpAddr) : bool := match ip with V4 a => a / 2 ^ 24 =? 127 | V6 a => a =? 1 end.

Definition tcp_probe_target (addr : IpAddr * Z) : IpAddr * Z :=
  if is_unspecified (fst addr) then (localhost (fst addr), snd addr) else addr.

Inductive TcpProbeOutcome := ProbeConnected | ProbeFailed | ProbeInconclusive.
Inductive TcpProbeEnd := EndShutdown | EndListenerDead.
Inductive TcpHealthProbeLog := LogNone | LogFailing (n : Z) | LogFatal (n : Z) | LogRecovered.

Definition probe_timeout_outcome (loopback : bool) : TcpProbeOutcome := if loopback then ProbeFailed else ProbeInconclusive.

Definition ETIMEDOUT : Z := 110.

(** EMFILE, ENFILE, ENOBUFS, ENOMEM, EADDRNOTAVAIL, ENETUNREACH, ENETDOWN, EHOSTUNREACH (Linux). *)
Definition local_errnos : list Z := [24; 23; 105; 12; 99; 101; 100; 113].

Definition probe_connect_error_outcome (raw_os_error : option Z) (loopback : bool) : TcpProbeOutcome :=
  match raw_os_error with
  | Some n =>
      if bool_decide (n ∈ local_errnos) then ProbeInconclusive
      else if n =? ETIMEDOUT then probe_timeout_outcome loopback else ProbeFailed
  | None => ProbeFailed
  end.

Definition tcp_health_probe_transition (consecutive_failures : Z) (outcome : TcpProbeOutcome) : Z * TcpHealthProbeLog :=
  match outcome with
  | ProbeConnected => (0, if TCP_HEALTH_PROBE_WARN_THRESHOLD <=? consecutive_failures then LogRecovered else LogNone)
  | ProbeInconclusive => (consecutive_failures, LogNone)
  | ProbeFailed =>
      let next := consecutive_failures + 1 in
      (next, if TCP_HEALTH_PROBE_EXIT_THRESHOLD <=? next then LogFatal next
             else if TCP_HEALTH_PROBE_WARN_THRESHOLD <=? next then LogFailing next else LogNone)
  end.

(** One attempt to connect: a connection, an error, or the timeout. *)
Inductive attempt := Accepted | Refused (raw_os_error : option Z) | TimedOut.

Definition attempt_outcome (loopback : bool) (a : attempt) : TcpProbeOutcome :=
  match a with
  | Accepted => ProbeConnected
  | Refused e => probe_connect_error_outcome e loopback
  | TimedOut => probe_timeout_outcome loopback
  end.

(** The loop: what wins the [select!] each round, a tick with its attempt and the counts of
    descriptors then, or the shutdown; the log lines (whether it warns of the descriptors, and
    the probe's own) and how it ended ([None]: it is still running). The outer [None] is the
    overflow of [fd_pressure]. *)
Inductive round := Tick (a : attempt) (open_fds fd_limit : Z) | Shutdown.

Fixpoint tcp_health_probe (loopback : bool) (failures : Z) (rounds : list round)
    : option (list (bool * TcpHealthProbeLog) * option TcpProbeEnd) :=
  match rounds with
  | [] => Some ([], None)
  | Shutdown :: _ => Some ([], Some EndShutdown)
  | Tick a open_fds fd_limit :: rounds =>
      let '(failures, log) := tcp_health_probe_transition failures (attempt_outcome loopback a) in
      let! pressure := fd_pressure open_fds fd_limit in
      match log with
      | LogFatal _ => Some ([(pressure, log)], Some EndListenerDead)
      | _ => let! (logs, e) := tcp_health_probe loopback failures rounds in Some ((pressure, log) :: logs, e)
      end
  end.

(** *** When a listener is dead *)

#[global] Instance TcpProbeOutcome_eq_dec : EqDecision TcpProbeOutcome.
Proof. solve_decision. Defined.

(** What the attempts of a run say, without those that say nothing. *)
Definition verdicts (loopback : bool) (attempts : list attempt) : list TcpProbeOutcome :=
  filter (λ o, o ≠ ProbeInconclusive) (attempt_outcome loopback <$> attempts).

(** The rounds of attempts and counts, and counts whose percentages fit in 64 bits. *)
Definition tick (t : attempt * (Z * Z)) : round := Tick (fst t) (fst (snd t)) (snd (snd t)).
Definition counts_fit (t : attempt * (Z * Z)) : Prop := fst (snd t) * 100 ≤ u64_max ∧ snd (snd t) * FD_PRESSURE_PERCENT ≤ u64_max.

Lemma fd_pressure_fits t : counts_fit t → is_Some (fd_pressure (fst (snd t)) (snd (snd t))).
Proof.
  intros [Ho Hl]. unfold fd_pressure, u64_mul. destruct (0 <? _); [|by eexists].
  rewrite (proj2 (Z.leb_le _ _) Ho), (proj2 (Z.leb_le _ _) Hl). by eexists.
Qed.

(** Four failures in a row. *)
Definition four_failures (v : list TcpProbeOutcome) : Prop :=
  ∃ before after, v = before ++ replicate 4 ProbeFailed ++ after.

Lemma four_short k : (k < 4)%nat → ¬ four_failures (replicate k ProbeFailed).
Proof. intros Hk (b & a & E). apply (f_equal length) in E. rewrite !length_app, !length_replicate in E. lia. Qed.

(** Fewer than four failures before a connection do not matter. *)
Lemma four_reset k v : (k < 4)%nat → four_failures (replicate k ProbeFailed ++ ProbeConnected :: v) ↔ four_failures v.
Proof.
  intros Hk. split; [|intros (b & a & ->); exists (replicate k ProbeFailed ++ ProbeConnected :: b), a; by rewrite <- app_assoc].
  intros (b & a & E). destruct (decide (length b ≤ k)%nat) as [Hb|Hb].
  - exfalso. assert (Hl : (b ++ replicate 4 ProbeFailed ++ a) !! k = Some ProbeConnected).
    { rewrite <- E. by rewrite lookup_app_r, length_replicate, Nat.sub_diag by (rewrite length_replicate; lia). }
    rewrite lookup_app_r, lookup_app_l in Hl by (rewrite ?length_replicate; lia). apply lookup_replicate in Hl as [? _]. done.
  - exists (drop (S k) b), a. apply (f_equal (drop (S k))) in E. rewrite drop_app_ge, length_replicate in E by (rewrite length_replicate; lia).
    replace (S k - k)%nat with 1%nat in E by lia. rewrite drop_app_le in E by lia. exact E.
Qed.

(** One round that says nothing final, and the rest. *)
Lemma probe_round loopback k t rounds k' log :
  counts_fit t → tcp_health_probe_transition k (attempt_outcome loopback (fst t)) = (k', log) → (∀ n, log ≠ LogFatal n) →
  ∃ pressure, tcp_health_probe loopback k (tick t :: rounds) =
    let! (logs, e) := tcp_health_probe loopback k' rounds in Some ((pressure, log) :: logs, e).
Proof.
  intros [pr Hp]%fd_pressure_fits Ht Hlog. exists pr. unfold tick. cbn [tcp_health_probe]. rewrite Ht, Hp. destruct log; try done. by destruct (Hlog n).
Qed.

(** How a run ends, if it does, without its log lines. *)
Definition probe_end (r : option (list (bool * TcpHealthProbeLog) * option TcpProbeEnd)) : option (option TcpProbeEnd) := snd <$> r.

Lemma probe_end_cons l r : probe_end (let! (logs, e) := r in Some (l :: logs, e)) = probe_end r.
Proof. by destruct r as [[logs e]|]. Qed.

Lemma probe_verdict loopback k l :
  (k < 4)%nat → Forall counts_fit l →
  ∃ d : bool, (d = true ↔ four_failures (replicate k ProbeFailed ++ verdicts loopback (fst <$> l))) ∧
    probe_end (tcp_health_probe loopback (Z.of_nat k) (tick <$> l)) = Some (if d then Some EndListenerDead else None) ∧
    probe_end (tcp_health_probe loopback (Z.of_nat k) ((tick <$> l) ++ [Shutdown])) = Some (Some (if d then EndListenerDead else EndShutdown)).
Proof.
  intros Hk Hl. revert k Hk. induction Hl as [|t l Ht Hl IH]; intros k Hk.
  { exists false. split; [|done]. split; [done|]. unfold verdicts. cbn. rewrite app_nil_r. intros Hf. by apply four_short in Hf. }
  unfold verdicts. cbn [fmap list_fmap app]. fold (verdicts loopback (fst <$> l)).
  assert (Hgo : ∀ k' log, tcp_health_probe_transition (Z.of_nat k) (attempt_outcome loopback (fst t)) = (k', log) → (∀ n, log ≠ LogFatal n) →
    ∀ rest, probe_end (tcp_health_probe loopback (Z.of_nat k) (tick t :: rest)) = probe_end (tcp_health_probe loopback k' rest)).
  { intros k' log Hs Hlog rest. destruct (probe_round loopback (Z.of_nat k) t rest k' log Ht Hs Hlog) as [pr ->]. apply probe_end_cons. }
  unfold tcp_health_probe_transition in Hgo. destruct (attempt_outcome loopback (fst t)) eqn:Eo.
  - destruct (IH 0%nat ltac:(lia)) as (d & Hd & E1 & E2). exists d. rewrite filter_cons_True by done. fold (verdicts loopback (fst <$> l)).
    rewrite four_reset by done. split; [exact Hd|]. rewrite !(Hgo _ _ eq_refl) by (by destruct (_ <=? _)). by split.
  - rewrite filter_cons_True by done. fold (verdicts loopback (fst <$> l)).
    replace (replicate k ProbeFailed ++ ProbeFailed :: verdicts loopback (fst <$> l)) with (replicate (S k) ProbeFailed ++ verdicts loopback (fst <$> l))
      by (rewrite (Nat.add_comm 1 k : S k = (k + 1)%nat), replicate_add, <- app_assoc; done).
    replace (Z.of_nat k + 1) with (Z.of_nat (S k)) in Hgo by lia. unfold TCP_HEALTH_PROBE_EXIT_THRESHOLD in Hgo. destruct (Z.leb_spec 4 (Z.of_nat (S k))) as [H4|H4].
    + exists true. assert (Hk3 : k = 3%nat) by lia. subst k. split; [|destruct (fd_pressure_fits _ Ht) as [pr Hp]; unfold tick; cbn [tcp_health_probe]; by rewrite Eo, Hp].
      split; [|done]. intros _. by exists [], (verdicts loopback (fst <$> l)).
    + destruct (IH (S k) ltac:(lia)) as (d & Hd & E1 & E2). exists d. split; [exact Hd|]. rewrite !(Hgo _ _ eq_refl) by (by destruct (_ <=? _)). by split.
  - rewrite filter_cons_False by (by intros []). fold (verdicts loopback (fst <$> l)). destruct (IH k Hk) as (d & Hd & E1 & E2). exists d. split; [exact Hd|].
    rewrite !(Hgo _ _ eq_refl) by done. by split.
Qed.

(** C24. The probe gives a listener up exactly when it has to. Leaving out the attempts that
    say nothing about the listener (the probe's own lack of resources, an unreachable
    network, a timeout that is not on loopback), it reports the listener dead at the fourth
    failure in a row and never otherwise; until then it goes on, and ends when asked to shut
    down. Assumed: in every round the percentages of the count of open descriptors and of the
    soft limit fit in 64 bits, which the limit of an unlimited process does not. *)
Theorem probe_ends_on_four_failures loopback l :
  Forall counts_fit l →
  ∃ d : bool, (d = true ↔ four_failures (verdicts loopback (fst <$> l))) ∧
    probe_end (tcp_health_probe loopback 0 (tick <$> l)) = Some (if d then Some EndListenerDead else None) ∧
    probe_end (tcp_health_probe loopback 0 ((tick <$> l) ++ [Shutdown])) = Some (Some (if d then EndListenerDead else EndShutdown)).
Proof. intros Hl. exact (probe_verdict loopback 0 l ltac:(lia) Hl). Qed.

(** Without that assumption the first round ends the probe: with an unlimited soft limit the
    test for descriptor pressure overflows, whatever the attempt said. *)
Lemma probe_panics_unlimited loopback rounds : tcp_health_probe loopback 0 (Tick Accepted 3 u64_max :: rounds) = None.
Proof. reflexivity. Qed.

(** Three failures, a timeout that says nothing off loopback, and the fourth. *)
Definition sample_probes : list (attempt * (Z * Z)) :=
  [(Refused None, (12, 1024)); (Refused None, (12, 1024)); (Refused None, (900, 1024)); (TimedOut, (12, 1024)); (Refused None, (12, 0))].

Lemma probe_ends_on_four_failures_witness :
  ∃ d : bool, (d = true ↔ four_failures (verdicts false (fst <$> sample_probes))) ∧
    probe_end (tcp_health_probe false 0 (tick <$> sample_probes)) = Some (if d then Some EndListenerDead else None) ∧ d = true.
Proof.
  destruct (probe_ends_on_four_failures false sample_probes) as (d & Hd & E & _).
  { unfold sample_probes, counts_fit, FD_PRESSURE_PERCENT, u64_max. repeat constructor; cbn; lia. }
  exists d. split; [exact Hd|]. split; [exact E|]. apply Hd. by exists [], [].
Defined.

(** The probe of an address that binds every interface goes to loopback, where a timeout
    counts. *)
Lemma probe_target_reachable addr :
  is_unspecified (fst (tcp_probe_target addr)) = false ∧ (is_unspecified (fst addr) = true → ip_is_loopback (fst (tcp_probe_target addr)) = true).
Proof. unfold tcp_probe_target. destruct addr as [[a|a] port]; cbn; destruct (Z.eqb_spec a 0) as [->|Hne]; cbn; split; try done; by apply Z.eqb_neq. Qed.

(** ** The end of the process *)

(** Nanoseconds. *)
Definition DEFAULT_SHUTDOWN_DRAIN : Z := 5 * 10 ^ 9.
Definition MIN_SHUTDOWN_DRAIN : Z := 100 * 10 ^ 6.

Definition DRAIN_FLAG : list Z := ascii "--shutdown-drain-secs".

Fixpoint drain_flag (args : list (list Z)) : option (list Z) :=
  match args with
  | [] => None
  | a :: rest =>
      match strip_prefix (DRAIN_FLAG ++ ascii "=") a with
      | Some v => Some v
      | None => match (if bool_decide (a = DRAIN_FLAG) then head rest else None) with Some v => Some v | None => drain_flag rest end
      end
  end.

(** [parse_secs] is [trim], [parse::<f64>] and [Duration::try_from_secs_f64]. *)
Definition resolve_shutdown_drain (parse_secs : list Z → option Z) (args : list (list Z)) (env : list Z → option (list Z)) : Z :=
  match (let! v := or_else (drain_flag args) (env (ascii "TYMUXD_SHUTDOWN_DRAIN_SECS")) in parse_secs v) with
  | Some d => Z.max d MIN_SHUTDOWN_DRAIN
  | None => DEFAULT_SHUTDOWN_DRAIN
  end.

(** However it is set, the drain is long enough for the goodbye and is what was asked for when
    that is longer. *)
Lemma drain_bounds parse_secs args env :
  MIN_SHUTDOWN_DRAIN ≤ resolve_shutdown_drain parse_secs args env ∧
  ∀ v d, drain_flag args = Some v → parse_secs v = Some d → MIN_SHUTDOWN_DRAIN ≤ d → resolve_shutdown_drain parse_secs args env = d.
Proof.
  unfold resolve_shutdown_drain. split.
  - destruct (or_else _ _) as [v|]; [destruct (parse_secs v)|]; unfold DEFAULT_SHUTDOWN_DRAIN, MIN_SHUTDOWN_DRAIN; lia.
  - intros v d Hv Hd Hm. rewrite Hv. cbn [or_else]. rewrite Hd. lia.
Qed.

(** The signal task, the two servers, the probe and the drain thread. A server that returned
    says whether without an error; [code] is the exit status once the process has ended. *)
Module Exit.

Inductive server := Serve | Returned (ok : bool) | Off.

Record st := mkSt {
  shutdown_requested : bool;
  told : bool;
  drain : bool;
  uds : server;
  tcp : server;
  probing : bool;
  code : option Z;
}.

(** [exit_if_listener_ended_unexpectedly]. *)
Definition ended (s : st) (k : st) : st :=
  if shutdown_requested s then k else mkSt (shutdown_requested s) (told s) (drain s) (uds s) (tcp s) (probing s) (Some 1).

Definition set_uds (s : st) (v : server) : st := mkSt (shutdown_requested s) (told s) (drain s) v (tcp s) (probing s) (code s).
Definition set_tcp (s : st) (v : server) : st := mkSt (shutdown_requested s) (told s) (drain s) (uds s) v (probing s) (code s).
Definition stop_probe (s : st) : st := mkSt (shutdown_requested s) (told s) (drain s) (uds s) (tcp s) false (code s).
Definition exit_with (s : st) (c : Z) : st := mkSt (shutdown_requested s) (told s) (drain s) (uds s) (tcp s) (probing s) (Some c).

Definition returned (v : server) : bool := match v with Serve => false | _ => true end.
Definition failed (v : server) : bool := match v with Returned ok => negb ok | _ => false end.

Inductive step : st → st → Prop :=
| signal s : code s = None → shutdown_requested s = false → step s (mkSt true (told s) (drain s) (uds s) (tcp s) (probing s) (code s))
| tell s : code s = None → shutdown_requested s = true → step s (mkSt true true (drain s) (uds s) (tcp s) (probing s) (code s))
| arm_drain s : code s = None → told s = true → step s (mkSt (shutdown_requested s) true true (uds s) (tcp s) (probing s) (code s))
| drain_over s : code s = None → drain s = true → step s (exit_with s 0)
| uds_returns s ok : code s = None → uds s = Serve → step s (ended s (set_uds s (Returned ok)))
| tcp_returns s ok : code s = None → tcp s = Serve → step s (ended s (set_tcp s (Returned ok)))
| accept_dies s : code s = None → uds s = Serve ∨ tcp s = Serve → step s (ended s s)
| probe_dead s : code s = None → probing s = true → step s (ended s (stop_probe s))
| probe_told s : code s = None → probing s = true → told s = true → step s (stop_probe s)
| joined s : code s = None → returned (uds s) = true → returned (tcp s) = true → probing s = false →
    step s (exit_with s (if failed (uds s) || failed (tcp s) then 1 else 0)).

Definition init (tcp_disabled : bool) : st :=
  mkSt false false false Serve (if tcp_disabled then Off else Serve) (negb tcp_disabled) None.

(** Nobody is told, and no server is done, before the request. *)
Definition inv (s : st) : Prop :=
  (told s = true → shutdown_requested s = true) ∧ (drain s = true → shutdown_requested s = true) ∧
  (returned (uds s) = true → shutdown_requested s = true) ∧
  match code s with
  | None => True
  | Some c => (c = 0 ∧ shutdown_requested s = true) ∨ (c = 1 ∧ (shutdown_requested s = false ∨ failed (uds s) = true ∨ failed (tcp s) = true))
  end.

Lemma ended_inv s k : inv s → (shutdown_requested s = true → inv k) → inv (ended s k).
Proof.
  intros (H1 & H2 & H3 & H4) Hk. unfold ended. destruct (shutdown_requested s) eqn:E; [by apply Hk|].
  split; [exact H1|]. split; [exact H2|]. split; [exact H3|]. cbn. right. by split; [|left].
Qed.

Lemma exit_step_inv s s' : inv s → step s s' → inv s'.
Proof.
  intros Hi Hs. destruct Hs as [s Hc Hr|s Hc Hr|s Hc Ht|s Hc Hd|s ok Hc Hu|s ok Hc Hu|s Hc Hu|s Hc Hp|s Hc Hp Ht|s Hc Hu Ht Hp];
    try (apply ended_inv; [done|intros Hr]); destruct Hi as (I1 & I2 & I3 & I4); unfold inv; cbn; rewrite ?Hc in *;
    try (by split_and!; auto).
  split_and!; auto. destruct (failed (uds s)), (failed (tcp s)); cbn; naive_solver.
Qed.

Lemma exit_reach_inv off s : rtc step (init off) s → inv s.
Proof. revert s. apply rtc_ind_r; [by split_and!|]. intros y z _ Hyz Hy. by eapply exit_step_inv. Qed.
End Exit.

(** C25. The exit status tells why the daemon ended, in every interleaving of the signal, the
    servers, the probe and the drain. Zero means that the end was asked for; one means that a
    listener or its probe ended unasked, or that a server reported an error; and once the end
    is asked for the daemon can end by its own steps, with connections still open. *)
Theorem exit_status_tells off s :
  rtc Exit.step (Exit.init off) s →
  match Exit.code s with
  | Some c => c = 0 ∧ Exit.shutdown_requested s = true ∨
      c = 1 ∧ (Exit.shutdown_requested s = false ∨ Exit.failed (Exit.uds s) = true ∨ Exit.failed (Exit.tcp s) = true)
  | None => Exit.shutdown_requested s = true → ∃ s', rtc Exit.step s s' ∧ Exit.code s' = Some 0 ∧ (Exit.uds s', Exit.tcp s') = (Exit.uds s, Exit.tcp s)
  end.
Proof.
  intros Hs. destruct (Exit.exit_reach_inv off s Hs) as (_ & _ & _ & Hc). destruct (Exit.code s) as [c|] eqn:Ec; [exact Hc|].
  intros Hr. set (s1 := Exit.mkSt true true (Exit.drain s) (Exit.uds s) (Exit.tcp s) (Exit.probing s) (Exit.code s)).
  set (s2 := Exit.mkSt true true true (Exit.uds s) (Exit.tcp s) (Exit.probing s) (Exit.code s)). exists (Exit.exit_with s2 0). split; [|done].
  eapply (rtc_l _ s s1); [by apply Exit.tell|]. eapply (rtc_l _ s1 s2); [by apply (Exit.arm_drain s1)|]. apply rtc_once. by apply Exit.drain_over.
Qed.

Lemma exit_status_tells_witness :
  let s := Exit.mkSt true false false Exit.Serve Exit.Off false None in
  rtc Exit.step (Exit.init true) s ∧ ∃ s', rtc Exit.step s s' ∧ Exit.code s' = Some 0 ∧ (Exit.uds s', Exit.tcp s') = (Exit.Serve, Exit.Off).
Proof.
  assert (Hr : rtc Exit.step (Exit.init true) (Exit.mkSt true false false Exit.Serve Exit.Off false None)) by (apply rtc_once; by apply (Exit.signal (Exit.init true))).
  split; [exact Hr|]. exact (exit_status_tells true _ Hr eq_refl).
Defined.

(** ** Examples *)

Definition sample_world : World :=
  mkWorld (mkFs None 18 None) (mkStore true {[ final_path 9%N := mkDirEntry (Some [9]) (Some 100); [1] := mkDirEntry None None ]}) [].

Definition sample_answers : Answers :=
  mkAnswers (Some true) 1000 (λ _, None) true (λ _ fs, fs) true PRefused true true true true 200 (λ _, true) true.

Definition sample_boot : World * boot_end Store := boot [ascii "tymuxd"] (λ _, None) sample_answers (λ st, st) sample_world.

Lemma sample_boot_runs : ∃ sv path e, snd sample_boot = Running sv path e.
Proof. do 3 eexists. vm_compute. reflexivity. Qed.

Lemma boot_in_order_witness :
  ∃ sv path e, snd sample_boot = Running sv path e ∧ all_dead e ∧ ∃ n o, wo_done (fst sample_boot) = plan STALE_SESSION_MAX_AGE n o (bool_decide (is_Some (sv_tcp sv))).
Proof.
  destruct (boot_in_order [ascii "tymuxd"] (λ _, None) sample_answers (λ st, st) sample_world (fst sample_boot) (snd sample_boot)) as [_ H].
  - reflexivity.
  - apply surjective_pairing.
  - destruct sample_boot_runs as (sv & path & e & E). rewrite E in H. destruct H as (_ & _ & _ & Hdead & _ & max_age & Ha & Hd).
    assert (Em : max_age = STALE_SESSION_MAX_AGE) by (injection Ha as <-; reflexivity).
    exists sv, path, e. split; [exact E|]. split; [exact Hdead|]. rewrite Em in Hd. exact (ex_intro _ _ (ex_intro _ _ Hd)).
Defined.

(** An age of records in days that does not fit in seconds overflows, once the socket is
    bound. *)
Lemma huge_age_overflows :
  let env name := if bool_decide (name = ascii "TYMUXD_STALE_SESSION_MAX_AGE_DAYS") then Some (ascii "213503982334602") else None in
  stale_session_max_age env = None ∧ 213503982334602 * 86400 - 2 ^ 64 = 61184.
Proof. vm_compute. done. Qed.

Lemma refused_start_keeps_records :
  let an := mkAnswers (Some true) 1000 (λ _, None) true (λ _ fs, fs) true PConnected true true true true 200 (λ _, true) true in
  let w := mkWorld (mkFs (Some (EDir (mkMeta 1000 448))) 18 (Some (384, None))) (wo_store sample_world) [] in
  snd (boot (B:=Store) [ascii "tymuxd"] (λ _, None) an (λ st, st) w) = Failed ∧
  wo_done (fst (boot (B:=Store) [ascii "tymuxd"] (λ _, None) an (λ st, st) w)) = [Detached; LimitRaised; DirEnsured; LockTaken].
Proof. vm_compute. done. Qed.
