(* ===== verification/ClientInput.v ===== *)
(** * The client's key bindings and input

    [config.rs] reads the key bindings and [input.rs] turns the raw bytes of the terminal into
    bound actions or bytes for the pane. Strings are lists of characters (code points); the
    TOML parser is a parameter. Reading the keyboard ([crossterm], [std::env]) is not
    modelled. *)

From S2P Require Import Prelude TermQuery.

(** ** Configuration *)

Inductive Action :=
| ADetach | AEnterCopyMode | AExitCopyMode | ASplitHorizontal | ASplitVertical
| ANewWindow | ANextWindow | APrevWindow | AKillPane | ASendPrefixLiteral.

#[global] Instance Action_eq_dec : EqDecision Action.
Proof. solve_decision. Defined.

Definition short_label (a : Action) : list Z :=
  ascii match a with
        | ADetach => "detach" | AEnterCopyMode => "copy-mode" | AExitCopyMode => "exit-copy-mode"
        | ASplitHorizontal => "split-h" | ASplitVertical => "split-v" | ANewWindow => "new-window"
        | ANextWindow => "next-window" | APrevWindow => "prev-window" | AKillPane => "kill-pane"
        | ASendPrefixLiteral => "literal-prefix"
        end.

(** A character key with or without Control. [crossterm] compares keys after moving the case
    of a letter into the Shift modifier, which no key built here carries, so that equality is
    this one. *)
Record KeyEvent := mkKey { key_char : Z; key_control : bool }.

#[global] Instance KeyEvent_eq_dec : EqDecision KeyEvent.
Proof. solve_decision. Defined.

Definition quote : list Z := [34].

Definition BINDABLE_ACTIONS : list (Action * list Z * list Z) :=
  [(ADetach, ascii "detach", ascii "C-b d");
   (AEnterCopyMode, ascii "copy_mode", ascii "C-b [");
   (ASplitHorizontal, ascii "split_horizontal", ascii "C-b %");
   (ASplitVertical, ascii "split_vertical", ascii "C-b " ++ quote);
   (ANewWindow, ascii "new_window", ascii "C-b c");
   (ANextWindow, ascii "next_window", ascii "C-b n");
   (APrevWindow, ascii "prev_window", ascii "C-b p");
   (AKillPane, ascii "kill_pane", ascii "C-b x")].

Record KeyBinding := mkBinding { sequence : list KeyEvent; action : Action }.

Record RawConfig := mkRaw { raw_leader : option (list Z); raw_keybindings : gmap (list Z) (list Z) }.

Record TymuxConfig := mkConfig { cfg_leader : list Z; cfg_bindings : list KeyBinding }.

(** [str::strip_prefix("C-")]. *)
Definition strip_control (s : list Z) : option (list Z) :=
  match s with 67 :: 45 :: rest => Some rest | _ => None end.

(** [None] is the parse error, which names the whole string. *)
Definition parse_key_token (token : list Z) : option KeyEvent :=
  match strip_control token with
  | Some rest => match rest with [c] => Some (mkKey c true) | _ => None end
  | None => match token with [c] => Some (mkKey c false) | _ => None end
  end.

Definition parse_key_sequence (raw : list Z) : option (list KeyEvent) :=
  mapM parse_key_token (split_whitespace raw).

(** Panics ([None]) when a built-in default does not parse. *)
Definition defaults : option TymuxConfig :=
  let! bindings := mapM (λ '(a, _, seq), (λ s, mkBinding s a) <$> parse_key_sequence seq) BINDABLE_ACTIONS in
  Some (mkConfig (ascii "C-b") bindings).

(** The binding of one action: the file's if there is one that parses, else the default. *)
Definition bind_action (raw : RawConfig) (entry : Action * list Z * list Z) : option KeyBinding :=
  let '(a, config_key, default_seq) := entry in
  match raw_keybindings raw !! config_key with
  | None => let! s := parse_key_sequence default_seq in Some (mkBinding s a)
  | Some raw_value =>
      match parse_key_sequence raw_value with
      | Some s => Some (mkBinding s a)
      | None => let! s := parse_key_sequence default_seq in Some (mkBinding s a)
      end
  end.

Definition from_toml_str (toml : list Z → option RawConfig) (contents : list Z) : option TymuxConfig :=
  match toml contents with
  | None => defaults
  | Some raw =>
      let leader := default (ascii "C-b") (raw_leader raw) in
      let! bindings := mapM (bind_action raw) BINDABLE_ACTIONS in
      Some (mkConfig leader bindings)
  end.

(** ** Keystrokes *)

Definition PASTE_START : list byte := [27; 91; 50; 48; 48; 126].
Definition PASTE_END : list byte := [27; 91; 50; 48; 49; 126].

Inductive ReassembledOutput := Forward (bytes : list byte) | Fire (a : Action).

Inductive ScanState := Normal | MatchingPasteStart (buf : list byte) | InPaste (buf : list byte).

Record KeystrokeReassembler := mkReassembler {
  bindings : list KeyBinding;
  leader : KeyEvent;
  armed : option (list byte * KeyEvent);
  scan : ScanState;
}.

Definition set_armed (k : KeystrokeReassembler) (a : option (list byte * KeyEvent)) : KeystrokeReassembler :=
  mkReassembler (bindings k) (leader k) a (scan k).
Definition set_scan (k : KeystrokeReassembler) (s : ScanState) : KeystrokeReassembler :=
  mkReassembler (bindings k) (leader k) (armed k) s.

Definition classify_byte (b : byte) : KeyEvent :=
  if (1 <=? b) && (b <=? 26) then mkKey (97 + b - 1) true else mkKey b false.

Definition parse_leader (raw : list Z) : KeyEvent :=
  match strip_control raw with
  | Some (c :: _) => mkKey c true
  | _ => mkKey 98 true
  end.

Definition reassembler_new (config : TymuxConfig) : KeystrokeReassembler :=
  mkReassembler (cfg_bindings config) (parse_leader (cfg_leader config)) None Normal.

Definition is_armed (k : KeystrokeReassembler) : bool := match armed k with Some _ => true | None => false end.

(** Whether a key arms: the leader, or the first key of a binding. *)
Definition arms (k : KeystrokeReassembler) (key : KeyEvent) : bool :=
  bool_decide (key = leader k) || existsb (λ b, bool_decide (head (sequence b) = Some key)) (bindings k).

(** The first binding of exactly these two keys. *)
Definition find_binding (k : KeystrokeReassembler) (first second : KeyEvent) : option KeyBinding :=
  snd <$> list_find (λ b, sequence b = [first; second]) (bindings k).

Definition handle_normal_byte (k : KeystrokeReassembler) (b : byte) : KeystrokeReassembler * list ReassembledOutput :=
  let key := classify_byte b in
  match armed k with
  | None => if arms k key then (set_armed k (Some ([b], key)), []) else (k, [Forward [b]])
  | Some (armed_bytes, armed_key) =>
      let k := set_armed k None in
      if bool_decide (key = armed_key) then (k, [Forward [b]])
      else
        match find_binding k armed_key key with
        | Some binding => (k, [Fire (action binding)])
        | None => (k, [Forward (armed_bytes ++ [b])])
        end
  end.

Definition starts_with (pre l : list byte) : bool := bool_decide (take (length pre) l = pre).
Definition ends_with (suf l : list byte) : bool :=
  (length suf <=? length l)%nat && bool_decide (drop (length l - length suf) l = suf).

Definition process_byte (k : KeystrokeReassembler) (b : byte) : KeystrokeReassembler * list ReassembledOutput :=
  match scan k with
  | Normal => if b =? 27 then (set_scan k (MatchingPasteStart [b]), []) else handle_normal_byte k b
  | MatchingPasteStart buf =>
      let buf := buf ++ [b] in
      if bool_decide (buf = PASTE_START) then (set_scan k (InPaste []), [])
      else if negb (starts_with buf PASTE_START) then (set_scan k Normal, [Forward buf])
      else (set_scan k (MatchingPasteStart buf), [])
  | InPaste buf =>
      let buf := buf ++ [b] in
      if ends_with PASTE_END buf then
        let content := take (length buf - length PASTE_END) buf in
        (set_scan k Normal, if bool_decide (content = []) then [] else [Forward content])
      else if (length PASTE_END <? length buf)%nat then
        let flush_upto := (length buf - (length PASTE_END - 1))%nat in
        (set_scan k (InPaste (drop flush_upto buf)), [Forward (take flush_upto buf)])
      else (set_scan k (InPaste buf), [])
  end.

Fixpoint process (k : KeystrokeReassembler) (bytes : list byte) : KeystrokeReassembler * list ReassembledOutput :=
  match bytes with
  | [] => (k, [])
  | b :: bytes =>
      let '(k, out) := process_byte k b in
      let '(k, outs) := process k bytes in
      (k, out ++ outs)
  end.

(** ** What the pane receives *)

Definition forwarded (outs : list ReassembledOutput) : list byte :=
  concat ((λ o, match o with Forward bs => bs | Fire _ => [] end) <$> outs).

Definition no_action (outs : list ReassembledOutput) : Prop :=
  Forall (λ o, match o with Forward _ => True | Fire _ => False end) outs.

Lemma forwarded_app a b : forwarded (a ++ b) = forwarded a ++ forwarded b.
Proof. unfold forwarded. by rewrite fmap_app, concat_app. Qed.

(** Reads may split the input anywhere. *)
Lemma process_app k a b :
  process k (a ++ b) =
    let '(k1, o1) := process k a in
    let '(k2, o2) := process k1 b in (k2, o1 ++ o2).
Proof.
  revert k. induction a as [|x a IH]; intros k; simpl; [by destruct (process k b)|].
  destruct (process_byte k x) as [k1 o1]. rewrite IH. destruct (process k1 a) as [k2 o2].
  destruct (process k2 b) as [k3 o3]. by rewrite app_assoc.
Qed.

(** *** Keys *)

(** The reading of keys when every binding starts with the leader: the leader takes the next
    key with it. *)
Definition key_pair (k : KeystrokeReassembler) (a b : byte) : ReassembledOutput :=
  if bool_decide (classify_byte b = classify_byte a) then Forward [b]
  else match find_binding k (classify_byte a) (classify_byte b) with
       | Some binding => Fire (action binding)
       | None => Forward [a; b]
       end.

Fixpoint keys_spec (k : KeystrokeReassembler) (l : list byte) : list ReassembledOutput * option byte :=
  match l with
  | [] => ([], None)
  | a :: l =>
      if bool_decide (classify_byte a = leader k) then
        match l with
        | [] => ([], Some a)
        | b :: l => let '(outs, p) := keys_spec k l in (key_pair k a b :: outs, p)
        end
      else let '(outs, p) := keys_spec k l in (Forward [a] :: outs, p)
  end.

Lemma reassembler_idle k : armed k = None → set_armed k None = k.
Proof. intros <-. by destruct k. Qed.

(** Every binding starts with the leader. *)
Definition one_leader (k : KeystrokeReassembler) : Prop := ∀ b, b ∈ bindings k → head (sequence b) = Some (leader k).

Lemma arms_leader k key : one_leader k → arms k key = bool_decide (key = leader k).
Proof.
  intros Hb. unfold arms. case_bool_decide as Hk; [done|]. simpl. apply not_true_iff_false. intros (b & Hin & H)%existsb_exists.
  apply bool_decide_eq_true in H. apply Hk. apply list_elem_of_In, Hb in Hin. congruence.
Qed.

Lemma process_keys n k l :
  one_leader k → (length l ≤ n)%nat → Forall (λ b, b ≠ 27) l → armed k = None → scan k = Normal →
  process k l = let '(outs, p) := keys_spec k l in (set_armed k ((λ a, ([a], classify_byte a)) <$> p), outs).
Proof.
  intros Hld. revert l. induction n as [|n IH]; intros [|a l] Hn Hl Ha Hs; simpl in Hn; try lia; try (simpl; by rewrite reassembler_idle).
  apply Forall_cons in Hl as [Hna Hl]. cbn [process keys_spec]. unfold process_byte at 1. rewrite Hs, (proj2 (Z.eqb_neq a 27) Hna).
  unfold handle_normal_byte. rewrite Ha, (arms_leader k _ Hld). destruct (bool_decide (classify_byte a = leader k)) eqn:Har.
  - destruct l as [|b l]; [done|]. apply Forall_cons in Hl as [Hnb Hl]. cbn [process]. unfold process_byte at 1.
    change (scan (set_armed k (Some ([a], classify_byte a)))) with (scan k). rewrite Hs, (proj2 (Z.eqb_neq b 27) Hnb).
    unfold handle_normal_byte, key_pair. cbn [armed set_armed].
    assert (Hk : set_armed (set_armed k (Some ([a], classify_byte a))) None = k) by (rewrite <- (reassembler_idle k Ha) at 2; done).
    rewrite Hk. specialize (IH l ltac:(simpl in Hn; lia) Hl Ha Hs). destruct (keys_spec k l) as [outs p].
    destruct (bool_decide (classify_byte b = classify_byte a)); [by rewrite IH|]. destruct (find_binding k _ _); by rewrite IH.
  - rewrite (IH l ltac:(lia) Hl Ha Hs). by destruct (keys_spec k l).
Qed.

(** *** Pastes *)

Definition contains_end (l : list byte) : Prop := ∃ a b, l = a ++ PASTE_END ++ b.

Lemma ends_with_spec suf l : ends_with suf l = true ↔ ∃ a, l = a ++ suf.
Proof.
  unfold ends_with. rewrite andb_true_iff, Nat.leb_le, bool_decide_eq_true. split.
  - intros [_ E]. exists (take (length l - length suf) l). by rewrite <- E at 2; rewrite take_drop.
  - intros [a ->]. rewrite length_app. split; [lia|]. replace (length a + length suf - length suf)%nat with (length a) by lia.
    apply drop_app_length.
Qed.

(** The end marker cannot overlap itself, so it ends where the paste ends. *)
Lemma end_at_end content a b :
  ¬ contains_end content → content ++ PASTE_END = a ++ PASTE_END ++ b → b = [].
Proof.
  intros Hno E. destruct (decide (b = [])) as [|Hb]; [done|]. exfalso.
  assert (Hlen : length content = (length a + length b)%nat).
  { apply (f_equal length) in E. rewrite !length_app in E. simpl in E. lia. }
  destruct (decide (6 ≤ length b)%nat) as [Hge|Hlt].
  - apply Hno. exists a, (take (length b - 6) b). apply (f_equal (take (length content))) in E.
    rewrite take_app_length in E. rewrite E, app_assoc, take_app_ge by (rewrite length_app; simpl; lia).
    rewrite <- app_assoc. do 3 f_equal. rewrite length_app. simpl. lia.
  - assert (Hl : (content ++ PASTE_END) !! length content = Some 27) by (rewrite lookup_app_r, Nat.sub_diag by lia; done).
    rewrite E, lookup_app_r, lookup_app_l in Hl by (simpl; lia). replace (length content - length a)%nat with (length b) in Hl by lia.
    destruct b as [|? [|? [|? [|? [|? [|? ?]]]]]]; simpl in *; try done; lia.
Qed.

(** Inside a paste: everything but the last few bytes has been forwarded. *)
Record paste_state (k0 k : KeystrokeReassembler) (outs : list ReassembledOutput) (seen : list byte) : Prop := {
  ps_same : set_scan k Normal = set_scan k0 Normal;
  ps_buf : ∃ buf, scan k = InPaste buf ∧ forwarded outs ++ buf = seen ∧ (length buf ≤ 6)%nat ∧
    (outs = [] ∨ (5 ≤ length buf)%nat);
  ps_quiet : no_action outs;
}.

Lemma paste_byte k0 k outs seen b :
  paste_state k0 k outs seen → ¬ (∃ a, seen ++ [b] = a ++ PASTE_END) →
  paste_state k0 (fst (process_byte k b)) (outs ++ snd (process_byte k b)) (seen ++ [b]).
Proof.
  intros [Hk (buf & Hs & <- & Hlen & Hb) Hq] Hno. unfold process_byte. rewrite Hs.
  destruct (ends_with PASTE_END (buf ++ [b])) eqn:Hend.
  { destruct Hno. apply ends_with_spec in Hend as [a Ha]. exists (forwarded outs ++ a). by rewrite <- !app_assoc, Ha. }
  destruct (Nat.ltb_spec (length PASTE_END) (length (buf ++ [b]))) as [Hbig|Hsmall]; cbn [fst snd].
  - set (n := (length (buf ++ [b]) - (length PASTE_END - 1))%nat). split; [done| |by apply Forall_app; split; [|by repeat constructor]].
    exists (drop n (buf ++ [b])). split; [done|]. rewrite forwarded_app. unfold forwarded at 2. simpl. rewrite app_nil_r.
    rewrite <- !app_assoc, take_drop. split; [done|]. rewrite length_drop. unfold n. simpl in *. rewrite length_app in *. simpl in *. lia.
  - split; [done| |by rewrite app_nil_r]. exists (buf ++ [b]). rewrite app_nil_r, <- app_assoc. split; [done|]. split; [done|].
    rewrite length_app in *. simpl in *. split; [lia|]. destruct Hb; [by left|right; lia].
Qed.

Lemma paste_bytes k0 k outs seen l :
  paste_state k0 k outs seen →
  (∀ l1 l2, l = l1 ++ l2 → ¬ (∃ a, seen ++ l1 = a ++ PASTE_END)) →
  paste_state k0 (fst (process k l)) (outs ++ snd (process k l)) (seen ++ l).
Proof.
  revert k outs seen. induction l as [|b l IH]; intros k outs seen Hp Hno; [by rewrite !app_nil_r|].
  assert (Hb := paste_byte k0 k outs seen b Hp (Hno [b] l eq_refl)). simpl. destruct (process_byte k b) as [k1 o1]. simpl in Hb.
  specialize (IH k1 (outs ++ o1) (seen ++ [b]) Hb). destruct (process k1 l) as [k2 o2]. simpl in *.
  rewrite <- !app_assoc in IH. apply IH. intros l1 l2 -> (a & Ha). apply (Hno (b :: l1) l2 eq_refl). exists a.
  by rewrite <- app_assoc in Ha.
Qed.

(** The last byte of the end marker closes the paste. *)
Lemma paste_close k0 k outs content :
  paste_state k0 k outs (content ++ removelast PASTE_END) →
  ∃ o, process_byte k 126 = (set_scan k0 Normal, o) ∧ forwarded (outs ++ o) = content ∧ no_action (outs ++ o).
Proof.
  intros [Hk (buf & Hs & E & Hlen & Hb) Hq]. unfold process_byte. rewrite Hs.
  assert (Hfull : forwarded outs ++ buf ++ [126] = content ++ PASTE_END) by (rewrite app_assoc, E, <- app_assoc; done).
  assert (Hbig : (5 ≤ length buf)%nat).
  { destruct Hb as [->|]; [|done]. apply (f_equal length) in E. rewrite !length_app in E. simpl in E. lia. }
  assert (Hpre : ∃ c, buf ++ [126] = c ++ PASTE_END ∧ content = forwarded outs ++ c).
  { exists (take (length buf - 5) buf). assert (Hd : drop (length (forwarded outs) + (length buf - 5)) (forwarded outs ++ buf ++ [126]) = PASTE_END).
    { rewrite Hfull. replace (length (forwarded outs) + (length buf - 5))%nat with (length content); [apply drop_app_length|].
      apply (f_equal length) in E. rewrite !length_app in E. simpl in E. lia. }
    rewrite <- drop_drop, drop_app_length in Hd.
    assert (Hc : buf ++ [126] = take (length buf - 5) buf ++ PASTE_END).
    { rewrite <- Hd, <- (take_drop (length buf - 5) (buf ++ [126])) at 1. by rewrite take_app_le by lia. }
    split; [done|]. rewrite Hc, app_assoc in Hfull. by apply app_inv_tail in Hfull. }
  destruct Hpre as (c & Hc & ->). rewrite Hc, (proj2 (ends_with_spec PASTE_END (c ++ PASTE_END))) by (by exists c).
  replace (length (c ++ PASTE_END) - length PASTE_END)%nat with (length c) by (rewrite length_app; lia).
  rewrite take_app_length, Hk. eexists. split; [done|]. rewrite forwarded_app. case_bool_decide as Hn.
  - subst c. change (forwarded []) with (@nil byte). by rewrite !app_nil_r.
  - unfold forwarded at 2. simpl. rewrite app_nil_r. split; [done|]. apply Forall_app. split; [done|]. by repeat constructor.
Qed.

Lemma process_start k : scan k = Normal → process k PASTE_START = (set_scan k (InPaste []), []).
Proof. intros Hs. destruct k as [bs ld ar sc]. simpl in Hs. by subst. Qed.

(** ** Properties *)

(** What the client's reads of its terminal give, one after the other. *)
Fixpoint process_reads (k : KeystrokeReassembler) (reads : list (list byte)) : KeystrokeReassembler * list ReassembledOutput :=
  match reads with
  | [] => (k, [])
  | l :: reads =>
      let '(k, o1) := process k l in
      let '(k, o2) := process_reads k reads in
      (k, o1 ++ o2)
  end.

Lemma process_reads_concat k reads : process_reads k reads = process k (concat reads).
Proof.
  revert k. induction reads as [|l reads IH]; intros k; [done|]. cbn [process_reads concat]. rewrite process_app.
  destruct (process k l) as [k1 o1]. by rewrite IH.
Qed.

(** Keys are read two by two after the leader, however the reads split the input. For a
    configuration whose bindings all start with the leader, from an idle state, and for input
    without escape sequences (no byte 27): an ordinary key goes to the pane; the leader waits
    for the next key, also across reads, and the two together fire the binding of exactly
    these keys, send the leader once when it was pressed twice, and otherwise reach the pane
    both. What is left is the leader still waiting, if the input ends with it. *)
Theorem keystrokes_reference k reads :
  one_leader k → armed k = None → scan k = Normal → Forall (λ b, b ≠ 27) (concat reads) →
  process_reads k reads =
    let '(outs, p) := keys_spec k (concat reads) in (set_armed k ((λ a, ([a], classify_byte a)) <$> p), outs).
Proof. intros. rewrite process_reads_concat. by apply (process_keys (length (concat reads))). Qed.

(** A bracketed paste reaches the pane unmodified: whatever was armed, whatever the pasted
    bytes (binding sequences included), exactly the content is forwarded, no action fires, and
    the reassembler is afterwards in the state it was in before. *)
Theorem paste_passes_through k content :
  scan k = Normal → ¬ contains_end content →
  ∃ outs, process k (PASTE_START ++ content ++ PASTE_END) = (k, outs) ∧ forwarded outs = content ∧ no_action outs.
Proof.
  intros Hs Hno. rewrite process_app, process_start by done. set (k1 := set_scan k (InPaste [])).
  assert (Hinit : paste_state k k1 [] []) by (split; [done|exists []; simpl; split_and!; auto with lia|constructor]).
  assert (Hsplit : PASTE_END = removelast PASTE_END ++ [126]) by done.
  rewrite Hsplit, app_assoc, process_app.
  pose proof (paste_bytes k k1 [] [] (content ++ removelast PASTE_END) Hinit) as Hp.
  destruct (process k1 (content ++ removelast PASTE_END)) as [k2 o2]. simpl in Hp.
  destruct (paste_close k k2 o2 content) as (o & Hb & Hf & Hq).
  { apply Hp. intros l1 l2 E (a & ->). assert (l2 ++ [126] = []) as Hnil; [|by destruct l2].
    apply (end_at_end content a _ Hno). change PASTE_END with ([27; 91; 50; 48; 49] ++ [126]) at 1.
    by rewrite app_assoc, E, <- !app_assoc. }
  simpl. rewrite Hb. assert (Hkk : set_scan k Normal = k) by (destruct k; simpl in *; by subst). rewrite Hkk, app_nil_r.
  by exists (o2 ++ o).
Qed.

(** *** Configuration *)

Definition entry_action (e : Action * list Z * list Z) : Action := fst (fst e).

Lemma defaults_parse : Forall (λ e, is_Some (parse_key_sequence (snd e))) BINDABLE_ACTIONS.
Proof. unfold BINDABLE_ACTIONS. rewrite !Forall_cons. split_and!; [vm_compute; by eexists..|done]. Qed.

(** What the file says for an action, or the built-in default. *)
Definition bound_sequence (raw : RawConfig) (key default_seq : list Z) : option (list KeyEvent) :=
  match raw_keybindings raw !! key with
  | Some v => match parse_key_sequence v with Some s => Some s | None => parse_key_sequence default_seq end
  | None => parse_key_sequence default_seq
  end.

Lemma bind_action_ok raw a key d :
  is_Some (parse_key_sequence d) →
  ∃ s, bind_action raw (a, key, d) = Some (mkBinding s a) ∧ bound_sequence raw key d = Some s.
Proof.
  intros [s Hs]. unfold bind_action, bound_sequence. rewrite Hs.
  destruct (raw_keybindings raw !! key) as [v|]; [|by eauto]. destruct (parse_key_sequence v); by eauto.
Qed.

Lemma bind_all raw es :
  Forall (λ e, is_Some (parse_key_sequence (snd e))) es →
  ∃ bs, mapM (bind_action raw) es = Some bs ∧
    Forall2 (λ e b, action b = entry_action e ∧ bound_sequence raw (snd (fst e)) (snd e) = Some (sequence b)) es bs.
Proof.
  induction 1 as [|[[a key] d] es Hd _ (bs & Hm & Hf)]; [by exists []|].
  destruct (bind_action_ok raw a key d Hd) as (s & Hb & Hs). exists (mkBinding s a :: bs). split.
  - cbn [mapM]. rewrite Hb. simpl. by rewrite Hm.
  - by constructor.
Qed.

(** A configuration file never makes the client panic and never loses a binding: whatever
    the file holds, every bindable action has exactly one binding, in the order of the table,
    the one the file gives it when that parses and the built-in one otherwise (always the
    built-in one when the file is not TOML), whatever the other entries of the file are. *)
Theorem config_always_usable toml contents :
  ∃ cfg, from_toml_str toml contents = Some cfg ∧
    Forall2 (λ e b, action b = entry_action e ∧
        bound_sequence (default (mkRaw None ∅) (toml contents)) (snd (fst e)) (snd e) = Some (sequence b))
      BINDABLE_ACTIONS (cfg_bindings cfg).
Proof.
  unfold from_toml_str. destruct (toml contents) as [raw|].
  - change (default _ (Some raw)) with raw. destruct (bind_all raw BINDABLE_ACTIONS defaults_parse) as (bs & -> & Hf). by eexists.
  - change (default _ None) with (mkRaw None ∅). destruct (bind_all (mkRaw None ∅) BINDABLE_ACTIONS defaults_parse) as (bs & Hm & Hf).
    exists (mkConfig (ascii "C-b") bs). split; [|done]. revert Hm. vm_compute. congruence.
Qed.

(** ** Where the code differs from what is written *)

Definition default_reassembler : KeystrokeReassembler :=
  match defaults with Some cfg => reassembler_new cfg | None => mkReassembler [] (mkKey 98 true) None Normal end.

(** An escape sequence typed after an arming key overtakes it: Ctrl-b, Escape x, Z reaches the
    pane as Escape x, Ctrl-b Z. *)
Lemma escape_overtakes_leader :
  snd (process default_reassembler [2; 27; 120; 90]) = [Forward [27; 120]; Forward [2; 90]].
Proof. reflexivity. Qed.

(** Ctrl-b, an arrow key, d detaches, although the arrow came in between. *)
Lemma arrow_between_keys_still_fires :
  snd (process default_reassembler [2; 27; 91; 65; 100]) = [Forward [27; 91; 65]; Fire ADetach].
Proof. reflexivity. Qed.

(** The Escape key alone is not sent until another key follows. *)
Lemma lone_escape_is_held : snd (process default_reassembler [27]) = [].
Proof. reflexivity. Qed.

(** Setting the leader leaves the default bindings where they were: Ctrl-b still arms, and the
    new leader followed by d does not detach. *)
Lemma leader_setting_moves_no_binding :
  match from_toml_str (λ _, Some (mkRaw (Some (ascii "C-a")) ∅)) [] with
  | Some cfg =>
      let k := reassembler_new cfg in
      snd (process k [2; 100]) = [Fire ADetach] ∧ snd (process k [1; 100]) = [Forward [1; 100]]
  | None => False
  end.
Proof. split; reflexivity. Qed.

(** ** Witnesses *)

(** Two reads: h, leader d, leader leader, leader; and Z, leader. *)
Lemma keystrokes_reference_witness :
  process_reads default_reassembler [[104; 2; 100; 2; 2; 2]; [90; 2]] =
    (set_armed default_reassembler (Some ([2], mkKey 98 true)),
     [Forward [104]; Fire ADetach; Forward [2]; Forward [2; 90]]).
Proof.
  apply (keystrokes_reference default_reassembler [[104; 2; 100; 2; 2; 2]; [90; 2]]); [|reflexivity|reflexivity|].
  - unfold one_leader. apply Forall_forall. vm_compute. repeat constructor.
  - cbn. rewrite !Forall_cons. split_and!; done.
Defined.

Lemma paste_passes_through_witness :
  ∃ outs, process default_reassembler (PASTE_START ++ [2; 100] ++ PASTE_END) = (default_reassembler, outs) ∧
    forwarded outs = [2; 100] ∧ no_action outs.
Proof.
  apply (paste_passes_through default_reassembler [2; 100]); [reflexivity|].
  intros (a & b & E). apply (f_equal length) in E. rewrite !length_app in E. simpl in E. lia.
Defined.
