(* ===== verification/ClientLoop.v ===== *)
(** * The attached client

    Copy mode ([copy_mode.rs]), the status bar ([status_bar.rs]) and the loop of an attach in
    the client ([attach] in [main.rs]), which passes keys to the reassembler or to copy mode
    and turns actions into requests to the daemon. Strings that are only displayed are lists of
    characters; cell texts are UTF-8 bytes. The daemon's answers are arguments: functions of
    the requests made so far. *)

From S2P Require Import Prelude TermQuery ReplayBuffer Scanner Clients PaneStream Attach ClientInput.

(** [as u16], [as u32]. *)
Definition as_u16 (n : Z) : Z := n mod 65536.
Definition as_u32 (n : Z) : Z := n mod 4294967296.

(** ** Copy mode *)

Record CellPos := mkCellPos { cp_row : Z; cp_col : Z }.

Inductive CopyModeEvent := CmRedraw | CmExit | CmYanked | CmConsumed.

Record CopyModeState := mkCopy {
  scrollback_offset : Z;
  cursor : CellPos;
  selecting_from : option CellPos;
  yanked : list byte;
  cm_rows : Z;
  cm_cols : Z;
}.

Definition copy_new (rows cols : Z) : CopyModeState := mkCopy 0 (mkCellPos 0 0) None [] rows cols.

Definition set_cursor (s : CopyModeState) (p : CellPos) : CopyModeState :=
  mkCopy (scrollback_offset s) p (selecting_from s) (yanked s) (cm_rows s) (cm_cols s).
Definition set_offset (s : CopyModeState) (n : Z) : CopyModeState :=
  mkCopy n (cursor s) (selecting_from s) (yanked s) (cm_rows s) (cm_cols s).

(** [None] is an overflow of a coordinate. *)
Definition handle_byte (s : CopyModeState) (b : byte) : option (CopyModeState * CopyModeEvent) :=
  let p := cursor s in
  match b with
  | 113 | 27 => Some (s, CmExit)
  | 104 => Some (set_cursor s (mkCellPos (cp_row p) (sat_sub (cp_col p) 1)), CmRedraw)
  | 108 =>
      let! c := u16_add (cp_col p) 1 in
      Some (set_cursor s (mkCellPos (cp_row p) (Z.min c (sat_sub (cm_cols s) 1))), CmRedraw)
  | 107 =>
      if cp_row p =? 0 then Some (set_offset s (scrollback_offset s + 1), CmRedraw)
      else let! r := u16_sub (cp_row p) 1 in Some (set_cursor s (mkCellPos r (cp_col p)), CmRedraw)
  | 106 =>
      let! r := u16_add (cp_row p) 1 in
      if cm_rows s <=? r then Some (set_offset s (sat_sub (scrollback_offset s) 1), CmRedraw)
      else Some (set_cursor s (mkCellPos r (cp_col p)), CmRedraw)
  | 118 => Some (mkCopy (scrollback_offset s) p (Some p) (yanked s) (cm_rows s) (cm_cols s), CmConsumed)
  | 121 => Some (s, match selecting_from s with Some _ => CmYanked | None => CmConsumed end)
  | _ => Some (s, CmConsumed)
  end.

(** The lexicographic order of positions. *)
Definition pos_le (a b : CellPos) : bool :=
  (cp_row a <? cp_row b) || (cp_row a =? cp_row b) && (cp_col a <=? cp_col b).

(** One row of a selection between [start] and [stop]. *)
Definition row_text (start stop : CellPos) (i : nat) (row : list (list byte)) : list byte :=
  let row_idx := as_u16 (Z.of_nat i) in
  if (row_idx <? cp_row start) || (cp_row stop <? row_idx) then []
  else
    let col_start := if row_idx =? cp_row start then cp_col start else 0 in
    let col_end := if row_idx =? cp_row stop then cp_col stop else as_u16 (sat_sub (Z.of_nat (length row)) 1) in
    concat (imap (λ j cell,
      let col_idx := as_u16 (Z.of_nat j) in
      if (col_start <=? col_idx) && (col_idx <=? col_end) then cell else []) row)
    ++ (if row_idx =? cp_row stop then [] else [10]).

Definition extract_selection (grid : list (list (list byte))) (from to : CellPos) : list byte :=
  let '(start, stop) := if pos_le from to then (from, to) else (to, from) in
  concat (imap (row_text start stop) grid).

(** ** The status bar *)

Definition RESERVED_ROWS : Z := 1.

Inductive DisplayMode := DNormal | DPrefixArmed | DCopyMode.

Record StatusBarConfig := mkBar { bar_enabled : bool; no_color : bool }.

Definition pty_rows (term_rows : Z) (cfg : StatusBarConfig) : Z :=
  if bar_enabled cfg then Z.max (sat_sub term_rows RESERVED_ROWS) 1 else term_rows.

Definition decstbm_reserve (term_rows : Z) (cfg : StatusBarConfig) : list byte :=
  if negb (bar_enabled cfg) then [] else [27] ++ ascii "[1;" ++ dec (pty_rows term_rows cfg) ++ ascii "r".

Definition key_glyph (k : KeyEvent) : list Z := [key_char k].

Fixpoint join (sep : list Z) (l : list (list Z)) : list Z :=
  match l with [] => [] | [x] => x | x :: l => x ++ sep ++ join sep l end.

Definition render_hint_line (mode : DisplayMode) (config : TymuxConfig) (session_name : list Z) : list Z :=
  match mode with
  | DNormal => ascii "[" ++ session_name ++ ascii "]"
  | DPrefixArmed =>
      let hints := omap (λ b, (λ k, key_glyph k ++ ascii ":" ++ short_label (action b)) <$> sequence b !! 1%nat)
                     (cfg_bindings config) in
      ascii "-- PREFIX -- " ++ join (ascii "  ") hints
  | DCopyMode => ascii "-- COPY MODE -- h/j/k/l:move  v:select  y:yank  q/Esc:exit"
  end.

Definition colorize (text : list Z) (cfg : StatusBarConfig) : list Z :=
  if no_color cfg || bool_decide (text = []) then text else [27] ++ ascii "[7m" ++ text ++ [27] ++ ascii "[0m".

Definition redraw_status_line (term_rows : Z) (mode : DisplayMode) (config : TymuxConfig) (cfg : StatusBarConfig)
    (session_name : list Z) : list Z :=
  if negb (bar_enabled cfg) then []
  else [27; 55; 27] ++ ascii "[" ++ dec term_rows ++ ascii ";1H" ++ [27] ++ ascii "[2K"
       ++ colorize (render_hint_line mode config session_name) cfg ++ [27; 56].

(** ** Sessions as the client sees them *)

(** A layout node; a child whose layout or node is missing is [None]. *)
Inductive Node := NPane (id : list Z) | NSplit (children : list (option Node)).

Record ProtoWindow := mkPWindow { pw_layout : option Node }.
Record ProtoSession := mkPSession { psess_id : list Z; psess_name : list Z; psess_windows : list ProtoWindow }.

Fixpoint walk (n : Node) : list (list Z) :=
  match n with
  | NPane id => [id]
  | NSplit children => concat (map (λ c, match c with Some n => walk n | None => [] end) children)
  end.

Definition flatten_panes (w : ProtoWindow) : list (list Z) :=
  match pw_layout w with Some n => walk n | None => [] end.

(** Both an error and "nothing to switch to" are [None]: the caller treats them alike. *)
Definition adjacent_window_pane (sessions : option (list ProtoSession)) (session_name current_pane_id : list Z)
    (forward : bool) : option (list Z) :=
  let! sessions := sessions in
  let! (_, session) := list_find (λ s, psess_name s = session_name) sessions in
  let ws := psess_windows session in
  let n := length ws in
  if (n <? 2)%nat then None
  else
    let! (current_idx, _) := list_find (λ w, current_pane_id ∈ flatten_panes w) ws in
    let next_idx := if forward then ((current_idx + 1) mod n)%nat else ((current_idx + n - 1) mod n)%nat in
    let! w := ws !! next_idx in
    head (flatten_panes w).

(** ** The loop *)

Record Snapshot := mkSnapshot { snap_rows : Z; snap_cols : Z; snap_grid : list (list (list byte)) }.

Inductive Request :=
| ReqInput (bytes : list byte)
| ReqCapture (offset : Z)
| ReqSplit (horizontal : bool)
| ReqClosePane
| ReqListSessions
| ReqCreateWindow (session_id : list Z)
| ReqResize (rows cols : Z).

Record Daemon := mkDaemon {
  capture_pane : list Request → Z → option Snapshot;
  list_sessions : list Request → option (list ProtoSession);
}.

Record ClientUi := mkUi { ui_keys : KeystrokeReassembler; ui_copy : option CopyModeState; ui_mode : DisplayMode }.

Inductive Outcome := OContinue (ui : ClientUi) | ODone | OSwitchTo (pane_id : list Z) | OError.

Definition ui_new (config : TymuxConfig) : ClientUi := mkUi (reassembler_new config) None DNormal.

Section Loop.
Variables (d : Daemon) (session_name pane_id : list Z).

(** A capture, recorded with the requests. *)
Definition capture (tr : list Request) (offset : Z) : option Snapshot * list Request :=
  (capture_pane d tr (as_u32 offset), tr ++ [ReqCapture (as_u32 offset)]).

(** The bytes of one read in copy mode, up to the one that leaves it. *)
Fixpoint copy_bytes (cs : CopyModeState) (redraw : bool) (bytes : list byte) :
    option (CopyModeState * bool * bool * option (CellPos * CellPos)) :=
  match bytes with
  | [] => Some (cs, false, redraw, None)
  | b :: bytes =>
      let! (cs, ev) := handle_byte cs b in
      match ev with
      | CmExit => Some (cs, true, redraw, None)
      | CmRedraw => copy_bytes cs true bytes
      | CmYanked => Some (cs, true, redraw, (λ from, (from, cursor cs)) <$> selecting_from cs)
      | CmConsumed => copy_bytes cs redraw bytes
      end
  end.

(** The capture of a yank; its text goes to the copy-mode state. *)
Definition take_yank (cs : CopyModeState) (range : option (CellPos * CellPos)) (tr : list Request) :
    CopyModeState * list Request :=
  match range with
  | None => (cs, tr)
  | Some (from, to) =>
      let '(snap, tr) := capture tr (scrollback_offset cs) in
      (match snap with
       | Some s => mkCopy (scrollback_offset cs) (cursor cs) (selecting_from cs)
                     (extract_selection (snap_grid s) from to) (cm_rows cs) (cm_cols cs)
       | None => cs
       end, tr)
  end.

Definition on_copy_bytes (ui : ClientUi) (cs : CopyModeState) (tr : list Request) (bytes : list byte) :
    option (Outcome * list Request) :=
  let! (cs, should_exit, should_redraw, yank_range) := copy_bytes cs false bytes in
  let '(cs, tr) := take_yank cs yank_range tr in
  if should_exit then
    let '(_, tr) := capture tr 0 in Some (OContinue (mkUi (ui_keys ui) None DNormal), tr)
  else if should_redraw then
    let '(snap, tr) := capture tr (scrollback_offset cs) in
    Some (match snap with Some _ => OContinue (mkUi (ui_keys ui) (Some cs) (ui_mode ui)) | None => OError end, tr)
  else Some (OContinue (mkUi (ui_keys ui) (Some cs) (ui_mode ui)), tr).

(** One action: what the loop does next, and the requests. *)
Definition on_action (ui : ClientUi) (tr : list Request) (a : Action) : Outcome * list Request :=
  match a with
  | ADetach => (ODone, tr)
  | AEnterCopyMode =>
      let '(snap, tr) := capture tr 0 in
      match snap with
      | None => (OContinue ui, tr)
      | Some s =>
          let cs := copy_new (as_u16 (snap_rows s)) (as_u16 (snap_cols s)) in
          let '(again, tr) := capture tr (scrollback_offset cs) in
          match again with
          | None => (OError, tr)
          | Some _ => (OContinue (mkUi (ui_keys ui) (Some cs) DCopyMode), tr)
          end
      end
  | ASplitHorizontal => (OContinue ui, tr ++ [ReqSplit true])
  | ASplitVertical => (OContinue ui, tr ++ [ReqSplit false])
  | AKillPane => (OContinue ui, tr ++ [ReqClosePane])
  | ANewWindow =>
      let sessions := list_sessions d tr in
      let tr := tr ++ [ReqListSessions] in
      match sessions with
      | None => (OContinue ui, tr)
      | Some ss =>
          match list_find (λ s, psess_name s = session_name) ss with
          | Some (_, s) => (OContinue ui, tr ++ [ReqCreateWindow (psess_id s)])
          | None => (OContinue ui, tr)
          end
      end
  | ANextWindow | APrevWindow =>
      let sessions := list_sessions d tr in
      let tr := tr ++ [ReqListSessions] in
      match adjacent_window_pane sessions session_name pane_id (bool_decide (a = ANextWindow)) with
      | Some next => (OSwitchTo next, tr)
      | None => (OContinue ui, tr)
      end
  | AExitCopyMode | ASendPrefixLiteral => (OContinue ui, tr)
  end.

(** The outputs of one read, in order, until one ends the loop. *)
Fixpoint on_outputs (ui : ClientUi) (tr : list Request) (outs : list ReassembledOutput) : Outcome * list Request :=
  match outs with
  | [] => (OContinue ui, tr)
  | Forward bytes :: outs => on_outputs ui (tr ++ [ReqInput bytes]) outs
  | Fire a :: outs =>
      match on_action ui tr a with
      | (OContinue ui, tr) => on_outputs ui tr outs
      | stop => stop
      end
  end.

Definition on_stdin (ui : ClientUi) (tr : list Request) (bytes : list byte) : option (Outcome * list Request) :=
  match ui_copy ui with
  | Some cs => on_copy_bytes ui cs tr bytes
  | None =>
      let was_armed := is_armed (ui_keys ui) in
      let '(keys, outs) := process (ui_keys ui) bytes in
      let '(next, tr) := on_outputs (mkUi keys (ui_copy ui) (ui_mode ui)) tr outs in
      Some (match next with
            | OContinue ui =>
                if Bool.eqb (is_armed (ui_keys ui)) was_armed then OContinue ui
                else OContinue (mkUi (ui_keys ui) (ui_copy ui) (if is_armed (ui_keys ui) then DPrefixArmed else DNormal))
            | stop => stop
            end, tr)
  end.

(** [None]: the stream has ended. *)
Definition on_event (ui : ClientUi) (ev : option AttachEvent) : list byte * Outcome :=
  match ev with
  | None => ([], ODone)
  | Some ev =>
      match ev, ui_copy ui with
      | EvOutput bytes, None => (bytes, OContinue ui)
      | EvExited _, _ => ([13; 10] ++ ascii "[tymux: pane exited]" ++ [10; 10], ODone)
      | EvOutputGap, None => ([13; 10] ++ ascii "[tymux: output dropped]" ++ [13; 10], OContinue ui)
      | _, _ => ([], OContinue ui)
      end
  end.

Definition send_resize_and_repaint (ui : ClientUi) (tr : list Request) (size : option (Z * Z)) (cfg : StatusBarConfig)
    (config : TymuxConfig) : list Z * list Request :=
  match size with
  | None => ([], tr)
  | Some (cols, term_rows) =>
      let tr := tr ++ [ReqResize (pty_rows term_rows cfg) cols] in
      if bar_enabled cfg
      then (decstbm_reserve term_rows cfg ++ redraw_status_line term_rows (ui_mode ui) config cfg session_name, tr)
      else ([], tr)
  end.

End Loop.

(** ** Copy mode stays inside the screen *)

Record copy_ok (s : CopyModeState) : Prop := {
  ck_size : is_u16 (cm_rows s) ∧ is_u16 (cm_cols s);
  ck_row : 0 ≤ cp_row (cursor s) < Z.max 1 (cm_rows s);
  ck_col : 0 ≤ cp_col (cursor s) < Z.max 1 (cm_cols s);
  ck_offset : 0 ≤ scrollback_offset s;
}.

Lemma copy_new_ok rows cols : is_u16 rows → is_u16 cols → copy_ok (copy_new rows cols).
Proof. intros. split; simpl; try done; lia. Qed.

Lemma as_u16_range n : is_u16 (as_u16 n).
Proof. unfold as_u16, is_u16, u16_max. lia_div. Qed.

Lemma set_cursor_ok s p :
  copy_ok s → 0 ≤ cp_row p < Z.max 1 (cm_rows s) → 0 ≤ cp_col p < Z.max 1 (cm_cols s) → copy_ok (set_cursor s p).
Proof. by intros [] ? ?. Qed.

Lemma set_offset_ok s n : copy_ok s → 0 ≤ n → copy_ok (set_offset s n).
Proof. by intros [] ?. Qed.

Ltac split_byte b :=
  repeat match goal with
  | |- context [match b with _ => _ end] => destruct b
  | |- context [match ?p with xI _ => _ | xO _ => _ | xH => _ end] => is_var p; destruct p
  end.

Lemma handle_byte_ok s b : copy_ok s → ∃ s' ev, handle_byte s b = Some (s', ev) ∧ copy_ok s'.
Proof.
  intros Hs. pose proof Hs as [[Hr Hc] Hrow Hcol Hoff]. unfold is_u16, u16_max in *.
  assert (Hsel : copy_ok (mkCopy (scrollback_offset s) (cursor s) (Some (cursor s)) (yanked s) (cm_rows s) (cm_cols s)))
    by (by split).
  assert (Hl : ∃ s' ev, handle_byte s 108 = Some (s', ev) ∧ copy_ok s').
  { unfold handle_byte. rewrite u16_add_ok by (unfold u16_max; lia). do 2 eexists. split; [done|].
    apply set_cursor_ok; simpl; [done|done|]. unfold sat_sub. lia. }
  assert (Hk : ∃ s' ev, handle_byte s 107 = Some (s', ev) ∧ copy_ok s').
  { unfold handle_byte. destruct (Z.eqb_spec (cp_row (cursor s)) 0); [do 2 eexists; split; [done|]; by apply set_offset_ok; [|lia]|].
    rewrite u16_sub_ok by lia. do 2 eexists. split; [done|]. apply set_cursor_ok; simpl; [done|lia|done]. }
  assert (Hj : ∃ s' ev, handle_byte s 106 = Some (s', ev) ∧ copy_ok s').
  { unfold handle_byte. rewrite u16_add_ok by (unfold u16_max; lia). destruct (Z.leb_spec (cm_rows s) (cp_row (cursor s) + 1)).
    - do 2 eexists. split; [done|]. apply set_offset_ok; [done|]. unfold sat_sub. lia.
    - do 2 eexists. split; [done|]. apply set_cursor_ok; simpl; [done|lia|done]. }
  assert (Hh : ∃ s' ev, handle_byte s 104 = Some (s', ev) ∧ copy_ok s').
  { do 2 eexists. split; [done|]. apply set_cursor_ok; simpl; [done|done|]. unfold sat_sub. lia. }
  unfold handle_byte in *. split_byte b; solve [done|do 2 eexists; split; [reflexivity|done]].
Qed.

Lemma copy_bytes_ok bytes cs redraw :
  copy_ok cs → ∃ cs' ex rd range, copy_bytes cs redraw bytes = Some (cs', ex, rd, range) ∧ copy_ok cs'.
Proof.
  revert cs redraw. induction bytes as [|b bytes IH]; intros cs redraw Hs; simpl; [by eauto 10|].
  destruct (handle_byte_ok cs b Hs) as (cs1 & ev & -> & Hs1). destruct ev; by eauto 10.
Qed.

(** Requests that only look. *)
Definition is_capture (r : Request) : bool := match r with ReqCapture _ => true | _ => false end.

Lemma take_yank_ok d cs range tr :
  copy_ok cs → copy_ok (fst (take_yank d cs range tr)) ∧
  ∃ more, snd (take_yank d cs range tr) = tr ++ more ∧ Forall (λ r, is_capture r = true) more.
Proof.
  intros Hs. unfold take_yank. destruct range as [[from to]|]; simpl.
  - split; [destruct (capture_pane d tr _); [by destruct Hs|done]|]. eexists. split; [done|]. by repeat constructor.
  - split; [done|]. exists []. by rewrite app_nil_r.
Qed.

(** ** What a selection yields *)

Lemma as_u16_small i : Z.of_nat i < 65536 → as_u16 (Z.of_nat i) = Z.of_nat i.
Proof. intros. unfold as_u16. apply Z.mod_small. lia. Qed.

Lemma slice_from k s e (row : list (list byte)) :
  0 ≤ s →
  concat (imap (λ j cell, if (s <=? Z.of_nat (k + j)) && (Z.of_nat (k + j) <=? e) then cell else []) row) =
  concat (take (Z.to_nat (e + 1) - max k (Z.to_nat s)) (drop (Z.to_nat s - k) row)).
Proof.
  intros Hs. revert k. induction row as [|c row IH]; intros k; [by rewrite drop_nil, take_nil|].
  rewrite imap_cons. cbn [concat]. rewrite Nat.add_0_r.
  rewrite (imap_ext _ (λ j cell, if (s <=? Z.of_nat (S k + j)) && (Z.of_nat (S k + j) <=? e) then cell else []) row)
    by (intros; simpl; by rewrite Nat.add_succ_r).
  rewrite IH. destruct (Z.leb_spec s (Z.of_nat k)) as [Hk|Hk].
  - replace (Z.to_nat s - k)%nat with 0%nat by lia. replace (Z.to_nat s - S k)%nat with 0%nat by lia. rewrite !drop_0.
    replace (max k (Z.to_nat s)) with k by lia. replace (max (S k) (Z.to_nat s)) with (S k) by lia.
    destruct (Z.leb_spec (Z.of_nat k) e); simpl.
    + by replace (Z.to_nat (e + 1) - k)%nat with (S (Z.to_nat (e + 1) - S k)) by lia.
    + replace (Z.to_nat (e + 1) - k)%nat with 0%nat by lia. replace (Z.to_nat (e + 1) - S k)%nat with 0%nat by lia. done.
  - simpl. replace (Z.to_nat s - k)%nat with (S (Z.to_nat s - S k)) by lia. cbn [drop].
    by replace (max k (Z.to_nat s)) with (max (S k) (Z.to_nat s)) by lia.
Qed.

Lemma slice s e (row : list (list byte)) :
  0 ≤ s → Z.of_nat (length row) ≤ 65536 →
  concat (imap (λ j cell, let col_idx := as_u16 (Z.of_nat j) in if (s <=? col_idx) && (col_idx <=? e) then cell else []) row) =
  concat (take (Z.to_nat (e + 1 - s)) (drop (Z.to_nat s) row)).
Proof.
  intros Hs Hl. transitivity (concat (imap (λ j cell, if (s <=? Z.of_nat (0 + j)) && (Z.of_nat (0 + j) <=? e) then cell else []) row)).
  - f_equal. apply imap_ext. intros j c Hj. apply lookup_lt_Some in Hj. cbv zeta. by rewrite as_u16_small by lia.
  - rewrite slice_from by done. by rewrite Nat.sub_0_r; replace (Z.to_nat (e + 1) - max 0 (Z.to_nat s))%nat with (Z.to_nat (e + 1 - s)) by lia.
Qed.

Section Selection.
Variables (start stop : CellPos).

Lemma row_text_outside i row :
  Z.of_nat i < 65536 → Z.of_nat i < cp_row start ∨ cp_row stop < Z.of_nat i → row_text start stop i row = [].
Proof.
  intros Hi Ho. unfold row_text. rewrite as_u16_small by done.
  destruct (Z.ltb_spec (Z.of_nat i) (cp_row start)), (Z.ltb_spec (cp_row stop) (Z.of_nat i)); done || lia.
Qed.

(** A row that is not the last one of the selection, from column [c]. *)
Lemma row_text_rest i c row :
  Z.of_nat i < 65536 → Z.of_nat (length row) ≤ 65536 → cp_row start ≤ Z.of_nat i < cp_row stop → 0 ≤ c →
  (if Z.of_nat i =? cp_row start then cp_col start else 0) = c →
  row_text start stop i row = concat (drop (Z.to_nat c) row) ++ [10].
Proof.
  intros Hi Hl Hr Hc Ec. unfold row_text. rewrite as_u16_small by done.
  rewrite (proj2 (Z.ltb_ge (Z.of_nat i) (cp_row start))), (proj2 (Z.ltb_ge (cp_row stop) (Z.of_nat i))) by lia. simpl.
  rewrite Ec, (proj2 (Z.eqb_neq (Z.of_nat i) (cp_row stop))) by lia. rewrite slice by done. do 2 f_equal.
  destruct row as [|x row]; [by rewrite drop_nil, take_nil|]. apply take_ge. rewrite length_drop.
  unfold as_u16, sat_sub. rewrite Z.mod_small by (simpl in *; lia). simpl length in *. lia.
Qed.

(** The last row, from column [c]. *)
Lemma row_text_last i c row :
  Z.of_nat i < 65536 → Z.of_nat (length row) ≤ 65536 → cp_row start ≤ Z.of_nat i → Z.of_nat i = cp_row stop → 0 ≤ c →
  (if Z.of_nat i =? cp_row start then cp_col start else 0) = c →
  row_text start stop i row = concat (take (Z.to_nat (cp_col stop + 1 - c)) (drop (Z.to_nat c) row)).
Proof.
  intros Hi Hl Hr Hs Hc Ec. unfold row_text. rewrite as_u16_small by done.
  rewrite (proj2 (Z.ltb_ge (Z.of_nat i) (cp_row start))), (proj2 (Z.ltb_ge (cp_row stop) (Z.of_nat i))) by lia. simpl.
  rewrite Ec, (proj2 (Z.eqb_eq (Z.of_nat i) (cp_row stop))) by lia. by rewrite slice, app_nil_r.
Qed.

Lemma rows_outside k rows :
  Z.of_nat (k + length rows) ≤ 65536 →
  (Z.of_nat (k + length rows) ≤ cp_row start ∨ cp_row stop < Z.of_nat k) →
  concat (imap (λ i, row_text start stop (k + i)) rows) = [].
Proof.
  revert k. induction rows as [|r rows IH]; intros k Hl Ho; [done|]. simpl length in *.
  rewrite imap_cons. cbn [concat]. rewrite row_text_outside by lia.
  rewrite (imap_ext _ (λ i, row_text start stop (S k + i)) rows) by (intros; simpl; by rewrite Nat.add_succ_r).
  rewrite IH; [done|lia|]. lia.
Qed.

Lemma rows_between k rows :
  Z.of_nat (k + length rows) ≤ 65536 → Forall (λ r : list (list byte), Z.of_nat (length r) ≤ 65536) rows →
  cp_row start < Z.of_nat k → Z.of_nat (k + length rows) ≤ cp_row stop →
  concat (imap (λ i, row_text start stop (k + i)) rows) = concat (map (λ r, concat r ++ [10]) rows).
Proof.
  intros Hl Hf. revert k Hl. induction Hf as [|r rows Hr _ IH]; intros k Hl H1 H2; [done|]. simpl length in *.
  rewrite imap_cons. cbn [concat map]. rewrite (row_text_rest _ 0) by (lia || by rewrite (proj2 (Z.eqb_neq _ _)) by lia).
  rewrite (imap_ext _ (λ i, row_text start stop (S k + i)) rows) by (intros; simpl; by rewrite Nat.add_succ_r).
  rewrite IH by lia. done.
Qed.

End Selection.

Lemma extract_either_order grid a b : extract_selection grid a b = extract_selection grid b a.
Proof.
  unfold extract_selection. destruct (pos_le a b) eqn:E1, (pos_le b a) eqn:E2; try done.
  - destruct a as [r c], b as [r' c']. unfold pos_le in *. simpl in *.
    assert (r = r' ∧ c = c') as [-> ->]; [|done].
    destruct (Z.ltb_spec r r'), (Z.ltb_spec r' r), (Z.eqb_spec r r'), (Z.eqb_spec r' r), (Z.leb_spec c c'), (Z.leb_spec c' c);
      simpl in *; try done; lia.
  - destruct a as [r c], b as [r' c']. unfold pos_le in *. simpl in *.
    destruct (Z.ltb_spec r r'), (Z.ltb_spec r' r), (Z.eqb_spec r r'), (Z.eqb_spec r' r), (Z.leb_spec c c'), (Z.leb_spec c' c);
      simpl in *; try done; lia.
Qed.

(** ** Properties *)

(** A selection over several rows yields the rest of its first row, the rows between whole
    and the last row up to and including its last column, each row but the last ended by a
    newline, whichever end of the selection was set first. *)
Theorem selection_across_rows pre first mids last post c0 c1 :
  let grid := pre ++ first :: mids ++ last :: post in
  let start := mkCellPos (Z.of_nat (length pre)) c0 in
  let stop := mkCellPos (Z.of_nat (length pre + 1 + length mids)) c1 in
  Z.of_nat (length grid) ≤ 65536 → Forall (λ r, Z.of_nat (length r) ≤ 65536) grid → 0 ≤ c0 → 0 ≤ c1 →
  extract_selection grid start stop =
    concat (drop (Z.to_nat c0) first) ++ [10] ++ concat (map (λ r, concat r ++ [10]) mids) ++ concat (take (Z.to_nat (c1 + 1)) last)
  ∧ extract_selection grid stop start = extract_selection grid start stop.
Proof.
  intros grid start stop Hlen Hrows H0 H1. split; [|apply extract_either_order].
  unfold extract_selection. assert (Hle : pos_le start stop = true).
  { unfold pos_le, start, stop. simpl. by rewrite (proj2 (Z.ltb_lt _ _)) by lia. }
  rewrite Hle. unfold grid in *. rewrite !length_app in Hlen. simpl in Hlen. rewrite length_app in Hlen. simpl in Hlen.
  apply Forall_app in Hrows as [_ Hrows]. apply Forall_cons in Hrows as [Hf Hrows].
  apply Forall_app in Hrows as [Hm [Hl _]%Forall_cons].
  rewrite imap_app, concat_app. change (imap (row_text start stop) pre) with (imap (λ i, row_text start stop (0 + i)) pre).
  rewrite (rows_outside start stop 0) by (simpl; lia).
  rewrite imap_cons. cbn [concat app]. rewrite Nat.add_0_r.
  rewrite (row_text_rest start stop _ c0) by (simpl; try rewrite Z.eqb_refl; lia || done).
  rewrite <- app_assoc. do 2 f_equal.
  rewrite (imap_ext _ (λ i, row_text start stop (length pre + 1 + i)) (mids ++ _)) by (intros; simpl; f_equal; lia).
  rewrite imap_app, concat_app, (rows_between start stop) by (simpl; done || lia). f_equal.
  rewrite (imap_ext _ (λ i, row_text start stop (length pre + 1 + length mids + i)) (last :: _)) by (intros; simpl; f_equal; lia).
  rewrite imap_cons. cbn [concat]. rewrite Nat.add_0_r.
  rewrite (row_text_last start stop _ 0) by (simpl; try rewrite (proj2 (Z.eqb_neq _ _)) by lia; lia || done).
  rewrite drop_0, Z.sub_0_r.
  rewrite (imap_ext _ (λ i, row_text start stop (length pre + 1 + S (length mids) + i)) post) by (intros; simpl; f_equal; lia).
  rewrite (rows_outside start stop) by (simpl; lia). by rewrite app_nil_r.
Qed.

(** Copy mode owns the keyboard and never leaves the screen: while it is active no byte
    reaches the pane and no action runs (the only requests are captures), keys typed do not arm
    the leader, the cursor stays on the captured screen, nothing overflows, and the loop goes on
    in copy mode or, after a key that leaves it, in normal mode. *)
Theorem copy_mode_owns_input d session_name pane_id ui cs tr bytes :
  ui_copy ui = Some cs → copy_ok cs →
  ∃ next more, on_stdin d session_name pane_id ui tr bytes = Some (next, tr ++ more) ∧
    Forall (λ r, is_capture r = true) more ∧
    match next with
    | OContinue ui' =>
        ui_keys ui' = ui_keys ui ∧
        match ui_copy ui' with Some cs' => copy_ok cs' ∧ ui_mode ui' = ui_mode ui | None => ui_mode ui' = DNormal end
    | OError => True
    | ODone | OSwitchTo _ => False
    end.
Proof.
  intros Hui Hcs. unfold on_stdin, on_copy_bytes. rewrite Hui.
  destruct (copy_bytes_ok bytes cs false Hcs) as (cs' & ex & rd & range & -> & Hcs').
  destruct (take_yank_ok d cs' range tr Hcs') as (Hy & more & E & Hmore). destruct (take_yank d cs' range tr) as [cs2 tr2].
  simpl in Hy, E. subst tr2. assert (Hcap : ∀ o, Forall (λ r, is_capture r = true) (more ++ [ReqCapture o])).
  { intros o. apply Forall_app. split; [done|by repeat constructor]. }
  unfold capture. destruct ex; [|destruct rd].
  - do 2 eexists. rewrite <- app_assoc. split; [done|]. by split; [apply Hcap|].
  - do 2 eexists. rewrite <- app_assoc. split; [done|]. split; [apply Hcap|]. by destruct (capture_pane d _ _).
  - do 2 eexists. split; [done|]. by split.
Qed.

(** The status bar's row is below the rows the pane is given, on every terminal of at least two
    rows; without a status bar the pane has all of them and nothing is written. *)
Lemma status_row_reserved term_rows cfg :
  2 ≤ term_rows →
  1 ≤ pty_rows term_rows cfg ≤ term_rows ∧
  (if bar_enabled cfg then pty_rows term_rows cfg + RESERVED_ROWS = term_rows
   else pty_rows term_rows cfg = term_rows ∧ decstbm_reserve term_rows cfg = []).
Proof.
  intros Hr. unfold decstbm_reserve, pty_rows, RESERVED_ROWS, sat_sub. destruct (bar_enabled cfg); [lia|]. split; [lia|done].
Qed.

(** ** Where the code differs from what is written *)

Definition sample_daemon : Daemon :=
  mkDaemon (λ _ _, Some (mkSnapshot 24 80 [[ascii "a"; ascii "b"]])) (λ _, None).

Definition step_stdin (ui : ClientUi) (bytes : list byte) : ClientUi :=
  match on_stdin sample_daemon [] [] ui [] bytes with Some (OContinue ui, _) => ui | _ => ui end.

Definition sample_ui : ClientUi := mkUi default_reassembler None DNormal.

(** Ctrl-b and [ typed one after the other enter copy mode, but the status bar shows the normal
    mode; the same two bytes in one read show copy mode. *)
Lemma copy_mode_shown_as_normal :
  let ui := step_stdin (step_stdin sample_ui [2]) [91] in
  ui_copy ui = Some (copy_new 24 80) ∧ ui_mode ui = DNormal ∧ ui_mode (step_stdin sample_ui [2; 91]) = DCopyMode.
Proof. repeat split; reflexivity. Qed.

(** A yank leaves copy mode, and the text goes with the state it was put in. *)
Lemma yank_is_discarded d session_name pane_id ui cs tr from :
  ui_copy ui = Some cs → selecting_from cs = Some from →
  ∃ tr', on_stdin d session_name pane_id ui tr [121] = Some (OContinue (mkUi (ui_keys ui) None DNormal), tr').
Proof.
  intros Hui Hs. unfold on_stdin, on_copy_bytes. rewrite Hui. simpl. rewrite Hs. simpl. unfold capture. simpl. by eexists.
Qed.

(** ** Witnesses *)

Lemma selection_across_rows_witness :
  extract_selection [[ascii "a"; ascii "b"]; [ascii "c"]; [ascii "d"; ascii "e"]] (mkCellPos 0 1) (mkCellPos 2 0)
    = [98; 10; 99; 10; 100]
  ∧ extract_selection [[ascii "a"; ascii "b"]; [ascii "c"]; [ascii "d"; ascii "e"]] (mkCellPos 2 0) (mkCellPos 0 1)
    = [98; 10; 99; 10; 100].
Proof.
  destruct (selection_across_rows [] [ascii "a"; ascii "b"] [[ascii "c"]] [ascii "d"; ascii "e"] [] 1 0) as [H1 H2];
    [simpl; lia|cbn [app]; rewrite !Forall_cons; split_and!; simpl; done || lia|lia|lia|].
  split; [exact H1|]. etransitivity; [exact H2|exact H1].
Defined.

Lemma copy_mode_owns_input_witness :
  ∃ next more, on_stdin sample_daemon [] [] (mkUi default_reassembler (Some (copy_new 24 80)) DCopyMode) [] [108; 2; 100; 106]
      = Some (next, more) ∧ Forall (λ r, is_capture r = true) more.
Proof.
  destruct (copy_mode_owns_input sample_daemon [] [] (mkUi default_reassembler (Some (copy_new 24 80)) DCopyMode) (copy_new 24 80) []
    [108; 2; 100; 106]) as (next & more & E & Hm & _); [reflexivity|apply copy_new_ok; done|].
  exists next, more. split; [exact E|exact Hm].
Defined.
