(* ===== verification/VtCell.v ===== *)
(** * Terminal cells ([crates/vt100/src/attrs.rs], [crates/vt100/src/cell.rs])

    Colours, drawing attributes, and the cell: up to [CONTENT_BYTES] bytes of UTF-8 with a
    length byte whose high bits mark the halves of a wide character. A [char] is its code
    point. [None] is a panic. *)

From S2P Require Import Prelude.

(** ** Attributes *)

Inductive Color := CDefault | CIdx (i : Z) | CRgb (r g b : Z).
Inductive UnderlineStyle := USingle | UDouble | UCurly | UDotted | UDashed.

Record Attrs := mkAttrs {
  fgcolor : Color;
  bgcolor : Color;
  ulcolor : Color;
  mode : Z;
  underline_style : UnderlineStyle;
  hyperlink : Z;
}.

#[global] Instance Color_eq_dec : EqDecision Color.
Proof. solve_decision. Defined.
#[global] Instance UnderlineStyle_eq_dec : EqDecision UnderlineStyle.
Proof. solve_decision. Defined.
#[global] Instance Attrs_eq_dec : EqDecision Attrs.
Proof. solve_decision. Defined.

Definition attrs_default : Attrs := mkAttrs CDefault CDefault CDefault 0 USingle 0.

Definition TEXT_MODE_BOLD : Z := 1.
Definition TEXT_MODE_DIM : Z := 2.
Definition TEXT_MODE_ITALIC : Z := 4.
Definition TEXT_MODE_UNDERLINE : Z := 8.
Definition TEXT_MODE_INVERSE : Z := 16.
Definition TEXT_MODE_STRIKETHROUGH : Z := 32.
Definition TEXT_MODE_BLINK : Z := 64.
Definition TEXT_MODE_CONCEAL : Z := 128.
Definition TEXT_MODE_OVERLINE : Z := 256.

(** The getter and setter the [flag!] macro makes for one bit; the complement is taken in
    16 bits. *)
Definition get_flag (bit : Z) (a : Attrs) : bool := negb (Z.land (mode a) bit =? 0).

Definition with_mode (a : Attrs) (m : Z) : Attrs :=
  mkAttrs (fgcolor a) (bgcolor a) (ulcolor a) m (underline_style a) (hyperlink a).

Definition set_flag (bit : Z) (a : Attrs) (on : bool) : Attrs :=
  with_mode a (if on then Z.lor (mode a) bit else Z.land (mode a) (u16_max - bit)).

Definition set_underline (a : Attrs) (style : option UnderlineStyle) : Attrs :=
  match style with
  | Some st =>
      mkAttrs (fgcolor a) (bgcolor a) (ulcolor a) (Z.lor (mode a) TEXT_MODE_UNDERLINE) st (hyperlink a)
  | None =>
      mkAttrs (fgcolor a) (bgcolor a) (ulcolor a) (Z.land (mode a) (u16_max - TEXT_MODE_UNDERLINE)) USingle (hyperlink a)
  end.

Definition set_normal_intensity (a : Attrs) : Attrs :=
  with_mode a (Z.land (mode a) (u16_max - Z.lor TEXT_MODE_BOLD TEXT_MODE_DIM)).

Definition sgr_reset (a : Attrs) : Attrs := mkAttrs CDefault CDefault CDefault 0 USingle (hyperlink a).

(** What an erase leaves: the background only. *)
Definition for_erase (a : Attrs) : Attrs := mkAttrs CDefault (bgcolor a) CDefault 0 USingle 0.

(** ** Characters *)

(** A Unicode scalar value. *)
Definition is_scalar (c : Z) : bool := (0 <=? c) && (c <=? 1114111) && negb ((55296 <=? c) && (c <=? 57343)).

Definition encode_utf8 (c : Z) : list byte :=
  if c <? 128 then [c]
  else if c <? 2048 then [192 + c / 64; 128 + c mod 64]
  else if c <? 65536 then [224 + c / 4096; 128 + c / 64 mod 64; 128 + c mod 64]
  else [240 + c / 262144; 128 + c / 4096 mod 64; 128 + c / 64 mod 64; 128 + c mod 64].

Definition is_tail (b : byte) : bool := (128 <=? b) && (b <=? 191).

(** [str::from_utf8] read as a list of characters; [None] when the bytes are not UTF-8. *)
Fixpoint decode_utf8 (l : list byte) : option (list Z) :=
  match l with
  | [] => Some []
  | b :: r =>
      if (0 <=? b) && (b <=? 127) then cons b <$> decode_utf8 r
      else if (194 <=? b) && (b <=? 223) then
        match r with
        | b1 :: r => if is_tail b1 then cons ((b - 192) * 64 + (b1 - 128)) <$> decode_utf8 r else None
        | _ => None
        end
      else if (224 <=? b) && (b <=? 239) then
        match r with
        | b1 :: b2 :: r =>
            let c := (b - 224) * 4096 + (b1 - 128) * 64 + (b2 - 128) in
            if is_tail b1 && is_tail b2 && (2048 <=? c) && is_scalar c then cons c <$> decode_utf8 r else None
        | _ => None
        end
      else if (240 <=? b) && (b <=? 244) then
        match r with
        | b1 :: b2 :: b3 :: r =>
            let c := (b - 240) * 262144 + (b1 - 128) * 4096 + (b2 - 128) * 64 + (b3 - 128) in
            if is_tail b1 && is_tail b2 && is_tail b3 && (65536 <=? c) && is_scalar c
            then cons c <$> decode_utf8 r else None
        | _ => None
        end
      else None
  end.

(** Display widths come from the [unicode-width] crate: 0, 1 or 2 columns, or none for a
    control character; no ASCII character is wide, and the soft hyphen has no width. *)
Class UnicodeWidth := {
  char_cols : Z → option Z;
  char_cols_range c w : char_cols c = Some w → 0 ≤ w ≤ 2;
  char_cols_ascii c w : c < 128 → char_cols c = Some w → w ≤ 1;
  char_cols_soft_hyphen : char_cols 173 = Some 0;
}.

(** ** The cell *)

Definition CONTENT_BYTES : Z := 22.
Definition IS_WIDE : Z := 128.
Definition IS_WIDE_CONTINUATION : Z := 64.
Definition LEN_BITS : Z := 31.

Record Cell := mkCell {
  contents_buf : list byte;
  len_byte : Z;
  cell_attrs : Attrs;
}.

Definition cell_new : Cell := mkCell (replicate 22 0) 0 attrs_default.

Definition cell_len (c : Cell) : Z := Z.land (len_byte c) LEN_BITS.

Definition is_wide (c : Cell) : bool := negb (Z.land (len_byte c) IS_WIDE =? 0).
Definition is_wide_continuation (c : Cell) : bool := negb (Z.land (len_byte c) IS_WIDE_CONTINUATION =? 0).
Definition has_contents (c : Cell) : bool := 0 <? cell_len c.

Definition set_wide (c : Cell) (wide : bool) : Cell :=
  mkCell (contents_buf c)
    (if wide then Z.lor (len_byte c) IS_WIDE else Z.land (len_byte c) (u8_max - IS_WIDE)) (cell_attrs c).

Definition set_wide_continuation (c : Cell) (wide : bool) : Cell :=
  mkCell (contents_buf c)
    (if wide then Z.lor (len_byte c) IS_WIDE_CONTINUATION
     else Z.land (len_byte c) (u8_max - IS_WIDE_CONTINUATION)) (cell_attrs c).

(** Writing bytes at an offset of the buffer; out of range panics. *)
Definition write_at (start : Z) (bs : list byte) (buf : list byte) : option (list byte) :=
  if start + Z.of_nat (length bs) <=? CONTENT_BYTES
  then Some (take (Z.to_nat start) buf ++ bs ++ drop (Z.to_nat start + length bs) buf)
  else None.

Definition u8_add (a b : Z) : option Z := if a + b <=? u8_max then Some (a + b) else None.

Definition append_char (self : Cell) (start : Z) (c : Z) : option Cell :=
  let! buf := write_at start (encode_utf8 c) (contents_buf self) in
  let! len := u8_add (len_byte self) (Z.of_nat (length (encode_utf8 c))) in
  Some (mkCell buf len (cell_attrs self)).

Definition append (self : Cell) (c : Z) : option Cell :=
  let len := cell_len self in
  if CONTENT_BYTES - 4 <=? len then Some self
  else
    let! self :=
      (if len =? 0 then
         let! buf := write_at 0 [32] (contents_buf self) in
         let! l := u8_add (len_byte self) 1 in
         Some (mkCell buf l (cell_attrs self))
       else Some self) in
    append_char self (cell_len self) c.

Definition clear (self : Cell) (a : Attrs) : Cell := mkCell (contents_buf self) 0 a.

Definition set_hyperlink (self : Cell) (index : Z) : Cell :=
  let a := cell_attrs self in
  mkCell (contents_buf self) (len_byte self)
    (mkAttrs (fgcolor a) (bgcolor a) (ulcolor a) (mode a) (underline_style a) index).

(** The text of the cell; an invalid buffer panics. *)
Definition contents (self : Cell) : option (list Z) :=
  if cell_len self <=? CONTENT_BYTES then decode_utf8 (take (Z.to_nat (cell_len self)) (contents_buf self)) else None.

(** [PartialEq]: the unused part of the buffer is ignored. *)
Definition cell_eqb (a b : Cell) : bool :=
  (len_byte a =? len_byte b) && bool_decide (cell_attrs a = cell_attrs b) &&
  bool_decide (take (Z.to_nat (cell_len a)) (contents_buf a) = take (Z.to_nat (cell_len a)) (contents_buf b)).

Section Width.
Context `{!UnicodeWidth}.

Definition is_ascii (c : Z) : bool := c <? 128.

Definition set (self : Cell) (c : Z) (a : Attrs) : option Cell :=
  let! self := append_char (mkCell (contents_buf self) 0 (cell_attrs self)) 0 c in
  let self := set_wide self (negb (is_ascii c) && (1 <? default 1 (char_cols c))) in
  Some (mkCell (contents_buf self) (len_byte self) a).

End Width.

(** ** UTF-8 *)

Lemma encode_length c : (1 ≤ length (encode_utf8 c) ≤ 4)%nat.
Proof. unfold encode_utf8. repeat case_match; simpl; lia. Qed.

Lemma in_range_true (a b c : Z) : a ≤ b ≤ c → (a <=? b) && (b <=? c) = true.
Proof. intros. apply andb_true_iff. lia. Qed.

Lemma in_range_false (a b c : Z) : b < a ∨ c < b → (a <=? b) && (b <=? c) = false.
Proof. intros. apply andb_false_iff. destruct (Z.leb_spec a b), (Z.leb_spec b c); auto; lia. Qed.

Lemma is_scalar_spec c : is_scalar c = true ↔ 0 ≤ c ≤ 1114111 ∧ ¬ (55296 ≤ c ≤ 57343).
Proof. unfold is_scalar. rewrite !andb_true_iff, negb_true_iff, andb_false_iff. lia. Qed.

(** Decoding undoes encoding, one character at a time. *)
Lemma decode_encode_app c r : is_scalar c = true → decode_utf8 (encode_utf8 c ++ r) = cons c <$> decode_utf8 r.
Proof.
  intros Hs. pose proof Hs as Hc. apply is_scalar_spec in Hc as [Hc Hsur]. unfold encode_utf8.
  destruct (Z.ltb_spec c 128); [|destruct (Z.ltb_spec c 2048); [|destruct (Z.ltb_spec c 65536)]];
    cbn [app decode_utf8].
  - by rewrite in_range_true by lia.
  - rewrite in_range_false by lia_div. rewrite in_range_true by lia_div.
    unfold is_tail. rewrite in_range_true by lia_div. f_equal. f_equal. lia_div.
  - rewrite (in_range_false 0) by lia_div. rewrite (in_range_false 194) by lia_div.
    rewrite in_range_true by lia_div. unfold is_tail. rewrite !in_range_true by lia_div.
    replace ((224 + c / 4096 - 224) * 4096 + (128 + c / 64 mod 64 - 128) * 64 + (128 + c mod 64 - 128)) with c by lia_div.
    rewrite Hs. by rewrite (proj2 (Z.leb_le _ _)) by lia.
  - rewrite (in_range_false 0) by lia_div. rewrite (in_range_false 194) by lia_div.
    rewrite (in_range_false 224) by lia_div. rewrite in_range_true by lia_div.
    unfold is_tail. rewrite !in_range_true by lia_div.
    replace ((240 + c / 262144 - 240) * 262144 + (128 + c / 4096 mod 64 - 128) * 4096 +
      (128 + c / 64 mod 64 - 128) * 64 + (128 + c mod 64 - 128)) with c by lia_div.
    rewrite Hs. by rewrite (proj2 (Z.leb_le _ _)) by lia.
Qed.

Definition encode_all (cs : list Z) : list byte := concat (encode_utf8 <$> cs).

Lemma decode_encode_all cs : Forall (λ c, is_scalar c = true) cs → decode_utf8 (encode_all cs) = Some cs.
Proof.
  induction 1 as [|c cs Hc _ IH]; [done|]. unfold encode_all in *. rewrite fmap_cons. cbn [concat].
  by rewrite decode_encode_app, IH.
Qed.

Lemma encode_all_app cs ds : encode_all (cs ++ ds) = encode_all cs ++ encode_all ds.
Proof. unfold encode_all. by rewrite fmap_app, concat_app. Qed.

Lemma encode_all_nonempty cs : encode_all cs = [] → cs = [].
Proof.
  destruct cs as [|c cs]; [done|]. unfold encode_all. rewrite fmap_cons. cbn [concat].
  intros [He _]%app_nil. pose proof (encode_length c). rewrite He in *. simpl in *. lia.
Qed.

(** ** The length byte *)

(** A fact about bytes checked on all of them. *)
Lemma all_bytes (f : Z → bool) : forallb f (seqZ 0 256) = true → ∀ b, 0 ≤ b ≤ u8_max → f b = true.
Proof.
  intros Hf b Hb. rewrite forallb_forall in Hf. apply Hf. apply list_elem_of_In, elem_of_seqZ. unfold u8_max in *. lia.
Qed.

Definition low (b : Z) : Z := Z.land b LEN_BITS.
Definition wide_bit (b : Z) : bool := negb (Z.land b IS_WIDE =? 0).
Definition cont_bit (b : Z) : bool := negb (Z.land b IS_WIDE_CONTINUATION =? 0).

Definition byte_facts (b : Z) : bool :=
  let w := Z.lor b IS_WIDE in let nw := Z.land b (u8_max - IS_WIDE) in
  let k := Z.lor b IS_WIDE_CONTINUATION in let nk := Z.land b (u8_max - IS_WIDE_CONTINUATION) in
  let ok x := (0 <=? x) && (x <=? u8_max) in
  ok w && ok nw && ok k && ok nk && (low w =? low b) && (low nw =? low b) && (low k =? low b) && (low nk =? low b) &&
  wide_bit w && negb (wide_bit nw) && eqb (wide_bit k) (wide_bit b) && eqb (wide_bit nk) (wide_bit b) &&
  cont_bit k && negb (cont_bit nk) && eqb (cont_bit w) (cont_bit b) && eqb (cont_bit nw) (cont_bit b) &&
  (0 <=? low b) && (low b <=? 31).

Lemma byte_facts_true b : 0 ≤ b ≤ u8_max → byte_facts b = true.
Proof. apply all_bytes. vm_compute. reflexivity. Qed.

(** Adding to the length does not carry into the flags. *)
Definition add_facts (b : Z) : bool :=
  forallb (λ n, (31 <? low b + n) ||
    ((b + n <=? u8_max) && (low (b + n) =? low b + n) && eqb (wide_bit (b + n)) (wide_bit b) && eqb (cont_bit (b + n)) (cont_bit b)))
    (seqZ 0 5).

Lemma add_facts_true b n :
  0 ≤ b ≤ u8_max → 0 ≤ n ≤ 4 → low b + n ≤ 31 →
  b + n ≤ u8_max ∧ low (b + n) = low b + n ∧ wide_bit (b + n) = wide_bit b ∧ cont_bit (b + n) = cont_bit b.
Proof.
  intros Hb Hn Hl. assert (Hf : add_facts b = true) by (by apply all_bytes; [vm_compute; reflexivity|]).
  unfold add_facts in Hf. rewrite forallb_forall in Hf. specialize (Hf n).
  rewrite <- list_elem_of_In, elem_of_seqZ in Hf. specialize (Hf ltac:(lia)).
  apply orb_true_iff in Hf as [Hf|Hf]; b2p; [lia|]. repeat split; try done; by apply eqb_prop.
Qed.

(** ** Well-formed cells *)

Record cell_ok (c : Cell) : Prop := {
  ck_buf : length (contents_buf c) = 22%nat;
  ck_byte : 0 ≤ len_byte c ≤ u8_max;
  ck_len : cell_len c ≤ CONTENT_BYTES;
  ck_text : ∃ cs, Forall (λ x, is_scalar x = true) cs ∧
    take (Z.to_nat (cell_len c)) (contents_buf c) = encode_all cs;
  ck_wide : is_wide c = true → has_contents c = true;
}.

Lemma cell_len_range c : 0 ≤ len_byte c ≤ u8_max → 0 ≤ cell_len c ≤ 31.
Proof. intros Hb. pose proof (byte_facts_true _ Hb) as Hf. unfold byte_facts in Hf. cbv zeta in Hf. b2p. done. Qed.

Lemma cell_new_ok : cell_ok cell_new.
Proof. split; [done|done|done|by exists []|done]. Qed.

Lemma contents_text c cs :
  cell_ok c → Forall (λ x, is_scalar x = true) cs →
  take (Z.to_nat (cell_len c)) (contents_buf c) = encode_all cs → contents c = Some cs.
Proof.
  intros [_ _ Hl _ _] Hcs Ht. unfold contents. rewrite (proj2 (Z.leb_le _ _)) by done. rewrite Ht.
  by apply decode_encode_all.
Qed.

Lemma write_at_ok start bs buf :
  length buf = 22%nat → 0 ≤ start → start + Z.of_nat (length bs) ≤ CONTENT_BYTES →
  ∃ buf', write_at start bs buf = Some buf' ∧ length buf' = 22%nat ∧
    take (Z.to_nat (start + Z.of_nat (length bs))) buf' = take (Z.to_nat start) buf ++ bs.
Proof.
  intros Hb Hs Hn. unfold write_at, CONTENT_BYTES in *. rewrite (proj2 (Z.leb_le _ _)) by done.
  eexists. split; [done|]. split.
  - rewrite !length_app, length_take, length_drop. lia.
  - rewrite app_assoc. apply take_app_length'. rewrite length_app, length_take. lia.
Qed.

Lemma append_char_ok c ch cs :
  length (contents_buf c) = 22%nat → 0 ≤ len_byte c ≤ u8_max → cell_len c ≤ 18 → is_scalar ch = true →
  Forall (λ x, is_scalar x = true) cs → take (Z.to_nat (cell_len c)) (contents_buf c) = encode_all cs →
  ∃ c', append_char c (cell_len c) ch = Some c' ∧ cell_ok c' ∧ contents c' = Some (cs ++ [ch]) ∧
    is_wide c' = is_wide c ∧ is_wide_continuation c' = is_wide_continuation c ∧ cell_attrs c' = cell_attrs c.
Proof.
  intros Hb Hbyte Hl Hch Hcs Ht. pose proof (encode_length ch) as He. pose proof (cell_len_range c Hbyte).
  destruct (write_at_ok (cell_len c) (encode_utf8 ch) (contents_buf c)) as (buf & Hw & Hlb & Htb);
    [done|lia|unfold CONTENT_BYTES; lia|].
  destruct (add_facts_true (len_byte c) (Z.of_nat (length (encode_utf8 ch)))) as (Ha & Hlow & Hwd & Hct);
    [done|lia|unfold cell_len, low in *; lia|].
  unfold append_char. rewrite Hw. unfold u8_add. rewrite (proj2 (Z.leb_le _ _)) by done.
  assert (Hlen : cell_len (mkCell buf (len_byte c + Z.of_nat (length (encode_utf8 ch))) (cell_attrs c)) =
    cell_len c + Z.of_nat (length (encode_utf8 ch))) by exact Hlow.
  assert (Htext : take (Z.to_nat (cell_len (mkCell buf (len_byte c + Z.of_nat (length (encode_utf8 ch))) (cell_attrs c)))) buf =
    encode_all (cs ++ [ch])).
  { rewrite Hlen, Htb, Ht, encode_all_app. unfold encode_all at 3. simpl. by rewrite app_nil_r. }
  assert (Hall : Forall (λ x, is_scalar x = true) (cs ++ [ch])) by (apply Forall_app; by repeat constructor).
  assert (Hok : cell_ok (mkCell buf (len_byte c + Z.of_nat (length (encode_utf8 ch))) (cell_attrs c))).
  { split; [done|simpl; lia|rewrite Hlen; unfold CONTENT_BYTES; lia|eauto|]. intros _. apply Z.ltb_lt. lia. }
  eexists. split; [done|]. split; [done|]. split; [by apply contents_text|done].
Qed.

Lemma cell_len_text c cs : cell_ok c → contents c = Some cs → cell_len c = Z.of_nat (length (encode_all cs)).
Proof.
  intros Hok Hc. destruct (ck_text _ Hok) as (cs' & Hcs & Ht). rewrite (contents_text _ _ Hok Hcs Ht) in Hc.
  injection Hc as <-. rewrite <- Ht, length_take, (ck_buf _ Hok).
  pose proof (ck_len _ Hok) as Hl. unfold CONTENT_BYTES in Hl. pose proof (cell_len_range _ (ck_byte _ Hok)). lia.
Qed.

Lemma text_len c ch cs : cell_ok c → contents c = Some (cs ++ [ch]) → 0 < cell_len c.
Proof.
  intros Hok Hc. rewrite (cell_len_text _ _ Hok Hc), encode_all_app, length_app.
  pose proof (encode_length ch). unfold encode_all at 2. simpl. rewrite app_nil_r. lia.
Qed.

(** Flags and length after setting a flag. *)
Lemma set_wide_ok c w :
  cell_ok c → has_contents c = true → cell_ok (set_wide c w) ∧ is_wide (set_wide c w) = w ∧
  is_wide_continuation (set_wide c w) = is_wide_continuation c ∧ cell_len (set_wide c w) = cell_len c.
Proof.
  intros [Hb Hbyte Hl Ht _] Hhc. pose proof (byte_facts_true _ Hbyte) as Hf. unfold byte_facts in Hf. cbv zeta in Hf.
  unfold has_contents in *. b2p. rewrite !eqb_true_iff in *.
  assert (Hlen : cell_len (set_wide c w) = cell_len c) by (by destruct w).
  split; [split; unfold has_contents; rewrite ?Hlen; try done; [destruct w; simpl; lia|intros _; apply Z.ltb_lt; lia]|].
  split; [|by split; [destruct w|]]. by destruct w.
Qed.

Lemma set_wide_continuation_ok c w :
  cell_ok c → cell_ok (set_wide_continuation c w) ∧ is_wide (set_wide_continuation c w) = is_wide c ∧
  is_wide_continuation (set_wide_continuation c w) = w.
Proof.
  intros [Hb Hbyte Hl Ht Hwd]. pose proof (byte_facts_true _ Hbyte) as Hf. unfold byte_facts in Hf. cbv zeta in Hf. b2p.
  rewrite !eqb_true_iff in *.
  assert (Hlen : cell_len (set_wide_continuation c w) = cell_len c) by (by destruct w).
  assert (Hw : is_wide (set_wide_continuation c w) = is_wide c) by (by destruct w).
  split; [split; unfold has_contents; rewrite ?Hlen, ?Hw; try done; destruct w; simpl; lia|].
  split; [done|]. by destruct w.
Qed.

Lemma clear_ok c a :
  cell_ok c → cell_ok (clear c a) ∧ is_wide (clear c a) = false ∧ is_wide_continuation (clear c a) = false ∧
  contents (clear c a) = Some [].
Proof. intros [Hb _ _ _ _]. split; [|done]. split; [done|done|done|by exists []|done]. Qed.

Section Writing.
Context `{!UnicodeWidth}.

Definition wide_char (c : Z) : bool := negb (is_ascii c) && (1 <? default 1 (char_cols c)).

Lemma set_ok c ch a :
  cell_ok c → is_scalar ch = true →
  ∃ c', set c ch a = Some c' ∧ cell_ok c' ∧ contents c' = Some [ch] ∧
    is_wide c' = wide_char ch ∧ is_wide_continuation c' = false ∧ cell_attrs c' = a.
Proof.
  intros [Hb Hbyte Hl Ht _] Hch. set (c0 := mkCell (contents_buf c) 0 (cell_attrs c)).
  destruct (append_char_ok c0 ch []) as (c1 & Ha & Hok & Htx & Hw & Hk & _); [done|done|done|done|done|done|].
  change (cell_len c0) with 0 in Ha. unfold set. fold c0. rewrite Ha.
  destruct (set_wide_ok c1 (wide_char ch) Hok) as (Hok' & Hw' & Hk' & Hlen).
  { unfold has_contents. apply Z.ltb_lt. by apply (text_len c1 ch []). }
  eexists. split; [done|]. unfold contents in *. simpl.
  change (cell_len (mkCell _ _ a)) with (cell_len (set_wide c1 (wide_char ch))). rewrite Hlen.
  split; [|split; [exact Htx|split; [exact Hw'|split; [|done]]]].
  - by destruct Hok'.
  - change (is_wide_continuation (set_wide c1 (wide_char ch)) = false). by rewrite Hk', Hk.
Qed.

(** The text after appending: a blank is put under a mark that has no base, and a full cell
    drops the mark. *)
Definition appended (full : bool) (cs : list Z) (ch : Z) : list Z :=
  if full then cs else (if bool_decide (cs = []) then [32] else cs) ++ [ch].

Lemma append_ok c ch :
  cell_ok c → is_scalar ch = true →
  ∃ c' cs, contents c = Some cs ∧ append c ch = Some c' ∧ cell_ok c' ∧
    contents c' = Some (appended (18 <=? cell_len c) cs ch) ∧
    is_wide c' = is_wide c ∧ is_wide_continuation c' = is_wide_continuation c ∧ cell_attrs c' = cell_attrs c.
Proof.
  intros Hok Hch. destruct (ck_text _ Hok) as (cs & Hcs & Ht). pose proof (contents_text _ _ Hok Hcs Ht) as Hc.
  pose proof (cell_len_range _ (ck_byte _ Hok)) as Hr.
  unfold append. change (CONTENT_BYTES - 4) with 18. destruct (Z.leb_spec 18 (cell_len c)).
  { exists c, cs. by rewrite Hc. }
  destruct (Z.eqb_spec (cell_len c) 0) as [Hz|Hz].
  - assert (Hnil : cs = []) by (apply encode_all_nonempty; by rewrite <- Ht, Hz). subst cs.
    destruct (append_char_ok c 32 []) as (c1 & Ha & Hok1 & Hc1 & Hw1 & Hk1 & Hat1);
      [apply Hok|apply Hok|lia|done|done|done|].
    rewrite Hz in Ha. unfold append_char in Ha. change (encode_utf8 32) with [32] in Ha.
    change (Z.of_nat (length [32])) with 1 in Ha. rewrite Ha.
    destruct (ck_text _ Hok1) as (cs1 & Hcs1 & Ht1). pose proof (contents_text _ _ Hok1 Hcs1 Ht1) as E.
    rewrite Hc1 in E. injection E as <-.
    assert (Hl1 : cell_len c1 = 1).
    { by rewrite (cell_len_text _ _ Hok1 Hc1). }
    destruct (append_char_ok c1 ch ([] ++ [32])) as (c2 & Ha2 & Hok2 & Hc2 & Hw2 & Hk2 & Hat2);
      [apply Hok1|apply Hok1|lia|done|done|done|].
    exists c2, []. rewrite Ha2, Hw2, Hk2, Hat2. done.
  - destruct (append_char_ok c ch cs) as (c2 & Ha2 & Hok2 & Hc2 & Hw2 & Hk2 & Hat2);
      [apply Hok|apply Hok|lia|done|done|done|].
    exists c2, cs. rewrite Ha2. split; [done|]. split; [done|]. split; [done|]. split; [|done].
    rewrite Hc2. unfold appended. rewrite bool_decide_eq_false_2; [done|]. intros ->.
    apply (f_equal length) in Ht. rewrite length_take, (ck_buf _ Hok) in Ht. change (length (encode_all [])) with 0%nat in Ht. lia.
Qed.

(** The marks that fit in a cell already holding [n] bytes. *)
Fixpoint fit (n : Z) (marks : list Z) : list Z :=
  match marks with
  | [] => []
  | m :: marks => if 18 <=? n then [] else m :: fit (n + Z.of_nat (length (encode_utf8 m))) marks
  end.

Lemma fit_all n marks : n + 4 * Z.of_nat (length marks) ≤ 21 → fit n marks = marks.
Proof.
  revert n. induction marks as [|m marks IH]; intros n Hn; [done|]. cbn [fit]. pose proof (encode_length m).
  rewrite (proj2 (Z.leb_gt _ _)) by (simpl in Hn; lia). f_equal. apply IH. simpl in Hn. lia.
Qed.

Lemma fit_full n marks : 18 ≤ n → fit n marks = [].
Proof. intros Hn. destruct marks; [done|]. simpl. by rewrite (proj2 (Z.leb_le _ _)). Qed.

Definition append_all (c : Cell) (marks : list Z) : option Cell :=
  foldl (λ o m, let! c := o in append c m) (Some c) marks.

Lemma append_all_ok c x cs marks :
  cell_ok c → contents c = Some (x :: cs) → Forall (λ x, is_scalar x = true) marks →
  ∃ c', append_all c marks = Some c' ∧ cell_ok c' ∧ contents c' = Some (x :: cs ++ fit (cell_len c) marks) ∧
    is_wide c' = is_wide c ∧ is_wide_continuation c' = is_wide_continuation c ∧ cell_attrs c' = cell_attrs c.
Proof.
  intros Hok Hc Hm. revert c cs Hok Hc. induction Hm as [|m marks Hm _ IH]; intros c cs Hok Hc.
  { exists c. by rewrite app_nil_r. }
  destruct (append_ok c m Hok Hm) as (c1 & cs1 & E & Ha & Hok1 & Hc1 & Hw & Hk & Hat).
  rewrite Hc in E. injection E as <-. unfold append_all. cbn [foldl]. rewrite Ha. cbn [fit].
  unfold appended in Hc1. destruct (18 <=? cell_len c) eqn:Hfull.
  - destruct (IH c1 cs Hok1 Hc1) as (c' & Ha' & Hok' & Hc' & Hw' & Hk' & Hat'). exists c'. rewrite Hw', Hk', Hat'.
    split; [done|]. split; [done|]. split; [|done]. rewrite Hc', fit_full; [done|].
    rewrite (cell_len_text _ _ Hok1 Hc1), <- (cell_len_text _ _ Hok Hc). b2p. done.
  - simpl in Hc1. destruct (IH c1 (cs ++ [m]) Hok1 Hc1) as (c' & Ha' & Hok' & Hc' & Hw' & Hk' & Hat').
    exists c'. rewrite Hw', Hk', Hat'. split; [done|]. split; [done|]. split; [|done].
    rewrite Hc', <- app_assoc. simpl. do 4 f_equal.
    rewrite (cell_len_text _ _ Hok1 Hc1), (cell_len_text _ _ Hok Hc).
    change (x :: cs ++ [m]) with ((x :: cs) ++ [m]). rewrite encode_all_app, length_app.
    assert (Hm1 : encode_all [m] = encode_utf8 m) by apply app_nil_r. rewrite Hm1. f_equal. lia.
Qed.

(** A cell always holds valid text. Writing a character and then any combining marks
    never panics (no write past the 22 bytes, no overflow of the length byte into the flag
    bits, no invalid UTF-8 when read), and the text read back is exactly the character
    followed by the marks that fitted, which include any four; the marks never change the
    cell's width or attributes. *)
Theorem cell_text_roundtrip c ch marks a :
  cell_ok c → is_scalar ch = true → Forall (λ x, is_scalar x = true) marks →
  ∃ c0 c', set c ch a = Some c0 ∧ append_all c0 marks = Some c' ∧ cell_ok c' ∧
    contents c' = Some (ch :: fit (Z.of_nat (length (encode_utf8 ch))) marks) ∧
    ((length marks ≤ 4)%nat → contents c' = Some (ch :: marks)) ∧
    is_wide c' = wide_char ch ∧ is_wide_continuation c' = false ∧ cell_attrs c' = a.
Proof.
  intros Hok Hch Hm. destruct (set_ok c ch a Hok Hch) as (c0 & Hs & Hok0 & Ht0 & Hw0 & Hk0 & Ha0).
  destruct (append_all_ok c0 ch [] marks Hok0 Ht0 Hm) as (c' & Ha & Hok' & Hc' & Hw & Hk & Hat).
  assert (Hlen : cell_len c0 = Z.of_nat (length (encode_utf8 ch))).
  { rewrite (cell_len_text _ _ Hok0 Ht0). unfold encode_all. simpl. by rewrite app_nil_r. }
  rewrite Hlen in Hc'. exists c0, c'. rewrite Hw, Hk, Hat. split; [done|]. split; [done|]. split; [done|].
  split; [done|]. split; [|done]. intros Hn. rewrite Hc'. simpl. do 2 f_equal. apply fit_all.
  pose proof (encode_length ch). lia.
Qed.

End Writing.

(** A small table of widths, which shows that the interface can be met: one column, but none
    for the combining marks of the first block and the soft hyphen, and two for the
    ideographs. *)
Definition sample_cols (c : Z) : option Z :=
  if (c <? 32) || (127 <=? c) && (c <? 160) then None
  else if (c =? 173) || (768 <=? c) && (c <=? 879) then Some 0
  else if (19968 <=? c) && (c <=? 40959) then Some 2 else Some 1.

Lemma sample_cols_range c w : sample_cols c = Some w → 0 ≤ w ≤ 2.
Proof. unfold sample_cols. repeat case_match; intros [= <-]; lia. Qed.

Lemma sample_cols_ascii c w : c < 128 → sample_cols c = Some w → w ≤ 1.
Proof. unfold sample_cols. intros Hc. repeat case_match; intros [= <-]; b2p; lia. Qed.

Definition sample_width : UnicodeWidth :=
  {| char_cols := sample_cols; char_cols_range := sample_cols_range;
     char_cols_ascii := sample_cols_ascii; char_cols_soft_hyphen := eq_refl |}.

Lemma cell_text_roundtrip_witness :
  ∃ c0 c', @set sample_width cell_new 20013 attrs_default = Some c0 ∧ append_all c0 [769; 770] = Some c' ∧ cell_ok c' ∧
    contents c' = Some [20013; 769; 770] ∧ is_wide c' = true.
Proof.
  assert (Hm : Forall (λ x, is_scalar x = true) [769; 770]) by (by rewrite !Forall_cons).
  destruct (@cell_text_roundtrip sample_width cell_new 20013 [769; 770] attrs_default cell_new_ok eq_refl Hm)
    as (c0 & c' & Hs & Ha & Hok & _ & Hc & Hw & _).
  exists c0, c'. split; [exact Hs|]. split; [exact Ha|]. split; [exact Hok|]. split; [apply Hc; simpl; lia|exact Hw].
Defined.
