(* ===== verification/VtRow.v ===== *)
(** * Terminal rows ([crates/vt100/src/row.rs])

    A row is a vector of cells. A wide character takes two of them: a first half and a
    continuation. Every operation either keeps the halves together or blanks the one left
    alone, which is what [paired] says; the code indexes the other half without checking. *)

From S2P Require Import Prelude VtCell.

(** ** Vectors

    [Vec]'s operations by index; [None] is the panic of an index out of range. *)

Definition vec_insert {A} (i : nat) (x : A) (l : list A) : option (list A) :=
  if (i <=? length l)%nat then Some (take i l ++ x :: drop i l) else None.

Definition vec_remove {A} (i : nat) (l : list A) : option (A * list A) :=
  let! x := l !! i in Some (x, take i l ++ drop (S i) l).

Definition vec_set {A} (i : nat) (x : A) (l : list A) : option (list A) :=
  if (i <? length l)%nat then Some (<[i := x]> l) else None.

Definition vec_resize {A} (n : nat) (x : A) (l : list A) : list A := take n l ++ replicate (n - length l) x.

(** ** The row *)

Record Row := mkRow { cells : list Cell; wrapped : bool }.

Definition row_new (cols : Z) : Row := mkRow (replicate (Z.to_nat cols) cell_new) false.

Definition row_clear (r : Row) (a : Attrs) : Row := mkRow ((λ c, clear c a) <$> cells r) false.

Definition row_get (r : Row) (col : Z) : option Cell := cells r !! Z.to_nat col.

(** Blanks the other half of a wide character at [col]. *)
Definition clear_wide (r : Row) (col : Z) : option Row :=
  let! cell := cells r !! Z.to_nat col in
  if is_wide cell then
    let! j := u16_add col 1 in
    let! other := cells r !! Z.to_nat j in
    let! cs := vec_set (Z.to_nat j) (clear other (cell_attrs other)) (cells r) in
    Some (mkRow cs (wrapped r))
  else if is_wide_continuation cell then
    let! j := u16_sub col 1 in
    let! other := cells r !! Z.to_nat j in
    let! cs := vec_set (Z.to_nat j) (clear other (cell_attrs other)) (cells r) in
    Some (mkRow cs (wrapped r))
  else Some r.

Definition row_insert (r : Row) (i : Z) (cell : Cell) : option Row :=
  let! cs := vec_insert (Z.to_nat i) cell (cells r) in Some (mkRow cs (wrapped r)).

Definition row_remove (r : Row) (i : Z) : option Row :=
  let! r := clear_wide r i in
  let! (_, cs) := vec_remove (Z.to_nat i) (cells r) in
  Some (mkRow cs (wrapped r)).

Definition row_erase (r : Row) (i : Z) (a : Attrs) : option Row :=
  let! r := clear_wide r i in
  let! cell := cells r !! Z.to_nat i in
  let! cs := vec_set (Z.to_nat i) (clear cell a) (cells r) in
  Some (mkRow cs (wrapped r)).

Definition row_truncate (r : Row) (len : Z) : option Row :=
  let cs := take (Z.to_nat len) (cells r) in
  let! i := u16_sub len 1 in
  let! lst := cs !! Z.to_nat i in
  if is_wide lst then
    let! cs := vec_set (Z.to_nat i) (clear lst (cell_attrs lst)) cs in Some (mkRow cs (wrapped r))
  else Some (mkRow cs (wrapped r)).

Definition row_resize (r : Row) (len : Z) (cell : Cell) : Row :=
  let cs := vec_resize (Z.to_nat len) cell (cells r) in
  match last cs with
  | Some lst => if is_wide lst then mkRow (<[(length cs - 1)%nat := cell]> cs) (wrapped r) else mkRow cs (wrapped r)
  | None => mkRow cs (wrapped r)
  end.

Definition row_wrap (r : Row) (w : bool) : Row := mkRow (cells r) w.

(** Repeating an operation over a range of columns: [for col in from..to]. *)
Fixpoint for_cols {A} (f : A → Z → option A) (from : Z) (n : nat) (x : A) : option A :=
  match n with
  | O => Some x
  | S n => let! x := f x from in for_cols f (from + 1) n x
  end.

(** ** Pairing *)

Definition plain (c : Cell) : Prop := is_wide c = false ∧ is_wide_continuation c = false.
Definition first_half (c : Cell) : Prop := is_wide c = true ∧ is_wide_continuation c = false.
Definition second_half (c : Cell) : Prop := is_wide c = false ∧ is_wide_continuation c = true.

Inductive paired : list Cell → Prop :=
| paired_nil : paired []
| paired_plain c l : plain c → paired l → paired (c :: l)
| paired_wide c d l : first_half c → second_half d → paired l → paired (c :: d :: l).

#[export] Hint Constructors paired : tymux.

Lemma paired_app l k : paired l → paired k → paired (l ++ k).
Proof. induction 1; simpl; auto with tymux. Qed.

Lemma paired_replicate n c : plain c → paired (replicate n c).
Proof. intros. induction n; simpl; auto with tymux. Qed.

(** A position is either between two characters or inside a wide one. *)
Lemma paired_split l i :
  paired l → (i ≤ length l)%nat →
  (∃ a b, l = a ++ b ∧ length a = i ∧ paired a ∧ paired b) ∨
  (∃ a c d b, l = a ++ c :: d :: b ∧ S (length a) = i ∧ paired a ∧ first_half c ∧ second_half d ∧ paired b).
Proof.
  intros Hp. revert i. induction Hp as [|c l Hc Hp IH|c d l Hc Hd Hp IH]; intros i Hi.
  - left. exists [], []. simpl in *. repeat split; auto with tymux. lia.
  - destruct i as [|i]; [left; exists [], (c :: l); auto with tymux|].
    destruct (IH i) as [(a & b & -> & <- & Ha & Hb)|(a & x & y & b & -> & <- & Ha & Hx & Hy & Hb)]; [simpl in Hi; lia|..].
    + left. exists (c :: a), b. auto with tymux.
    + right. exists (c :: a), x, y, b. split; [done|]. split; [done|]. split; auto with tymux.
  - destruct i as [|[|i]].
    + left. exists [], (c :: d :: l). auto with tymux.
    + right. exists [], c, d, l. split; [done|]. auto with tymux.
    + destruct (IH i) as [(a & b & -> & <- & Ha & Hb)|(a & x & y & b & -> & <- & Ha & Hx & Hy & Hb)]; [simpl in Hi; lia|..].
      * left. exists (c :: d :: a), b. auto with tymux.
      * right. exists (c :: d :: a), x, y, b. split; [done|]. split; [done|]. split; auto with tymux.
Qed.

(** What stands at a column. *)
Lemma paired_at l i c :
  paired l → l !! i = Some c →
  (∃ a b, l = a ++ c :: b ∧ length a = i ∧ paired a ∧ paired b ∧ plain c) ∨
  (∃ a d b, l = a ++ c :: d :: b ∧ length a = i ∧ paired a ∧ paired b ∧ first_half c ∧ second_half d) ∨
  (∃ a d b, l = a ++ d :: c :: b ∧ S (length a) = i ∧ paired a ∧ paired b ∧ first_half d ∧ second_half c).
Proof.
  intros Hp Hi. pose proof (lookup_lt_Some _ _ _ Hi).
  destruct (paired_split l i Hp) as [(a & b & -> & <- & Ha & Hb)|(a & x & y & b & -> & <- & Ha & Hx & Hy & Hb)]; [lia|..].
  - rewrite lookup_app_r, Nat.sub_diag in Hi by lia. destruct Hb as [|x l Hx Hl|x y l Hx Hy Hl]; [done|..];
      injection Hi as ->; [left|right; left]; eauto 10.
  - right. right. rewrite lookup_app_r in Hi by lia. replace (S (length a) - length a)%nat with 1%nat in Hi by lia.
    injection Hi as ->. eauto 10.
Qed.

Lemma paired_last l c : paired l → last l = Some c → is_wide c = false.
Proof.
  induction 1 as [|x l Hx Hl IH|x y l Hx Hy Hl IH]; [done|..].
  - destruct l; [intros [= <-]; apply Hx|]. rewrite last_cons_cons. apply IH.
  - destruct l; [intros [= <-]; apply Hy|]. rewrite !last_cons_cons. apply IH.
Qed.

Lemma clear_plain c a : plain (clear c a).
Proof. done. Qed.

#[export] Hint Resolve clear_plain paired_app : tymux.

Lemma cell_new_plain : plain cell_new.
Proof. done. Qed.

(** ** Well-formed rows *)

Record row_ok (n : nat) (r : Row) : Prop := {
  ro_len : length (cells r) = n;
  ro_paired : paired (cells r);
  ro_cells : Forall cell_ok (cells r);
}.

Lemma row_new_ok cols : row_ok (Z.to_nat cols) (row_new cols).
Proof.
  split; simpl; [apply length_replicate|by apply paired_replicate|]. apply Forall_replicate, cell_new_ok.
Qed.

Lemma row_clear_ok n r a : row_ok n r → row_ok n (row_clear r a).
Proof.
  intros [Hl Hp Hc]. split; simpl; [by rewrite length_fmap| |].
  - clear. induction (cells r); simpl; auto with tymux.
  - apply Forall_fmap. eapply Forall_impl; [exact Hc|]. intros c Hok. by apply clear_ok.
Qed.

Lemma row_wrap_ok n r w : row_ok n r → row_ok n (row_wrap r w).
Proof. by intros []. Qed.

Lemma insert_middle {A} (a : list A) x y b : <[length a := y]> (a ++ x :: b) = a ++ y :: b.
Proof. induction a; simpl; [done|by f_equal]. Qed.

Lemma vec_set_middle {A} (a : list A) x y b : vec_set (length a) y (a ++ x :: b) = Some (a ++ y :: b).
Proof.
  unfold vec_set. rewrite length_app. simpl. rewrite (proj2 (Nat.ltb_lt _ _)) by lia. by rewrite insert_middle.
Qed.

Lemma vec_remove_middle {A} (a : list A) x b : vec_remove (length a) (a ++ x :: b) = Some (x, a ++ b).
Proof.
  unfold vec_remove. rewrite list_lookup_middle by done. rewrite take_app_length.
  change (a ++ x :: b) with (a ++ [x] ++ b). rewrite app_assoc, drop_app_length'; [done|]. rewrite length_app. simpl. lia.
Qed.

(** After [clear_wide] the cell at the column stands between two well-paired parts, so it can
    be replaced or removed on its own. *)
Lemma clear_wide_ok n r i c :
  row_ok n r → cells r !! Z.to_nat i = Some c → 0 ≤ i → Z.of_nat n ≤ u16_max →
  ∃ a b, clear_wide r i = Some (mkRow (a ++ c :: b) (wrapped r)) ∧ length a = Z.to_nat i ∧
    (length a + S (length b) = n)%nat ∧ paired a ∧ paired b ∧ Forall cell_ok a ∧ Forall cell_ok b ∧ cell_ok c.
Proof.
  intros [Hl Hp Hc] Hi Hnn Hmax. destruct r as [cs w]. simpl in *. unfold clear_wide. simpl. rewrite Hi.
  destruct (paired_at _ _ _ Hp Hi) as [(a & b & -> & Hla & Ha & Hb & Hpl)|
    [(a & d & b & -> & Hla & Ha & Hb & Hf & Hs)|(a & d & b & -> & Hla & Ha & Hb & Hf & Hs)]].
  - destruct Hpl as [-> ->]. rewrite Forall_app, Forall_cons in Hc. rewrite length_app in Hl. simpl in Hl. naive_solver.
  - destruct Hf as [-> _]. rewrite length_app in Hl. simpl in Hl.
    rewrite u16_add_ok by lia. replace (Z.to_nat (i + 1)) with (length (a ++ [c])) by (rewrite length_app; simpl; lia).
    change (a ++ c :: d :: b) with (a ++ [c] ++ d :: b) in *. rewrite !app_assoc in *.
    rewrite list_lookup_middle, vec_set_middle by done. rewrite <- app_assoc. simpl.
    rewrite !Forall_app, !Forall_cons in Hc. destruct Hc as ((? & ? & _) & ? & ?).
    eexists a, (clear d (cell_attrs d) :: b). split; [done|]. split; [done|]. split; [simpl; lia|].
    split; [done|]. split; [auto with tymux|]. split; [done|]. split; [|done].
    constructor; [by apply clear_ok|done].
  - destruct Hs as [-> ->]. rewrite length_app in Hl. simpl in Hl.
    rewrite u16_sub_ok by lia. replace (Z.to_nat (i - 1)) with (length a) by lia.
    rewrite list_lookup_middle, vec_set_middle by done.
    rewrite Forall_app, !Forall_cons in Hc. destruct Hc as (? & ? & ? & ?).
    eexists (a ++ [clear d (cell_attrs d)]), b. rewrite <- app_assoc. split; [done|].
    split; [rewrite length_app; simpl; lia|]. split; [rewrite length_app; simpl; lia|].
    split; [auto with tymux|]. split; [done|]. split; [|done].
    apply Forall_app. split; [done|]. repeat constructor; by apply clear_ok.
Qed.

Lemma row_erase_ok n r i a :
  row_ok n r → 0 ≤ i < Z.of_nat n → Z.of_nat n ≤ u16_max →
  ∃ r', row_erase r i a = Some r' ∧ row_ok n r' ∧ wrapped r' = wrapped r.
Proof.
  intros Hr Hi Hmax. destruct (lookup_lt_is_Some_2 (cells r) (Z.to_nat i)) as [c Hc].
  { rewrite (ro_len _ _ Hr). lia. }
  destruct (clear_wide_ok n r i c Hr Hc) as (x & y & Hcw & Hlx & Hn & Hx & Hy & Hokx & Hoky & Hokc); [lia|done|].
  unfold row_erase. rewrite Hcw. simpl. rewrite <- Hlx, list_lookup_middle, vec_set_middle by done.
  eexists. split; [done|]. split; [|done]. split; simpl.
  - rewrite length_app. simpl. lia.
  - auto with tymux.
  - apply Forall_app. split; [done|]. constructor; [by apply clear_ok|done].
Qed.

Lemma row_remove_ok n r i :
  row_ok (S n) r → 0 ≤ i ≤ Z.of_nat n → Z.of_nat (S n) ≤ u16_max →
  ∃ r', row_remove r i = Some r' ∧ row_ok n r' ∧ wrapped r' = wrapped r.
Proof.
  intros Hr Hi Hmax. destruct (lookup_lt_is_Some_2 (cells r) (Z.to_nat i)) as [c Hc].
  { rewrite (ro_len _ _ Hr). lia. }
  destruct (clear_wide_ok (S n) r i c Hr Hc) as (x & y & Hcw & Hlx & Hn & Hx & Hy & Hokx & Hoky & Hokc); [lia|done|].
  unfold row_remove. rewrite Hcw. simpl. rewrite <- Hlx, vec_remove_middle.
  eexists. split; [done|]. split; [|done]. split; simpl.
  - rewrite length_app. lia.
  - by apply paired_app.
  - by apply Forall_app.
Qed.

(** Cutting a row blanks the half left alone at its end. *)
Lemma row_truncate_ok m n r :
  row_ok m r → (1 ≤ n ≤ m)%nat → Z.of_nat n ≤ u16_max →
  ∃ r', row_truncate r (Z.of_nat n) = Some r' ∧ row_ok n r' ∧ wrapped r' = wrapped r.
Proof.
  intros [Hl Hp Hc] Hn Hmax. destruct r as [cs w]. simpl in *. unfold row_truncate. simpl. rewrite Nat2Z.id.
  rewrite u16_sub_ok by lia. replace (Z.to_nat (Z.of_nat n - 1)) with (n - 1)%nat by lia.
  destruct (paired_split cs n Hp) as [(a & b & -> & <- & Ha & Hb)|(a & c & d & b & -> & <- & Ha & Hf & Hs & Hb)]; [lia|..].
  - rewrite take_app_length. rewrite Forall_app in Hc. destruct Hc as [Hca _].
    destruct (last a) as [x|] eqn:Hx; [|apply last_None in Hx; subst; simpl in *; lia].
    pose proof (paired_last _ _ Ha Hx) as Hw. rewrite last_lookup in Hx.
    replace (pred (length a)) with (length a - 1)%nat in Hx by lia. rewrite Hx, Hw. eexists. split; [done|]. by split.
  - change (a ++ c :: d :: b) with (a ++ [c] ++ d :: b). rewrite app_assoc, take_app_length'
      by (rewrite length_app; simpl; lia).
    replace (S (length a) - 1)%nat with (length a) by lia.
    rewrite list_lookup_middle by done. destruct Hf as [-> _]. rewrite vec_set_middle.
    rewrite Forall_app, Forall_cons in Hc. destruct Hc as (Hca & Hcc & _).
    eexists. split; [done|]. split; [|done]. split; simpl.
    + rewrite length_app. simpl. lia.
    + auto with tymux.
    + apply Forall_app. split; [done|]. repeat constructor; by apply clear_ok.
Qed.

(** Padding a row with blanks. *)
Lemma row_resize_ok m n r blank :
  row_ok m r → (m ≤ n)%nat → plain blank → cell_ok blank → row_ok n (row_resize r (Z.of_nat n) blank).
Proof.
  intros [Hl Hp Hc] Hn Hb Hok. unfold row_resize. rewrite Nat2Z.id.
  assert (Hv : vec_resize n blank (cells r) = cells r ++ replicate (n - m) blank).
  { unfold vec_resize. by rewrite take_ge, Hl by lia. }
  rewrite Hv. assert (Hpv : paired (cells r ++ replicate (n - m) blank)) by (by apply paired_app; [|apply paired_replicate]).
  assert (Hrow : ∀ w, row_ok n (mkRow (cells r ++ replicate (n - m) blank) w)).
  { intros w. split; simpl; [rewrite length_app, length_replicate; lia|done|].
    apply Forall_app. split; [done|]. by apply Forall_replicate. }
  destruct (last _) as [x|] eqn:Hx; [|done]. by rewrite (paired_last _ _ Hpv Hx).
Qed.
