(* ===== verification/VtGrid.v ===== *)
(** * The terminal grid ([crates/vt100/src/grid.rs])

    The visible rows, the scrollback, the cursor and its saved copy, the scroll region and the
    tab stops, with the operations control sequences are made of. [None] is a panic: an index
    out of range, an [unwrap] of nothing or an arithmetic overflow. *)

From S2P Require Import Prelude VtCell VtRow.

(** ** Data *)

Record Size := mkSize { rows : Z; cols : Z }.
Record Pos := mkPos { row : Z; col : Z }.

#[global] Instance Size_eq_dec : EqDecision Size.
Proof. solve_decision. Defined.
#[global] Instance Pos_eq_dec : EqDecision Pos.
Proof. solve_decision. Defined.

Definition MIN_REARM_ROWS : Z := 16.

Record Grid := mkGrid {
  freed_rows : Z;
  size : Size;
  pos : Pos;
  saved_pos : Pos;
  saved_set : bool;
  g_rows : list Row;
  scroll_top : Z;
  scroll_bottom : Z;
  origin_mode : bool;
  saved_origin_mode : bool;
  scrollback : list Row;
  scrollback_len : Z;
  scrollback_offset : Z;
  blank_attrs : Attrs;
  tab_stops : list bool;
}.

Definition with_pos (g : Grid) (p : Pos) : Grid :=
  mkGrid (freed_rows g) (size g) p (saved_pos g) (saved_set g) (g_rows g) (scroll_top g) (scroll_bottom g)
    (origin_mode g) (saved_origin_mode g) (scrollback g) (scrollback_len g) (scrollback_offset g) (blank_attrs g) (tab_stops g).

Definition with_row (g : Grid) (r : Z) : Grid := with_pos g (mkPos r (col (pos g))).
Definition with_col (g : Grid) (c : Z) : Grid := with_pos g (mkPos (row (pos g)) c).

Definition with_rows (g : Grid) (rs : list Row) : Grid :=
  mkGrid (freed_rows g) (size g) (pos g) (saved_pos g) (saved_set g) rs (scroll_top g) (scroll_bottom g)
    (origin_mode g) (saved_origin_mode g) (scrollback g) (scrollback_len g) (scrollback_offset g) (blank_attrs g) (tab_stops g).

Definition with_freed (g : Grid) (n : Z) : Grid :=
  mkGrid n (size g) (pos g) (saved_pos g) (saved_set g) (g_rows g) (scroll_top g) (scroll_bottom g)
    (origin_mode g) (saved_origin_mode g) (scrollback g) (scrollback_len g) (scrollback_offset g) (blank_attrs g) (tab_stops g).

Definition with_scrollback (g : Grid) (sb : list Row) (offset : Z) : Grid :=
  mkGrid (freed_rows g) (size g) (pos g) (saved_pos g) (saved_set g) (g_rows g) (scroll_top g) (scroll_bottom g)
    (origin_mode g) (saved_origin_mode g) sb (scrollback_len g) offset (blank_attrs g) (tab_stops g).

Definition with_region (g : Grid) (top bottom : Z) : Grid :=
  mkGrid (freed_rows g) (size g) (pos g) (saved_pos g) (saved_set g) (g_rows g) top bottom
    (origin_mode g) (saved_origin_mode g) (scrollback g) (scrollback_len g) (scrollback_offset g) (blank_attrs g) (tab_stops g).

Definition with_saved (g : Grid) (p : Pos) (is_set om : bool) : Grid :=
  mkGrid (freed_rows g) (size g) (pos g) p is_set (g_rows g) (scroll_top g) (scroll_bottom g)
    (origin_mode g) om (scrollback g) (scrollback_len g) (scrollback_offset g) (blank_attrs g) (tab_stops g).

Definition with_origin (g : Grid) (om : bool) : Grid :=
  mkGrid (freed_rows g) (size g) (pos g) (saved_pos g) (saved_set g) (g_rows g) (scroll_top g) (scroll_bottom g)
    om (saved_origin_mode g) (scrollback g) (scrollback_len g) (scrollback_offset g) (blank_attrs g) (tab_stops g).

Definition with_tabs (g : Grid) (ts : list bool) : Grid :=
  mkGrid (freed_rows g) (size g) (pos g) (saved_pos g) (saved_set g) (g_rows g) (scroll_top g) (scroll_bottom g)
    (origin_mode g) (saved_origin_mode g) (scrollback g) (scrollback_len g) (scrollback_offset g) (blank_attrs g) ts.

Definition set_blank_attrs (g : Grid) (a : Attrs) : Grid :=
  mkGrid (freed_rows g) (size g) (pos g) (saved_pos g) (saved_set g) (g_rows g) (scroll_top g) (scroll_bottom g)
    (origin_mode g) (saved_origin_mode g) (scrollback g) (scrollback_len g) (scrollback_offset g) a (tab_stops g).

(** ** Construction *)

Definition default_tab_stops (n : Z) : list bool := (λ c, (c mod 8 =? 0) && negb (c =? 0)) <$> seqZ 0 n.

Definition pos_default : Pos := mkPos 0 0.

Definition grid_new (sz : Size) (sb_len : Z) : option Grid :=
  let! bottom := u16_sub (rows sz) 1 in
  Some (mkGrid 0 sz pos_default pos_default false [] 0 bottom false false [] sb_len 0 attrs_default
          (default_tab_stops (cols sz))).

Definition blank_cell (g : Grid) : Cell := clear cell_new (blank_attrs g).

Definition allocate_rows (g : Grid) : Grid :=
  if bool_decide (g_rows g = [])
  then with_rows g (replicate (Z.to_nat (rows (size g))) (row_new (cols (size g)))) else g.

Definition new_row (g : Grid) : Row :=
  let r := row_new (cols (size g)) in
  if bool_decide (blank_attrs g = attrs_default) then r else row_clear r (blank_attrs g).

Definition grid_clear (g : Grid) : option Grid :=
  let! bottom := u16_sub (rows (size g)) 1 in
  let g := with_freed g (freed_rows g + Z.max (rows (size g)) MIN_REARM_ROWS) in
  let g := with_saved (with_pos g pos_default) pos_default false false in
  let g := with_rows g ((λ r, row_clear r attrs_default) <$> g_rows g) in
  Some (with_origin (with_region g 0 bottom) false).

(** ** Clamping *)

Definition row_clamp_top (g : Grid) (limit : bool) : option (Grid * Z) :=
  if limit && (row (pos g) <? scroll_top g)
  then let! n := u16_sub (scroll_top g) (row (pos g)) in Some (with_row g (scroll_top g), n)
  else Some (g, 0).

Definition row_clamp_bottom (g : Grid) (limit : bool) : option (Grid * Z) :=
  let! bottom := (if limit then Some (scroll_bottom g) else u16_sub (rows (size g)) 1) in
  if bottom <? row (pos g)
  then let! n := u16_sub (row (pos g)) bottom in Some (with_row g bottom, n)
  else Some (g, 0).

Definition row_clamp (g : Grid) : option Grid :=
  let! m := u16_sub (rows (size g)) 1 in
  Some (if m <? row (pos g) then with_row g m else g).

Definition col_clamp (g : Grid) : option Grid :=
  let! m := u16_sub (cols (size g)) 1 in
  Some (if m <? col (pos g) then with_col g m else g).

(** ** The cursor *)

Definition set_pos (g : Grid) (p : Pos) : option Grid :=
  let p := if origin_mode g then mkPos (sat_add u16_max (row p) (scroll_top g)) (col p) else p in
  let g := with_pos g p in
  let! (g, _) := row_clamp_top g (origin_mode g) in
  let! (g, _) := row_clamp_bottom g (origin_mode g) in
  col_clamp g.

Definition set_pos_exact (g : Grid) (p : Pos) : Grid := with_pos g p.

Definition save_cursor (g : Grid) : Grid := with_saved g (pos g) true (origin_mode g).

Definition restore_cursor (g : Grid) : option Grid :=
  col_clamp (with_origin (with_pos g (saved_pos g)) (saved_origin_mode g)).

Definition in_scroll_region (g : Grid) : bool :=
  (scroll_top g <=? row (pos g)) && (row (pos g) <=? scroll_bottom g).

Definition set_origin_mode (g : Grid) (m : bool) : option Grid := set_pos (with_origin g m) (mkPos 0 0).

Definition row_inc_clamp (g : Grid) (count : Z) : option Grid :=
  let limit := in_scroll_region g in
  let! (g, _) := row_clamp_bottom (with_row g (sat_add u16_max (row (pos g)) count)) limit in
  Some g.

Definition row_dec_clamp (g : Grid) (count : Z) : option Grid :=
  let limit := in_scroll_region g in
  let! (g, _) := row_clamp_top (with_row g (sat_sub (row (pos g)) count)) limit in
  Some g.

Definition restrict_col (g : Grid) : option Grid := col_clamp g.

Definition row_set (g : Grid) (i : Z) : option Grid := row_clamp (with_row g i).

Definition col_inc (g : Grid) (count : Z) : Grid := with_col g (sat_add u16_max (col (pos g)) count).

Definition col_inc_clamp (g : Grid) (count : Z) : option Grid := col_clamp (col_inc g count).

Definition col_dec (g : Grid) (count : Z) : Grid := with_col g (sat_sub (col (pos g)) count).

Definition col_dec_restricted (g : Grid) (count : Z) : option Grid :=
  let! g := col_clamp g in Some (col_dec g count).

Definition col_set (g : Grid) (i : Z) : option Grid := col_clamp (with_col g i).

(** ** Loops *)

Fixpoint times {A} (n : nat) (f : A → option A) (x : A) : option A :=
  match n with
  | O => Some x
  | S n => let! x := f x in times n f x
  end.

(** ** Tab stops *)

Definition next_tab (ts : list bool) (start : nat) : option Z :=
  (λ p, Z.of_nat (start + fst p)) <$> list_find (λ b, b = true) (drop start ts).

Definition col_forward_tab (g : Grid) (count : Z) : option Grid :=
  if cols (size g) <=? col (pos g) then Some g
  else
    let! g := times (Z.to_nat count) (λ g,
      let! last_col := u16_sub (cols (size g)) 1 in
      let next := next_tab (tab_stops g) (Z.to_nat (col (pos g)) + 1) in
      let fits := match next with Some c => if c <=? u16_max then Some c else None | None => None end in
      Some (with_col g (default last_col fits))) g in
    col_clamp g.

Definition col_tab (g : Grid) : option Grid := col_forward_tab g 1.

(** The last stop before [e]; looking at a column past the stops panics. *)
Definition prev_tab (ts : list bool) (e : nat) : option (option Z) :=
  if (e <=? length ts)%nat
  then Some ((λ p, Z.of_nat (e - 1 - fst p)) <$> list_find (λ b, b = true) (reverse (take e ts)))
  else None.

Definition col_back_tab (g : Grid) (count : Z) : option Grid :=
  times (Z.to_nat count) (λ g,
    let! last_col := u16_sub (cols (size g)) 1 in
    let! prev := prev_tab (tab_stops g) (Z.to_nat (Z.min (col (pos g)) last_col)) in
    let fits := match prev with Some c => if c <=? u16_max then Some c else None | None => None end in
    Some (with_col g (default 0 fits))) g.

Definition set_tab_stop (g : Grid) : Grid := with_tabs g (<[Z.to_nat (col (pos g)) := true]> (tab_stops g)).
Definition clear_tab_stop (g : Grid) : Grid := with_tabs g (<[Z.to_nat (col (pos g)) := false]> (tab_stops g)).
Definition clear_all_tab_stops (g : Grid) : Grid := with_tabs g ((λ _, false) <$> tab_stops g).

(** ** Reading *)

Definition visible_rows (g : Grid) : list Row :=
  take (length (g_rows g)) (drop (length (scrollback g) - Z.to_nat (scrollback_offset g)) (scrollback g)) ++
  take (length (g_rows g) - Z.to_nat (scrollback_offset g)) (g_rows g).

Definition visible_row (g : Grid) (r : Z) : option Row := visible_rows g !! Z.to_nat r.
Definition drawing_row (g : Grid) (r : Z) : option Row := g_rows g !! Z.to_nat r.
Definition visible_cell (g : Grid) (p : Pos) : option Cell := let! r := visible_row g (row p) in row_get r (col p).
Definition drawing_cell (g : Grid) (p : Pos) : option Cell := let! r := drawing_row g (row p) in row_get r (col p).

(** [drawing_row_mut(..).unwrap()] and [drawing_cell_mut(..).unwrap()] with what is done to
    the row or cell. *)
Definition update_row (g : Grid) (r : Z) (f : Row → option Row) : option Grid :=
  let! x := drawing_row g r in
  let! y := f x in
  Some (with_rows g (<[Z.to_nat r := y]> (g_rows g))).

Definition update_cell (g : Grid) (p : Pos) (f : Cell → option Cell) : option Grid :=
  update_row g (row p) (λ r,
    let! x := row_get r (col p) in
    let! y := f x in
    Some (mkRow (<[Z.to_nat (col p) := y]> (cells r)) (wrapped r))).

Definition update_current_row (g : Grid) (f : Row → option Row) : option Grid := update_row g (row (pos g)) f.

(** ** Scrollback *)

(** Scrollback rows may be narrower than the screen; the ones about to be shown are padded. *)
Definition pad_scrollback_window (g : Grid) : Grid :=
  let n := Z.to_nat (cols (size g)) in
  let shown := Nat.min (Z.to_nat (scrollback_offset g)) (length (scrollback g)) in
  let skip := (length (scrollback g) - shown)%nat in
  let pad r := if (length (cells r) <? n)%nat then mkRow (vec_resize n cell_new (cells r)) (wrapped r) else r in
  let sb := scrollback g in
  with_scrollback g
    (take skip sb ++ (pad <$> take (length (g_rows g)) (drop skip sb)) ++ drop (skip + length (g_rows g)) sb)
    (scrollback_offset g).

Definition set_scrollback (g : Grid) (n : Z) : Grid :=
  pad_scrollback_window (with_scrollback g (scrollback g) (Z.min n (Z.of_nat (length (scrollback g))))).

(** ** Erasing *)

Definition erase_all (g : Grid) (a : Attrs) : Grid :=
  with_rows (with_freed g (freed_rows g + Z.max (rows (size g)) MIN_REARM_ROWS)) ((λ r, row_clear r a) <$> g_rows g).

Definition erase_range (r : Row) (from to : Z) (a : Attrs) : option Row :=
  for_cols (λ r c, row_erase r c a) from (Z.to_nat (to - from)) r.

Definition erase_row_forward (g : Grid) (a : Attrs) : option Grid :=
  update_current_row g (λ r,
    let! r := erase_range r (col (pos g)) (cols (size g)) a in
    Some (if col (pos g) =? 0 then row_wrap r false else r)).

Definition erase_row_backward (g : Grid) (a : Attrs) : option Grid :=
  let! last_col := u16_sub (cols (size g)) 1 in
  update_current_row g (λ r, erase_range r 0 (Z.min (col (pos g)) last_col + 1) a).

Definition erase_all_forward (g : Grid) (a : Attrs) : option Grid :=
  let n := S (Z.to_nat (row (pos g))) in
  erase_row_forward (with_rows g (take n (g_rows g) ++ ((λ r, row_clear r a) <$> drop n (g_rows g)))) a.

Definition erase_all_backward (g : Grid) (a : Attrs) : option Grid :=
  let p := pos g in
  let n := Z.to_nat (row p) in
  let g := with_rows g (((λ r, row_clear r a) <$> take n (g_rows g)) ++ drop n (g_rows g)) in
  let! g := erase_row_backward g a in
  let! g := update_current_row g (λ r, Some (row_wrap r false)) in
  let! next_col := u16_add (col p) 1 in
  if cols (size g) <=? next_col then
    let abs := S (Z.to_nat (row p)) in
    let sb := length (scrollback g) in
    if (abs <? sb)%nat
    then Some (with_scrollback g (alter (λ r, row_wrap r false) abs (scrollback g)) (scrollback_offset g))
    else Some (with_rows g (alter (λ r, row_wrap r false) (abs - sb)%nat (g_rows g)))
  else Some g.

Definition erase_row (g : Grid) (a : Attrs) : option Grid := update_current_row g (λ r, Some (row_clear r a)).

Definition erase_cells (g : Grid) (count : Z) (a : Attrs) : option Grid :=
  update_current_row g (λ r,
    erase_range r (col (pos g)) (Z.min (sat_add u16_max (col (pos g)) count) (cols (size g))) a).

(** ** Inserting and deleting cells *)

Definition row_update (r : Row) (c : Z) (f : Cell → Cell) : option Row :=
  let! x := row_get r c in Some (mkRow (<[Z.to_nat c := f x]> (cells r)) (wrapped r)).

Definition insert_cells (g : Grid) (count : Z) : option Grid :=
  let p := pos g in
  let! wide :=
    (if col p <? cols (size g)
     then let! c := drawing_cell g p in Some (is_wide_continuation c) else Some false) in
  let blank := blank_cell g in
  update_current_row g (λ r,
    let! r := times (Z.to_nat (Z.min count (sat_sub (cols (size g)) (col p)))) (λ r,
      let! r := (if wide then row_update r (col p) (λ c, set_wide_continuation c false) else Some r) in
      let! r := row_insert r (col p) blank in
      if wide then row_update r (col p) (λ c, set_wide_continuation c true) else Some r) r in
    row_truncate r (cols (size g))).

Definition delete_cells (g : Grid) (count : Z) : option Grid :=
  let p := pos g in
  let! avail := u16_sub (cols (size g)) (col p) in
  update_current_row g (λ r,
    let! r := times (Z.to_nat (Z.min count avail)) (λ r, row_remove r (col p)) r in
    Some (row_resize r (cols (size g)) (blank_cell g))).

(** ** Inserting, deleting and scrolling lines *)

Definition insert_lines (g : Grid) (count : Z) : option Grid :=
  let! g := col_clamp g in
  if negb (in_scroll_region g) then Some g
  else
    let g := with_col g 0 in
    let! d := u16_sub (scroll_bottom g) (row (pos g)) in
    let! n := u16_add d 1 in
    times (Z.to_nat (Z.min count n)) (λ g,
      let! (_, rs) := vec_remove (Z.to_nat (scroll_bottom g)) (g_rows g) in
      let! rs := vec_insert (Z.to_nat (row (pos g))) (new_row g) rs in
      Some (with_rows g rs)) g.

Definition delete_lines (g : Grid) (count : Z) : option Grid :=
  let! g := col_clamp g in
  if negb (in_scroll_region g) then Some g
  else
    let g := with_col g 0 in
    let! d := u16_sub (scroll_bottom g) (row (pos g)) in
    let! n := u16_add d 1 in
    times (Z.to_nat (Z.min count n)) (λ g,
      let! rs := vec_insert (Z.to_nat (scroll_bottom g) + 1) (new_row g) (g_rows g) in
      let! (_, rs) := vec_remove (Z.to_nat (row (pos g))) rs in
      Some (with_rows g rs)) g.

(** A row leaving the screen goes to the scrollback, which drops its oldest rows. *)
Definition push_scrollback (g : Grid) (removed : Row) : Grid :=
  let sb := scrollback g ++ [removed] in
  let over := (length sb - Z.to_nat (scrollback_len g))%nat in
  let sb := drop over sb in
  let offset :=
    if 0 <? scrollback_offset g then Z.min (Z.of_nat (length sb)) (scrollback_offset g + 1) else scrollback_offset g in
  with_scrollback (with_freed g (freed_rows g + Z.of_nat over)) sb offset.

Definition scroll_region_up (g : Grid) (count : Z) (feed_scrollback : bool) : option Grid :=
  let! d := u16_sub (scroll_bottom g) (scroll_top g) in
  let! n := u16_add d 1 in
  times (Z.to_nat (Z.min count n)) (λ g,
    let! rs := vec_insert (Z.to_nat (scroll_bottom g) + 1) (new_row g) (g_rows g) in
    let! (removed, rs) := vec_remove (Z.to_nat (scroll_top g)) rs in
    let g := with_rows g rs in
    Some (if feed_scrollback && (0 <? scrollback_len g) && (scroll_top g =? 0)
          then push_scrollback g removed else with_freed g (freed_rows g + 1))) g.

Definition scroll_up (g : Grid) (count : Z) : option Grid := scroll_region_up g count true.
Definition scroll_up_discard (g : Grid) (count : Z) : option Grid := scroll_region_up g count false.

Definition scroll_down (g : Grid) (count : Z) (bce : bool) : option Grid :=
  let! d := u16_sub (scroll_bottom g) (scroll_top g) in
  let! n := u16_add d 1 in
  times (Z.to_nat (Z.min count n)) (λ g,
    let! (_, rs) := vec_remove (Z.to_nat (scroll_bottom g)) (g_rows g) in
    let blank := if bce then new_row g else row_new (cols (size g)) in
    let! rs := vec_insert (Z.to_nat (scroll_top g)) blank rs in
    Some (with_rows g rs)) g.

Definition set_scroll_region (g : Grid) (top bottom : Z) : option Grid :=
  let! m := u16_sub (rows (size g)) 1 in
  let bottom := Z.min bottom m in
  Some (if top <? bottom
        then with_pos (with_region g top bottom) (mkPos (if origin_mode g then top else 0) 0) else g).

(** 1-based, or [(0, 0)] for the whole screen. *)
Definition scroll_region (g : Grid) : option (Z * Z) :=
  let! m := u16_sub (rows (size g)) 1 in
  if (scroll_top g =? 0) && (scroll_bottom g =? m) then Some (0, 0)
  else
    let! t := u16_add (scroll_top g) 1 in
    let! b := u16_add (scroll_bottom g) 1 in
    Some (t, b).

Definition row_inc_scroll (g : Grid) (count : Z) : option (Grid * Z) :=
  let limit := in_scroll_region g in
  let! (g, lines) := row_clamp_bottom (with_row g (sat_add u16_max (row (pos g)) count)) limit in
  if limit then let! g := scroll_up g lines in Some (g, lines) else Some (g, 0).

Definition line_feed (g : Grid) : option Grid :=
  let before := row (pos g) in
  let! (g, scrolled) := row_inc_scroll g 1 in
  let! g :=
    (if scrolled =? 0 then
       let! next := u16_add before 1 in
       if row (pos g) =? next then update_current_row g (λ r, Some (row_wrap r false)) else Some g
     else Some g) in
  col_clamp g.

Definition reverse_index (g : Grid) : option Grid :=
  let! g := col_clamp g in
  if row (pos g) =? scroll_top g then scroll_down g 1 true
  else Some (with_row g (sat_sub (row (pos g)) 1)).

Definition col_wrap (g : Grid) (width : Z) : option Grid :=
  let! m := u16_sub (cols (size g)) width in
  if m <? col (pos g) then
    let! (g, _) := row_inc_scroll (with_col g 0) 1 in
    update_current_row g (λ r, Some (row_wrap r true))
  else Some g.

(** ** Resets *)

Section Width.
Context `{!UnicodeWidth}.

Fixpoint set_all (cs : list Cell) (ch : Z) (a : Attrs) : option (list Cell) :=
  match cs with
  | [] => Some []
  | c :: cs => let! c := set c ch a in let! cs := set_all cs ch a in Some (c :: cs)
  end.

Fixpoint align_rows (rs : list Row) : option (list Row) :=
  match rs with
  | [] => Some []
  | r :: rs =>
      let! cs := set_all (cells (row_clear r attrs_default)) 69 attrs_default in
      let! rs := align_rows rs in
      Some (mkRow cs false :: rs)
  end.

(** DECALN: the screen filled with [E]. *)
Definition align_test (g : Grid) : option Grid :=
  let! bottom := u16_sub (rows (size g)) 1 in
  let! rs := align_rows (g_rows g) in
  Some (with_rows (with_pos (with_origin (with_region g 0 bottom) false) pos_default) rs).

End Width.

Definition soft_reset (g : Grid) : option Grid :=
  let! bottom := u16_sub (rows (size g)) 1 in
  Some (with_saved (with_origin (with_region g 0 bottom) false) pos_default false false).

(** ** The invariant *)

Record grid_ok (g : Grid) : Prop := {
  go_rows : 1 ≤ rows (size g) ≤ u16_max;
  go_cols : 1 ≤ cols (size g) < u16_max;
  go_len : length (g_rows g) = Z.to_nat (rows (size g));
  go_cells : Forall (row_ok (Z.to_nat (cols (size g)))) (g_rows g);
  go_row : 0 ≤ row (pos g) < rows (size g);
  go_col : 0 ≤ col (pos g) ≤ cols (size g);
  go_saved_row : 0 ≤ row (saved_pos g) < rows (size g);
  go_saved_col : 0 ≤ col (saved_pos g) ≤ cols (size g);
  go_region : 0 ≤ scroll_top g ∧ scroll_top g ≤ scroll_bottom g < rows (size g);
  go_scrollback : Forall (λ r, ∃ n, (n ≤ Z.to_nat (cols (size g)))%nat ∧ row_ok n r) (scrollback g);
  go_offset : 0 ≤ scrollback_offset g ≤ Z.of_nat (length (scrollback g));
  go_bound : Z.of_nat (length (scrollback g)) ≤ scrollback_len g;
  go_tabs : length (tab_stops g) = Z.to_nat (cols (size g));
}.

(** An operation on [g] that does not panic, keeps the invariant and does not resize. *)
Definition safe (g : Grid) (o : option Grid) : Prop :=
  ∃ g', o = Some g' ∧ grid_ok g' ∧ size g' = size g ∧ scrollback_len g' = scrollback_len g.

Lemma safe_some g g' :
  grid_ok g' → size g' = size g → scrollback_len g' = scrollback_len g → safe g (Some g').
Proof. intros. by exists g'. Qed.

Lemma safe_bind g (o : option Grid) (k : Grid → option Grid) :
  safe g o → (∀ g', grid_ok g' → size g' = size g → safe g' (k g')) → safe g (let! x := o in k x).
Proof.
  intros (g1 & -> & Hok & Hs & Hl) Hk. destruct (Hk g1 Hok Hs) as (g2 & Ho & Hok2 & Hs2 & Hl2).
  exists g2. split; [done|]. split; [done|]. split; congruence.
Qed.

Lemma safe_times g n (f : Grid → option Grid) :
  grid_ok g → (∀ g', grid_ok g' → size g' = size g → safe g' (f g')) → safe g (times n f g).
Proof.
  revert g. induction n as [|n IH]; intros g Hok Hf; [by apply safe_some|].
  simpl. apply safe_bind; [by apply Hf|]. intros g' Hok' Hs. apply IH; [done|].
  intros g2 Hok2 Hs2. apply Hf; [done|congruence].
Qed.

(** *** Changing one part *)

Lemma ok_pos g p :
  grid_ok g → 0 ≤ row p < rows (size g) → 0 ≤ col p ≤ cols (size g) → grid_ok (with_pos g p).
Proof. by intros [] ? ?. Qed.

Lemma ok_col g c : grid_ok g → 0 ≤ c ≤ cols (size g) → grid_ok (with_col g c).
Proof. intros Hg Hc. by apply ok_pos; [done|apply Hg|]. Qed.

Lemma ok_row g r : grid_ok g → 0 ≤ r < rows (size g) → grid_ok (with_row g r).
Proof. intros Hg Hc. by apply ok_pos; [done| |apply Hg]. Qed.

Lemma ok_rows g rs :
  grid_ok g → length rs = length (g_rows g) → Forall (row_ok (Z.to_nat (cols (size g)))) rs → grid_ok (with_rows g rs).
Proof. intros [] Hl Hf. split; simpl; try done. congruence. Qed.

Lemma ok_freed g n : grid_ok g → grid_ok (with_freed g n).
Proof. by intros []. Qed.

Lemma ok_origin g om : grid_ok g → grid_ok (with_origin g om).
Proof. by intros []. Qed.

Lemma ok_region g t b : grid_ok g → 0 ≤ t ≤ b → b < rows (size g) → grid_ok (with_region g t b).
Proof. intros [] ? ?. split; simpl; try done. lia. Qed.

Lemma ok_tabs g ts : grid_ok g → length ts = length (tab_stops g) → grid_ok (with_tabs g ts).
Proof. intros [] Hl. split; simpl; try done. congruence. Qed.

Lemma ok_blank g a : grid_ok g → grid_ok (set_blank_attrs g a).
Proof. by intros []. Qed.

Lemma ok_saved g p b om :
  grid_ok g → 0 ≤ row p < rows (size g) → 0 ≤ col p ≤ cols (size g) → grid_ok (with_saved g p b om).
Proof. by intros [] ? ?. Qed.

Lemma ok_scrollback g sb off :
  grid_ok g → Forall (λ r, ∃ n, (n ≤ Z.to_nat (cols (size g)))%nat ∧ row_ok n r) sb →
  0 ≤ off ≤ Z.of_nat (length sb) → Z.of_nat (length sb) ≤ scrollback_len g → grid_ok (with_scrollback g sb off).
Proof. by intros [] ? ? ?. Qed.

#[export] Hint Resolve ok_freed ok_origin ok_blank : tymux.

Lemma new_row_ok g : row_ok (Z.to_nat (cols (size g))) (new_row g).
Proof. unfold new_row. destruct (bool_decide _); [apply row_new_ok|]. apply row_clear_ok, row_new_ok. Qed.

Lemma pos_default_ok g : grid_ok g → 0 ≤ row pos_default < rows (size g) ∧ 0 ≤ col pos_default ≤ cols (size g).
Proof. intros []. simpl. lia. Qed.

(** *** The cursor *)

Lemma col_clamp_safe g c :
  grid_ok g → 0 ≤ c → safe g (col_clamp (with_col g c)).
Proof.
  intros Hg Hc. pose proof (go_cols _ Hg). unfold col_clamp. simpl. rewrite u16_sub_ok by lia.
  apply safe_some; [|by destruct (_ <? _)..].
  destruct (Z.ltb_spec (cols (size g) - 1) c); simpl; [|apply ok_col; [done|lia]].
  apply (ok_pos g (mkPos (row (pos g)) (cols (size g) - 1))); simpl; [done|apply Hg|lia].
Qed.

Lemma with_pos_same g : with_pos g (pos g) = g.
Proof. by destruct g. Qed.

Lemma with_col_same g : with_col g (col (pos g)) = g.
Proof. by destruct g as [? ? []]. Qed.

Lemma col_clamp_safe_self g : grid_ok g → safe g (col_clamp g).
Proof. intros Hg. rewrite <- (with_col_same g) at 2. apply col_clamp_safe; [done|apply Hg]. Qed.
