(* ===== verification/VtGridInv.v ===== *)
(** * Safety of the grid operations

    Every operation of [VtGrid] on a well-formed grid returns (no panic) and keeps the grid
    well formed. *)

From S2P Require Import Prelude VtCell VtRow VtGrid.

(** ** The cursor *)

Lemma row_clamp_top_eq g r limit :
  0 ≤ r → row_clamp_top (with_row g r) limit =
    Some (with_row g (if limit then Z.max r (scroll_top g) else r), if limit then Z.max 0 (scroll_top g - r) else 0).
Proof.
  intros Hr. unfold row_clamp_top. simpl. destruct limit; simpl; [|done].
  destruct (Z.ltb_spec r (scroll_top g)).
  - rewrite u16_sub_ok by lia. by rewrite !Z.max_r by lia.
  - by rewrite !Z.max_l by lia.
Qed.

Definition bottom_of (g : Grid) (limit : bool) : Z := if limit then scroll_bottom g else rows (size g) - 1.

Lemma row_clamp_bottom_eq g r limit :
  1 ≤ rows (size g) → row_clamp_bottom (with_row g r) limit =
    Some (with_row g (Z.min r (bottom_of g limit)), Z.max 0 (r - bottom_of g limit)).
Proof.
  intros Hg. unfold row_clamp_bottom, bottom_of. simpl.
  rewrite (u16_sub_ok (rows (size g)) 1) by lia. destruct limit.
  - destruct (Z.ltb_spec (scroll_bottom g) r); [rewrite u16_sub_ok by lia|];
      [by rewrite Z.min_r, Z.max_r by lia|by rewrite Z.min_l, Z.max_l by lia].
  - destruct (Z.ltb_spec (rows (size g) - 1) r); [rewrite u16_sub_ok by lia|];
      [by rewrite Z.min_r, Z.max_r by lia|by rewrite Z.min_l, Z.max_l by lia].
Qed.

Lemma bottom_of_range g limit : grid_ok g → 0 ≤ bottom_of g limit < rows (size g).
Proof. intros []. unfold bottom_of. destruct limit; lia. Qed.

Lemma set_pos_safe g p : grid_ok g → 0 ≤ row p → 0 ≤ col p → safe g (set_pos g p).
Proof.
  intros Hg Hr Hc. pose proof (go_region _ Hg) as Ht. unfold set_pos.
  set (q := if origin_mode g then _ else p).
  assert (Hq : 0 ≤ row q ∧ col q = col p).
  { unfold q. destruct (origin_mode g); simpl; unfold sat_add, u16_max; lia. }
  change (origin_mode (with_pos g q)) with (origin_mode g).
  replace (with_pos g q) with (with_row (with_pos g (mkPos (row (pos g)) (col q))) (row q)) by (by destruct q).
  set (g1 := with_pos g (mkPos (row (pos g)) (col q))).
  rewrite row_clamp_top_eq by lia. set (r1 := if origin_mode g then Z.max (row q) (scroll_top g1) else row q).
  change (origin_mode (with_row g1 r1)) with (origin_mode g).
  rewrite row_clamp_bottom_eq by apply (go_rows _ Hg).
  change (bottom_of g1 (origin_mode g)) with (bottom_of g (origin_mode g)).
  pose proof (bottom_of_range g (origin_mode g) Hg) as Hbr.
  assert (Hg2 : grid_ok (with_row g (Z.min r1 (bottom_of g (origin_mode g))))).
  { apply ok_row; [done|]. unfold r1. change (scroll_top g1) with (scroll_top g). destruct (origin_mode g); lia. }
  destruct (col_clamp_safe _ (col q) Hg2) as (g' & Hs & Hok & Hsz & Hl); [lia|]. exists g'. done.
Qed.

Lemma restore_cursor_safe g : grid_ok g → safe g (restore_cursor g).
Proof.
  intros Hg. unfold restore_cursor.
  set (g1 := with_origin (with_pos g (mkPos (row (saved_pos g)) 0)) (saved_origin_mode g)).
  assert (Hg1 : grid_ok g1).
  { apply ok_origin, ok_pos; simpl; [done|apply Hg|]. pose proof (go_cols _ Hg). lia. }
  destruct (col_clamp_safe g1 (col (saved_pos g)) Hg1) as (g' & Hs & Hok & Hsz & Hl); [apply Hg|].
  exists g'. split; [|done]. rewrite <- Hs. by destruct (saved_pos g).
Qed.

Lemma save_cursor_ok g : grid_ok g → grid_ok (save_cursor g).
Proof. intros Hg. apply ok_saved; [done|apply Hg..]. Qed.

Lemma row_inc_clamp_safe g n : grid_ok g → 0 ≤ n → safe g (row_inc_clamp g n).
Proof.
  intros Hg Hn. unfold row_inc_clamp. rewrite row_clamp_bottom_eq by apply (go_rows _ Hg).
  apply safe_some; try done. apply ok_row; [done|].
  pose proof (bottom_of_range g (in_scroll_region g) Hg). pose proof (go_row _ Hg). unfold sat_add, u16_max. lia.
Qed.

Lemma row_dec_clamp_safe g n : grid_ok g → 0 ≤ n → safe g (row_dec_clamp g n).
Proof.
  intros Hg Hn. unfold row_dec_clamp. rewrite row_clamp_top_eq by (unfold sat_sub; lia).
  apply safe_some; try done. apply ok_row; [done|].
  pose proof (go_region _ Hg). pose proof (go_row _ Hg). unfold sat_sub. destruct (in_scroll_region g); lia.
Qed.

Lemma row_set_safe g i : grid_ok g → 0 ≤ i → safe g (row_set g i).
Proof.
  intros Hg Hi. pose proof (go_rows _ Hg). unfold row_set, row_clamp. simpl. rewrite u16_sub_ok by lia.
  apply safe_some; [|by destruct (_ <? _)..].
  destruct (Z.ltb_spec (rows (size g) - 1) i); [apply (ok_row g)|apply ok_row]; try done; lia.
Qed.

Lemma col_inc_clamp_safe g n : grid_ok g → 0 ≤ n → safe g (col_inc_clamp g n).
Proof.
  intros Hg Hn. apply col_clamp_safe; [done|]. pose proof (go_col _ Hg). unfold sat_add, u16_max. lia.
Qed.

Lemma col_dec_safe g n : grid_ok g → 0 ≤ n → grid_ok (col_dec g n).
Proof. intros Hg Hn. apply ok_col; [done|]. pose proof (go_col _ Hg). unfold sat_sub. lia. Qed.

Lemma col_dec_restricted_safe g n : grid_ok g → 0 ≤ n → safe g (col_dec_restricted g n).
Proof.
  intros Hg Hn. apply safe_bind; [by apply col_clamp_safe_self|]. intros g' Hg' _.
  by apply safe_some; [apply col_dec_safe|..].
Qed.

Lemma col_set_safe g i : grid_ok g → 0 ≤ i → safe g (col_set g i).
Proof. apply col_clamp_safe. Qed.

Lemma set_origin_mode_safe g m : grid_ok g → safe g (set_origin_mode g m).
Proof.
  intros Hg. destruct (set_pos_safe (with_origin g m) (mkPos 0 0)) as (g' & ? & ? & ? & ?); [by apply ok_origin|done..|].
  by exists g'.
Qed.

(** ** Tab stops *)

Lemma next_tab_range ts start c : next_tab ts start = Some c → Z.of_nat start ≤ c < Z.of_nat (length ts).
Proof.
  unfold next_tab. intros Hc. apply fmap_Some in Hc as ([i b] & Hf & ->).
  apply list_find_Some in Hf as (Hi & _ & _). simpl. apply lookup_lt_Some in Hi. rewrite length_drop in Hi. lia.
Qed.

Lemma col_forward_tab_safe g n : grid_ok g → safe g (col_forward_tab g n).
Proof.
  intros Hg. unfold col_forward_tab. destruct (_ <=? _); [by apply safe_some|].
  apply safe_bind; [|by intros g' Hg' _; apply col_clamp_safe_self].
  apply safe_times; [done|]. intros g' Hg' _. pose proof (go_cols _ Hg'). rewrite u16_sub_ok by lia.
  apply safe_some; try done. apply ok_col; [done|].
  destruct (next_tab _ _) as [c|] eqn:Hn; [|simpl; lia]. apply next_tab_range in Hn. rewrite (go_tabs _ Hg') in Hn.
  destruct (c <=? u16_max); simpl; lia.
Qed.

Lemma prev_tab_range ts e : (e ≤ length ts)%nat →
  ∃ o, prev_tab ts e = Some o ∧ ∀ c, o = Some c → 0 ≤ c < Z.of_nat e.
Proof.
  intros He. unfold prev_tab. rewrite (proj2 (Nat.leb_le _ _)) by done. eexists. split; [done|].
  intros c Hc. apply fmap_Some in Hc as ([i b] & Hf & ->). apply list_find_Some in Hf as (Hi & _ & _).
  apply lookup_lt_Some in Hi. rewrite length_reverse, length_take in Hi. simpl. lia.
Qed.

Lemma col_back_tab_safe g n : grid_ok g → safe g (col_back_tab g n).
Proof.
  intros Hg. apply safe_times; [done|]. intros g' Hg' _. pose proof (go_cols _ Hg'). pose proof (go_col _ Hg').
  rewrite u16_sub_ok by lia.
  destruct (prev_tab_range (tab_stops g') (Z.to_nat (Z.min (col (pos g')) (cols (size g') - 1)))) as (o & -> & Ho).
  { rewrite (go_tabs _ Hg'). lia. }
  apply safe_some; try done. apply ok_col; [done|].
  destruct o as [c|]; [|simpl; lia]. specialize (Ho c eq_refl). destruct (c <=? u16_max); simpl; lia.
Qed.

Lemma set_tab_stop_ok g : grid_ok g → grid_ok (set_tab_stop g).
Proof. intros Hg. apply ok_tabs; [done|]. apply length_insert. Qed.
Lemma clear_tab_stop_ok g : grid_ok g → grid_ok (clear_tab_stop g).
Proof. intros Hg. apply ok_tabs; [done|]. apply length_insert. Qed.
Lemma clear_all_tab_stops_ok g : grid_ok g → grid_ok (clear_all_tab_stops g).
Proof. intros Hg. apply ok_tabs; [done|]. apply length_fmap. Qed.

(** ** Rows *)

Lemma get_row g r : grid_ok g → 0 ≤ r < rows (size g) →
  ∃ x, drawing_row g r = Some x ∧ row_ok (Z.to_nat (cols (size g))) x.
Proof.
  intros Hg Hr. destruct (lookup_lt_is_Some_2 (g_rows g) (Z.to_nat r)) as [x Hx].
  { rewrite (go_len _ Hg). lia. }
  exists x. split; [done|]. pose proof (go_cells _ Hg) as Hc. rewrite Forall_forall in Hc. apply Hc.
  by apply list_elem_of_lookup_2 in Hx.
Qed.

Lemma update_row_safe g r f :
  grid_ok g → 0 ≤ r < rows (size g) →
  (∀ x, row_ok (Z.to_nat (cols (size g))) x → ∃ y, f x = Some y ∧ row_ok (Z.to_nat (cols (size g))) y) →
  safe g (update_row g r f).
Proof.
  intros Hg Hr Hf. destruct (get_row g r Hg Hr) as (x & Hx & Hok). unfold update_row. rewrite Hx.
  destruct (Hf x Hok) as (y & -> & Hy). apply safe_some; try done.
  apply ok_rows; [done|apply length_insert|]. apply Forall_insert; [apply Hg|done].
Qed.

Lemma update_current_row_safe g f :
  grid_ok g →
  (∀ x, row_ok (Z.to_nat (cols (size g))) x → ∃ y, f x = Some y ∧ row_ok (Z.to_nat (cols (size g))) y) →
  safe g (update_current_row g f).
Proof. intros Hg. apply update_row_safe; [done|apply Hg]. Qed.

Lemma wrap_safe g w : grid_ok g → safe g (update_current_row g (λ r, Some (row_wrap r w))).
Proof. intros Hg. apply update_current_row_safe; [done|]. intros x Hx. eexists. split; [done|]. by apply row_wrap_ok. Qed.

Lemma clear_rows_ok n rs a : Forall (row_ok n) rs → Forall (row_ok n) ((λ r, row_clear r a) <$> rs).
Proof. intros H. apply Forall_fmap. eapply Forall_impl; [exact H|]. intros r Hr. by apply row_clear_ok. Qed.

Lemma erase_all_ok g a : grid_ok g → grid_ok (erase_all g a).
Proof.
  intros Hg. apply ok_rows; [by apply ok_freed|apply length_fmap|]. apply clear_rows_ok, Hg.
Qed.

Lemma grid_clear_safe g : grid_ok g → safe g (grid_clear g).
Proof.
  intros Hg. pose proof (go_rows _ Hg). unfold grid_clear. rewrite u16_sub_ok by lia. apply safe_some; try done.
  apply ok_origin, ok_region; simpl; [|lia..]. apply ok_rows; simpl; [|apply length_fmap|apply clear_rows_ok, Hg].
  destruct (pos_default_ok g Hg). apply ok_saved; [apply ok_pos; [by apply ok_freed|done..]|done..].
Qed.

(** ** Erasing *)

Lemma erase_range_ok n r from to a :
  row_ok n r → 0 ≤ from → to ≤ Z.of_nat n → Z.of_nat n ≤ u16_max →
  ∃ r', erase_range r from to a = Some r' ∧ row_ok n r' ∧ wrapped r' = wrapped r.
Proof.
  intros Hr Hf Ht Hmax. unfold erase_range. remember (Z.to_nat (to - from)) as k eqn:Hk.
  revert r from Hr Hf Hk. induction k as [|k IH]; intros r from Hr Hf Hk; simpl; [by exists r|].
  destruct (row_erase_ok n r from a Hr) as (r1 & -> & Hr1 & Hw); [lia|done|].
  destruct (IH r1 (from + 1) Hr1) as (r2 & -> & Hr2 & Hw2); [lia..|]. exists r2. by rewrite Hw2.
Qed.

Lemma erase_row_forward_safe g a : grid_ok g → safe g (erase_row_forward g a).
Proof.
  intros Hg. pose proof (go_col _ Hg). pose proof (go_cols _ Hg). apply update_current_row_safe; [done|]. intros x Hx.
  destruct (erase_range_ok _ x (col (pos g)) (cols (size g)) a Hx) as (y & -> & Hy & _); [lia..|].
  eexists. split; [done|]. destruct (_ =? _); [by apply row_wrap_ok|done].
Qed.

Lemma erase_row_backward_safe g a : grid_ok g → safe g (erase_row_backward g a).
Proof.
  intros Hg. pose proof (go_col _ Hg). pose proof (go_cols _ Hg). unfold erase_row_backward. rewrite u16_sub_ok by lia.
  apply update_current_row_safe; [done|]. intros x Hx.
  destruct (erase_range_ok _ x 0 (Z.min (col (pos g)) (cols (size g) - 1) + 1) a Hx) as (y & -> & Hy & _); [lia..|].
  by exists y.
Qed.

Lemma split_rows_ok n rs k (f h : Row → Row) :
  Forall (row_ok n) rs → (∀ r, row_ok n r → row_ok n (f r)) → (∀ r, row_ok n r → row_ok n (h r)) →
  Forall (row_ok n) ((f <$> take k rs) ++ (h <$> drop k rs)) ∧
  length ((f <$> take k rs) ++ (h <$> drop k rs)) = length rs.
Proof.
  intros Hrs Hf Hh. split.
  - apply Forall_app. split; apply Forall_fmap; (eapply Forall_impl; [apply Forall_take || apply Forall_drop; exact Hrs|]); done.
  - rewrite length_app, !length_fmap, <- length_app. by rewrite take_drop.
Qed.

Lemma erase_all_forward_safe g a : grid_ok g → safe g (erase_all_forward g a).
Proof.
  intros Hg. unfold erase_all_forward. set (n := S _).
  destruct (split_rows_ok _ _ n id (λ r, row_clear r a) (go_cells _ Hg)) as [Hf Hl]; [done|by intros; apply row_clear_ok|].
  rewrite list_fmap_id in Hf, Hl. set (rs := _ ++ _) in *.
  destruct (erase_row_forward_safe (with_rows g rs) a) as (g' & ? & ? & ? & ?); [by apply ok_rows|]. by exists g'.
Qed.

Lemma alter_rows_ok n rs i f :
  Forall (row_ok n) rs → (∀ r, row_ok n r → row_ok n (f r)) → Forall (row_ok n) (alter f i rs).
Proof. intros Hrs Hf. apply Forall_alter; [done|]. intros x Hx ?. by apply Hf. Qed.

Lemma erase_all_backward_safe g a : grid_ok g → safe g (erase_all_backward g a).
Proof.
  intros Hg. unfold erase_all_backward. set (n := Z.to_nat _).
  destruct (split_rows_ok _ _ n (λ r, row_clear r a) id (go_cells _ Hg)) as [Hf Hl]; [by intros; apply row_clear_ok|done|].
  rewrite list_fmap_id in Hf, Hl. set (rs := _ ++ _) in *. set (g1 := with_rows g rs).
  assert (Hg1 : grid_ok g1) by (by apply ok_rows).
  assert (Hp : col (pos g) + 1 ≤ u16_max) by (pose proof (go_col _ Hg); pose proof (go_cols _ Hg); lia).
  rewrite u16_add_ok by done.
  assert (Hsafe : safe g1 (let! g0 := erase_row_backward g1 a in
    let! g2 := update_current_row g0 (λ r, Some (row_wrap r false)) in
    if cols (size g2) <=? col (pos g) + 1
    then if (S n <? length (scrollback g2))%nat
         then Some (with_scrollback g2 (alter (λ r, row_wrap r false) (S n) (scrollback g2)) (scrollback_offset g2))
         else Some (with_rows g2 (alter (λ r, row_wrap r false) (S n - length (scrollback g2))%nat (g_rows g2)))
    else Some g2)).
  { apply safe_bind; [by apply erase_row_backward_safe|]. intros g2 Hg2 Hs2.
    apply safe_bind; [by apply wrap_safe|]. intros g3 Hg3 Hs3.
    destruct (_ <=? _); [|by apply safe_some]. destruct (_ <? _)%nat; apply safe_some; try done.
    - apply ok_scrollback; rewrite ?length_alter; [done| |apply Hg3..].
      apply Forall_alter; [apply Hg3|]. intros x _ (m & Hm & Hr). exists m. split; [done|]. by apply row_wrap_ok.
    - apply ok_rows; [done|apply length_alter|]. apply alter_rows_ok; [apply Hg3|]. intros. by apply row_wrap_ok. }
  destruct Hsafe as (g' & ? & ? & ? & ?). by exists g'.
Qed.

Lemma erase_row_safe g a : grid_ok g → safe g (erase_row g a).
Proof.
  intros Hg. apply update_current_row_safe; [done|]. intros x Hx. eexists. split; [done|]. by apply row_clear_ok.
Qed.

Lemma erase_cells_safe g n a : grid_ok g → safe g (erase_cells g n a).
Proof.
  intros Hg. pose proof (go_col _ Hg). pose proof (go_cols _ Hg). apply update_current_row_safe; [done|]. intros x Hx.
  destruct (erase_range_ok _ x (col (pos g)) (Z.min (sat_add u16_max (col (pos g)) n) (cols (size g))) a Hx)
    as (y & -> & Hy & _); [lia..|]. by exists y.
Qed.

(** ** Cells *)

Lemma delete_cells_safe g n : grid_ok g → safe g (delete_cells g n).
Proof.
  intros Hg. pose proof (go_col _ Hg). pose proof (go_cols _ Hg). unfold delete_cells. rewrite u16_sub_ok by lia.
  apply update_current_row_safe; [done|]. intros x Hx.
  set (m := Z.to_nat (cols (size g))) in *. set (k := Z.to_nat (Z.min n (cols (size g) - col (pos g)))).
  assert (Hrem : ∀ j r, (k = j + (k - j))%nat → row_ok (m - (k - j)) r →
    ∃ y, times j (λ r, row_remove r (col (pos g))) r = Some y ∧ row_ok (m - k) y).
  { induction j as [|j IH]; intros r Hk Hr; simpl.
    - exists r. by replace (m - (k - 0))%nat with (m - k)%nat in Hr by lia.
    - destruct (row_remove_ok (m - (k - j)) r (col (pos g))) as (y & -> & Hy & _).
      + by replace (S (m - (k - j))) with (m - (k - S j))%nat by (unfold m, k in *; lia).
      + unfold m, k in *. lia.
      + unfold m, k in *. lia.
      + apply IH; [lia|done]. }
  destruct (Hrem k x) as (y & -> & Hy); [lia|by replace (m - (k - k))%nat with m by lia|].
  eexists. split; [done|]. replace (cols (size g)) with (Z.of_nat m) by (unfold m; lia).
  apply (row_resize_ok (m - k)); [done|lia|done|]. apply clear_ok, cell_new_ok.
Qed.

Lemma blank_cell_ok g : cell_ok (blank_cell g) ∧ plain (blank_cell g).
Proof. split; [|done]. apply clear_ok, cell_new_ok. Qed.

(** A row whose column [n] is the boundary between two characters ([inside = false]), or
    inside a wide one. *)
Definition opens_at (inside : bool) (n m : nat) (r : Row) : Prop :=
  length (cells r) = m ∧ Forall cell_ok (cells r) ∧
  if inside then ∃ a c d b, cells r = a ++ c :: d :: b ∧ S (length a) = n ∧ paired a ∧ first_half c ∧ second_half d ∧ paired b
  else ∃ a b, cells r = a ++ b ∧ length a = n ∧ paired a ∧ paired b.

Lemma opens_at_row_ok inside n m r : opens_at inside n m r → row_ok m r.
Proof.
  intros (Hl & Hc & Ho). split; [done| |done]. destruct inside.
  - destruct Ho as (a & c & d & b & -> & _ & Ha & Hf & Hs & Hb). apply paired_app; [done|]. by constructor.
  - destruct Ho as (a & b & -> & _ & Ha & Hb). by apply paired_app.
Qed.

(** One inserted blank. *)
Definition insert_blank (inside : bool) (p : Z) (blank : Cell) (r : Row) : option Row :=
  let! r := (if inside then row_update r p (λ c, set_wide_continuation c false) else Some r) in
  let! r := row_insert r p blank in
  if inside then row_update r p (λ c, set_wide_continuation c true) else Some r.

Lemma vec_insert_middle {A} (a : list A) x b : vec_insert (length a) x (a ++ b) = Some (a ++ x :: b).
Proof.
  unfold vec_insert. rewrite length_app, (proj2 (Nat.leb_le _ _)) by lia. by rewrite take_app_length, drop_app_length.
Qed.

Lemma row_update_middle a x b w p f :
  Z.to_nat p = length a → row_update (mkRow (a ++ x :: b) w) p f = Some (mkRow (a ++ f x :: b) w).
Proof.
  intros Hp. unfold row_update, row_get. rewrite Hp. cbn [cells wrapped]. rewrite list_lookup_middle by done.
  by rewrite insert_middle.
Qed.

Lemma insert_blank_ok inside p m r blank :
  cell_ok blank → plain blank → 0 ≤ p → opens_at inside (Z.to_nat p) m r →
  ∃ r', insert_blank inside p blank r = Some r' ∧ opens_at inside (Z.to_nat p) (S m) r'.
Proof.
  intros Hok Hpl Hp (Hl & Hc & Ho). destruct r as [cs w]. simpl in *. unfold insert_blank. destruct inside.
  - destruct Ho as (a & c & d & b & -> & Hn & Ha & Hf & Hs & Hb).
    rewrite Forall_app, !Forall_cons in Hc. destruct Hc as (Hca & Hcc & Hcd & Hcb). rewrite length_app in Hl. simpl in Hl.
    assert (Hlen : Z.to_nat p = length (a ++ [c])) by (rewrite length_app; simpl; lia).
    change (a ++ c :: d :: b) with (a ++ [c] ++ d :: b). rewrite app_assoc, row_update_middle by done.
    unfold row_insert. rewrite Hlen. cbn [cells wrapped]. rewrite vec_insert_middle.
    rewrite row_update_middle by done. eexists. split; [done|].
    destruct (set_wide_continuation_ok d false Hcd) as (Hd1 & Hd2 & Hd3).
    destruct (set_wide_continuation_ok blank true Hok) as (Hb1 & Hb2 & Hb3).
    split; [cbn [cells]; rewrite !length_app; simpl; lia|]. split; cbn [cells].
    + rewrite !Forall_app, !Forall_cons, Forall_nil. split_and!; done.
    + exists a, c, (set_wide_continuation blank true), (set_wide_continuation d false :: b).
      rewrite <- app_assoc. split; [done|]. split; [rewrite length_app; simpl; lia|]. split; [done|]. split; [done|].
      destruct Hpl as [Hw _], Hs as [Hdw _]. split; [split; congruence|]. constructor; [|done]. split; congruence.
  - destruct Ho as (a & b & -> & Hn & Ha & Hb). unfold row_insert. rewrite <- Hn. cbn [cells wrapped].
    rewrite vec_insert_middle. eexists. split; [done|]. apply Forall_app in Hc as [Hca Hcb].
    rewrite length_app in Hl. split; [cbn [cells]; rewrite length_app; simpl; lia|]. split; cbn [cells].
    + apply Forall_app. split; [done|]. by constructor.
    + exists a, (blank :: b). split; [done|]. split; [done|]. split; [done|]. by constructor.
Qed.

Lemma insert_blanks_ok inside p k m r blank :
  cell_ok blank → plain blank → 0 ≤ p → opens_at inside (Z.to_nat p) m r →
  ∃ r', times k (insert_blank inside p blank) r = Some r' ∧ row_ok (m + k) r'.
Proof.
  intros Hok Hpl Hp. revert m r. induction k as [|k IH]; intros m r Ho; simpl.
  - exists r. rewrite Nat.add_0_r. split; [done|]. by eapply opens_at_row_ok.
  - destruct (insert_blank_ok inside p m r blank) as (r1 & -> & Ho1); [done..|].
    destruct (IH _ _ Ho1) as (r2 & -> & Hr2). exists r2. split; [done|]. by rewrite <- Nat.add_succ_comm.
Qed.

(** Which of the two a column is: the test [insert_cells] makes. *)
Lemma opens_at_col n r p :
  row_ok n r → 0 ≤ p ≤ Z.of_nat n →
  opens_at (match cells r !! Z.to_nat p with Some c => is_wide_continuation c | None => false end) (Z.to_nat p) n r.
Proof.
  intros [Hl Hp Hc] Hpn. split; [done|]. split; [done|].
  destruct (paired_split (cells r) (Z.to_nat p) Hp) as
    [(a & b & E & Hn & Ha & Hb)|(a & c & d & b & E & Hn & Ha & Hf & Hs & Hb)]; [lia|..]; rewrite E.
  - rewrite <- Hn, lookup_app_r, Nat.sub_diag by lia.
    assert (Hnc : match b !! 0%nat with Some c => is_wide_continuation c | None => false end = false).
    { destruct Hb as [|x l Hx _|x y l Hx _ _]; [done|apply Hx|apply Hx]. }
    rewrite Hnc. eauto 10.
  - rewrite <- Hn, lookup_app_r by lia. replace (S (length a) - length a)%nat with 1%nat by lia. simpl.
    destruct (proj2 Hs). destruct Hs as [Hs1 Hs2]. rewrite Hs2. exists a, c, d, b. done.
Qed.

Lemma insert_cells_safe g n : grid_ok g → 0 ≤ n → safe g (insert_cells g n).
Proof.
  intros Hg Hn. pose proof (go_col _ Hg) as Hcol. pose proof (go_cols _ Hg) as Hcols.
  destruct (get_row g (row (pos g)) Hg (go_row _ Hg)) as (x & Hx & Hrx).
  set (m := Z.to_nat (cols (size g))) in *.
  pose proof (opens_at_col m x (col (pos g)) Hrx ltac:(unfold m; lia)) as Ho.
  set (inside := match cells x !! Z.to_nat (col (pos g)) with Some c => is_wide_continuation c | None => false end) in *.
  assert (Hwide : (if col (pos g) <? cols (size g)
    then let! c := drawing_cell g (pos g) in Some (is_wide_continuation c) else Some false) = Some inside).
  { unfold drawing_cell, row_get. rewrite Hx. unfold inside. destruct (Z.ltb_spec (col (pos g)) (cols (size g))).
    - destruct (lookup_lt_is_Some_2 (cells x) (Z.to_nat (col (pos g)))) as [c ->]; [|done].
      rewrite (ro_len _ _ Hrx). unfold m. lia.
    - rewrite lookup_ge_None_2; [done|]. rewrite (ro_len _ _ Hrx). unfold m. lia. }
  unfold insert_cells. rewrite Hwide. destruct (blank_cell_ok g) as [Hbok Hbpl].
  unfold update_current_row, update_row. rewrite Hx.
  set (k := Z.to_nat _).
  destruct (insert_blanks_ok inside (col (pos g)) k m x (blank_cell g)) as (y & Hy & Hry); [done|done|lia|done|].
  unfold insert_blank in Hy. rewrite Hy. replace (cols (size g)) with (Z.of_nat m) at 1 by (unfold m; lia).
  destruct (row_truncate_ok (m + k) m y Hry) as (z & -> & Hz & _); [unfold m; lia|unfold m; lia|].
  apply safe_some; try done. apply ok_rows; [done|apply length_insert|]. apply Forall_insert; [apply Hg|done].
Qed.

(** ** Lines *)

Lemma insert_ok {A} (Q : A → Prop) i x (l : list A) :
  Forall Q l → Q x → (i ≤ length l)%nat →
  ∃ l', vec_insert i x l = Some l' ∧ Forall Q l' ∧ length l' = S (length l).
Proof.
  intros Hl Hx Hi. unfold vec_insert. rewrite (proj2 (Nat.leb_le _ _)) by done. eexists. split; [done|]. split.
  - apply Forall_app. split; [by apply Forall_take|]. constructor; [done|by apply Forall_drop].
  - rewrite length_app. simpl. rewrite length_take, length_drop. lia.
Qed.

Lemma grid_row_remove_ok {A} (Q : A → Prop) i (l : list A) :
  Forall Q l → (i < length l)%nat →
  ∃ x l', vec_remove i l = Some (x, l') ∧ Q x ∧ Forall Q l' ∧ S (length l') = length l.
Proof.
  intros Hl Hi. unfold vec_remove. destruct (lookup_lt_is_Some_2 l i Hi) as [x Hx]. rewrite Hx.
  eexists _, _. split; [done|]. split; [|split].
  - rewrite Forall_forall in Hl. apply Hl. by apply list_elem_of_lookup_2 in Hx.
  - apply Forall_app. split; [by apply Forall_take|by apply Forall_drop].
  - rewrite length_app, length_take, length_drop. lia.
Qed.

(** A row removed at one index and a fresh one put in at another. *)
Lemma remove_insert_safe g i j x :
  grid_ok g → row_ok (Z.to_nat (cols (size g))) x → 0 ≤ i < rows (size g) → 0 ≤ j < rows (size g) →
  safe g (let! (_, rs) := vec_remove (Z.to_nat i) (g_rows g) in
          let! rs := vec_insert (Z.to_nat j) x rs in Some (with_rows g rs)).
Proof.
  intros Hg Hx Hi Hj. pose proof (go_len _ Hg) as Hlen.
  destruct (grid_row_remove_ok _ (Z.to_nat i) (g_rows g) (go_cells _ Hg)) as (y & l & -> & _ & Hl & Hn); [lia|].
  destruct (insert_ok _ (Z.to_nat j) x l Hl Hx) as (l' & -> & Hl' & Hn'); [lia|].
  apply safe_some; try done. apply ok_rows; [done|lia|done].
Qed.

(** A fresh row put in below [j] and the row at [i] taken out. *)
Lemma insert_remove_ok g i j x :
  grid_ok g → row_ok (Z.to_nat (cols (size g))) x → 0 ≤ i < rows (size g) → 0 ≤ j < rows (size g) →
  ∃ rs y rs', vec_insert (Z.to_nat j + 1) x (g_rows g) = Some rs ∧ vec_remove (Z.to_nat i) rs = Some (y, rs') ∧
    row_ok (Z.to_nat (cols (size g))) y ∧ grid_ok (with_rows g rs').
Proof.
  intros Hg Hx Hi Hj. pose proof (go_len _ Hg) as Hlen.
  destruct (insert_ok _ (Z.to_nat j + 1) x (g_rows g) (go_cells _ Hg) Hx) as (l & Hin & Hl & Hn); [lia|].
  destruct (grid_row_remove_ok _ (Z.to_nat i) l Hl) as (y & l' & Hrm & Hy & Hl' & Hn'); [lia|].
  exists l, y, l'. split; [done|]. split; [done|]. split; [done|]. apply ok_rows; [done|lia|done].
Qed.

Lemma region_count_ok g : grid_ok g →
  u16_sub (scroll_bottom g) (scroll_top g) = Some (scroll_bottom g - scroll_top g) ∧
  u16_add (scroll_bottom g - scroll_top g) 1 = Some (scroll_bottom g - scroll_top g + 1).
Proof.
  intros Hg. pose proof (go_region _ Hg). pose proof (go_rows _ Hg). split; [apply u16_sub_ok; lia|apply u16_add_ok; lia].
Qed.

(** The loops below change rows only, so the region and cursor stay what they were. *)
Definition same_frame (g g' : Grid) : Prop :=
  size g' = size g ∧ pos g' = pos g ∧ scroll_top g' = scroll_top g ∧ scroll_bottom g' = scroll_bottom g ∧
  scrollback_len g' = scrollback_len g.

Lemma times_frame g n (f : Grid → option Grid) :
  grid_ok g → (∀ g', grid_ok g' → same_frame g g' → ∃ g2, f g' = Some g2 ∧ grid_ok g2 ∧ same_frame g g2) →
  ∃ g', times n f g = Some g' ∧ grid_ok g' ∧ same_frame g g'.
Proof.
  intros Hg Hf. assert (Hgen : ∀ g1, grid_ok g1 → same_frame g g1 → ∃ g', times n f g1 = Some g' ∧ grid_ok g' ∧ same_frame g g').
  { induction n as [|n IH]; intros g1 Hg1 Hs1; simpl; [by exists g1|].
    destruct (Hf g1 Hg1 Hs1) as (g2 & -> & Hg2 & Hs2). by apply IH. }
  by apply Hgen.
Qed.

Lemma times_frame_safe g n f :
  grid_ok g → (∀ g', grid_ok g' → same_frame g g' → ∃ g2, f g' = Some g2 ∧ grid_ok g2 ∧ same_frame g g2) →
  safe g (times n f g).
Proof. intros Hg Hf. destruct (times_frame g n f Hg Hf) as (g' & ? & ? & ? & _ & _ & _ & ?). by exists g'. Qed.

Lemma lines_start g :
  grid_ok g → in_scroll_region g = true →
  grid_ok (with_col g 0) ∧ scroll_top g ≤ row (pos g) ≤ scroll_bottom g ∧
  u16_sub (scroll_bottom g) (row (pos g)) = Some (scroll_bottom g - row (pos g)) ∧
  u16_add (scroll_bottom g - row (pos g)) 1 = Some (scroll_bottom g - row (pos g) + 1).
Proof.
  intros Hg Hin. unfold in_scroll_region in Hin. b2p. pose proof (go_region _ Hg). pose proof (go_rows _ Hg).
  pose proof (go_cols _ Hg). split; [apply ok_col; [done|lia]|]. split; [done|].
  split; [apply u16_sub_ok; lia|apply u16_add_ok; lia].
Qed.

Lemma insert_lines_safe g n : grid_ok g → safe g (insert_lines g n).
Proof.
  intros Hg. apply safe_bind; [by apply col_clamp_safe_self|]. intros g1 Hg1 _.
  destruct (in_scroll_region g1) eqn:Hin; simpl; [|by apply safe_some].
  destruct (lines_start g1 Hg1 Hin) as (Hg2 & Hr & -> & ->). pose proof (go_region _ Hg1) as Hreg.
  destruct (times_frame (with_col g1 0) (Z.to_nat (Z.min n (scroll_bottom g1 - row (pos g1) + 1)))
    (λ g, let! (_, rs) := vec_remove (Z.to_nat (scroll_bottom g)) (g_rows g) in
          let! rs := vec_insert (Z.to_nat (row (pos g))) (new_row g) rs in Some (with_rows g rs)) Hg2)
    as (g' & ? & ? & ? & _ & _ & _ & ?); [|by exists g'].
  intros g3 Hg3 (Hs & Hp & Ht & Hb & Hl). simpl in *.
  destruct (remove_insert_safe g3 (scroll_bottom g3) (row (pos g3)) (new_row g3)) as (g4 & E & Hg4 & _);
    [done|apply new_row_ok|pose proof (go_region _ Hg3); lia|apply Hg3|].
  exists g4. split; [done|]. split; [done|]. revert E. destruct (vec_remove _ _) as [[??]|]; [|done].
  destruct (vec_insert _ _ _); [|done]. by intros [= <-].
Qed.

Lemma delete_lines_safe g n : grid_ok g → safe g (delete_lines g n).
Proof.
  intros Hg. apply safe_bind; [by apply col_clamp_safe_self|]. intros g1 Hg1 _.
  destruct (in_scroll_region g1) eqn:Hin; simpl; [|by apply safe_some].
  destruct (lines_start g1 Hg1 Hin) as (Hg2 & Hr & -> & ->). pose proof (go_region _ Hg1) as Hreg.
  destruct (times_frame (with_col g1 0) (Z.to_nat (Z.min n (scroll_bottom g1 - row (pos g1) + 1)))
    (λ g, let! rs := vec_insert (Z.to_nat (scroll_bottom g) + 1) (new_row g) (g_rows g) in
          let! (_, rs) := vec_remove (Z.to_nat (row (pos g))) rs in Some (with_rows g rs)) Hg2)
    as (g' & ? & ? & ? & _ & _ & _ & ?); [|by exists g'].
  intros g3 Hg3 Hf.
  destruct (insert_remove_ok g3 (row (pos g3)) (scroll_bottom g3) (new_row g3)) as (rs & y & rs' & -> & -> & _ & Hg4);
    [done|apply new_row_ok|apply Hg3|pose proof (go_region _ Hg3); lia|].
  by exists (with_rows g3 rs').
Qed.

Lemma push_scrollback_ok g x :
  grid_ok g → row_ok (Z.to_nat (cols (size g))) x → 0 < scrollback_len g → grid_ok (push_scrollback g x).
Proof.
  intros Hg Hx Hsb. pose proof (go_offset _ Hg). pose proof (go_bound _ Hg). unfold push_scrollback.
  set (sb := drop _ _). assert (Hlen : length sb = Nat.min (S (length (scrollback g))) (Z.to_nat (scrollback_len g))).
  { unfold sb. rewrite length_drop, !length_app. cbn [length]. lia. }
  apply ok_scrollback; [by apply ok_freed| | |simpl; lia].
  - apply Forall_drop, Forall_app. split; [apply Hg|]. repeat constructor. by exists (Z.to_nat (cols (size g))).
  - destruct (Z.ltb_spec 0 (scrollback_offset g)); lia.
Qed.

Lemma scroll_region_up_frame g n fd :
  grid_ok g → ∃ g', scroll_region_up g n fd = Some g' ∧ grid_ok g' ∧ same_frame g g'.
Proof.
  intros Hg. unfold scroll_region_up. destruct (region_count_ok g Hg) as [-> ->].
  apply times_frame; [done|]. intros g1 Hg1 (Hs & Hp & Ht & Hb & Hl).
  destruct (insert_remove_ok g1 (scroll_top g1) (scroll_bottom g1) (new_row g1)) as (rs & y & rs' & -> & -> & Hy & Hg2);
    [done|apply new_row_ok|pose proof (go_region _ Hg1); lia..|].
  eexists. split; [done|].
  destruct (fd && (0 <? scrollback_len (with_rows g1 rs')) && (scroll_top (with_rows g1 rs') =? 0)) eqn:E.
  - split; [|done]. b2p. by apply push_scrollback_ok.
  - split; [by apply ok_freed|done].
Qed.

Lemma frame_safe g o : (∃ g', o = Some g' ∧ grid_ok g' ∧ same_frame g g') → safe g o.
Proof. intros (g' & ? & ? & ? & _ & _ & _ & ?). by exists g'. Qed.

Lemma scroll_down_safe g n bce : grid_ok g → safe g (scroll_down g n bce).
Proof.
  intros Hg. unfold scroll_down. destruct (region_count_ok g Hg) as [-> ->].
  apply times_frame_safe; [done|]. intros g1 Hg1 Hf. pose proof (go_region _ Hg1).
  destruct (remove_insert_safe g1 (scroll_bottom g1) (scroll_top g1) (if bce then new_row g1 else row_new (cols (size g1))))
    as (g4 & E & Hg4 & _); [done|destruct bce; [apply new_row_ok|apply row_new_ok]|lia..|].
  exists g4. split; [done|]. split; [done|]. revert E. destruct (vec_remove _ _) as [[??]|]; [|done].
  destruct (vec_insert _ _ _); [|done]. by intros [= <-].
Qed.

Lemma set_scroll_region_safe g t b : grid_ok g → 0 ≤ t → 0 ≤ b → safe g (set_scroll_region g t b).
Proof.
  intros Hg Ht Hb. pose proof (go_rows _ Hg). pose proof (go_cols _ Hg). unfold set_scroll_region.
  rewrite u16_sub_ok by lia. apply safe_some; [|by destruct (_ <? _)..].
  destruct (Z.ltb_spec t (Z.min b (rows (size g) - 1))); [|done].
  apply ok_pos; [apply ok_region; [done|lia..]| |simpl; lia]. simpl. destruct (origin_mode g); lia.
Qed.

Lemma row_inc_scroll_frame g n :
  grid_ok g → 0 ≤ n → ∃ g' k, row_inc_scroll g n = Some (g', k) ∧ grid_ok g' ∧ size g' = size g ∧
    scrollback_len g' = scrollback_len g ∧ col (pos g') = col (pos g).
Proof.
  intros Hg Hn. unfold row_inc_scroll. rewrite row_clamp_bottom_eq by apply (go_rows _ Hg).
  set (r := Z.min _ _). set (k := Z.max _ _).
  assert (Hg1 : grid_ok (with_row g r)).
  { apply ok_row; [done|]. pose proof (bottom_of_range g (in_scroll_region g) Hg). pose proof (go_row _ Hg).
    unfold r, sat_add, u16_max. lia. }
  destruct (in_scroll_region g); [|by exists (with_row g r), 0].
  destruct (scroll_region_up_frame (with_row g r) k true Hg1) as (g' & E & Hg' & Hs & Hp & _ & _ & Hl).
  unfold scroll_up. rewrite E. exists g', k. rewrite Hp. done.
Qed.

Lemma line_feed_safe g : grid_ok g → safe g (line_feed g).
Proof.
  intros Hg. unfold line_feed.
  destruct (row_inc_scroll_frame g 1 Hg) as (g1 & k & -> & Hg1 & Hs1 & Hl1 & _); [lia|].
  assert (Hsafe : safe g1 (let! g0 := (if k =? 0 then let! next := u16_add (row (pos g)) 1 in
      if row (pos g1) =? next then update_current_row g1 (λ r, Some (row_wrap r false)) else Some g1 else Some g1) in col_clamp g0)).
  { apply safe_bind; [|intros g2 Hg2 _; by apply col_clamp_safe_self]. destruct (k =? 0); [|by apply safe_some].
    rewrite u16_add_ok by (pose proof (go_row _ Hg); pose proof (go_rows _ Hg); lia).
    destruct (_ =? _); [by apply wrap_safe|by apply safe_some]. }
  destruct Hsafe as (g' & ? & ? & ? & ?). exists g'. split; [done|]. split; [done|]. split; congruence.
Qed.

Lemma reverse_index_safe g : grid_ok g → safe g (reverse_index g).
Proof.
  intros Hg. apply safe_bind; [by apply col_clamp_safe_self|]. intros g1 Hg1 _.
  destruct (_ =? _); [by apply scroll_down_safe|]. apply safe_some; try done. apply ok_row; [done|].
  pose proof (go_row _ Hg1). unfold sat_sub. lia.
Qed.

(** After [col_wrap] a character of that width fits before the end of the row. *)
Lemma col_wrap_fits g w :
  grid_ok g → 0 ≤ w ≤ cols (size g) →
  ∃ g', col_wrap g w = Some g' ∧ grid_ok g' ∧ size g' = size g ∧ scrollback_len g' = scrollback_len g ∧
    col (pos g') ≤ cols (size g) - w.
Proof.
  intros Hg Hw. pose proof (go_cols _ Hg). unfold col_wrap. rewrite u16_sub_ok by lia.
  destruct (Z.ltb_spec (cols (size g) - w) (col (pos g))); [|by exists g].
  destruct (row_inc_scroll_frame (with_col g 0) 1) as (g1 & k & -> & Hg1 & Hs1 & Hl1 & Hc1); [apply ok_col; [done|lia]|lia|].
  destruct (wrap_safe g1 true Hg1) as (g2 & E & Hg2 & Hs2 & Hl2). exists g2. split; [done|]. split; [done|].
  split; [by rewrite Hs2|]. split; [by rewrite Hl2|].
  assert (Hp : pos g2 = pos g1).
  { revert E. unfold update_current_row, update_row. destruct (drawing_row _ _); [|done]. by intros [= <-]. }
  rewrite Hp, Hc1. simpl. lia.
Qed.

(** ** Scrollback *)

Lemma pad_row_ok n r :
  (∃ k, (k ≤ n)%nat ∧ row_ok k r) →
  row_ok n (if (length (cells r) <? n)%nat then mkRow (vec_resize n cell_new (cells r)) (wrapped r) else r).
Proof.
  intros (k & Hk & [Hl Hp Hc]). destruct (Nat.ltb_spec (length (cells r)) n).
  - unfold vec_resize. rewrite take_ge by lia. split; simpl.
    + rewrite length_app, length_replicate. lia.
    + apply paired_app; [done|]. by apply paired_replicate.
    + apply Forall_app. split; [done|]. apply Forall_replicate, cell_new_ok.
  - replace n with k by lia. by split.
Qed.

Lemma set_scrollback_ok g n : grid_ok g → 0 ≤ n → grid_ok (set_scrollback g n).
Proof.
  intros Hg Hn. pose proof (go_scrollback _ Hg) as Hsb. unfold set_scrollback, pad_scrollback_window. simpl.
  set (off := Z.min n _). set (skip := (length (scrollback g) - _)%nat). set (pad := λ r, _).
  set (k := length (g_rows g)). set (sb := scrollback g) in *.
  assert (Hlen : length (take skip sb ++ (pad <$> take k (drop skip sb)) ++ drop (skip + k) sb) = length sb).
  { rewrite !length_app, length_fmap, <- drop_drop, <- length_app, take_drop, <- length_app. by rewrite take_drop. }
  apply (ok_scrollback g); rewrite ?Hlen; [done| |unfold off, sb; lia|apply Hg].
  rewrite !Forall_app. split; [by apply Forall_take|]. split; [|by apply Forall_drop].
  apply Forall_fmap. eapply Forall_impl; [by apply Forall_take, Forall_drop, Hsb|].
  intros r Hr. exists (Z.to_nat (cols (size g))). split; [done|]. by apply pad_row_ok.
Qed.

(** ** Resets *)

Lemma allocate_rows_ok g : grid_ok g → grid_ok (allocate_rows g).
Proof.
  intros Hg. unfold allocate_rows. rewrite bool_decide_eq_false_2; [done|]. intros E.
  pose proof (go_len _ Hg) as Hl. rewrite E in Hl. pose proof (go_rows _ Hg). simpl in Hl. lia.
Qed.

Lemma soft_reset_safe g : grid_ok g → safe g (soft_reset g).
Proof.
  intros Hg. pose proof (go_rows _ Hg). destruct (pos_default_ok g Hg). unfold soft_reset. rewrite u16_sub_ok by lia.
  apply safe_some; try done. apply ok_saved; [|done..]. apply ok_origin, ok_region; [done|lia..].
Qed.

Section Width.
Context `{!UnicodeWidth}.

Lemma set_all_ok cs ch a :
  Forall cell_ok cs → is_scalar ch = true → wide_char ch = false →
  ∃ ds, set_all cs ch a = Some ds ∧ length ds = length cs ∧ Forall cell_ok ds ∧ paired ds.
Proof.
  intros Hcs Hch Hw. induction Hcs as [|c cs Hc _ IH]; simpl; [exists []; auto with tymux|].
  destruct (set_ok c ch a Hc Hch) as (d & -> & Hd & _ & Hdw & Hdk & _).
  destruct IH as (ds & -> & Hl & Hds & Hp). exists (d :: ds). split; [done|]. split; [simpl; lia|].
  split; [by constructor|]. constructor; [|done]. split; congruence.
Qed.

Lemma align_rows_ok n rs :
  Forall (row_ok n) rs → ∃ rs', align_rows rs = Some rs' ∧ length rs' = length rs ∧ Forall (row_ok n) rs'.
Proof.
  induction 1 as [|r rs Hr _ IH]; [by exists []|]. cbn [align_rows].
  pose proof (row_clear_ok n r attrs_default Hr) as [Hl Hp Hc].
  destruct (set_all_ok (cells (row_clear r attrs_default)) 69 attrs_default Hc) as (ds & -> & Hlen & Hok & Hpd);
    [done|done|].
  destruct IH as (rs' & -> & Hl' & Hrs'). eexists. split; [done|]. split; [simpl; lia|]. constructor; [|done].
  split; simpl; [congruence|done|done].
Qed.

Lemma align_test_safe g : grid_ok g → safe g (align_test g).
Proof.
  intros Hg. pose proof (go_rows _ Hg). destruct (pos_default_ok g Hg). unfold align_test. rewrite u16_sub_ok by lia.
  destruct (align_rows_ok _ _ (go_cells _ Hg)) as (rs & -> & Hl & Hrs). apply safe_some; try done.
  apply ok_rows; simpl; [|done|done]. apply ok_pos; [|done..]. apply ok_origin, ok_region; [done|lia..].
Qed.

End Width.

(** ** A new grid *)

Lemma grid_new_ok sz n :
  1 ≤ rows sz ≤ u16_max → 1 ≤ cols sz < u16_max → 0 ≤ n →
  ∃ g, grid_new sz n = Some g ∧ grid_ok (allocate_rows g) ∧ size g = sz ∧ g_rows g = [] ∧ scrollback_len g = n.
Proof.
  intros Hr Hc Hn. unfold grid_new. rewrite u16_sub_ok by lia. eexists. split; [done|]. split; [|done].
  split; simpl; try done; try lia.
  - apply length_replicate.
  - apply Forall_replicate, row_new_ok.
  - unfold default_tab_stops. rewrite length_fmap, length_seqZ. done.
Qed.
