(* ===== verification/VtReflow.v ===== *)
(** * Resizing the terminal ([crates/vt100/src/grid/reflow.rs])

    The scrollback and the visible rows as one list of lines, rewrapped to the new width: a
    group is a line together with the lines that continue it. Lengths and indices ([usize]) are
    [nat], with [None] for a subtraction below zero or an index out of range; [i64] values are
    [Z]. The loops run on fuel; running out of it is [None] too. *)

From S2P Require Import Prelude VtCell VtRow VtGrid.

(** Subtraction on [usize]. *)
Definition nat_sub (a b : nat) : option nat := if (b <=? a)%nat then Some (a - b)%nat else None.

(** ** Reading lines *)

Definition blank_line (cols : nat) (w : bool) : Row := row_wrap (row_new (Z.of_nat cols)) w.

Definition width_at (r : Row) (col : Z) : Z :=
  if col <? 0 then 0 else
  match cells r !! Z.to_nat col with
  | None => 0
  | Some c => if is_wide_continuation c then 0 else if is_wide c then 2 else 1
  end.

Definition glyph (c : Cell) : bool := has_contents c && negb (is_wide_continuation c).

Definition has_content (r : Row) (col : nat) : bool :=
  match cells r !! col with Some c => glyph c | None => false end.

(** The search from the end of the row, which starts at column [i]. *)
Fixpoint trimmed_from (i : nat) (cs : list Cell) : nat :=
  match cs with
  | [] => 0
  | c :: cs =>
      match trimmed_from (S i) cs with
      | O => if glyph c then (i + if is_wide c then 2 else 1)%nat else 0%nat
      | n => n
      end
  end.

Definition trimmed_len (r : Row) : nat := trimmed_from 0 (cells r).

Definition wrapped_line_trimmed_len (group : list Row) (i cols : nat) : option nat :=
  let! r := group !! i in
  if (i + 1 =? length group)%nat then Some (trimmed_len r)
  else
    let! last_col := nat_sub cols 1 in
    let ends_in_null := negb (has_content r last_col) && (width_at r (Z.of_nat cols - 1) =? 1) in
    let! next := group !! (i + 1)%nat in
    let next_starts_wide := width_at next 0 =? 2 in
    Some (if ends_in_null && next_starts_wide then last_col else cols).

(** ** Moving cells *)

(** The cells of a row from column [col] on are overwritten by [tmp]. *)
Definition write_cells (r : Row) (col : nat) (tmp : list Cell) : Row :=
  mkRow (take col (cells r) ++ tmp ++ drop (col + length tmp) (cells r)) (wrapped r).

Definition copy_cells (group : list Row) (src src_col dst dst_col len : nat) : option (list Row) :=
  let! s := group !! src in
  let! d := group !! dst in
  let len := (len `min` (length (cells s) - src_col) `min` (length (cells d) - dst_col))%nat in
  if (src_col + len <=? length (cells s))%nat
  then Some (<[dst := write_cells d dst_col (take len (drop src_col (cells s)))]> group)
  else None.

Definition set_cell (r : Row) (col : nat) (c : Cell) : option Row :=
  let! cs := vec_set col c (cells r) in Some (mkRow cs (wrapped r)).

Definition update_line (group : list Row) (i : nat) (f : Row → option Row) : option (list Row) :=
  let! r := group !! i in
  let! r := f r in
  Some (<[i := r]> group).

Definition replace_cells (r : Row) (start e : nat) : option Row :=
  let! r := (if (0 <? start)%nat && (width_at r (Z.of_nat start - 1) =? 2) then set_cell r (start - 1) cell_new else Some r) in
  let! r := (if (e <? length (cells r))%nat && (0 <? e)%nat && (width_at r (Z.of_nat e - 1) =? 2)
             then set_cell r e cell_new else Some r) in
  Some (write_cells r start (replicate ((e `min` length (cells r)) - start) cell_new)).

Definition pad_line (n : nat) (r : Row) : Row :=
  if (length (cells r) <? n)%nat then mkRow (vec_resize n cell_new (cells r)) (wrapped r) else r.

(** ** Line lengths at a narrower width *)

Fixpoint sum_trimmed (group : list Row) (cols : nat) (is_ : list nat) : option nat :=
  match is_ with
  | [] => Some 0%nat
  | i :: is_ => let! t := wrapped_line_trimmed_len group i cols in let! s := sum_trimmed group cols is_ in Some (t + s)%nat
  end.

Fixpoint line_lengths_loop (fuel : nat) (group : list Row) (old_cols new_cols needed src_col src_line available : nat) :
    option (list nat) :=
  match fuel with
  | O => None
  | S fuel =>
      if (available <? needed)%nat then
        if (needed - available <? new_cols)%nat then Some [(needed - available)%nat]
        else
          let src_col := (src_col + new_cols)%nat in
          let! old_trimmed := wrapped_line_trimmed_len group src_line old_cols in
          let '(src_col, src_line) :=
            if (old_trimmed <? src_col)%nat then ((src_col - old_trimmed)%nat, (src_line + 1)%nat) else (src_col, src_line) in
          let ends_with_wide :=
            match group !! src_line with Some r => width_at r (Z.of_nat src_col - 1) =? 2 | None => false end in
          let! src_col := (if ends_with_wide then nat_sub src_col 1 else Some src_col) in
          let! len := (if ends_with_wide then nat_sub new_cols 1 else Some new_cols) in
          let! out := line_lengths_loop fuel group old_cols new_cols needed src_col src_line (available + len) in
          Some (len :: out)
      else Some []
  end.

Definition new_line_lengths (group : list Row) (old_cols new_cols : nat) : option (list nat) :=
  let! needed := sum_trimmed group old_cols (seq 0 (length group)) in
  line_lengths_loop (S needed) group old_cols new_cols needed 0 0 0.

(** ** Widening *)

Record Lines := mkLines {
  lines : list Row;
  ybase : nat;
  ln_y : nat;
  saved_y : nat;
  max_len : nat;
}.

(** Refills a group from its own cells: the loop over [src_idx]. *)
Fixpoint larger_loop (fuel : nat) (group : list Row) (old_cols new_cols dest_idx dest_col src_idx src_col : nat) :
    option (list Row * nat * nat) :=
  match fuel with
  | O => None
  | S fuel =>
      if (src_idx <? length group)%nat then
        let! src_trimmed := wrapped_line_trimmed_len group src_idx old_cols in
        let! src_remaining := nat_sub src_trimmed src_col in
        let! dest_remaining := nat_sub new_cols dest_col in
        let to_copy := (src_remaining `min` dest_remaining)%nat in
        let! group := copy_cells group src_idx src_col dest_idx dest_col to_copy in
        let dest_col := (dest_col + to_copy)%nat in
        let '(dest_idx, dest_col) := if (dest_col =? new_cols)%nat then ((dest_idx + 1)%nat, 0%nat) else (dest_idx, dest_col) in
        let src_col := (src_col + to_copy)%nat in
        let '(src_idx, src_col) := if (src_col =? src_trimmed)%nat then ((src_idx + 1)%nat, 0%nat) else (src_idx, src_col) in
        if (dest_col =? 0)%nat && negb (dest_idx =? 0)%nat then
          let! above := group !! (dest_idx - 1)%nat in
          if width_at above (Z.of_nat new_cols - 1) =? 2 then
            let! last_col := nat_sub new_cols 1 in
            let! group := copy_cells group (dest_idx - 1) last_col dest_idx dest_col 1 in
            let! group := update_line group (dest_idx - 1) (λ r, set_cell r last_col cell_new) in
            larger_loop fuel group old_cols new_cols dest_idx (dest_col + 1) src_idx src_col
          else larger_loop fuel group old_cols new_cols dest_idx dest_col src_idx src_col
        else larger_loop fuel group old_cols new_cols dest_idx dest_col src_idx src_col
      else Some (group, dest_idx, dest_col)
  end.

(** How many lines at the end of a group, [k] of them looked at so far, are left empty. *)
Fixpoint count_empty (group : list Row) (dest_idx k : nat) : option nat :=
  match k with
  | O => Some 0%nat
  | S k' =>
      let! r := group !! k in
      if (dest_idx <? k)%nat || (trimmed_len r =? 0)%nat
      then let! n := count_empty group dest_idx k' in Some (S n) else Some 0%nat
  end.

Definition larger_group (group : list Row) (old_cols new_cols : nat) : option (list Row * nat) :=
  let group := pad_line new_cols <$> group in
  let n := length group in
  let! dest_col := wrapped_line_trimmed_len group 0 old_cols in
  let! (group, dest_idx, dest_col) := larger_loop (2 * n) group old_cols new_cols 0 dest_col 1 0 in
  let! group := update_line group dest_idx (λ r, replace_cells r dest_col new_cols) in
  let! count := count_empty group dest_idx (n - 1) in
  Some (group, count).

(** The number of leading lines that continue the line before them. *)
Fixpoint wrapped_run (ls : list Row) : nat :=
  match ls with
  | r :: ls => if wrapped r then S (wrapped_run ls) else 0%nat
  | [] => 0%nat
  end.

Fixpoint larger_scan (fuel : nat) (ls : list Row) (y abs_y old_cols new_cols : nat) (remove : list (nat * nat)) :
    option (list Row * list (nat * nat)) :=
  match fuel with
  | O => None
  | S fuel =>
      if (y + 1 <? length ls)%nat then
        let n := (1 + wrapped_run (drop (y + 1) ls))%nat in
        if (n =? 1)%nat then larger_scan fuel ls (y + 1) abs_y old_cols new_cols remove
        else if (y <=? abs_y)%nat && (abs_y <? y + n)%nat then larger_scan fuel ls (y + n) abs_y old_cols new_cols remove
        else
          let! (group, count) := larger_group (take n (drop y ls)) old_cols new_cols in
          larger_scan fuel (take y ls ++ group ++ drop (y + n) ls) (y + n) abs_y old_cols new_cols
            (if (0 <? count)%nat then remove ++ [((y + n - count)%nat, count)] else remove)
      else Some (ls, remove)
  end.

(** Drops the lines of the ranges in [r]; the result is what is kept and how many were
    removed. *)
Fixpoint remove_lines (idx skip : nat) (ls : list Row) (r : list (nat * nat)) : list Row * nat :=
  match ls with
  | [] => ([], 0%nat)
  | line :: ls =>
      let '(skip, removed, r) :=
        match r with
        | (start, count) :: r' => if (idx =? start)%nat then (count, count, r') else (skip, 0%nat, r)
        | [] => (skip, 0%nat, r)
        end in
      match skip with
      | S skip => let '(keep, n) := remove_lines (S idx) skip ls r in (keep, (removed + n)%nat)
      | O => let '(keep, n) := remove_lines (S idx) 0 ls r in (line :: keep, (removed + n)%nat)
      end
  end.

Fixpoint after_removal (removed : nat) (new_cols new_rows : nat) (b : Lines) : Lines :=
  match removed with
  | O => b
  | S removed =>
      after_removal removed new_cols new_rows
        (if (ybase b =? 0)%nat then
           mkLines (if (length (lines b) <? new_rows)%nat then lines b ++ [blank_line new_cols false] else lines b)
             0 (ln_y b - 1) (saved_y b) (max_len b)
         else mkLines (lines b) (ybase b - 1) (ln_y b) (saved_y b) (max_len b))
  end.

Definition reflow_larger (b : Lines) (old_cols new_cols new_rows : nat) : option Lines :=
  let abs_y := (ybase b + ln_y b)%nat in
  let! (ls, remove) := larger_scan (S (length (lines b))) (lines b) 0 abs_y old_cols new_cols [] in
  let b := mkLines ls (ybase b) (ln_y b) (saved_y b) (max_len b) in
  match remove with
  | [] => Some b
  | _ =>
      let '(keep, removed) := remove_lines 0 0 ls remove in
      let b := after_removal removed new_cols new_rows (mkLines keep (ybase b) (ln_y b) (saved_y b) (max_len b)) in
      Some (mkLines (lines b) (ybase b) (ln_y b) (saved_y b - removed) (max_len b))
  end.

(** ** Narrowing *)

Definition dest_len (dest : list nat) (i : Z) : nat := if i <? 0 then 0%nat else default 0%nat (dest !! Z.to_nat i).

(** Moves the cells of a group to their new places, from the end: the loop over [src_idx]. *)
Fixpoint smaller_loop (fuel : nat) (group : list Row) (dest : list nat) (old_cols : nat)
    (dest_idx : Z) (dest_col : nat) (src_idx : Z) (src_col : nat) : option (list Row) :=
  match fuel with
  | O => None
  | S fuel =>
      if 0 <=? src_idx then
        let to_copy := (src_col `min` dest_col)%nat in
        if (dest_idx <? 0) || (Z.of_nat (length group) <=? dest_idx) then Some group
        else
          let! group := copy_cells group (Z.to_nat src_idx) (src_col - to_copy) (Z.to_nat dest_idx) (dest_col - to_copy) to_copy in
          let dest_col := (dest_col - to_copy)%nat in
          let '(dest_idx, dest_col) := if (dest_col =? 0)%nat then (dest_idx - 1, dest_len dest (dest_idx - 1)) else (dest_idx, dest_col) in
          let src_col := (src_col - to_copy)%nat in
          let! (src_idx, src_col) :=
            (if (src_col =? 0)%nat
             then let! t := wrapped_line_trimmed_len group (Z.to_nat (Z.max 0 (src_idx - 1))) old_cols in Some (src_idx - 1, t)
             else Some (src_idx, src_col)) in
          if (to_copy =? 0)%nat && (dest_col =? 0)%nat && negb (src_col =? 0)%nat && (dest_idx <? 0) then Some group
          else smaller_loop fuel group dest old_cols dest_idx dest_col src_idx src_col
      else Some group
  end.

(** Blanks the cell after each line that does not fill the width. *)
Fixpoint end_lines (rs : list Row) (dest : list nat) (new_cols : nat) : option (list Row) :=
  match rs, dest with
  | r :: rs, len :: dest =>
      let! r := (if (len <? new_cols)%nat then set_cell r len cell_new else Some r) in
      let! rs := end_lines rs dest new_cols in
      Some (r :: rs)
  | _, _ => Some rs
  end.

(** The new lines of a group, as many as it had and those that are added. *)
Definition smaller_group (group : list Row) (old_cols new_cols : nat) : option (list Row * Z) :=
  let group := pad_line old_cols <$> group in
  let n := length group in
  let! l := last group in
  let last_len := trimmed_len l in
  let! dest := new_line_lengths group old_cols new_cols in
  let to_add := Z.of_nat (length dest) - Z.of_nat n in
  let add := Z.to_nat (Z.max 0 to_add) in
  let group := group ++ replicate add (blank_line new_cols true) in
  let dest_idx := Z.of_nat (length dest) - 1 in
  let dest_col := dest_len dest dest_idx in
  let '(dest_idx, dest_col) := if (dest_col =? 0)%nat then (dest_idx - 1, dest_len dest (dest_idx - 1)) else (dest_idx, dest_col) in
  let! group := smaller_loop (n + length dest + 1) group dest old_cols dest_idx dest_col (Z.of_nat n - 1) last_len in
  let! group := end_lines group dest new_cols in
  Some (group, to_add).

(** The cursor follows the lines that are added above it, [live_len] being the length the list
    of lines is going to have. *)
Fixpoint adjust_cursor (adjust : nat) (new_rows mx count : nat) (yb y live_len : nat) : nat * nat * nat :=
  match adjust with
  | O => (yb, y, live_len)
  | S adjust =>
      if (yb =? 0)%nat then
        if (y + 1 <? new_rows)%nat then adjust_cursor adjust new_rows mx count yb (y + 1) (live_len - 1)
        else adjust_cursor adjust new_rows mx count (yb + 1) y live_len
      else
        let cap := (mx `min` (live_len + count))%nat in
        if Z.of_nat yb <? Z.of_nat cap - Z.of_nat new_rows then adjust_cursor adjust new_rows mx count (yb + 1) y live_len
        else adjust_cursor adjust new_rows mx count yb y live_len
  end.

(** Where the group ending at line [y] starts. *)
Fixpoint group_start (ls : list Row) (y : nat) : option nat :=
  let! r := ls !! y in
  match y with
  | S y' => if wrapped r then group_start ls y' else Some y
  | O => Some 0%nat
  end.

(** [y] lines are still to be looked at. *)
Fixpoint smaller_scan (fuel : nat) (b : Lines) (y live_len count : nat) (to_insert : list (nat * list Row))
    (old_cols new_cols new_rows : nat) : option (Lines * nat * nat * list (nat * list Row)) :=
  match fuel with
  | O => None
  | S fuel =>
      match y with
      | O => Some (b, live_len, count, to_insert)
      | S last =>
          let! r := lines b !! last in
          if negb (wrapped r) && (trimmed_len r <=? new_cols)%nat
          then smaller_scan fuel b last live_len count to_insert old_cols new_cols new_rows
          else
            let! y := group_start (lines b) last in
            let n := (last - y + 1)%nat in
            let abs_y := (ybase b + ln_y b)%nat in
            if (y <=? abs_y)%nat && (abs_y <? y + n)%nat
            then smaller_scan fuel b y live_len count to_insert old_cols new_cols new_rows
            else
              let! (group, to_add) := smaller_group (take n (drop y (lines b))) old_cols new_cols in
              let trimmed :=
                if (ybase b =? 0)%nat && negb (ln_y b + 1 =? live_len)%nat
                then Z.max 0 (Z.of_nat (ln_y b) - Z.of_nat (max_len b) + to_add)
                else Z.max 0 (Z.of_nat live_len - Z.of_nat (max_len b) + to_add) in
              let add := Z.to_nat (Z.max 0 to_add) in
              let count := (count + add)%nat in
              let '(yb, cy, live_len) :=
                adjust_cursor (Z.to_nat (to_add - trimmed)) new_rows (max_len b) count (ybase b) (ln_y b) live_len in
              let! bottom := nat_sub (yb + new_rows) 1 in
              let b := mkLines (take y (lines b) ++ take n group ++ drop (y + n) (lines b))
                         yb cy ((saved_y b + add) `min` bottom)%nat (max_len b) in
              smaller_scan fuel b y live_len count
                (if bool_decide (drop n group = []) then to_insert else to_insert ++ [((last + 1)%nat, drop n group)])
                old_cols new_cols new_rows
      end
  end.

(** The lines with the added ones put after their groups; anchors past the end are appended. *)
Fixpoint insert_pending (idx : nat) (pending : list (nat * list Row)) : list Row * list (nat * list Row) :=
  match pending with
  | (at_, rs) :: pending' =>
      if (at_ =? idx)%nat then let '(out, rest) := insert_pending idx pending' in (rs ++ out, rest) else ([], pending)
  | [] => ([], [])
  end.

Fixpoint insert_lines_at (idx : nat) (ls : list Row) (pending : list (nat * list Row)) : list Row :=
  match ls with
  | [] => concat (snd <$> pending)
  | line :: ls => let '(out, pending) := insert_pending (idx + 1) pending in line :: out ++ insert_lines_at (idx + 1) ls pending
  end.

Definition anchor_le (a c : nat * list Row) : Prop := (fst a ≤ fst c)%nat.
#[global] Instance anchor_le_dec a c : Decision (anchor_le a c).
Proof. unfold anchor_le. apply _. Defined.

Definition reflow_smaller (b : Lines) (old_cols new_cols new_rows : nat) : option Lines :=
  let! (b, live_len, _, to_insert) :=
    smaller_scan (S (length (lines b))) b (length (lines b)) (length (lines b)) 0 [] old_cols new_cols new_rows in
  let ls := take live_len (lines b) in
  if bool_decide (to_insert = []) then Some (mkLines ls (ybase b) (ln_y b) (saved_y b) (max_len b))
  else
    let to_insert := merge_sort anchor_le to_insert in
    let out := insert_lines_at 0 ls to_insert in
    Some (mkLines (drop (length out - max_len b) out) (ybase b) (ln_y b) (saved_y b) (max_len b)).

(** ** Resizing *)

(** Rows are added: from the scrollback while the cursor is at the bottom, else blank ones. *)
Fixpoint grow_rows (k : nat) (new_cols new_rows add_to_y : nat) (b : Lines) : Lines * nat :=
  match k with
  | O => (b, add_to_y)
  | S k =>
      if (length (lines b) <? new_rows + ybase b)%nat then
        if (0 <? ybase b)%nat && (length (lines b) <=? ybase b + ln_y b + add_to_y + 1)%nat
        then grow_rows k new_cols new_rows (add_to_y + 1)
               (mkLines (lines b) (ybase b - 1) (ln_y b) (saved_y b) (max_len b))
        else grow_rows k new_cols new_rows add_to_y
               (mkLines (lines b ++ [blank_line new_cols false]) (ybase b) (ln_y b) (saved_y b) (max_len b))
      else grow_rows k new_cols new_rows add_to_y b
  end.

(** Rows are taken away: below the cursor first, then into the scrollback. *)
Fixpoint shrink_rows (k : nat) (new_rows : nat) (b : Lines) : Lines :=
  match k with
  | O => b
  | S k =>
      shrink_rows k new_rows
        (if (new_rows + ybase b <? length (lines b))%nat then
           if (ybase b + ln_y b + 1 <? length (lines b))%nat
           then mkLines (take (length (lines b) - 1) (lines b)) (ybase b) (ln_y b) (saved_y b) (max_len b)
           else mkLines (lines b) (ybase b + 1) (ln_y b) (saved_y b) (max_len b)
         else b)
  end.

(** A line cut to the new width, the half of a wide character at its end blanked. *)
Definition crop_line (n : nat) (r : Row) : Row :=
  if (n <? length (cells r))%nat then
    let cs := take n (cells r) in
    match last cs with
    | Some c => if is_wide c then mkRow (<[(length cs - 1)%nat := cell_new]> cs) (wrapped r) else mkRow cs (wrapped r)
    | None => mkRow cs (wrapped r)
    end
  else r.

Definition resize_line (n : nat) (r : Row) : Row := mkRow (vec_resize n cell_new (cells r)) (wrapped r).

(** The nearest tab stop at or below column [c]. *)
Fixpoint tab_below (ts : list bool) (c : nat) : option nat :=
  match c with
  | O => Some 0%nat
  | S c' => let! t := ts !! c in if (t : bool) then Some c else tab_below ts c'
  end.

(** [setupTabStops]: every eighth column from the nearest stop on. *)
Definition reset_tab_stops (ts : list bool) (new_cols : nat) : option (list bool) :=
  let ts := vec_resize new_cols false ts in
  let! last_col := nat_sub new_cols 1 in
  let! c := tab_below ts last_col in
  Some (imap (λ i t, if (c <=? i)%nat && ((i - c) mod 8 =? 0)%nat then negb (i =? 0)%nat else t) ts).

Definition lines_of (g : Grid) (new_rows : nat) : Lines :=
  let sb_len := length (scrollback g) in
  mkLines (scrollback g ++ g_rows g) sb_len (Z.to_nat (row (pos g)))
    (if saved_set g then (sb_len + Z.to_nat (row (saved_pos g)))%nat else 0%nat)
    (Z.to_nat (scrollback_len g) + new_rows)%nat.

(** Up to the reflow: the new number of rows; the second component is how many lines are
    dropped from the top. *)
Definition resize_rows (g : Grid) (sz : Size) : option (Lines * nat) :=
  let old_cols := Z.to_nat (cols (size g)) in
  let new_cols := Z.to_nat (cols sz) in
  let new_rows := Z.to_nat (rows sz) in
  let old_rows := Z.to_nat (rows (size g)) in
  let sb_len := length (scrollback g) in
  let b := lines_of g new_rows in
  let b := if (old_cols <? new_cols)%nat
           then mkLines (take sb_len (lines b) ++ (resize_line new_cols <$> drop sb_len (lines b)))
                  (ybase b) (ln_y b) (saved_y b) (max_len b)
           else b in
  let '(b, add_to_y) :=
    if (old_rows <? new_rows)%nat then grow_rows (new_rows - old_rows) new_cols new_rows 0 b
    else (shrink_rows (old_rows - new_rows) new_rows b, 0%nat) in
  let old_max := (Z.to_nat (scrollback_len g) + old_rows)%nat in
  let trim := if (max_len b <? old_max)%nat then (length (lines b) - max_len b)%nat else 0%nat in
  let b := mkLines (drop trim (lines b)) (ybase b - trim) (ln_y b) (saved_y b - trim) (max_len b) in
  let! last_row := nat_sub new_rows 1 in
  Some (mkLines (lines b) (ybase b) (ln_y b `min` last_row + add_to_y)%nat (saved_y b) (max_len b), trim).

(** After the reflow: every line is cut to the width, the visible ones are filled up to it. *)
Definition fit_lines (b : Lines) (new_cols new_rows : nat) : list Row * list Row :=
  let ls := crop_line new_cols <$> lines b in
  let ls := take (ybase b) ls ++ (resize_line new_cols <$> drop (ybase b) ls) in
  let need := (ybase b + new_rows)%nat in
  let ls := take need (ls ++ replicate (need - length ls) (blank_line new_cols false)) in
  (take (ybase b) ls, drop (ybase b) ls).

Definition set_size (g : Grid) (sz : Size) (reflow : bool) : option Grid :=
  if bool_decide (sz = size g) then Some g
  else
    let old_cols := Z.to_nat (cols (size g)) in
    let new_cols := Z.to_nat (cols sz) in
    let new_rows := Z.to_nat (rows sz) in
    let! (b, trim) := resize_rows g sz in
    let! b :=
      (if reflow && negb (old_cols =? new_cols)%nat && (2 <=? new_cols)%nat
       then if (old_cols <? new_cols)%nat then reflow_larger b old_cols new_cols new_rows
            else reflow_smaller b old_cols new_cols new_rows
       else Some b) in
    let '(sb, rs) := fit_lines b new_cols new_rows in
    let! last_row := nat_sub new_rows 1 in
    let! last_col := u16_sub (cols sz) 1 in
    let! bottom := u16_sub (rows sz) 1 in
    let! ts := reset_tab_stops (tab_stops g) new_cols in
    let g := mkGrid (freed_rows g + Z.of_nat trim) sz
      (mkPos (Z.of_nat (ln_y b `min` last_row)) (Z.min (col (pos g)) last_col))
      (mkPos (Z.of_nat ((saved_y b - ybase b) `min` last_row)) (Z.min (col (saved_pos g)) last_col))
      (saved_set g) rs 0 bottom (origin_mode g) (saved_origin_mode g)
      sb (scrollback_len g) (Z.min (scrollback_offset g) (Z.of_nat (length sb))) (blank_attrs g) ts in
    Some (pad_scrollback_window g).

(** ** Pairing across cuts *)

Lemma paired_app_inv a b : paired a → paired (a ++ b) → paired b.
Proof.
  induction 1 as [|c l Hc Hl IH|c d l Hc Hd Hl IH]; simpl; [done|..]; intros Hp; inversion Hp as [|? ? Hx Hy|? ? ? Hx Hz Hy]; subst.
  - by apply IH.
  - destruct Hc, Hx. congruence.
  - destruct Hc, Hx. congruence.
  - by apply IH.
Qed.

(** A prefix of paired cells: the last one may be the first half of a wide character. *)
Definition opened (l : list Cell) : Prop := paired l ∨ ∃ a c, l = a ++ [c] ∧ paired a ∧ first_half c.

Lemma opened_prefix a b : paired (a ++ b) → opened a.
Proof.
  intros Hp. destruct (paired_split (a ++ b) (length a) Hp) as [(x & y & E & Hl & Hx & _)|(x & c & d & y & E & Hl & Hx & Hc & _)].
  - rewrite length_app. lia.
  - left. apply app_inj_1 in E as [-> _]; done.
  - right. exists x, c. split; [|done]. change (x ++ c :: d :: y) with (x ++ [c] ++ d :: y) in E. rewrite app_assoc in E.
    apply app_inj_1 in E as [-> _]; [done|]. rewrite length_app. simpl. lia.
Qed.

Lemma opened_suffix a b : paired a → opened (a ++ b) → opened b.
Proof.
  intros Ha [Hp|(x & c & E & Hx & Hc)]; [left; by apply (paired_app_inv a)|].
  destruct b as [|b0 b' _] using rev_ind; [left; constructor|].
  rewrite app_assoc in E. apply app_inj_tail in E as [<- ->]. right. exists b', c. split; [done|]. split; [|done].
  by apply (paired_app_inv a).
Qed.

Lemma paired_concat L : Forall paired L → paired (concat L).
Proof. induction 1; simpl; auto with tymux. Qed.

(** What the code sees in the last cell of such a prefix. *)
Lemma opened_last l w :
  opened l → l ≠ [] → (paired l ∧ width_at (mkRow l w) (Z.of_nat (length l) - 1) ≠ 2) ∨
  (∃ a c, l = a ++ [c] ∧ paired a ∧ first_half c ∧ width_at (mkRow l w) (Z.of_nat (length l) - 1) = 2).
Proof.
  intros Ho Hne. unfold width_at. assert (length l ≠ 0%nat) by (by destruct l).
  rewrite (proj2 (Z.ltb_ge _ _)) by lia. simpl. replace (Z.to_nat (Z.of_nat (length l) - 1)) with (pred (length l)) by lia.
  rewrite <- last_lookup. destruct Ho as [Hp|(a & c & -> & Ha & Hc)].
  - left. split; [done|]. destruct (last l) as [c|] eqn:Hl; [|done]. rewrite (paired_last _ _ Hp Hl).
    by destruct (is_wide_continuation c).
  - right. exists a, c. rewrite last_snoc. destruct Hc as [Hw Hk]. by rewrite Hw, Hk.
Qed.

(** ** Glyphs

    The cells that hold a character: what is shown, whatever the width of the lines. *)

Definition glyphs (cs : list Cell) : list Cell := filter (λ c, glyph c = true) cs.

Definition line_text (ls : list Row) : list Cell := glyphs (concat (cells <$> ls)).

Lemma glyphs_app a b : glyphs (a ++ b) = glyphs a ++ glyphs b.
Proof. apply filter_app. Qed.

Lemma glyphs_none cs : Forall (λ c, glyph c = false) cs → glyphs cs = [].
Proof.
  induction 1 as [|c cs Hc _ IH]; [done|]. unfold glyphs. rewrite filter_cons_False; [done|]. by rewrite Hc.
Qed.

Lemma glyphs_blank n : glyphs (replicate n cell_new) = [].
Proof. apply glyphs_none, Forall_replicate. done. Qed.

Lemma text_app a b : line_text (a ++ b) = line_text a ++ line_text b.
Proof. unfold line_text. by rewrite fmap_app, concat_app, glyphs_app. Qed.

Lemma text_none ls : Forall (λ r, glyphs (cells r) = []) ls → line_text ls = [].
Proof. induction 1 as [|r ls Hr _ IH]; [done|]. change (r :: ls) with ([r] ++ ls). rewrite text_app, IH, app_nil_r. unfold line_text. simpl. by rewrite app_nil_r. Qed.

(** A line up to its last character, and the blanks after it. *)
Lemma trimmed_from_split cs i :
  paired cs → Forall cell_ok cs →
  ∃ a b, cs = a ++ b ∧ trimmed_from i cs = (if bool_decide (a = []) then 0 else i + length a)%nat ∧
    paired a ∧ paired b ∧ Forall plain b ∧ Forall (λ c, glyph c = false) b.
Proof.
  intros Hp. revert i. induction Hp as [|c l Hc Hl IH|c d l Hc Hd Hl IH]; intros i Hok.
  - exists [], []. repeat split; auto with tymux.
  - rewrite Forall_cons in Hok. destruct Hok as [Hcok Hok]. destruct (IH (S i) Hok) as (a & b & -> & Ht & Ha & Hb & Hpl & Hg).
    cbn [trimmed_from app]. rewrite Ht. destruct a as [|a0 a].
    + rewrite bool_decide_eq_true_2 by done. destruct (glyph c) eqn:Hgc.
      * exists [c], b. destruct Hc as [Hw Hk]. rewrite Hw. split; [done|]. split; [simpl; lia|].
        split; [apply paired_plain; [done|constructor]|done].
      * exists [], (c :: b). split; [done|]. split; [done|]. split; [constructor|]. split; [by apply paired_plain|].
        split; by constructor.
    + rewrite bool_decide_eq_false_2 by done. exists (c :: a0 :: a), b. split; [done|]. split; [simpl; lia|].
      split; [by apply paired_plain|done].
  - rewrite !Forall_cons in Hok. destruct Hok as (Hcok & _ & Hok).
    destruct (IH (S (S i)) Hok) as (a & b & -> & Ht & Ha & Hb & Hpl & Hg).
    destruct Hc as [Hw Hk], Hd as [Hdw Hdk]. cbn [trimmed_from app]. rewrite Ht. destruct a as [|a0 a].
    + rewrite bool_decide_eq_true_2 by done. unfold glyph at 1. rewrite Hdk, andb_false_r.
      unfold glyph. rewrite (ck_wide _ Hcok Hw), Hk, Hw. simpl.
      exists [c; d], b. split; [done|]. split; [simpl; lia|]. split; [|done]. apply paired_wide; [done|done|constructor].
    + rewrite bool_decide_eq_false_2 by done. exists (c :: d :: a0 :: a), b. split; [done|]. split; [simpl; lia|].
      split; [by apply paired_wide|done].
Qed.

Lemma trimmed_split r :
  paired (cells r) → Forall cell_ok (cells r) →
  ∃ a b, cells r = a ++ b ∧ length a = trimmed_len r ∧ paired a ∧ glyphs (cells r) = glyphs a ∧
    Forall plain b ∧ Forall (λ c, glyph c = false) b.
Proof.
  intros Hp Hok. destruct (trimmed_from_split (cells r) 0 Hp Hok) as (a & b & E & Ht & Ha & Hb & Hpl & Hg).
  exists a, b. split; [done|]. split; [unfold trimmed_len; rewrite Ht; by destruct a|].
  split; [done|]. split; [|done]. by rewrite E, glyphs_app, (glyphs_none b Hg), app_nil_r.
Qed.

(** ** Positions in a list of segments *)

Definition start {A} (segs : list (list A)) (i : nat) : nat := length (concat (take i segs)).

Lemma start_S {A} (segs : list (list A)) i s : segs !! i = Some s → start segs (S i) = (start segs i + length s)%nat.
Proof.
  intros Hi. unfold start. rewrite (take_S_r _ _ s Hi), concat_app, length_app. simpl. by rewrite app_nil_r.
Qed.

Lemma start_all {A} (segs : list (list A)) : start segs (length segs) = length (concat segs).
Proof. unfold start. by rewrite take_ge. Qed.

Lemma start_le {A} (segs : list (list A)) i j : (i ≤ j)%nat → (start segs i ≤ start segs j)%nat.
Proof.
  intros Hij. unfold start. replace j with (i + (j - i))%nat by lia.
  rewrite <- (take_take_drop segs i (j - i)), concat_app, length_app. lia.
Qed.

Lemma start_total {A} (segs : list (list A)) i : (start segs i ≤ length (concat segs))%nat.
Proof. unfold start. rewrite <- (take_drop i segs) at 2. rewrite concat_app, length_app. lia. Qed.

(** The concatenation seen from inside the [i]-th segment. *)
Lemma concat_at {A} (segs : list (list A)) i s k n :
  segs !! i = Some s → (k + n ≤ length s)%nat → take n (drop (start segs i + k) (concat segs)) = take n (drop k s).
Proof.
  intros Hi Hk. rewrite <- (take_drop_middle segs i s Hi) at 2. rewrite concat_app. simpl. unfold start.
  rewrite <- drop_drop, drop_app_length. rewrite drop_app_le by lia. rewrite take_app_le; [done|]. rewrite length_drop. lia.
Qed.

Lemma take_start {A} (segs : list (list A)) i : take (start segs i) (concat segs) = concat (take i segs).
Proof. unfold start. rewrite <- (take_drop i segs) at 2. by rewrite concat_app, take_app_length. Qed.

(** ** Groups

    A line of a group: [old] columns of text, padded to [len]. *)

Definition line_in (old len : nat) (r : Row) : Prop :=
  ∃ base k, cells r = base ++ replicate k cell_new ∧ (length base ≤ old)%nat ∧ (length base + k ≤ len)%nat ∧
    paired base ∧ Forall cell_ok base.

Definition group_line (old len : nat) (r : Row) : Prop :=
  ∃ base, cells r = base ++ replicate (len - old) cell_new ∧ length base = old ∧ paired base ∧ Forall cell_ok base.

Lemma blanks_ok n : paired (replicate n cell_new) ∧ Forall cell_ok (replicate n cell_new).
Proof. split; [by apply paired_replicate|apply Forall_replicate, cell_new_ok]. Qed.

Lemma pad_line_group old len r : (old ≤ len)%nat → line_in old len r → group_line old len (pad_line len r).
Proof.
  intros Hl (base & k & E & Hb & Hk & Hp & Hok). exists (base ++ replicate (old - length base) cell_new).
  destruct (blanks_ok (old - length base)) as [Hbp Hbok]. split; [|split; [rewrite length_app, length_replicate; lia|]].
  - rewrite <- app_assoc, <- replicate_add. replace (old - length base + (len - old))%nat with (len - length base)%nat by lia.
    unfold pad_line. destruct (Nat.ltb_spec (length (cells r)) len) as [H|H]; simpl.
    + unfold vec_resize. rewrite take_ge by lia. rewrite E, length_app, length_replicate in *.
      rewrite <- app_assoc, <- replicate_add. do 2 f_equal. lia.
    + rewrite E, length_app, length_replicate in *. do 2 f_equal. lia.
  - split; [by apply paired_app|by apply Forall_app].
Qed.

Lemma pad_line_glyphs len r : glyphs (cells (pad_line len r)) = glyphs (cells r).
Proof.
  unfold pad_line. destruct (Nat.ltb_spec (length (cells r)) len); [|done]. simpl. unfold vec_resize.
  rewrite take_ge by lia. by rewrite glyphs_app, glyphs_blank, app_nil_r.
Qed.

Lemma group_line_ok old len r :
  (old ≤ len)%nat → group_line old len r → length (cells r) = len ∧ paired (cells r) ∧ Forall cell_ok (cells r).
Proof.
  intros Hl (base & -> & Hb & Hp & Hok). rewrite length_app, length_replicate.
  destruct (blanks_ok (len - old)). split; [lia|]. split; [by apply paired_app|by apply Forall_app].
Qed.

Lemma trimmed_from_blank cs i b : Forall (λ c, glyph c = false) b → trimmed_from i (cs ++ b) = trimmed_from i cs.
Proof.
  intros Hb. revert i. induction cs as [|c cs IH]; intros i; simpl.
  - revert i. induction Hb as [|c b Hc _ IHb]; intros i; [done|]. simpl. by rewrite IHb, Hc.
  - by rewrite IH.
Qed.

(** The part of each line that belongs to the text of its group. *)
Definition trimmed_of (G : list Row) (old i : nat) : nat := default 0%nat (wrapped_line_trimmed_len G i old).
Definition segs (G : list Row) (old : nat) : list (list Cell) := imap (λ i r, take (trimmed_of G old i) (cells r)) G.

Lemma width_at_end base k w :
  base ≠ [] → width_at (mkRow (base ++ k) w) (Z.of_nat (length base) - 1) = width_at (mkRow base w) (Z.of_nat (length base) - 1).
Proof.
  intros Hne. unfold width_at. assert (length base ≠ 0%nat) by (by destruct base).
  destruct (_ <? _) eqn:E; [done|]. simpl. rewrite lookup_app_l by lia. done.
Qed.

(** A line that ends in a blank cell. *)
Lemma ends_in_null_split base w :
  paired base → base ≠ [] → has_content (mkRow base w) (length base - 1) = false →
  width_at (mkRow base w) (Z.of_nat (length base) - 1) = 1 →
  ∃ a c, base = a ++ [c] ∧ paired a ∧ glyph c = false.
Proof.
  intros Hp Hne Hh Hw. destruct base as [|c a _] using rev_ind; [done|]. exists a, c. split; [done|].
  unfold has_content in Hh. unfold width_at in Hw. rewrite length_app in Hh, Hw. simpl in Hh, Hw.
  rewrite (proj2 (Z.ltb_ge _ _)) in Hw by lia. replace (Z.to_nat (Z.of_nat (length a + 1) - 1)) with (length a) in Hw by lia.
  replace (length a + 1 - 1)%nat with (length a) in Hh by lia. rewrite list_lookup_middle in Hh, Hw by done.
  split; [|done]. destruct (paired_at _ (length a) c Hp (list_lookup_middle _ _ _ _ eq_refl))
    as [(x & y & E & Hx & Hpx & _)|[(x & d & y & E & Hx & _)|(x & d & y & E & Hx & _ & _ & _ & Hc)]].
  - by apply app_inj_1 in E as [-> _].
  - apply app_inj_1 in E as [_ E]; done.
  - destruct Hc as [_ Hk]. by rewrite Hk in Hw.
Qed.

(** What a line contributes: all of its characters, in whole. *)
Record seg_ok (old : nat) (last_line : bool) (r : Row) (t : nat) : Prop := {
  sg_max : (t ≤ old)%nat;
  sg_min : last_line = false → (old ≤ t + 1)%nat;
  sg_paired : paired (take t (cells r));
  sg_glyphs : glyphs (take t (cells r)) = glyphs (cells r);
}.

Lemma last_seg_ok old len r : group_line old len r → seg_ok old true r (trimmed_len r).
Proof.
  intros (base & E & Hl & Hp & Hok). unfold trimmed_len. rewrite E.
  rewrite trimmed_from_blank by (apply Forall_replicate; done).
  destruct (trimmed_split (mkRow base false) Hp Hok) as (a & b & Hab & Ht & Ha & Hg & _). simpl in Hab, Hg.
  unfold trimmed_len in Ht. simpl in Ht. rewrite <- Ht.
  assert (Hta : take (length a) (cells r) = a) by (by rewrite E, Hab, <- app_assoc, take_app_length).
  split; rewrite ?Hta; try done.
  - rewrite <- Hl, Hab, length_app. lia.
  - by rewrite E, glyphs_app, glyphs_blank, app_nil_r.
Qed.

Lemma inner_seg_ok old len r t :
  (1 ≤ old)%nat → group_line old len r →
  t = (if negb (has_content r (old - 1)) && (width_at r (Z.of_nat old - 1) =? 1) then (old - 1)%nat else old) ∨ t = old →
  seg_ok old false r t.
Proof.
  intros Hold (base & E & Hl & Hp & Hok) Ht. destruct r as [cs w]. simpl in E. subst cs.
  assert (Hne : base ≠ []) by (by destruct base; simpl in Hl; [lia|]).
  assert (Hfull : seg_ok old false (mkRow (base ++ replicate (len - old) cell_new) w) old).
  { split; simpl; [lia|lia|rewrite take_app_length' by done; done|].
    by rewrite take_app_length', glyphs_app, glyphs_blank, app_nil_r. }
  destruct Ht as [Ht|Ht]; [|by subst t]. destruct (negb _ && _) eqn:Hc; [|by subst t]. subst t.
  apply andb_true_iff in Hc as [Hh Hw]. apply negb_true_iff in Hh. apply Z.eqb_eq in Hw.
  rewrite <- Hl in Hh, Hw. rewrite width_at_end in Hw by done.
  destruct (ends_in_null_split base w) as (a & c & Hab & Ha & Hc); [done|done| |done|].
  { unfold has_content in *. simpl in *. rewrite lookup_app_l in Hh by lia. done. }
  assert (Hla : (old - 1)%nat = length a) by (rewrite <- Hl, Hab, length_app; simpl; lia).
  rewrite Hla, Hab. split; simpl; [lia|lia|..]; rewrite <- app_assoc, take_app_length; [done|].
  rewrite !glyphs_app, glyphs_blank, (glyphs_none [c]), !app_nil_r by (by constructor). done.
Qed.

Lemma trimmed_len_at G i old len r :
  (1 ≤ old)%nat → Forall (group_line old len) G → G !! i = Some r →
  wrapped_line_trimmed_len G i old = Some (trimmed_of G old i) ∧
  seg_ok old (i + 1 =? length G)%nat r (trimmed_of G old i).
Proof.
  intros Hold HG Hi. assert (Hr : group_line old len r) by (by eapply Forall_lookup_1).
  unfold trimmed_of, wrapped_line_trimmed_len. rewrite Hi.
  destruct (Nat.eqb_spec (i + 1) (length G)) as [Hlast|Hlast]; simpl.
  { split; [done|]. by eapply last_seg_ok. }
  unfold nat_sub. rewrite (proj2 (Nat.leb_le _ _)) by lia. simpl.
  destruct (lookup_lt_is_Some_2 G (i + 1)) as [nx Hnx].
  { apply lookup_lt_Some in Hi. lia. }
  rewrite Hnx. simpl. split; [done|]. apply (inner_seg_ok old len); [done|done|].
  destruct (width_at nx 0 =? 2); [left|right]; by rewrite ?andb_true_r, ?andb_false_r.
Qed.

Lemma segs_lookup G old i r : G !! i = Some r → segs G old !! i = Some (take (trimmed_of G old i) (cells r)).
Proof. intros Hi. unfold segs. by rewrite list_lookup_imap, Hi. Qed.

Lemma segs_length G old : length (segs G old) = length G.
Proof. apply length_imap. Qed.

Lemma segs_paired G old len : (1 ≤ old)%nat → Forall (group_line old len) G → Forall paired (segs G old).
Proof.
  intros Hold HG. apply Forall_lookup. intros i s Hs. destruct (lookup_lt_is_Some_2 G i) as [r Hr].
  { apply lookup_lt_Some in Hs. by rewrite segs_length in Hs. }
  rewrite (segs_lookup _ _ _ _ Hr) in Hs. injection Hs as <-. apply (trimmed_len_at G i old len r Hold HG Hr).
Qed.

(** The text of a group is what its segments hold. *)
Lemma segs_text G old len : (1 ≤ old)%nat → Forall (group_line old len) G → glyphs (concat (segs G old)) = line_text G.
Proof.
  intros Hold HG. unfold line_text. assert (Hlen : length (segs G old) = length (cells <$> G)) by (by rewrite segs_length, length_fmap).
  assert (Hsame : ∀ i s r, segs G old !! i = Some s → (cells <$> G) !! i = Some r → glyphs s = glyphs r).
  { intros i s cs Hs Hr. rewrite list_lookup_fmap in Hr. destruct (G !! i) as [r|] eqn:Hi; [|done]. injection Hr as <-.
    rewrite (segs_lookup _ _ _ _ Hi) in Hs. injection Hs as <-. apply (trimmed_len_at G i old len r Hold HG Hi). }
  clear HG. revert Hlen Hsame. generalize (segs G old), (cells <$> G). intros xs.
  induction xs as [|x xs IH]; intros [|z zs] Hlen Hsame; try done. simpl. rewrite !glyphs_app. f_equal.
  - by apply (Hsame 0%nat).
  - apply IH; [by injection Hlen|]. intros i s r Hs Hr. by apply (Hsame (S i)).
Qed.

(** ** Copying *)

Lemma copy_cells_ok group s sc d dc len rs rd :
  group !! s = Some rs → group !! d = Some rd → (sc + len ≤ length (cells rs))%nat → (dc + len ≤ length (cells rd))%nat →
  copy_cells group s sc d dc len = Some (<[d := write_cells rd dc (take len (drop sc (cells rs)))]> group).
Proof.
  intros Hs Hd Hls Hld. unfold copy_cells. rewrite Hs, Hd.
  replace (len `min` (length (cells rs) - sc) `min` (length (cells rd) - dc))%nat with len by lia.
  by rewrite (proj2 (Nat.leb_le _ _)) by lia.
Qed.

Lemma write_cells_length r col tmp :
  (col + length tmp ≤ length (cells r))%nat → length (cells (write_cells r col tmp)) = length (cells r).
Proof. intros H. simpl. rewrite !length_app, length_take, length_drop. lia. Qed.

Lemma write_cells_take r col tmp :
  (col ≤ length (cells r))%nat → take (col + length tmp) (cells (write_cells r col tmp)) = take col (cells r) ++ tmp.
Proof. intros H. simpl. rewrite app_assoc. apply take_app_length'. rewrite length_app, length_take. lia. Qed.

Lemma write_cells_ok r col tmp :
  Forall cell_ok (cells r) → Forall cell_ok tmp → Forall cell_ok (cells (write_cells r col tmp)).
Proof. intros Hr Ht. simpl. rewrite !Forall_app. split; [by apply Forall_take|]. split; [done|by apply Forall_drop]. Qed.

Lemma take_insert_above {A} (l : list A) i x : take i (<[i:=x]> l) = take i l.
Proof. apply take_insert_ge. lia. Qed.

Lemma slice_length {A} n k (l : list A) : (k + n ≤ length l)%nat → length (take n (drop k l)) = n.
Proof. intros H. rewrite length_take, length_drop. lia. Qed.

Lemma nat_sub_ok a b : (b ≤ a)%nat → nat_sub a b = Some (a - b)%nat.
Proof. intros H. unfold nat_sub. by rewrite (proj2 (Nat.leb_le _ _)). Qed.

Lemma trimmed_len_ext g G i old :
  length g = length G → g !! i = G !! i → g !! (i + 1)%nat = G !! (i + 1)%nat →
  wrapped_line_trimmed_len g i old = wrapped_line_trimmed_len G i old.
Proof. intros Hl H1 H2. unfold wrapped_line_trimmed_len. by rewrite Hl, H1, H2. Qed.
