(* ===== verification/VtReflowWiden.v ===== *)
(** * Widening a group of lines

    [larger_group] refills a wrapped line from its own cells: it never panics, cuts no wide
    character, and keeps every character in order. *)

From S2P Require Import Prelude VtCell VtRow VtGrid VtReflow.

Section Group.
Context (G : list Row) (old new : nat).
Context (Hold : (1 ≤ old)%nat) (Hnew : (old < new)%nat) (HG : Forall (group_line old new) G).

Abbreviation n := (length G).
Abbreviation T := (trimmed_of G old).
Abbreviation S_ := (segs G old).
Abbreviation W := (concat (segs G old)).

Definition row_shape (r : Row) : Prop := length (cells r) = new ∧ Forall cell_ok (cells r).

(** A line that is finished: its text, and a blank where a wide character was pulled down. *)
Definition finished (chunk : list Cell) (r : Row) : Prop := cells r = chunk ∨ cells r = chunk ++ [cell_new].

(** The lines before [di], and line [di] up to [dc], hold the text before line [si], column
    [sc]; what is still to be read has not been overwritten. *)
Record wide_inv (group : list Row) (di dc si sc : nat) : Prop := {
  wi_len : length group = n;
  wi_rows : Forall row_shape group;
  wi_pos : (di ≤ si ≤ n ∧ di < n ∧ dc < new)%nat;
  wi_src : sc = 0%nat ∨ (si < n ∧ sc < T si)%nat;
  wi_rest : ∀ k, (si < k)%nat → group !! k = G !! k;
  wi_same : (di < si)%nat ∨ dc = 0%nat → group !! si = G !! si;
  wi_first : di = si → (0 < dc)%nat → dc = 1%nat ∧ (1 ≤ sc)%nat ∧
    ∃ r c, G !! si = Some r ∧ group !! si = Some (mkRow (c :: drop 1 (cells r)) (wrapped r)) ∧
      (sc = 1%nat → cells r = c :: drop 1 (cells r));
  wi_out : ∃ L row, Forall2 finished L (take di group) ∧ Forall paired L ∧ group !! di = Some row ∧
    concat L ++ take dc (cells row) = take (start S_ si + sc) W;
}.

Lemma source_row i r : G !! i = Some r →
  wrapped_line_trimmed_len G i old = Some (T i) ∧ (T i ≤ old)%nat ∧ length (cells r) = new ∧ Forall cell_ok (cells r).
Proof.
  intros Hi. destruct (trimmed_len_at G i old new r Hold HG Hi) as [Ht Hs].
  destruct (group_line_ok old new r) as (Hl & _ & Hok); [lia|by eapply Forall_lookup_1|].
  split; [done|]. split; [apply Hs|done].
Qed.

Lemma source_slice si r sc k :
  G !! si = Some r → (sc + k ≤ T si)%nat →
  take k (drop sc (cells r)) = take k (drop (start S_ si + sc) W) ∧ start S_ (S si) = (start S_ si + T si)%nat.
Proof.
  intros Hi Hk. destruct (source_row si r Hi) as (_ & Ht & Hl & _).
  pose proof (segs_lookup G old si r Hi) as Hs. assert (Hls : length (take (T si) (cells r)) = T si) by (rewrite length_take; lia).
  split; [|by rewrite (start_S _ _ _ Hs), Hls].
  rewrite (concat_at S_ si _ sc k Hs) by lia. rewrite skipn_firstn_comm, take_take. f_equal. lia.
Qed.

Lemma text_paired : paired W.
Proof. by eapply paired_concat, segs_paired. Qed.

Lemma trimmed_from_head i c d l :
  (i + 3 ≤ trimmed_from i (d :: l))%nat → trimmed_from i (c :: l) = trimmed_from i (d :: l).
Proof. simpl. destruct (trimmed_from (S i) l); [|done]. destruct (glyph d), (is_wide d); lia. Qed.

(** The line being read still has its length and its unread cells. *)
Lemma source_intact group di dc si sc r :
  wide_inv group di dc si sc → G !! si = Some r →
  ∃ r', group !! si = Some r' ∧ drop sc (cells r') = drop sc (cells r) ∧ wrapped_line_trimmed_len group si old = Some (T si).
Proof.
  intros Hi Hr. destruct (source_row si r Hr) as (Ht & Hto & Hl & _). pose proof (wi_pos _ _ _ _ _ Hi) as Hpos.
  assert (Hnext : group !! (si + 1)%nat = G !! (si + 1)%nat) by (apply (wi_rest _ _ _ _ _ Hi); lia).
  assert (Hdec : (di < si ∨ dc = 0)%nat ∨ (di = si ∧ 0 < dc)%nat) by lia. destruct Hdec as [Hsame|[Hdi Hdc]].
  { pose proof (wi_same _ _ _ _ _ Hi Hsame) as E. exists r. rewrite E. split; [done|]. split; [done|].
    rewrite <- Ht. apply trimmed_len_ext; [apply Hi|done|done]. }
  destruct (wi_first _ _ _ _ _ Hi Hdi Hdc) as (_ & Hsc & r0 & c & Hr0 & Hrow & Hone). rewrite Hr in Hr0. injection Hr0 as <-.
  eexists. split; [done|]. destruct (wi_src _ _ _ _ _ Hi) as [Hz|[_ Hlt]]; [lia|].
  destruct (cells r) as [|d l] eqn:Ec; [simpl in Hl; lia|]. simpl in Hrow, Hone.
  split; [by destruct sc; [lia|]|]. destruct (Nat.eq_dec sc 1) as [E1|E1].
  { specialize (Hone E1). injection Hone as ->. rewrite <- Ht. apply trimmed_len_ext; [apply Hi| |done].
    rewrite Hrow, Hr. destruct r; simpl in *. by subst. }
  rewrite <- Ht. unfold wrapped_line_trimmed_len. rewrite Hrow, Hr, (wi_len _ _ _ _ _ Hi).
  unfold trimmed_of, wrapped_line_trimmed_len in Hto, Hlt. rewrite Hr in Hto, Hlt. simpl in Hto, Hlt |- *.
  destruct (Nat.eqb_spec (si + 1) n) as [_|_].
  - f_equal. simpl in Hlt. unfold trimmed_len in *. rewrite Ec in *. apply trimmed_from_head. lia.
  - unfold nat_sub in *. rewrite (proj2 (Nat.leb_le _ _)) in * by lia. simpl in *. rewrite Hnext.
    destruct (G !! (si + 1)%nat); [|done]. simpl in *. unfold has_content, width_at. simpl. rewrite Ec.
    destruct old as [|[|o]]; [lia| |].
    + destruct (_ && _) in Hlt; lia.
    + replace (S (S o) - 1)%nat with (S o) by lia. replace (Z.to_nat (Z.of_nat (S (S o)) - 1)) with (S o) by lia. done.
Qed.

(** The text filled in so far, with line [di] as it is now. *)
Definition filled (group : list Row) (di : nat) (row : Row) (dc off : nat) : Prop :=
  ∃ L, Forall2 finished L (take di group) ∧ Forall paired L ∧ concat L ++ take dc (cells row) = take off W.

Lemma copy_step group di dc si sc r :
  wide_inv group di dc si sc → G !! si = Some r →
  let tc := ((T si - sc) `min` (new - dc))%nat in
  ∃ row, copy_cells group si sc di dc tc = Some (<[di := row]> group) ∧ row_shape row ∧
    filled group di row (dc + tc) (start S_ si + sc + tc) ∧
    (sc = 0%nat → tc = 1%nat → ∃ c, cells r = c :: drop 1 (cells r) ∧ cells row !! dc = Some c).
Proof.
  intros Hi Hr tc. destruct (source_row si r Hr) as (Ht & Hto & Hl & Hok). pose proof (wi_pos _ _ _ _ _ Hi) as Hpos.
  destruct (source_intact _ _ _ _ _ _ Hi Hr) as (r' & Hr' & Hdrop & _).
  destruct (wi_out _ _ _ _ _ Hi) as (L & rd & HL & HLp & Hrd & Hout).
  destruct (Forall_lookup_1 _ _ _ _ (wi_rows _ _ _ _ _ Hi) Hr') as [Hl' Hok'].
  destruct (Forall_lookup_1 _ _ _ _ (wi_rows _ _ _ _ _ Hi) Hrd) as [Hld Hokd].
  assert (Hsc : (sc ≤ T si)%nat) by (destruct (wi_src _ _ _ _ _ Hi); lia).
  set (tmp := take tc (drop sc (cells r'))).
  assert (Hlt : length tmp = tc) by (apply slice_length; lia).
  assert (Htmp : tmp = take tc (drop (start S_ si + sc) W)).
  { unfold tmp. rewrite Hdrop. apply (source_slice si r sc tc Hr). lia. }
  exists (write_cells rd dc tmp). split; [apply copy_cells_ok; [done|done|lia|lia]|].
  split; [split; [rewrite write_cells_length; lia|apply write_cells_ok; [done|by apply Forall_take, Forall_drop]]|].
  split.
  - exists L. split; [done|]. split; [done|]. rewrite <- Hlt at 1. rewrite write_cells_take by lia.
    rewrite app_assoc, Hout, Htmp, take_take_drop. f_equal.
  - intros Hz H1. destruct (cells r) as [|c l] eqn:Ec; [simpl in Hl; lia|]. exists c. split; [done|].
    simpl. assert (Hc : tmp = [c]) by (unfold tmp; rewrite Hdrop, Hz, H1; done). rewrite Hc.
    apply list_lookup_middle. rewrite length_take. lia.
Qed.

Lemma paired_end r : length (cells r) = new → paired (cells r) → width_at r (Z.of_nat new - 1) =? 2 = false.
Proof.
  intros Hl Hp. destruct r as [cs w]. simpl in *. apply Z.eqb_neq.
  destruct (opened_last cs w (or_introl Hp)) as [[_ H]|(a & c & -> & Ha & Hc & _)].
  - intros ->. simpl in Hl. lia.
  - by rewrite Hl in H.
  - exfalso. apply (paired_app_inv a [c] Ha) in Hp. inversion Hp as [|? ? Hx|]; subst. destruct Hc, Hx. congruence.
Qed.

Lemma finished_paired chunk r : finished chunk r → paired chunk → paired (cells r).
Proof. intros [->| ->] Hp; [done|]. apply paired_app; [done|]. apply paired_plain; [done|constructor]. Qed.

(** The line above an empty one is complete. *)
Lemma above_complete group di row dc off k r :
  Forall row_shape group → filled group di row dc off → (k < di)%nat → group !! k = Some r →
  width_at r (Z.of_nat new - 1) =? 2 = false.
Proof.
  intros Hrows (L & HL & HLp & _) Hk Hr. apply paired_end; [by apply (Forall_lookup_1 _ _ _ _ Hrows Hr)|].
  assert (Ht : take di group !! k = Some r) by (by rewrite lookup_take_lt).
  destruct (Forall2_lookup_r _ _ _ _ _ HL Ht) as (chunk & Hc & Hf).
  eapply finished_paired; [done|by eapply Forall_lookup_1].
Qed.

Lemma rest_intact group di dc si sc k :
  wide_inv group di dc si sc → (di < si)%nat → (si ≤ k)%nat → group !! k = G !! k.
Proof.
  intros Hi Hd Hk. destruct (Nat.eq_dec k si) as [->|]; [by apply (wi_same _ _ _ _ _ Hi); left|].
  apply (wi_rest _ _ _ _ _ Hi). lia.
Qed.

(** A line is read to its end and does not fill the line it is copied to. *)
Lemma step_source group di dc si sc r row :
  wide_inv group di dc si sc → G !! si = Some r → (dc + (T si - sc) < new)%nat → row_shape row →
  filled group di row (dc + (T si - sc)) (start S_ si + sc + (T si - sc)) →
  wide_inv (<[di := row]> group) di (dc + (T si - sc)) (si + 1) 0.
Proof.
  intros Hi Hr Hdc Hrow (L & HL & HLp & Hout). pose proof (wi_pos _ _ _ _ _ Hi) as Hpos. pose proof (wi_len _ _ _ _ _ Hi) as Hlen.
  assert (Hsi : (si < n)%nat) by (by apply lookup_lt_Some in Hr).
  assert (Hsc : (sc ≤ T si)%nat) by (destruct (wi_src _ _ _ _ _ Hi); lia).
  destruct (source_slice si r 0 0 Hr) as [_ Hst]; [lia|].
  split.
  - by rewrite length_insert.
  - apply Forall_insert; [apply Hi|done].
  - lia.
  - by left.
  - intros k Hk. rewrite list_lookup_insert_ne by lia. apply (wi_rest _ _ _ _ _ Hi). lia.
  - intros _. rewrite list_lookup_insert_ne by lia. apply (wi_rest _ _ _ _ _ Hi). lia.
  - lia.
  - exists L, row. rewrite take_insert_above. split; [done|]. split; [done|]. split.
    + apply list_lookup_insert_eq. lia.
    + rewrite Hout. f_equal. replace (si + 1)%nat with (S si) by lia. lia.
Qed.

(** Where reading goes on after [k] more cells of line [si]. *)
Definition advance (si sc k : nat) : nat * nat :=
  if (sc + k =? T si)%nat then ((si + 1)%nat, 0%nat) else (si, (sc + k)%nat).

Lemma advance_ok group di dc si sc k r :
  wide_inv group di dc si sc → G !! si = Some r → (k ≤ T si - sc)%nat →
  let '(si', sc') := advance si sc k in
  (si ≤ si' ≤ n)%nat ∧ (sc' = 0%nat ∨ (si' < n ∧ sc' < T si')%nat) ∧
  (start S_ si' + sc' = start S_ si + sc + k)%nat ∧ (si' = si → sc' = (sc + k)%nat).
Proof.
  intros Hi Hr Hk. assert (Hsi : (si < n)%nat) by (by apply lookup_lt_Some in Hr).
  assert (Hsc : (sc ≤ T si)%nat) by (destruct (wi_src _ _ _ _ _ Hi); lia).
  destruct (source_slice si r 0 0 Hr) as [_ Hst]; [lia|].
  unfold advance. destruct (Nat.eqb_spec (sc + k) (T si)) as [E|E].
  - replace (si + 1)%nat with (S si) by lia. split; [lia|]. split; [by left|]. split; lia.
  - split; [lia|]. split; [right; lia|]. split; lia.
Qed.

(** A line is filled with whole characters. *)
Lemma step_full group di dc si sc si' sc' row :
  wide_inv group di dc si sc → (di < si)%nat → row_shape row → paired (cells row) →
  (si ≤ si' ≤ n)%nat → (si < n)%nat → (sc' = 0%nat ∨ (si' < n ∧ sc' < T si')%nat) →
  filled group di row new (start S_ si' + sc') → wide_inv (<[di := row]> group) (di + 1) 0 si' sc'.
Proof.
  intros Hi Hd Hrow Hp Hsi' Hsi Hsc' (L & HL & HLp & Hout). pose proof (wi_len _ _ _ _ _ Hi) as Hlen.
  destruct (lookup_lt_is_Some_2 group (di + 1)) as [rn Hrn]; [lia|].
  assert (Hkeep : ∀ k, (si ≤ k)%nat → <[di:=row]> group !! k = G !! k).
  { intros k Hk. rewrite list_lookup_insert_ne by lia. by eapply rest_intact. }
  split.
  - by rewrite length_insert.
  - apply Forall_insert; [apply Hi|done].
  - lia.
  - done.
  - intros k Hk. apply Hkeep. lia.
  - intros _. apply Hkeep. lia.
  - lia.
  - exists (L ++ [cells row]), rn. split.
    { replace (di + 1)%nat with (S di) by lia. rewrite (take_S_r _ di row) by (apply list_lookup_insert_eq; lia).
      rewrite take_insert_above. apply Forall2_app; [done|]. constructor; [by left|constructor]. }
    split; [apply Forall_app; by repeat constructor|]. split; [rewrite list_lookup_insert_ne by lia; done|].
    rewrite concat_app, <- Hout. simpl. rewrite !app_nil_r. f_equal. rewrite take_ge; [done|]. destruct Hrow. lia.
Qed.

(** A line is filled up to the first half of a wide character, which is pulled down. *)
Lemma step_wide group di dc si sc si' sc' row a c rn :
  wide_inv group di dc si sc → (di < si)%nat → row_shape row → cells row = a ++ [c] → paired a →
  (si ≤ si' ≤ n)%nat → (si < n)%nat → (sc' = 0%nat ∨ (si' < n ∧ sc' < T si')%nat) →
  filled group di row new (start S_ si' + sc') → group !! (di + 1)%nat = Some rn →
  (si' = si → (1 ≤ sc')%nat ∧ (sc' = 1%nat → ∀ r, G !! si = Some r → cells r = c :: drop 1 (cells r))) →
  wide_inv (<[di := mkRow (a ++ [cell_new]) (wrapped row)]> (<[(di + 1)%nat := write_cells rn 0 [c]]> group)) (di + 1) 1 si' sc'.
Proof.
  intros Hi Hd [Hlr Hokr] Ec Ha Hsi' Hsi Hsc' (L & HL & HLp & Hout) Hrn Hsame. pose proof (wi_len _ _ _ _ _ Hi) as Hlen.
  destruct (Forall_lookup_1 _ _ _ _ (wi_rows _ _ _ _ _ Hi) Hrn) as [Hln Hokn].
  rewrite Ec, length_app in Hlr. simpl in Hlr. rewrite Ec, Forall_app in Hokr. destruct Hokr as [Hoka Hokc].
  assert (Hkeep : ∀ k, (si ≤ k)%nat → k ≠ (di + 1)%nat →
    <[di := mkRow (a ++ [cell_new]) (wrapped row)]> (<[(di + 1)%nat := write_cells rn 0 [c]]> group) !! k = G !! k).
  { intros k Hk Hne. rewrite !list_lookup_insert_ne by lia. by eapply rest_intact. }
  split.
  - by rewrite !length_insert.
  - apply Forall_insert; [apply Forall_insert; [apply Hi|]|].
    + split; [rewrite write_cells_length; simpl; lia|by apply write_cells_ok].
    + split; simpl; [rewrite length_app; simpl; lia|]. apply Forall_app. split; [done|]. repeat constructor; apply cell_new_ok.
  - lia.
  - done.
  - intros k Hk. apply Hkeep; lia.
  - intros [Hlt|?]; [|done]. apply Hkeep; lia.
  - intros Heq _. assert (si' = si) as -> by lia. destruct (Hsame eq_refl) as [H1 Hc]. split; [done|]. split; [done|].
    assert (HGn : G !! si = Some rn) by (rewrite <- Hrn, Heq; symmetry; eapply rest_intact; [done|done|lia]).
    exists rn, c. split; [done|]. split; [|intros E; by apply Hc].
    rewrite <- Heq, list_lookup_insert_ne, list_lookup_insert_eq by lia. done.
  - exists (L ++ [a]), (write_cells rn 0 [c]). split.
    { replace (di + 1)%nat with (S di) by lia.
      rewrite (take_S_r _ di (mkRow (a ++ [cell_new]) (wrapped row))) by (apply list_lookup_insert_eq; rewrite length_insert; lia).
      rewrite take_insert_above, take_insert_ge by lia. apply Forall2_app; [done|]. constructor; [by right|constructor]. }
    split; [apply Forall_app; by repeat constructor|].
    split; [rewrite list_lookup_insert_ne by lia; apply list_lookup_insert_eq; lia|].
    rewrite concat_app, <- Hout, Ec, (take_ge (a ++ [c])) by (rewrite length_app; simpl; lia).
    simpl. by rewrite take_0, app_nil_r, <- app_assoc.
Qed.

Lemma opened_row group di row off :
  filled group di row new off → row_shape row → opened (cells row).
Proof.
  intros (L & _ & HLp & Hout) [Hl _]. rewrite take_ge in Hout by lia. apply (opened_suffix (concat L)); [by apply paired_concat|].
  rewrite Hout. apply (opened_prefix _ (drop off W)). rewrite take_drop. apply text_paired.
Qed.

(** One round of the loop. *)
Lemma larger_round fuel group di dc si sc :
  wide_inv group di dc si sc → (si < n)%nat →
  ∃ group' di' dc' si' sc',
    larger_loop (S fuel) group old new di dc si sc = larger_loop fuel group' old new di' dc' si' sc' ∧
    wide_inv group' di' dc' si' sc' ∧ ((n - si') + (n - di') < (n - si) + (n - di))%nat.
Proof.
  intros Hi Hsi. destruct (lookup_lt_is_Some_2 G si Hsi) as [r Hr]. pose proof (wi_pos _ _ _ _ _ Hi) as Hpos.
  destruct (source_row si r Hr) as (_ & Hto & Hl & _). pose proof (wi_len _ _ _ _ _ Hi) as Hlen.
  assert (Hsc : (sc ≤ T si)%nat) by (destruct (wi_src _ _ _ _ _ Hi); lia).
  destruct (source_intact _ _ _ _ _ _ Hi Hr) as (r' & _ & _ & Hw).
  destruct (copy_step _ _ _ _ _ _ Hi Hr) as (row & Hcopy & Hrow & Hfill & Hone).
  cbn [larger_loop]. rewrite Hlen, (proj2 (Nat.ltb_lt _ _)) by done. rewrite Hw, !nat_sub_ok by lia. rewrite Hcopy.
  set (tc := ((T si - sc) `min` (new - dc))%nat) in *.
  destruct (Nat.eqb_spec (dc + tc) new) as [Hfull|Hfull].
  - assert (Hd : (di < si)%nat).
    { destruct (Nat.eq_dec di si) as [E|]; [|lia]. exfalso. destruct (Nat.eq_dec dc 0); [lia|].
      destruct (wi_first _ _ _ _ _ Hi E) as (-> & ? & _); lia. }
    pose proof (advance_ok _ _ _ _ _ tc r Hi Hr) as Hadv. fold (advance si sc tc). destruct (advance si sc tc) as [si' sc'].
    destruct Hadv as (Hsi' & Hsc' & Hoff & Hsame); [lia|]. rewrite Hfull, <- Hoff in Hfill.
    rewrite (proj2 (Nat.eqb_neq (di + 1) 0)) by lia. cbn [andb negb Nat.eqb].
    replace (di + 1 - 1)%nat with di by lia. rewrite list_lookup_insert_eq by lia.
    destruct (opened_last (cells row) (wrapped row)) as [[Hp Hw2]|(a & c & Ea & Ha & Hc & Hw2)];
      [by eapply opened_row|destruct Hrow; destruct (cells row); simpl in *; [lia|done]|..];
      replace (mkRow (cells row) (wrapped row)) with row in Hw2 by (by destruct row); destruct Hrow as [Hlr Hokr];
      rewrite Hlr in Hw2.
    + rewrite (proj2 (Z.eqb_neq _ _) Hw2). eexists _, _, _, _, _. split; [done|]. split; [|lia].
      by apply (step_full _ _ _ _ _ _ _ _ Hi).
    + rewrite (proj2 (Z.eqb_eq _ _) Hw2).
      destruct (lookup_lt_is_Some_2 group (di + 1)) as [rn Hrn]; [lia|].
      destruct (Forall_lookup_1 _ _ _ _ (wi_rows _ _ _ _ _ Hi) Hrn) as [Hln Hokn].
      rewrite (copy_cells_ok _ di (new - 1) (di + 1) 0 1 row rn);
        [|apply list_lookup_insert_eq; lia|rewrite list_lookup_insert_ne by lia; done|lia|lia].
      assert (Hla : length a = (new - 1)%nat) by (rewrite Ea, length_app in Hlr; simpl in Hlr; lia).
      rewrite Ea, <- Hla, drop_app_length. unfold update_line.
      rewrite list_lookup_insert_ne, list_lookup_insert_eq by lia. unfold set_cell. rewrite Ea, vec_set_middle.
      eexists _, _, _, _, _. split; [done|]. split; [|lia].
      rewrite list_insert_insert_ne by lia. rewrite list_insert_insert_eq. rewrite list_insert_insert_ne by lia.
      simpl. apply (step_wide group di dc si sc); try done.
      intros Es. specialize (Hsame Es). split; [lia|]. intros E1 r0 Hr0. rewrite Hr in Hr0. injection Hr0 as <-.
      destruct Hone as (c0 & Hc0 & Hlk); [lia|lia|]. rewrite Hc0. f_equal.
      rewrite Ea, list_lookup_middle in Hlk by lia. by injection Hlk.
  - assert (Htc : tc = (T si - sc)%nat) by lia. assert (Hlt : (dc + tc < new)%nat) by lia.
    rewrite (proj2 (Nat.eqb_eq (sc + tc) (T si))) by lia. clearbody tc. subst tc.
    exists (<[di:=row]> group), di, (dc + (T si - sc))%nat, (si + 1)%nat, 0%nat. split; [|split; [by apply (step_source _ _ _ _ _ r)|lia]].
    destruct (_ && _) eqn:Hz; [|done]. apply andb_true_iff in Hz as [_ Hz]. apply negb_true_iff, Nat.eqb_neq in Hz.
    destruct (lookup_lt_is_Some_2 group (di - 1)) as [ra Hra]; [lia|].
    rewrite list_lookup_insert_ne by lia. rewrite Hra.
    by rewrite (above_complete _ _ _ _ _ (di - 1) ra (wi_rows _ _ _ _ _ Hi) Hfill) by (done || lia).
Qed.

Lemma larger_loop_ok fuel group di dc si sc :
  wide_inv group di dc si sc → ((n - si) + (n - di) < fuel)%nat →
  ∃ group' di' dc', larger_loop fuel group old new di dc si sc = Some (group', di', dc') ∧ wide_inv group' di' dc' n 0.
Proof.
  revert group di dc si sc. induction fuel as [|fuel IH]; intros group di dc si sc Hi Hf; [lia|].
  pose proof (wi_pos _ _ _ _ _ Hi) as Hpos. destruct (decide (si < n)%nat) as [Hlt|Hge].
  - destruct (larger_round fuel _ _ _ _ _ Hi Hlt) as (g' & di' & dc' & si' & sc' & -> & Hi' & Hm). apply IH; [done|lia].
  - exists group, di, dc. assert (si = n) as -> by lia. assert (sc = 0%nat) as -> by (destruct (wi_src _ _ _ _ _ Hi); lia).
    split; [|done]. cbn [larger_loop]. by rewrite (wi_len _ _ _ _ _ Hi), Nat.ltb_irrefl.
Qed.

Lemma wide_start : (1 ≤ n)%nat → wide_inv G 0 (T 0) 1 0.
Proof.
  intros Hn. destruct (lookup_lt_is_Some_2 G 0 Hn) as [r Hr]. destruct (source_row 0 r Hr) as (_ & Ht & _).
  destruct (source_slice 0 r 0 (T 0) Hr) as [Hs Hst]; [lia|]. split; try done; try lia.
  - apply Forall_lookup. intros i x Hx. destruct (source_row i x Hx) as (_ & _ & ? & ?). by split.
  - exists [], r. split; [constructor|]. split; [constructor|]. split; [done|]. rewrite Hst. simpl.
    rewrite drop_0 in Hs. rewrite Hs. simpl. by rewrite Nat.add_0_r.
Qed.

Lemma replace_cells_ok row dc :
  row_shape row → (dc < new)%nat → paired (take dc (cells row)) →
  replace_cells row dc new = Some (mkRow (take dc (cells row) ++ replicate (new - dc) cell_new) (wrapped row)).
Proof.
  intros [Hl _] Hdc Hp. unfold replace_cells.
  assert (Hw : (0 <? dc)%nat && (width_at row (Z.of_nat dc - 1) =? 2) = false).
  { destruct dc as [|d]; [done|]. simpl. apply Z.eqb_neq.
    set (a := take (S d) (cells row)) in *. assert (Hla : length a = S d) by (unfold a; rewrite length_take; lia).
    assert (Hr : row = mkRow (a ++ drop (S d) (cells row)) (wrapped row)) by (unfold a; rewrite take_drop; by destruct row).
    rewrite Hr, <- Hla, width_at_end by (by destruct a).
    destruct (opened_last a (wrapped row) (or_introl Hp)) as [[_ ?]|(x & c & Ex & Hx & Hc & _)]; [by destruct a|done|].
    exfalso. rewrite Ex in Hp. apply (paired_app_inv x [c] Hx) in Hp. inversion Hp as [|? ? Hy|]; subst. destruct Hc, Hy. congruence. }
  rewrite Hw, Hl, Nat.ltb_irrefl. simpl. rewrite Hl, Nat.min_id. unfold write_cells. rewrite length_replicate.
  rewrite (drop_ge (cells row)) by lia. by rewrite app_nil_r.
Qed.
End Group.

(** The lines at the end of a group that [count_empty] counts: beyond the text, or without
    any. *)
Lemma count_empty_ok group di k :
  (k < length group)%nat →
  ∃ c, count_empty group di k = Some c ∧ (c ≤ k)%nat ∧ (k - c ≤ di)%nat ∧
    ∀ j r, (k - c < j ≤ k)%nat → (j ≤ di)%nat → group !! j = Some r → trimmed_len r = 0%nat.
Proof.
  induction k as [|k IH]; intros Hk; cbn [count_empty].
  { exists 0%nat. split; [done|]. split; [lia|]. split; [lia|]. intros j r Hj. lia. }
  destruct (lookup_lt_is_Some_2 group (S k) Hk) as [r Hr]. rewrite Hr.
  destruct IH as (c & -> & Hc & Hd & Hempty); [lia|].
  destruct (Nat.ltb_spec di (S k)) as [Hlt|Hge]; simpl.
  { exists (S c). split; [done|]. split; [lia|]. split; [lia|]. intros j x Hj Hjd. apply Hempty; lia. }
  destruct (Nat.eqb_spec (trimmed_len r) 0) as [Hz|Hz].
  - exists (S c). split; [done|]. split; [lia|]. split; [lia|]. intros j x Hj Hjd Hx.
    destruct (Nat.eq_dec j (S k)) as [->|]; [congruence|]. apply (Hempty j); [lia|lia|done].
  - exists 0%nat. split; [done|]. split; [lia|]. split; [lia|]. intros j x Hj. lia.
Qed.

Lemma trimmed_zero r : paired (cells r) → Forall cell_ok (cells r) → trimmed_len r = 0%nat → glyphs (cells r) = [].
Proof. intros Hp Hok Hz. destruct (trimmed_split r Hp Hok) as (a & b & _ & Hl & _ & -> & _). rewrite Hz in Hl. by destruct a. Qed.

Definition line_ok (r : Row) : Prop := paired (cells r) ∧ Forall cell_ok (cells r).

(** A well-formed line of at most [n] cells. *)
Definition fits (n : nat) (r : Row) : Prop := line_ok r ∧ (length (cells r) ≤ n)%nat.

Lemma finished_text L ls : Forall2 finished L ls → line_text ls = glyphs (concat L).
Proof.
  induction 1 as [|chunk r L ls Hf _ IH]; [done|]. change (r :: ls) with ([r] ++ ls). rewrite text_app, IH. simpl.
  rewrite glyphs_app. f_equal. unfold line_text. simpl. rewrite app_nil_r. destruct Hf as [->| ->]; [done|].
  rewrite glyphs_app. apply app_nil_r.
Qed.

Lemma pad_group ls old new :
  (old ≤ new)%nat → Forall (line_in old new) ls →
  Forall (group_line old new) (pad_line new <$> ls) ∧ line_text (pad_line new <$> ls) = line_text ls.
Proof.
  intros Hn Hls. split.
  - apply Forall_fmap. eapply Forall_impl; [exact Hls|]. intros r Hr. by apply pad_line_group.
  - clear. induction ls as [|r ls IH]; [done|]. rewrite fmap_cons. change (pad_line new r :: ?x) with ([pad_line new r] ++ x).
    change (r :: ls) with ([r] ++ ls). rewrite !text_app, IH. f_equal. unfold line_text. simpl. rewrite !app_nil_r. apply pad_line_glyphs.
Qed.

(** The last line, once its tail is blanked, ends the text of the group. *)
Lemma larger_done G old new group di dc row :
  (1 ≤ old)%nat → (old < new)%nat → Forall (group_line old new) G →
  wide_inv G old new group di dc (length G) 0 → group !! di = Some row →
  let row' := mkRow (take dc (cells row) ++ replicate (new - dc) cell_new) (wrapped row) in
  replace_cells row dc new = Some row' ∧ Forall (fits new) (take (di + 1) (<[di := row']> group)) ∧
  line_text (take (di + 1) (<[di := row']> group)) = line_text G.
Proof.
  intros Hold Hnew HG Hi Hrow row'. pose proof (wi_pos _ _ _ _ _ _ _ _ Hi) as Hpos. pose proof (wi_len _ _ _ _ _ _ _ _ Hi) as Hlen.
  destruct (wi_out _ _ _ _ _ _ _ _ Hi) as (L & rd & HL & HLp & Hrd & Hout). rewrite Hrow in Hrd. injection Hrd as <-.
  pose proof (Forall_lookup_1 _ _ _ _ (wi_rows _ _ _ _ _ _ _ _ Hi) Hrow) as Hshape.
  rewrite Nat.add_0_r in Hout. rewrite <- (segs_length G old), start_all in Hout. rewrite firstn_all in Hout.
  assert (Hp : paired (take dc (cells row))).
  { apply (paired_app_inv (concat L)); [by apply paired_concat|]. rewrite Hout. by eapply text_paired. }
  destruct (blanks_ok (new - dc)) as [Hbp Hbok].
  split; [apply (replace_cells_ok G old new); try done; lia|].
  replace (di + 1)%nat with (S di) by lia. rewrite (take_S_r _ di row') by (apply list_lookup_insert_eq; lia).
  rewrite take_insert_above. split.
  - apply Forall_app. split.
    + apply Forall_lookup. intros k r Hr. destruct (Forall2_lookup_r _ _ _ _ _ HL Hr) as (chunk & Hc & Hf).
      apply lookup_take_Some in Hr as [Hr _]. destruct (Forall_lookup_1 _ _ _ _ (wi_rows _ _ _ _ _ _ _ _ Hi) Hr) as [Hlr Hokr].
      split; [|lia]. split; [eapply finished_paired; [done|by eapply Forall_lookup_1]|done].
    + constructor; [|constructor]. destruct Hshape as [Hls Hoks]. split; simpl.
      * split; simpl; [by apply paired_app|]. apply Forall_app. split; [by apply Forall_take|done].
      * rewrite length_app, length_take, length_replicate. lia.
  - rewrite text_app, (finished_text _ _ HL). unfold line_text at 1. simpl.
    rewrite app_nil_r, glyphs_app, glyphs_blank, app_nil_r, <- glyphs_app, Hout. by eapply segs_text.
Qed.

Lemma larger_group_ok ls old new :
  (1 ≤ old)%nat → (old < new)%nat → Forall (line_in old new) ls → (1 ≤ length ls)%nat →
  ∃ group count, larger_group ls old new = Some (group, count) ∧ length group = length ls ∧ (count < length ls)%nat ∧
    Forall (fits new) (take (length ls - count) group) ∧ line_text (take (length ls - count) group) = line_text ls.
Proof.
  intros Hold Hnew Hls Hn. destruct (pad_group ls old new) as [HG Htext]; [lia|done|].
  unfold larger_group. rewrite <- Htext. rewrite <- (length_fmap (pad_line new) ls) in Hn |- *.
  set (G := pad_line new <$> ls) in *. clearbody G. clear Hls Htext ls.
  destruct (lookup_lt_is_Some_2 G 0) as [r0 Hr0]; [lia|].
  destruct (source_row G old new Hold Hnew HG 0 r0 Hr0) as (-> & _).
  destruct (larger_loop_ok G old new Hold Hnew HG (2 * length G) G 0 (trimmed_of G old 0) 1 0) as (g & di & dc & -> & Hi);
    [by apply wide_start|lia|].
  destruct (wi_out _ _ _ _ _ _ _ _ Hi) as (_ & row & _ & _ & Hrow & _).
  destruct (larger_done G old new g di dc row) as (Hrep & Hok & Htext); [done..|].
  unfold update_line. rewrite Hrow, Hrep. pose proof (wi_pos _ _ _ _ _ _ _ _ Hi) as Hpos.
  pose proof (wi_len _ _ _ _ _ _ _ _ Hi) as Hlen. revert Hok Htext. set (g' := <[di:=_]> g). intros Hok Htext.
  assert (Hlen' : length g' = length G) by (unfold g'; by rewrite length_insert). clearbody g'.
  destruct (count_empty_ok g' di (length G - 1)) as (c & -> & Hc & Hd & Hempty); [lia|].
  exists g', c. split; [done|]. split; [done|]. split; [lia|].
  assert (Hsplit : take (di + 1) g' = take (length G - c) g' ++ drop (length G - c) (take (di + 1) g')).
  { rewrite <- (take_drop (length G - c) (take (di + 1) g')) at 1. f_equal. rewrite take_take. f_equal. lia. }
  rewrite Hsplit, Forall_app in Hok. destruct Hok as [Hok1 Hok2]. split; [done|].
  rewrite <- Htext, Hsplit, text_app, (text_none (drop _ _)), app_nil_r; [done|].
  apply Forall_lookup. intros k r Hr. pose proof (Forall_lookup_1 _ _ _ _ Hok2 Hr) as [[Hp Hcok] _].
  rewrite lookup_drop in Hr. apply lookup_take_Some in Hr as [Hr Hk].
  apply trimmed_zero; [done|done|]. apply (Hempty (length G - c + k)%nat); [|lia|done].
  apply lookup_lt_Some in Hr. lia.
Qed.

(** ** Removing the lines that were emptied *)

Lemma remove_none idx xs tl extra :
  Forall (λ p, (idx + length xs ≤ fst p)%nat) extra →
  remove_lines idx 0 (xs ++ tl) extra =
    (xs ++ fst (remove_lines (idx + length xs) 0 tl extra), snd (remove_lines (idx + length xs) 0 tl extra)).
Proof.
  revert idx. induction xs as [|x xs IH]; intros idx He; simpl.
  { rewrite Nat.add_0_r. by destruct (remove_lines _ _ _ _). }
  assert (He' : Forall (λ p, (S idx + length xs ≤ fst p)%nat) extra)
    by (eapply Forall_impl; [exact He|]; intros p; simpl; lia).
  replace (idx + S (length xs))%nat with (S idx + length xs)%nat by lia. specialize (IH (S idx) He').
  destruct extra as [|[st ct] extra]; [by rewrite IH|]. inversion He as [|? ? Hst _]; subst. simpl in Hst.
  rewrite (proj2 (Nat.eqb_neq idx st)) by lia. by rewrite IH.
Qed.

Lemma none_more (p : list Row * nat) : (let '(keep, m) := p in (keep, (0 + m)%nat)) = p.
Proof. by destruct p. Qed.

Lemma remove_skipped idx ys tl extra :
  Forall (λ p, (idx + length ys ≤ fst p)%nat) extra →
  remove_lines idx (length ys) (ys ++ tl) extra = remove_lines (idx + length ys) 0 tl extra.
Proof.
  revert idx. induction ys as [|z ys IH]; intros idx He; simpl; [by rewrite Nat.add_0_r|].
  assert (He' : Forall (λ p, (S idx + length ys ≤ fst p)%nat) extra)
    by (eapply Forall_impl; [exact He|]; intros p; simpl; lia).
  replace (idx + S (length ys))%nat with (S idx + length ys)%nat by lia. specialize (IH (S idx) He').
  destruct extra as [|[st ct] extra]; [rewrite IH; apply none_more|]. inversion He as [|? ? Hst _]; subst. simpl in Hst.
  rewrite (proj2 (Nat.eqb_neq idx st)) by lia. rewrite IH. apply none_more.
Qed.

(** Removing the ranges [r] from the lines [done] leaves [keep]; the ranges end within them. *)
Record cuts (done : list Row) (r : list (nat * nat)) (keep : list Row) (removed : nat) : Prop := {
  cu_all : ∀ tl extra, Forall (λ p, (length done ≤ fst p)%nat) extra →
    remove_lines 0 0 (done ++ tl) (r ++ extra) =
      (keep ++ fst (remove_lines (length done) 0 tl extra), (removed + snd (remove_lines (length done) 0 tl extra))%nat);
  cu_count : (length keep + removed = length done)%nat;
  cu_none : r = [] → keep = done;
}.

Lemma cuts_start : cuts [] [] [] 0.
Proof. split; [|done|done]. intros tl extra _. simpl. by destruct (remove_lines _ _ _ _). Qed.

Lemma cuts_keep done r keep m xs : cuts done r keep m → cuts (done ++ xs) r (keep ++ xs) m.
Proof.
  intros [Ha Hc Hn]. split.
  - intros tl extra He. rewrite length_app in *. rewrite <- app_assoc, Ha.
    + rewrite remove_none by done. simpl. by rewrite app_assoc.
    + eapply Forall_impl; [exact He|]. intros p. simpl. lia.
  - rewrite !length_app. lia.
  - intros Hr. by rewrite Hn.
Qed.

Lemma cuts_group done r keep m xs ys :
  cuts done r keep m → ys ≠ [] →
  cuts (done ++ xs ++ ys) (r ++ [((length done + length xs)%nat, length ys)]) (keep ++ xs) (m + length ys).
Proof.
  intros [Ha Hc Hn] Hys. split.
  - intros tl extra He. rewrite !length_app in *. rewrite <- !app_assoc, Ha.
    + assert (He' : Forall (λ p, (length done + length xs + length ys ≤ fst p)%nat) extra)
        by (eapply Forall_impl; [exact He|]; intros p; simpl; lia).
      assert (E : remove_lines (length done + length xs) 0 (ys ++ tl) (((length done + length xs)%nat, length ys) :: extra) =
        (fst (remove_lines (length done + length xs + length ys) 0 tl extra),
         (length ys + snd (remove_lines (length done + length xs + length ys) 0 tl extra))%nat)).
      { destruct ys as [|z ys]; [done|]. cbn [app remove_lines length]. rewrite Nat.eqb_refl.
        replace (length done + length xs + S (length ys))%nat with (S (length done + length xs) + length ys)%nat in * by lia.
        rewrite remove_skipped by (eapply Forall_impl; [exact He'|]; intros p; simpl; lia). by destruct (remove_lines _ _ _ _). }
      rewrite remove_none; simpl.
      * replace (length done + (length xs + length ys))%nat with (length done + length xs + length ys)%nat by lia.
        rewrite E. cbn [fst snd]. rewrite app_assoc. f_equal. lia.
      * constructor; [simpl; lia|]. eapply Forall_impl; [exact He'|]. intros p. simpl. lia.
    + constructor; [simpl; lia|]. eapply Forall_impl; [exact He|]. intros p. simpl. lia.
  - rewrite !length_app. lia.
  - intros E. by destruct r.
Qed.

Lemma cuts_remove done r keep m : cuts done r keep m → remove_lines 0 0 done r = (keep, m).
Proof. intros [Ha _ _]. specialize (Ha [] [] (Forall_nil_2 _)). rewrite !app_nil_r in Ha. simpl in Ha. by rewrite ?app_nil_r, Nat.add_0_r in Ha. Qed.

(** ** All lines *)

Lemma wrapped_run_le ls : (wrapped_run ls ≤ length ls)%nat.
Proof. induction ls as [|r ls IH]; simpl; [lia|]. destruct (wrapped r); simpl; lia. Qed.

Lemma line_in_ok old new r : line_in old new r → fits new r.
Proof.
  intros (base & k & E & _ & Hl & Hp & Hok). destruct (blanks_ok k). split; [split|]; rewrite E;
    [by apply paired_app|by apply Forall_app|rewrite length_app, length_replicate; lia].
Qed.

(** The scan goes on after the lines [xs], which are kept. *)
Lemma drop_done {A} (done rest : list A) k : drop (length done + k) (done ++ rest) = drop k rest.
Proof. rewrite drop_app_ge by lia. f_equal. lia. Qed.

Section Scan.
Context (old new : nat) (Hold : (1 ≤ old)%nat) (Hnew : (old < new)%nat).

(** The lines [done] are scanned, the lines [rest] are as they were. *)
Record scan_inv (done rest : list Row) (r : list (nat * nat)) (keep : list Row) (m : nat) : Prop := {
  sc_cuts : cuts done r keep m;
  sc_rest : Forall (line_in old new) rest;
  sc_keep : Forall (fits new) keep;
}.

Lemma scan_keep done rest r keep m k :
  scan_inv done rest r keep m → scan_inv (done ++ take k rest) (drop k rest) r (keep ++ take k rest) m.
Proof.
  intros [Hc Hr Hk]. split; [by apply cuts_keep|by apply Forall_drop|]. apply Forall_app. split; [done|].
  apply Forall_take. eapply Forall_impl; [exact Hr|]. apply line_in_ok.
Qed.

Lemma scan_group done rest r keep m k group count :
  scan_inv done rest r keep m → (k ≤ length rest)%nat → length group = k → (0 < count < k)%nat →
  Forall (fits new) (take (k - count) group) →
  scan_inv (done ++ group) (drop k rest) (r ++ [((length done + k - count)%nat, count)]) (keep ++ take (k - count) group) (m + count).
Proof.
  intros [Hc Hr Hk] Hlen Hg Hcount Hok. split; [|by apply Forall_drop|by apply Forall_app].
  rewrite <- (take_drop (k - count) group) at 1.
  pose proof (cuts_group done r keep m (take (k - count) group) (drop (k - count) group) Hc) as H.
  rewrite length_take, length_drop in H. replace (length group - (k - count))%nat with count in H by lia.
  replace (length done + (k - count) `min` length group)%nat with (length done + k - count)%nat in H by lia. apply H.
  intros E. apply (f_equal length) in E. rewrite length_drop in E. simpl in E. lia.
Qed.

Lemma larger_scan_ok fuel done rest abs_y r keep m :
  scan_inv done rest r keep m → (length rest < fuel)%nat →
  ∃ ls' r' keep' m', larger_scan fuel (done ++ rest) (length done) abs_y old new r = Some (ls', r') ∧
    cuts ls' r' keep' m' ∧ Forall (fits new) keep' ∧ line_text keep' = line_text keep ++ line_text rest ∧
    length ls' = (length done + length rest)%nat.
Proof.
  revert done rest r keep m. induction fuel as [|fuel IH]; intros done rest r keep m Hi Hf; [lia|].
  cbn [larger_scan]. rewrite length_app. destruct (Nat.ltb_spec (length done + 1) (length done + length rest)) as [Hlt|Hge].
  2: { exists (done ++ rest), r, (keep ++ rest), m. split; [done|]. split; [by apply cuts_keep, Hi|].
       split; [apply Forall_app; split; [apply Hi|]; eapply Forall_impl; [apply Hi|apply line_in_ok]|].
       split; [apply text_app|apply length_app]. }
  rewrite drop_done. pose proof (wrapped_run_le (drop 1 rest)) as Hrun. rewrite length_drop in Hrun.
  set (k := (1 + wrapped_run (drop 1 rest))%nat) in *.
  assert (Hgo : ∀ j, (1 ≤ j ≤ length rest)%nat → ∃ ls' r' keep' m',
    larger_scan fuel (done ++ rest) (length done + j) abs_y old new r = Some (ls', r') ∧
    cuts ls' r' keep' m' ∧ Forall (fits new) keep' ∧ line_text keep' = line_text keep ++ line_text rest ∧
    length ls' = (length done + length rest)%nat).
  { intros j Hj. pose proof (scan_keep _ _ _ _ _ j Hi) as Hi'.
    destruct (IH _ _ _ _ _ Hi') as (ls' & r' & keep' & m' & E & Hc & Hk & Ht & Hl); [rewrite length_drop; lia|].
    rewrite <- app_assoc, take_drop, length_app, length_take_le in E by lia. exists ls', r', keep', m'.
    split; [done|]. split; [done|]. split; [done|]. split.
    - rewrite Ht, text_app, <- app_assoc, <- text_app. by rewrite take_drop.
    - rewrite Hl, length_app, length_take, length_drop. lia. }
  destruct (Nat.eqb_spec k 1) as [E1|E1]; [apply Hgo; lia|].
  destruct (_ && _); [apply Hgo; lia|].
  replace (drop (length done) (done ++ rest)) with rest by (by rewrite drop_app_length).
  rewrite take_app_length, drop_done.
  destruct (larger_group_ok (take k rest) old new) as (group & count & -> & Hlg & Hcount & Hok & Htext);
    [done|done|apply Forall_take, Hi|rewrite length_take; lia|].
  rewrite length_take_le in Hlg, Hcount, Hok, Htext by lia.
  assert (Hi' : scan_inv (done ++ group) (drop k rest)
    (if (0 <? count)%nat then r ++ [((length done + k - count)%nat, count)] else r) (keep ++ take (k - count) group) (m + count)).
  { destruct (Nat.ltb_spec 0 count); [by apply scan_group; [done|lia|done|lia|]|].
    replace count with 0%nat in * by lia. rewrite Nat.sub_0_r, take_ge in * by lia. rewrite Nat.add_0_r.
    split; [apply cuts_keep, Hi|apply Forall_drop, Hi|apply Forall_app; split; [apply Hi|done]]. }
  destruct (IH _ _ _ _ _ Hi') as (ls' & r' & keep' & m' & E & Hc & Hk & Ht & Hl); [rewrite length_drop; lia|].
  rewrite <- app_assoc, length_app, Hlg in E. exists ls', r', keep', m'. split; [done|]. split; [done|]. split; [done|]. split.
  - by rewrite Ht, text_app, Htext, <- app_assoc, <- text_app, take_drop.
  - rewrite Hl, length_app, length_drop. lia.
Qed.
End Scan.

Lemma blank_line_ok n w : line_ok (blank_line n w) ∧ length (cells (blank_line n w)) = n ∧ glyphs (cells (blank_line n w)) = [].
Proof.
  unfold blank_line, row_new, line_ok. simpl. rewrite Nat2Z.id, length_replicate, glyphs_blank. by destruct (blanks_ok n).
Qed.

Lemma text_blank_line n w : line_text [blank_line n w] = [].
Proof. apply text_none. constructor; [apply blank_line_ok|constructor]. Qed.

(** What a reflow keeps: [new_rows] lines from [ybase] on, all of them well formed. *)
Record lines_inv (new new_rows : nat) (b : Lines) : Prop := {
  li_lines : Forall (fits new) (lines b);
  li_len : length (lines b) = (ybase b + new_rows)%nat;
}.

Lemma after_removal_ok m new new_rows b :
  Forall (fits new) (lines b) → (length (lines b) + m = ybase b + new_rows)%nat →
  lines_inv new new_rows (after_removal m new new_rows b) ∧
  line_text (lines (after_removal m new new_rows b)) = line_text (lines b) ∧
  (ybase (after_removal m new new_rows b) ≤ ybase b)%nat ∧ max_len (after_removal m new new_rows b) = max_len b.
Proof.
  revert b. induction m as [|m IH]; intros b Hok Hlen; cbn [after_removal]; [split; [split; [done|lia]|done]|].
  destruct (Nat.eqb_spec (ybase b) 0) as [Hz|Hz].
  - rewrite (proj2 (Nat.ltb_lt _ _)) by lia. set (b' := mkLines _ _ _ _ _).
    destruct (IH b') as (Hi & Ht & Hy & Hm).
    + apply Forall_app. split; [done|]. constructor; [|constructor]. destruct (blank_line_ok new false) as (? & ? & _). by split; [|lia].
    + simpl. rewrite length_app. simpl. lia.
    + split; [done|]. rewrite Ht, Hm. simpl. split; [|split; [simpl in Hy; lia|done]].
      by rewrite text_app, text_blank_line, app_nil_r.
  - destruct (IH (mkLines (lines b) (ybase b - 1) (ln_y b) (saved_y b) (max_len b))) as (Hi & Ht & Hy & Hm); [done|simpl; lia|].
    split; [done|]. split; [done|]. split; [simpl in Hy; lia|done].
Qed.

(** Widening never panics; every character is still there, in the same order. *)
Lemma reflow_larger_ok old new new_rows b :
  (1 ≤ old)%nat → (old < new)%nat → Forall (line_in old new) (lines b) → length (lines b) = (ybase b + new_rows)%nat →
  ∃ b', reflow_larger b old new new_rows = Some b' ∧ lines_inv new new_rows b' ∧ line_text (lines b') = line_text (lines b) ∧
    (ybase b' ≤ ybase b)%nat ∧ max_len b' = max_len b.
Proof.
  intros Hold Hnew Hls Hlen. unfold reflow_larger.
  destruct (larger_scan_ok old new Hold Hnew (S (length (lines b))) [] (lines b) (ybase b + ln_y b) [] [] 0)
    as (ls & r & keep & m & E & Hc & Hk & Ht & Hl); [by split; [apply cuts_start| |constructor]|lia|].
  cbn [app length] in E, Hl. simpl in Ht. rewrite E. pose proof (cuts_remove _ _ _ _ Hc) as Hrm. pose proof (cu_count _ _ _ _ Hc) as Hcount.
  assert (Hnone : r = [] → keep = ls) by apply (cu_none _ _ _ _ Hc).
  destruct r as [|p r].
  - rewrite <- (Hnone eq_refl). eexists. split; [done|]. simpl. split; [|done]. split; simpl; [done|].
    rewrite (Hnone eq_refl). lia.
  - rewrite Hrm. cbn [ybase ln_y saved_y max_len].
    destruct (after_removal_ok m new new_rows (mkLines keep (ybase b) (ln_y b) (saved_y b) (max_len b))) as ([Hi1 Hi2] & Ht2 & Hy & Hm);
      [done|simpl; lia|]. eexists. split; [done|]. simpl in *. split; [by split|]. by rewrite Ht2.
Qed.
