(* ===== verification/VtReflowNarrow.v ===== *)
(** * Narrowing a group of lines

    [smaller_group] breaks a wrapped line at the new width and moves its cells, from the end, to
    their new places in the same rows. No cell is overwritten before it is read, no wide
    character is cut, and every character stays, in order. *)

From S2P Require Import Prelude VtCell VtRow VtGrid VtReflow VtReflowWiden.

(** ** Cutting a line *)

Lemma crop_exact n r : paired (take n (cells r)) → cells (crop_line n r) = take n (cells r).
Proof.
  intros Hp. unfold crop_line. destruct (Nat.ltb_spec n (length (cells r))); [|by rewrite take_ge].
  destruct (last (take n (cells r))) as [c|] eqn:Hl; [|done]. by rewrite (paired_last _ _ Hp Hl).
Qed.

Lemma crop_ok n r : line_ok r → line_ok (crop_line n r).
Proof.
  intros [Hp Hok]. rewrite <- (take_drop n (cells r)) in Hp. destruct (opened_prefix _ _ Hp) as [Ha|(a & c & E & Ha & Hc)].
  - split; rewrite crop_exact by done; [done|by apply Forall_take].
  - assert (Hoka : Forall cell_ok a) by (apply (Forall_take _ n) in Hok; rewrite E, Forall_app in Hok; apply Hok).
    unfold crop_line. destruct (Nat.ltb_spec n (length (cells r))) as [Hlt|Hge].
    + rewrite E, last_snoc. destruct Hc as [-> _]. rewrite length_app. simpl. replace (length a + 1 - 1)%nat with (length a) by lia.
      split; simpl; rewrite insert_middle; [apply paired_app; [done|apply paired_plain; [done|constructor]]|].
      apply Forall_app. split; [done|]. repeat constructor; apply cell_new_ok.
    + rewrite take_drop in Hp. by split.
Qed.

Section Group.
Context (G : list Row) (old new : nat).
Context (Htwo : (2 ≤ new)%nat) (Hnew : (new < old)%nat) (HG : Forall (group_line old old) G) (Hne : (1 ≤ length G)%nat).

Abbreviation n := (length G).
Abbreviation T := (trimmed_of G old).
Abbreviation S_ := (segs G old).
Abbreviation W := (concat (segs G old)).

(** ** Where the lines break *)

Lemma narrow_row i r : G !! i = Some r →
  wrapped_line_trimmed_len G i old = Some (T i) ∧ (T i ≤ old)%nat ∧ length (cells r) = old ∧ Forall cell_ok (cells r) ∧
  ((i + 1 < n)%nat → (new ≤ T i)%nat) ∧ S_ !! i = Some (take (T i) (cells r)) ∧ start S_ (i + 1) = (start S_ i + T i)%nat.
Proof.
  intros Hi. destruct (trimmed_len_at G i old old r) as [Ht Hs]; [lia|done|done|].
  destruct (group_line_ok old old r) as (Hl & _ & Hok); [lia|by eapply Forall_lookup_1|].
  pose proof (segs_lookup G old i r Hi) as Hseg. pose proof (sg_max _ _ _ _ Hs).
  split; [done|]. split; [done|]. split; [done|]. split; [done|]. split; [|split; [done|]].
  - intros Hlt. pose proof (sg_min _ _ _ _ Hs) as Hm. rewrite (proj2 (Nat.eqb_neq _ _)) in Hm by lia. specialize (Hm eq_refl). lia.
  - replace (i + 1)%nat with (S i) by lia. rewrite (start_S _ _ _ Hseg), length_take. lia.
Qed.

Lemma narrow_total : start S_ n = length W.
Proof. rewrite <- (segs_length G old). apply start_all. Qed.

(** The cuts of the text at the new width. *)
Record cut_ok (cut : list (list Cell)) : Prop := {
  ct_paired : Forall paired cut;
  ct_len : Forall (λ c, (1 ≤ length c ≤ new)%nat) cut;
  ct_full : ∀ k c, cut !! k = Some c → (k + 1 < length cut)%nat → (new ≤ length c + 1)%nat;
}.

Lemma cut_cons c cut :
  paired c → (1 ≤ length c ≤ new)%nat → (new ≤ length c + 1)%nat → cut_ok cut → cut_ok (c :: cut).
Proof.
  intros Hp Hl Hf [H1 H2 H3]. split; [by constructor|by constructor|]. intros [|k] x Hx Hk; simpl in *.
  - by injection Hx as <-.
  - apply (H3 k); [done|lia].
Qed.

(** The cell the code looks at is the last one of the line it is about to cut. *)
Lemma cut_cell line r col avail :
  G !! line = Some r → (1 ≤ col ≤ T line)%nat → (start S_ line + col = avail + new)%nat →
  width_at r (Z.of_nat col - 1) = width_at (mkRow (take new (drop avail W)) false) (Z.of_nat new - 1).
Proof.
  intros Hr Hcol Hoff. destruct (narrow_row line r Hr) as (_ & Ht & Hl & _ & _ & Hseg & _).
  unfold width_at. rewrite !(proj2 (Z.ltb_ge _ _)) by lia. simpl.
  replace (Z.to_nat (Z.of_nat new - 1)) with (new - 1)%nat by lia. replace (Z.to_nat (Z.of_nat col - 1)) with (col - 1)%nat by lia.
  rewrite lookup_take_lt, lookup_drop by lia. replace (avail + (new - 1))%nat with (start S_ line + (col - 1))%nat by lia.
  pose proof (concat_at S_ line _ (col - 1) 1 Hseg) as E. rewrite length_take in E. specialize (E ltac:(lia)).
  apply (f_equal (λ l, l !! 0%nat)) in E. rewrite !lookup_take_lt, !lookup_drop, !Nat.add_0_r in E by lia.
  rewrite lookup_take_lt in E by lia. by rewrite E.
Qed.

Lemma line_lengths_ok fuel col line avail :
  (length W - avail < fuel)%nat → (line < n)%nat → (col ≤ T line)%nat → (start S_ line + col = avail)%nat →
  paired (drop avail W) →
  ∃ cut, line_lengths_loop fuel G old new (length W) col line avail = Some (length <$> cut) ∧
    concat cut = drop avail W ∧ cut_ok cut.
Proof.
  revert col line avail. induction fuel as [|fuel IH]; intros col line avail Hf Hline Hcol Hoff Hp; [lia|].
  cbn [line_lengths_loop]. destruct (Nat.ltb_spec avail (length W)) as [Hlt|Hge].
  2: { exists []. rewrite drop_ge by lia. split; [done|]. split; [done|]. split; [constructor|constructor|done]. }
  destruct (Nat.ltb_spec (length W - avail) new) as [Hlast|Hmore].
  { exists [drop avail W]. simpl. rewrite length_drop, app_nil_r. split; [done|]. split; [done|].
    split; [by constructor|constructor; [rewrite length_drop; lia|constructor]|].
    intros k c _ Hk. simpl in Hk. lia. }
  destruct (lookup_lt_is_Some_2 G line Hline) as [r Hr]. destruct (narrow_row line r Hr) as (-> & Ht & Hl & _ & _ & _ & Hst).
  set (p := if (T line <? col + new)%nat then ((col + new - T line)%nat, (line + 1)%nat) else ((col + new)%nat, line)).
  assert (Hpos : (snd p < n ∧ 1 ≤ fst p ≤ T (snd p) ∧ start S_ (snd p) + fst p = avail + new)%nat).
  { unfold p. destruct (Nat.ltb_spec (T line) (col + new)) as [Hover|Hin]; simpl; [|lia].
    assert (Hn : (line + 1 < n)%nat).
    { destruct (Nat.eq_dec (line + 1) n) as [E|]; [|lia]. rewrite E, narrow_total in Hst. lia. }
    split; [done|]. destruct (lookup_lt_is_Some_2 G (line + 1) Hn) as [r2 Hr2].
    destruct (narrow_row (line + 1) r2 Hr2) as (_ & _ & _ & _ & Hfull & _ & Hst2).
    split; [|lia]. split; [lia|]. destruct (Nat.eq_dec (line + 1 + 1) n) as [E|]; [|specialize (Hfull ltac:(lia)); lia].
    rewrite E, narrow_total in Hst2. lia. }
  destruct p as [col' line']. simpl in Hpos. destruct Hpos as (Hline' & Hcol' & Hoff').
  destruct (lookup_lt_is_Some_2 G line' Hline') as [r' Hr']. rewrite Hr', (cut_cell line' r' col' avail Hr' Hcol' Hoff').
  set (chunk := take new (drop avail W)). assert (Hlc : length chunk = new) by (apply slice_length; lia).
  assert (Hsplit : drop avail W = chunk ++ drop (avail + new) W) by (unfold chunk; rewrite <- drop_drop; by rewrite take_drop).
  assert (Hop : opened chunk) by (apply (opened_prefix _ (drop (avail + new) W)); by rewrite <- Hsplit).
  destruct (opened_last chunk false Hop) as [[Hcp Hw]|(a & c & Ec & Ha & Hc & Hw)];
    [intros E; rewrite E in Hlc; simpl in Hlc; lia|..]; rewrite Hlc in Hw.
  - rewrite (proj2 (Z.eqb_neq _ _) Hw).
    destruct (IH col' line' (avail + new)%nat) as (cut & -> & Hcut & Hok); [lia|done|lia|lia| |].
    { apply (paired_app_inv chunk); [done|]. by rewrite <- Hsplit. }
    exists (chunk :: cut). simpl. rewrite Hlc, Hcut. split; [done|]. split; [done|]. apply cut_cons; [done|lia|lia|done].
  - rewrite (proj2 (Z.eqb_eq _ _) Hw). rewrite !nat_sub_ok by lia.
    assert (Hla : length a = (new - 1)%nat) by (rewrite Ec, length_app in Hlc; simpl in Hlc; lia).
    assert (Hsplit' : drop avail W = a ++ drop (avail + (new - 1)) W).
    { rewrite <- drop_drop, Hsplit, Ec, <- app_assoc, <- Hla, drop_app_length. done. }
    destruct (IH (col' - 1)%nat line' (avail + (new - 1))%nat) as (cut & -> & Hcut & Hok); [lia|done|lia|lia| |].
    { apply (paired_app_inv a); [done|]. by rewrite <- Hsplit'. }
    exists (a :: cut). simpl. rewrite Hla, Hcut. split; [done|]. split; [done|]. apply cut_cons; [done|lia|lia|done].
Qed.

Lemma sum_trimmed_ok i k : (i + k = n)%nat → sum_trimmed G old (seq i k) = Some (length W - start S_ i)%nat.
Proof.
  revert i. induction k as [|k IH]; intros i Hi; simpl.
  { assert (i = n) as -> by lia. rewrite narrow_total. f_equal. lia. }
  destruct (lookup_lt_is_Some_2 G i) as [r Hr]; [lia|]. destruct (narrow_row i r Hr) as (-> & _ & _ & _ & _ & _ & Hst).
  rewrite IH by lia. simpl. f_equal. replace (S i) with (i + 1)%nat by lia. pose proof (start_total S_ (i + 1)). lia.
Qed.

Lemma new_line_lengths_ok :
  ∃ cut, new_line_lengths G old new = Some (length <$> cut) ∧ concat cut = W ∧ cut_ok cut.
Proof.
  unfold new_line_lengths. rewrite (sum_trimmed_ok 0 n) by lia. replace (length W - start S_ 0)%nat with (length W) by (unfold start; simpl; lia).
  cbv beta iota. destruct (line_lengths_ok (S (length W)) 0 0 0) as (cut & E & Hc & Hok); [lia|lia|lia|done| |].
  { rewrite drop_0. apply paired_concat. eapply segs_paired; [|exact HG]. lia. }
  exists cut. by rewrite drop_0 in Hc.
Qed.

(** ** Moving the cells *)

Section Cut.
Context (cut : list (list Cell)) (Hcut : concat cut = W) (Hok : cut_ok cut).

Abbreviation m := (length cut).
Definition chunk (k : nat) : list Cell := default [] (cut !! k).

Lemma chunk_le k : (length (chunk k) ≤ new)%nat.
Proof.
  unfold chunk. destruct (cut !! k) as [c|] eqn:E; simpl; [|lia]. by apply (Forall_lookup_1 _ _ _ _ (ct_len _ Hok) E).
Qed.

Lemma chunk_start k : start cut (S k) = (start cut k + length (chunk k))%nat.
Proof.
  unfold chunk. destruct (cut !! k) as [c|] eqn:E; [by apply start_S|].
  apply lookup_ge_None_1 in E. simpl. unfold start. rewrite !take_ge by lia. lia.
Qed.

Lemma cut_total : start cut m = length W.
Proof. by rewrite start_all, Hcut. Qed.

(** A line starts in the new text no later than it did in the old one. *)
Lemma cut_before k : (k ≤ n)%nat → (start cut k ≤ start S_ k)%nat.
Proof.
  intros Hk. destruct (Nat.eq_dec k n) as [->|Hk'].
  { rewrite narrow_total, <- Hcut. apply start_total. }
  induction k as [|k IH]; [done|]. rewrite chunk_start. destruct (lookup_lt_is_Some_2 G k) as [r Hr]; [lia|].
  destruct (narrow_row k r Hr) as (_ & _ & _ & _ & Hfull & _ & Hst). replace (S k) with (k + 1)%nat by lia.
  rewrite Hst. pose proof (chunk_le k). specialize (Hfull ltac:(lia)). specialize (IH ltac:(lia) ltac:(lia)). lia.
Qed.

(** There are at most one line less than before. *)
Lemma cut_count k : (m ≤ k)%nat → (k < n)%nat → (k + 1 = n ∧ T k = 0)%nat.
Proof.
  intros Hm Hk. destruct (lookup_lt_is_Some_2 G k Hk) as [r Hr]. destruct (narrow_row k r Hr) as (_ & _ & _ & _ & Hfull & _ & Hst).
  pose proof (cut_before k ltac:(lia)) as Hb. assert (Hs : start cut k = length W).
  { unfold start. rewrite take_ge by lia. by rewrite Hcut. }
  pose proof (start_total S_ (k + 1)). split; [|lia]. destruct (decide (k + 1 < n)%nat) as [H1|]; [|lia]. specialize (Hfull H1). lia.
Qed.

(** A row when the cells of the new text from offset [o] on are in place: of its own part the
    first [x] cells are still to be written. *)
Definition mix (c : list Cell) (x : nat) (cs : list Cell) : list Cell :=
  take (length c `min` x) cs ++ drop (length c `min` x) c ++ drop (length c) cs.

Context (add : nat) (Hadd : add = (m - n)%nat).
Definition B : list Row := G ++ replicate add (blank_line new true).
Definition mixed (o : nat) : list Row :=
  imap (λ k r, mkRow (mix (chunk k) (o - start cut k) (cells r)) (wrapped r)) B.

Lemma B_length : length B = (n `max` m)%nat.
Proof. unfold B. rewrite length_app, length_replicate. lia. Qed.

Lemma B_row k r : B !! k = Some r → (new ≤ length (cells r))%nat ∧ Forall cell_ok (cells r) ∧ line_ok r.
Proof.
  intros Hk. apply lookup_app_Some in Hk as [Hk|[_ Hk]].
  - destruct (narrow_row k r Hk) as (_ & _ & Hl & Hc & _). split; [lia|]. split; [done|].
    destruct (group_line_ok old old r) as (_ & ? & ?); [lia|by eapply Forall_lookup_1|done].
  - apply lookup_replicate in Hk as [-> _]. destruct (blank_line_ok new true) as ([? ?] & ? & _). split; [lia|done].
Qed.

Lemma mix_whole c x cs : (length c ≤ x)%nat → mix c x cs = cs.
Proof. intros H. unfold mix. rewrite Nat.min_l by done. rewrite drop_all. simpl. apply take_drop. Qed.

Lemma mix_length c x cs : (length c ≤ length cs)%nat → length (mix c x cs) = length cs.
Proof. intros H. unfold mix. rewrite !length_app, length_take, !length_drop. lia. Qed.

Lemma mix_front c x cs k : (k ≤ x)%nat → (length c ≤ length cs)%nat → take k (mix c x cs) = take k cs.
Proof.
  intros Hk Hl. unfold mix. destruct (decide (length c ≤ x)%nat) as [Hx|Hx].
  - rewrite Nat.min_l by done. rewrite drop_all. simpl. by rewrite take_drop.
  - rewrite Nat.min_r by lia. rewrite take_app_le by (rewrite length_take; lia). rewrite take_take. f_equal. lia.
Qed.

Lemma mix_tail c x cs j : (length c ≤ j)%nat → (length c ≤ length cs)%nat → mix c x cs !! j = cs !! j.
Proof.
  intros Hj Hl. unfold mix. rewrite lookup_app_r by (rewrite length_take; lia). rewrite lookup_app_r by (rewrite length_drop, length_take; lia).
  rewrite lookup_drop. f_equal. rewrite length_take, length_drop. lia.
Qed.

Lemma mixed_lookup o k r :
  B !! k = Some r → mixed o !! k = Some (mkRow (mix (chunk k) (o - start cut k) (cells r)) (wrapped r)).
Proof. intros Hk. unfold mixed. by rewrite list_lookup_imap, Hk. Qed.

Lemma mixed_start : mixed (length W) = B.
Proof.
  apply list_eq. intros k. destruct (B !! k) as [r|] eqn:Hk.
  - rewrite (mixed_lookup _ _ _ Hk), mix_whole; [by destruct r|]. pose proof (start_total cut (S k)) as H. rewrite chunk_start, Hcut in H. lia.
  - apply lookup_ge_None in Hk. apply lookup_ge_None. unfold mixed. by rewrite length_imap.
Qed.

(** What is still to be read of a line of the old text is where it was. *)
Lemma mixed_source o s sc r :
  G !! s = Some r → (sc ≤ T s)%nat → (start S_ s + sc = o)%nat →
  ∃ r', mixed o !! s = Some r' ∧ length (cells r') = old ∧ take sc (cells r') = take sc (cells r).
Proof.
  intros Hr Hsc Ho. destruct (narrow_row s r Hr) as (_ & Ht & Hl & _). pose proof (lookup_lt_Some _ _ _ Hr) as Hs.
  assert (HB : B !! s = Some r) by (by apply lookup_app_l_Some).
  pose proof (chunk_le s). pose proof (cut_before s ltac:(lia)).
  exists (mkRow (mix (chunk s) (o - start cut s) (cells r)) (wrapped r)). split; [by apply mixed_lookup|]. simpl.
  split; [rewrite mix_length; lia|]. apply mix_front; lia.
Qed.

Lemma mix_write c x tc cs tmp :
  (tc ≤ x)%nat → (x ≤ length c)%nat → (length c ≤ length cs)%nat → tmp = take tc (drop (x - tc) c) →
  take (x - tc) (mix c x cs) ++ tmp ++ drop (x - tc + length tmp) (mix c x cs) = mix c (x - tc) cs.
Proof.
  intros Htc Hx Hl Htmp. assert (Hlt : length tmp = tc) by (rewrite Htmp; apply slice_length; lia).
  rewrite Hlt. replace (x - tc + tc)%nat with x by lia. rewrite mix_front by lia. unfold mix at 2.
  rewrite !Nat.min_r by lia. f_equal. unfold mix. rewrite Nat.min_r by lia.
  rewrite drop_app_ge by (rewrite length_take; lia). rewrite length_take, Nat.min_l, Nat.sub_diag, drop_0 by lia.
  rewrite app_assoc. f_equal. rewrite Htmp. rewrite <- (take_drop tc (drop (x - tc) c)) at 2. f_equal. rewrite drop_drop. f_equal. lia.
Qed.

Lemma mixed_other o o' d k :
  (start cut d ≤ o' ≤ o)%nat → (o ≤ start cut (S d))%nat → k ≠ d → mixed o !! k = mixed o' !! k.
Proof.
  intros Ho Ho' Hk. destruct (B !! k) as [r|] eqn:Hr.
  2: { apply lookup_ge_None in Hr. rewrite !lookup_ge_None_2; [done|unfold mixed; by rewrite length_imap..]. }
  rewrite !(mixed_lookup _ _ _ Hr). do 2 f_equal. destruct (decide (k < d)%nat) as [Hlt|Hge].
  - pose proof (start_le cut (S k) d ltac:(lia)) as H. rewrite chunk_start in H. rewrite !mix_whole by lia. done.
  - pose proof (start_le cut (S d) k ltac:(lia)). by replace (o - start cut k)%nat with (o' - start cut k)%nat by lia.
Qed.

Lemma copy_back o d dc s sc r :
  G !! s = Some r → (sc ≤ T s)%nat → (start S_ s + sc = o)%nat →
  (d < m)%nat → (dc ≤ length (chunk d))%nat → (start cut d + dc = o)%nat →
  let tc := (sc `min` dc)%nat in
  copy_cells (mixed o) s (sc - tc) d (dc - tc) tc = Some (mixed (o - tc)).
Proof.
  intros Hr Hsc Ho Hd Hdc Ho' tc. destruct (mixed_source o s sc r Hr Hsc Ho) as (r' & Hr' & Hl' & Htake).
  destruct (lookup_lt_is_Some_2 B d) as [rd Hrd]; [rewrite B_length; lia|].
  destruct (B_row d rd Hrd) as (Hld & _). pose proof (chunk_le d) as Hcd.
  destruct (narrow_row s r Hr) as (_ & Ht & Hl & _ & _ & Hseg & _).
  assert (Hlen : length (mix (chunk d) (o - start cut d) (cells rd)) = length (cells rd)) by (apply mix_length; lia).
  rewrite (copy_cells_ok _ _ _ _ _ _ _ _ Hr' (mixed_lookup o d rd Hrd)); [|simpl; lia|simpl; rewrite Hlen; lia].
  f_equal. replace (o - start cut d)%nat with dc in * by lia.
  assert (Htmp : take tc (drop (sc - tc) (cells r')) = take tc (drop (dc - tc) (chunk d))).
  { assert (E : take tc (drop (sc - tc) (cells r')) = take tc (drop (sc - tc) (cells r))).
    { assert (Hs : ∀ l : list Cell, take tc (drop (sc - tc) l) = drop (sc - tc) (take sc l))
        by (intros l; rewrite skipn_firstn_comm; f_equal; lia). by rewrite !Hs, Htake. }
    rewrite E. unfold chunk. destruct (lookup_lt_is_Some_2 cut d Hd) as [c Hc]. unfold chunk in Hdc. rewrite Hc in Hdc |- *. simpl in *.
    rewrite <- (concat_at cut d c (dc - tc) tc Hc) by lia. rewrite Hcut.
    replace (start cut d + (dc - tc))%nat with (start S_ s + (sc - tc))%nat by lia.
    rewrite (concat_at S_ s _ (sc - tc) tc Hseg) by (rewrite length_take; lia).
    rewrite skipn_firstn_comm, take_take. f_equal. lia. }
  apply list_eq. intros k. destruct (decide (k = d)) as [->|Hk].
  - rewrite list_lookup_insert_eq by (unfold mixed; rewrite length_imap, B_length; lia).
    rewrite (mixed_lookup _ _ _ Hrd). unfold write_cells. simpl. rewrite Htmp. do 2 f_equal.
    replace (o - tc - start cut d)%nat with (dc - tc)%nat by lia. apply mix_write; [lia|lia|lia|done].
  - rewrite list_lookup_insert_ne by done. apply (mixed_other _ _ d); [lia|rewrite chunk_start; lia|done].
Qed.

(** The first cell of a line whose text has been read is the one it had. *)
Lemma mixed_first j r :
  G !! j = Some r → mix (chunk j) (start S_ j - start cut j) (cells r) !! 0%nat = cells r !! 0%nat.
Proof.
  intros Hr. destruct (narrow_row j r Hr) as (_ & Ht & Hl & _ & Hfull & Hseg & Hst). pose proof (lookup_lt_Some _ _ _ Hr) as Hj.
  pose proof (chunk_le j) as Hc. pose proof (cut_before j ltac:(lia)) as Hb.
  destruct (Nat.eq_dec (start cut j) (start S_ j)) as [E|E].
  2: { assert (Hf : take 1 (mix (chunk j) (start S_ j - start cut j) (cells r)) = take 1 (cells r)) by (apply mix_front; lia).
       apply (f_equal (λ l, l !! 0%nat)) in Hf. rewrite !lookup_take_lt in Hf by lia. done. }
  destruct (cut !! j) as [c|] eqn:Hcj.
  2: { unfold chunk. rewrite Hcj. simpl. rewrite mix_whole; [done|simpl; lia]. }
  destruct (Forall_lookup_1 _ _ _ _ (ct_len _ Hok) Hcj) as [Hc1 _]. pose proof (start_S _ _ _ Hcj) as Hsc.
  pose proof (start_total cut (S j)) as Htot. rewrite Hcut in Htot.
  assert (Ht1 : (1 ≤ T j)%nat).
  { destruct (decide (j + 1 < n)%nat) as [H1|H1]; [specialize (Hfull H1); lia|].
    replace (j + 1)%nat with n in Hst by lia. rewrite narrow_total in Hst. lia. }
  unfold chunk. rewrite Hcj. simpl. replace (start S_ j - start cut j)%nat with 0%nat by lia.
  unfold mix. rewrite Nat.min_0_r. simpl. rewrite drop_0, lookup_app_l by lia.
  pose proof (concat_at cut j c 0 1 Hcj ltac:(lia)) as H1. pose proof (concat_at S_ j _ 0 1 Hseg) as H2.
  rewrite length_take in H2. specialize (H2 ltac:(lia)). rewrite Hcut, E, H2, !drop_0, take_take in H1.
  apply (f_equal (λ l, l !! 0%nat)) in H1. rewrite !lookup_take_lt in H1 by lia. done.
Qed.

Lemma mixed_trimmed i :
  (i + 1 < n)%nat → wrapped_line_trimmed_len (mixed (start S_ (i + 1))) i old = Some (T i).
Proof.
  intros Hi. destruct (lookup_lt_is_Some_2 G i) as [r Hr]; [lia|]. destruct (lookup_lt_is_Some_2 G (i + 1) Hi) as [r2 Hr2].
  destruct (narrow_row i r Hr) as (<- & _ & Hl & _). destruct (narrow_row (i + 1) r2 Hr2) as (_ & _ & Hl2 & _).
  assert (HB : B !! i = Some r) by (by apply lookup_app_l_Some). assert (HB2 : B !! (i + 1)%nat = Some r2) by (by apply lookup_app_l_Some).
  unfold wrapped_line_trimmed_len. rewrite (mixed_lookup _ _ _ HB), (mixed_lookup _ _ _ HB2), Hr, Hr2.
  unfold mixed. rewrite length_imap, B_length. rewrite !(proj2 (Nat.eqb_neq _ _)) by lia. rewrite nat_sub_ok by lia.
  unfold has_content, width_at. cbn [cells]. change (Z.to_nat 0) with 0%nat. rewrite (mixed_first _ _ Hr2). pose proof (chunk_le i).
  rewrite (proj2 (Z.ltb_ge _ _)) by lia. rewrite !mix_tail by lia. done.
Qed.

Lemma mixed_trimmed_some o : ∃ t, wrapped_line_trimmed_len (mixed o) 0 old = Some t.
Proof.
  destruct (lookup_lt_is_Some_2 B 0) as [r Hr]; [rewrite B_length; lia|]. unfold wrapped_line_trimmed_len.
  rewrite (mixed_lookup _ _ _ Hr). unfold mixed at 1. rewrite length_imap. destruct (Nat.eqb_spec (0 + 1) (length B)) as [E|E]; [by eexists|].
  rewrite nat_sub_ok by lia. destruct (lookup_lt_is_Some_2 B 1) as [r2 Hr2]; [rewrite B_length in *; lia|].
  change (0 + 1)%nat with 1%nat. rewrite (mixed_lookup _ _ _ Hr2). by eexists.
Qed.

(** Positions of the loop at offset [o]. *)
Definition at_dest (o : nat) (d : Z) (dc : nat) : Prop :=
  (d < 0 ∧ o = 0%nat) ∨ (0 ≤ d ∧ (Z.to_nat d < m)%nat ∧ (1 ≤ dc ≤ length (chunk (Z.to_nat d)))%nat ∧ (start cut (Z.to_nat d) + dc = o)%nat).

Definition at_source (o : nat) (s : Z) (sc : nat) : Prop :=
  (s < 0 ∧ o = 0%nat) ∨ (0 ≤ s ∧ (Z.to_nat s < n)%nat ∧ (sc ≤ T (Z.to_nat s))%nat ∧ (start S_ (Z.to_nat s) + sc = o)%nat).

Lemma dest_len_chunk d : dest_len (length <$> cut) d = if d <? 0 then 0%nat else length (chunk (Z.to_nat d)).
Proof.
  unfold dest_len, chunk. destruct (d <? 0); [done|]. rewrite list_lookup_fmap. by destruct (cut !! Z.to_nat d).
Qed.

(** The end of the line before. *)
Lemma dest_before d :
  d ≤ Z.of_nat m → at_dest (if d <? 0 then 0%nat else start cut (Z.to_nat d)) (d - 1) (dest_len (length <$> cut) (d - 1)).
Proof.
  intros Hd. rewrite dest_len_chunk. destruct (Z.ltb_spec d 0); [left; split; [lia|done]|].
  destruct (Z.ltb_spec (d - 1) 0); [left; split; [lia|]; by replace (Z.to_nat d) with 0%nat by lia|].
  right. replace (Z.to_nat d) with (S (Z.to_nat (d - 1))) by lia. rewrite chunk_start. split; [lia|]. split; [lia|]. split; [|done].
  unfold chunk. destruct (lookup_lt_is_Some_2 cut (Z.to_nat (d - 1))) as [c Hc]; [lia|]. rewrite Hc. simpl.
  pose proof (Forall_lookup_1 _ _ _ _ (ct_len _ Hok) Hc). simpl in *. lia.
Qed.

Lemma source_before s : (s < n)%nat →
  ∃ t, wrapped_line_trimmed_len (mixed (start S_ s)) (Z.to_nat (Z.max 0 (Z.of_nat s - 1))) old = Some t ∧
    at_source (start S_ s) (Z.of_nat s - 1) t.
Proof.
  intros Hs. destruct s as [|s].
  - destruct (mixed_trimmed_some (start S_ 0)) as [t Ht]. exists t. split; [done|]. left. split; [lia|done].
  - exists (T s). replace (Z.to_nat (Z.max 0 (Z.of_nat (S s) - 1))) with s by lia.
    replace (S s) with (s + 1)%nat in * by lia. split; [by apply mixed_trimmed|]. right.
    replace (Z.to_nat (Z.of_nat (s + 1) - 1)) with s by lia. destruct (lookup_lt_is_Some_2 G s) as [r Hr]; [lia|].
    destruct (narrow_row s r Hr) as (_ & _ & _ & _ & _ & _ & Hst). split; [lia|]. split; [lia|]. split; [lia|]. by rewrite Hst.
Qed.

Lemma smaller_loop_ok fuel o d dc s sc :
  at_dest o d dc → at_source o s sc → (Z.to_nat (s + 1) + Z.to_nat (d + 1) < fuel)%nat →
  smaller_loop fuel (mixed o) (length <$> cut) old d dc s sc = Some (mixed 0).
Proof.
  revert o d dc s sc. induction fuel as [|fuel IH]; intros o d dc s sc Hd Hs Hf; [lia|]. cbn [smaller_loop].
  destruct (Z.leb_spec 0 s) as [Hs0|Hs0]; [|destruct Hs as [[_ ->]|[? _]]; [done|lia]].
  destruct Hs as [[? _]|(_ & Hsn & Hsc & Hso)]; [lia|]. destruct (Z.ltb_spec d 0) as [Hd0|Hd0].
  { destruct Hd as [[_ ->]|[? _]]; [done|lia]. }
  destruct Hd as [[? _]|(_ & Hdm & Hdc & Hdo)]; [lia|].
  assert (Hlen : length (mixed o) = (n `max` m)%nat) by (unfold mixed; by rewrite length_imap, B_length).
  rewrite Hlen, (proj2 (Z.leb_gt _ _)) by lia. cbn [orb].
  destruct (lookup_lt_is_Some_2 G (Z.to_nat s) Hsn) as [r Hr].
  rewrite (copy_back o (Z.to_nat d) dc (Z.to_nat s) sc r) by (done || lia). set (tc := (sc `min` dc)%nat).
  set (d' := if (dc - tc =? 0)%nat then (d - 1, dest_len (length <$> cut) (d - 1)) else (d, (dc - tc)%nat)).
  assert (Hd' : at_dest (o - tc) (fst d') (snd d') ∧ fst d' = if (dc - tc =? 0)%nat then d - 1 else d).
  { unfold d'. destruct (Nat.eqb_spec (dc - tc) 0) as [E|E]; cbn [fst snd].
    - split; [|done]. pose proof (dest_before d ltac:(lia)) as H. rewrite (proj2 (Z.ltb_ge _ _)) in H by lia.
      by replace (o - tc)%nat with (start cut (Z.to_nat d)) by lia.
    - split; [|done]. right. split; [lia|]. split; [lia|]. split; lia. }
  destruct d' as [d1 dc1]. destruct Hd' as [Hd' Ed]. cbn [fst snd] in Hd', Ed.
  assert (Hs' : ∃ s1 sc1, (if (sc - tc =? 0)%nat
    then let! t := wrapped_line_trimmed_len (mixed (o - tc)) (Z.to_nat (Z.max 0 (s - 1))) old in Some (s - 1, t)
    else Some (s, (sc - tc)%nat)) = Some (s1, sc1) ∧ at_source (o - tc) s1 sc1 ∧ s1 = if (sc - tc =? 0)%nat then s - 1 else s).
  { destruct (Nat.eqb_spec (sc - tc) 0) as [E|E].
    - replace (o - tc)%nat with (start S_ (Z.to_nat s)) by lia. destruct (source_before (Z.to_nat s) Hsn) as (t & Ht & Hat).
      rewrite Z2Nat.id in Ht, Hat by lia. rewrite Ht. by exists (s - 1), t.
    - exists s, (sc - tc)%nat. split; [done|]. split; [|done]. right. split; [lia|]. split; [done|]. split; lia. }
  destruct Hs' as (s1 & sc1 & -> & Hs' & Es). destruct (_ && _ && _ && _) eqn:Hb.
  { apply andb_true_iff in Hb as [_ Hb]. apply Z.ltb_lt in Hb. destruct Hd' as [[_ ->]|[? _]]; [done|lia]. }
  apply IH; [done|done|]. destruct (Nat.eqb_spec (sc - tc) 0), (Nat.eqb_spec (dc - tc) 0); lia.
Qed.

(** ** The lines at the end *)

(** Cells that are shown as nothing. *)
Definition blank (c : Cell) : Prop := plain c ∧ glyph c = false.

Lemma tail_blank k r :
  B !! k = Some r → (k < m)%nat → (length (chunk k) < new)%nat →
  Forall blank (take (new - S (length (chunk k))) (drop (S (length (chunk k))) (cells r))).
Proof.
  intros Hr Hk Hlen. destruct (lookup_lt_is_Some_2 cut k Hk) as [c Hc].
  destruct (decide (k + 1 < m)%nat) as [H1|H1].
  { pose proof (ct_full _ Hok k c Hc H1) as Hf. unfold chunk in *. rewrite Hc in *. simpl in *.
    replace (new - S (length c))%nat with 0%nat by lia. constructor. }
  apply Forall_take. apply lookup_app_Some in Hr as [Hr|[_ Hr]].
  2: { apply lookup_replicate in Hr as [-> _]. apply Forall_drop. simpl. by apply Forall_replicate. }
  destruct (narrow_row k r Hr) as (Ht & _ & _ & _ & Hfull & _ & Hst). pose proof (lookup_lt_Some _ _ _ Hr) as Hkn.
  pose proof (chunk_start k) as Hcs. replace (S k) with m in Hcs by lia. rewrite cut_total in Hcs.
  pose proof (cut_before k ltac:(lia)). pose proof (start_total S_ (k + 1)).
  assert (Hkl : (k + 1 = n)%nat) by (destruct (decide (k + 1 < n)%nat) as [H2|]; [specialize (Hfull H2)|]; lia).
  unfold wrapped_line_trimmed_len in Ht. rewrite Hr in Ht. rewrite (proj2 (Nat.eqb_eq _ _)) in Ht by done. injection Ht as Ht.
  destruct (group_line_ok old old r) as (_ & Hp & Hcok); [lia|by eapply Forall_lookup_1|].
  destruct (trimmed_split r Hp Hcok) as (a & b & E & Hla & _ & _ & Hb & Hg). rewrite E.
  rewrite drop_app_ge by lia. apply Forall_drop. apply Forall_and. done.
Qed.

Lemma end_lines_ok rs dest :
  (∀ k r len, rs !! k = Some r → dest !! k = Some len → (len < new)%nat → (len < length (cells r))%nat) →
  ∃ out, end_lines rs dest new = Some out ∧ length out = length rs ∧
    ∀ k r, rs !! k = Some r → out !! k = Some (match dest !! k with
      | Some len => if (len <? new)%nat then mkRow (<[len := cell_new]> (cells r)) (wrapped r) else r
      | None => r end).
Proof.
  revert dest. induction rs as [|r rs IH]; intros dest Hlt; [by exists []|]. destruct dest as [|len dest]; simpl.
  { exists (r :: rs). split; [done|]. split; [done|]. intros k x Hx. by destruct k. }
  destruct (IH dest) as (out & E & Hl & Hout); [intros k x l Hx Hk; by apply (Hlt (S k))|]. rewrite E.
  set (r' := if (len <? new)%nat then mkRow (<[len := cell_new]> (cells r)) (wrapped r) else r).
  assert (Hr' : (if (len <? new)%nat then set_cell r len cell_new else Some r) = Some r').
  { unfold r'. destruct (Nat.ltb_spec len new) as [H|H]; [|done]. unfold set_cell, vec_set.
    rewrite (proj2 (Nat.ltb_lt _ _)); [done|]. by apply (Hlt 0%nat r len). }
  rewrite Hr'. exists (r' :: out). split; [done|]. split; [simpl; by rewrite Hl|]. intros [|k] x Hx; [by injection Hx as <-|]. by apply Hout.
Qed.

(** What the [k]-th line ends up as. *)
Definition placed (k : nat) (r : Row) : Row :=
  match (length <$> cut) !! k with
  | Some len => let cs := chunk k ++ drop len (cells r) in
      mkRow (if (len <? new)%nat then <[len := cell_new]> cs else cs) (wrapped r)
  | None => r
  end.

Lemma blank_line_of l : Forall blank l → paired l ∧ glyphs l = [].
Proof.
  intros Hl. split; [|apply glyphs_none; eapply Forall_impl; [exact Hl|]; by intros c []].
  induction Hl as [|c l [Hc _] _ IH]; [constructor|by apply paired_plain].
Qed.

Lemma cut_cells : Forall (Forall cell_ok) cut.
Proof.
  apply Forall_concat. rewrite Hcut. apply Forall_concat. apply Forall_lookup. intros i s Hs.
  destruct (lookup_lt_is_Some_2 G i) as [r Hr]; [apply lookup_lt_Some in Hs; by rewrite segs_length in Hs|].
  destruct (narrow_row i r Hr) as (_ & _ & _ & Hc & _ & Hseg & _). rewrite Hs in Hseg. injection Hseg as ->. by apply Forall_take.
Qed.

(** The first [new] cells of a line that has text: the text, then blanks. *)
Lemma placed_front k r c :
  B !! k = Some r → cut !! k = Some c →
  ∃ tl, take new (cells (placed k r)) = c ++ tl ∧ Forall blank tl ∧ Forall cell_ok tl.
Proof.
  intros Hr Hc. destruct (B_row k r Hr) as (Hl & Hcok & _). pose proof (chunk_le k) as Hcl.
  assert (Ec : chunk k = c) by (unfold chunk; by rewrite Hc). unfold placed. rewrite list_lookup_fmap, Hc. simpl.
  pose proof (tail_blank k r Hr (lookup_lt_Some _ _ _ Hc)) as Htail. rewrite Ec in *.
  destruct (Nat.ltb_spec (length c) new) as [Hlt|Hge].
  - specialize (Htail Hlt). exists (cell_new :: take (new - S (length c)) (drop (S (length c)) (cells r))). split; [|split].
    + destruct (drop (length c) (cells r)) as [|x l] eqn:Hd.
      { apply (f_equal length) in Hd. rewrite length_drop in Hd. simpl in Hd. lia. }
      rewrite insert_middle. replace (drop (S (length c)) (cells r)) with l.
      2: { replace (S (length c)) with (length c + 1)%nat by lia. rewrite <- drop_drop, Hd. done. }
      rewrite take_app_ge by lia. f_equal. destruct (new - length c)%nat as [|j] eqn:Ej; [lia|]. simpl. do 2 f_equal. lia.
    + by constructor.
    + constructor; [apply cell_new_ok|]. by apply Forall_take, Forall_drop.
  - exists []. rewrite app_nil_r. replace new with (length c) by lia. rewrite take_app_length. split; [done|]. split; constructor.
Qed.

Lemma placed_ok k r :
  B !! k = Some r → line_ok (crop_line new (placed k r)) ∧ glyphs (cells (crop_line new (placed k r))) = glyphs (chunk k).
Proof.
  intros Hr. destruct (cut !! k) as [c|] eqn:Hc.
  - destruct (placed_front k r c Hr Hc) as (tl & E & Hb & Hcok). destruct (blank_line_of tl Hb) as [Hp Hg].
    assert (Hpc : paired (take new (cells (placed k r)))).
    { rewrite E. apply paired_app; [|done]. by apply (Forall_lookup_1 _ _ _ _ (ct_paired _ Hok) Hc). }
    unfold line_ok. rewrite crop_exact by done. split; [split; [done|]|].
    + rewrite E. apply Forall_app. split; [|done]. by apply (Forall_lookup_1 _ _ _ _ cut_cells Hc).
    + rewrite E, glyphs_app, Hg, app_nil_r. unfold chunk. by rewrite Hc.
  - unfold placed, chunk. rewrite list_lookup_fmap, Hc. simpl. destruct (B_row k r Hr) as (Hl & Hcok & [Hp _]).
    split; [by apply crop_ok|]. apply lookup_ge_None in Hc. pose proof (lookup_lt_Some _ _ _ Hr) as Hk. rewrite B_length in Hk.
    destruct (cut_count k) as [Hkn Hz]; [done|lia|]. unfold B in Hr. rewrite lookup_app_l in Hr by lia.
    destruct (narrow_row k r Hr) as (Ht & _). unfold wrapped_line_trimmed_len in Ht. rewrite Hr in Ht.
    rewrite (proj2 (Nat.eqb_eq _ _)) in Ht by done. injection Ht as Ht. rewrite Hz in Ht.
    destruct (trimmed_split r Hp Hcok) as (a & b & E & Hla & _ & _ & Hb & Hg). rewrite Ht in Hla.
    destruct a; [|done]. simpl in E. destruct (blank_line_of (take new b)) as [Hpb Hgb]; [apply Forall_take, Forall_and; done|].
    rewrite crop_exact; rewrite E; done.
Qed.

(** All of the copying, from the last cell to the first. *)
Lemma narrowed_ok :
  let d0 := Z.of_nat m - 1 in
  let p := if (dest_len (length <$> cut) d0 =? 0)%nat then (d0 - 1, dest_len (length <$> cut) (d0 - 1))
           else (d0, dest_len (length <$> cut) d0) in
  ∃ out, (let! g := smaller_loop (n + m + 1) B (length <$> cut) old (fst p) (snd p) (Z.of_nat n - 1) (T (n - 1)) in
          end_lines g (length <$> cut) new) = Some out ∧
    length out = length B ∧ ∀ k r, B !! k = Some r → out !! k = Some (placed k r).
Proof.
  intros d0 p. rewrite <- mixed_start. assert (Hp : at_dest (length W) (fst p) (snd p) ∧ fst p < Z.of_nat m).
  { unfold p. pose proof (dest_before (Z.of_nat m) ltac:(lia)) as H. rewrite (proj2 (Z.ltb_ge _ _)), Nat2Z.id, cut_total in H by lia.
    fold d0 in H. destruct (Nat.eqb_spec (dest_len (length <$> cut) d0) 0) as [E|E]; cbn [fst snd].
    - split; [|lia]. destruct H as [[? ->]|(_ & _ & ? & _)]; [left; split; [lia|done]|lia].
    - split; [done|lia]. }
  destruct Hp as [Hp Hm]. rewrite (smaller_loop_ok _ (length W)); [|done| |lia].
  2: { right. replace (Z.to_nat (Z.of_nat n - 1)) with (n - 1)%nat by lia. destruct (lookup_lt_is_Some_2 G (n - 1)) as [r Hr]; [lia|].
       destruct (narrow_row _ _ Hr) as (_ & _ & _ & _ & _ & _ & Hst). split; [lia|]. split; [lia|]. split; [lia|].
       rewrite <- Hst. replace (n - 1 + 1)%nat with n by lia. apply narrow_total. }
  destruct (end_lines_ok (mixed 0) (length <$> cut)) as (out & E & Hl & Hout).
  { intros k r len Hr Hlen Hlt. unfold mixed in Hr. rewrite list_lookup_imap in Hr. destruct (B !! k) as [rb|] eqn:Hb; [|done].
    simpl in Hr. injection Hr as <-. destruct (B_row k rb Hb) as (Hlb & _). pose proof (chunk_le k). simpl. rewrite mix_length; lia. }
  exists out. split; [done|]. split; [rewrite Hl, mixed_start; unfold mixed; by rewrite length_imap|].
  rewrite mixed_start. intros k r Hr. rewrite (Hout _ _ (mixed_lookup 0 k r Hr)). f_equal. unfold placed, chunk.
  rewrite list_lookup_fmap. destruct (cut !! k) as [c|]; simpl.
  - unfold mix. simpl. rewrite Nat.min_0_r, drop_0. simpl. by destruct (_ <? _)%nat.
  - rewrite mix_whole by (simpl; lia). by destruct r.
Qed.

Lemma placed_all out :
  length out = length B → (∀ k r, B !! k = Some r → out !! k = Some (placed k r)) →
  Forall line_ok (crop_line new <$> out) ∧ line_text (crop_line new <$> out) = line_text G.
Proof.
  intros Hl Hout. assert (Hrow : ∀ k x, out !! k = Some x → line_ok (crop_line new x) ∧ glyphs (cells (crop_line new x)) = glyphs (chunk k)).
  { intros k x Hx. destruct (lookup_lt_is_Some_2 B k) as [r Hr]; [rewrite <- Hl; by eapply lookup_lt_Some|].
    rewrite (Hout _ _ Hr) in Hx. injection Hx as <-. by apply placed_ok. }
  split.
  { apply Forall_fmap, Forall_lookup. intros k x Hx. by apply (Hrow k). }
  rewrite <- (segs_text G old old) by (done || lia). rewrite <- Hcut.
  assert (Hpre : ∀ k, (k ≤ length out)%nat → line_text (crop_line new <$> take k out) = glyphs (concat (take k cut))).
  { induction k as [|k IH]; intros Hk; [done|]. destruct (lookup_lt_is_Some_2 out k Hk) as [x Hx].
    rewrite (take_S_r _ _ _ Hx), fmap_app, text_app, IH by lia. destruct (Hrow k x Hx) as [_ Hg].
    unfold line_text at 1. simpl. rewrite app_nil_r, Hg. unfold chunk. destruct (cut !! k) as [c|] eqn:Hc; simpl.
    - rewrite (take_S_r _ _ _ Hc), concat_app, glyphs_app. simpl. by rewrite app_nil_r.
    - apply lookup_ge_None in Hc. rewrite !take_ge by lia. apply app_nil_r. }
  specialize (Hpre (length out) ltac:(lia)). rewrite firstn_all in Hpre. rewrite Hpre. rewrite take_ge; [done|].
  rewrite Hl, B_length. lia.
Qed.
End Cut.
End Group.

Lemma smaller_group_ok ls old new :
  (2 ≤ new)%nat → (new < old)%nat → Forall (line_in old old) ls → (1 ≤ length ls)%nat →
  ∃ group to_add, smaller_group ls old new = Some (group, to_add) ∧
    length group = (length ls + Z.to_nat (Z.max 0 to_add))%nat ∧
    Forall line_ok (crop_line new <$> group) ∧ line_text (crop_line new <$> group) = line_text ls.
Proof.
  intros Htwo Hnew Hls Hn. destruct (pad_group ls old old) as [HG Htext]; [lia|done|].
  unfold smaller_group. rewrite <- Htext. rewrite <- (length_fmap (pad_line old) ls) in Hn |- *.
  set (G := pad_line old <$> ls) in *. clearbody G. clear Hls Htext ls.
  destruct (last G) as [l|] eqn:Hlast; [|apply last_None in Hlast; subst; simpl in Hn; lia].
  rewrite last_lookup in Hlast. replace (pred (length G)) with (length G - 1)%nat in Hlast by lia.
  destruct (narrow_row G old new Htwo Hnew HG Hn (length G - 1) l Hlast) as (Ht & _).
  unfold wrapped_line_trimmed_len in Ht. rewrite Hlast in Ht.
  rewrite (proj2 (Nat.eqb_eq _ _)) in Ht by lia. injection Ht as Ht.
  destruct (new_line_lengths_ok G old new Htwo Hnew HG Hn) as (cut & Hnl & Hcut & Hok). rewrite Hnl.
  cbv zeta. rewrite length_fmap, Ht. set (to_add := Z.of_nat (length cut) - Z.of_nat (length G)).
  set (add := Z.to_nat (Z.max 0 to_add)). assert (Hadd : add = (length cut - length G)%nat) by lia.
  destruct (narrowed_ok G old new Htwo Hnew HG Hn cut Hcut Hok add Hadd) as (out & E & Hl & Hout).
  destruct (placed_all G old new Htwo Hnew HG Hn cut Hcut Hok add Hadd out Hl Hout) as [Hokl Htx].
  fold (B G new add). exists out, to_add. split; [|split; [|done]].
  - destruct (if (_ =? 0)%nat then _ else _) as [d dc]. cbn [fst snd] in E. cbv beta iota zeta.
    destruct (smaller_loop _ _ _ _ _ _ _ _) as [g|]; [|done]. simpl in E |- *. by rewrite E.
  - rewrite Hl, (B_length G old new Htwo Hnew Hn cut add Hadd). lia.
Qed.

(** ** All lines *)

Lemma adjust_cursor_ok k new_rows mx count yb y live :
  (yb ≤ 1 `max` (mx - new_rows))%nat →
  (fst (fst (adjust_cursor k new_rows mx count yb y live)) ≤ 1 `max` (mx - new_rows))%nat.
Proof.
  revert yb y live. induction k as [|k IH]; intros yb y live Hb; cbn [adjust_cursor]; [done|].
  destruct (Nat.eqb_spec yb 0); [destruct (y + 1 <? new_rows)%nat; apply IH; lia|].
  cbv zeta. destruct (Z.ltb_spec (Z.of_nat yb) (Z.of_nat (mx `min` (live + count)) - Z.of_nat new_rows)); apply IH; lia.
Qed.

Lemma group_start_ok ls y : (y < length ls)%nat → ∃ y', group_start ls y = Some y' ∧ (y' ≤ y)%nat.
Proof.
  induction y as [|y IH]; intros Hy; cbn [group_start]; destruct (lookup_lt_is_Some_2 ls _ Hy) as [r ->].
  - by exists 0%nat.
  - destruct (wrapped r); [|by exists (S y)]. destruct IH as (y' & E & Hle); [lia|]. exists y'. split; [done|lia].
Qed.

Section Scan.
Context (old new new_rows : nat) (Htwo : (2 ≤ new)%nat) (Hnew : (new < old)%nat) (Hrows : (1 ≤ new_rows)%nat).

Definition good_line (r : Row) : Prop := line_ok (crop_line new r).

(** The first [y] lines are as they were; the others fit the new width once they are cut. *)
Record narrow_inv (b : Lines) (y : nat) (ins : list (nat * list Row)) : Prop := {
  ni_len : (y ≤ length (lines b))%nat;
  ni_old : Forall (line_in old old) (take y (lines b));
  ni_lines : Forall good_line (lines b);
  ni_ins : Forall (λ p, Forall good_line (snd p)) ins;
  ni_ybase : (ybase b ≤ 1 `max` (max_len b - new_rows))%nat;
}.

Lemma narrow_less b y ins k : narrow_inv b y ins → (k ≤ y)%nat → narrow_inv b k ins.
Proof.
  intros [H1 H2 H3 H4 H5] Hk. split; [lia| |done|done|done].
  replace (take k (lines b)) with (take k (take y (lines b))) by (rewrite take_take; f_equal; lia). by apply Forall_take.
Qed.

(** A group is replaced by its new lines, the surplus waiting to be inserted. *)
Lemma narrow_group b last y ins group yb cy sy (at_ : nat) :
  narrow_inv b (S last) ins → (y ≤ last)%nat → (last - y + 1 ≤ length group)%nat → Forall good_line group →
  (yb ≤ 1 `max` (max_len b - new_rows))%nat →
  narrow_inv (mkLines (take y (lines b) ++ take (last - y + 1) group ++ drop (y + (last - y + 1)) (lines b)) yb cy sy (max_len b))
    y (if bool_decide (drop (last - y + 1) group = []) then ins else ins ++ [(at_, drop (last - y + 1) group)]).
Proof.
  intros [H1 H2 H3 H4 H5] Hy Hl Hg Hb. split; simpl.
  - rewrite length_app, length_take. lia.
  - rewrite take_app_le, take_take by (rewrite length_take; lia). replace (y `min` y)%nat with (y `min` S last)%nat by lia.
    rewrite <- take_take. by apply Forall_take.
  - rewrite !Forall_app. split; [by apply Forall_take|]. split; [by apply Forall_take|by apply Forall_drop].
  - destruct (bool_decide _); [done|]. apply Forall_app. split; [done|]. constructor; [|constructor]. by apply Forall_drop.
  - done.
Qed.

Lemma smaller_scan_ok fuel b y live count ins :
  narrow_inv b y ins → (y < fuel)%nat →
  ∃ b' live' count' ins', smaller_scan fuel b y live count ins old new new_rows = Some (b', live', count', ins') ∧
    narrow_inv b' 0 ins' ∧ max_len b' = max_len b.
Proof.
  revert b y live count ins. induction fuel as [|fuel IH]; intros b y live count ins Hi Hf; [lia|]. cbn [smaller_scan].
  destruct y as [|last]; [by eexists _, _, _, _|]. pose proof (ni_len _ _ _ Hi) as Hlen.
  destruct (lookup_lt_is_Some_2 (lines b) last) as [r Hr]; [lia|]. rewrite Hr.
  destruct (_ && _); [apply IH; [eapply narrow_less; [done|lia]|lia]|].
  destruct (group_start_ok (lines b) last) as (y & -> & Hy); [lia|].
  destruct (_ && _); [apply IH; [eapply narrow_less; [done|lia]|lia]|].
  set (k := (last - y + 1)%nat).
  destruct (smaller_group_ok (take k (drop y (lines b))) old new) as (group & to_add & -> & Hgl & Hgok & _); [done|done| |  |].
  { pose proof (Forall_drop _ y _ (ni_old _ _ _ Hi)) as H. rewrite skipn_firstn_comm in H.
    replace (S last - y)%nat with k in H by lia. done. }
  { rewrite length_take, length_drop. lia. }
  rewrite length_take, length_drop in Hgl. cbv zeta.
  set (adj := adjust_cursor _ _ _ _ _ _ _).
  assert (Hyb : (fst (fst adj) ≤ 1 `max` (max_len b - new_rows))%nat) by apply adjust_cursor_ok, Hi.
  destruct adj as [[yb cy] live']. cbn [fst snd] in Hyb. rewrite nat_sub_ok by lia.
  match goal with |- context [smaller_scan fuel ?b' y _ _ ?ins' _ _ _] => assert (Hi' : narrow_inv b' y ins') end.
  { apply narrow_group; [done|done|lia| |done]. exact (proj1 (Forall_fmap _ _ _) Hgok). }
  destruct (IH _ y live' (count + Z.to_nat (Z.max 0 to_add))%nat _ Hi') as (b2 & l2 & c2 & i2 & E & Hi2 & Hm); [lia|].
  exists b2, l2, c2, i2. by split; [exact E|].
Qed.

Lemma insert_pending_ok idx pending :
  Forall (λ p, Forall good_line (snd p)) pending →
  Forall good_line (fst (insert_pending idx pending)) ∧ Forall (λ p, Forall good_line (snd p)) (snd (insert_pending idx pending)).
Proof.
  induction 1 as [|[at_ rs] pending Hrs Hp [IH1 IH2]]; cbn [insert_pending]; [by split; constructor|].
  destruct (Nat.eqb_spec at_ idx); [|by split; [constructor|constructor]].
  destruct (insert_pending idx pending) as [out rest]. simpl in *. split; [by apply Forall_app|done].
Qed.

Lemma insert_lines_ok idx ls pending :
  Forall good_line ls → Forall (λ p, Forall good_line (snd p)) pending → Forall good_line (insert_lines_at idx ls pending).
Proof.
  intros Hls. revert idx pending. induction Hls as [|r ls Hr Hls IH]; intros idx pending Hp; cbn [insert_lines_at].
  - apply Forall_concat, Forall_fmap. done.
  - destruct (insert_pending_ok (idx + 1) pending Hp) as [H1 H2]. destruct (insert_pending (idx + 1) pending) as [out rest].
    constructor; [done|]. apply Forall_app. split; [done|]. by apply IH.
Qed.

(** Narrowing never panics; every line fits the new width once it is cut, and at most one line
    more than the limit is put into the scrollback. *)
Lemma reflow_smaller_ok b :
  Forall (line_in old old) (lines b) → (ybase b ≤ 1 `max` (max_len b - new_rows))%nat →
  ∃ b', reflow_smaller b old new new_rows = Some b' ∧ Forall good_line (lines b') ∧
    (ybase b' ≤ 1 `max` (max_len b - new_rows))%nat.
Proof.
  intros Hls Hyb. unfold reflow_smaller.
  destruct (smaller_scan_ok (S (length (lines b))) b (length (lines b)) (length (lines b)) 0 [])
    as (b1 & live & count & ins & -> & [_ _ Hl Hins Hy] & Hm); [|lia|].
  { split; [lia|by rewrite firstn_all| |constructor|done]. eapply Forall_impl; [exact Hls|]. intros r Hr. apply crop_ok.
    by eapply line_in_ok. }
  rewrite Hm in *. destruct (bool_decide _).
  - eexists. split; [done|]. simpl. split; [by apply Forall_take|done].
  - eexists. split; [done|]. simpl. split; [|done]. apply Forall_drop, insert_lines_ok; [by apply Forall_take|].
    by rewrite merge_sort_Permutation.
Qed.
End Scan.
