(* ===== verification/VtScreen.v ===== *)
(** * The terminal screen ([crates/vt100/src/screen.rs], [crates/vt100/src/perform.rs])

    The two grids, the drawing attributes, character sets and modes, what each control
    character and sequence does to them, and the dispatch of the tokenizer's events. *)

From S2P Require Import Prelude VtCell VtRow VtGrid VtGridInv.

(** ** Data *)

Definition MODE_APPLICATION_KEYPAD : Z := 1.
Definition MODE_APPLICATION_CURSOR : Z := 2.
Definition MODE_HIDE_CURSOR : Z := 4.
Definition MODE_ALTERNATE_SCREEN : Z := 8.
Definition MODE_BRACKETED_PASTE : Z := 16.
Definition MODE_INSERT : Z := 32.
Definition MODE_NEWLINE : Z := 64.
Definition MODE_NO_AUTOWRAP : Z := 128.
Definition MODE_FOCUS_EVENTS : Z := 256.
Definition MODE_REVERSE_VIDEO : Z := 512.

Inductive MouseProtocolMode := MNone | MPress | MPressRelease | MButtonMotion | MAnyMotion.
Inductive MouseProtocolEncoding := EDefault | EUtf8 | ESgr | EUrxvt.
#[global] Instance MouseProtocolMode_eq_dec : EqDecision MouseProtocolMode.
Proof. solve_decision. Defined.
#[global] Instance MouseProtocolEncoding_eq_dec : EqDecision MouseProtocolEncoding.
Proof. solve_decision. Defined.

Inductive Charset := Ascii | DecSpecial | Uk.

Definition charset_from_final (b : byte) : option Charset :=
  if b =? 66 then Some Ascii else if b =? 48 then Some DecSpecial else if b =? 65 then Some Uk else None.

(** The DEC Special Graphics table, from ['_'] to ['~']. *)
Definition dec_special_table : list Z :=
  [160; 9670; 9618; 9225; 9228; 9229; 9226; 176; 177; 9252; 9227; 9496; 9488; 9484; 9492; 9532; 9146; 9147; 9472;
   9148; 9149; 9500; 9508; 9524; 9516; 9474; 8804; 8805; 960; 8800; 163; 183].

Definition dec_special_graphics (c : Z) : Z :=
  if (95 <=? c) && (c <=? 126) then default c (dec_special_table !! Z.to_nat (c - 95)) else c.

Definition charset_map (s : Charset) (c : Z) : Z :=
  match s with
  | Ascii => c
  | Uk => if c =? 35 then 163 else c
  | DecSpecial => dec_special_graphics c
  end.

Record Charsets := mkCharsets { cs_g : list Charset; cs_gl : nat; cs_single_shift : option nat }.
Definition charsets_default : Charsets := mkCharsets [Ascii; Ascii; Ascii; Ascii] 0 None.

Record Screen := mkScreen {
  grid : Grid;
  alternate_grid : Grid;
  attrs : Attrs;
  saved_attrs : Attrs;
  charsets : Charsets;
  saved_charsets : Charsets;
  last_base : Z;
  last_marks : list Z;
  last_cluster_live : bool;
  cursor_style : Z;
  modes : Z;
  mouse_protocol_mode : MouseProtocolMode;
  mouse_protocol_encoding : MouseProtocolEncoding;
}.

Definition with_grids (s : Screen) (g a : Grid) : Screen :=
  mkScreen g a (attrs s) (saved_attrs s) (charsets s) (saved_charsets s) (last_base s) (last_marks s)
    (last_cluster_live s) (cursor_style s) (modes s) (mouse_protocol_mode s) (mouse_protocol_encoding s).

Definition with_attrs (s : Screen) (a : Attrs) : Screen :=
  mkScreen (grid s) (alternate_grid s) a (saved_attrs s) (charsets s) (saved_charsets s) (last_base s) (last_marks s)
    (last_cluster_live s) (cursor_style s) (modes s) (mouse_protocol_mode s) (mouse_protocol_encoding s).

Definition with_charsets (s : Screen) (cs : Charsets) : Screen :=
  mkScreen (grid s) (alternate_grid s) (attrs s) (saved_attrs s) cs (saved_charsets s) (last_base s) (last_marks s)
    (last_cluster_live s) (cursor_style s) (modes s) (mouse_protocol_mode s) (mouse_protocol_encoding s).

Definition with_cluster (s : Screen) (base : Z) (marks : list Z) (live : bool) : Screen :=
  mkScreen (grid s) (alternate_grid s) (attrs s) (saved_attrs s) (charsets s) (saved_charsets s) base marks live
    (cursor_style s) (modes s) (mouse_protocol_mode s) (mouse_protocol_encoding s).

Definition with_modes (s : Screen) (m : Z) : Screen :=
  mkScreen (grid s) (alternate_grid s) (attrs s) (saved_attrs s) (charsets s) (saved_charsets s) (last_base s)
    (last_marks s) (last_cluster_live s) (cursor_style s) m (mouse_protocol_mode s) (mouse_protocol_encoding s).

Definition with_mouse (s : Screen) (m : MouseProtocolMode) (e : MouseProtocolEncoding) : Screen :=
  mkScreen (grid s) (alternate_grid s) (attrs s) (saved_attrs s) (charsets s) (saved_charsets s) (last_base s)
    (last_marks s) (last_cluster_live s) (cursor_style s) (modes s) m e.

(** ** Modes *)

Definition mode_on (s : Screen) (m : Z) : bool := negb (Z.land (modes s) m =? 0).
Definition set_mode (s : Screen) (m : Z) : Screen := with_modes s (Z.lor (modes s) m).
Definition clear_mode (s : Screen) (m : Z) : Screen := with_modes s (Z.land (modes s) (u16_max - m)).

Definition set_mouse_mode (s : Screen) (m : MouseProtocolMode) : Screen := with_mouse s m (mouse_protocol_encoding s).
Definition clear_mouse_mode (s : Screen) (m : MouseProtocolMode) : Screen :=
  if bool_decide (mouse_protocol_mode s = m) then with_mouse s MNone (mouse_protocol_encoding s) else s.
Definition set_mouse_encoding (s : Screen) (e : MouseProtocolEncoding) : Screen := with_mouse s (mouse_protocol_mode s) e.
Definition clear_mouse_encoding (s : Screen) (e : MouseProtocolEncoding) : Screen :=
  if bool_decide (mouse_protocol_encoding s = e) then with_mouse s (mouse_protocol_mode s) EDefault else s.

(** ** The grids *)

Definition screen_new (sz : Size) (sb_len : Z) : option Screen :=
  let! g := grid_new sz sb_len in
  let! a := grid_new sz 0 in
  Some (mkScreen (allocate_rows g) a attrs_default attrs_default charsets_default charsets_default 32 [] false 0 0 MNone EDefault).

Definition cur_grid (s : Screen) : Grid := if mode_on s MODE_ALTERNATE_SCREEN then alternate_grid s else grid s.

Definition set_cur (s : Screen) (g : Grid) : Screen :=
  if mode_on s MODE_ALTERNATE_SCREEN then with_grids s (grid s) g else with_grids s g (alternate_grid s).

(** An operation through [grid_mut()]. *)
Definition on_grid (s : Screen) (f : Grid → option Grid) : option Screen :=
  let! g := f (cur_grid s) in Some (set_cur s g).

Definition enter_alternate_grid (s : Screen) : Screen :=
  if mode_on s MODE_ALTERNATE_SCREEN then s
  else
    let s := set_cur s (set_scrollback (cur_grid s) 0) in
    let p := pos (grid s) in
    let s := set_mode s MODE_ALTERNATE_SCREEN in
    with_grids s (grid s) (set_pos_exact (allocate_rows (alternate_grid s)) p).

Definition exit_alternate_grid (s : Screen) : Screen :=
  if negb (mode_on s MODE_ALTERNATE_SCREEN) then s
  else
    let p := pos (alternate_grid s) in
    let s := clear_mode s MODE_ALTERNATE_SCREEN in
    with_grids s (set_pos_exact (grid s) p) (alternate_grid s).

Definition sync_blank_attrs (s : Screen) : Screen :=
  let blank := for_erase (attrs s) in
  with_grids s (set_blank_attrs (grid s) blank) (set_blank_attrs (alternate_grid s) blank).

Definition screen_save_cursor (s : Screen) : Screen :=
  let s := set_cur s (save_cursor (cur_grid s)) in
  mkScreen (grid s) (alternate_grid s) (attrs s) (attrs s) (charsets s) (charsets s) (last_base s) (last_marks s)
    (last_cluster_live s) (cursor_style s) (modes s) (mouse_protocol_mode s) (mouse_protocol_encoding s).

Definition screen_restore_cursor (s : Screen) : option Screen :=
  let! s := on_grid s restore_cursor in
  Some (sync_blank_attrs (with_charsets (with_attrs s (saved_attrs s)) (saved_charsets s))).

(** ** Drawing *)

Section Draw.
Context `{!UnicodeWidth}.

Definition char_width (c : Z) : option Z :=
  if (32 <=? c) && (c <=? 126) then Some 1 else if c =? 173 then Some 1 else char_cols c.

(** A combining mark joins the character before the cursor, or the one that ended the row
    above when the row continues it. *)
Definition draw_mark (g : Grid) (p : Pos) (c : Z) : option Grid :=
  if 0 <? col p then
    let! prev := drawing_cell g (mkPos (row p) (col p - 1)) in
    if is_wide_continuation prev then
      let! j := u16_sub (col p) 2 in update_cell g (mkPos (row p) j) (λ x, append x c)
    else update_cell g (mkPos (row p) (col p - 1)) (λ x, append x c)
  else if 0 <? row p then
    if match drawing_row g (row p) with Some r => wrapped r | None => false end then
      let! j := u16_sub (cols (size g)) 1 in
      let! prev := drawing_cell g (mkPos (row p - 1) j) in
      if is_wide_continuation prev then
        let! j := u16_sub (cols (size g)) 2 in update_cell g (mkPos (row p - 1) j) (λ x, append x c)
      else update_cell g (mkPos (row p - 1) j) (λ x, append x c)
    else Some g
  else Some g.

(** Blanks what the character overwrites half of. *)
Definition repair_before (g : Grid) (p : Pos) (a : Attrs) : option Grid :=
  let! cell := drawing_cell g p in
  let! g :=
    (if is_wide_continuation cell then
       let! j := u16_sub (col p) 1 in update_cell g (mkPos (row p) j) (λ x, Some (clear x a))
     else Some g) in
  let! cell := drawing_cell g p in
  if is_wide cell then
    let! j := u16_add (col p) 1 in
    match drawing_cell g (mkPos (row p) j) with
    | Some _ => update_cell g (mkPos (row p) j) (λ x, set x 32 a)
    | None => Some g
    end
  else Some g.

(** A first half under the second column of a wide character loses its own second half. *)
Definition repair_after (g : Grid) (q : Pos) (a : Attrs) : option Grid :=
  let! cell := drawing_cell g q in
  if is_wide cell then
    let! j := u16_add (col q) 1 in
    match drawing_cell g (mkPos (row q) j) with
    | Some _ => update_cell g (mkPos (row q) j) (λ x, Some (clear x a))
    | None => Some g
    end
  else Some g.

(** Writes a character of one or two columns at [p]. *)
Definition put_char (g : Grid) (p : Pos) (c width : Z) (a : Attrs) : option Grid :=
  let! g := repair_before g p a in
  let! g := update_cell g p (λ x, set x c a) in
  let g := col_inc g 1 in
  if 1 <? width then
    let q := pos g in
    let! g := repair_after g q a in
    let! g := update_cell g q (λ x, Some (set_wide_continuation (clear x a) true)) in
    Some (col_inc g 1)
  else Some g.

(** The fast path applies: a plain cell inside the row. *)
Definition plain_at (g : Grid) (p : Pos) : bool :=
  match drawing_cell g p with
  | Some cell => negb (is_wide cell) && negb (is_wide_continuation cell)
  | None => false
  end.

Definition draw_inner (g : Grid) (insert autowrap : bool) (a : Attrs) (c : Z) : option Grid :=
  let p := pos g in
  if c =? 65279 then Some g
  else if bool_decide (char_width c = None) && (c <? 256) then Some g
  else
    let width := default 1 (char_width c) in
    if cols (size g) <? width then Some g
    else if (width =? 1) && (col p <? cols (size g)) && negb insert && plain_at g p then
      let! g := update_cell g p (λ x, set x c a) in Some (col_inc g 1)
    else
      let! limit := u16_sub (cols (size g)) width in
      let! last_col := u16_sub (cols (size g)) 1 in
      let stuck := negb autowrap && (limit <? col p) in
      let! g := (if stuck then col_set g last_col else Some g) in
      if stuck && (1 <? width) then Some g
      else
        let! g :=
          (if autowrap && (1 <? width) && (col p =? last_col) then
             let blank := mkAttrs (fgcolor a) (bgcolor a) (ulcolor a) (mode a) (underline_style a) 0 in
             match drawing_row g (row p) with
             | Some _ => update_row g (row p) (λ r, row_erase r last_col blank)
             | None => Some g
             end
           else Some g) in
        let! g := (if autowrap then col_wrap g width else Some g) in
        let p := pos g in
        let! g := (if insert && (0 <? width) then insert_cells g width else Some g) in
        if width =? 0 then draw_mark g p c else put_char g p c width a.

Definition draw (s : Screen) (c : Z) : option Screen :=
  on_grid s (λ g, draw_inner g (mode_on s MODE_INSERT) (negb (mode_on s MODE_NO_AUTOWRAP)) (attrs s) c).

Definition text (s : Screen) (c : Z) : option Screen :=
  let cs := charsets s in
  let i := default (cs_gl cs) (cs_single_shift cs) in
  let s := with_charsets s (mkCharsets (cs_g cs) (cs_gl cs) None) in
  let! set := cs_g cs !! i in
  let c := charset_map set c in
  let! s := draw s c in
  Some match char_width c with
       | None => s
       | Some w =>
           if w =? 0 then
             if last_cluster_live s then with_cluster s (last_base s) (last_marks s ++ [c]) true else s
           else with_cluster s c [] true
       end.

(** REP: at most one screenful. *)
Definition rep (s : Screen) (count : Z) : option Screen :=
  if negb (last_cluster_live s) then Some s
  else
    let base := last_base s in
    let marks := last_marks s in
    let sz := size (cur_grid s) in
    let n := Z.min count (rows sz * cols sz) in
    let! s := times (Z.to_nat n) (λ s, let! s := draw s base in foldl (λ o m, let! s := o in draw s m) (Some s) marks) s in
    Some (with_cluster s (last_base s) marks false).

End Draw.

(** ** Control characters and escape sequences *)

Section Controls.
Context `{!UnicodeWidth}.

(** Anything that is not a printed character breaks REP. *)
Definition break_rep (s : Screen) : Screen := with_cluster s (last_base s) (last_marks s) false.

Definition scs (s : Screen) (slot final_byte : byte) : Screen :=
  let s := break_rep s in
  let set := default Ascii (charset_from_final final_byte) in
  let cs := charsets s in
  let put i := with_charsets s (mkCharsets (<[i := set]> (cs_g cs)) (cs_gl cs) (cs_single_shift cs)) in
  if slot =? 40 then put 0%nat else if slot =? 41 then put 1%nat
  else if slot =? 42 then put 2%nat else if slot =? 43 then put 3%nat else s.

Definition shift (s : Screen) (i : nat) : Screen :=
  let s := break_rep s in with_charsets s (mkCharsets (cs_g (charsets s)) i (cs_single_shift (charsets s))).

Definition single_shift (s : Screen) (i : nat) : Screen :=
  let s := break_rep s in with_charsets s (mkCharsets (cs_g (charsets s)) (cs_gl (charsets s)) (Some i)).

Definition bs (s : Screen) : option Screen := on_grid s (λ g, col_dec_restricted g 1).
Definition tab (s : Screen) : option Screen := on_grid s col_tab.
Definition cr (s : Screen) : option Screen := on_grid s (λ g, col_set g 0).
Definition lf (s : Screen) : option Screen :=
  let! s := (if mode_on s MODE_NEWLINE then cr s else Some s) in on_grid s line_feed.
Definition vt (s : Screen) : option Screen := lf s.
Definition ff (s : Screen) : option Screen := lf s.
Definition ind (s : Screen) : option Screen :=
  let! s := on_grid s restrict_col in
  on_grid s (λ g, let! (g, _) := row_inc_scroll g 1 in Some g).
Definition nel (s : Screen) : option Screen := let! s := cr s in ind s.
Definition hts (s : Screen) : option Screen := on_grid s (λ g, Some (set_tab_stop g)).
Definition tbc (s : Screen) (m : Z) : option Screen :=
  if m =? 0 then on_grid s (λ g, Some (clear_tab_stop g))
  else if m =? 3 then on_grid s (λ g, Some (clear_all_tab_stops g)) else Some s.
Definition cht (s : Screen) (n : Z) : option Screen := on_grid s (λ g, col_forward_tab g n).
Definition cbt (s : Screen) (n : Z) : option Screen := on_grid s (λ g, col_back_tab g n).
Definition decaln (s : Screen) : option Screen := on_grid s align_test.
Definition decsc (s : Screen) : Screen := screen_save_cursor s.
Definition decrc (s : Screen) : option Screen := screen_restore_cursor s.
Definition deckpam (s : Screen) : Screen := set_mode s MODE_APPLICATION_KEYPAD.
Definition deckpnm (s : Screen) : Screen := clear_mode s MODE_APPLICATION_KEYPAD.
Definition ri (s : Screen) : option Screen := on_grid s reverse_index.
Definition ris (s : Screen) : option Screen := screen_new (size (grid s)) (scrollback_len (grid s)).

(** DECSTR: the state, not the contents. *)
Definition decstr (s : Screen) : option Screen :=
  let s := mkScreen (grid s) (alternate_grid s) attrs_default attrs_default charsets_default charsets_default
             (last_base s) (last_marks s) false 0 (modes s) (mouse_protocol_mode s) (mouse_protocol_encoding s) in
  let s := clear_mode s (Z.lor MODE_INSERT (Z.lor MODE_NEWLINE (Z.lor MODE_NO_AUTOWRAP
             (Z.lor MODE_APPLICATION_CURSOR (Z.lor MODE_APPLICATION_KEYPAD MODE_HIDE_CURSOR))))) in
  let! s := on_grid s soft_reset in
  Some (sync_blank_attrs s).

(** ** Control sequences *)

Definition ich (s : Screen) (n : Z) : option Screen :=
  let! s := on_grid s restrict_col in on_grid s (λ g, insert_cells g n).
Definition cuu (s : Screen) (n : Z) : option Screen :=
  let! s := on_grid s restrict_col in on_grid s (λ g, row_dec_clamp g n).
Definition cud (s : Screen) (n : Z) : option Screen :=
  let! s := on_grid s restrict_col in on_grid s (λ g, row_inc_clamp g n).
Definition cuf (s : Screen) (n : Z) : option Screen := on_grid s (λ g, col_inc_clamp g n).
Definition cub (s : Screen) (n : Z) : option Screen := on_grid s (λ g, col_dec_restricted g n).
Definition cnl (s : Screen) (n : Z) : option Screen :=
  let! s := on_grid s (λ g, col_set g 0) in on_grid s (λ g, row_inc_clamp g n).
Definition cpl (s : Screen) (n : Z) : option Screen :=
  let! s := on_grid s (λ g, col_set g 0) in on_grid s (λ g, row_dec_clamp g n).
Definition cha (s : Screen) (c : Z) : option Screen :=
  let! i := u16_sub c 1 in on_grid s (λ g, col_set g i).
Definition cup (s : Screen) (r c : Z) : option Screen :=
  let! i := u16_sub r 1 in
  let! j := u16_sub c 1 in
  on_grid s (λ g, set_pos g (mkPos i j)).
Definition ed (s : Screen) (m : Z) : option Screen :=
  let a := for_erase (attrs s) in
  if m =? 0 then on_grid s (λ g, erase_all_forward g a)
  else if m =? 1 then on_grid s (λ g, erase_all_backward g a)
  else if m =? 2 then on_grid s (λ g, Some (erase_all g a)) else Some s.
Definition el (s : Screen) (m : Z) : option Screen :=
  let a := for_erase (attrs s) in
  if m =? 0 then on_grid s (λ g, erase_row_forward g a)
  else if m =? 1 then on_grid s (λ g, erase_row_backward g a)
  else if m =? 2 then on_grid s (λ g, erase_row g a) else Some s.
Definition il (s : Screen) (n : Z) : option Screen := on_grid s (λ g, insert_lines g n).
Definition dl (s : Screen) (n : Z) : option Screen := on_grid s (λ g, delete_lines g n).
Definition dch (s : Screen) (n : Z) : option Screen :=
  let! s := on_grid s restrict_col in on_grid s (λ g, delete_cells g n).
Definition su (s : Screen) (n : Z) : option Screen := on_grid s (λ g, scroll_up_discard g n).
Definition sd (s : Screen) (n : Z) : option Screen := on_grid s (λ g, scroll_down g n false).
Definition ech (s : Screen) (n : Z) : option Screen :=
  let! s := on_grid s restrict_col in on_grid s (λ g, erase_cells g n (for_erase (attrs s))).
Definition vpa (s : Screen) (r : Z) : option Screen :=
  let! s := on_grid s restrict_col in
  let! i := u16_sub r 1 in
  on_grid s (λ g, row_set g i).
Definition decstbm (s : Screen) (top bottom : Z) : option Screen :=
  let! t := u16_sub top 1 in
  let! b := u16_sub bottom 1 in
  on_grid s (λ g, set_scroll_region g t b).
Definition decscusr (s : Screen) (style : Z) : Screen :=
  if style <=? 6 then
    mkScreen (grid s) (alternate_grid s) (attrs s) (saved_attrs s) (charsets s) (saved_charsets s) (last_base s)
      (last_marks s) (last_cluster_live s) style (modes s) (mouse_protocol_mode s) (mouse_protocol_encoding s)
  else s.

(** A parameter is the list of its colon-separated values. *)
Abbreviation param := (list Z) (only parsing).

(** [for param in params] over the handlers below; an unknown parameter is reported and
    changes nothing. *)
Fixpoint for_params (f : Screen → param → option Screen) (ps : list param) (s : Screen) : option Screen :=
  match ps with
  | [] => Some s
  | p :: ps => let! s := f s p in for_params f ps s
  end.

Definition ansi_mode (on : bool) (s : Screen) (p : param) : option Screen :=
  match p with
  | [4] => Some (if on then set_mode s MODE_INSERT else clear_mode s MODE_INSERT)
  | [20] => Some (if on then set_mode s MODE_NEWLINE else clear_mode s MODE_NEWLINE)
  | _ => Some s
  end.

Definition decset (s : Screen) (p : param) : option Screen :=
  match p with
  | [1] => Some (set_mode s MODE_APPLICATION_CURSOR)
  | [5] => Some (set_mode s MODE_REVERSE_VIDEO)
  | [6] => on_grid s (λ g, set_origin_mode g true)
  | [7] => Some (clear_mode s MODE_NO_AUTOWRAP)
  | [9] => Some (set_mouse_mode s MPress)
  | [25] => Some (clear_mode s MODE_HIDE_CURSOR)
  | [47] | [1047] => Some (enter_alternate_grid s)
  | [1048] => Some (decsc s)
  | [1000] => Some (set_mouse_mode s MPressRelease)
  | [1002] => Some (set_mouse_mode s MButtonMotion)
  | [1003] => Some (set_mouse_mode s MAnyMotion)
  | [1005] => Some (set_mouse_encoding s EUtf8)
  | [1006] => Some (set_mouse_encoding s ESgr)
  | [1015] => Some (set_mouse_encoding s EUrxvt)
  | [1004] => Some (set_mode s MODE_FOCUS_EVENTS)
  | [1049] =>
      let s := decsc s in
      let! s := (if negb (mode_on s MODE_ALTERNATE_SCREEN)
                 then let! a := grid_clear (alternate_grid s) in Some (with_grids s (grid s) a) else Some s) in
      Some (enter_alternate_grid s)
  | [2004] => Some (set_mode s MODE_BRACKETED_PASTE)
  | _ => Some s
  end.

Definition decrst (s : Screen) (p : param) : option Screen :=
  match p with
  | [1] => Some (clear_mode s MODE_APPLICATION_CURSOR)
  | [5] => Some (clear_mode s MODE_REVERSE_VIDEO)
  | [6] => on_grid s (λ g, set_origin_mode g false)
  | [7] => Some (set_mode s MODE_NO_AUTOWRAP)
  | [9] => Some (clear_mouse_mode s MPress)
  | [25] => Some (set_mode s MODE_HIDE_CURSOR)
  | [47] => Some (exit_alternate_grid s)
  | [1047] =>
      let s := exit_alternate_grid s in
      let! a := grid_clear (alternate_grid s) in Some (with_grids s (grid s) a)
  | [1048] => decrc s
  | [1000] => Some (clear_mouse_mode s MPressRelease)
  | [1002] => Some (clear_mouse_mode s MButtonMotion)
  | [1003] => Some (clear_mouse_mode s MAnyMotion)
  | [1005] => Some (clear_mouse_encoding s EUtf8)
  | [1006] => Some (clear_mouse_encoding s ESgr)
  | [1015] => Some (clear_mouse_encoding s EUrxvt)
  | [1004] => Some (clear_mode s MODE_FOCUS_EVENTS)
  | [1049] => decrc (exit_alternate_grid s)
  | [2004] => Some (clear_mode s MODE_BRACKETED_PASTE)
  | _ => Some s
  end.

(** ** Graphic rendition *)

Definition byte_of (n : Z) : option Z := if n <=? u8_max then Some n else None.

Definition rgb (r g b : Z) : option Color :=
  let! r := byte_of r in let! g := byte_of g in let! b := byte_of b in Some (CRgb r g b).

(** The next parameter of the semicolon-separated form: it has a single value. *)
Definition next_value (ps : list param) : option (Z * list param) :=
  match ps with [n] :: ps => Some (n, ps) | _ => None end.

(** The colour after SGR 38/48/58, and the parameters left. *)
Definition extended_color (head : param) (ps : list param) : option (Color * list param) :=
  match head with
  | _ :: ((_ :: _) as tl) =>
      let! c := match tl with
                | [5; n] => CIdx <$> byte_of n
                | [2; r; g; b] | [2; _; r; g; b] => rgb r g b
                | _ => None
                end in
      Some (c, ps)
  | _ =>
      let! (sel, ps) := next_value ps in
      if sel =? 5 then
        let! (n, ps) := next_value ps in
        let! n := byte_of n in Some (CIdx n, ps)
      else if sel =? 2 then
        let! (r, ps) := next_value ps in
        let! r := byte_of r in
        let! (g, ps) := next_value ps in
        let! g := byte_of g in
        let! (b, ps) := next_value ps in
        let! b := byte_of b in Some (CRgb r g b, ps)
      else None
  end.

Definition with_fg (a : Attrs) (c : Color) : Attrs :=
  mkAttrs c (bgcolor a) (ulcolor a) (mode a) (underline_style a) (hyperlink a).
Definition with_bg (a : Attrs) (c : Color) : Attrs :=
  mkAttrs (fgcolor a) c (ulcolor a) (mode a) (underline_style a) (hyperlink a).
Definition with_ul (a : Attrs) (c : Color) : Attrs :=
  mkAttrs (fgcolor a) (bgcolor a) c (mode a) (underline_style a) (hyperlink a).

(** A parameter of one value. *)
Definition sgr_value (n : Z) (a : Attrs) : Attrs :=
  match n with
  | 0 => sgr_reset a
  | 1 => set_flag TEXT_MODE_BOLD a true
  | 2 => set_flag TEXT_MODE_DIM a true
  | 3 => set_flag TEXT_MODE_ITALIC a true
  | 4 => set_underline a (Some USingle)
  | 5 | 6 => set_flag TEXT_MODE_BLINK a true
  | 7 => set_flag TEXT_MODE_INVERSE a true
  | 8 => set_flag TEXT_MODE_CONCEAL a true
  | 9 => set_flag TEXT_MODE_STRIKETHROUGH a true
  | 21 => set_underline a (Some UDouble)
  | 22 => set_normal_intensity a
  | 23 => set_flag TEXT_MODE_ITALIC a false
  | 24 => set_underline a None
  | 25 => set_flag TEXT_MODE_BLINK a false
  | 27 => set_flag TEXT_MODE_INVERSE a false
  | 28 => set_flag TEXT_MODE_CONCEAL a false
  | 29 => set_flag TEXT_MODE_STRIKETHROUGH a false
  | 39 => with_fg a CDefault
  | 49 => with_bg a CDefault
  | 53 => set_flag TEXT_MODE_OVERLINE a true
  | 55 => set_flag TEXT_MODE_OVERLINE a false
  | 59 => with_ul a CDefault
  | _ =>
      if (30 <=? n) && (n <=? 37) then with_fg a (CIdx (n - 30))
      else if (40 <=? n) && (n <=? 47) then with_bg a (CIdx (n - 40))
      else if (90 <=? n) && (n <=? 97) then with_fg a (CIdx (n - 82))
      else if (100 <=? n) && (n <=? 107) then with_bg a (CIdx (n - 92))
      else a
  end.

Definition sgr_underline (n : Z) (a : Attrs) : Attrs :=
  match n with
  | 0 => set_underline a None
  | 1 => set_underline a (Some USingle)
  | 2 => set_underline a (Some UDouble)
  | 3 => set_underline a (Some UCurly)
  | 4 => set_underline a (Some UDotted)
  | 5 => set_underline a (Some UDashed)
  | _ => a
  end.

(** The loop of [sgr_apply]; each round takes at least one parameter, so their number is
    fuel enough. *)
Fixpoint sgr_loop (fuel : nat) (ps : list param) (a : Attrs) : Attrs :=
  match fuel, ps with
  | S fuel, p :: ps =>
      match p with
      | n :: tl =>
          if (n =? 38) || (n =? 48) || (n =? 58) then
            match extended_color p ps with
            | None => a
            | Some (c, ps) =>
                sgr_loop fuel ps (if n =? 38 then with_fg a c else if n =? 48 then with_bg a c else with_ul a c)
            end
          else
            match tl with
            | [] => sgr_loop fuel ps (sgr_value n a)
            | [m] => sgr_loop fuel ps (if n =? 4 then sgr_underline m a else a)
            | _ => sgr_loop fuel ps a
            end
      | [] => sgr_loop fuel ps a
      end
  | _, _ => a
  end.

Definition sgr (s : Screen) (ps : list param) : Screen :=
  let a := if bool_decide (ps = []) then sgr_reset (attrs s) else sgr_loop (length ps) ps (attrs s) in
  sync_blank_attrs (with_attrs s a).

(** ** Dispatch ([perform.rs])

    The callbacks for what the screen does not handle (bells, queries, resize requests) do
    not change it. *)

Definition first_value (ps : list param) : Z := match ps with p :: _ => default 0 (head p) | [] => 0 end.

Definition canonicalize_params_1 (ps : list param) (d : Z) : Z :=
  if first_value ps =? 0 then d else first_value ps.

Definition canonicalize_params_2 (ps : list param) (d1 d2 : Z) : Z * Z :=
  (canonicalize_params_1 ps d1, canonicalize_params_1 (tail ps) d2).

Definition canonicalize_params_decstbm (ps : list param) (sz : Size) : Z * Z :=
  (canonicalize_params_1 ps 1, canonicalize_params_1 (tail ps) (rows sz)).

Definition vt_print (s : Screen) (c : Z) : option Screen :=
  if (128 <=? c) && (c <? 160) then Some s else text s c.

Definition vt_execute (s : Screen) (b : byte) : option Screen :=
  let s := if (b =? 14) || (b =? 15) then s else break_rep s in
  match b with
  | 8 => bs s
  | 9 => tab s
  | 10 => lf s
  | 11 => vt s
  | 12 => ff s
  | 13 => cr s
  | 14 => Some (shift s 1)
  | 15 => Some (shift s 0)
  | _ => Some s
  end.

Definition vt_esc_dispatch (s : Screen) (inter : list byte) (b : byte) : option Screen :=
  let s := break_rep s in
  match inter with
  | [i] =>
      if (40 <=? i) && (i <=? 43) then Some (scs s i b)
      else if (i =? 35) && (b =? 56) then decaln s else Some s
  | _ :: _ => Some s
  | [] =>
      match b with
      | 68 => ind s
      | 69 => nel s
      | 72 => hts s
      | 78 => Some (single_shift s 2)
      | 110 => Some (shift s 2)
      | 111 => Some (shift s 3)
      | 79 => Some (single_shift s 3)
      | 55 => Some (decsc s)
      | 56 => decrc s
      | 61 => Some (deckpam s)
      | 62 => Some (deckpnm s)
      | 77 => ri s
      | 99 => ris s
      | _ => Some s
      end
  end.

(** Sequences without an intermediate. *)
Definition csi_plain (s : Screen) (ps : list param) (c : Z) : option Screen :=
  let p1 := canonicalize_params_1 ps 1 in
  let p0 := canonicalize_params_1 ps 0 in
  match c with
  | 64 => ich s p1
  | 65 => cuu s p1
  | 66 => cud s p1
  | 67 => cuf s p1
  | 68 => cub s p1
  | 69 => cnl s p1
  | 70 => cpl s p1
  | 71 => cha s p1
  | 72 => let '(r, cl) := canonicalize_params_2 ps 1 1 in cup s r cl
  | 74 => ed s p0
  | 75 => el s p0
  | 76 => il s p1
  | 77 => dl s p1
  | 80 => dch s p1
  | 83 => su s p1
  | 84 => sd s p1
  | 88 => ech s p1
  | 98 => rep s p1
  | 96 => cha s p1
  | 97 => cuf s p1
  | 101 => cud s p1
  | 102 => let '(r, cl) := canonicalize_params_2 ps 1 1 in cup s r cl
  | 73 => cht s p1
  | 90 => cbt s p1
  | 103 => tbc s p0
  | 104 => for_params (ansi_mode true) ps s
  | 108 => for_params (ansi_mode false) ps s
  | 115 => Some (decsc s)
  | 117 => decrc s
  | 100 => vpa s p1
  | 109 => Some (sgr s ps)
  | 114 => let '(t, b) := canonicalize_params_decstbm ps (size (cur_grid s)) in decstbm s t b
  | _ => Some s
  end.

(** Sequences with a question mark. *)
Definition csi_private (s : Screen) (ps : list param) (c : Z) : option Screen :=
  let p0 := canonicalize_params_1 ps 0 in
  match c with
  | 74 => ed s p0
  | 75 => el s p0
  | 104 => for_params decset ps s
  | 108 => for_params decrst ps s
  | _ => Some s
  end.

Definition vt_csi_dispatch (s : Screen) (ps : list param) (inter : list byte) (c : Z) : option Screen :=
  let s := if c =? 98 then s else break_rep s in
  match inter with
  | [] => csi_plain s ps c
  | 63 :: _ => csi_private s ps c
  | 33 :: _ => if c =? 112 then decstr s else Some s
  | [32] => if c =? 113 then Some (decscusr s (canonicalize_params_1 ps 0)) else Some s
  | _ => Some s
  end.

Inductive vt_event :=
| VPrint (c : Z)
| VExecute (b : byte)
| VEsc (inter : list byte) (b : byte)
| VCsi (ps : list param) (inter : list byte) (c : Z).

Definition vt_perform (s : Screen) (ev : vt_event) : option Screen :=
  match ev with
  | VPrint c => vt_print s c
  | VExecute b => vt_execute s b
  | VEsc inter b => vt_esc_dispatch s inter b
  | VCsi ps inter c => vt_csi_dispatch s ps inter c
  end.

Fixpoint vt_perform_all (s : Screen) (evs : list vt_event) : option Screen :=
  match evs with
  | [] => Some s
  | ev :: evs => let! s := vt_perform s ev in vt_perform_all s evs
  end.

End Controls.
