(* ===== verification/VtDraw.v ===== *)
(** * Safety of drawing

    [draw_inner] on a well-formed grid: no panic, and the wide characters it cuts are
    repaired, so the grid stays well formed. *)

From S2P Require Import Prelude VtCell VtRow VtGrid VtGridInv VtScreen.

(** A grid seen through one of its rows. *)
Definition focus (g : Grid) (r : Z) (x : Row) (q : Pos) : Grid :=
  with_pos (with_rows g (<[Z.to_nat r := x]> (g_rows g))) q.

Lemma focus_self g r x : drawing_row g r = Some x → g = focus g r x (pos g).
Proof. intros Hx. unfold focus. rewrite list_insert_id by done. by destruct g. Qed.

Lemma focus_inc g r x q n : col_inc (focus g r x q) n = focus g r x (mkPos (row q) (sat_add u16_max (col q) n)).
Proof. done. Qed.

Section Focus.
Context (g : Grid) (r : Z) (Hg : grid_ok g) (Hr : 0 ≤ r < rows (size g)).

Lemma focus_row x q : drawing_row (focus g r x q) r = Some x.
Proof. unfold drawing_row, focus. simpl. apply list_lookup_insert_eq. rewrite (go_len _ Hg). lia. Qed.

Lemma focus_cell x q c : drawing_cell (focus g r x q) (mkPos r c) = cells x !! Z.to_nat c.
Proof. unfold drawing_cell. simpl. by rewrite focus_row. Qed.

Lemma focus_update x q c f cell y :
  cells x !! Z.to_nat c = Some cell → f cell = Some y →
  update_cell (focus g r x q) (mkPos r c) f = Some (focus g r (mkRow (<[Z.to_nat c := y]> (cells x)) (wrapped x)) q).
Proof.
  intros Hc Hf. unfold update_cell, update_row. cbn [row col]. rewrite focus_row. unfold row_get. rewrite Hc, Hf.
  unfold focus. simpl. by rewrite list_insert_insert_eq.
Qed.

(** [focus_update] where the row is split at the column. *)
Lemma focus_update_at a cell b w q c f y :
  Z.to_nat c = length a → f cell = Some y →
  update_cell (focus g r (mkRow (a ++ cell :: b) w) q) (mkPos r c) f = Some (focus g r (mkRow (a ++ y :: b) w) q).
Proof.
  intros Hc Hf. erewrite focus_update; [| |done]; simpl.
  - by rewrite Hc, insert_middle.
  - by apply list_lookup_middle.
Qed.

Lemma focus_ok x q :
  row_ok (Z.to_nat (cols (size g))) x → 0 ≤ row q < rows (size g) → 0 ≤ col q ≤ cols (size g) →
  grid_ok (focus g r x q).
Proof.
  intros Hx Hq1 Hq2. apply ok_pos; [|done..]. apply ok_rows; [done|apply length_insert|].
  apply Forall_insert; [apply Hg|done].
Qed.

End Focus.

Section Draw.
Context `{!UnicodeWidth}.

Lemma wide_char_width c w :
  default 1 (char_width c) = w → char_width c ≠ Some 0 → wide_char c = (1 <? w) ∧ 1 ≤ w ≤ 2.
Proof.
  unfold char_width, wide_char, is_ascii. destruct ((32 <=? c) && (c <=? 126)) eqn:E.
  { intros <- _. b2p. rewrite (proj2 (Z.ltb_lt _ _)) by lia. done. }
  destruct (Z.eqb_spec c 173) as [->|Hne].
  { intros <- _. rewrite char_cols_soft_hyphen. done. }
  destruct (char_cols c) as [v|] eqn:Hv; simpl.
  - intros <- Hz. pose proof (char_cols_range _ _ Hv). assert (v ≠ 0) by congruence.
    destruct (Z.ltb_spec c 128); simpl; [|split; [done|lia]].
    pose proof (char_cols_ascii c v ltac:(lia) Hv). split; [|lia]. symmetry. apply Z.ltb_ge. lia.
  - intros <- _. rewrite andb_false_r. done.
Qed.

(** What [repair_before] leaves: the cell at the column between two well-paired parts. *)
Lemma repair_before_ok g p x a :
  grid_ok g → 0 ≤ row p < rows (size g) → 0 ≤ col p < cols (size g) → row_ok (Z.to_nat (cols (size g))) x →
  ∃ A cell B, repair_before (focus g (row p) x (pos g)) p a = Some (focus g (row p) (mkRow (A ++ cell :: B) (wrapped x)) (pos g)) ∧
    length A = Z.to_nat (col p) ∧ (length A + S (length B))%nat = Z.to_nat (cols (size g)) ∧
    paired A ∧ paired B ∧ Forall cell_ok A ∧ Forall cell_ok B ∧ cell_ok cell.
Proof.
  intros Hg Hr Hc [Hl Hp Hok]. pose proof (go_cols _ Hg). destruct p as [r c]. simpl in *. destruct x as [cs w]. simpl in *.
  destruct (lookup_lt_is_Some_2 cs (Z.to_nat c)) as [cell Hcell]; [lia|].
  unfold repair_before. rewrite !(focus_cell g r Hg Hr). cbn [cells]. rewrite Hcell. cbn [row col].
  destruct (paired_at _ _ _ Hp Hcell) as [(A & B & -> & Hla & Ha & Hb & Hpl)|
    [(A & d & B & -> & Hla & Ha & Hb & Hf & Hs)|(A & d & B & -> & Hla & Ha & Hb & Hf & Hs)]];
    rewrite length_app in Hl; simpl in Hl.
  - destruct Hpl as [Hw ->]. rewrite (focus_cell g r Hg Hr). cbn [cells]. rewrite Hcell, Hw.
    rewrite Forall_app, Forall_cons in Hok. exists A, cell, B. naive_solver.
  - destruct Hf as [Hw ->]. rewrite (focus_cell g r Hg Hr). cbn [cells]. rewrite Hcell, Hw.
    rewrite Forall_app, !Forall_cons in Hok. destruct Hok as (Hoa & Hoc & Hod & Hob).
    rewrite u16_add_ok by lia. rewrite (focus_cell g r Hg Hr). cbn [cells].
    change (A ++ cell :: d :: B) with (A ++ [cell] ++ d :: B). rewrite app_assoc.
    assert (Hlen : Z.to_nat (c + 1) = length (A ++ [cell])) by (rewrite length_app; simpl; lia).
    rewrite list_lookup_middle by done.
    destruct (set_ok d 32 a Hod eq_refl) as (d' & Hset & Hd' & _ & Hdw & Hdk & _).
    rewrite (focus_update_at g r Hg Hr (A ++ [cell]) d B w (pos g) (c + 1) _ d' Hlen Hset).
    rewrite <- app_assoc. exists A, cell, (d' :: B). split; [done|]. split; [done|]. split; [simpl; lia|].
    split; [done|]. split; [constructor; [by split|done]|]. split; [done|]. split; [by constructor|done].
  - destruct Hs as [Hw ->]. rewrite Forall_app, !Forall_cons in Hok. destruct Hok as (Hoa & Hod & Hoc & Hob).
    rewrite u16_sub_ok by lia. rewrite (focus_update_at g r Hg Hr A d (cell :: B) w (pos g) (c - 1) _ (clear d a));
      [|lia|done].
    rewrite (focus_cell g r Hg Hr). cbn [cells].
    change (A ++ clear d a :: cell :: B) with (A ++ [clear d a] ++ cell :: B). rewrite app_assoc.
    assert (Hlen : Z.to_nat c = length (A ++ [clear d a])) by (rewrite length_app; simpl; lia).
    rewrite list_lookup_middle, Hw by done. exists (A ++ [clear d a]), cell, B. split; [done|].
    split; [done|]. split; [rewrite length_app; simpl; lia|]. split; [auto with tymux|]. split; [done|].
    split; [|done]. apply Forall_app. split; [done|]. repeat constructor; by apply clear_ok.
Qed.

(** The second column of a wide character: a first half there loses its own second half. *)
Lemma repair_after_ok g r x A c B cl a :
  grid_ok g → 0 ≤ r < rows (size g) → Z.to_nat (cl + 1) = length (A ++ [c]) → 0 ≤ cl → cl + 2 ≤ cols (size g) →
  (length A + S (length B))%nat = Z.to_nat (cols (size g)) → paired B → Forall cell_ok B →
  let f := focus g r (mkRow (A ++ c :: B) (wrapped x)) (mkPos r (cl + 1)) in
  ∃ y B', repair_after f (mkPos r (cl + 1)) a =
      Some (focus g r (mkRow ((A ++ [c]) ++ y :: B') (wrapped x)) (mkPos r (cl + 1))) ∧
    S (length B') = length B ∧ cell_ok y ∧ paired B' ∧ Forall cell_ok B'.
Proof.
  intros Hg Hr Hlq Hcl Hfit Hlen Hb Hob f. pose proof (go_cols _ Hg). rewrite length_app in Hlq. simpl in Hlq.
  assert (Hf : f = focus g r (mkRow ((A ++ [c]) ++ B) (wrapped x)) (mkPos r (cl + 1))).
  { unfold f. by rewrite <- app_assoc. }
  rewrite Hf. clear f Hf. unfold repair_after. cbn [row col]. rewrite !(focus_cell g r Hg Hr). cbn [cells].
  destruct Hb as [|y l Hy Hl|y z l Hy Hz Hl]; [simpl in Hlen; lia|..];
    rewrite list_lookup_middle by (rewrite length_app; simpl; lia).
  - destruct Hy as [-> _]. apply Forall_cons in Hob as [? ?]. by exists y, l.
  - destruct Hy as [Hyw Hyk]. rewrite Hyw, u16_add_ok by lia. rewrite (focus_cell g r Hg Hr). cbn [cells].
    change ((A ++ [c]) ++ y :: z :: l) with ((A ++ [c]) ++ [y] ++ z :: l). rewrite app_assoc.
    assert (Hlz : Z.to_nat (cl + 1 + 1) = length ((A ++ [c]) ++ [y])) by (rewrite !length_app; simpl; lia).
    rewrite list_lookup_middle by done.
    rewrite (focus_update_at g r Hg Hr _ z l (wrapped x) _ (cl + 1 + 1) _ (clear z a)) by done.
    rewrite <- app_assoc. rewrite !Forall_cons in Hob. destruct Hob as (? & ? & ?).
    exists y, (clear z a :: l). split; [done|]. split; [done|]. split; [done|]. split; [auto with tymux|].
    constructor; [by apply clear_ok|done].
Qed.

Lemma put_char_safe g c w a :
  grid_ok g → is_scalar c = true → wide_char c = (1 <? w) → 1 ≤ w ≤ 2 → col (pos g) ≤ cols (size g) - w →
  safe g (put_char g (pos g) c w a).
Proof.
  intros Hg Hc Hwide Hw Hcol. pose proof (go_cols _ Hg). pose proof (go_col _ Hg). pose proof (go_row _ Hg) as Hr.
  destruct (get_row g (row (pos g)) Hg Hr) as (x & Hx & Hrx).
  destruct (repair_before_ok g (pos g) x a) as (A & cell & B & Hrep & Hla & Hlen & Ha & Hb & Hoa & Hob & Hoc); [done|done|lia|done|].
  rewrite <- (focus_self g (row (pos g)) x Hx) in Hrep.
  unfold put_char. rewrite Hrep. set (p := pos g) in *. set (r := row p) in *.
  destruct (set_ok cell c a Hoc Hc) as (cell' & Hset & Hoc' & _ & Hcw & Hck & _).
  replace p with (mkPos r (col p)) at 2 by (by destruct p).
  rewrite (focus_update_at g r Hg Hr A cell B (wrapped x) p (col p) (λ y, set y c a) cell') by done.
  rewrite focus_inc. assert (Hinc : sat_add u16_max (col p) 1 = col p + 1) by (unfold sat_add; lia). rewrite Hinc.
  change (row p) with r. destruct (Z.ltb_spec 1 w) as [Hw2|Hw1].
  - change (pos (focus g r _ (mkPos r (col p + 1)))) with (mkPos r (col p + 1)). cbv zeta. cbn [row col].
    assert (Hfst : first_half cell') by (split; congruence).
    assert (Hlq : Z.to_nat (col p + 1) = length (A ++ [cell'])) by (rewrite length_app; simpl; lia).
    destruct (repair_after_ok g r x A cell' B (col p) a Hg Hr Hlq) as (y & B' & Hsec & Hlb & Hy & Hb' & Hob');
      [lia|lia|lia|done|done|]. rewrite Hsec. clear Hsec.
    rewrite (focus_update_at g r Hg Hr (A ++ [cell']) y B' (wrapped x) _ (col p + 1) _ (set_wide_continuation (clear y a) true)) by done.
    rewrite focus_inc. cbn [row col].
    destruct (set_wide_continuation_ok (clear y a) true) as (Hy1 & Hy2 & Hy3); [by apply clear_ok|].
    apply safe_some; try done. apply focus_ok; [done| |done|unfold sat_add; simpl; lia].
    rewrite <- app_assoc. split; cbn [cells].
    + rewrite length_app. simpl. lia.
    + apply paired_app; [done|]. constructor; [done| |done]. by split.
    + apply Forall_app. split; [done|]. simpl. by rewrite !Forall_cons.
  - apply safe_some; try done. apply focus_ok; [done| |done|simpl; lia].
    split; cbn [cells].
    + rewrite length_app. simpl. lia.
    + apply paired_app; [done|]. constructor; [|done]. split; [|done]. by rewrite Hcw.
    + apply Forall_app. split; [done|]. by constructor.
Qed.

(** Replacing a cell by one of the same kind. *)
Lemma paired_same_kind l i c d :
  paired l → l !! i = Some c → is_wide d = is_wide c → is_wide_continuation d = is_wide_continuation c →
  paired (<[i := d]> l).
Proof.
  intros Hp Hi Hw Hk. unfold plain, first_half, second_half in *.
  destruct (paired_at _ _ _ Hp Hi) as [(A & B & -> & <- & Ha & Hb & Hpl)|
    [(A & e & B & -> & <- & Ha & Hb & Hf & Hs)|(A & e & B & -> & <- & Ha & Hb & Hf & Hs)]].
  - rewrite insert_middle. apply paired_app; [done|]. apply paired_plain; [|done]. destruct Hpl. by split; rewrite ?Hw, ?Hk.
  - rewrite insert_middle. apply paired_app; [done|]. apply paired_wide; [|done..]. destruct Hf. by split; rewrite ?Hw, ?Hk.
  - change (A ++ e :: c :: B) with (A ++ [e] ++ c :: B). rewrite app_assoc.
    replace (S (length A)) with (length (A ++ [e])) by (rewrite length_app; simpl; lia).
    rewrite insert_middle, <- app_assoc. apply paired_app; [done|]. simpl. apply paired_wide; [done| |done].
    destruct Hs. by split; rewrite ?Hw, ?Hk.
Qed.

Lemma cell_inside g r c :
  grid_ok g → 0 ≤ r < rows (size g) → 0 ≤ c < cols (size g) →
  ∃ x cell, cells x !! Z.to_nat c = Some cell ∧ drawing_cell g (mkPos r c) = Some cell ∧ row_ok (Z.to_nat (cols (size g))) x.
Proof.
  intros Hg Hr Hc. destruct (get_row g r Hg Hr) as (x & Hx & Hrx).
  destruct (lookup_lt_is_Some_2 (cells x) (Z.to_nat c)) as [cell Hcell]; [rewrite (ro_len _ _ Hrx); lia|].
  exists x, cell. split; [done|]. split; [|done]. unfold drawing_cell. simpl. rewrite Hx. done.
Qed.

(** A second half is never in the first column. *)
Lemma continuation_col n x c cell :
  row_ok n x → cells x !! Z.to_nat c = Some cell → is_wide_continuation cell = true → 1 ≤ c.
Proof.
  intros [_ Hp _] Hc Hk. destruct (paired_at _ _ _ Hp Hc) as [(A & B & _ & Hl & _ & _ & [_ ?])|
    [(A & e & B & _ & Hl & _ & _ & [_ ?] & _)|(A & e & B & _ & Hl & _)]]; [congruence|congruence|lia].
Qed.

(** Appending a mark to a cell inside the grid. *)
Lemma append_cell_safe g p c :
  grid_ok g → is_scalar c = true → 0 ≤ row p < rows (size g) → 0 ≤ col p < cols (size g) →
  safe g (update_cell g p (λ x, append x c)).
Proof.
  intros Hg Hc Hr Hcol. apply update_row_safe; [done|done|]. intros x [Hl Hp Hok]. unfold row_get.
  destruct (lookup_lt_is_Some_2 (cells x) (Z.to_nat (col p))) as [cell Hcell]; [lia|]. rewrite Hcell.
  assert (Hck : cell_ok cell) by (rewrite Forall_forall in Hok; apply Hok; by apply list_elem_of_lookup_2 in Hcell).
  destruct (append_ok cell c Hck Hc) as (y & _ & _ & -> & Hy & _ & Hw & Hk & _).
  eexists. split; [done|]. split; simpl.
  - by rewrite length_insert.
  - by eapply paired_same_kind.
  - by apply Forall_insert.
Qed.

Lemma draw_mark_safe g c : grid_ok g → is_scalar c = true → safe g (draw_mark g (pos g) c).
Proof.
  intros Hg Hc. pose proof (go_row _ Hg) as Hr. pose proof (go_col _ Hg) as Hcl. pose proof (go_cols _ Hg) as Hcs. unfold draw_mark.
  destruct (Z.ltb_spec 0 (col (pos g))).
  - destruct (cell_inside g (row (pos g)) (col (pos g) - 1)) as (x & cell & Hx & Hcell & Hrx); [done|done|lia|].
    rewrite Hcell. destruct (is_wide_continuation cell) eqn:Hk.
    + pose proof (continuation_col _ _ _ _ Hrx Hx Hk). rewrite u16_sub_ok by lia.
      apply append_cell_safe; simpl; [done|done|done|lia].
    + apply append_cell_safe; simpl; [done|done|done|lia].
  - destruct (Z.ltb_spec 0 (row (pos g))); [|by apply safe_some].
    destruct (match drawing_row g (row (pos g)) with Some r => wrapped r | None => false end); [|by apply safe_some].
    rewrite u16_sub_ok by lia.
    destruct (cell_inside g (row (pos g) - 1) (cols (size g) - 1)) as (x & cell & Hx & Hcell & Hrx); [done|lia|lia|].
    rewrite Hcell. destruct (is_wide_continuation cell) eqn:Hk.
    + pose proof (continuation_col _ _ _ _ Hrx Hx Hk). rewrite u16_sub_ok by lia.
      apply append_cell_safe; simpl; [done|done|lia|lia].
    + apply append_cell_safe; simpl; [done|done|lia|lia].
Qed.

Lemma update_row_pos g r f g' : update_row g r f = Some g' → pos g' = pos g ∧ size g' = size g.
Proof. unfold update_row. destruct (drawing_row g r); [|done]. destruct (f r0); [|done]. by intros [= <-]. Qed.

(** The common case: a plain cell is overwritten. *)
Lemma fast_path_safe g c a :
  grid_ok g → is_scalar c = true → wide_char c = false → col (pos g) < cols (size g) → plain_at g (pos g) = true →
  safe g (let! g := update_cell g (pos g) (λ x, set x c a) in Some (col_inc g 1)).
Proof.
  intros Hg Hc Hw Hcl Hpl. pose proof (go_cols _ Hg). pose proof (go_col _ Hg). pose proof (go_row _ Hg) as Hr.
  destruct (get_row g (row (pos g)) Hg Hr) as (x & Hx & [Hl Hp Hok]).
  destruct (lookup_lt_is_Some_2 (cells x) (Z.to_nat (col (pos g)))) as [cell Hcell]; [lia|].
  unfold plain_at, drawing_cell, row_get in Hpl. rewrite Hx, Hcell in Hpl. b2p.
  assert (Hck : cell_ok cell) by (rewrite Forall_forall in Hok; apply Hok; by apply list_elem_of_lookup_2 in Hcell).
  destruct (set_ok cell c a Hck Hc) as (d & Hset & Hd & _ & Hdw & Hdk & _).
  pose proof (focus_update g (row (pos g)) Hg Hr x (pos g) (col (pos g)) (λ x, set x c a) cell d Hcell Hset) as E.
  rewrite <- (focus_self g (row (pos g)) x Hx) in E. replace (mkPos (row (pos g)) (col (pos g))) with (pos g) in E by (by destruct (pos g)).
  rewrite E, focus_inc. apply safe_some; try done. apply focus_ok; [done| |done|simpl; unfold sat_add; lia].
  split; cbn [cells]; [by rewrite length_insert| |by apply Forall_insert].
  eapply paired_same_kind; [done|done|congruence..].
Qed.

(** Inserting if asked to, then writing. *)
Lemma finish_safe g ins w a c :
  grid_ok g → is_scalar c = true → 0 ≤ w ≤ 2 → (w ≠ 0 → wide_char c = (1 <? w)) → col (pos g) ≤ cols (size g) - w →
  safe g (let! g' := (if ins && (0 <? w) then insert_cells g w else Some g) in
          if w =? 0 then draw_mark g' (pos g) c else put_char g' (pos g) c w a).
Proof.
  intros Hg Hc Hw Hwide Hcol.
  assert (Hins : ∃ g', (if ins && (0 <? w) then insert_cells g w else Some g) = Some g' ∧ grid_ok g' ∧
    size g' = size g ∧ scrollback_len g' = scrollback_len g ∧ pos g' = pos g).
  { destruct (ins && (0 <? w)); [|by exists g]. destruct (insert_cells_safe g w Hg) as (g' & E & Hok & Hs & Hl); [lia|].
    exists g'. split; [done|]. split; [done|]. split; [done|]. split; [done|]. revert E. unfold insert_cells. cbv zeta.
    match goal with |- match ?o with _ => _ end = _ → _ => destruct o end; [|done].
    intros E. by apply update_row_pos in E as [? _]. }
  destruct Hins as (g' & -> & Hg' & Hs & Hl & Hp). rewrite <- Hp.
  assert (Hfin : safe g' (if w =? 0 then draw_mark g' (pos g') c else put_char g' (pos g') c w a)).
  { destruct (Z.eqb_spec w 0); [by apply draw_mark_safe|]. apply put_char_safe; auto; [lia|]. by rewrite Hp, Hs. }
  destruct Hfin as (g2 & ? & ? & ? & ?). exists g2. split; [done|]. split; [done|]. split; congruence.
Qed.

(** Drawing any character on any well-formed grid. *)
Lemma draw_inner_safe g ins wrap a c : grid_ok g → is_scalar c = true → safe g (draw_inner g ins wrap a c).
Proof.
  intros Hg Hc. pose proof (go_cols _ Hg) as Hcs. pose proof (go_col _ Hg) as Hcl. pose proof (go_row _ Hg) as Hr.
  unfold draw_inner. destruct (c =? 65279); [by apply safe_some|].
  destruct (bool_decide (char_width c = None) && (c <? 256)); [by apply safe_some|].
  set (w := default 1 (char_width c)). destruct (Z.ltb_spec (cols (size g)) w) as [|Hfit]; [by apply safe_some|].
  assert (Hw : 0 ≤ w ≤ 2).
  { unfold w, char_width. destruct (_ && _); [done|]. destruct (c =? 173); [done|].
    destruct (char_cols c) eqn:E; [by apply char_cols_range in E|done]. }
  assert (Hkind : w ≠ 0 → wide_char c = (1 <? w)).
  { intros Hne. apply wide_char_width; [done|]. unfold w in Hne. intros E. rewrite E in Hne. done. }
  destruct ((w =? 1) && (col (pos g) <? cols (size g)) && negb ins && plain_at g (pos g)) eqn:Hfast.
  { b2p. apply fast_path_safe; [done|done| |done|done]. rewrite Hkind by lia. apply Z.ltb_ge. lia. }
  clear Hfast. rewrite !u16_sub_ok by lia. cbv zeta. destruct wrap; simpl.
  - apply safe_bind.
    { destruct (_ && _); [|by apply safe_some].
      destruct (get_row g (row (pos g)) Hg Hr) as (x & -> & _). apply update_row_safe; [done|done|]. intros y Hy.
      destruct (row_erase_ok _ y (cols (size g) - 1) (mkAttrs (fgcolor a) (bgcolor a) (ulcolor a) (mode a) (underline_style a) 0) Hy)
        as (z & -> & Hz & _); [lia..|]. by exists z. }
    intros g1 Hg1 Hs1.
    destruct (col_wrap_fits g1 w Hg1) as (g2 & -> & Hg2 & Hs2 & Hl2 & Hc2); [rewrite Hs1; lia|].
    destruct (finish_safe g2 ins w a c) as (g3 & ? & ? & ? & ?); [done..|by rewrite Hs2|].
    exists g3. split; [done|]. split; [done|]. split; congruence.
  - destruct (Z.ltb_spec (cols (size g) - w) (col (pos g))); simpl.
    + destruct (col_set_safe g (cols (size g) - 1) Hg) as (g1 & E & Hg1 & Hs1 & Hl1); [lia|]. rewrite E.
      destruct (Z.ltb_spec 1 w); [by exists g1|].
      assert (Hc1 : col (pos g1) = cols (size g) - 1).
      { revert E. unfold col_set, col_clamp. simpl. rewrite u16_sub_ok, Z.ltb_irrefl by lia. by intros [= <-]. }
      destruct (finish_safe g1 ins w a c) as (g3 & ? & ? & ? & ?);
        [done|done|done|by rewrite (proj2 (Z.ltb_ge 1 w))|rewrite Hs1; lia|].
      exists g3. split; [done|]. split; [done|]. split; congruence.
    + by apply finish_safe.
Qed.

End Draw.
