(* ===== verification/VtScreenProps.v ===== *)
(** * Properties of the terminal screen

    No sequence of printed characters and control sequences makes the emulator panic, and the
    screen stays well formed: its grids keep their shape, the cursor stays inside, and no half
    of a wide character is left alone. *)

From S2P Require Import Prelude VtCell VtRow VtGrid VtGridInv VtScreen VtDraw.

(** ** The invariant of the screen *)

Definition charsets_ok (cs : Charsets) : Prop :=
  length (cs_g cs) = 4%nat ∧ (cs_gl cs < 4)%nat ∧ match cs_single_shift cs with Some i => (i < 4)%nat | None => True end.

(** The alternate grid has no rows until it is first shown. *)
Record screen_ok (s : Screen) : Prop := {
  so_grid : grid_ok (grid s);
  so_alt : grid_ok (allocate_rows (alternate_grid s));
  so_size : size (alternate_grid s) = size (grid s);
  so_shown : mode_on s MODE_ALTERNATE_SCREEN = true → g_rows (alternate_grid s) ≠ [];
  so_charsets : charsets_ok (charsets s);
  so_saved : charsets_ok (saved_charsets s);
  so_base : is_scalar (last_base s) = true;
  so_marks : Forall (λ c, is_scalar c = true) (last_marks s);
}.

(** The size of the screen and its scrollback limit. *)
Definition frame (s : Screen) : Size * Z := (size (grid s), scrollback_len (grid s)).

Definition good (s : Screen) (o : option Screen) : Prop :=
  ∃ s', o = Some s' ∧ screen_ok s' ∧ frame s' = frame s.

Lemma good_some s s' : screen_ok s' → frame s' = frame s → good s (Some s').
Proof. intros. by exists s'. Qed.

Lemma good_bind s (o : option Screen) (k : Screen → option Screen) :
  good s o → (∀ s', screen_ok s' → frame s' = frame s → good s' (k s')) → good s (let! x := o in k x).
Proof.
  intros (s1 & -> & Hok & Hs) Hk. destruct (Hk s1 Hok Hs) as (s2 & Ho & Hok2 & Hs2).
  exists s2. split; [done|]. split; [done|]. congruence.
Qed.

Lemma good_times s n (f : Screen → option Screen) :
  screen_ok s → (∀ s', screen_ok s' → good s' (f s')) → good s (times n f s).
Proof.
  revert s. induction n as [|n IH]; intros s Hok Hf; [by apply good_some|].
  simpl. apply good_bind; [by apply Hf|]. intros s' Hok' _. by apply IH.
Qed.

(** ** Modes *)

Lemma testbit_mode x k : 0 ≤ k → negb (Z.land x (2 ^ k) =? 0) = Z.testbit x k.
Proof.
  intros Hk. destruct (Z.testbit x k) eqn:Hb.
  - apply negb_true_iff, Z.eqb_neq. intros E. apply (f_equal (λ z, Z.testbit z k)) in E.
    rewrite Z.land_spec, Hb, Z.pow2_bits_true, Z.bits_0 in E by lia. done.
  - apply negb_false_iff, Z.eqb_eq. apply Z.bits_inj'. intros n Hn. rewrite Z.land_spec, Z.bits_0.
    rewrite Z.pow2_bits_eqb by lia. destruct (Z.eqb_spec k n) as [<-|]; [by rewrite Hb|by rewrite andb_false_r].
Qed.

Lemma alternate_mode s : mode_on s MODE_ALTERNATE_SCREEN = Z.testbit (modes s) 3.
Proof. apply (testbit_mode (modes s) 3). lia. Qed.

(** A change of other modes leaves the shown grid as it was. *)
Lemma with_modes_ok s m :
  screen_ok s → (Z.testbit m 3 = true → Z.testbit (modes s) 3 = true) → screen_ok (with_modes s m).
Proof.
  intros [] Hm. split; simpl; try done. intros Hon. apply so_shown0. rewrite alternate_mode in *. auto.
Qed.

Lemma set_mode_ok s m : screen_ok s → Z.testbit m 3 = false → screen_ok (set_mode s m).
Proof. intros Hs Hm. apply with_modes_ok; [done|]. by rewrite Z.lor_spec, Hm, orb_false_r. Qed.

Lemma clear_mode_ok s m : screen_ok s → screen_ok (clear_mode s m).
Proof. intros Hs. apply with_modes_ok; [done|]. rewrite Z.land_spec. by intros [? _]%andb_true_iff. Qed.

(** ** Grids *)

Lemma allocate_shown g : g_rows g ≠ [] → allocate_rows g = g.
Proof. intros Hne. unfold allocate_rows. by rewrite bool_decide_eq_false_2. Qed.

Lemma rows_nonempty g : grid_ok g → g_rows g ≠ [].
Proof.
  intros Hg E. pose proof (go_len _ Hg) as Hl. rewrite E in Hl. pose proof (go_rows _ Hg). simpl in Hl. lia.
Qed.

Lemma cur_ok s : screen_ok s → grid_ok (cur_grid s) ∧ size (cur_grid s) = size (grid s).
Proof.
  intros Hs. unfold cur_grid. destruct (mode_on s _) eqn:E; [|by split; [apply Hs|]].
  split; [|apply Hs]. pose proof (so_alt _ Hs) as Ha. by rewrite allocate_shown in Ha by (by apply Hs).
Qed.

Lemma set_cur_ok s g : screen_ok s → grid_ok g → size g = size (grid s) → screen_ok (set_cur s g).
Proof.
  intros Hs Hg Hsz. pose proof Hs as [H1 H2 H3 H4 H5 H6 H7 H8]. unfold set_cur. destruct (mode_on s _) eqn:E.
  - split; simpl; try done; [|by intros _; apply rows_nonempty]. rewrite allocate_shown; [done|by apply rows_nonempty].
  - split; simpl; try done; [congruence|]. intros Hon. unfold mode_on in *. simpl in Hon. congruence.
Qed.

Lemma set_cur_frame s g :
  size g = size (cur_grid s) → scrollback_len g = scrollback_len (cur_grid s) → frame (set_cur s g) = frame s.
Proof. unfold set_cur, cur_grid, frame. destruct (mode_on _ _); simpl; congruence. Qed.

Lemma on_grid_good s f : screen_ok s → (∀ g, grid_ok g → safe g (f g)) → good s (on_grid s f).
Proof.
  intros Hs Hf. destruct (cur_ok s Hs) as [Hg Hsz]. destruct (Hf _ Hg) as (g' & E & Hg' & Hs' & Hl).
  unfold on_grid. rewrite E. apply good_some.
  - apply set_cur_ok; [done|done|congruence].
  - by apply set_cur_frame.
Qed.

Lemma restrict_good s (f : Grid → option Grid) :
  screen_ok s → (∀ g, grid_ok g → safe g (f g)) → good s (let! s := on_grid s restrict_col in on_grid s f).
Proof.
  intros Hs Hf. apply good_bind; [apply on_grid_good; [done|apply col_clamp_safe_self]|].
  intros s' Hs' _. by apply on_grid_good.
Qed.

Lemma with_cluster_ok s b m l :
  screen_ok s → is_scalar b = true → Forall (λ c, is_scalar c = true) m → screen_ok (with_cluster s b m l).
Proof. by intros [] ? ?. Qed.

Lemma break_rep_ok s : screen_ok s → screen_ok (break_rep s).
Proof. by intros []. Qed.

Lemma with_attrs_ok s a : screen_ok s → screen_ok (with_attrs s a).
Proof. by intros []. Qed.

Lemma with_charsets_ok s cs : screen_ok s → charsets_ok cs → screen_ok (with_charsets s cs).
Proof. by intros [] ?. Qed.

Lemma with_mouse_ok s m e : screen_ok s → screen_ok (with_mouse s m e).
Proof. by intros []. Qed.

(** The alternate grid, shown or not, under an operation that keeps it well formed. *)
Lemma alt_ok_blank g a : grid_ok (allocate_rows g) → grid_ok (allocate_rows (set_blank_attrs g a)).
Proof.
  unfold allocate_rows. simpl. destruct (bool_decide _); intros Hg.
  - by apply (ok_blank _ a) in Hg.
  - by apply ok_blank.
Qed.

Lemma sync_blank_attrs_ok s : screen_ok s → screen_ok (sync_blank_attrs s).
Proof.
  intros []. unfold sync_blank_attrs. split; simpl; try done; [by apply ok_blank|by apply alt_ok_blank].
Qed.

Lemma alt_clear_ok g :
  grid_ok (allocate_rows g) → ∃ g', grid_clear g = Some g' ∧ grid_ok (allocate_rows g') ∧ size g' = size g ∧
    (g_rows g ≠ [] → g_rows g' ≠ []).
Proof.
  intros Hg. destruct (decide (g_rows g = [])) as [E|Hne].
  - pose proof (go_rows _ Hg) as Hr. pose proof (go_cols _ Hg) as Hc. unfold allocate_rows in *. rewrite E in *. simpl in *.
    unfold grid_clear. rewrite u16_sub_ok by lia. eexists. split; [done|]. simpl. rewrite E. simpl.
    split; [|done]. destruct Hg. simpl in *. split; simpl in *; try done; lia.
  - rewrite allocate_shown in Hg by done. destruct (grid_clear_safe g Hg) as (g' & E & Hg' & Hs & _).
    exists g'. split; [done|]. pose proof (rows_nonempty _ Hg'). by rewrite allocate_shown.
Qed.

(** Replacing the alternate grid. *)
Lemma with_alt_ok s a :
  screen_ok s → grid_ok (allocate_rows a) → size a = size (grid s) →
  (mode_on s MODE_ALTERNATE_SCREEN = true → g_rows a ≠ []) → screen_ok (with_grids s (grid s) a).
Proof. intros [] ? ? ?. by split. Qed.

Lemma enter_alternate_good s : screen_ok s → screen_ok (enter_alternate_grid s) ∧ frame (enter_alternate_grid s) = frame s.
Proof.
  intros Hs. unfold enter_alternate_grid. destruct (mode_on s MODE_ALTERNATE_SCREEN) eqn:E; [done|].
  unfold cur_grid, set_cur. rewrite E. simpl.
  assert (Hg : grid_ok (set_scrollback (grid s) 0)) by (apply set_scrollback_ok; [apply Hs|done]).
  assert (Ha : grid_ok (set_pos_exact (allocate_rows (alternate_grid s)) (pos (set_scrollback (grid s) 0)))).
  { assert (Hsz : size (allocate_rows (alternate_grid s)) = size (grid s)).
    { unfold allocate_rows. destruct (bool_decide _); apply Hs. }
    apply ok_pos; [apply Hs|rewrite Hsz; apply Hg..]. }
  pose proof (rows_nonempty _ Ha). destruct Hs. split; [|done]. split; simpl; try done.
  - by rewrite allocate_shown.
  - unfold allocate_rows. destruct (bool_decide _); done.
Qed.

Lemma exit_alternate_good s : screen_ok s → screen_ok (exit_alternate_grid s) ∧ frame (exit_alternate_grid s) = frame s.
Proof.
  intros Hs. unfold exit_alternate_grid. destruct (mode_on s MODE_ALTERNATE_SCREEN) eqn:E; [|done]. simpl. split; [|done].
  pose proof (so_alt _ Hs) as Ha. rewrite allocate_shown in Ha by (by apply Hs).
  assert (Hg : grid_ok (set_pos_exact (grid s) (pos (alternate_grid s)))).
  { apply ok_pos; [apply Hs|rewrite <- (so_size _ Hs); apply Ha..]. }
  pose proof (clear_mode_ok s MODE_ALTERNATE_SCREEN Hs) as []. split; simpl in *; try done.
Qed.

(** ** Printing *)

Section Screen.
Context `{!UnicodeWidth}.

Lemma charset_map_scalar cs c : is_scalar c = true → is_scalar (charset_map cs c) = true.
Proof.
  intros Hc. destruct cs; simpl; [done| |by destruct (c =? 35)].
  unfold dec_special_graphics. destruct (_ && _); [|done].
  destruct (dec_special_table !! Z.to_nat (c - 95)) as [d|] eqn:E; [|done]. simpl.
  assert (Hall : forallb is_scalar dec_special_table = true) by done.
  rewrite forallb_forall in Hall. apply Hall, list_elem_of_In. by apply list_elem_of_lookup_2 in E.
Qed.

Lemma draw_good s c : screen_ok s → is_scalar c = true → good s (draw s c).
Proof. intros Hs Hc. apply on_grid_good; [done|]. intros g Hg. by apply draw_inner_safe. Qed.

Lemma text_good s c : screen_ok s → is_scalar c = true → good s (text s c).
Proof.
  intros Hs Hc. destruct (so_charsets _ Hs) as (Hlen & Hgl & Hss). unfold text.
  set (i := default _ _). assert (Hi : (i < 4)%nat) by (unfold i; by destruct (cs_single_shift (charsets s))).
  destruct (lookup_lt_is_Some_2 (cs_g (charsets s)) i) as [cs Hcs]; [lia|]. rewrite Hcs.
  set (s0 := with_charsets s _). assert (Hs0 : screen_ok s0) by (by apply with_charsets_ok).
  pose proof (charset_map_scalar cs c Hc) as Hm. set (ch := charset_map cs c) in *.
  destruct (draw_good s0 ch Hs0 Hm) as (s1 & -> & Hs1 & Hsz). apply good_some.
  - destruct (char_width ch) as [w|]; [|done]. destruct (w =? 0).
    + destruct (last_cluster_live s1); [|done]. apply with_cluster_ok; [done|apply Hs1|].
      apply Forall_app. split; [apply Hs1|by repeat constructor].
    + by apply with_cluster_ok.
  - destruct (char_width ch) as [w|]; [|done]. destruct (w =? 0); [|done]. by destruct (last_cluster_live s1).
Qed.

Lemma rep_good s n : screen_ok s → good s (rep s n).
Proof.
  intros Hs. unfold rep. destruct (negb _); [by apply good_some|].
  pose proof (so_marks _ Hs) as Hm. pose proof (so_base _ Hs) as Hb.
  apply good_bind; [|intros s' Hs' _; apply good_some; [|done]; apply with_cluster_ok; [done|apply Hs'|done]].
  apply good_times; [done|]. intros s1 Hs1. apply good_bind; [by apply draw_good|]. intros s2 Hs2 _.
  clear -Hs2 Hm. revert s2 Hs2. induction Hm as [|m marks Hm _ IH]; intros s2 Hs2; [by apply good_some|].
  cbn [foldl]. destruct (draw_good s2 m Hs2 Hm) as (s3 & -> & Hs3 & Hsz).
  destruct (IH s3 Hs3) as (s4 & ? & ? & ?). exists s4. split; [done|]. split; [done|]. congruence.
Qed.

(** ** Controls *)

Lemma charsets_default_ok : charsets_ok charsets_default.
Proof. split; [done|]. split; [simpl; lia|done]. Qed.

Lemma screen_new_ok sz n :
  1 ≤ rows sz ≤ u16_max → 1 ≤ cols sz < u16_max → 0 ≤ n →
  ∃ s, screen_new sz n = Some s ∧ screen_ok s ∧ frame s = (sz, n).
Proof.
  intros Hr Hc Hn. unfold screen_new.
  destruct (grid_new_ok sz n Hr Hc Hn) as (g & -> & Hg & Hsg & Hrows & Hlen).
  destruct (grid_new_ok sz 0 Hr Hc) as (a & -> & Ha & Hsa & _); [lia|].
  assert (Hsz : size (allocate_rows g) = sz) by (unfold allocate_rows; by destruct (bool_decide _)).
  assert (Hsl : scrollback_len (allocate_rows g) = n) by (unfold allocate_rows; by destruct (bool_decide _)).
  eexists. split; [done|]. split; [|unfold frame; simpl; congruence].
  split; simpl; try done; [congruence|apply charsets_default_ok..].
Qed.

Lemma ris_good s : screen_ok s → good s (ris s).
Proof.
  intros Hs. pose proof (so_grid _ Hs) as Hg. pose proof (go_bound _ Hg). unfold ris.
  destruct (screen_new_ok (size (grid s)) (scrollback_len (grid s))) as (s' & -> & Hs' & Hsz); [apply Hg|apply Hg|lia|].
  by apply good_some.
Qed.

Lemma lf_good s : screen_ok s → good s (lf s).
Proof.
  intros Hs. apply good_bind; [|intros s' Hs' _; apply on_grid_good; [done|apply line_feed_safe]].
  destruct (mode_on _ _); [|by apply good_some]. apply on_grid_good; [done|]. intros g Hg. by apply col_set_safe.
Qed.

Lemma cr_good s : screen_ok s → good s (cr s).
Proof. intros Hs. apply on_grid_good; [done|]. intros g Hg. by apply col_set_safe. Qed.

Lemma ind_good s : screen_ok s → good s (ind s).
Proof.
  intros Hs. apply restrict_good; [done|]. intros g Hg.
  destruct (row_inc_scroll_frame g 1 Hg) as (g' & k & -> & Hg' & Hs' & Hl & _); [lia|]. by apply safe_some.
Qed.

Lemma decsc_good s : screen_ok s → screen_ok (decsc s) ∧ frame (decsc s) = frame s.
Proof.
  intros Hs. destruct (cur_ok s Hs) as [Hg Hsz]. unfold decsc, screen_save_cursor.
  assert (Hs' : screen_ok (set_cur s (save_cursor (cur_grid s)))) by (apply set_cur_ok; [done|by apply save_cursor_ok|done]).
  pose proof (set_cur_frame s (save_cursor (cur_grid s)) eq_refl eq_refl) as Hsz'. destruct Hs'.
  split; [|done]. by split.
Qed.

Lemma decrc_good s : screen_ok s → good s (decrc s).
Proof.
  intros Hs. apply good_bind; [apply on_grid_good; [done|apply restore_cursor_safe]|].
  intros s' Hs' _. apply good_some; [|done]. apply sync_blank_attrs_ok, with_charsets_ok; [|apply Hs']. by apply with_attrs_ok.
Qed.

Lemma decstr_good s : screen_ok s → good s (decstr s).
Proof.
  intros Hs. unfold decstr. set (s0 := mkScreen _ _ _ _ _ _ _ _ _ _ _ _ _).
  assert (Hs0 : screen_ok s0) by (destruct Hs; split; try done; apply charsets_default_ok). apply (clear_mode_ok _ (Z.lor MODE_INSERT (Z.lor MODE_NEWLINE
    (Z.lor MODE_NO_AUTOWRAP (Z.lor MODE_APPLICATION_CURSOR (Z.lor MODE_APPLICATION_KEYPAD MODE_HIDE_CURSOR)))))) in Hs0.
  destruct (on_grid_good _ soft_reset Hs0) as (s1 & -> & Hs1 & Hsz); [apply soft_reset_safe|].
  apply good_some; [by apply sync_blank_attrs_ok|exact Hsz].
Qed.

Lemma shift_ok s i : screen_ok s → (i < 4)%nat → screen_ok (shift s i).
Proof. intros Hs Hi. destruct (so_charsets _ Hs) as (? & ? & ?). apply with_charsets_ok; [by apply break_rep_ok|done]. Qed.

Lemma single_shift_ok s i : screen_ok s → (i < 4)%nat → screen_ok (single_shift s i).
Proof. intros Hs Hi. destruct (so_charsets _ Hs) as (? & ? & ?). apply with_charsets_ok; [by apply break_rep_ok|done]. Qed.

Lemma scs_ok s i b : screen_ok s → screen_ok (scs s i b) ∧ frame (scs s i b) = frame s.
Proof.
  intros Hs. destruct (so_charsets _ Hs) as (Hl & Hgl & Hss).
  assert (Hput : ∀ k c, screen_ok (with_charsets (break_rep s)
    (mkCharsets (<[k := c]> (cs_g (charsets s))) (cs_gl (charsets s)) (cs_single_shift (charsets s))))).
  { intros k c. apply with_charsets_ok; [by apply break_rep_ok|]. split; [simpl; by rewrite length_insert|done]. }
  unfold scs. destruct (i =? 40), (i =? 41), (i =? 42), (i =? 43); (split; [|done]); try apply Hput; by apply break_rep_ok.
Qed.

Lemma for_params_good f ps s :
  screen_ok s → (∀ s p, screen_ok s → good s (f s p)) → good s (for_params f ps s).
Proof.
  intros Hs Hf. revert s Hs. induction ps as [|p ps IH]; intros s Hs; simpl; [by apply good_some|].
  apply good_bind; [by apply Hf|]. auto.
Qed.

(** Splits a dispatch on its parameters, and only on them. *)
Ltac dispatch := repeat match goal with |- good _ (match ?x with _ => _ end) => is_var x; destruct x end.

Lemma ansi_mode_good on s p : screen_ok s → good s (ansi_mode on s p).
Proof.
  intros Hs. unfold ansi_mode. dispatch; (apply good_some; [|by destruct on]);
    solve [done|destruct on; [by apply set_mode_ok|by apply clear_mode_ok]].
Qed.

Lemma clear_mouse_mode_ok s m : screen_ok s → screen_ok (clear_mouse_mode s m) ∧ frame (clear_mouse_mode s m) = frame s.
Proof. intros Hs. unfold clear_mouse_mode. destruct (bool_decide _); [|done]. split; [by apply with_mouse_ok|done]. Qed.

Lemma clear_mouse_encoding_ok s e :
  screen_ok s → screen_ok (clear_mouse_encoding s e) ∧ frame (clear_mouse_encoding s e) = frame s.
Proof. intros Hs. unfold clear_mouse_encoding. destruct (bool_decide _); [|done]. split; [by apply with_mouse_ok|done]. Qed.

Lemma enter_1049_good s :
  screen_ok s → good s (let s := decsc s in
    let! s := (if negb (mode_on s MODE_ALTERNATE_SCREEN)
               then let! a := grid_clear (alternate_grid s) in Some (with_grids s (grid s) a) else Some s) in
    Some (enter_alternate_grid s)).
Proof.
  intros Hs. cbv zeta. destruct (decsc_good s Hs) as [Hs1 Hsz1]. set (s1 := decsc s) in *.
  assert (Hgood : good s1 (if negb (mode_on s1 MODE_ALTERNATE_SCREEN)
    then let! a := grid_clear (alternate_grid s1) in Some (with_grids s1 (grid s1) a) else Some s1)).
  { destruct (negb _); [|by apply good_some].
    destruct (alt_clear_ok _ (so_alt _ Hs1)) as (a & -> & Ha & Hsz & Hne). apply good_some; [|done].
    apply with_alt_ok; [done|done|rewrite Hsz; apply Hs1|]. intros Hon. apply Hne. by apply Hs1. }
  destruct Hgood as (s2 & -> & Hs2 & Hsz2). destruct (enter_alternate_good s2 Hs2). apply good_some; [done|congruence].
Qed.

Lemma exit_1047_good s :
  screen_ok s → good s (let s := exit_alternate_grid s in
    let! a := grid_clear (alternate_grid s) in Some (with_grids s (grid s) a)).
Proof.
  intros Hs. cbv zeta. destruct (exit_alternate_good s Hs) as [Hs1 Hsz1].
  destruct (alt_clear_ok _ (so_alt _ Hs1)) as (a & -> & Ha & Hsz & Hne). apply good_some; [|done].
  apply with_alt_ok; [done|done|rewrite Hsz; apply Hs1|]. intros Hon. apply Hne. by apply Hs1.
Qed.

Lemma exit_1049_good s : screen_ok s → good s (decrc (exit_alternate_grid s)).
Proof.
  intros Hs. destruct (exit_alternate_good s Hs) as [Hs1 Hsz1]. destruct (decrc_good _ Hs1) as (s2 & -> & Hs2 & Hsz2).
  apply good_some; [done|congruence].
Qed.

Ltac mode_case :=
  match goal with
  | |- good _ (on_grid _ _) => apply on_grid_good; [done|intros ? ?; by apply set_origin_mode_safe]
  | |- good _ (Some _) =>
      apply good_some; solve [done|by apply set_mode_ok|by apply clear_mode_ok|by apply with_mouse_ok
        |by apply clear_mouse_mode_ok|by apply clear_mouse_encoding_ok|by apply decsc_good
        |by apply enter_alternate_good|by apply exit_alternate_good]
  | |- _ => solve [by apply enter_1049_good|by apply exit_1047_good|by apply exit_1049_good|by apply decrc_good]
  end.

Lemma decset_good s p : screen_ok s → good s (decset s p).
Proof. intros Hs. unfold decset. dispatch; mode_case. Qed.

Lemma decrst_good s p : screen_ok s → good s (decrst s p).
Proof. intros Hs. unfold decrst. dispatch; mode_case. Qed.

Lemma sgr_good s ps : screen_ok s → good s (Some (sgr s ps)).
Proof. intros Hs. apply good_some; [|done]. by apply sync_blank_attrs_ok, with_attrs_ok. Qed.

(** ** Dispatch *)

Definition params_ok (ps : list (list Z)) : Prop := Forall (Forall is_u16) ps.

Lemma canonicalize_range ps d : params_ok ps → 0 ≤ d → 0 ≤ canonicalize_params_1 ps d.
Proof.
  intros Hps Hd. unfold canonicalize_params_1, first_value. destruct Hps as [|p ps Hp _]; [done|].
  destruct Hp as [|n p Hn _]; simpl; [done|]. destruct (n =? 0); [done|]. apply Hn.
Qed.

Lemma canonicalize_pos ps d : params_ok ps → 1 ≤ d → 1 ≤ canonicalize_params_1 ps d.
Proof.
  intros Hps Hd. unfold canonicalize_params_1, first_value. destruct Hps as [|p ps Hp _]; [done|].
  destruct Hp as [|n p Hn _]; simpl; [done|]. destruct (Z.eqb_spec n 0); [done|]. destruct Hn. lia.
Qed.

Lemma params_ok_tail ps : params_ok ps → params_ok (tail ps).
Proof. intros [|]; [constructor|done]. Qed.

Lemma erase_good s m : screen_ok s → good s (ed s m) ∧ good s (el s m).
Proof.
  intros Hs. unfold ed, el. split; destruct (m =? 0), (m =? 1), (m =? 2);
    solve [by apply good_some|apply on_grid_good; [done|intros g Hg];
      solve [by apply erase_all_forward_safe|by apply erase_all_backward_safe|apply safe_some; [by apply erase_all_ok|done|done]
        |by apply erase_row_forward_safe|by apply erase_row_backward_safe|by apply erase_row_safe]].
Qed.

Lemma tbc_good s m : screen_ok s → good s (tbc s m).
Proof.
  intros Hs. unfold tbc. destruct (m =? 0), (m =? 3); solve [by apply good_some|apply on_grid_good; [done|intros g Hg];
    apply safe_some; [solve [by apply clear_tab_stop_ok|by apply clear_all_tab_stops_ok]|done|done]].
Qed.

Lemma cnl_cpl_good s n : screen_ok s → 0 ≤ n → good s (cnl s n) ∧ good s (cpl s n).
Proof.
  intros Hs Hn. split; (apply good_bind; [by apply cr_good|]; intros s' Hs' _; apply on_grid_good; [done|];
    intros g Hg; solve [by apply row_inc_clamp_safe|by apply row_dec_clamp_safe]).
Qed.

Lemma cup_good s r c : screen_ok s → 1 ≤ r → 1 ≤ c → good s (cup s r c).
Proof.
  intros Hs Hr Hc. unfold cup. rewrite !u16_sub_ok by lia. apply on_grid_good; [done|]. intros g Hg.
  apply set_pos_safe; simpl; [done|lia..].
Qed.

Lemma decstbm_good s t b : screen_ok s → 1 ≤ t → 1 ≤ b → good s (decstbm s t b).
Proof.
  intros Hs Ht Hb. unfold decstbm. rewrite !u16_sub_ok by lia. apply on_grid_good; [done|]. intros g Hg.
  apply set_scroll_region_safe; [done|lia..].
Qed.

Lemma cha_vpa_good s c : screen_ok s → 1 ≤ c → good s (cha s c) ∧ good s (vpa s c).
Proof.
  intros Hs Hc. unfold cha, vpa. rewrite !u16_sub_ok by lia. split.
  - apply on_grid_good; [done|]. intros g Hg. apply col_set_safe; [done|lia].
  - apply restrict_good; [done|]. intros g Hg. apply row_set_safe; [done|lia].
Qed.

Lemma decscusr_good s n : screen_ok s → good s (Some (decscusr s n)).
Proof. intros Hs. unfold decscusr. destruct (n <=? 6); apply good_some; try done. by destruct Hs. Qed.

Lemma decsc_some s : screen_ok s → good s (Some (decsc s)).
Proof. intros Hs. destruct (decsc_good s Hs). by apply good_some. Qed.

Lemma ech_good s n : screen_ok s → good s (ech s n).
Proof.
  intros Hs. apply good_bind; [apply on_grid_good; [done|apply col_clamp_safe_self]|].
  intros s' Hs' _. apply on_grid_good; [done|]. intros g Hg. by apply erase_cells_safe.
Qed.

Ltac grid_case :=
  first [apply restrict_good|apply on_grid_good]; [done|intros g Hg];
  solve [apply insert_cells_safe; [done|lia]|apply row_dec_clamp_safe; [done|lia]|apply row_inc_clamp_safe; [done|lia]
    |apply col_inc_clamp_safe; [done|lia]|apply col_dec_restricted_safe; [done|lia]|by apply insert_lines_safe
    |by apply delete_lines_safe|by apply delete_cells_safe|by apply frame_safe, scroll_region_up_frame
    |by apply scroll_down_safe|by apply erase_cells_safe|by apply col_forward_tab_safe|by apply col_back_tab_safe].

Lemma csi_plain_good s ps c : screen_ok s → params_ok ps → good s (csi_plain s ps c).
Proof.
  intros Hs Hps. unfold csi_plain, canonicalize_params_2, canonicalize_params_decstbm.
  pose proof (canonicalize_pos ps 1 Hps ltac:(lia)) as Hp1.
  pose proof (canonicalize_pos (tail ps) 1 (params_ok_tail _ Hps) ltac:(lia)) as Hp2.
  assert (Hbot : 1 ≤ canonicalize_params_1 (tail ps) (rows (size (cur_grid s)))).
  { apply canonicalize_pos; [by apply params_ok_tail|]. rewrite (proj2 (cur_ok s Hs)). apply (so_grid _ Hs). }
  cbv zeta. dispatch; first [by apply good_some|by apply cup_good|by apply decstbm_good|by apply cha_vpa_good
    |by apply erase_good|apply cnl_cpl_good; [done|lia]|by apply rep_good|by apply tbc_good|by apply sgr_good|by apply decrc_good
    |by apply decsc_some|by apply for_params_good; [|intros; apply ansi_mode_good]|by apply ech_good|grid_case].
Qed.

Lemma csi_private_good s ps c : screen_ok s → good s (csi_private s ps c).
Proof.
  intros Hs. unfold csi_private. cbv zeta. dispatch; first [by apply good_some|by apply erase_good
    |by apply for_params_good; [|intros; apply decset_good]|by apply for_params_good; [|intros; apply decrst_good]].
Qed.

Lemma csi_good s ps inter c : screen_ok s → params_ok ps → good s (vt_csi_dispatch s ps inter c).
Proof.
  intros Hs Hps. unfold vt_csi_dispatch. set (s0 := if c =? 98 then s else break_rep s).
  assert (Hs0 : screen_ok s0 ∧ frame s0 = frame s).
  { unfold s0. destruct (c =? 98); [done|]. split; [by apply break_rep_ok|done]. }
  destruct Hs0 as [Hs0 Hsz]. clearbody s0. cbv zeta.
  assert (Hgood : ∀ o, good s0 o → good s o).
  { intros o (s' & ? & ? & ?). exists s'. split; [done|]. split; [done|]. congruence. }
  dispatch; apply Hgood; first [by apply good_some|by apply csi_plain_good|by apply csi_private_good
    |destruct (c =? _); [|by apply good_some]; by apply decstr_good || by apply decscusr_good].
Qed.

Lemma nel_good s : screen_ok s → good s (nel s).
Proof. intros Hs. apply good_bind; [by apply cr_good|]. intros s' Hs' _. by apply ind_good. Qed.

Lemma hts_ri_good s : screen_ok s → good s (hts s) ∧ good s (ri s).
Proof.
  intros Hs. split.
  - apply on_grid_good; [done|]. intros g Hg. apply safe_some; [by apply set_tab_stop_ok|done|done].
  - apply on_grid_good; [done|apply reverse_index_safe].
Qed.

Lemma shifts_good s i :
  screen_ok s → (i < 4)%nat → good s (Some (shift s i)) ∧ good s (Some (single_shift s i)).
Proof. intros Hs Hi. split; apply good_some; try done; [by apply shift_ok|by apply single_shift_ok]. Qed.

Lemma keypad_good s : screen_ok s → good s (Some (deckpam s)) ∧ good s (Some (deckpnm s)).
Proof. intros Hs. split; apply good_some; try done; [by apply set_mode_ok|by apply clear_mode_ok]. Qed.

Lemma esc_good s inter b : screen_ok s → good s (vt_esc_dispatch s inter b).
Proof.
  intros Hs. pose proof (break_rep_ok s Hs) as Hb. unfold vt_esc_dispatch. cbv zeta.
  change (good s) with (good (break_rep s)). generalize dependent (break_rep s). clear s Hs. intros s Hs.
  destruct inter as [|i [|]].
  - dispatch; first [by apply good_some|by apply ind_good|by apply decsc_some|by apply decrc_good|by apply ris_good
      |by apply nel_good|by apply hts_ri_good|by apply keypad_good|by apply shifts_good; [|lia]].
  - destruct (_ && _); [by apply good_some; apply scs_ok|]. destruct (_ && _); [|by apply good_some].
    apply on_grid_good; [done|apply align_test_safe].
  - by apply good_some.
Qed.

Lemma execute_good s b : screen_ok s → good s (vt_execute s b).
Proof.
  intros Hs. unfold vt_execute. set (s0 := if _ || _ then s else break_rep s).
  assert (Hs0 : screen_ok s0 ∧ frame s0 = frame s).
  { unfold s0. destruct (_ || _); [done|]. split; [by apply break_rep_ok|done]. }
  destruct Hs0 as [Hs0 Hsz]. clearbody s0. cbv zeta.
  assert (Hgood : ∀ o, good s0 o → good s o).
  { intros o (s' & ? & ? & ?). exists s'. split; [done|]. split; [done|]. congruence. }
  apply Hgood. dispatch; first [by apply good_some|by apply lf_good|by apply cr_good|by apply shifts_good; [|lia]
    |apply on_grid_good; [done|intros g Hg; solve [apply col_dec_restricted_safe; [done|lia]|by apply col_forward_tab_safe]]].
Qed.

(** What the parser hands over: [char]s, and parameters of sixteen bits. *)
Definition event_ok (ev : vt_event) : Prop :=
  match ev with VPrint c => is_scalar c = true | VCsi ps _ _ => params_ok ps | VExecute _ | VEsc _ _ => True end.

Lemma perform_good s ev : screen_ok s → event_ok ev → good s (vt_perform s ev).
Proof.
  intros Hs Hev. destruct ev as [c|b|inter b|ps inter c]; simpl in *.
  - unfold vt_print. destruct (_ && _); [by apply good_some|by apply text_good].
  - by apply execute_good.
  - by apply esc_good.
  - by apply csi_good.
Qed.

Lemma perform_all_good evs s : screen_ok s → Forall event_ok evs → good s (vt_perform_all s evs).
Proof.
  intros Hs Hevs. revert s Hs. induction Hevs as [|ev evs Hev _ IH]; intros s Hs; [by apply good_some|].
  apply good_bind; [by apply perform_good|]. intros s' Hs' _. by apply IH.
Qed.

Lemma run_good sz n evs :
  1 ≤ rows sz ≤ u16_max → 1 ≤ cols sz < u16_max → 0 ≤ n → Forall event_ok evs →
  ∃ s, (let! s := screen_new sz n in vt_perform_all s evs) = Some s ∧ screen_ok s ∧ frame s = (sz, n).
Proof.
  intros Hr Hc Hn Hevs. destruct (screen_new_ok sz n Hr Hc Hn) as (s0 & -> & Hs0 & Hf).
  destruct (perform_all_good evs s0 Hs0 Hevs) as (s & E & Hs & Hfs). exists s. split; [exact E|]. split; [done|congruence].
Qed.

(** C12. The terminal never panics. A screen of any size the panes use, fed any sequence of
    printed characters, control bytes, escape and CSI sequences with any parameters,
    processes all of it: no index of a row, a cell or a tab stop out of range, no subtraction
    below zero, no [unwrap] of a missing cell. The result is a well-formed screen of the size
    and the scrollback limit it was made with. *)
Theorem terminal_never_panics sz n evs :
  1 ≤ rows sz ≤ u16_max → 1 ≤ cols sz < u16_max → 0 ≤ n → Forall event_ok evs →
  ∃ s, (let! s := screen_new sz n in vt_perform_all s evs) = Some s ∧ screen_ok s ∧
    size (grid s) = sz ∧ scrollback_len (grid s) = n.
Proof.
  intros Hr Hc Hn Hevs. destruct (run_good sz n evs Hr Hc Hn Hevs) as (s & E & Hs & [= ? ?]). by exists s.
Qed.

(** Both halves of a wide character stand side by side, seen from either of them. *)
Definition halves_together (l : list Cell) : Prop :=
  ∀ i c, l !! i = Some c →
    (is_wide c = true → is_wide_continuation c = false ∧ ∃ d, l !! S i = Some d ∧ is_wide_continuation d = true) ∧
    (is_wide_continuation c = true → ∃ j d, i = S j ∧ l !! j = Some d ∧ is_wide d = true).

Lemma paired_together l : paired l → halves_together l.
Proof.
  intros Hp i c Hi. destruct (paired_at l i c Hp Hi) as [(a & b & -> & <- & _ & _ & Hc)|[(a & d & b & -> & <- & _ & _ & Hc & Hd)
    |(a & d & b & -> & <- & _ & _ & Hd & Hc)]]; destruct Hc as [Hw Hk]; rewrite Hw, Hk; split; try done.
  - intros _. split; [done|]. exists d. split; [|apply Hd]. rewrite lookup_app_r by lia.
    by replace (S (length a) - length a)%nat with 1%nat by lia.
  - intros _. exists (length a), d. split; [done|]. split; [|apply Hd]. by rewrite list_lookup_middle.
Qed.

(** What a reader of the screen can rely on. *)
Record view_ok (g : Grid) (sz : Size) (n : Z) : Prop := {
  view_rows : length (g_rows g) = Z.to_nat (rows sz);
  view_cols : Forall (λ r, length (cells r) = Z.to_nat (cols sz)) (g_rows g);
  view_wide : Forall (λ r, halves_together (cells r)) (g_rows g ++ scrollback g);
  view_text : Forall (λ r, Forall (λ c, is_Some (contents c)) (cells r)) (g_rows g ++ scrollback g);
  view_cursor : 0 ≤ row (pos g) < rows sz ∧ 0 ≤ col (pos g) ≤ cols sz;
  view_region : 0 ≤ scroll_top g ≤ scroll_bottom g ∧ scroll_bottom g < rows sz;
  view_bound : Z.of_nat (length (scrollback g)) ≤ n;
}.

Lemma grid_ok_view g : grid_ok g → view_ok g (size g) (scrollback_len g).
Proof.
  intros Hg. assert (Hall : Forall (λ r, ∃ k, row_ok k r) (g_rows g ++ scrollback g)).
  { apply Forall_app. split.
    - eapply Forall_impl; [apply Hg|]. by eauto.
    - eapply Forall_impl; [apply Hg|]. intros r (k & _ & Hr). by exists k. }
  split.
  - apply Hg.
  - eapply Forall_impl; [apply Hg|]. by intros r [].
  - eapply Forall_impl; [exact Hall|]. intros r [k Hr]. apply paired_together, Hr.
  - eapply Forall_impl; [exact Hall|]. intros r [k Hr]. eapply Forall_impl; [apply Hr|]. intros c Hc.
    destruct (ck_text _ Hc) as (cs & Hcs & Ht). rewrite (contents_text _ _ Hc Hcs Ht). by eexists.
  - split; apply Hg.
  - destruct (go_region _ Hg). lia.
  - apply Hg.
Qed.

(** The shown grid of a screen that has processed any input: exactly the rows and columns
    of its size, every cell with readable text, no half of a wide character without the other
    in any row of the screen or the scrollback, the cursor and the scroll region inside the
    screen (the cursor possibly parked past the last column), and a scrollback that never
    exceeds the configured number of rows. *)
Theorem screen_stays_consistent sz n evs s :
  1 ≤ rows sz ≤ u16_max → 1 ≤ cols sz < u16_max → 0 ≤ n → Forall event_ok evs →
  (let! s := screen_new sz n in vt_perform_all s evs) = Some s →
  view_ok (grid s) sz n ∧ (mode_on s MODE_ALTERNATE_SCREEN = true → view_ok (alternate_grid s) sz (scrollback_len (alternate_grid s))).
Proof.
  intros Hr Hc Hn Hevs E. destruct (run_good sz n evs Hr Hc Hn Hevs) as (s' & E' & Hs & [= Hsz Hl]).
  rewrite E in E'. injection E' as <-. split.
  - rewrite <- Hsz, <- Hl. apply grid_ok_view, Hs.
  - intros Hon. rewrite <- Hsz, <- (so_size _ Hs). apply grid_ok_view. pose proof (cur_ok s Hs) as [Hcur _].
    unfold cur_grid in Hcur. by rewrite Hon in Hcur.
Qed.

End Screen.

(** ** Witnesses *)

(** Two wide characters on a screen three columns wide, a line feed, a jump past every edge,
    a repeat, the alternate screen and an erase. *)
Definition sample_events : list vt_event :=
  [VPrint 20013; VPrint 22269; VExecute 10; VCsi [[999]; [999]] [] 72; VPrint 65; VPrint 66;
   VCsi [[65535]] [] 98; VCsi [[1049]] [63] 104; VPrint 101; VPrint 769; VCsi [] [] 74].

Lemma sample_events_ok : Forall event_ok sample_events.
Proof. unfold sample_events. rewrite !Forall_cons. unfold event_ok, params_ok, is_u16. rewrite ?Forall_cons. by repeat split. Qed.

Lemma terminal_never_panics_witness :
  ∃ s, (let! s := screen_new (mkSize 2 3) 1 in @vt_perform_all sample_width s sample_events) = Some s ∧ screen_ok s ∧
    size (grid s) = mkSize 2 3 ∧ scrollback_len (grid s) = 1.
Proof. apply (@terminal_never_panics sample_width (mkSize 2 3) 1 sample_events); [done|done|done|apply sample_events_ok]. Defined.

Lemma screen_stays_consistent_witness :
  ∃ s, (let! s := screen_new (mkSize 2 3) 1 in @vt_perform_all sample_width s (take 6 sample_events)) = Some s ∧
    view_ok (grid s) (mkSize 2 3) 1.
Proof.
  eexists. split; [vm_compute; reflexivity|].
  refine (proj1 (@screen_stays_consistent sample_width (mkSize 2 3) 1 (take 6 sample_events) _ _ _ _ _ _));
    [done|done|done|apply Forall_take, sample_events_ok|vm_compute; reflexivity].
Defined.
