(* ===== verification/VtResize.v ===== *)
(** * Resizing the grid and the screen

    [set_size] of [grid/reflow.rs] and of [screen.rs]: no panic, a well-formed grid of the new
    size, and nothing lost when the screen gets wider. *)

From S2P Require Import Prelude VtCell VtRow VtGrid VtGridInv VtReflow VtReflowWiden VtReflowNarrow VtScreen VtDraw VtScreenProps.

(** ** The number of rows *)

Section Rows.
Context (P : Row → Prop) (new_cols new_rows : nat) (Hblank : P (blank_line new_cols false)).

Lemma grow_rows_ok k add b :
  Forall P (lines b) →
  Forall P (lines (fst (grow_rows k new_cols new_rows add b))) ∧
  (ybase (fst (grow_rows k new_cols new_rows add b)) ≤ ybase b)%nat ∧
  max_len (fst (grow_rows k new_cols new_rows add b)) = max_len b ∧
  ((k ≤ new_rows)%nat → length (lines b) = (ybase b + (new_rows - k))%nat →
   length (lines (fst (grow_rows k new_cols new_rows add b))) = (ybase (fst (grow_rows k new_cols new_rows add b)) + new_rows)%nat).
Proof.
  revert add b. induction k as [|k IH]; intros add b Hb; cbn [grow_rows]; [simpl; split; [done|]; split; [done|]; split; [done|]; lia|].
  destruct (Nat.ltb_spec (length (lines b)) (new_rows + ybase b)) as [Hlt|Hge].
  - destruct (_ && _) eqn:Hc.
    + apply andb_true_iff in Hc as [Hy _]. apply Nat.ltb_lt in Hy.
      destruct (IH (add + 1)%nat (mkLines (lines b) (ybase b - 1) (ln_y b) (saved_y b) (max_len b)) Hb) as (H1 & H2 & H3 & H4).
      simpl in H2, H3, H4. split; [done|]. split; [lia|]. split; [done|]. intros Hk Hl. apply H4; lia.
    + destruct (IH add (mkLines (lines b ++ [blank_line new_cols false]) (ybase b) (ln_y b) (saved_y b) (max_len b))) as (H1 & H2 & H3 & H4).
      { apply Forall_app. split; [done|]. by constructor; [|constructor]. }
      simpl in H2, H3, H4. split; [done|]. split; [done|]. split; [done|]. intros Hk Hl. apply H4; [lia|]. rewrite length_app. simpl. lia.
  - destruct (IH add b Hb) as (H1 & H2 & H3 & H4). split; [done|]. split; [done|]. split; [done|]. intros Hk Hl. lia.
Qed.

Lemma shrink_rows_ok k b :
  Forall P (lines b) →
  Forall P (lines (shrink_rows k new_rows b)) ∧ max_len (shrink_rows k new_rows b) = max_len b ∧
  (length (lines b) = (ybase b + new_rows + k)%nat →
   length (lines (shrink_rows k new_rows b)) = (ybase (shrink_rows k new_rows b) + new_rows)%nat ∧
   (ybase b ≤ ybase (shrink_rows k new_rows b))%nat) ∧
  ((length (lines b) ≤ new_rows + ybase b)%nat → shrink_rows k new_rows b = b).
Proof.
  revert b. induction k as [|k IH]; intros b Hb; cbn [shrink_rows]; [split; [done|]; split; [done|]; split; [lia|done]|].
  destruct (Nat.ltb_spec (new_rows + ybase b) (length (lines b))) as [Hlt|Hge].
  - destruct (_ <? _)%nat.
    + destruct (IH (mkLines (take (length (lines b) - 1) (lines b)) (ybase b) (ln_y b) (saved_y b) (max_len b))) as (H1 & H2 & H3 & _);
        [by apply Forall_take|]. simpl in H3. split; [done|]. split; [done|]. split; [|lia]. intros Hl.
      apply H3. rewrite length_take. lia.
    + destruct (IH (mkLines (lines b) (ybase b + 1) (ln_y b) (saved_y b) (max_len b)) Hb) as (H1 & H2 & H3 & _).
      simpl in H3. split; [done|]. split; [done|]. split; [|lia]. intros Hl. destruct H3 as [H3 H4]; [lia|]. split; [done|lia].
  - destruct (IH b Hb) as (H1 & H2 & H3 & H4). split; [done|]. split; [done|]. split; [lia|]. intros _. by apply H4.
Qed.
End Rows.

(** ** The new lines *)

Section Resize.
Context (g : Grid) (sz : Size).
Context (Hg : grid_ok (allocate_rows g)) (Hrows : 1 ≤ rows sz ≤ u16_max) (Hcols : 1 ≤ cols sz < u16_max).

Abbreviation old_cols := (Z.to_nat (cols (size g))).
Abbreviation new_cols := (Z.to_nat (cols sz)).
Abbreviation old_rows := (Z.to_nat (rows (size g))).
Abbreviation new_rows := (Z.to_nat (rows sz)).
Abbreviation limit := (Z.to_nat (scrollback_len g)).

Lemma allocate_parts :
  size (allocate_rows g) = size g ∧ scrollback (allocate_rows g) = scrollback g ∧ scrollback_len (allocate_rows g) = scrollback_len g ∧
  (g_rows g ≠ [] → g_rows (allocate_rows g) = g_rows g) ∧ tab_stops (allocate_rows g) = tab_stops g ∧
  pos (allocate_rows g) = pos g ∧ saved_pos (allocate_rows g) = saved_pos g ∧ scrollback_offset (allocate_rows g) = scrollback_offset g.
Proof.
  unfold allocate_rows. case_bool_decide; [|done]. by repeat split.
Qed.

Lemma old_lines :
  Forall (λ r, (length (cells r) ≤ old_cols)%nat ∧ line_ok r) (scrollback g ++ g_rows g) ∧
  (length (scrollback g) ≤ limit)%nat ∧ (g_rows g ≠ [] → length (g_rows g) = old_rows) ∧ (1 ≤ old_cols)%nat ∧ (1 ≤ old_rows)%nat.
Proof.
  destruct allocate_parts as (Esz & Esb & Elen & Erows & _). pose proof Hg as [H1 H2 H3 H4 _ _ _ _ _ H5 _ H6 _].
  rewrite Esz, Esb, Elen in *. split; [|split; [lia|split; [|lia]]].
  - apply Forall_app. split.
    + eapply Forall_impl; [exact H5|]. intros r (n & Hn & [Hl Hp Hc]). split; [lia|done].
    + destruct (decide (g_rows g = [])) as [->|Hne]; [constructor|]. rewrite Erows in H4 by done.
      eapply Forall_impl; [exact H4|]. intros r [Hl Hp Hc]. split; [lia|done].
  - intros Hne. rewrite Erows in H3 by done. done.
Qed.

Lemma line_in_old k r : (length (cells r) ≤ old_cols)%nat ∧ line_ok r → (old_cols ≤ k)%nat → line_in old_cols k r.
Proof. intros [Hl [Hp Hc]] Hk. exists (cells r), 0%nat. rewrite app_nil_r. split; [done|]. split; [done|]. split; [lia|done]. Qed.

Lemma line_in_resized r :
  (length (cells r) ≤ old_cols)%nat ∧ line_ok r → (old_cols < new_cols)%nat → line_in old_cols new_cols (resize_line new_cols r).
Proof.
  intros [Hl [Hp Hc]] Hk. exists (cells r), (new_cols - length (cells r))%nat. simpl. unfold vec_resize. rewrite take_ge by lia.
  split; [done|]. split; [done|]. split; [lia|done].
Qed.

Lemma line_in_blank k : (new_cols ≤ k)%nat → line_in old_cols k (blank_line new_cols false).
Proof.
  intros Hk. exists [], new_cols. simpl. rewrite Nat2Z.id. split; [done|]. split; [lia|]. split; [lia|]. split; constructor.
Qed.

(** The lines as they enter the change of rows. *)
Definition widened (b : Lines) : Lines :=
  if (old_cols <? new_cols)%nat
  then mkLines (take (length (scrollback g)) (lines b) ++ (resize_line new_cols <$> drop (length (scrollback g)) (lines b)))
         (ybase b) (ln_y b) (saved_y b) (max_len b)
  else b.

Lemma resize_line_glyphs n r : (length (cells r) ≤ n)%nat → glyphs (cells (resize_line n r)) = glyphs (cells r).
Proof. intros Hl. simpl. unfold vec_resize. rewrite take_ge by done. by rewrite glyphs_app, glyphs_blank, app_nil_r. Qed.

Lemma text_fmap (f : Row → Row) ls :
  Forall (λ r, glyphs (cells (f r)) = glyphs (cells r)) ls → line_text (f <$> ls) = line_text ls.
Proof.
  induction 1 as [|r ls Hr _ IH]; [done|]. rewrite fmap_cons. change (f r :: ?x) with ([f r] ++ x). change (r :: ls) with ([r] ++ ls).
  rewrite !text_app, IH. f_equal. unfold line_text. simpl. by rewrite !app_nil_r.
Qed.

Lemma widened_ok :
  let b := widened (lines_of g new_rows) in
  Forall (line_in old_cols (old_cols `max` new_cols)) (lines b) ∧ length (lines b) = (length (scrollback g) + length (g_rows g))%nat ∧
  ybase b = length (scrollback g) ∧ max_len b = (limit + new_rows)%nat ∧ line_text (lines b) = line_text (scrollback g ++ g_rows g).
Proof.
  destruct old_lines as (Hl & _). unfold widened. apply Forall_app in Hl as [Hsb Hr].
  destruct (Nat.ltb_spec old_cols new_cols) as [Hlt|Hge]; simpl; rewrite ?length_app.
  - rewrite take_app_length, drop_app_length, length_fmap. split; [|split; [done|split; [done|split; [done|]]]].
    + apply Forall_app. split; [eapply Forall_impl; [exact Hsb|]; intros r H; apply line_in_old; [done|lia]|].
      apply Forall_fmap. eapply Forall_impl; [exact Hr|]. intros r H. replace (old_cols `max` new_cols)%nat with new_cols by lia.
      by apply line_in_resized.
    + rewrite !text_app. f_equal. apply text_fmap. eapply Forall_impl; [exact Hr|]. intros r [H _]. apply resize_line_glyphs. lia.
  - split; [|done]. apply Forall_app. split; [eapply Forall_impl; [exact Hsb|]|eapply Forall_impl; [exact Hr|]];
      intros r H; (apply line_in_old; [done|lia]).
Qed.

Lemma resize_rows_ok :
  ∃ b trim, resize_rows g sz = Some (b, trim) ∧ Forall (line_in old_cols (old_cols `max` new_cols)) (lines b) ∧
    (ybase b ≤ limit)%nat ∧ max_len b = (limit + new_rows)%nat ∧ (g_rows g ≠ [] → length (lines b) = (ybase b + new_rows)%nat) ∧
    (rows sz = rows (size g) → line_text (lines b) = line_text (scrollback g ++ g_rows g)).
Proof.
  destruct widened_ok as (Hls & Hlen & Hyb & Hmax & Htext). destruct old_lines as (_ & Hlim & Hrl & _ & Hor).
  unfold resize_rows. cbv zeta. fold (widened (lines_of g new_rows)). set (b0 := widened _) in *. clearbody b0.
  rewrite nat_sub_ok by lia. destruct (Nat.ltb_spec old_rows new_rows) as [Hgrow|Hshrink].
  - pose proof (grow_rows_ok _ new_cols new_rows (line_in_blank (old_cols `max` new_cols) ltac:(lia)) (new_rows - old_rows) 0 b0 Hls) as H.
    destruct (grow_rows _ _ _ _ _) as [b1 add]. simpl in H. destruct H as (H1 & H2 & H3 & H4).
    rewrite (proj2 (Nat.ltb_ge _ _)) by lia. eexists _, _. split; [done|]. simpl. rewrite drop_0, Nat.sub_0_r.
    split; [done|]. split; [lia|]. split; [lia|]. split; [|lia]. intros Hne. specialize (Hrl Hne). apply H4; lia.
  - destruct (shrink_rows_ok _ new_rows (old_rows - new_rows) b0 Hls) as (H1 & H2 & H3 & H4).
    eexists _, _. split; [done|]. simpl. set (b1 := shrink_rows _ _ _) in *. set (trim := if (_ <? _)%nat then _ else _).
    assert (Htrim : trim = (length (lines b1) - max_len b1)%nat ∨ trim = 0%nat ∧ (old_rows ≤ new_rows)%nat).
    { unfold trim. destruct (Nat.ltb_spec (max_len b1) (limit + old_rows)); [by left|right; split; [done|lia]]. }
    split; [by apply Forall_drop|]. destruct (decide (g_rows g = [])) as [Hnil|Hne].
    + rewrite Hnil in Hlen. simpl in Hlen. rewrite H4 in * by lia. split; [lia|]. split; [done|]. split; [done|].
      intros E. rewrite <- Htext. replace trim with 0%nat by lia. by rewrite drop_0.
    + specialize (Hrl Hne). destruct H3 as [H5 H6]; [lia|].
      assert (Hsame : (old_rows ≤ new_rows)%nat → ybase b1 = ybase b0) by (intros ?; rewrite H4; [done|lia]).
      split; [destruct Htrim as [->|[-> Hle]]; [lia|specialize (Hsame Hle); lia]|]. split; [lia|]. split; [intros _; rewrite length_drop; lia|].
      intros E. rewrite <- Htext. assert (E0 : (old_rows - new_rows = 0)%nat) by lia. unfold b1 in *. rewrite E0 in *. simpl in *.
      by replace trim with 0%nat by lia.
Qed.

(** The reflow, or its absence. *)
Definition reflowed (reflow : bool) (b : Lines) : option Lines :=
  if reflow && negb (old_cols =? new_cols)%nat && (2 <=? new_cols)%nat
  then if (old_cols <? new_cols)%nat then reflow_larger b old_cols new_cols new_rows
       else reflow_smaller b old_cols new_cols new_rows
  else Some b.

Lemma reflowed_ok reflow b :
  Forall (line_in old_cols (old_cols `max` new_cols)) (lines b) → (ybase b ≤ limit)%nat → max_len b = (limit + new_rows)%nat →
  (reflow = true → (1 ≤ limit)%nat ∧ length (lines b) = (ybase b + new_rows)%nat) →
  ∃ b', reflowed reflow b = Some b' ∧ Forall (good_line new_cols) (lines b') ∧ (ybase b' ≤ limit)%nat ∧
    ((old_cols < new_cols)%nat → length (lines b) = (ybase b + new_rows)%nat → line_text (lines b') = line_text (lines b) ∧
     Forall (fits new_cols) (lines b') ∧ length (lines b') = (ybase b' + new_rows)%nat).
Proof.
  intros Hls Hyb Hmax Hre. destruct old_lines as (_ & _ & _ & Hold & _). unfold reflowed.
  assert (Hgood : Forall (good_line new_cols) (lines b)).
  { eapply Forall_impl; [exact Hls|]. intros r Hr. apply crop_ok. by apply line_in_ok in Hr as [? _]. }
  assert (Hwide : (old_cols < new_cols)%nat → Forall (line_in old_cols new_cols) (lines b)).
  { intros H. by replace (old_cols `max` new_cols)%nat with new_cols in Hls by lia. }
  destruct (_ && _) eqn:Hc.
  2: { exists b. split; [done|]. split; [done|]. split; [done|]. intros Hlt Hlen. split; [done|]. split; [|done].
       eapply Forall_impl; [exact (Hwide Hlt)|]. intros r. apply line_in_ok. }
  apply andb_true_iff in Hc as [Hc H2]. apply andb_true_iff in Hc as [-> Hne]. apply Nat.leb_le in H2.
  apply negb_true_iff, Nat.eqb_neq in Hne. destruct (Hre eq_refl) as [Hlim Hlen].
  destruct (Nat.ltb_spec old_cols new_cols) as [Hlt|Hge].
  - destruct (reflow_larger_ok old_cols new_cols new_rows b Hold Hlt (Hwide Hlt) Hlen) as (b' & -> & [Hl1 Hl2] & Ht & Hy & _).
    exists b'. split; [done|]. split; [eapply Forall_impl; [exact Hl1|]; intros r [Hr _]; by apply crop_ok|].
    split; [lia|done].
  - replace (old_cols `max` new_cols)%nat with old_cols in Hls by lia.
    destruct (reflow_smaller_ok old_cols new_cols new_rows H2 ltac:(lia) ltac:(lia) b Hls) as (b' & -> & Hl & Hy); [lia|].
    exists b'. split; [done|]. split; [done|]. split; lia.
Qed.

Lemma crop_short n r : (length (cells (crop_line n r)) ≤ n)%nat.
Proof.
  unfold crop_line. destruct (Nat.ltb_spec n (length (cells r))); [|done].
  destruct (last _) as [c|]; [destruct (is_wide c)|]; simpl; rewrite ?length_insert, length_take; lia.
Qed.

Lemma resize_line_ok n r : line_ok r → (length (cells r) ≤ n)%nat → row_ok n (resize_line n r).
Proof.
  intros [Hp Hc] Hl. destruct (blanks_ok (n - length (cells r))) as [Hbp Hbc]. split; simpl; unfold vec_resize; rewrite take_ge by done.
  - rewrite length_app, length_replicate. lia.
  - by apply paired_app.
  - by apply Forall_app.
Qed.

(** Every line gets its place and its width. *)
Lemma fit_lines_ok b sb rs :
  Forall (good_line new_cols) (lines b) → fit_lines b new_cols new_rows = (sb, rs) →
  length sb = ybase b ∧ length rs = new_rows ∧ Forall (row_ok new_cols) rs ∧
  Forall (λ r, ∃ n, (n ≤ new_cols)%nat ∧ row_ok n r) sb ∧
  (Forall (fits new_cols) (lines b) → length (lines b) = (ybase b + new_rows)%nat → line_text (sb ++ rs) = line_text (lines b)).
Proof.
  intros Hl. unfold fit_lines. set (cr := crop_line new_cols <$> lines b).
  set (ls := take (ybase b) cr ++ (resize_line new_cols <$> drop (ybase b) cr)). set (need := (ybase b + new_rows)%nat).
  set (all := ls ++ replicate (need - length ls) (blank_line new_cols false)). intros [= <- <-].
  assert (Hcr : Forall (λ r, line_ok r ∧ (length (cells r) ≤ new_cols)%nat) cr).
  { apply Forall_fmap. eapply Forall_impl; [exact Hl|]. intros r Hr. split; [exact Hr|apply crop_short]. }
  assert (Hlen : length ls = length (lines b)).
  { unfold ls, cr. rewrite length_app, length_fmap, length_take, length_drop, length_fmap. lia. }
  assert (Hall : (need ≤ length all)%nat) by (unfold all; rewrite length_app, length_replicate; lia).
  assert (Hblank : row_ok new_cols (blank_line new_cols false)).
  { destruct (blank_line_ok new_cols false) as ([Hp Hc] & Hn & _). by split. }
  assert (Hfront : Forall (λ r, ∃ n, (n ≤ new_cols)%nat ∧ row_ok n r) all).
  { unfold all, ls. rewrite !Forall_app. split; [split|].
    - apply Forall_take. eapply Forall_impl; [exact Hcr|]. intros r ((Hp & Hc) & Hn). exists (length (cells r)). by split; [|split].
    - apply Forall_fmap. apply Forall_drop. eapply Forall_impl; [exact Hcr|]. intros r [Hr Hn]. exists new_cols. split; [done|].
      by apply resize_line_ok.
    - apply Forall_replicate. exists new_cols. by split. }
  assert (Hback : Forall (row_ok new_cols) (drop (ybase b) all)).
  { unfold all, ls. rewrite <- app_assoc. destruct (decide (ybase b ≤ length cr)%nat) as [Hy|Hy].
    - rewrite drop_app_length' by (rewrite length_take; lia). apply Forall_app. split; [|by apply Forall_replicate].
      apply Forall_fmap, Forall_drop. eapply Forall_impl; [exact Hcr|]. intros r [Hr Hn]. by apply resize_line_ok.
    - rewrite (drop_ge cr) by lia. rewrite drop_app_ge by (rewrite length_take; lia). simpl. by apply Forall_drop, Forall_replicate. }
  split; [rewrite !length_take; lia|]. split; [rewrite length_drop, length_take; lia|]. split; [|split].
  - rewrite skipn_firstn_comm. by apply Forall_take.
  - by apply Forall_take, Forall_take.
  - intros Hfit Hn. rewrite take_drop. assert (Ecr : cr = lines b).
    { unfold cr. clear - Hfit. induction Hfit as [|r l [_ Hr] _ IH]; [done|]. rewrite fmap_cons, IH. f_equal. unfold crop_line.
      by rewrite (proj2 (Nat.ltb_ge _ _)). }
    unfold all. replace (need - length ls)%nat with 0%nat by lia. rewrite app_nil_r, take_ge by lia. unfold ls.
    rewrite text_app, text_fmap, <- text_app, take_drop, Ecr; [done|].
    apply Forall_drop. eapply Forall_impl; [exact Hcr|]. intros r [_ Hr]. by apply resize_line_glyphs.
Qed.

Lemma tab_below_ok ts c : (c < length ts)%nat → ∃ c', tab_below ts c = Some c'.
Proof.
  induction c as [|c IH]; intros Hc; cbn [tab_below]; [by eexists|]. destruct (lookup_lt_is_Some_2 ts (S c) Hc) as [t ->].
  destruct t; [by eexists|]. apply IH. lia.
Qed.

Lemma reset_tab_stops_ok ts : ∃ ts', reset_tab_stops ts new_cols = Some ts' ∧ length ts' = new_cols.
Proof.
  unfold reset_tab_stops. rewrite nat_sub_ok by lia. set (v := vec_resize new_cols false ts).
  assert (Hv : length v = new_cols) by (unfold v, vec_resize; rewrite length_app, length_take, length_replicate; lia).
  destruct (tab_below_ok v (new_cols - 1)) as [c ->]; [lia|]. eexists. split; [done|]. by rewrite length_imap.
Qed.

Lemma pad_window_text g1 : line_text (scrollback (pad_scrollback_window g1)) = line_text (scrollback g1).
Proof.
  unfold pad_scrollback_window. simpl. set (skip := (length (scrollback g1) - _)%nat). set (k := length (g_rows g1)).
  rewrite !text_app, text_fmap, <- !text_app.
  - by rewrite <- drop_drop, take_drop, take_drop.
  - apply Forall_true. intros r. apply pad_line_glyphs.
Qed.

(** Resizing a grid to a size with at least one row and one column never panics and gives a
    well-formed grid; a grid that wraps its lines needs room for a line of scrollback. *)
Lemma set_size_ok reflow :
  (reflow = true → 1 ≤ scrollback_len g ∧ g_rows g ≠ []) →
  ∃ g', set_size g sz reflow = Some g' ∧ grid_ok (allocate_rows g') ∧ size g' = sz ∧ scrollback_len g' = scrollback_len g ∧
    (g_rows g ≠ [] → g_rows g' ≠ []) ∧
    (rows sz = rows (size g) → cols (size g) < cols sz → g_rows g ≠ [] →
     line_text (scrollback g' ++ g_rows g') = line_text (scrollback g ++ g_rows g)).
Proof.
  intros Hre. unfold set_size. case_bool_decide as Esz.
  { exists g. repeat (split; [done|]). intros _ Hlt. rewrite Esz in Hlt. lia. }
  destruct resize_rows_ok as (b & trim & -> & Hls & Hyb & Hmax & Hlen & Htext).
  destruct (reflowed_ok reflow b Hls Hyb Hmax) as (b' & Eb & Hgood & Hyb' & Hwide).
  { intros E. destruct (Hre E) as [? Hne]. split; [lia|by apply Hlen]. }
  unfold reflowed in Eb. cbv zeta. rewrite Eb. destruct (fit_lines b' new_cols new_rows) as [sb rs] eqn:Efit.
  destruct (fit_lines_ok b' sb rs Hgood Efit) as (Hsb & Hrs & Hrok & Hsok & Hfit).
  rewrite nat_sub_ok, !u16_sub_ok by lia. destruct (reset_tab_stops_ok (tab_stops g)) as (ts & -> & Hts).
  set (g1 := mkGrid _ _ _ _ _ _ _ _ _ _ _ _ _ _ _).
  destruct allocate_parts as (Es & Esb & El & _ & _ & Ep & Esp & Eo). pose proof Hg as [G1 G2 _ _ G5 G6 G7 G8 _ _ G11 G12 _].
  rewrite Es, Esb, El, Ep, Esp, Eo in *.
  assert (H1 : grid_ok g1).
  { split; simpl; try done; try lia; try (by apply Forall_impl). }
  assert (Hpad : pad_scrollback_window g1 = set_scrollback g1 (scrollback_offset g1)).
  { unfold set_scrollback. f_equal. unfold with_scrollback. simpl. f_equal. lia. }
  assert (Hpok : grid_ok (pad_scrollback_window g1)) by (rewrite Hpad; apply set_scrollback_ok; [done|simpl; lia]).
  eexists. split; [done|]. split; [by apply allocate_rows_ok|]. split; [done|]. split; [done|].
  assert (Hne : rs ≠ []) by (intros ->; simpl in Hrs; lia). split; [done|]. intros Hr Hc Hrg.
  destruct Hwide as (Ht & Hf & Hl); [lia|by apply Hlen|]. rewrite <- (Htext Hr), <- Ht, <- (Hfit Hf Hl).
  rewrite !text_app. f_equal. apply (pad_window_text g1).
Qed.
End Resize.

(** ** The screen *)

(** [Screen::set_size]: lines are rewrapped on the primary screen only. *)
Definition screen_set_size (s : Screen) (sz : Size) : option Screen :=
  let! g := set_size (grid s) sz true in
  let! a := set_size (alternate_grid s) sz false in
  Some (with_grids s g a).

(** Everything that changes a screen: the output of the program, and its window's size. *)
Inductive term_op := Feed (ev : vt_event) | Resize (sz : Size).

Definition op_ok (op : term_op) : Prop :=
  match op with
  | Feed ev => event_ok ev
  | Resize sz => 1 ≤ rows sz ≤ u16_max ∧ 1 ≤ cols sz < u16_max
  end.

Definition size_after (sz : Size) (op : term_op) : Size := match op with Feed _ => sz | Resize sz => sz end.

Lemma screen_set_size_ok s sz :
  screen_ok s → 1 ≤ scrollback_len (grid s) → op_ok (Resize sz) →
  ∃ s', screen_set_size s sz = Some s' ∧ screen_ok s' ∧ frame s' = (sz, scrollback_len (grid s)).
Proof.
  intros Hs Hlen [Hr Hc]. pose proof Hs as [H1 H2 H3 H4 H5 H6 H7 H8].
  pose proof (rows_nonempty _ H1) as Hne.
  destruct (set_size_ok (grid s) sz (allocate_rows_ok _ H1) Hr Hc true) as (g & Eg & Hg & Hgs & Hgl & Hgn & _); [done|].
  destruct (set_size_ok (alternate_grid s) sz H2 Hr Hc false) as (a & Ea & Ha & Has & Hal & Han & _); [done|].
  unfold screen_set_size. rewrite Eg, Ea. exists (with_grids s g a). split; [done|]. split; [|unfold frame; simpl; congruence].
  split; simpl; try done; [|congruence|].
  - by rewrite allocate_shown in Hg by (by apply Hgn).
  - intros Hon. by apply Han, H4.
Qed.

Section Terminal.
Context `{!UnicodeWidth}.

Definition term_step (s : Screen) (op : term_op) : option Screen :=
  match op with Feed ev => vt_perform s ev | Resize sz => screen_set_size s sz end.

Fixpoint term_run (s : Screen) (ops : list term_op) : option Screen :=
  match ops with
  | [] => Some s
  | op :: ops => let! s := term_step s op in term_run s ops
  end.

Lemma term_run_ok ops s :
  screen_ok s → 1 ≤ scrollback_len (grid s) → Forall op_ok ops →
  ∃ s', term_run s ops = Some s' ∧ screen_ok s' ∧ frame s' = (foldl size_after (size (grid s)) ops, scrollback_len (grid s)).
Proof.
  intros Hs Hlen Hops. revert s Hs Hlen. induction Hops as [|op ops Hop _ IH]; intros s Hs Hlen; [by exists s|].
  cbn [term_run foldl]. assert (Hstep : ∃ s1, term_step s op = Some s1 ∧ screen_ok s1 ∧
    frame s1 = (size_after (size (grid s)) op, scrollback_len (grid s))).
  { destruct op as [ev|sz]; [by apply perform_good|by apply screen_set_size_ok]. }
  destruct Hstep as (s1 & -> & Hs1 & [= Hsz Hl]). rewrite <- Hsz, <- Hl. apply IH; [done|lia].
Qed.

(** C13. A terminal survives any program and any sequence of sensible resizes. For a terminal
    with a scrollback of at least one line, and with every size, the first and each new one, of
    at least one row and one column, at most 65535 rows and fewer than 65535 columns: output
    and changes of size in any order never make the emulator panic, and afterwards both screens
    have exactly the last size, no half of a wide character without the other, readable text in
    every cell, the cursor and the scroll region inside, and a scrollback within its limit. *)
Theorem terminal_survives_resizes sz n ops :
  op_ok (Resize sz) → 1 ≤ n → Forall op_ok ops →
  ∃ s, (let! s := screen_new sz n in term_run s ops) = Some s ∧
    view_ok (grid s) (foldl size_after sz ops) n ∧
    (mode_on s MODE_ALTERNATE_SCREEN = true → view_ok (alternate_grid s) (foldl size_after sz ops) (scrollback_len (alternate_grid s))).
Proof.
  intros [Hr Hc] Hn Hops. destruct (screen_new_ok sz n Hr Hc) as (s0 & -> & Hs0 & [= Hsz Hl]); [lia|].
  destruct (term_run_ok ops s0 Hs0) as (s & E & Hs & [= Hsz' Hl']); [lia|done|]. rewrite Hsz in Hsz'. rewrite Hl in Hl'.
  exists s. split; [exact E|]. rewrite <- Hsz', <- Hl'. split; [apply grid_ok_view, Hs|].
  intros Hon. rewrite <- (so_size _ Hs). apply grid_ok_view. pose proof (cur_ok s Hs) as [Hcur _].
  unfold cur_grid in Hcur. by rewrite Hon in Hcur.
Qed.

End Terminal.

(** C14. Widening a screen loses nothing: after a change to more columns and the same number of
    rows, with or without rewrapping, the screen and its scrollback hold the same characters,
    with their attributes, in the same order. *)
Theorem widening_keeps_text g sz reflow :
  grid_ok g → 1 ≤ scrollback_len g → rows sz = rows (size g) → cols (size g) < cols sz < u16_max →
  ∃ g', set_size g sz reflow = Some g' ∧ line_text (scrollback g' ++ g_rows g') = line_text (scrollback g ++ g_rows g).
Proof.
  intros Hg Hlen Hr Hc. pose proof (go_cols _ Hg). pose proof (go_rows _ Hg).
  pose proof (rows_nonempty _ Hg) as Hne.
  destruct (set_size_ok g sz (allocate_rows_ok _ Hg) ltac:(lia) ltac:(lia) reflow) as (g' & E & _ & _ & _ & _ & Ht); [done|].
  exists g'. split; [done|]. apply Ht; [done|lia|done].
Qed.

(** Narrowing a wrapped line loses nothing: its rows, cut at the new width, hold the same
    characters in the same order as before, no wide character is cut in two, and the number of
    rows grows exactly by what the code goes on to insert. *)
Theorem narrowing_keeps_group_text ls old new :
  (2 ≤ new < old)%nat → Forall (line_in old old) ls → ls ≠ [] →
  ∃ group to_add, smaller_group ls old new = Some (group, to_add) ∧
    length group = (length ls + Z.to_nat (Z.max 0 to_add))%nat ∧
    Forall (λ r, halves_together (cells (crop_line new r))) group ∧
    line_text (crop_line new <$> group) = line_text ls.
Proof.
  intros Hn Hls Hne. destruct (smaller_group_ok ls old new) as (group & to_add & E & Hl & Hok & Ht);
    [lia|lia|done|destruct ls; simpl; [done|lia]|].
  exists group, to_add. split; [done|]. split; [done|]. split; [|done].
  pose proof (proj1 (Forall_fmap _ _ _) Hok) as H. eapply Forall_impl; [exact H|]. intros r [Hp _]. by apply paired_together.
Qed.

(** ** Witnesses and boundary cases *)

(** A wide character that does not fit the first line, a letter, and two lines of output. *)
Definition sample_output : list vt_event := [VPrint 97; VPrint 98; VPrint 20013; VPrint 99; VExecute 13; VExecute 10; VPrint 100].

Lemma sample_output_ok : Forall event_ok sample_output.
Proof. unfold sample_output. rewrite !Forall_cons. by repeat split. Qed.

Definition printed (sz : Size) (n : Z) (evs : list vt_event) : option Grid :=
  let! s := (let! s := screen_new sz n in @vt_perform_all sample_width s evs) in Some (grid s).

Lemma printed_ok sz n evs :
  op_ok (Resize sz) → 0 ≤ n → Forall event_ok evs →
  ∃ g, printed sz n evs = Some g ∧ grid_ok g ∧ size g = sz ∧ scrollback_len g = n.
Proof.
  intros [Hr Hc] Hn Hevs. destruct (@run_good sample_width sz n evs Hr Hc Hn Hevs) as (s & E & Hs & [= H1 H2]).
  exists (grid s). unfold printed. rewrite E. split; [done|]. by split; [apply Hs|].
Qed.

Definition sample_ops : list term_op :=
  (Feed <$> sample_output) ++ [Resize (mkSize 4 2); Feed (VPrint 20013); Resize (mkSize 1 1); Resize (mkSize 3 7)].

Lemma sample_ops_ok : Forall op_ok sample_ops.
Proof.
  unfold sample_ops. rewrite Forall_app, Forall_fmap. split; [apply sample_output_ok|]. rewrite !Forall_cons. by repeat split.
Qed.

Lemma terminal_survives_resizes_witness :
  ∃ s, (let! s := screen_new (mkSize 2 3) 1 in @term_run sample_width s sample_ops) = Some s ∧ view_ok (grid s) (mkSize 3 7) 1.
Proof.
  destruct (@terminal_survives_resizes sample_width (mkSize 2 3) 1 sample_ops) as (s & E & Hv & _); [done|done|apply sample_ops_ok|].
  exists s. split; [exact E|exact Hv].
Defined.

Lemma widening_keeps_text_witness :
  ∃ g g', printed (mkSize 2 3) 1 sample_output = Some g ∧ set_size g (mkSize 2 5) true = Some g' ∧
    line_text (scrollback g' ++ g_rows g') = line_text (scrollback g ++ g_rows g).
Proof.
  destruct (printed_ok (mkSize 2 3) 1 sample_output) as (g & E & Hg & Hs & Hl); [done|done|apply sample_output_ok|].
  destruct (widening_keeps_text g (mkSize 2 5) true Hg) as (g' & E' & Ht);
    [rewrite Hl; lia|rewrite Hs; reflexivity|rewrite Hs; unfold u16_max; simpl; lia|].
  exists g, g'. split; [exact E|]. split; [exact E'|exact Ht].
Defined.

Lemma narrowing_keeps_group_text_witness :
  ∃ g group to_add, printed (mkSize 2 3) 1 sample_output = Some g ∧ smaller_group (g_rows g) 3 2 = Some (group, to_add) ∧
    line_text (crop_line 2 <$> group) = line_text (g_rows g).
Proof.
  destruct (printed_ok (mkSize 2 3) 1 sample_output) as (g & E & Hg & Hs & Hl); [done|done|apply sample_output_ok|].
  destruct (narrowing_keeps_group_text (g_rows g) 3 2) as (group & to_add & Eg & _ & _ & Ht); [lia| |apply rows_nonempty, Hg|].
  { pose proof (go_cells _ Hg) as Hc. rewrite Hs in Hc. eapply Forall_impl; [exact Hc|]. intros r [Hr Hp Hk].
    exists (cells r), 0%nat. rewrite app_nil_r. simpl in Hr. split; [reflexivity|]. split; [lia|]. split; [lia|]. split; assumption. }
  exists g, group, to_add. split; [exact E|]. split; [exact Eg|exact Ht].
Defined.

(** Without scrollback the cursor is moved one line past the limit when a line below it is
    rewrapped: a line enters a scrollback that may hold none. *)
Theorem narrowing_exceeds_limit :
  (let! g := printed (mkSize 3 8) 0 ((VPrint <$> [97; 98; 99; 100; 101; 102; 103; 104]) ++ [VExecute 13; VExecute 10]) in
   let! g' := set_size g (mkSize 3 2) true in Some (scrollback_len g', length (scrollback g'))) = Some (0, 1%nat).
Proof. vm_compute. reflexivity. Qed.

(** A size without rows is an overflow. *)
Theorem no_rows_overflow g c reflow : rows (size g) ≠ 0 → set_size g (mkSize 0 c) reflow = None.
Proof.
  intros Hr. unfold set_size. rewrite bool_decide_eq_false_2 by (intros E; by rewrite <- E in Hr). unfold resize_rows. cbv zeta.
  by match goal with |- context [let '(_, _) := ?p in _] => destruct p end.
Qed.
