(* ===== verification/VtRender.v ===== *)
(** * Writing a screen as escape sequences ([crates/vt100/src/term.rs], the writers of
      [attrs.rs], [row.rs], [grid.rs] and [screen.rs])

    A screen is saved by writing the sequences that paint it. What the code appends to a byte
    buffer is here a list of items, one per structure of [term.rs] or text written; [write_buf]
    gives an item's bytes and [item_events] what a terminal's tokenizer makes of them. [None]
    is a panic. *)

From S2P Require Import Prelude TermQuery VtCell VtRow VtGrid VtGridInv VtScreen.

(** ** Sequences ([term.rs]) *)

(** The attributes a sequence sets; a field left out keeps its value. *)
Record TermAttrs := mkTermAttrs {
  ta_fgcolor : option Color;
  ta_bgcolor : option Color;
  ta_ulcolor : option Color;
  ta_intensity : option (bool * bool);
  ta_italic : option bool;
  ta_underline : option (option UnderlineStyle);
  ta_inverse : option bool;
  ta_strikethrough : option bool;
  ta_blink : option bool;
  ta_conceal : option bool;
  ta_overline : option bool;
}.

Inductive Item :=
| IText (cs : list Z)
| IClearScreen
| IClearRowForward
| ICrlf
| IBackspace
| ISaveCursor
| IRestoreCursor
| IMoveTo (row1 col1 : Z)
| IClearAttrs
| IAttrs (a : TermAttrs)
| IMoveRight (count : Z)
| IEraseChar (count : Z)
| IHideCursor (state : bool)
| IApplicationKeypad (state : bool)
| IApplicationCursor (state : bool)
| IBracketedPaste (state : bool)
| IMouseProtocolMode (mode prev : MouseProtocolMode)
| IMouseProtocolEncoding (encoding prev : MouseProtocolEncoding).

Abbreviation sgr_param := (list Z) (only parsing).

(** [write_color!]: 16 colours have codes of their own, unless [lo] is 0. *)
Definition color_params (c : Color) (dflt lo hi ext : Z) : list sgr_param :=
  match c with
  | CDefault => [[dflt]]
  | CIdx i =>
      if negb (lo =? 0) && (i <? 8) then [[i + lo]]
      else if negb (lo =? 0) && (i <? 16) then [[i + hi]]
      else [[ext]; [5]; [i]]
  | CRgb r g b => [[ext]; [2]; [r]; [g]; [b]]
  end.

Definition on_off (on off : Z) (b : bool) : list sgr_param := [[if b then on else off]].

Definition underline_param (u : option UnderlineStyle) : sgr_param :=
  match u with
  | None => [24]
  | Some USingle => [4]
  | Some UDouble => [4; 2]
  | Some UCurly => [4; 3]
  | Some UDotted => [4; 4]
  | Some UDashed => [4; 5]
  end.

(** The parameters of a field, when it is set. *)
Definition opt_params {A} (f : A → list sgr_param) (o : option A) : list sgr_param :=
  match o with Some x => f x | None => [] end.

Definition attrs_params (a : TermAttrs) : list sgr_param :=
  opt_params (λ c, color_params c 39 30 82 38) (ta_fgcolor a) ++
  opt_params (λ c, color_params c 49 40 92 48) (ta_bgcolor a) ++
  opt_params (λ c, color_params c 59 0 0 58) (ta_ulcolor a) ++
  opt_params (λ '(bold, dim), [[22]] ++ (if bold : bool then [[1]] else []) ++ (if dim : bool then [[2]] else []))
    (ta_intensity a) ++
  opt_params (on_off 3 23) (ta_italic a) ++
  opt_params (λ u, [underline_param u]) (ta_underline a) ++
  opt_params (on_off 7 27) (ta_inverse a) ++
  opt_params (on_off 9 29) (ta_strikethrough a) ++
  opt_params (on_off 5 25) (ta_blink a) ++
  opt_params (on_off 8 28) (ta_conceal a) ++
  opt_params (on_off 53 55) (ta_overline a).

Definition mouse_mode_number (m : MouseProtocolMode) : option Z :=
  match m with MNone => None | MPress => Some 9 | MPressRelease => Some 1000 | MButtonMotion => Some 1002 | MAnyMotion => Some 1003 end.

Definition mouse_encoding_number (e : MouseProtocolEncoding) : option Z :=
  match e with EDefault => None | EUtf8 => Some 1005 | ESgr => Some 1006 | EUrxvt => Some 1015 end.

(** *** Bytes *)

Fixpoint sep_by (sep : byte) (xs : list (list byte)) : list byte :=
  match xs with
  | [] => []
  | [x] => x
  | x :: xs => x ++ sep :: sep_by sep xs
  end.

(** [ESC \[], a private marker, the parameters and the final byte. *)
Definition csi_bytes (marker : list byte) (ps : list sgr_param) (final : byte) : list byte :=
  ESC :: 91 :: marker ++ sep_by 59 (map (λ p, sep_by 58 (map dec p)) ps) ++ [final].

Definition private_mode (n : Z) (on : bool) : list byte := csi_bytes [63] [[n]] (if on then 104 else 108).

Definition write_buf (i : Item) : list byte :=
  match i with
  | IText cs => encode_all cs
  | IClearScreen => csi_bytes [] [] 72 ++ csi_bytes [] [] 74
  | IClearRowForward => csi_bytes [] [] 75
  | ICrlf => [13; 10]
  | IBackspace => [8]
  | ISaveCursor => [ESC; 55]
  | IRestoreCursor => [ESC; 56]
  | IMoveTo r c => if (r =? 1) && (c =? 1) then csi_bytes [] [] 72 else csi_bytes [] [[r]; [c]] 72
  | IClearAttrs => csi_bytes [] [] 109
  | IAttrs a => if bool_decide (attrs_params a = []) then [] else csi_bytes [] (attrs_params a) 109
  | IMoveRight n => if n =? 0 then [] else if n =? 1 then csi_bytes [] [] 67 else csi_bytes [] [[n]] 67
  | IEraseChar n => if n =? 0 then [] else if n =? 1 then csi_bytes [] [] 88 else csi_bytes [] [[n]] 88
  | IHideCursor st => private_mode 25 (negb st)
  | IApplicationKeypad st => [ESC; if st then 61 else 62]
  | IApplicationCursor st => private_mode 1 st
  | IBracketedPaste st => private_mode 2004 st
  | IMouseProtocolMode m prev =>
      if bool_decide (m = prev) then []
      else match mouse_mode_number m, mouse_mode_number prev with
           | Some n, _ => private_mode n true
           | None, Some n => private_mode n false
           | None, None => []
           end
  | IMouseProtocolEncoding e prev =>
      if bool_decide (e = prev) then []
      else match mouse_encoding_number e, mouse_encoding_number prev with
           | Some n, _ => private_mode n true
           | None, Some n => private_mode n false
           | None, None => []
           end
  end.

Definition buf_bytes (out : list Item) : list byte := flat_map write_buf out.

(** [MoveTo::new(pos)], 1-based. *)
Definition move_to (p : Pos) : option (list Item) :=
  let! r := u16_add (row p) 1 in
  let! c := u16_add (col p) 1 in
  Some [IMoveTo r c].

(** [MoveFromTo]: the cheapest of a new line, a step to the right and an address. *)
Definition move_from_to (from to : Pos) : option (list Item) :=
  let! next := u16_add (row from) 1 in
  if (row to =? next) && (col to =? 0) then Some [ICrlf]
  else if (row from =? row to) && (col from <? col to) then
    let! n := u16_sub (col to) (col from) in Some [IMoveRight n]
  else if bool_decide (to = from) then Some []
  else move_to to.

(** ** Attributes ([attrs.rs]) *)

Definition sgr_bare (a : Attrs) : Attrs :=
  mkAttrs (fgcolor a) (bgcolor a) (ulcolor a) (mode a) (underline_style a) 0.
Definition sgr_eq (a b : Attrs) : bool := bool_decide (sgr_bare a = sgr_bare b).

(** A field of the difference: what [f] gives now, when it gave something else before. *)
Definition changed {A} `{EqDecision A} (f : Attrs → A) (self other : Attrs) : option A :=
  if bool_decide (f self = f other) then None else Some (f self).

Definition attrs_diff (self other : Attrs) : TermAttrs :=
  let ul := get_flag TEXT_MODE_UNDERLINE in
  mkTermAttrs (changed fgcolor self other) (changed bgcolor self other) (changed ulcolor self other)
    (changed (λ a, (get_flag TEXT_MODE_BOLD a, get_flag TEXT_MODE_DIM a)) self other)
    (changed (get_flag TEXT_MODE_ITALIC) self other)
    (if negb (eqb (ul self) (ul other)) || (ul self && negb (bool_decide (underline_style self = underline_style other)))
     then Some (if ul self then Some (underline_style self) else None) else None)
    (changed (get_flag TEXT_MODE_INVERSE) self other)
    (changed (get_flag TEXT_MODE_STRIKETHROUGH) self other)
    (changed (get_flag TEXT_MODE_BLINK) self other)
    (changed (get_flag TEXT_MODE_CONCEAL) self other)
    (changed (get_flag TEXT_MODE_OVERLINE) self other).

Definition write_escape_code_diff (self other : Attrs) : list Item :=
  if negb (bool_decide (self = other)) && sgr_eq self attrs_default then [IClearAttrs] else [IAttrs (attrs_diff self other)].

(** [if &prev_attrs != attrs { attrs.write_escape_code_diff(..); prev_attrs = *attrs; }] *)
Definition switch_attrs (self prev : Attrs) : list Item :=
  if bool_decide (prev = self) then [] else write_escape_code_diff self prev.

(** ** Rows ([row.rs]) *)

(** The writer between two cells: what is written, where the cursor is then and with which
    attributes, a run of blank cells not written yet, and whether the next cell is the second
    half of a wide character. *)
Record Writer := mkWriter {
  wr_out : list Item;
  wr_pos : Pos;
  wr_attrs : Attrs;
  wr_erase : option (Z * Attrs);
  wr_wide : bool;
}.

(** [wrapping && prev_pos.row + 1 == row]. *)
Definition follows_row (wrapping : bool) (prev : Pos) (r : Z) : option bool :=
  if wrapping then let! next := u16_add (row prev) 1 in Some (next =? r) else Some false.

(** The way to a run of blanks: by drawing over the end of the row above, or by moving. *)
Definition reach_blanks (ncols : Z) (wrapping : bool) (prev to : Pos) : option (list Item) :=
  let! fo := follows_row wrapping prev (row to) in
  if fo && (ncols <=? col prev) then
    Some (if 0 <? col to then [IText (replicate (Z.to_nat (col to)) 32)] else [IText [32]; IBackspace])
  else move_from_to prev to.

(** Writes the pending run of blanks: goes to it, sets its attributes and erases with [erase]. *)
Definition flush_blanks (ncols : Z) (wrapping : bool) (r : Z) (w : Writer) (prev_col : Z) (a : Attrs) (erase : list Item)
    : option Writer :=
  let to := mkPos r prev_col in
  let! way := reach_blanks ncols wrapping (wr_pos w) to in
  Some (mkWriter (wr_out w ++ way ++ switch_attrs a (wr_attrs w) ++ erase) to a None (wr_wide w)).

(** A cell with text: goes to it unless drawing wraps there, sets the attributes and writes. *)
Definition write_text (ncols : Z) (wrapping : bool) (p : Pos) (w : Writer) (cell : Cell) : option Writer :=
  let! way :=
    (if bool_decide (p = wr_pos w) then Some []
     else
       let! fo := follows_row wrapping (wr_pos w) (row p) in
       let! stay :=
         (if fo then let! m := u16_sub ncols (if is_wide cell then 1 else 0) in Some ((m <=? col (wr_pos w)) && (col p =? 0))
          else Some false) in
       if stay : bool then Some [] else move_from_to (wr_pos w) p) in
  let! cs := contents cell in
  let! c := u16_add (col p) (if is_wide cell then 2 else 1) in
  Some (mkWriter (wr_out w ++ way ++ switch_attrs (cell_attrs cell) (wr_attrs w) ++ [IText cs])
          (mkPos (row p) c) (cell_attrs cell) (wr_erase w) (wr_wide w)).

Definition write_cell (ncols : Z) (wrapping : bool) (r : Z) (w : Writer) (cl : Z * Cell) : option Writer :=
  let '(c, cell) := cl in
  if wr_wide w then Some (mkWriter (wr_out w) (wr_pos w) (wr_attrs w) (wr_erase w) false)
  else
    let w := mkWriter (wr_out w) (wr_pos w) (wr_attrs w) (wr_erase w) (is_wide cell) in
    let! w :=
      match wr_erase w with
      | Some (prev_col, a) =>
          if has_contents cell || negb (bool_decide (cell_attrs cell = a))
          then let! n := u16_sub c prev_col in flush_blanks ncols wrapping r w prev_col a [IEraseChar n]
          else Some w
      | None => Some w
      end in
    if cell_eqb cell cell_new then Some w
    else if has_contents cell then write_text ncols wrapping (mkPos r c) w cell
    else
      match wr_erase w with
      | None => Some (mkWriter (wr_out w) (wr_pos w) (wr_attrs w) (Some (c, cell_attrs cell)) (wr_wide w))
      | Some _ => Some w
      end.

Fixpoint write_cells (ncols : Z) (wrapping : bool) (r : Z) (cls : list (Z * Cell)) (w : Writer) : option Writer :=
  match cls with
  | [] => Some w
  | cl :: cls => let! w := write_cell ncols wrapping r w cl in write_cells ncols wrapping r cls w
  end.

(** [self.cells().enumerate().skip(start).take(width)] *)
Definition numbered (start width : Z) (cs : list Cell) : list (Z * Cell) :=
  zip (seqZ start width) (take (Z.to_nat width) (drop (Z.to_nat start) cs)).

Definition row_cols (r : Row) : Z := Z.of_nat (length (cells r)).

Definition row_write_formatted (self : Row) (start width r : Z) (wrapping : bool) (prev_pos : option Pos) (prev_attrs : option Attrs)
    : option Writer :=
  let! p :=
    match prev_pos with
    | Some p => Some p
    | None => if wrapping then let! up := u16_sub r 1 in Some (mkPos up (row_cols self)) else Some (mkPos r start)
    end in
  let a := default attrs_default prev_attrs in
  let! first := cells self !! Z.to_nat start in
  let w :=
    if wrapping && cell_eqb first cell_new then
      mkWriter (switch_attrs attrs_default a ++ [IText [32]; IBackspace; IEraseChar 1]) (mkPos r 0) attrs_default None false
    else mkWriter [] p a None false in
  let! w := write_cells (row_cols self) wrapping r (numbered start width (cells self)) w in
  match wr_erase w with
  | Some (prev_col, a) => flush_blanks (row_cols self) wrapping r w prev_col a [IClearRowForward]
  | None => Some w
  end.

(** ** The grid ([grid.rs]) *)

(** Every row shown, with whether the next one continues it. *)
Fixpoint continuing (rs : list Row) : list (Row * bool) :=
  match rs with
  | [] => []
  | r :: rs => (r, match rs with next :: _ => wrapped next | [] => false end) :: continuing rs
  end.

Definition visible_rows_continuing (g : Grid) : list (Row * bool) := continuing (visible_rows g).

Fixpoint write_rows (ncols : Z) (i : Z) (rs : list (Row * bool)) (wrapping : bool) (p : Pos) (a : Attrs)
    : option (list Item * Pos * Attrs) :=
  match rs with
  | [] => Some ([], p, a)
  | (r, continues) :: rs =>
      let! w := row_write_formatted r 0 ncols i wrapping (Some p) (Some a) in
      let! (out, p, a) := write_rows ncols (i + 1) rs continues (wr_pos w) (wr_attrs w) in
      Some (wr_out w ++ out, p, a)
  end.

(** The column of the character that ends a row. *)
Definition end_pos (g : Grid) (r : Z) : option Pos :=
  let! m := u16_sub (cols (size g)) 1 in
  let! cell := drawing_cell g (mkPos r m) in
  if is_wide_continuation cell then let! m := u16_sub (cols (size g)) 2 in Some (mkPos r m) else Some (mkPos r m).

Definition reach (prev : option Pos) (to : Pos) : option (list Item) :=
  match prev with Some p => move_from_to p to | None => move_to to end.

(** Draws a cell again, and goes back to the attributes before it. *)
Definition redraw (prev : option Pos) (to : Pos) (cell : Cell) (prev_attrs : Attrs) : option (list Item) :=
  let! way := reach prev to in
  let! cs := contents cell in
  Some (way ++ write_escape_code_diff (cell_attrs cell) prev_attrs ++ [IText cs] ++
        write_escape_code_diff prev_attrs (cell_attrs cell)).

(** The nearest row above [n] that ends in a character, from which new lines lead down to
    row [to]. *)
Fixpoint line_above (g : Grid) (prev : option Pos) (prev_attrs : Attrs) (to : Z) (n : nat) : option (option (list Item)) :=
  match n with
  | O => Some None
  | S n =>
      let i := Z.of_nat n in
      let! p := end_pos g i in
      let! cell := drawing_cell g p in
      if has_contents cell then
        let! out :=
          match prev with
          | Some q => if negb (row q =? i) || (col q <? cols (size g)) then redraw prev p cell prev_attrs else Some []
          | None => redraw prev p cell prev_attrs
          end in
        Some (Some (out ++ [IText (replicate (Z.to_nat (to - i)) 10)]))
      else line_above g prev prev_attrs to n
  end.

Definition write_cursor_position_formatted (g : Grid) (prev : option Pos) (prev_attrs : option Attrs) : option (list Item) :=
  let a := default attrs_default prev_attrs in
  if negb (bool_decide (prev = Some (pos g))) && (cols (size g) <=? col (pos g)) then
    let! p := end_pos g (row (pos g)) in
    let! cell := drawing_cell g p in
    if has_contents cell then redraw prev p cell a
    else
      let! above := line_above g prev a (row (pos g)) (Z.to_nat (row (pos g))) in
      match above with
      | Some out => Some out
      | None =>
          let! m := u16_sub (cols (size g)) 1 in
          let p := mkPos (row (pos g)) m in
          let! way := reach prev p in
          let! cell := drawing_cell g p in
          Some (way ++ [IText [32]] ++ write_escape_code_diff (cell_attrs cell) a ++
                [ISaveCursor; IBackspace; IEraseChar 1; IRestoreCursor] ++ write_escape_code_diff a (cell_attrs cell))
      end
  else reach prev (pos g).

Definition grid_write_formatted (g : Grid) : option (list Item * Attrs) :=
  let! (out, p, a) := write_rows (cols (size g)) 0 (visible_rows_continuing g) false pos_default attrs_default in
  let! way := write_cursor_position_formatted g (Some p) (Some a) in
  Some ([IClearAttrs; IClearScreen] ++ out ++ way, a).

(** ** The screen ([screen.rs]) *)

Definition contents_formatted (s : Screen) : option (list Item) :=
  let! (out, a) := grid_write_formatted (cur_grid s) in
  Some ([IHideCursor (mode_on s MODE_HIDE_CURSOR)] ++ out ++ write_escape_code_diff (attrs s) a).

Definition input_mode_formatted (s : Screen) : list Item :=
  [IApplicationKeypad (mode_on s MODE_APPLICATION_KEYPAD); IApplicationCursor (mode_on s MODE_APPLICATION_CURSOR);
   IBracketedPaste (mode_on s MODE_BRACKETED_PASTE); IMouseProtocolMode (mouse_protocol_mode s) MNone;
   IMouseProtocolEncoding (mouse_protocol_encoding s) EDefault].

Definition state_formatted (s : Screen) : option (list Item) :=
  let! out := contents_formatted s in Some (out ++ input_mode_formatted s).

(** [rows_formatted]: the [i]th row shown, on its own. *)
Fixpoint rows_formatted_from (i : Z) (start width ncols : Z) (wrapping : bool) (rs : list (Row * bool)) : option (list (list Item)) :=
  match rs with
  | [] => Some []
  | (r, continues) :: rs =>
      let! w := row_write_formatted r start width i wrapping None None in
      let! outs := rows_formatted_from (i + 1) start width ncols (if (start =? 0) && (width =? ncols) then continues else wrapping) rs in
      Some (wr_out w :: outs)
  end.

Definition rows_formatted (s : Screen) (start width : Z) : option (list (list Item)) :=
  rows_formatted_from 0 start width (cols (size (grid s))) false (visible_rows_continuing (cur_grid s)).

(** ** What a terminal reads

    The tokenizer is the [vte] crate. It reports printed characters, executes control
    characters, and gives a control sequence's parameters as numbers, with one 0 when there
    are none. *)

Definition char_event (c : Z) : vt_event := if c <? 32 then VExecute c else VPrint c.

Definition csi_event (marker : list byte) (ps : list sgr_param) (final : Z) : vt_event :=
  VCsi (if bool_decide (ps = []) then [[0]] else ps) marker final.

Definition mode_event (n : Z) (on : bool) : vt_event := csi_event [63] [[n]] (if on then 104 else 108).

Definition item_events (i : Item) : list vt_event :=
  match i with
  | IText cs => map char_event cs
  | IClearScreen => [csi_event [] [] 72; csi_event [] [] 74]
  | IClearRowForward => [csi_event [] [] 75]
  | ICrlf => [VExecute 13; VExecute 10]
  | IBackspace => [VExecute 8]
  | ISaveCursor => [VEsc [] 55]
  | IRestoreCursor => [VEsc [] 56]
  | IMoveTo r c => if (r =? 1) && (c =? 1) then [csi_event [] [] 72] else [csi_event [] [[r]; [c]] 72]
  | IClearAttrs => [csi_event [] [] 109]
  | IAttrs a => if bool_decide (attrs_params a = []) then [] else [csi_event [] (attrs_params a) 109]
  | IMoveRight n => if n =? 0 then [] else if n =? 1 then [csi_event [] [] 67] else [csi_event [] [[n]] 67]
  | IEraseChar n => if n =? 0 then [] else if n =? 1 then [csi_event [] [] 88] else [csi_event [] [[n]] 88]
  | IHideCursor st => [mode_event 25 (negb st)]
  | IApplicationKeypad st => [VEsc [] (if st then 61 else 62)]
  | IApplicationCursor st => [mode_event 1 st]
  | IBracketedPaste st => [mode_event 2004 st]
  | IMouseProtocolMode m prev =>
      if bool_decide (m = prev) then []
      else match mouse_mode_number m, mouse_mode_number prev with
           | Some n, _ => [mode_event n true]
           | None, Some n => [mode_event n false]
           | None, None => []
           end
  | IMouseProtocolEncoding e prev =>
      if bool_decide (e = prev) then []
      else match mouse_encoding_number e, mouse_encoding_number prev with
           | Some n, _ => [mode_event n true]
           | None, Some n => [mode_event n false]
           | None, None => []
           end
  end.

Definition buf_events (out : list Item) : list vt_event := flat_map item_events out.
