(* ===== verification/VtRenderPen.v ===== *)
(** * Attribute differences are exact

    Writing the difference between two sets of attributes and reading it back as a graphic
    rendition turns one into the other. *)

From S2P Require Import Prelude TermQuery VtCell VtRow VtGrid VtGridInv VtScreen VtRender.

(** ** Flags as bits *)

Lemma get_flag_testbit i a : 0 ≤ i → get_flag (2 ^ i) a = Z.testbit (mode a) i.
Proof.
  intros Hi. unfold get_flag. destruct (Z.eqb_spec (Z.land (mode a) (2 ^ i)) 0) as [E|E]; simpl.
  - assert (Hb : Z.testbit (Z.land (mode a) (2 ^ i)) i = false) by (by rewrite E, Z.bits_0).
    rewrite Z.land_spec, Z.pow2_bits_true, andb_true_r in Hb by done. done.
  - destruct (Z.testbit (mode a) i) eqn:Hb; [done|]. exfalso. apply E, Z.bits_inj'. intros n Hn.
    rewrite Z.land_spec, Z.bits_0, Z.pow2_bits_eqb by done. destruct (Z.eqb_spec i n); [subst|]; by rewrite ?Hb, ?andb_false_r.
Qed.

Lemma low_bits m : 0 ≤ m < 512 → ∀ k, 9 ≤ k → Z.testbit m k = false.
Proof. intros Hm k Hk. destruct (decide (m = 0)) as [->|]; [apply Z.bits_0|]. apply Z.bits_above_log2; [lia|]. apply Z.log2_lt_pow2; [lia|].
  pose proof (Z.pow_le_mono_r 2 9 k). lia.
Qed.

Lemma mode_ext m m' :
  0 ≤ m < 512 → 0 ≤ m' < 512 → Forall (λ k, Z.testbit m k = Z.testbit m' k) [0; 1; 2; 3; 4; 5; 6; 7; 8] → m = m'.
Proof.
  intros Hm Hm' Hk. rewrite !Forall_cons in Hk. destruct Hk as (H0 & H1 & H2 & H3 & H4 & H5 & H6 & H7 & H8 & _).
  apply Z.bits_inj'. intros n Hn. destruct (Z.le_gt_cases 9 n); [by rewrite !low_bits|].
  assert (Hc : n = 0 ∨ n = 1 ∨ n = 2 ∨ n = 3 ∨ n = 4 ∨ n = 5 ∨ n = 6 ∨ n = 7 ∨ n = 8) by lia.
  destruct Hc as [->|[->|[->|[->|[->|[->|[->|[->| ->]]]]]]]]; done.
Qed.

Lemma land_low m n : 0 ≤ m < 512 → 0 ≤ n → 0 ≤ Z.land m n < 512.
Proof.
  intros Hm Hn. assert (0 ≤ Z.land m n) by (apply Z.land_nonneg; lia). split; [done|].
  destruct (decide (Z.land m n = 0)) as [->|]; [lia|]. apply Z.log2_lt_cancel. change (Z.log2 512) with 9.
  pose proof (Z.log2_land m n). assert (Z.log2 m < 9) by (destruct (decide (m = 0)) as [->|]; [done|apply Z.log2_lt_pow2; lia]). lia.
Qed.

Lemma lor_low m i : 0 ≤ m < 512 → 0 ≤ i < 9 → 0 ≤ Z.lor m (2 ^ i) < 512.
Proof.
  intros Hm Hi. assert (0 ≤ Z.lor m (2 ^ i)) by (apply Z.lor_nonneg; lia). split; [done|].
  destruct (decide (Z.lor m (2 ^ i) = 0)) as [->|]; [lia|]. apply Z.log2_lt_cancel. change (Z.log2 512) with 9.
  rewrite Z.log2_lor by lia. rewrite Z.log2_pow2 by lia.
  assert (Z.log2 m < 9) by (destruct (decide (m = 0)) as [->|]; [done|apply Z.log2_lt_pow2; lia]). lia.
Qed.

Lemma u16_complement i k : 0 ≤ i < 16 → 0 ≤ k < 16 → Z.testbit (u16_max - 2 ^ i) k = negb (i =? k).
Proof.
  intros Hi Hk. replace (u16_max - 2 ^ i) with (Z.ldiff (Z.ones 16) (2 ^ i)).
  - rewrite Z.ldiff_spec, Z.ones_spec_low, Z.pow2_bits_eqb by lia. done.
  - rewrite <- (Z.sub_nocarry_ldiff (Z.ones 16) (2 ^ i)); [by rewrite Z.ones_equiv|].
    apply Z.bits_inj'. intros n Hn. rewrite Z.ldiff_spec, Z.bits_0, Z.pow2_bits_eqb by lia.
    destruct (Z.eqb_spec i n) as [<-|]; [|done]. by rewrite Z.ones_spec_low by lia.
Qed.

(** The flags after a setter. *)
Lemma set_flag_bit i a on k :
  0 ≤ i < 9 → 0 ≤ k < 9 → Z.testbit (mode (set_flag (2 ^ i) a on)) k = if i =? k then on else Z.testbit (mode a) k.
Proof.
  intros Hi Hk. unfold set_flag. simpl. destruct on.
  - rewrite Z.lor_spec, Z.pow2_bits_eqb by lia. destruct (i =? k); by rewrite ?orb_true_r, ?orb_false_r.
  - rewrite Z.land_spec, u16_complement by lia. destruct (i =? k); by rewrite ?andb_false_r, ?andb_true_r.
Qed.

Lemma set_flag_low i a on : 0 ≤ i < 9 → 0 ≤ mode a < 512 → 0 ≤ mode (set_flag (2 ^ i) a on) < 512.
Proof.
  intros Hi Ha. unfold set_flag. simpl. destruct on; [by apply lor_low|]. apply land_low; [done|].
  pose proof (Z.pow_le_mono_r 2 i 9). change (2 ^ 9) with 512 in *. unfold u16_max. lia.
Qed.

(** ** Attributes a screen can have *)

Definition color_ok (c : Color) : Prop :=
  match c with
  | CDefault => True
  | CIdx i => 0 ≤ i ≤ u8_max
  | CRgb r g b => 0 ≤ r ≤ u8_max ∧ 0 ≤ g ≤ u8_max ∧ 0 ≤ b ≤ u8_max
  end.

Record attrs_ok (a : Attrs) : Prop := {
  ao_fg : color_ok (fgcolor a);
  ao_bg : color_ok (bgcolor a);
  ao_ul : color_ok (ulcolor a);
  ao_mode : 0 ≤ mode a < 512;
  ao_style : get_flag TEXT_MODE_UNDERLINE a = false → underline_style a = USingle;
}.

Lemma attrs_default_ok : attrs_ok attrs_default.
Proof. by split. Qed.

Lemma attrs_ok_bare a : attrs_ok a → attrs_ok (sgr_bare a).
Proof. by intros []. Qed.

(** ** Reading parameters *)

Lemma next_value_shorter ps n ps' : next_value ps = Some (n, ps') → (length ps' < length ps)%nat.
Proof. intros H. destruct ps as [|[|x [|]] ps]; try done. injection H as <- <-. simpl. lia. Qed.

Lemma extended_color_shorter h ps c ps' : extended_color h ps = Some (c, ps') → (length ps' ≤ length ps)%nat.
Proof.
  assert (Hsemi : ∀ o : option (Color * list (list Z)),
    o = (let! (sel, ps) := next_value ps in
      if sel =? 5 then let! (n, ps) := next_value ps in let! n := byte_of n in Some (CIdx n, ps)
      else if sel =? 2 then
        let! (r, ps) := next_value ps in let! r := byte_of r in
        let! (g, ps) := next_value ps in let! g := byte_of g in
        let! (b, ps) := next_value ps in let! b := byte_of b in Some (CRgb r g b, ps)
      else None) → o = Some (c, ps') → (length ps' ≤ length ps)%nat).
  { intros o -> H. destruct (next_value ps) as [[sel q]|] eqn:E0; [|done]. apply next_value_shorter in E0.
    destruct (sel =? 5).
    - destruct (next_value q) as [[n q1]|] eqn:E1; [|done]. apply next_value_shorter in E1.
      destruct (byte_of n); [|done]. injection H as _ <-. lia.
    - destruct (sel =? 2); [|done].
      destruct (next_value q) as [[n q1]|] eqn:E1; [|done]. apply next_value_shorter in E1. destruct (byte_of n); [|done].
      destruct (next_value q1) as [[n2 q2]|] eqn:E2; [|done]. apply next_value_shorter in E2. destruct (byte_of n2); [|done].
      destruct (next_value q2) as [[n3 q3]|] eqn:E3; [|done]. apply next_value_shorter in E3. destruct (byte_of n3); [|done].
      injection H as _ <-. lia. }
  intros H. destruct h as [|x [|y tl]]; [by apply (Hsemi _ eq_refl)|by apply (Hsemi _ eq_refl)|].
  unfold extended_color in H. match type of H with match ?o with _ => _ end = _ => destruct o; [|done] end. injection H as _ <-. lia.
Qed.

(** Fuel past the number of parameters makes no difference. *)
Lemma sgr_loop_fuel ps : ∀ f f' a, (length ps ≤ f)%nat → (length ps ≤ f')%nat → sgr_loop f ps a = sgr_loop f' ps a.
Proof.
  induction ps as [ps IH] using (induction_ltof1 _ length). unfold ltof in IH. intros f f' a Hf Hf'.
  destruct ps as [|p ps]; [by destruct f, f'|]. destruct f as [|f]; [simpl in Hf; lia|]. destruct f' as [|f']; [simpl in Hf'; lia|].
  simpl in Hf, Hf'. cbn [sgr_loop].
  assert (Hrec : ∀ b, sgr_loop f ps b = sgr_loop f' ps b) by (intros b; apply IH; simpl; lia).
  destruct p as [|n tl]; [apply Hrec|]. destruct ((n =? 38) || (n =? 48) || (n =? 58)).
  - destruct (extended_color (n :: tl) ps) as [[c ps']|] eqn:E; [|done]. apply extended_color_shorter in E. apply IH; simpl; lia.
  - destruct tl as [|m [|]]; apply Hrec.
Qed.

Definition sgr_all (ps : list (list Z)) (a : Attrs) : Attrs := sgr_loop (length ps) ps a.

(** [ps] has the effect of [f], whatever follows. *)
Definition sets (ps : list (list Z)) (f : Attrs → Attrs) : Prop := ∀ rest a, sgr_all (ps ++ rest) a = sgr_all rest (f a).

Lemma sets_nil : sets [] id.
Proof. done. Qed.

Lemma sets_app ps qs f g : sets ps f → sets qs g → sets (ps ++ qs) (λ a, g (f a)).
Proof. intros Hf Hg rest a. by rewrite <- app_assoc, Hf, Hg. Qed.

Lemma sets_value n : n ≠ 38 → n ≠ 48 → n ≠ 58 → sets [[n]] (sgr_value n).
Proof.
  intros H1 H2 H3 rest a. unfold sgr_all. cbn [app length sgr_loop].
  by rewrite !(proj2 (Z.eqb_neq _ _)) by done.
Qed.

Lemma sets_underline m : sets [[4; m]] (sgr_underline m).
Proof. done. Qed.

Lemma sets_opt {A} (F : A → list (list Z)) (f : A → Attrs → Attrs) o :
  (∀ x, o = Some x → sets (F x) (f x)) → sets (opt_params F o) (λ a, match o with Some x => f x a | None => a end).
Proof. destruct o as [x|]; intros H; [by apply H|apply sets_nil]. Qed.

Lemma sets_ext ps f g : sets ps f → (∀ a, f a = g a) → sets ps g.
Proof. intros Hf Hfg rest a. by rewrite Hf, Hfg. Qed.

Lemma sgr_loop_color fuel n ps a c ps' :
  (n = 38 ∨ n = 48 ∨ n = 58) → extended_color [n] ps = Some (c, ps') →
  sgr_loop (S fuel) ([n] :: ps) a =
    sgr_loop fuel ps' ((if n =? 38 then with_fg else if n =? 48 then with_bg else with_ul) a c).
Proof. intros Hn E. cbn [sgr_loop]. rewrite E. by destruct Hn as [->|[->| ->]]. Qed.

Lemma sets_color c dflt lo hi ext put :
  color_ok c → (ext = 38 ∨ ext = 48 ∨ ext = 58) →
  put = (if ext =? 38 then with_fg else if ext =? 48 then with_bg else with_ul) →
  sets [[dflt]] (λ a, put a CDefault) →
  (lo ≠ 0 → ∀ i, 0 ≤ i < 8 → sets [[i + lo]] (λ a, put a (CIdx i))) →
  (lo ≠ 0 → ∀ i, 8 ≤ i < 16 → sets [[i + hi]] (λ a, put a (CIdx i))) →
  sets (color_params c dflt lo hi ext) (λ a, put a c).
Proof.
  intros Hc He Hp Hd Hlo Hhi. destruct c as [|i|r g b]; simpl in Hc; [done|..]; unfold color_params.
  - destruct (Z.eqb_spec lo 0) as [E0|E0]; cbn [negb andb];
      [|destruct (Z.ltb_spec i 8); [apply Hlo; [done|lia]|]; destruct (Z.ltb_spec i 16); [apply Hhi; [done|lia]|]].
    all: intros rest a; unfold sgr_all; cbn [app length]; rewrite (sgr_loop_color _ _ _ _ (CIdx i) rest He).
    all: try (by rewrite Hp; apply sgr_loop_fuel; lia).
    all: cbn [extended_color next_value]; simpl (5 =? 5); cbv beta iota; unfold byte_of; by rewrite (proj2 (Z.leb_le _ _)) by lia.
  - intros rest a. unfold sgr_all. cbn [app length]. rewrite (sgr_loop_color _ _ _ _ (CRgb r g b) rest He).
    { rewrite Hp. apply sgr_loop_fuel; lia. }
    cbn [extended_color next_value]. simpl (2 =? 5). simpl (2 =? 2). cbv beta iota. unfold byte_of.
    by rewrite !(proj2 (Z.leb_le _ _)) by lia.
Qed.

(** What the parameters of a difference do, field by field. *)
Definition apply_field {A} (f : Attrs → A → Attrs) (o : option A) (a : Attrs) : Attrs :=
  match o with Some x => f a x | None => a end.

Definition set_intensity (a : Attrs) (bd : bool * bool) : Attrs :=
  let a := set_normal_intensity a in
  let a := if fst bd then set_flag TEXT_MODE_BOLD a true else a in
  if snd bd then set_flag TEXT_MODE_DIM a true else a.

Definition apply_attrs (d : TermAttrs) (a : Attrs) : Attrs :=
  let a := apply_field with_fg (ta_fgcolor d) a in
  let a := apply_field with_bg (ta_bgcolor d) a in
  let a := apply_field with_ul (ta_ulcolor d) a in
  let a := apply_field set_intensity (ta_intensity d) a in
  let a := apply_field (set_flag TEXT_MODE_ITALIC) (ta_italic d) a in
  let a := apply_field set_underline (ta_underline d) a in
  let a := apply_field (set_flag TEXT_MODE_INVERSE) (ta_inverse d) a in
  let a := apply_field (set_flag TEXT_MODE_STRIKETHROUGH) (ta_strikethrough d) a in
  let a := apply_field (set_flag TEXT_MODE_BLINK) (ta_blink d) a in
  let a := apply_field (set_flag TEXT_MODE_CONCEAL) (ta_conceal d) a in
  apply_field (set_flag TEXT_MODE_OVERLINE) (ta_overline d) a.

Definition diff_ok (d : TermAttrs) : Prop :=
  (∀ c, ta_fgcolor d = Some c → color_ok c) ∧ (∀ c, ta_bgcolor d = Some c → color_ok c) ∧
  (∀ c, ta_ulcolor d = Some c → color_ok c).

Lemma sets_fg c : color_ok c → sets (color_params c 39 30 82 38) (λ a, with_fg a c).
Proof.
  intros Hc. apply (sets_color _ _ _ _ _ with_fg); auto; [by apply sets_value|..]; intros _ i Hi.
  - assert (i = 0 ∨ i = 1 ∨ i = 2 ∨ i = 3 ∨ i = 4 ∨ i = 5 ∨ i = 6 ∨ i = 7) as H by lia. by destruct_or! H; subst i.
  - assert (i = 8 ∨ i = 9 ∨ i = 10 ∨ i = 11 ∨ i = 12 ∨ i = 13 ∨ i = 14 ∨ i = 15) as H by lia. by destruct_or! H; subst i.
Qed.

Lemma sets_bg c : color_ok c → sets (color_params c 49 40 92 48) (λ a, with_bg a c).
Proof.
  intros Hc. apply (sets_color _ _ _ _ _ with_bg); auto; [by apply sets_value|..]; intros _ i Hi.
  - assert (i = 0 ∨ i = 1 ∨ i = 2 ∨ i = 3 ∨ i = 4 ∨ i = 5 ∨ i = 6 ∨ i = 7) as H by lia. by destruct_or! H; subst i.
  - assert (i = 8 ∨ i = 9 ∨ i = 10 ∨ i = 11 ∨ i = 12 ∨ i = 13 ∨ i = 14 ∨ i = 15) as H by lia. by destruct_or! H; subst i.
Qed.

Lemma sets_ul c : color_ok c → sets (color_params c 59 0 0 58) (λ a, with_ul a c).
Proof. intros Hc. apply (sets_color _ _ _ _ _ with_ul); auto; [by apply sets_value|..]; by intros []. Qed.

Lemma sets_on_off on off bit b :
  sets [[on]] (λ a, set_flag bit a true) → sets [[off]] (λ a, set_flag bit a false) → sets (on_off on off b) (λ a, set_flag bit a b).
Proof. by destruct b. Qed.

Lemma sets_intensity bd : sets ([[22]] ++ (if fst bd : bool then [[1]] else []) ++ (if snd bd : bool then [[2]] else [])) (λ a, set_intensity a bd).
Proof. by destruct bd as [[] []]. Qed.

Lemma sets_style u : sets [underline_param u] (λ a, set_underline a u).
Proof. by destruct u as [[]|]. Qed.

Lemma sets_attrs d : diff_ok d → sets (attrs_params d) (apply_attrs d).
Proof.
  intros (Hf & Hb & Hu). unfold attrs_params.
  assert (Hfg : sets (opt_params (λ c, color_params c 39 30 82 38) (ta_fgcolor d)) (apply_field with_fg (ta_fgcolor d)))
    by (apply (sets_opt _ (λ c a, with_fg a c)); auto using sets_fg).
  assert (Hbg : sets (opt_params (λ c, color_params c 49 40 92 48) (ta_bgcolor d)) (apply_field with_bg (ta_bgcolor d)))
    by (apply (sets_opt _ (λ c a, with_bg a c)); auto using sets_bg).
  assert (Hul : sets (opt_params (λ c, color_params c 59 0 0 58) (ta_ulcolor d)) (apply_field with_ul (ta_ulcolor d)))
    by (apply (sets_opt _ (λ c a, with_ul a c)); auto using sets_ul).
  assert (Hit : sets (opt_params (λ '(bold, dim), [[22]] ++ (if bold : bool then [[1]] else []) ++ (if dim : bool then [[2]] else [])) (ta_intensity d))
    (apply_field set_intensity (ta_intensity d))).
  { apply (sets_opt _ (λ bd a, set_intensity a bd)). intros [b dm] _. apply (sets_intensity (b, dm)). }
  assert (Hst : sets (opt_params (λ u, [underline_param u]) (ta_underline d)) (apply_field set_underline (ta_underline d)))
    by (apply (sets_opt _ (λ u a, set_underline a u)); auto using sets_style).
  assert (Hflag : ∀ on off bit o, sets [[on]] (λ a, set_flag bit a true) → sets [[off]] (λ a, set_flag bit a false) →
    sets (opt_params (on_off on off) o) (apply_field (set_flag bit) o)).
  { intros on off bit o H1 H2. apply (sets_opt _ (λ b a, set_flag bit a b)). auto using sets_on_off. }
  intros rest a. rewrite <- !app_assoc. rewrite Hfg, Hbg, Hul, Hit. rewrite (Hflag 3 23 TEXT_MODE_ITALIC) by done. rewrite Hst.
  rewrite (Hflag 7 27 TEXT_MODE_INVERSE) by done. rewrite (Hflag 9 29 TEXT_MODE_STRIKETHROUGH) by done.
  rewrite (Hflag 5 25 TEXT_MODE_BLINK) by done. rewrite (Hflag 8 28 TEXT_MODE_CONCEAL) by done.
  by rewrite (Hflag 53 55 TEXT_MODE_OVERLINE) by done.
Qed.

(** ** The difference is exact *)

(** The flags after a field of a difference was applied. *)
Lemma flag_field_bit i self other a k :
  0 ≤ i < 9 → 0 ≤ k < 9 → Z.testbit (mode a) i = Z.testbit (mode other) i →
  Z.testbit (mode (apply_field (set_flag (2 ^ i)) (changed (get_flag (2 ^ i)) self other) a)) k =
    if i =? k then Z.testbit (mode self) i else Z.testbit (mode a) k.
Proof.
  intros Hi Hk Ha. unfold changed. rewrite !get_flag_testbit by lia. case_bool_decide as E; cbn [apply_field].
  - destruct (Z.eqb_spec i k) as [<-|]; [|done]. congruence.
  - by rewrite set_flag_bit by lia.
Qed.

Lemma flag_field_low i o a : 0 ≤ i < 9 → 0 ≤ mode a < 512 → 0 ≤ mode (apply_field (set_flag (2 ^ i)) o a) < 512.
Proof. intros Hi Ha. destruct o; [by apply set_flag_low|done]. Qed.

(** Everything but the flags. *)
Definition no_mode (a : Attrs) := (fgcolor a, bgcolor a, ulcolor a, underline_style a, hyperlink a).

Lemma flag_field_rest bit o a : no_mode (apply_field (set_flag bit) o a) = no_mode a.
Proof. by destruct o. Qed.

Lemma intensity_bits bd a k :
  0 ≤ k < 9 → 0 ≤ mode a < 512 →
  Z.testbit (mode (set_intensity a bd)) k = (if k =? 0 then fst bd else if k =? 1 then snd bd else Z.testbit (mode a) k) ∧
  0 ≤ mode (set_intensity a bd) < 512 ∧ no_mode (set_intensity a bd) = no_mode a.
Proof.
  intros Hk Ha. unfold set_intensity.
  assert (Hn : Z.testbit (mode (set_normal_intensity a)) k = if (k =? 0) || (k =? 1) then false else Z.testbit (mode a) k).
  { unfold set_normal_intensity. simpl. rewrite Z.land_spec. change (u16_max - 3) with 65532.
    assert (H : k = 0 ∨ k = 1 ∨ k = 2 ∨ k = 3 ∨ k = 4 ∨ k = 5 ∨ k = 6 ∨ k = 7 ∨ k = 8) by lia.
    destruct_or! H; subst k; simpl; by rewrite ?andb_false_r, ?andb_true_r. }
  assert (Hl : 0 ≤ mode (set_normal_intensity a) < 512) by (by apply land_low).
  change TEXT_MODE_BOLD with (2 ^ 0). change TEXT_MODE_DIM with (2 ^ 1).
  destruct bd as [b dm]; cbn [fst snd]; destruct b, dm;
    rewrite ?set_flag_bit, ?Hn by lia; (split; [|split; [repeat apply set_flag_low; lia|done]]);
    assert (H : k = 0 ∨ k = 1 ∨ k = 2 ∨ k = 3 ∨ k = 4 ∨ k = 5 ∨ k = 6 ∨ k = 7 ∨ k = 8) by lia; by destruct_or! H; subst k.
Qed.

Lemma underline_bits u a k :
  0 ≤ k < 9 → 0 ≤ mode a < 512 →
  Z.testbit (mode (set_underline a u)) k = (if 3 =? k then bool_decide (u ≠ None) else Z.testbit (mode a) k) ∧
  0 ≤ mode (set_underline a u) < 512.
Proof.
  intros Hk Ha. change (mode (set_underline a u)) with (mode (match u with Some st => mkAttrs (fgcolor a) (bgcolor a) (ulcolor a)
    (Z.lor (mode a) TEXT_MODE_UNDERLINE) st (hyperlink a) | None => mkAttrs (fgcolor a) (bgcolor a) (ulcolor a)
    (Z.land (mode a) (u16_max - TEXT_MODE_UNDERLINE)) USingle (hyperlink a) end)).
  destruct u as [st|]; cbn [mode].
  - split; [apply (set_flag_bit 3 a true k); lia|apply (set_flag_low 3 a true); lia].
  - split; [apply (set_flag_bit 3 a false k); lia|apply (set_flag_low 3 a false); lia].
Qed.

(** The flags in [upto] are those of [self], the others still those of [other]. *)
Definition synced (self other : Attrs) (upto : list Z) (a : Attrs) : Prop :=
  0 ≤ mode a < 512 ∧
  ∀ k, 0 ≤ k < 9 → Z.testbit (mode a) k = if bool_decide (k ∈ upto) then Z.testbit (mode self) k else Z.testbit (mode other) k.

Lemma synced_flag self other upto i a :
  0 ≤ i < 9 → i ∉ upto → synced self other upto a →
  synced self other (i :: upto) (apply_field (set_flag (2 ^ i)) (changed (get_flag (2 ^ i)) self other) a).
Proof.
  intros Hi Hn [Hl Hb]. split; [by apply flag_field_low|]. intros k Hk. rewrite flag_field_bit; [|done|done|].
  - rewrite Hb by done. destruct (Z.eqb_spec i k) as [<-|Hne]; [by rewrite (bool_decide_true (i ∈ i :: upto)) by left|].
    assert (Hiff : k ∈ i :: upto ↔ k ∈ upto) by (rewrite elem_of_cons; naive_solver).
    by rewrite (bool_decide_ext _ _ Hiff).
  - rewrite Hb by done. by rewrite bool_decide_false.
Qed.

Lemma synced_intensity self other a :
  synced self other [] a → synced self other [0; 1] (apply_field set_intensity
    (changed (λ a, (get_flag TEXT_MODE_BOLD a, get_flag TEXT_MODE_DIM a)) self other) a).
Proof.
  intros [Hl Hb]. unfold changed. change TEXT_MODE_BOLD with (2 ^ 0). change TEXT_MODE_DIM with (2 ^ 1).
  rewrite !get_flag_testbit by lia. case_bool_decide as E; cbn [apply_field].
  - injection E as E0 E1. split; [done|]. intros k Hk. rewrite Hb by done.
    case_bool_decide as Hin; [exfalso; set_solver|]. case_bool_decide as Hk2; [|done].
    apply elem_of_cons in Hk2 as [->|[->|[]%elem_of_nil]%elem_of_cons]; done.
  - split; [by apply (intensity_bits _ a 0)|]. intros k Hk.
    destruct (intensity_bits (Z.testbit (mode self) 0, Z.testbit (mode self) 1) a k Hk Hl) as [-> _]. cbn [fst snd].
    rewrite Hb by done. rewrite (bool_decide_false (k ∈ [])) by set_solver.
    destruct (Z.eqb_spec k 0) as [->|]; [done|]. destruct (Z.eqb_spec k 1) as [->|]; [done|].
    rewrite bool_decide_false; [done|]. set_solver.
Qed.

Lemma synced_underline self other upto a :
  3 ∉ upto → synced self other upto a → synced self other (3 :: upto) (apply_field set_underline (ta_underline (attrs_diff self other)) a).
Proof.
  intros Hn [Hl Hb]. unfold attrs_diff. cbn [ta_underline]. change TEXT_MODE_UNDERLINE with (2 ^ 3). rewrite !get_flag_testbit by lia.
  destruct (negb (eqb (Z.testbit (mode self) 3) (Z.testbit (mode other) 3)) || _) eqn:E; cbn [apply_field].
  - split; [by apply (underline_bits _ a 0)|]. intros k Hk.
    destruct (underline_bits (if Z.testbit (mode self) 3 then Some (underline_style self) else None) a k Hk Hl) as [-> _].
    rewrite Hb by done. destruct (Z.eqb_spec 3 k) as [<-|Hne].
    + rewrite (bool_decide_true (3 ∈ 3 :: upto)) by left. by destruct (Z.testbit (mode self) 3).
    + assert (Hiff : k ∈ 3 :: upto ↔ k ∈ upto) by (rewrite elem_of_cons; naive_solver).
      by rewrite (bool_decide_ext _ _ Hiff).
  - apply orb_false_iff in E as [E _]. apply negb_false_iff, eqb_prop in E. split; [done|]. intros k Hk. rewrite Hb by done.
    destruct (decide (k = 3)) as [->|Hne].
    + rewrite (bool_decide_true (3 ∈ 3 :: upto)) by left. by rewrite bool_decide_false.
    + assert (Hiff : k ∈ 3 :: upto ↔ k ∈ upto) by (rewrite elem_of_cons; naive_solver).
      by rewrite (bool_decide_ext _ _ Hiff).
Qed.

Lemma changed_field {A} `{EqDecision A} (f : Attrs → A) (put : Attrs → A → Attrs) self other a :
  (∀ x, f (put a x) = x) → f a = f other → f (apply_field put (changed f self other) a) = f self.
Proof. intros Hput Ha. unfold changed. case_bool_decide as E; cbn [apply_field]; [congruence|apply Hput]. Qed.

(** The fields other than the flags. *)
Lemma apply_diff_rest self other :
  attrs_ok self → attrs_ok other → no_mode (apply_attrs (attrs_diff self other) (sgr_bare other)) = no_mode (sgr_bare self).
Proof.
  intros Hs Ho. unfold apply_attrs. cbv zeta. rewrite !flag_field_rest.
  set (a2 := apply_field with_ul _ _).
  assert (E2 : no_mode a2 = (fgcolor self, bgcolor self, ulcolor self, underline_style other, 0)).
  { unfold a2, attrs_diff. cbn [ta_fgcolor ta_bgcolor ta_ulcolor]. unfold changed.
    repeat case_bool_decide; unfold no_mode; cbn; congruence. }
  clearbody a2. set (a4 := apply_field (set_flag TEXT_MODE_ITALIC) _ _).
  assert (E4 : no_mode a4 = no_mode a2).
  { unfold a4. rewrite flag_field_rest. unfold attrs_diff. cbn [ta_intensity].
    destruct (changed _ self other) as [bd|]; [|done]. cbn [apply_field]. destruct bd as [[] []]; done. }
  clearbody a4. rewrite E2 in E4. injection E4 as F1 F2 F3 F4 F5.
  unfold attrs_diff. cbn [ta_underline].
  destruct (get_flag TEXT_MODE_UNDERLINE self) eqn:U; destruct (get_flag TEXT_MODE_UNDERLINE other) eqn:V; cbn [eqb negb orb andb];
    [case_bool_decide as E|..]; cbn [apply_field]; unfold no_mode; cbn; rewrite ?F1, ?F2, ?F3, ?F4, ?F5; try done.
  - by rewrite E.
  - by rewrite (ao_style _ Hs U).
  - by rewrite (ao_style _ Hs U), (ao_style _ Ho V).
Qed.

Lemma apply_diff self other :
  attrs_ok self → attrs_ok other → apply_attrs (attrs_diff self other) (sgr_bare other) = sgr_bare self.
Proof.
  intros Hs Ho. pose proof (apply_diff_rest self other Hs Ho) as Hr.
  assert (Hy : synced self other [8; 7; 6; 5; 4; 3; 2; 0; 1] (apply_attrs (attrs_diff self other) (sgr_bare other))).
  { unfold apply_attrs. cbv zeta.
    repeat (match goal with |- synced _ _ (?i :: _) (apply_field (set_flag _) _ _) => apply (synced_flag self other _ i); [lia|by apply (bool_decide_unpack _)|] end).
    apply synced_underline; [by apply (bool_decide_unpack _)|].
    apply (synced_flag self other _ 2); [lia|by apply (bool_decide_unpack _)|]. apply synced_intensity.
    assert (Hm : ∀ a, mode a = mode other → synced self other [] a).
    { intros a E. split; [rewrite E; apply (ao_mode _ Ho)|]. intros k Hk. by rewrite E, bool_decide_false by set_solver. }
    apply Hm. unfold attrs_diff. cbn [ta_fgcolor ta_bgcolor ta_ulcolor].
    by destruct (changed ulcolor self other), (changed bgcolor self other), (changed fgcolor self other). }
  destruct Hy as [Hl Hb]. set (r := apply_attrs _ _) in *.
  assert (Hm : mode r = mode self).
  { apply mode_ext; [done|apply (ao_mode _ Hs)|]. repeat apply Forall_cons_2; [..|done]; (rewrite Hb by lia; reflexivity). }
  clearbody r. destruct r, self. unfold no_mode in Hr. cbn in *. injection Hr as -> -> -> -> ->. by rewrite Hm.
Qed.

Lemma diff_ok_diff self other : attrs_ok self → diff_ok (attrs_diff self other).
Proof.
  intros [Hf Hb Hu _ _]. unfold diff_ok, attrs_diff, changed. cbn.
  split; [|split]; intros c; case_bool_decide; intros E; by inversion E; subst.
Qed.
