(* ===== verification/VtPaint.v ===== *)
(** * Painting a screen

    What the sequences of [VtRender] do to a terminal in its ordinary state, as changes of what
    it shows: every cell's text, kind and attributes, the cursor and the pen. *)

From S2P Require Import Prelude TermQuery VtCell VtRow VtGrid VtGridInv VtScreen VtDraw VtScreenProps VtRender VtRenderPen.

(** ** What is shown *)

(** A cell as it is seen: text, halves of a wide character, attributes (without the link). *)
Abbreviation View := (option (list Z) * bool * bool * Attrs)%type (only parsing).

Definition view (c : Cell) : View := (contents c, is_wide c, is_wide_continuation c, sgr_bare (cell_attrs c)).
Definition rview (r : Row) : list View * bool := (map view (cells r), wrapped r).

Definition blank_view (a : Attrs) : View := (Some [], false, false, a).
Definition text_view (cs : list Z) (wide : bool) (a : Attrs) : View := (Some cs, wide, false, a).
Definition half_view (a : Attrs) : View := (Some [], false, true, a).

Definition plain_view (v : View) : Prop := v.1.1.2 = false ∧ v.1.2 = false.

(** ** A terminal in its ordinary state *)

(** What the application asked for of the keyboard, the mouse and the cursor. *)
Definition input_state (t : Screen) := (modes t, mouse_protocol_mode t, mouse_protocol_encoding t).

(** What painting never touches: that and the rows scrolled off. *)
Definition back (g : Grid) := (scrollback g, scrollback_len g, scrollback_offset g).
Definition kept (t : Screen) := (input_state t, back (cur_grid t)).
Abbreviation Kept := (Z * MouseProtocolMode * MouseProtocolEncoding * (list Row * Z * Z))%type (only parsing).

Section Painting.
Context (ms : Kept).

Record ready (sz : Size) (t : Screen) : Prop := {
  rd_ok : screen_ok t;
  rd_size : size (cur_grid t) = sz;
  rd_kept : kept t = ms;
  rd_blank : blank_attrs (cur_grid t) = for_erase (attrs t);
  rd_insert : mode_on t MODE_INSERT = false;
  rd_wrap : mode_on t MODE_NO_AUTOWRAP = false;
  rd_newline : mode_on t MODE_NEWLINE = false;
  rd_origin : origin_mode (cur_grid t) = false;
  rd_top : scroll_top (cur_grid t) = 0;
  rd_bottom : scroll_bottom (cur_grid t) = rows sz - 1;
  rd_charset : cs_g (charsets t) !! cs_gl (charsets t) = Some Ascii;
  rd_shift : cs_single_shift (charsets t) = None;
}.

Record canvas (sz : Size) (rvs : list (list View * bool)) (p : Pos) (a : Attrs) (t : Screen) : Prop := {
  cv_ready : ready sz t;
  cv_rows : map rview (g_rows (cur_grid t)) = rvs;
  cv_pos : pos (cur_grid t) = p;
  cv_pen : attrs t = a;
}.

(** What [ready] asks of a grid. *)
Definition grid_frame (g : Grid) := (size g, origin_mode g, scroll_top g, scroll_bottom g, back g).
Definition grid_kept (g : Grid) := (grid_frame g, blank_attrs g).

Lemma cur_of_set_cur t g : cur_grid (set_cur t g) = g.
Proof. unfold cur_grid, set_cur. destruct (mode_on t _) eqn:E; unfold mode_on in *; simpl; by rewrite E. Qed.

Lemma ready_step sz t t' :
  ready sz t → screen_ok t' → input_state t' = input_state t → charsets t' = charsets t →
  grid_frame (cur_grid t') = grid_frame (cur_grid t) → blank_attrs (cur_grid t') = for_erase (attrs t') → ready sz t'.
Proof.
  intros [H1 H2 Hi Hbl H3 H4 H5 H6 H7 H8 H9 H10] Hok Hm Hc Hf Hb. unfold grid_frame in Hf.
  assert (Hk : kept t' = kept t) by (unfold kept; congruence). injection Hf as E1 E2 E3 E4. unfold mode_on in *.
  pose proof Hm as Hm0. injection Hm0 as Hm1 _ _. split; unfold mode_on; rewrite ?Hm1, ?Hc, ?Hm; congruence.
Qed.

Context `{!UnicodeWidth}.

(** An event that is an operation on the shown grid. *)
Lemma canvas_grid sz rvs p a t ev g' :
  canvas sz rvs p a t → event_ok ev →
  vt_perform t ev = Some (set_cur (break_rep t) g') → grid_kept g' = grid_kept (cur_grid t) →
  ∃ t', vt_perform t ev = Some t' ∧ canvas sz (map rview (g_rows g')) (pos g') a t'.
Proof.
  intros [Hr Hrs Hp Ha] Hev E Hf. destruct (perform_good t ev (rd_ok _ _ Hr) Hev) as (t' & E' & Hok & _).
  rewrite E in E'. injection E' as <-. exists (set_cur (break_rep t) g'). split; [done|].
  split; [|by rewrite cur_of_set_cur..|].
  - pose proof (f_equal snd Hf) as Hb. apply (f_equal fst) in Hf. cbn [fst snd grid_kept] in Hf, Hb. eapply ready_step; [done|done|..]; rewrite ?cur_of_set_cur; [..|done|]; unfold set_cur; try by destruct (mode_on _ _).
    rewrite Hb, (rd_blank _ _ Hr). by destruct (mode_on _ _).
  - rewrite <- Ha. unfold set_cur. by destruct (mode_on _ _).
Qed.

Lemma cur_break_rep t : cur_grid (break_rep t) = cur_grid t.
Proof. done. Qed.

Lemma canvas_ok sz rvs p a t :
  canvas sz rvs p a t → grid_ok (cur_grid t) ∧ 1 ≤ rows sz ≤ u16_max ∧ 1 ≤ cols sz < u16_max ∧ 0 ≤ row p < rows sz ∧ 0 ≤ col p ≤ cols sz.
Proof.
  intros [Hr _ <- _]. destruct (cur_ok _ (rd_ok _ _ Hr)) as [Hg _]. rewrite <- (rd_size _ _ Hr).
  split; [done|]. split; [apply Hg|]. split; [apply Hg|]. split; apply Hg.
Qed.

(** *** Moving *)

Lemma col_clamp_in g : grid_ok g → col (pos g) < cols (size g) → col_clamp g = Some g.
Proof.
  intros Hg Hc. pose proof (go_cols _ Hg). unfold col_clamp. rewrite u16_sub_ok by lia. by rewrite (proj2 (Z.ltb_ge _ _)) by lia.
Qed.

Lemma set_pos_in g p :
  grid_ok g → origin_mode g = false → 0 ≤ row p < rows (size g) → 0 ≤ col p < cols (size g) → set_pos g p = Some (with_pos g p).
Proof.
  intros Hg Ho Hr Hc. unfold set_pos. rewrite Ho. cbv zeta. change (origin_mode (with_pos g p)) with (origin_mode g). rewrite Ho.
  unfold row_clamp_top. cbn [andb]. unfold row_clamp_bottom. cbn [size with_pos pos]. rewrite u16_sub_ok by lia. change (origin_mode (with_pos g p)) with (origin_mode g). rewrite Ho. cbv beta iota. cbn [pos with_pos].
  rewrite (proj2 (Z.ltb_ge _ _)) by lia. apply col_clamp_in; [apply ok_pos; [done|done|lia]|apply Hc].
Qed.

Lemma canon_value n ps d : n ≠ 0 → canonicalize_params_1 ([n] :: ps) d = n.
Proof. intros Hn. unfold canonicalize_params_1. cbn. by rewrite (proj2 (Z.eqb_neq _ _)). Qed.

Lemma cup_spec sz rvs p a t q :
  canvas sz rvs p a t → 0 ≤ row q < rows sz → 0 ≤ col q < cols sz →
  ∃ t', vt_perform t (VCsi [[row q + 1]; [col q + 1]] [] 72) = Some t' ∧ canvas sz rvs q a t'.
Proof.
  intros Hcv Hr Hc. destruct (canvas_ok _ _ _ _ _ Hcv) as (Hg & Hrs & Hcs & _). pose proof (cv_ready _ _ _ _ _ Hcv) as Hrd.
  destruct (canvas_grid sz rvs p a t (VCsi [[row q + 1]; [col q + 1]] [] 72) (with_pos (cur_grid t) q) Hcv) as (t' & E & Hcv').
  - simpl. unfold params_ok. repeat constructor; unfold is_u16, u16_max in *; lia.
  - cbn [vt_perform]. change (vt_csi_dispatch t [[row q + 1]; [col q + 1]] [] 72) with
      (let '(r, cl) := canonicalize_params_2 [[row q + 1]; [col q + 1]] 1 1 in cup (break_rep t) r cl).
    unfold canonicalize_params_2. cbn [tail]. rewrite !canon_value by lia.
    unfold cup. rewrite !u16_sub_ok by lia. unfold on_grid. rewrite cur_break_rep.
    rewrite !Z.add_simpl_r. replace (mkPos (row q) (col q)) with q by (by destruct q).
    rewrite set_pos_in; [done|done|apply Hrd|by rewrite (rd_size _ _ Hrd)..].
  - done.
  - exists t'. split; [done|]. cbn [g_rows with_pos pos] in Hcv'. by rewrite (cv_rows _ _ _ _ _ Hcv) in Hcv'.
Qed.

Lemma home_spec sz rvs p a t :
  canvas sz rvs p a t → ∃ t', vt_perform t (VCsi [[0]] [] 72) = Some t' ∧ canvas sz rvs (mkPos 0 0) a t'.
Proof.
  intros Hcv. destruct (canvas_ok _ _ _ _ _ Hcv) as (Hg & Hrs & Hcs & _). pose proof (cv_ready _ _ _ _ _ Hcv) as Hrd.
  destruct (canvas_grid sz rvs p a t (VCsi [[0]] [] 72) (with_pos (cur_grid t) (mkPos 0 0)) Hcv) as (t' & E & Hcv').
  - by repeat constructor.
  - change (vt_perform t (VCsi [[0]] [] 72)) with (on_grid (break_rep t) (λ g, set_pos g (mkPos 0 0))).
    unfold on_grid. rewrite cur_break_rep. rewrite set_pos_in; [done|done|apply Hrd|rewrite (rd_size _ _ Hrd); simpl; lia..].
  - done.
  - exists t'. split; [done|]. cbn [g_rows with_pos pos] in Hcv'. by rewrite (cv_rows _ _ _ _ _ Hcv) in Hcv'.
Qed.

Lemma cuf_spec sz rvs p a t ps n :
  canvas sz rvs p a t → params_ok ps → canonicalize_params_1 ps 1 = n → 1 ≤ n → col p + n < cols sz →
  ∃ t', vt_perform t (VCsi ps [] 67) = Some t' ∧ canvas sz rvs (mkPos (row p) (col p + n)) a t'.
Proof.
  intros Hcv Hps Hn Hn1 Hc. destruct (canvas_ok _ _ _ _ _ Hcv) as (Hg & Hrs & Hcs & Hr & Hcl). pose proof (cv_ready _ _ _ _ _ Hcv) as Hrd.
  pose proof (cv_pos _ _ _ _ _ Hcv) as Hp. pose proof (rd_size _ _ Hrd) as Hsz.
  destruct (canvas_grid sz rvs p a t (VCsi ps [] 67) (with_pos (cur_grid t) (mkPos (row p) (col p + n))) Hcv) as (t' & E & Hcv').
  - done.
  - change (vt_perform t (VCsi ps [] 67)) with (cuf (break_rep t) (canonicalize_params_1 ps 1)).
    rewrite Hn. unfold cuf, on_grid. rewrite cur_break_rep. unfold col_inc_clamp, col_inc, with_col. rewrite Hp.
    replace (sat_add u16_max (col p) n) with (col p + n) by (unfold sat_add; lia).
    rewrite col_clamp_in; [done|apply ok_pos; simpl; [done|rewrite Hsz; lia..]|simpl; rewrite Hsz; lia].
  - done.
  - exists t'. split; [done|]. cbn [g_rows with_pos pos] in Hcv'. by rewrite (cv_rows _ _ _ _ _ Hcv) in Hcv'.
Qed.

Lemma cr_spec sz rvs p a t :
  canvas sz rvs p a t → ∃ t', vt_perform t (VExecute 13) = Some t' ∧ canvas sz rvs (mkPos (row p) 0) a t'.
Proof.
  intros Hcv. destruct (canvas_ok _ _ _ _ _ Hcv) as (Hg & Hrs & Hcs & Hr & Hcl). pose proof (cv_ready _ _ _ _ _ Hcv) as Hrd.
  pose proof (cv_pos _ _ _ _ _ Hcv) as Hp. pose proof (rd_size _ _ Hrd) as Hsz.
  destruct (canvas_grid sz rvs p a t (VExecute 13) (with_pos (cur_grid t) (mkPos (row p) 0)) Hcv) as (t' & E & Hcv').
  - done.
  - change (vt_perform t (VExecute 13)) with (on_grid (break_rep t) (λ g, col_set g 0)).
    unfold on_grid. rewrite cur_break_rep. unfold col_set, with_col. rewrite Hp.
    rewrite col_clamp_in; [done|apply ok_pos; simpl; [done|rewrite Hsz; lia..]|simpl; rewrite Hsz; lia].
  - done.
  - exists t'. split; [done|]. cbn [g_rows with_pos pos] in Hcv'. by rewrite (cv_rows _ _ _ _ _ Hcv) in Hcv'.
Qed.

(** Going down inside a scroll region that is the whole screen. *)
Lemma row_inc_scroll_in g :
  grid_ok g → scroll_top g = 0 → scroll_bottom g = rows (size g) - 1 → row (pos g) + 1 < rows (size g) →
  row_inc_scroll g 1 = Some (with_row g (row (pos g) + 1), 0).
Proof.
  intros Hg Ht Hb Hr. pose proof (go_rows _ Hg). pose proof (go_row _ Hg). unfold row_inc_scroll, in_scroll_region. rewrite Ht, Hb.
  rewrite !(proj2 (Z.leb_le _ _)) by lia. cbn [andb].
  replace (sat_add u16_max (row (pos g)) 1) with (row (pos g) + 1) by (unfold sat_add; lia).
  unfold row_clamp_bottom, with_row. cbn [pos with_pos scroll_bottom row col]. rewrite Hb.
  rewrite (proj2 (Z.ltb_ge _ _)) by lia. unfold scroll_up, scroll_region_up.
  cbn [scroll_bottom scroll_top with_pos]. rewrite Ht, Hb, u16_sub_ok, u16_add_ok by lia. rewrite Z.min_l by lia. done.
Qed.

(** A line feed above the last row: the next row does not continue this one. *)
Lemma lf_spec sz rvs p a t V w :
  canvas sz rvs p a t → row p + 1 < rows sz → col p < cols sz → rvs !! Z.to_nat (row p + 1) = Some (V, w) →
  ∃ t', vt_perform t (VExecute 10) = Some t' ∧
    canvas sz (<[Z.to_nat (row p + 1) := (V, false)]> rvs) (mkPos (row p + 1) (col p)) a t'.
Proof.
  intros Hcv Hr1 Hc Hrow. destruct (canvas_ok _ _ _ _ _ Hcv) as (Hg & Hrs & Hcs & Hr & Hcl). pose proof (cv_ready _ _ _ _ _ Hcv) as Hrd.
  pose proof (cv_pos _ _ _ _ _ Hcv) as Hp. pose proof (rd_size _ _ Hrd) as Hsz.
  rewrite <- (cv_rows _ _ _ _ _ Hcv) in Hrow.  rewrite list_lookup_fmap in Hrow.
  destruct (g_rows (cur_grid t) !! Z.to_nat (row p + 1)) as [x|] eqn:Hx; [|done]. injection Hrow as HV Hw.
  set (g' := with_rows (with_pos (cur_grid t) (mkPos (row p + 1) (col p))) (<[Z.to_nat (row p + 1) := row_wrap x false]> (g_rows (cur_grid t)))).
  destruct (canvas_grid sz rvs p a t (VExecute 10) g' Hcv) as (t' & E & Hcv').
  - done.
  - change (vt_perform t (VExecute 10)) with (lf (break_rep t)). unfold lf.
    change (mode_on (break_rep t) MODE_NEWLINE) with (mode_on t MODE_NEWLINE). rewrite (rd_newline _ _ Hrd).
    unfold on_grid. rewrite cur_break_rep. unfold line_feed.
    rewrite row_inc_scroll_in; [|done|apply Hrd|rewrite Hsz; apply Hrd|rewrite Hp, Hsz; lia].
    cbn [Z.eqb]. rewrite Hp, u16_add_ok by lia. unfold with_row. cbn [pos with_pos row]. rewrite Hp, Z.eqb_refl.
    unfold update_current_row, update_row, drawing_row. cbn [pos with_pos row g_rows]. rewrite Hx.
    rewrite col_clamp_in; [done| |simpl; rewrite Hsz; lia].
    apply ok_rows; [apply ok_pos; simpl; [done|rewrite Hsz; lia..]|apply length_insert|].
    apply Forall_insert; [apply Hg|]. apply row_wrap_ok. pose proof (go_cells _ Hg) as Hcells. rewrite Forall_forall in Hcells.
    apply Hcells. by apply list_elem_of_lookup_2 in Hx.
  - done.
  - exists t'. split; [done|]. subst g'. cbn [g_rows with_rows with_pos pos] in Hcv'.
    rewrite list_fmap_insert in Hcv'. change (map rview (g_rows (cur_grid t))) with (rview <$> g_rows (cur_grid t)) in Hcv'.
    unfold rview at 1 in Hcv'. cbn [row_wrap cells wrapped] in Hcv'. rewrite HV in Hcv'.
    change (rview <$> g_rows (cur_grid t)) with (map rview (g_rows (cur_grid t))) in Hcv'. by rewrite (cv_rows _ _ _ _ _ Hcv) in Hcv'.
Qed.

(** *** Erasing *)

Lemma view_clear c a : view (clear c a) = blank_view (sgr_bare a).
Proof. done. Qed.

Lemma row_erase_plain r c a cell :
  cells r !! Z.to_nat c = Some cell → plain_view (view cell) →
  row_erase r c a = Some (mkRow (<[Z.to_nat c := clear cell a]> (cells r)) (wrapped r)).
Proof.
  intros Hc [Hw Hk]. cbn in Hw, Hk. unfold row_erase, clear_wide. rewrite Hc, Hw, Hk. rewrite Hc.
  unfold vec_set. by rewrite (proj2 (Nat.ltb_lt _ _)) by (by eapply lookup_lt_Some).
Qed.

Lemma erase_views n : ∀ r from a,
  (from + n ≤ length (cells r))%nat → Forall (λ c, plain_view (view c)) (take n (drop from (cells r))) →
  ∃ r', for_cols (λ r c, row_erase r c a) (Z.of_nat from) n r = Some r' ∧ wrapped r' = wrapped r ∧
    map view (cells r') =
      map view (take from (cells r)) ++ replicate n (blank_view (sgr_bare a)) ++ map view (drop (from + n) (cells r)).
Proof.
  induction n as [|n IH]; intros r from a Hlen Hpl.
  { exists r. split; [done|]. split; [done|]. rewrite Nat.add_0_r. simpl. by rewrite <- map_app, take_drop. }
  destruct (lookup_lt_is_Some_2 (cells r) from) as [cell Hc]; [lia|].
  rewrite (drop_S _ _ _ Hc) in Hpl. cbn [take] in Hpl. apply Forall_cons in Hpl as [Hv Hpl].
  cbn [for_cols]. rewrite (row_erase_plain r (Z.of_nat from) a cell); [|by rewrite Nat2Z.id|done]. rewrite Nat2Z.id.
  replace (Z.of_nat from + 1) with (Z.of_nat (S from)) by lia.
  set (r1 := mkRow (<[from := clear cell a]> (cells r)) (wrapped r)).
  destruct (IH r1 (S from) a) as (r' & E & Hw & Hv').
  - simpl. rewrite length_insert. lia.
  - unfold r1. cbn [cells]. by rewrite drop_insert_lt by lia.
  - exists r'. split; [done|]. split; [done|]. rewrite Hv'. unfold r1. cbn [cells]. rewrite drop_insert_lt by lia.
    rewrite (take_S_r _ _ (clear cell a)) by (by apply list_lookup_insert_eq; lia).
    rewrite take_insert_ge by lia. rewrite map_app. cbn [map]. rewrite <- app_assoc. cbn [replicate app].
    by rewrite Nat.add_succ_r.
Qed.

(** A row of the canvas and its views. *)
Lemma canvas_row sz rvs p a t r V w :
  canvas sz rvs p a t → rvs !! r = Some (V, w) →
  ∃ x, g_rows (cur_grid t) !! r = Some x ∧ map view (cells x) = V ∧ wrapped x = w ∧ row_ok (Z.to_nat (cols sz)) x.
Proof.
  intros Hcv Hrow. destruct (canvas_ok _ _ _ _ _ Hcv) as (Hg & _). rewrite <- (cv_rows _ _ _ _ _ Hcv), list_lookup_fmap in Hrow.
  destruct (g_rows (cur_grid t) !! r) as [x|] eqn:Hx; [|done]. injection Hrow as HV Hw. exists x.
  split; [done|]. split; [done|]. split; [done|]. pose proof (go_cells _ Hg) as Hc. rewrite Forall_forall in Hc.
  rewrite (rd_size _ _ (cv_ready _ _ _ _ _ Hcv)) in Hc. apply Hc. by apply list_elem_of_lookup_2 in Hx.
Qed.

Lemma canvas_width sz rvs p a t r V w : canvas sz rvs p a t → rvs !! r = Some (V, w) → length V = Z.to_nat (cols sz).
Proof.
  intros Hcv Hrow. destruct (canvas_row _ _ _ _ _ _ _ _ Hcv Hrow) as (x & _ & <- & _ & Hok). by rewrite length_map, (ro_len _ _ Hok).
Qed.

Definition blanked (V : list View) (from n : nat) (a : Attrs) : list View :=
  take from V ++ replicate n (blank_view a) ++ drop (from + n) V.

(** [erase_range] on the row of the cursor, which has only plain cells there. *)
Lemma erase_range_spec r from n a V :
  map view (cells r) = V → Forall plain_view (take n (drop from V)) → (from + n ≤ length V)%nat →
  ∃ r', erase_range r (Z.of_nat from) (Z.of_nat (from + n)) a = Some r' ∧ wrapped r' = wrapped r ∧
    map view (cells r') = blanked V from n (sgr_bare a).
Proof.
  intros <- Hpl Hlen. rewrite length_map in Hlen.
  destruct (erase_views n r from a Hlen) as (r' & E & Hw & HV).
  { rewrite skipn_map, firstn_map in Hpl. by apply (proj1 (Forall_fmap _ _ _)) in Hpl. }
  exists r'. split; [|split; [done|]].
  - unfold erase_range. by replace (Z.to_nat (Z.of_nat (from + n) - Z.of_nat from)) with n by lia.
  - rewrite HV. unfold blanked. by rewrite firstn_map, skipn_map.
Qed.

Lemma set_cur_self t : set_cur t (cur_grid t) = t.
Proof. unfold set_cur, cur_grid. destruct (mode_on t _); by destruct t. Qed.

(** A row of the canvas replaced, the cursor where it was. *)
Lemma canvas_put sz rvs p a t ev r x' :
  canvas sz rvs p a t → event_ok ev →
  vt_perform t ev = Some (set_cur (break_rep t) (with_rows (cur_grid t) (<[r := x']> (g_rows (cur_grid t))))) →
  ∃ t', vt_perform t ev = Some t' ∧ canvas sz (<[r := rview x']> rvs) p a t'.
Proof.
  intros Hcv Hev E. destruct (canvas_grid sz rvs p a t ev _ Hcv Hev E) as (t' & E' & Hcv'); [done|]. exists t'. split; [done|].
  cbn [g_rows with_rows pos] in Hcv'. rewrite (cv_pos _ _ _ _ _ Hcv) in Hcv'.
  change (map rview (<[r := x']> (g_rows (cur_grid t)))) with (rview <$> <[r := x']> (g_rows (cur_grid t))) in Hcv'.
  rewrite list_fmap_insert in Hcv'. change (rview <$> g_rows (cur_grid t)) with (map rview (g_rows (cur_grid t))) in Hcv'.
  by rewrite (cv_rows _ _ _ _ _ Hcv) in Hcv'.
Qed.

Lemma ech_spec sz rvs p a t ps n V w :
  canvas sz rvs p a t → params_ok ps → canonicalize_params_1 ps 1 = Z.of_nat n → col p + Z.of_nat n ≤ cols sz → col p < cols sz →
  rvs !! Z.to_nat (row p) = Some (V, w) → Forall plain_view (take n (drop (Z.to_nat (col p)) V)) →
  ∃ t', vt_perform t (VCsi ps [] 88) = Some t' ∧
    canvas sz (<[Z.to_nat (row p) := (blanked V (Z.to_nat (col p)) n (for_erase a), w)]> rvs) p a t'.
Proof.
  intros Hcv Hps Hn Hcn Hc Hrow Hpl. destruct (canvas_ok _ _ _ _ _ Hcv) as (Hg & Hrs & Hcs & Hr & Hcl).
  pose proof (cv_ready _ _ _ _ _ Hcv) as Hrd. pose proof (cv_pos _ _ _ _ _ Hcv) as Hp. pose proof (rd_size _ _ Hrd) as Hsz.
  destruct (canvas_row _ _ _ _ _ _ _ _ Hcv Hrow) as (x & Hx & HV & Hw & Hok).
  pose proof (canvas_width _ _ _ _ _ _ _ _ Hcv Hrow) as HVl.
  destruct (erase_range_spec x (Z.to_nat (col p)) n (for_erase a) V HV Hpl) as (x' & E & Hw' & HV'); [lia|].
  destruct (canvas_put sz rvs p a t (VCsi ps [] 88) (Z.to_nat (row p)) x' Hcv) as (t' & E' & Hcv').
  - done.
  - change (vt_perform t (VCsi ps [] 88)) with (ech (break_rep t) (canonicalize_params_1 ps 1)). rewrite Hn.
    unfold ech, on_grid at 1. unfold restrict_col. rewrite cur_break_rep, col_clamp_in by (rewrite ?Hp, ?Hsz; done).
    replace (set_cur (break_rep t) (cur_grid t)) with (break_rep t) by (symmetry; apply (set_cur_self (break_rep t))).
    unfold on_grid. rewrite cur_break_rep. unfold erase_cells. rewrite Hp, Hsz.
    replace (Z.min (sat_add u16_max (col p) (Z.of_nat n)) (cols sz)) with (Z.of_nat (Z.to_nat (col p) + n)) by (unfold sat_add; lia).
    unfold update_current_row, update_row, drawing_row. rewrite Hp, Hx. rewrite Z2Nat.id in E by lia.
    change (attrs (break_rep t)) with (attrs t). rewrite (cv_pen _ _ _ _ _ Hcv), E. done.
  - exists t'. split; [done|]. unfold rview in Hcv'. by rewrite HV', Hw', Hw in Hcv'.
Qed.

Lemma el_spec sz rvs p a t V w :
  canvas sz rvs p a t → col p < cols sz → rvs !! Z.to_nat (row p) = Some (V, w) → Forall plain_view (drop (Z.to_nat (col p)) V) →
  ∃ t', vt_perform t (VCsi [[0]] [] 75) = Some t' ∧
    canvas sz (<[Z.to_nat (row p) := (blanked V (Z.to_nat (col p)) (Z.to_nat (cols sz - col p)) (for_erase a),
                                       if col p =? 0 then false else w)]> rvs) p a t'.
Proof.
  intros Hcv Hc Hrow Hpl. destruct (canvas_ok _ _ _ _ _ Hcv) as (Hg & Hrs & Hcs & Hr & Hcl).
  pose proof (cv_ready _ _ _ _ _ Hcv) as Hrd. pose proof (cv_pos _ _ _ _ _ Hcv) as Hp. pose proof (rd_size _ _ Hrd) as Hsz.
  destruct (canvas_row _ _ _ _ _ _ _ _ Hcv Hrow) as (x & Hx & HV & Hw & Hok).
  pose proof (canvas_width _ _ _ _ _ _ _ _ Hcv Hrow) as HVl. set (n := Z.to_nat (cols sz - col p)).
  destruct (erase_range_spec x (Z.to_nat (col p)) n (for_erase a) V HV) as (x' & E & Hw' & HV').
  { by apply Forall_take. }
  { lia. }
  destruct (canvas_put sz rvs p a t (VCsi [[0]] [] 75) (Z.to_nat (row p)) (if col p =? 0 then row_wrap x' false else x') Hcv)
    as (t' & E' & Hcv').
  - by repeat constructor.
  - change (vt_perform t (VCsi [[0]] [] 75)) with (on_grid (break_rep t) (λ g, erase_row_forward g (for_erase (attrs t)))).
    unfold on_grid. rewrite cur_break_rep. unfold erase_row_forward, update_current_row, update_row, drawing_row.
    rewrite Hp, Hx, Hsz, (cv_pen _ _ _ _ _ Hcv). rewrite Z2Nat.id in E by lia.
    replace (Z.of_nat (Z.to_nat (col p) + n)) with (cols sz) in E by lia. by rewrite E.
  - exists t'. split; [done|].
    assert (Er : rview (if col p =? 0 then row_wrap x' false else x') =
      (blanked V (Z.to_nat (col p)) n (for_erase a), if col p =? 0 then false else w)).
    { destruct (col p =? 0); unfold rview; cbn [row_wrap cells wrapped]; by rewrite HV', ?Hw', ?Hw. }
    by rewrite Er in Hcv'.
Qed.

(** Erasing a whole row, whatever it held. *)
Lemma erase_whole n : ∀ pre l w a,
  paired l → length l = n → Z.of_nat (length pre + n) ≤ u16_max →
  ∃ r', for_cols (λ r c, row_erase r c a) (Z.of_nat (length pre)) n (mkRow (pre ++ l) w) = Some r' ∧ wrapped r' = w ∧
    map view (cells r') = map view pre ++ replicate n (blank_view (sgr_bare a)).
Proof.
  induction n as [|n IH]; intros pre l w a Hp Hl Hm.
  { destruct l; [|done]. exists (mkRow (pre ++ []) w). split; [done|]. split; [done|]. simpl. by rewrite !app_nil_r. }
  assert (Hstep : ∃ c l', row_erase (mkRow (pre ++ l) w) (Z.of_nat (length pre)) a = Some (mkRow ((pre ++ [clear c a]) ++ l') w) ∧
    paired l' ∧ length l' = n).
  { destruct Hp as [|c l Hc Hp|c d l Hc Hd Hp]; [done|..].
    - exists c, l. simpl in Hl. split; [|split; [done|lia]].
      rewrite (row_erase_plain _ _ a c); [|cbn [cells]; by rewrite Nat2Z.id, list_lookup_middle|done].
      cbn [cells wrapped]. rewrite Nat2Z.id, insert_middle. by rewrite <- app_assoc.
    - exists c, (clear d (cell_attrs d) :: l). simpl in Hl. split; [|split; [by apply paired_plain|simpl; lia]].
      unfold row_erase, clear_wide. cbn [cells wrapped]. rewrite Nat2Z.id, list_lookup_middle by done.
      rewrite (proj1 Hc). rewrite u16_add_ok by lia.
      replace (Z.to_nat (Z.of_nat (length pre) + 1)) with (length (pre ++ [c])) by (rewrite length_app; simpl; lia).
      replace (pre ++ c :: d :: l) with ((pre ++ [c]) ++ d :: l) by (by rewrite <- app_assoc).
      rewrite list_lookup_middle by done. rewrite vec_set_middle. cbn [cells wrapped].
      rewrite <- app_assoc. cbn [app]. rewrite list_lookup_middle by done. rewrite vec_set_middle. by rewrite <- app_assoc. }
  destruct Hstep as (c & l' & E & Hp' & Hl'). cbn [for_cols]. rewrite E.
  destruct (IH (pre ++ [clear c a]) l' w a Hp' Hl') as (r' & E' & Hw & HV); [rewrite length_app; simpl; lia|].
  exists r'. split; [|split; [done|]].
  - rewrite <- E'. rewrite length_app. simpl. by replace (Z.of_nat (length pre + 1)) with (Z.of_nat (length pre) + 1) by lia.
  - rewrite HV, map_app, <- app_assoc. done.
Qed.

Lemma rview_clear r a : rview (row_clear r a) = (replicate (length (cells r)) (blank_view (sgr_bare a)), false).
Proof.
  unfold rview. cbn [row_clear cells wrapped]. f_equal. induction (cells r) as [|c cs IH]; [done|].
  rewrite fmap_cons. cbn [map length replicate]. by rewrite IH.
Qed.

Definition blank_rows (sz : Size) (a : Attrs) : list (list View * bool) :=
  replicate (Z.to_nat (rows sz)) (replicate (Z.to_nat (cols sz)) (blank_view (for_erase a)), false).

Lemma map_rview_clear n rs a :
  Forall (row_ok n) rs → map rview ((λ r, row_clear r a) <$> rs) = replicate (length rs) (replicate n (blank_view (sgr_bare a)), false).
Proof.
  induction 1 as [|r rs Hr _ IH]; [done|]. rewrite fmap_cons. cbn [map length replicate]. rewrite rview_clear, IH. by rewrite (ro_len _ _ Hr).
Qed.

(** ED from the first cell clears everything, whatever was shown. *)
Lemma ed_spec sz rvs a t :
  canvas sz rvs (mkPos 0 0) a t →
  ∃ t', vt_perform t (VCsi [[0]] [] 74) = Some t' ∧ canvas sz (blank_rows sz a) (mkPos 0 0) a t'.
Proof.
  intros Hcv. destruct (canvas_ok _ _ _ _ _ Hcv) as (Hg & Hrs & Hcs & _). pose proof (cv_ready _ _ _ _ _ Hcv) as Hrd.
  pose proof (cv_pos _ _ _ _ _ Hcv) as Hp. pose proof (rd_size _ _ Hrd) as Hsz. pose proof (cv_pen _ _ _ _ _ Hcv) as Hpen.
  pose proof (go_len _ Hg) as Hlen. pose proof (go_cells _ Hg) as Hcells. rewrite Hsz in Hlen, Hcells.
  destruct (g_rows (cur_grid t)) as [|x rs] eqn:Hx; [simpl in Hlen; lia|]. apply Forall_cons in Hcells as [[Hxl Hxp Hxc] Hrok].
  destruct (erase_whole (Z.to_nat (cols sz)) [] (cells x) (wrapped x) (for_erase a) Hxp Hxl) as (x' & E & _ & HV); [simpl; lia|].
  set (rs' := row_wrap x' false :: ((λ r, row_clear r (for_erase a)) <$> rs)).
  destruct (canvas_grid sz rvs (mkPos 0 0) a t (VCsi [[0]] [] 74) (with_rows (cur_grid t) rs') Hcv) as (t' & E' & Hcv').
  - by repeat constructor.
  - change (vt_perform t (VCsi [[0]] [] 74)) with (on_grid (break_rep t) (λ g, erase_all_forward g (for_erase (attrs t)))).
    unfold on_grid. rewrite cur_break_rep. unfold erase_all_forward. rewrite Hp, Hx, Hpen. cbn [row].
    change (S (Z.to_nat 0)) with 1%nat. cbn [take drop app].
    unfold erase_row_forward, update_current_row, update_row, drawing_row. cbn [pos with_rows g_rows size].
    rewrite Hp, Hsz. cbn [row col]. change (Z.to_nat 0) with 0%nat. cbn [lookup list_lookup].
    unfold erase_range. rewrite Z.sub_0_r. change (Z.of_nat (length [])) with 0 in E. cbn [app] in E. destruct x as [cs w]. cbn [cells wrapped] in E. rewrite E.
    cbn [Z.eqb]. done.
  - done.
  - exists t'. split; [done|]. cbn [g_rows with_rows pos] in Hcv'. rewrite Hp in Hcv'.
    assert (Er : map rview rs' = blank_rows sz a).
    { subst rs'. cbn [map]. rewrite (map_rview_clear _ _ _ Hrok). unfold blank_rows. simpl in Hlen. rewrite <- Hlen. cbn [replicate].
      f_equal. unfold rview. cbn [row_wrap cells wrapped]. f_equal. by rewrite HV. }
    by rewrite Er in Hcv'.
Qed.

(** *** Drawing *)

(** A character of [w] columns that the emulator draws. *)
Definition prints (c w : Z) : Prop :=
  32 ≤ c ∧ ¬ (128 ≤ c < 160) ∧ c ≠ 65279 ∧ is_scalar c = true ∧ ¬ (char_width c = None ∧ c < 256) ∧ default 1 (char_width c) = w.

Lemma print_grid sz rvs p a t c w g' :
  canvas sz rvs p a t → prints c w → draw_inner (cur_grid t) false true a c = Some g' →
  grid_kept g' = grid_kept (cur_grid t) →
  ∃ t', vt_perform t (VPrint c) = Some t' ∧ canvas sz (map rview (g_rows g')) (pos g') a t'.
Proof.
  intros [Hr Hrs Hp Ha] (H32 & Hc1 & _ & Hsc & _) E Hf.
  destruct (perform_good t (VPrint c) (rd_ok _ _ Hr) Hsc) as (t' & E' & Hok & _). exists t'. split; [done|].
  assert (Et : ∃ b m l, t' = with_cluster (set_cur t g') b m l).
  { revert E'. cbn [vt_perform]. unfold vt_print. replace ((128 <=? c) && (c <? 160)) with false by (symmetry; apply andb_false_iff; lia). unfold text. rewrite (rd_shift _ _ Hr).
    cbn [default from_option]. unfold id. rewrite (rd_charset _ _ Hr). cbn [charset_map].
    set (t1 := with_charsets t _).
    assert (E1 : t1 = t).
    { unfold t1. pose proof (rd_shift _ _ Hr) as Hs. rewrite <- Hs. clear. destruct t as [? ? ? ? [] ? ? ? ? ? ? ? ?]. done. }
    rewrite E1. clear E1 t1. unfold draw, on_grid. rewrite (rd_insert _ _ Hr), (rd_wrap _ _ Hr), Ha. cbn [negb]. rewrite E.
    intros E'. assert (Heta : set_cur t g' = with_cluster (set_cur t g') (last_base (set_cur t g')) (last_marks (set_cur t g')) (last_cluster_live (set_cur t g')))
      by (by destruct (set_cur t g')).
    destruct (char_width c) as [v|]; [destruct (v =? 0); [destruct (last_cluster_live (set_cur t g')) eqn:El|]|]; injection E' as <-; eauto. }
  destruct Et as (b & m & l & ->).
  assert (Eg : cur_grid (with_cluster (set_cur t g') b m l) = g') by (apply (cur_of_set_cur t g')).
  split; [|by rewrite Eg..|].
  - pose proof (f_equal snd Hf) as Hb. apply (f_equal fst) in Hf. cbn [fst snd grid_kept] in Hf, Hb. eapply ready_step; [done|done|..|by rewrite Eg|]; rewrite ?Eg; unfold set_cur; try by destruct (mode_on _ _).
    rewrite Hb, (rd_blank _ _ Hr). by destruct (mode_on _ _).
  - rewrite <- Ha. unfold set_cur. by destruct (mode_on _ _).
Qed.

Definition drawn (V : list View) (c : nat) (cs : list Z) (wide : bool) (a : Attrs) : list View :=
  if wide then <[S c := half_view a]> (<[c := text_view cs true a]> V) else <[c := text_view cs false a]> V.

(** Where a character can be drawn without cutting another: on plain cells, or on a wide one
    of the same place. *)
Definition fits_at (V : list View) (c : nat) (wide : bool) : Prop :=
  ∃ v, V !! c = Some v ∧
    if wide then ∃ v2, V !! S c = Some v2 ∧ ((plain_view v ∧ plain_view v2) ∨ (v.1.1.2 = true ∧ v.1.2 = false ∧ v2.1.1.2 = false ∧ v2.1.2 = true))
    else plain_view v.

Lemma set_view x ch a :
  cell_ok x → is_scalar ch = true → ∃ d, set x ch a = Some d ∧ view d = text_view [ch] (wide_char ch) (sgr_bare a).
Proof.
  intros Hx Hc. destruct (set_ok x ch a Hx Hc) as (d & E & _ & Ht & Hw & Hk & Ha). exists d. split; [done|].
  unfold view. by rewrite Ht, Hw, Hk, Ha.
Qed.

Lemma view_half x a : view (set_wide_continuation (clear x a) true) = half_view (sgr_bare a).
Proof. done. Qed.

Lemma map_view_insert i c cs : map view (<[i := c]> cs) = <[i := view c]> (map view cs).
Proof. apply (list_fmap_insert view). Qed.

Lemma map_rview_insert i x rs : map rview (<[i := x]> rs) = <[i := rview x]> (map rview rs).
Proof. apply (list_fmap_insert rview). Qed.

Lemma put_char_view g c w a x V cc :
  grid_ok g → is_scalar c = true → wide_char c = (1 <? w) → w = 1 ∨ w = 2 → pos g = mkPos (row (pos g)) (Z.of_nat cc) →
  drawing_row g (row (pos g)) = Some x → map view (cells x) = V → Forall cell_ok (cells x) → fits_at V cc (1 <? w) →
  Z.of_nat cc + w ≤ u16_max →
  ∃ x', put_char g (pos g) c w a = Some (focus g (row (pos g)) x' (mkPos (row (pos g)) (Z.of_nat cc + w))) ∧
    wrapped x' = wrapped x ∧ map view (cells x') = drawn V cc [c] (1 <? w) (sgr_bare a).
Proof.
  intros Hg Hsc Hwd Hw Hp Hx HV Hok (v & Hv & Hfit) Hmax. pose proof (go_row _ Hg) as Hr. set (r := row (pos g)) in *.
  rewrite <- HV, list_lookup_fmap in Hv. destruct (cells x !! cc) as [cell|] eqn:Hcell; [|done]. injection Hv as <-.
  assert (Hck : cell_ok cell) by (rewrite Forall_forall in Hok; apply Hok; by apply list_elem_of_lookup_2 in Hcell).
  assert (Eg : put_char g (pos g) c w a = put_char (focus g r x (mkPos r (Z.of_nat cc))) (mkPos r (Z.of_nat cc)) c w a).
  { rewrite <- Hp. by rewrite <- (focus_self g r x Hx). }
  rewrite Eg. clear Eg.
  unfold put_char, repair_before. rewrite (focus_cell g r Hg Hr), Nat2Z.id, Hcell.
  destruct Hw as [->| ->]; cbn [Z.ltb Z.compare] in *.
  - destruct Hfit as [Hfw Hfk]. cbn in Hfw, Hfk. rewrite Hfk. rewrite (focus_cell g r Hg Hr), Nat2Z.id, Hcell, Hfw.
    destruct (set_view cell c a Hck Hsc) as (d & Ed & Hd).
    rewrite (focus_update g r Hg Hr x (mkPos r (Z.of_nat cc)) (Z.of_nat cc) _ cell d) by (rewrite ?Nat2Z.id; done).
    rewrite focus_inc. cbn [row col]. replace (sat_add u16_max (Z.of_nat cc) 1) with (Z.of_nat cc + 1) by (unfold sat_add; lia).
    eexists. split; [done|]. split; [done|]. cbn [cells]. rewrite Nat2Z.id, map_view_insert, HV, Hd, Hwd. done.
  - destruct Hfit as (v2 & Hv2 & Hfit). rewrite <- HV, list_lookup_fmap in Hv2.
    destruct (cells x !! S cc) as [cell2|] eqn:Hcell2; [|done]. injection Hv2 as <-.
    assert (Hck2 : cell_ok cell2) by (rewrite Forall_forall in Hok; apply Hok; by apply list_elem_of_lookup_2 in Hcell2).
    assert (Hnk : is_wide_continuation cell = false) by (destruct Hfit as [[[_ H2] _]|(_ & H2 & _)]; exact H2). rewrite Hnk.
    rewrite (focus_cell g r Hg Hr), Nat2Z.id, Hcell. destruct (set_view cell c a Hck Hsc) as (d & Ed & Hd).
    (* the cell of the second column, after the repair *)
    assert (Hrep : ∃ e, is_wide e = false ∧
      (if is_wide cell then
         let! j := u16_add (Z.of_nat cc) 1 in
         match drawing_cell (focus g r x (mkPos r (Z.of_nat cc))) (mkPos r j) with
         | Some _ => update_cell (focus g r x (mkPos r (Z.of_nat cc))) (mkPos r j) (λ x, set x 32 a)
         | None => Some (focus g r x (mkPos r (Z.of_nat cc)))
         end
       else Some (focus g r x (mkPos r (Z.of_nat cc)))) =
      Some (focus g r (mkRow (<[S cc := e]> (cells x)) (wrapped x)) (mkPos r (Z.of_nat cc)))).
    { destruct (is_wide cell) eqn:Hcw.
      - rewrite u16_add_ok by lia. rewrite (focus_cell g r Hg Hr). replace (Z.to_nat (Z.of_nat cc + 1)) with (S cc) by lia. rewrite Hcell2.
        destruct (set_ok cell2 32 a Hck2 eq_refl) as (e & Ee & _ & _ & Hew & _). exists e. split; [by rewrite Hew|].
        rewrite (focus_update g r Hg Hr x _ (Z.of_nat cc + 1) _ cell2 e); [|by replace (Z.to_nat (Z.of_nat cc + 1)) with (S cc) by lia|done].
        by replace (Z.to_nat (Z.of_nat cc + 1)) with (S cc) by lia.
      - exists cell2. destruct Hfit as [[_ [H2 _]]|(H1 & _)]; [|cbn in H1; congruence]. split; [exact H2|].
        rewrite list_insert_id by done. by destruct x. }
    destruct Hrep as (e & Hew & Erep). cbn [row col] in *. rewrite Erep. clear Erep. set (x1 := mkRow (<[S cc := e]> (cells x)) (wrapped x)).
    assert (Hc1 : cells x1 !! cc = Some cell) by (unfold x1; cbn [cells]; by rewrite list_lookup_insert_ne by lia).
    assert (Hc2 : cells x1 !! S cc = Some e) by (unfold x1; cbn [cells]; apply list_lookup_insert_eq; by eapply lookup_lt_Some).
    rewrite (focus_update g r Hg Hr x1 _ (Z.of_nat cc) _ cell d) by (rewrite ?Nat2Z.id; done). rewrite Nat2Z.id.
    rewrite focus_inc. cbn [row col]. replace (sat_add u16_max (Z.of_nat cc) 1) with (Z.of_nat cc + 1) by (unfold sat_add; lia).
    set (x2 := mkRow (<[cc := d]> (cells x1)) (wrapped x1)).
    assert (Hc3 : cells x2 !! S cc = Some e) by (unfold x2; cbn [cells]; by rewrite list_lookup_insert_ne by lia).
    change (pos (focus g r x2 (mkPos r (Z.of_nat cc + 1)))) with (mkPos r (Z.of_nat cc + 1)).
    unfold repair_after. rewrite (focus_cell g r Hg Hr). replace (Z.to_nat (Z.of_nat cc + 1)) with (S cc) by lia. rewrite Hc3, Hew.
    rewrite (focus_update g r Hg Hr x2 _ (Z.of_nat cc + 1) _ e (set_wide_continuation (clear e a) true));
      [|by replace (Z.to_nat (Z.of_nat cc + 1)) with (S cc) by lia|done].
    replace (Z.to_nat (Z.of_nat cc + 1)) with (S cc) by lia. rewrite focus_inc. cbn [row col].
    replace (sat_add u16_max (Z.of_nat cc + 1) 1) with (Z.of_nat cc + 2) by (unfold sat_add; lia).
    eexists. split; [done|]. split; [done|]. unfold x2, x1. cbn [cells]. rewrite !map_view_insert, HV, Hd, Hwd, view_half.
    unfold drawn. rewrite (list_insert_insert_ne _ cc (S cc)) by lia. by rewrite list_insert_insert_eq.
Qed.

Lemma put_char_rows g c w a V wr r cc :
  grid_ok g → is_scalar c = true → wide_char c = (1 <? w) → w = 1 ∨ w = 2 → pos g = mkPos r (Z.of_nat cc) →
  map rview (g_rows g) !! Z.to_nat r = Some (V, wr) → fits_at V cc (1 <? w) → Z.of_nat cc + w ≤ u16_max →
  ∃ g', put_char g (pos g) c w a = Some g' ∧ grid_kept g' = grid_kept g ∧
    map rview (g_rows g') = <[Z.to_nat r := (drawn V cc [c] (1 <? w) (sgr_bare a), wr)]> (map rview (g_rows g)) ∧
    pos g' = mkPos r (Z.of_nat cc + w).
Proof.
  intros Hg Hsc Hwd Hw Hp Hrow Hfit Hmax. rewrite list_lookup_fmap in Hrow.
  destruct (g_rows g !! Z.to_nat r) as [x|] eqn:Hx; [|done]. injection Hrow as HV Hwr.
  assert (Er : row (pos g) = r) by (by rewrite Hp).
  destruct (put_char_view g c w a x V cc) as (x' & E & Hw' & HV'); try done.
  - by rewrite Er.
  - by rewrite Er.
  - pose proof (go_cells _ Hg) as Hc. rewrite Forall_forall in Hc. apply list_elem_of_lookup_2 in Hx. apply (ro_cells _ _ (Hc x Hx)).
  - rewrite Er in E. eexists. split; [exact E|]. split; [done|]. split; [|done]. unfold focus. cbn [g_rows with_pos with_rows].
    rewrite map_rview_insert. f_equal. unfold rview. by rewrite HV', Hw', Hwr.
Qed.

(** The fast path draws as the long way does. *)
Lemma fast_path g p c a :
  plain_at g p = true → put_char g p c 1 a = (let! g := update_cell g p (λ x, set x c a) in Some (col_inc g 1)).
Proof.
  unfold plain_at, put_char, repair_before. destruct (drawing_cell g p) as [cell|] eqn:E; [|done]. intros [Hw Hk]%andb_true_iff.
  apply negb_true_iff in Hw, Hk. rewrite Hk, E, Hw. done.
Qed.

Lemma prints_wide c w : prints c w → wide_char c = (1 <? w).
Proof.
  intros (H32 & Hc1 & _ & _ & Hn & <-). unfold wide_char, is_ascii, char_width in *.
  destruct (Z.ltb_spec c 128) as [Hlt|Hlt]; cbn [negb andb].
  - destruct ((32 <=? c) && (c <=? 126)); [done|]. destruct (c =? 173); [done|]. destruct (char_cols c) as [v|] eqn:E; [|done].
    pose proof (char_cols_ascii c v Hlt E). cbn. symmetry. apply Z.ltb_ge. lia.
  - rewrite in_range_false by lia. destruct (Z.eqb_spec c 173) as [->|]; [|done]. by rewrite char_cols_soft_hyphen.
Qed.

(** The tests at the start of drawing a visible character. *)
Lemma draw_inner_visible g a c w :
  prints c w → 1 ≤ w ≤ cols (size g) → cols (size g) ≤ u16_max →
  draw_inner g false true a c =
    if (w =? 1) && (col (pos g) <? cols (size g)) && plain_at g (pos g) then
      let! g := update_cell g (pos g) (λ x, set x c a) in Some (col_inc g 1)
    else
      let! g :=
        (if (1 <? w) && (col (pos g) =? cols (size g) - 1) then
           match drawing_row g (row (pos g)) with
           | Some _ => update_row g (row (pos g)) (λ r, row_erase r (cols (size g) - 1) (sgr_bare a))
           | None => Some g
           end
         else Some g) in
      let! g := col_wrap g w in put_char g (pos g) c w a.
Proof.
  intros (H32 & Hc1 & Hbom & Hsc & Hn & Hw) Hws Hmax. unfold draw_inner. rewrite (proj2 (Z.eqb_neq _ _) Hbom).
  assert (En : bool_decide (char_width c = None) && (c <? 256) = false).
  { destruct (char_width c); [done|]. cbn. apply Z.ltb_ge. destruct (Z.lt_ge_cases c 256); [exfalso; by apply Hn|done]. }
  rewrite En, Hw. rewrite (proj2 (Z.ltb_ge _ _)) by lia. cbn [negb]. rewrite andb_true_r.
  destruct ((w =? 1) && (col (pos g) <? cols (size g)) && plain_at g (pos g)); [done|].
  rewrite !u16_sub_ok by lia. cbn [negb andb]. rewrite (proj2 (Z.eqb_neq w 0)) by lia. reflexivity.
Qed.

Lemma canvas_lookup sz rvs p a t r : canvas sz rvs p a t → 0 ≤ r < rows sz → is_Some (rvs !! Z.to_nat r).
Proof.
  intros Hcv Hr. destruct (canvas_ok _ _ _ _ _ Hcv) as (Hg & _). apply lookup_lt_is_Some_2. rewrite <- (cv_rows _ _ _ _ _ Hcv).
  rewrite length_map, (go_len _ Hg), (rd_size _ _ (cv_ready _ _ _ _ _ Hcv)). lia.
Qed.

(** A character drawn where it fits in the row. *)
Lemma print_spec sz rvs p a t c w V wr :
  canvas sz rvs p a t → prints c w → w = 1 ∨ w = 2 → col p + w ≤ cols sz → rvs !! Z.to_nat (row p) = Some (V, wr) →
  fits_at V (Z.to_nat (col p)) (1 <? w) →
  ∃ t', vt_perform t (VPrint c) = Some t' ∧
    canvas sz (<[Z.to_nat (row p) := (drawn V (Z.to_nat (col p)) [c] (1 <? w) (sgr_bare a), wr)]> rvs) (mkPos (row p) (col p + w)) a t'.
Proof.
  intros Hcv Hpr Hw Hc Hrow Hfit. destruct (canvas_ok _ _ _ _ _ Hcv) as (Hg & Hrs & Hcs & Hr & Hcl).
  pose proof (cv_ready _ _ _ _ _ Hcv) as Hrd. pose proof (cv_pos _ _ _ _ _ Hcv) as Hp. pose proof (rd_size _ _ Hrd) as Hsz.
  pose proof Hpr as (_ & _ & _ & Hsc & _). set (g := cur_grid t) in *.
  destruct (put_char_rows g c w a V wr (row p) (Z.to_nat (col p))) as (g' & E & Hf & Hrv & Hp'); try done.
  { by apply prints_wide. }
  { rewrite Hp, Z2Nat.id by lia. by destruct p. }
  { unfold g. by rewrite (cv_rows _ _ _ _ _ Hcv). }
  { unfold u16_max in *. lia. }
  destruct (print_grid sz rvs p a t c w g' Hcv Hpr) as (t' & E' & Hcv'); [|done|].
  - fold g. rewrite (draw_inner_visible g a c w Hpr) by (rewrite Hsz; lia). rewrite Hp, Hsz.
    destruct Hw as [->| ->]; cbn [Z.eqb Z.ltb Z.compare Pos.eqb Pos.compare Pos.compare_cont andb].
    + rewrite (proj2 (Z.ltb_lt _ _)) by lia. cbn [andb].
      assert (Hpl : plain_at g p = true).
      { destruct Hfit as (v & Hv & Hw & Hk). destruct (canvas_row _ _ _ _ _ _ _ _ Hcv Hrow) as (x & Hx & HV & _).
        rewrite <- HV, list_lookup_fmap in Hv. unfold plain_at, drawing_cell, drawing_row, row_get. fold g in Hx. rewrite Hx.
        destruct (cells x !! Z.to_nat (col p)) as [cell|]; [|done]. injection Hv as <-. cbn in Hw, Hk. by rewrite Hw, Hk. }
      rewrite Hpl, <- fast_path by done. by rewrite <- Hp.
    + rewrite (proj2 (Z.eqb_neq _ _)) by lia. unfold col_wrap. rewrite Hsz, Hp, u16_sub_ok by lia. rewrite (proj2 (Z.ltb_ge _ _)) by lia.
      exact E.
  - exists t'. split; [done|]. unfold g in *. rewrite Hrv, Hp', (cv_rows _ _ _ _ _ Hcv), Z2Nat.id in Hcv' by lia. done.
Qed.

(** Wrapping above the last row: the next row continues this one. *)
Lemma col_wrap_next g w r V wr :
  grid_ok g → scroll_top g = 0 → scroll_bottom g = rows (size g) - 1 → row (pos g) = r → r + 1 < rows (size g) →
  0 ≤ w ≤ cols (size g) → cols (size g) - w < col (pos g) → map rview (g_rows g) !! Z.to_nat (r + 1) = Some (V, wr) →
  ∃ g', col_wrap g w = Some g' ∧ grid_ok g' ∧ grid_kept g' = grid_kept g ∧ pos g' = mkPos (r + 1) 0 ∧
    map rview (g_rows g') = <[Z.to_nat (r + 1) := (V, true)]> (map rview (g_rows g)).
Proof.
  intros Hg Ht Hb Hr Hr1 Hw Hc Hrow. pose proof (go_cols _ Hg) as Hcs. pose proof (go_row _ Hg). rewrite list_lookup_fmap in Hrow.
  destruct (g_rows g !! Z.to_nat (r + 1)) as [x|] eqn:Hx; [|done]. injection Hrow as HV Hwr.
  unfold col_wrap. rewrite u16_sub_ok by lia. rewrite (proj2 (Z.ltb_lt _ _)) by lia.
  assert (Hg1 : grid_ok (with_col g 0)) by (apply ok_pos; [done|done|simpl; lia]).
  rewrite row_inc_scroll_in; [|done|done|done|simpl; lia]. unfold with_row, with_col. cbn [pos with_pos row col]. rewrite Hr.
  unfold update_current_row, update_row, drawing_row. cbn [pos with_pos row g_rows]. rewrite Hx.
  eexists. split; [done|]. split; [|split; [done|split; [done|]]].
  - apply ok_rows; [apply (ok_pos g (mkPos (r + 1) 0)); [done|simpl; lia..]|apply length_insert|].
    apply Forall_insert; [apply Hg|]. apply row_wrap_ok. pose proof (go_cells _ Hg) as Hcells. rewrite Forall_forall in Hcells.
    apply Hcells. by apply list_elem_of_lookup_2 in Hx.
  - cbn [g_rows with_rows with_pos]. rewrite map_rview_insert. by rewrite <- HV.
Qed.

(** A character drawn past the end of a row goes to the next row, which then continues it. *)
Lemma print_wrap sz rvs p a t c w V wr :
  canvas sz rvs p a t → prints c w → w = 1 ∨ w = 2 → w ≤ cols sz → col p = cols sz → row p + 1 < rows sz →
  rvs !! Z.to_nat (row p + 1) = Some (V, wr) → fits_at V 0 (1 <? w) →
  ∃ t', vt_perform t (VPrint c) = Some t' ∧
    canvas sz (<[Z.to_nat (row p + 1) := (drawn V 0 [c] (1 <? w) (sgr_bare a), true)]> rvs) (mkPos (row p + 1) w) a t'.
Proof.
  intros Hcv Hpr Hw Hws Hc Hr1 Hrow Hfit. destruct (canvas_ok _ _ _ _ _ Hcv) as (Hg & Hrs & Hcs & Hr & Hcl).
  pose proof (cv_ready _ _ _ _ _ Hcv) as Hrd. pose proof (cv_pos _ _ _ _ _ Hcv) as Hp. pose proof (rd_size _ _ Hrd) as Hsz.
  pose proof Hpr as (_ & _ & _ & Hsc & _). set (g := cur_grid t) in *.
  destruct (col_wrap_next g w (row p) V wr) as (g1 & E1 & Hg1 & Hf1 & Hp1 & Hrv1); try rewrite Hsz; try rewrite Hp; try done; try lia.
  { apply Hrd. }
  { apply Hrd. }
  { unfold g. by rewrite (cv_rows _ _ _ _ _ Hcv). }
  destruct (put_char_rows g1 c w a V true (row p + 1) 0) as (g' & E & Hf & Hrv & Hp'); try done.
  { by apply prints_wide. }
  { rewrite Hrv1. apply list_lookup_insert_eq. unfold g. rewrite (cv_rows _ _ _ _ _ Hcv). by eapply lookup_lt_Some. }
  { unfold u16_max in *. lia. }
  destruct (print_grid sz rvs p a t c w g' Hcv Hpr) as (t' & E' & Hcv'); [|by rewrite Hf|].
  - fold g. rewrite (draw_inner_visible g a c w Hpr) by (rewrite Hsz; lia). rewrite Hp, Hsz.
    rewrite (proj2 (Z.ltb_ge (col p) _)) by lia. rewrite andb_false_r. cbn [andb].
    rewrite (proj2 (Z.eqb_neq (col p) (cols sz - 1))) by lia. rewrite andb_false_r. by rewrite E1.
  - exists t'. split; [done|]. rewrite Hrv, Hrv1, Hp', list_insert_insert_eq in Hcv'. unfold g in Hcv'.
    rewrite (cv_rows _ _ _ _ _ Hcv) in Hcv'. done.
Qed.

(** A wide character at the last column: that column is left blank, in the pen's attributes. *)
Lemma print_wide_wrap sz rvs p a t c V0 wr0 v0 V wr :
  canvas sz rvs p a t → prints c 2 → 2 ≤ cols sz → col p = cols sz - 1 → row p + 1 < rows sz →
  rvs !! Z.to_nat (row p) = Some (V0, wr0) → V0 !! Z.to_nat (col p) = Some v0 → plain_view v0 →
  rvs !! Z.to_nat (row p + 1) = Some (V, wr) → fits_at V 0 true →
  ∃ t', vt_perform t (VPrint c) = Some t' ∧
    canvas sz (<[Z.to_nat (row p + 1) := (drawn V 0 [c] true (sgr_bare a), true)]>
                (<[Z.to_nat (row p) := (<[Z.to_nat (col p) := blank_view (sgr_bare a)]> V0, wr0)]> rvs)) (mkPos (row p + 1) 2) a t'.
Proof.
  intros Hcv Hpr Hws Hc Hr1 Hrow0 Hv0 Hpl Hrow Hfit. destruct (canvas_ok _ _ _ _ _ Hcv) as (Hg & Hrs & Hcs & Hr & Hcl).
  pose proof (cv_ready _ _ _ _ _ Hcv) as Hrd. pose proof (cv_pos _ _ _ _ _ Hcv) as Hp. pose proof (rd_size _ _ Hrd) as Hsz.
  pose proof Hpr as (_ & _ & _ & Hsc & _). destruct (canvas_row _ _ _ _ _ _ _ _ Hcv Hrow0) as (x & Hx & HV0 & Hw0 & Hxok).
  set (g := cur_grid t) in *. rewrite <- HV0, list_lookup_fmap in Hv0.
  destruct (cells x !! Z.to_nat (col p)) as [cell|] eqn:Hcell; [|done]. injection Hv0 as <-.
  pose proof (row_erase_plain x (col p) (sgr_bare a) cell Hcell Hpl) as Er. set (x' := mkRow _ _) in Er.
  destruct (row_erase_ok _ x (col p) (sgr_bare a) Hxok) as (y & Ey & Hyok & _); [lia..|]. rewrite Er in Ey. injection Ey as <-.
  set (g0 := with_rows g (<[Z.to_nat (row p) := x']> (g_rows g))).
  assert (Hg0 : grid_ok g0).
  { apply ok_rows; [done|apply length_insert|]. apply Forall_insert; [apply Hg|by rewrite Hsz]. }
  assert (Hrv0 : map rview (g_rows g0) = <[Z.to_nat (row p) := (<[Z.to_nat (col p) := blank_view (sgr_bare a)]> V0, wr0)]> rvs).
  { unfold g0. cbn [g_rows with_rows]. rewrite map_rview_insert. unfold g. rewrite (cv_rows _ _ _ _ _ Hcv). f_equal.
    unfold rview, x'. cbn [cells wrapped]. by rewrite map_view_insert, HV0, Hw0. }
  destruct (col_wrap_next g0 2 (row p) V wr) as (g1 & E1 & Hg1 & Hf1 & Hp1 & Hrv1);
    change (size g0) with (size g); change (pos g0) with (pos g); try rewrite Hsz; try rewrite Hp; try done; try lia.
  { apply Hrd. }
  { apply Hrd. }
  { rewrite Hrv0. by rewrite list_lookup_insert_ne by lia. }
  destruct (put_char_rows g1 c 2 a V true (row p + 1) 0) as (g' & E & Hf & Hrv & Hp'); try done; [by apply prints_wide|by right|..].
  { rewrite Hrv1. apply list_lookup_insert_eq. rewrite Hrv0, length_insert. by eapply lookup_lt_Some. }
  destruct (print_grid sz rvs p a t c 2 g' Hcv Hpr) as (t' & E' & Hcv'); [|by rewrite Hf|].
  - fold g. rewrite (draw_inner_visible g a c 2 Hpr) by (rewrite Hsz; lia). rewrite Hp, Hsz. cbn [Z.eqb Z.ltb Z.compare Pos.compare Pos.compare_cont andb].
    rewrite (proj2 (Z.eqb_eq (col p) (cols sz - 1))) by lia. unfold update_row, drawing_row. rewrite Hx, <- Hc, Er. fold g0. by rewrite E1.
  - exists t'. split; [done|]. rewrite Hrv, Hrv1, Hp', list_insert_insert_eq, Hrv0 in Hcv'. done.
Qed.

(** A step back to the first column. *)
Lemma bs_spec sz rvs p a t :
  canvas sz rvs p a t → col p = 1 → ∃ t', vt_perform t (VExecute 8) = Some t' ∧ canvas sz rvs (mkPos (row p) 0) a t'.
Proof.
  intros Hcv Hc1. destruct (canvas_ok _ _ _ _ _ Hcv) as (Hg & Hrs & Hcs & Hr & Hcl). pose proof (cv_ready _ _ _ _ _ Hcv) as Hrd.
  pose proof (cv_pos _ _ _ _ _ Hcv) as Hp. pose proof (rd_size _ _ Hrd) as Hsz.
  destruct (canvas_grid sz rvs p a t (VExecute 8) (with_pos (cur_grid t) (mkPos (row p) 0)) Hcv) as (t' & E & Hcv').
  - done.
  - change (vt_perform t (VExecute 8)) with (on_grid (break_rep t) (λ g, col_dec_restricted g 1)).
    unfold on_grid. rewrite cur_break_rep. unfold col_dec_restricted, col_clamp, col_dec, with_col. rewrite Hsz, Hp, Hc1, u16_sub_ok by lia.
    destruct (Z.ltb_spec (cols sz - 1) 1); cbn [pos with_pos row col]; rewrite ?Hp; unfold sat_sub.
    + by replace (Z.max 0 (cols sz - 1 - 1)) with 0 by lia.
    + by rewrite Hc1.
  - done.
  - exists t'. split; [done|]. cbn [g_rows with_pos pos] in Hcv'. by rewrite (cv_rows _ _ _ _ _ Hcv) in Hcv'.
Qed.

End Painting.
