(* ===== verification/VtPaintRow.v ===== *)
(** * Painting rows

    Pictures: what a terminal shows, where its cursor is and with which pen. Every sequence
    the writers of [VtRender] emit takes one picture to another; the row writer takes a
    picture whose row is still blank to one that shows the row written. *)

From S2P Require Import Prelude TermQuery VtCell VtRow VtGrid VtGridInv VtScreen VtDraw VtScreenProps VtRender VtRenderPen VtPaint.

Record Picture := mkPicture {
  pc_rows : list (list View * bool);
  pc_pos : Pos;
  pc_pen : Attrs;
}.

(** ** Attributes *)

Lemma apply_field_bare {A} (f : Attrs → A → Attrs) o a :
  (∀ a x, sgr_bare (f a x) = f (sgr_bare a) x) → sgr_bare (apply_field f o a) = apply_field f o (sgr_bare a).
Proof. intros Hf. by destruct o; simpl. Qed.

Lemma set_flag_bare bit a b : sgr_bare (set_flag bit a b) = set_flag bit (sgr_bare a) b.
Proof. done. Qed.

Lemma apply_attrs_bare d a : sgr_bare (apply_attrs d a) = apply_attrs d (sgr_bare a).
Proof.
  unfold apply_attrs. cbv zeta. rewrite !(apply_field_bare (set_flag _)) by done.
  rewrite (apply_field_bare set_underline) by (by intros ? []). rewrite !(apply_field_bare (set_flag _)) by done.
  rewrite (apply_field_bare set_intensity) by (by intros ? [[] []]).
  by rewrite (apply_field_bare with_ul), (apply_field_bare with_bg), (apply_field_bare with_fg).
Qed.

Lemma color_params_ok c dflt lo hi ext :
  color_ok c → is_u16 dflt → 0 ≤ lo ≤ 1000 → 0 ≤ hi ≤ 1000 → is_u16 ext → params_ok (color_params c dflt lo hi ext).
Proof.
  intros Hc Hd Hlo Hhi He. unfold color_params, params_ok, is_u16, u16_max, u8_max in *.
  destruct c as [|i|r g b]; cbn in Hc; repeat case_match; repeat constructor; unfold u8_max in *; lia.
Qed.

Lemma params_ok_app ps qs : params_ok ps → params_ok qs → params_ok (ps ++ qs).
Proof. intros H1 H2. by apply Forall_app. Qed.

Lemma attrs_params_ok d : diff_ok d → params_ok (attrs_params d).
Proof.
  intros (Hf & Hb & Hu). unfold attrs_params.
  assert (Hopt : ∀ {A} (f : A → list (list Z)) o, (∀ x, o = Some x → params_ok (f x)) → params_ok (opt_params f o)).
  { intros A f [x|] Hx; [by apply Hx|by constructor]. }
  repeat apply params_ok_app; apply Hopt.
  1-3: intros c E; apply color_params_ok; try (by unfold is_u16, u16_max); eauto.
  - by intros [[] []] _; repeat constructor.
  - by intros [] _; repeat constructor.
  - by intros [[]|] _; repeat constructor.
  - by intros [] _; repeat constructor.
  - by intros [] _; repeat constructor.
  - by intros [] _; repeat constructor.
  - by intros [] _; repeat constructor.
  - by intros [] _; repeat constructor.
Qed.

(** ** Cells in order *)

Lemma write_cells_app ncols wrapping r l1 l2 w :
  write_cells ncols wrapping r (l1 ++ l2) w =
    (let! w := write_cells ncols wrapping r l1 w in write_cells ncols wrapping r l2 w).
Proof.
  revert w. induction l1 as [|cl l1 IH]; intros w; [done|]. cbn [app write_cells]. destruct (write_cell _ _ _ _ _); [apply IH|done].
Qed.

Lemma zip_columns (pre l1 l2 : list Cell) :
  zip (seqZ (Z.of_nat (length pre)) (Z.of_nat (length (l1 ++ l2)))) (l1 ++ l2) =
    zip (seqZ (Z.of_nat (length pre)) (Z.of_nat (length l1))) l1 ++
    zip (seqZ (Z.of_nat (length (pre ++ l1))) (Z.of_nat (length l2))) l2.
Proof.
  rewrite length_app, Nat2Z.inj_add, seqZ_app by lia. rewrite zip_with_app by (rewrite length_seqZ; lia).
  by rewrite length_app, Nat2Z.inj_add.
Qed.

Section Rows.
Context (ms : Kept) (sz : Size) `{!UnicodeWidth}.
Context (Hrs : 1 ≤ rows sz ≤ u16_max) (Hcs : 1 ≤ cols sz < u16_max).

Definition depicts (P : Picture) (t : Screen) : Prop :=
  ∃ a, canvas ms sz (pc_rows P) (pc_pos P) a t ∧ sgr_bare a = pc_pen P.

(** What the output does to a terminal that shows [P]. *)
Definition paints (out : list Item) (P P' : Picture) : Prop :=
  ∀ t, depicts P t → ∃ t', vt_perform_all t (buf_events out) = Some t' ∧ depicts P' t'.

Lemma perform_all_app evs evs' s :
  vt_perform_all s (evs ++ evs') = (let! s := vt_perform_all s evs in vt_perform_all s evs').
Proof. revert s. induction evs as [|ev evs IH]; intros s; [done|]. cbn [app vt_perform_all]. destruct (vt_perform s ev); [apply IH|done]. Qed.

Lemma paints_nil P : paints [] P P.
Proof. intros t Ht. by exists t. Qed.

Lemma paints_app out out' P Q R : paints out P Q → paints out' Q R → paints (out ++ out') P R.
Proof.
  intros H1 H2 t Ht. destruct (H1 t Ht) as (t1 & E1 & Ht1). destruct (H2 t1 Ht1) as (t2 & E2 & Ht2). exists t2.
  split; [|done]. unfold buf_events in *. by rewrite flat_map_app, perform_all_app, E1.
Qed.

Lemma paints_cons i out P Q R : paints [i] P Q → paints out Q R → paints (i :: out) P R.
Proof. apply (paints_app [i] out). Qed.

(** An item read as one event. *)
Lemma paints_one i ev P P' :
  item_events i = [ev] →
  (∀ t a, canvas ms sz (pc_rows P) (pc_pos P) a t → sgr_bare a = pc_pen P → ∃ t', vt_perform t ev = Some t' ∧ depicts P' t') →
  paints [i] P P'.
Proof.
  intros Hi Hev t (a & Hcv & Ha). destruct (Hev t a Hcv Ha) as (t' & E & Ht'). exists t'. split; [|done].
  unfold buf_events. cbn [flat_map]. rewrite Hi, app_nil_r. cbn [vt_perform_all]. by rewrite E.
Qed.

Lemma sgr_spec rvs p a t ps :
  canvas ms sz rvs p a t → params_ok ps → ps ≠ [] →
  ∃ t', vt_perform t (VCsi ps [] 109) = Some t' ∧ canvas ms sz rvs p (sgr_all ps a) t'.
Proof.
  intros [Hr Hrv Hp Ha] Hps Hne. destruct (perform_good t (VCsi ps [] 109) (rd_ok _ _ _ Hr) Hps) as (t' & E & Hok & _).
  change (vt_perform t (VCsi ps [] 109)) with (Some (sgr (break_rep t) ps)) in E. injection E as <-.
  exists (sgr (break_rep t) ps). split; [done|].
  assert (Eg : cur_grid (sgr (break_rep t) ps) = set_blank_attrs (cur_grid t) (for_erase (attrs (sgr (break_rep t) ps)))).
  { unfold sgr, cur_grid, mode_on. cbn. by destruct (negb _). }
  split.
  - eapply ready_step; [done|done|done|done|..]; by rewrite Eg.
  - by rewrite Eg.
  - by rewrite Eg.
  - unfold sgr. rewrite bool_decide_eq_false_2 by done. cbn. by rewrite Ha.
Qed.

Lemma paints_diff self other rvs p :
  attrs_ok self → attrs_ok other →
  paints (write_escape_code_diff self other) (mkPicture rvs p (sgr_bare other)) (mkPicture rvs p (sgr_bare self)).
Proof.
  intros Hs Ho. unfold write_escape_code_diff. destruct (_ && _) eqn:Ed.
  - apply (paints_one IClearAttrs (VCsi [[0]] [] 109)); [done|]. intros t a Hcv Ha.
    destruct (sgr_spec _ _ _ _ [[0]] Hcv) as (t' & E & Hcv'); [by repeat constructor|done|]. exists t'. split; [done|].
    exists (sgr_all [[0]] a). split; [done|]. b2p. unfold sgr_eq in *.
    match goal with H : bool_decide (sgr_bare self = _) = true |- _ => apply bool_decide_eq_true_1 in H as -> end. done.
  - intros t (a & Hcv & Ha). unfold buf_events. cbn [flat_map item_events]. rewrite app_nil_r. cbn [pc_rows pc_pos pc_pen] in *.
    pose proof (sets_attrs (attrs_diff self other) (diff_ok_diff self other Hs)) as Hset.
    assert (Ea : sgr_all (attrs_params (attrs_diff self other)) a = apply_attrs (attrs_diff self other) a).
    { rewrite <- (app_nil_r (attrs_params _)). apply Hset. }
    assert (Hb : sgr_bare (sgr_all (attrs_params (attrs_diff self other)) a) = sgr_bare self).
    { by rewrite Ea, apply_attrs_bare, Ha, apply_diff. }
    destruct (decide (attrs_params (attrs_diff self other) = [])) as [En|En];
      [rewrite (bool_decide_eq_true_2 _ En)|rewrite (bool_decide_eq_false_2 _ En)]; cbn [vt_perform_all].
    + exists t. split; [done|]. exists a. split; [done|]. cbn. rewrite <- Hb, En. done.
    + unfold csi_event. rewrite bool_decide_eq_false_2 by done.
      destruct (sgr_spec _ _ _ _ (attrs_params (attrs_diff self other)) Hcv) as (t' & E & Hcv'); [by apply attrs_params_ok, diff_ok_diff|done|].
      rewrite E. exists t'. split; [done|]. eexists. split; [exact Hcv'|done].
Qed.

Lemma paints_switch self other rvs p :
  attrs_ok self → attrs_ok other →
  paints (switch_attrs self other) (mkPicture rvs p (sgr_bare other)) (mkPicture rvs p (sgr_bare self)).
Proof.
  intros Hs Ho. unfold switch_attrs. case_bool_decide as E; [subst; apply paints_nil|by apply paints_diff].
Qed.

(** ** Moves and erasures *)

Definition in_screen (p : Pos) : Prop := 0 ≤ row p < rows sz ∧ 0 ≤ col p < cols sz.

Lemma paints_move_to rvs p q pen : in_screen q → ∃ out, move_to q = Some out ∧ paints out (mkPicture rvs p pen) (mkPicture rvs q pen).
Proof.
  intros [Hr Hc]. exists [IMoveTo (row q + 1) (col q + 1)]. split; [unfold move_to; by rewrite !u16_add_ok by lia|].
  destruct ((row q + 1 =? 1) && (col q + 1 =? 1)) eqn:E1.
  - apply (paints_one _ (VCsi [[0]] [] 72)); [cbn; by rewrite E1|]. intros t a Hcv Ha.
    destruct (home_spec ms sz rvs p a t Hcv) as (t' & E & Hcv'). exists t'. split; [done|]. exists a. split; [|done]. b2p.
    replace q with (mkPos 0 0); [done|]. destruct q. cbn in *. f_equal; lia.
  - apply (paints_one _ (VCsi [[row q + 1]; [col q + 1]] [] 72)); [cbn; by rewrite E1|]. intros t a Hcv Ha.
    destruct (cup_spec ms sz rvs p a t q Hcv Hr Hc) as (t' & E & Hcv'). exists t'. split; [done|]. by exists a.
Qed.

Lemma paints_crlf rvs p pen V :
  0 ≤ row p → row p + 1 < rows sz → rvs !! Z.to_nat (row p + 1) = Some (V, false) →
  paints [ICrlf] (mkPicture rvs p pen) (mkPicture rvs (mkPos (row p + 1) 0) pen).
Proof.
  intros Hr Hr1 Hrow t (a & Hcv & Ha). cbn [pc_rows pc_pos pc_pen] in *.
  destruct (cr_spec ms sz rvs p a t Hcv) as (t1 & E1 & Hcv1).
  destruct (lf_spec ms sz rvs _ a t1 V false Hcv1) as (t2 & E2 & Hcv2); [simpl; lia..|done|]. cbn [row col] in *.
  rewrite list_insert_id in Hcv2 by done. exists t2. split; [|by exists a].
  unfold buf_events. cbn [flat_map item_events app vt_perform_all]. by rewrite E1, E2.
Qed.

Lemma paints_right rvs p pen n :
  0 ≤ col p → 1 ≤ n → col p + n < cols sz → paints [IMoveRight n] (mkPicture rvs p pen) (mkPicture rvs (mkPos (row p) (col p + n)) pen).
Proof.
  intros Hc Hn Hcn. set (ps := if n =? 1 then [[0]] else [[n]]).
  apply (paints_one _ (VCsi ps [] 67)).
  { cbn. rewrite (proj2 (Z.eqb_neq _ _)) by lia. unfold ps. by destruct (n =? 1). }
  intros t a Hcv Ha. destruct (cuf_spec ms sz rvs p a t ps n Hcv) as (t' & E & Hcv').
  - unfold ps. destruct (n =? 1); repeat constructor; unfold u16_max in *; lia.
  - unfold ps. destruct (Z.eqb_spec n 1) as [->|]; [done|]. apply canon_value. lia.
  - done.
  - done.
  - exists t'. split; [done|]. by exists a.
Qed.

(** The cheapest way somewhere; a row reached by a new line must not continue another. *)
Lemma paints_move rvs from to pen :
  0 ≤ row from < rows sz → 0 ≤ col from → in_screen to → (row to = row from + 1 → ∃ V, rvs !! Z.to_nat (row to) = Some (V, false)) →
  ∃ out, move_from_to from to = Some out ∧ paints out (mkPicture rvs from pen) (mkPicture rvs to pen).
Proof.
  intros Hr Hc Hin Hnext. pose proof Hin as [Htr Htc]. unfold move_from_to. rewrite u16_add_ok by lia.
  destruct ((row to =? row from + 1) && (col to =? 0)) eqn:E1.
  { b2p. destruct Hnext as (V & HV); [lia|]. exists [ICrlf]. split; [done|].
    replace to with (mkPos (row from + 1) 0) by (destruct to; cbn in *; f_equal; lia).
    apply (paints_crlf _ _ _ V); [lia|lia|]. by replace (row from + 1) with (row to) by lia. }
  destruct ((row from =? row to) && (col from <? col to)) eqn:E2.
  { b2p. rewrite u16_sub_ok by lia. eexists. split; [done|].
    replace to with (mkPos (row from) (col from + (col to - col from))) at 2 by (destruct to; cbn in *; f_equal; lia).
    apply paints_right; lia. }
  case_bool_decide as E3; [|by apply paints_move_to]. subst. exists []. split; [done|]. apply paints_nil.
Qed.

Lemma paints_erase rvs p pen n V w :
  (1 ≤ n)%nat → 0 ≤ col p → col p + Z.of_nat n ≤ cols sz → rvs !! Z.to_nat (row p) = Some (V, w) →
  Forall plain_view (take n (drop (Z.to_nat (col p)) V)) →
  paints [IEraseChar (Z.of_nat n)] (mkPicture rvs p pen)
    (mkPicture (<[Z.to_nat (row p) := (blanked V (Z.to_nat (col p)) n (for_erase pen), w)]> rvs) p pen).
Proof.
  intros Hn Hc Hcn Hrow Hpl. set (ps := if Z.of_nat n =? 1 then [[0]] else [[Z.of_nat n]]).
  apply (paints_one _ (VCsi ps [] 88)).
  { cbn. rewrite (proj2 (Z.eqb_neq _ 0)) by lia. unfold ps. by destruct (Z.of_nat n =? 1). }
  intros t a Hcv Ha. destruct (ech_spec ms sz rvs p a t ps n V w Hcv) as (t' & E & Hcv'); try done; try lia.
  - unfold ps. destruct (Z.of_nat n =? 1); repeat constructor; unfold u16_max in *; lia.
  - unfold ps. destruct (Z.eqb_spec (Z.of_nat n) 1) as [E1|]; [rewrite E1; done|]. apply canon_value. lia.
  - exists t'. split; [done|]. exists a. split; [|done]. cbn [pc_pen] in Ha. by rewrite <- Ha.
Qed.

Lemma paints_clear_right rvs p pen V w :
  0 ≤ col p < cols sz → rvs !! Z.to_nat (row p) = Some (V, w) → Forall plain_view (drop (Z.to_nat (col p)) V) →
  paints [IClearRowForward] (mkPicture rvs p pen)
    (mkPicture (<[Z.to_nat (row p) := (blanked V (Z.to_nat (col p)) (Z.to_nat (cols sz - col p)) (for_erase pen),
                                       if col p =? 0 then false else w)]> rvs) p pen).
Proof.
  intros Hc Hrow Hpl. apply (paints_one _ (VCsi [[0]] [] 75)); [done|].
  intros t a Hcv Ha. destruct (el_spec ms sz rvs p a t V w Hcv) as (t' & E & Hcv'); try done; try lia.
  exists t'. split; [done|]. exists a. split; [|done]. cbn [pc_pen] in Ha. by rewrite <- Ha.
Qed.

(** ** Text *)

Lemma draw_inner_mark g a m :
  prints m 0 → grid_ok g → draw_inner g false true a m = draw_mark g (pos g) m.
Proof.
  intros (H32 & Hc1 & Hbom & Hsc & Hn & Hw) Hg. pose proof (go_cols _ Hg) as Hc. pose proof (go_col _ Hg) as Hcol. unfold draw_inner.
  rewrite (proj2 (Z.eqb_neq _ _) Hbom), Hw.
  assert (En : bool_decide (char_width m = None) && (m <? 256) = false) by (by destruct (char_width m)). rewrite En.
  rewrite (proj2 (Z.ltb_ge _ _)) by lia. cbn [Z.eqb Z.ltb Z.compare andb negb]. rewrite !u16_sub_ok by lia.
  unfold col_wrap. rewrite u16_sub_ok by lia. rewrite Z.sub_0_r. rewrite (proj2 (Z.ltb_ge _ _)) by lia. done.
Qed.

Lemma append_view c m ch cs wide b :
  cell_ok c → is_scalar m = true → view c = text_view (ch :: cs) wide b → Z.of_nat (length (encode_all (ch :: cs))) < 18 →
  ∃ c', append c m = Some c' ∧ view c' = text_view (ch :: cs ++ [m]) wide b.
Proof.
  intros Hok Hm Hv Hlen. injection Hv as Ht Hw Hk Ha.
  destruct (append_ok c m Hok Hm) as (c' & cs' & E & Eap & _ & Ht' & Hw' & Hk' & Ha').
  rewrite Ht in E. injection E as <-. exists c'. split; [done|]. unfold view. rewrite Ht', Hw', Hk', Ha', Hw, Hk, Ha.
  rewrite (cell_len_text _ _ Hok Ht). rewrite (proj2 (Z.leb_gt _ _)) by lia.
  unfold appended. by rewrite bool_decide_eq_false_2 by done.
Qed.

Lemma drawn_text V cc cs wide b : (cc < length V)%nat → drawn V cc cs wide b !! cc = Some (text_view cs wide b).
Proof.
  intros Hc. unfold drawn. destruct wide; [rewrite list_lookup_insert_ne by lia|]; by apply list_lookup_insert_eq.
Qed.

Lemma drawn_again V cc cs cs' wide b : <[cc := text_view cs' wide b]> (drawn V cc cs wide b) = drawn V cc cs' wide b.
Proof.
  unfold drawn. destruct wide; [|by rewrite list_insert_insert_eq]. rewrite (list_insert_insert_ne _ cc (S cc)) by lia.
  by rewrite list_insert_insert_eq.
Qed.

Lemma mark_drawn rvs r cc w a t m V wr ch cs b :
  canvas ms sz rvs (mkPos (Z.of_nat r) (Z.of_nat cc + w)) a t → prints m 0 → w = 1 ∨ w = 2 →
  rvs !! r = Some (drawn V cc (ch :: cs) (1 <? w) b, wr) → Z.of_nat cc + w ≤ Z.of_nat (length V) →
  Z.of_nat (length (encode_all (ch :: cs))) < 18 →
  ∃ t', vt_perform t (VPrint m) = Some t' ∧
    canvas ms sz (<[r := (drawn V cc (ch :: cs ++ [m]) (1 <? w) b, wr)]> rvs) (mkPos (Z.of_nat r) (Z.of_nat cc + w)) a t'.
Proof.
  intros Hcv Hpr Hw Hrow Hlen Hfull. destruct (canvas_ok _ _ _ _ _ _ Hcv) as (Hg & _ & _ & Hr & Hcl).
  pose proof (cv_pos _ _ _ _ _ _ Hcv) as Hp. pose proof Hpr as (_ & _ & _ & Hsc & _).
  destruct (canvas_row _ _ _ _ _ _ _ _ _ Hcv Hrow) as (x & Hx & HV & Hwr & Hxok). set (g := cur_grid t) in *.
  assert (Hcell : ∃ c, cells x !! cc = Some c ∧ view c = text_view (ch :: cs) (1 <? w) b).
  { pose proof (drawn_text V cc (ch :: cs) (1 <? w) b ltac:(lia)) as Hd. rewrite <- HV, list_lookup_fmap in Hd.
    destruct (cells x !! cc) as [c|]; [|discriminate Hd]. exists c. split; [done|]. by apply (inj Some) in Hd. }
  destruct Hcell as (c & Hc & Hvc).
  assert (Hck : cell_ok c).
  { pose proof (ro_cells _ _ Hxok) as Hall. rewrite Forall_forall in Hall. apply Hall. by apply list_elem_of_lookup_2 in Hc. }
  destruct (append_view c m ch cs (1 <? w) b Hck Hsc Hvc Hfull) as (c' & Eap & Hvc').
  set (x' := mkRow (<[cc := c']> (cells x)) (wrapped x)). set (g' := with_rows g (<[r := x']> (g_rows g))).
  assert (Eupd : update_cell g (mkPos (Z.of_nat r) (Z.of_nat cc)) (λ x, append x m) = Some g').
  { unfold update_cell, update_row, drawing_row, row_get. cbn [row col]. rewrite !Nat2Z.id, Hx, Hc, Eap. done. }
  destruct (print_grid ms sz rvs _ a t m 0 g' Hcv Hpr) as (t' & E' & Hcv').
  - fold g. rewrite (draw_inner_mark g a m Hpr Hg), Hp. unfold draw_mark. cbn [row col]. rewrite (proj2 (Z.ltb_lt _ _)) by lia.
    unfold drawing_cell, drawing_row, row_get. cbn [row col]. rewrite Nat2Z.id, Hx.
    destruct Hw as [->| ->].
    + replace (Z.of_nat cc + 1 - 1) with (Z.of_nat cc) by lia. rewrite Nat2Z.id, Hc. injection Hvc as _ _ Hk _. rewrite Hk. exact Eupd.
    + assert (Hh : ∃ d, cells x !! S cc = Some d ∧ is_wide_continuation d = true).
      { assert (Hd : drawn V cc (ch :: cs) (1 <? 2) b !! S cc = Some (half_view b)) by (apply list_lookup_insert_eq; rewrite length_insert; lia).
        rewrite <- HV, list_lookup_fmap in Hd. destruct (cells x !! S cc) as [d|]; [|done]. exists d. split; [done|]. by apply (inj Some), (f_equal (λ v, v.1.2)) in Hd. }
      destruct Hh as (d & Hd & Hk). replace (Z.to_nat (Z.of_nat cc + 2 - 1)) with (S cc) by lia. rewrite Hd, Hk, u16_sub_ok by lia.
      replace (Z.of_nat cc + 2 - 2) with (Z.of_nat cc) by lia. exact Eupd.
  - done.
  - exists t'. split; [done|]. unfold g' in Hcv'. cbn [g_rows with_rows pos] in Hcv'. rewrite map_rview_insert in Hcv'. unfold g in Hcv'.
    rewrite (cv_rows _ _ _ _ _ _ Hcv), (cv_pos _ _ _ _ _ _ Hcv) in Hcv'. unfold rview, x' in Hcv'. cbn [cells wrapped] in Hcv'.
    rewrite map_view_insert, HV, Hvc', Hwr, drawn_again in Hcv'. done.
Qed.

(** The text of a cell: a visible character and the marks that fitted on it. *)
Definition drawable (cs : list Z) (w : Z) : Prop :=
  ∃ ch marks, cs = ch :: marks ∧ prints ch w ∧ (w = 1 ∨ w = 2) ∧ Forall (λ m, prints m 0) marks ∧
    fit (Z.of_nat (length (encode_utf8 ch))) marks = marks.

Lemma print_event c w : prints c w → char_event c = VPrint c.
Proof. intros [Hc _]. unfold char_event. by rewrite (proj2 (Z.ltb_ge _ _)) by lia. Qed.

Lemma encode_all_one c : encode_all [c] = encode_utf8 c.
Proof. unfold encode_all. simpl. apply app_nil_r. Qed.

Lemma marks_spec marks : ∀ rvs r cc w a t V wr ch cs b,
  canvas ms sz rvs (mkPos (Z.of_nat r) (Z.of_nat cc + w)) a t → Forall (λ m, prints m 0) marks → w = 1 ∨ w = 2 →
  rvs !! r = Some (drawn V cc (ch :: cs) (1 <? w) b, wr) → Z.of_nat cc + w ≤ Z.of_nat (length V) →
  fit (Z.of_nat (length (encode_all (ch :: cs)))) marks = marks →
  ∃ t', vt_perform_all t (map char_event marks) = Some t' ∧
    canvas ms sz (<[r := (drawn V cc (ch :: cs ++ marks) (1 <? w) b, wr)]> rvs) (mkPos (Z.of_nat r) (Z.of_nat cc + w)) a t'.
Proof.
  induction marks as [|m marks IH]; intros rvs r cc w a t V wr ch cs b Hcv Hm Hw Hrow Hlen Hfit.
  { exists t. split; [done|]. by rewrite app_nil_r, list_insert_id. }
  apply Forall_cons in Hm as [Hm Hms]. cbn [fit] in Hfit. destruct (Z.leb_spec 18 (Z.of_nat (length (encode_all (ch :: cs))))) as [|Hfull]; [done|].
  injection Hfit as Hfit. destruct (mark_drawn rvs r cc w a t m V wr ch cs b Hcv Hm Hw Hrow Hlen Hfull) as (t1 & E1 & Hcv1).
  destruct (IH _ r cc w a t1 V wr ch (cs ++ [m]) b Hcv1 Hms Hw) as (t' & E' & Hcv'); [|done|..].
  - apply list_lookup_insert_eq. by eapply lookup_lt_Some.
  - change (ch :: cs ++ [m]) with ((ch :: cs) ++ [m]). rewrite encode_all_app, length_app, encode_all_one, Nat2Z.inj_add. done.
  - exists t'. split; [|by rewrite <- app_assoc, list_insert_insert_eq in Hcv'].
    cbn [map vt_perform_all]. rewrite (print_event m 0 Hm). by rewrite E1.
Qed.

(** The whole text of a cell, once its first character is drawn. *)
Lemma text_spec cs w rvs1 a t t1 r cc V wr :
  drawable cs w → Z.of_nat cc + w ≤ Z.of_nat (length V) →
  vt_perform t (VPrint (hd 0 cs)) = Some t1 → canvas ms sz rvs1 (mkPos (Z.of_nat r) (Z.of_nat cc + w)) a t1 →
  rvs1 !! r = Some (drawn V cc [hd 0 cs] (1 <? w) (sgr_bare a), wr) →
  ∃ t', vt_perform_all t (map char_event cs) = Some t' ∧
    canvas ms sz (<[r := (drawn V cc cs (1 <? w) (sgr_bare a), wr)]> rvs1) (mkPos (Z.of_nat r) (Z.of_nat cc + w)) a t'.
Proof.
  intros (ch & marks & -> & Hpr & Hw & Hm & Hfit) Hlen E1 Hcv1 Hrow. cbn [hd] in *.
  destruct (marks_spec marks rvs1 r cc w a t1 V wr ch [] (sgr_bare a) Hcv1 Hm Hw Hrow Hlen) as (t' & E' & Hcv').
  - by rewrite encode_all_one.
  - exists t'. split; [|done]. cbn [map vt_perform_all]. rewrite (print_event ch w Hpr). by rewrite E1.
Qed.

Lemma paints_text cs w rvs r cc pen V wr :
  drawable cs w → Z.of_nat cc + w ≤ cols sz → Z.of_nat cc + w ≤ Z.of_nat (length V) → rvs !! r = Some (V, wr) → fits_at V cc (1 <? w) →
  paints [IText cs] (mkPicture rvs (mkPos (Z.of_nat r) (Z.of_nat cc)) pen)
    (mkPicture (<[r := (drawn V cc cs (1 <? w) pen, wr)]> rvs) (mkPos (Z.of_nat r) (Z.of_nat cc + w)) pen).
Proof.
  intros Hd Hc Hlen Hrow Hfit t (a & Hcv & Ha). cbn [pc_rows pc_pos pc_pen] in *. subst pen.
  pose proof Hd as (ch & marks & -> & Hpr & Hw & _).
  destruct (print_spec ms sz rvs _ a t ch w V wr Hcv Hpr Hw) as (t1 & E1 & Hcv1); [done|by cbn [row]; rewrite Nat2Z.id|by cbn [col]; rewrite Nat2Z.id|].
  cbn [row col] in *. rewrite !Nat2Z.id in Hcv1.
  destruct (text_spec (ch :: marks) w _ a t t1 r cc V wr Hd Hlen E1 Hcv1) as (t' & E' & Hcv').
  - apply list_lookup_insert_eq. by eapply lookup_lt_Some.
  - exists t'. split; [|by rewrite list_insert_insert_eq in Hcv'; exists a].
    unfold buf_events. cbn [flat_map item_events]. by rewrite app_nil_r.
Qed.

Lemma paints_text_wrap cs w rvs r pen V wr :
  drawable cs w → w ≤ cols sz → w ≤ Z.of_nat (length V) → Z.of_nat r + 1 < rows sz → rvs !! S r = Some (V, wr) → fits_at V 0 (1 <? w) →
  paints [IText cs] (mkPicture rvs (mkPos (Z.of_nat r) (cols sz)) pen)
    (mkPicture (<[S r := (drawn V 0 cs (1 <? w) pen, true)]> rvs) (mkPos (Z.of_nat (S r)) w) pen).
Proof.
  intros Hd Hc Hlen Hr Hrow Hfit t (a & Hcv & Ha). cbn [pc_rows pc_pos pc_pen] in *. subst pen.
  pose proof Hd as (ch & marks & -> & Hpr & Hw & _).
  destruct (print_wrap ms sz rvs _ a t ch w V wr Hcv Hpr Hw) as (t1 & E1 & Hcv1); cbn [row col]; try done.
  { by replace (Z.to_nat (Z.of_nat r + 1)) with (S r) by lia. }
  cbn [row col] in *. replace (Z.to_nat (Z.of_nat r + 1)) with (S r) in Hcv1 by lia.
  replace (Z.of_nat r + 1) with (Z.of_nat (S r)) in Hcv1 by lia.
  destruct (text_spec (ch :: marks) w _ a t t1 (S r) 0 V true Hd Hlen E1 Hcv1) as (t' & E' & Hcv').
  - apply list_lookup_insert_eq. by eapply lookup_lt_Some.
  - exists t'. split; [|by rewrite list_insert_insert_eq in Hcv'; exists a].
    unfold buf_events. cbn [flat_map item_events]. by rewrite app_nil_r.
Qed.

(** ** Rows *)

(** A cell that an erasure left. *)
Record blank_cell (c : Cell) : Prop := {
  bc_len : cell_len c = 0;
  bc_wide : is_wide c = false;
  bc_half : is_wide_continuation c = false;
  bc_attrs : attrs_ok (cell_attrs c);
  bc_erased : sgr_bare (cell_attrs c) = for_erase (cell_attrs c);
}.

(** A cell whose character, of [w] columns, can be drawn again. *)
Record text_cell (c : Cell) (cs : list Z) (w : Z) : Prop := {
  tc_text : contents c = Some cs;
  tc_drawable : drawable cs w;
  tc_wide : is_wide c = (1 <? w);
  tc_half : is_wide_continuation c = false;
  tc_attrs : attrs_ok (cell_attrs c);
}.

Inductive printable : list Cell → Prop :=
| pr_nil : printable []
| pr_blank c l : blank_cell c → printable l → printable (c :: l)
| pr_narrow c cs l : text_cell c cs 1 → printable l → printable (c :: l)
| pr_wide c cs d l : text_cell c cs 2 → view d = half_view (sgr_bare (cell_attrs c)) → printable l → printable (c :: d :: l).

Definition solid (v : View) : bool := negb (bool_decide (v.1.1.1 = Some [])) || v.1.2.

Lemma view_blank c : blank_cell c → view c = blank_view (for_erase (cell_attrs c)).
Proof. intros [Hl Hw Hk _ Ha]. unfold view, contents. rewrite Hl, Hw, Hk, Ha. done. Qed.

Lemma view_text c cs w : text_cell c cs w → view c = text_view cs (1 <? w) (sgr_bare (cell_attrs c)).
Proof. intros [Ht _ Hw Hk _]. unfold view. by rewrite Ht, Hw, Hk. Qed.

Lemma drawable_cons cs w : drawable cs w → ∃ ch marks, cs = ch :: marks.
Proof. intros (ch & marks & -> & _). by exists ch, marks. Qed.

Lemma text_has_contents c cs w : text_cell c cs w → has_contents c = true.
Proof.
  intros [Ht Hd _ _ _]. destruct (drawable_cons _ _ Hd) as (ch & marks & ->). unfold has_contents. apply Z.ltb_lt.
  assert (Hn : 0 ≤ cell_len c) by (apply Z.land_nonneg; by right).
  destruct (Z.eq_dec (cell_len c) 0) as [E|]; [|lia]. unfold contents in Ht. rewrite E in Ht. done.
Qed.

Lemma eqb_new_text c : has_contents c = true → cell_eqb c cell_new = false.
Proof.
  intros Hc. unfold cell_eqb. destruct (Z.eqb_spec (len_byte c) (len_byte cell_new)) as [E|]; [|done].
  unfold has_contents, cell_len in Hc. rewrite E in Hc. done.
Qed.

Lemma eqb_new_attrs c : cell_eqb c cell_new = true → cell_attrs c = attrs_default.
Proof.
  unfold cell_eqb. intros [[_ H1]%andb_true_iff _]%andb_true_iff. by apply bool_decide_eq_true_1 in H1.
Qed.

Definition nothing : View := blank_view attrs_default.
Definition width : nat := Z.to_nat (cols sz).

(** A row painted up to its [k]th cell. *)
Definition partial (pre : list Cell) (k : nat) : list View := map view (take k pre) ++ replicate (width - k) nothing.
Definition joined (wrapping : bool) (k : nat) : bool := match k with O => false | S _ => wrapping end.

Lemma partial_length pre k : (k ≤ length pre)%nat → (k ≤ width)%nat → length (partial pre k) = width.
Proof. intros H1 H2. unfold partial. rewrite length_app, length_map, length_take, length_replicate. lia. Qed.

Lemma partial_drop pre k : (k ≤ length pre)%nat → drop k (partial pre k) = replicate (width - k) nothing.
Proof. intros Hk. unfold partial. apply drop_app_length'. rewrite length_map, length_take. lia. Qed.

Lemma partial_lookup pre k j : (k ≤ length pre)%nat → (k ≤ j < width)%nat → partial pre k !! j = Some nothing.
Proof.
  intros Hk Hj. replace j with (k + (j - k))%nat by lia. rewrite <- lookup_drop, partial_drop by done. apply lookup_replicate_2. lia.
Qed.

Lemma partial_extend pre tl k : (k ≤ length pre)%nat → partial (pre ++ tl) k = partial pre k.
Proof. intros Hk. unfold partial. by rewrite take_app_le. Qed.

Lemma partial_full pre : partial pre (length pre) = map view pre ++ replicate (width - length pre) nothing.
Proof. unfold partial. by rewrite firstn_all. Qed.

(** A cell that looks as a cleared screen does needs no painting. *)
Lemma partial_nothing pre c :
  (length pre < width)%nat → view c = nothing → partial (pre ++ [c]) (length (pre ++ [c])) = partial pre (length pre).
Proof.
  intros Hl Hv. rewrite !partial_full, map_app, length_app. cbn [map length]. rewrite Hv, <- app_assoc. f_equal.
  replace (width - length pre)%nat with (S (width - (length pre + 1))) by lia. done.
Qed.

(** A run of blanks, erased. *)
Lemma partial_blanked pre k a :
  (k ≤ length pre)%nat → (length pre ≤ width)%nat → Forall (λ x, view x = blank_view a) (drop k pre) →
  blanked (partial pre k) k (length pre - k) a = partial pre (length pre).
Proof.
  intros Hk Hw Hb. unfold blanked. replace (k + (length pre - k))%nat with (length pre) by lia.
  assert (E : drop (length pre) (partial pre k) = replicate (width - length pre) nothing).
  { replace (length pre) with (k + (length pre - k))%nat at 1 by lia. rewrite <- drop_drop, partial_drop by done.
    rewrite drop_replicate. f_equal. lia. }
  rewrite E, partial_full. unfold partial. rewrite take_app_length' by (rewrite length_map, length_take; lia).
  rewrite app_assoc. f_equal. rewrite <- (take_drop k pre) at 3. rewrite map_app. f_equal.
  rewrite <- length_drop. induction Hb as [|x l Hx _ IH]; [done|]. simpl. by rewrite Hx, IH.
Qed.

(** The cell of a character, with its second half when it has one. *)
Definition halves (c : Cell) (tl : list Cell) (w : Z) : Prop :=
  map view tl = if 1 <? w then [half_view (sgr_bare (cell_attrs c))] else [].

Lemma partial_drawn pre c cs w tl :
  text_cell c cs w → w = 1 ∨ w = 2 → halves c tl w → (length pre + length (c :: tl) ≤ width)%nat →
  drawn (partial pre (length pre)) (length pre) cs (1 <? w) (sgr_bare (cell_attrs c)) =
    partial (pre ++ c :: tl) (length (pre ++ c :: tl)).
Proof.
  intros Hc Hw Htl Hl. rewrite !partial_full, map_app, <- app_assoc. cbn [map]. rewrite (view_text _ _ _ Hc), length_app.
  unfold halves in Htl. set (V := map view pre). assert (EV : length pre = length V) by (unfold V; by rewrite length_map).
  rewrite EV in *. unfold drawn. destruct Hw as [->| ->]; cbn [Z.ltb Z.compare Pos.compare Pos.compare_cont] in *.
  - apply map_eq_nil in Htl as ->. cbn [length] in *. replace (width - length V)%nat with (S (width - (length V + 1))) by lia.
    cbn [replicate]. by rewrite insert_middle.
  - destruct tl as [|d []]; [done| |done]. cbn [map] in *. assert (Hd : view d = half_view (sgr_bare (cell_attrs c))) by congruence. rewrite Hd. cbn [length] in *.
    replace (width - length V)%nat with (S (S (width - (length V + 2)))) by lia. cbn [replicate]. rewrite insert_middle.
    set (tv := text_view _ _ _). rewrite (app_assoc V [tv] (nothing :: _) : V ++ tv :: nothing :: _ = _).
    replace (S (length V)) with (length (V ++ [tv])) by (rewrite length_app; simpl; lia).
    rewrite insert_middle, <- app_assoc. done.
Qed.

Lemma partial_fits pre w : w = 1 ∨ w = 2 → Z.of_nat (length pre) + w ≤ cols sz → fits_at (partial pre (length pre)) (length pre) (1 <? w).
Proof.
  intros Hw Hl. exists nothing. rewrite partial_lookup by (unfold width; lia). split; [done|].
  destruct Hw as [->| ->]; cbn [Z.ltb Z.compare Pos.compare Pos.compare_cont]; [done|].
  exists nothing. rewrite partial_lookup by (unfold width; lia). split; [done|]. by left.
Qed.

(** Where the painted part of the row ends. *)
Definition frontier (pre : list Cell) (w : Writer) : nat :=
  match wr_erase w with Some (c, _) => Z.to_nat c | None => length pre end.

Section Row.
Context (r : nat) (wrapping : bool) (rvs0 : list (list View * bool)) (P0 : Picture).
Context (Hr : Z.of_nat r < rows sz) (Hlen : (r < length rvs0)%nat).

Definition picture (pre : list Cell) (k : nat) (p : Pos) (a : Attrs) : Picture :=
  mkPicture (<[r := (partial pre k, joined wrapping k)]> rvs0) p (sgr_bare a).

(** The writer has written the cells [pre] of the row, but for a run of blanks. *)
Record row_inv (pre : list Cell) (w : Writer) : Prop := {
  ri_paints : paints (wr_out w) P0 (picture pre (frontier pre w) (wr_pos w) (wr_attrs w));
  ri_attrs : attrs_ok (wr_attrs w);
  ri_row : 0 ≤ row (wr_pos w) ≤ Z.of_nat r;
  ri_col : 0 ≤ col (wr_pos w) ≤ cols sz;
  ri_wrapping : wrapping = true → if decide (frontier pre w = 0%nat) then wr_pos w = mkPos (Z.of_nat r - 1) (cols sz) else row (wr_pos w) = Z.of_nat r;
  ri_moved : wr_pos w = pc_pos P0 ∨ row (wr_pos w) = Z.of_nat r;
  ri_erase : ∀ c a, wr_erase w = Some (c, a) →
    0 ≤ c < Z.of_nat (length pre) ∧ attrs_ok a ∧ (wrapping = true → c ≠ 0) ∧
    Forall (λ x, view x = blank_view (sgr_bare a)) (drop (Z.to_nat c) pre) ∧ sgr_bare a = for_erase a;
  ri_solid : wr_erase w = None → ∀ v, last (map view pre) = Some v → solid v = true → wr_pos w = mkPos (Z.of_nat r) (Z.of_nat (length pre));
}.

Lemma picture_row pre k : <[r := (partial pre k, joined wrapping k)]> rvs0 !! r = Some (partial pre k, joined wrapping k).
Proof. by apply list_lookup_insert_eq. Qed.

Lemma picture_put pre k V b : <[r := (V, b)]> (<[r := (partial pre k, joined wrapping k)]> rvs0) = <[r := (V, b)]> rvs0.
Proof. apply list_insert_insert_eq. Qed.

(** Going to a column of the row, once it is joined to the one above. *)
Lemma reach_here pre w c :
  row_inv pre w → 0 ≤ c < cols sz → (wrapping = true → frontier pre w ≠ 0%nat) →
  follows_row wrapping (wr_pos w) (Z.of_nat r) = Some false ∧
  ∃ out, move_from_to (wr_pos w) (mkPos (Z.of_nat r) c) = Some out ∧
    paints out (picture pre (frontier pre w) (wr_pos w) (wr_attrs w)) (picture pre (frontier pre w) (mkPos (Z.of_nat r) c) (wr_attrs w)).
Proof.
  intros [Hp Ha Hrow Hcol Hw Hmo He Hs] Hc Hk. split.
  - unfold follows_row. destruct wrapping; [|done]. specialize (Hw eq_refl). rewrite decide_False in Hw by auto.
    rewrite Hw, u16_add_ok by lia. by rewrite (proj2 (Z.eqb_neq _ _)) by lia.
  - apply paints_move; cbn [row col]; [lia|lia|split; cbn [row col]; lia|]. intros E. rewrite Nat2Z.id. exists (partial pre (frontier pre w)).
    rewrite picture_row. f_equal. f_equal. unfold joined. destruct (frontier pre w) eqn:Ef; [done|]. destruct wrapping; [|done].
    specialize (Hw eq_refl). rewrite decide_False in Hw by done. lia.
Qed.

Lemma joined_pos k : wrapping = true ∧ k = 0%nat ∨ joined wrapping k = wrapping.
Proof. destruct k, wrapping; auto. Qed.

Lemma last_blank pre v k a :
  last (map view pre) = Some v → Forall (λ x, view x = blank_view a) (drop k pre) → (k < length pre)%nat → v = blank_view a.
Proof.
  intros Hv Hb Hk. rewrite last_lookup, length_map, list_lookup_fmap in Hv.
  replace (pred (length pre)) with (k + (pred (length pre) - k))%nat in Hv by lia. rewrite <- lookup_drop in Hv.
  destruct (drop k pre !! _) as [y|] eqn:Ey; [|done]. rewrite Forall_forall in Hb. apply list_elem_of_lookup_2 in Ey.
  rewrite <- (Hb y Ey). by apply (inj Some) in Hv.
Qed.

(** The run of blanks is written, up to the next cell. *)
Lemma flush_spec pre w c a :
  row_inv pre w → wr_erase w = Some (c, a) → (length pre ≤ width)%nat →
  ∃ w', flush_blanks (cols sz) wrapping (Z.of_nat r) w c a [IEraseChar (Z.of_nat (length pre) - c)] = Some w' ∧
    row_inv pre w' ∧ wr_erase w' = None ∧ wr_wide w' = wr_wide w.
Proof.
  intros Hinv He Hl. pose proof Hinv as [Hp Ha Hrow Hcol Hw Hmo Her Hs]. destruct (Her c a He) as (Hc & Hao & Hwc & Hb & Hfe).
  assert (Ef : frontier pre w = Z.to_nat c) by (unfold frontier; by rewrite He). unfold width in Hl.
  destruct (reach_here pre w c Hinv) as (Hfo & out & Emv & Hmv); [lia|intros Hwr; specialize (Hwc Hwr); lia|].
  unfold flush_blanks, reach_blanks. cbn [row col]. rewrite Hfo. cbn [andb]. rewrite Emv. eexists. split; [done|].
  split; [|done]. set (n := (length pre - Z.to_nat c)%nat). assert (Hn : Z.of_nat n = Z.of_nat (length pre) - c) by (subst n; lia).
  split; cbn [wr_out wr_pos wr_attrs wr_erase row col]; try done; try lia.
  - eapply paints_app; [exact Hp|]. eapply paints_app; [exact Hmv|]. eapply paints_app; [by apply paints_switch|].
    unfold frontier at 3. cbn [wr_erase]. rewrite Ef in *. rewrite <- Hn.
    pose proof (partial_blanked pre (Z.to_nat c) (sgr_bare a) ltac:(lia) ltac:(unfold width; lia) Hb) as Epb.
    eassert (He' : paints [IEraseChar (Z.of_nat n)] (mkPicture _ (mkPos (Z.of_nat r) c) (sgr_bare a)) _).
    { eapply paints_erase; cbn [row col]; rewrite ?Nat2Z.id; [lia|lia|lia|apply (picture_row pre (Z.to_nat c))|].
      rewrite partial_drop by lia. apply Forall_take, Forall_replicate. done. }
    cbn [row col] in He'. rewrite Nat2Z.id, picture_put in He'. fold n in Epb.
    change (for_erase (sgr_bare a)) with (for_erase a) in He'. rewrite <- Hfe, Epb in He'.
    unfold picture. replace (joined wrapping (length pre)) with (joined wrapping (Z.to_nat c)); [exact He'|].
    unfold joined. destruct (Z.to_nat c) eqn:Ec, (length pre) eqn:El; try lia; try done. destruct wrapping; [|done].
    exfalso. apply (Hwc eq_refl). lia.
  - intros Hwr. rewrite decide_False; [done|]. unfold frontier. cbn [wr_erase]. lia.
  - intros _ v Hv Hsol. apply (last_blank _ _ (Z.to_nat c) _ Hv) in Hb; [|lia]. by subst v.
Qed.

(** What is known when the row is written. *)
Record row_done (cs : list Cell) (w : Writer) : Prop := {
  rw_paints : paints (wr_out w) P0 (mkPicture (<[r := (map view cs, wrapping)]> rvs0) (wr_pos w) (sgr_bare (wr_attrs w)));
  rw_attrs : attrs_ok (wr_attrs w);
  rw_row : 0 ≤ row (wr_pos w) ≤ Z.of_nat r;
  rw_col : 0 ≤ col (wr_pos w) ≤ cols sz;
  rw_moved : wr_pos w = pc_pos P0 ∨ row (wr_pos w) = Z.of_nat r;
  rw_here : wrapping = true → row (wr_pos w) = Z.of_nat r;
  rw_solid : ∀ v, last (map view cs) = Some v → solid v = true → wr_pos w = mkPos (Z.of_nat r) (cols sz);
}.

Lemma finish_spec pre w :
  row_inv pre w → length pre = width →
  ∃ w', match wr_erase w with
        | Some (c, a) => flush_blanks (cols sz) wrapping (Z.of_nat r) w c a [IClearRowForward]
        | None => Some w
        end = Some w' ∧ row_done pre w'.
Proof.
  intros Hinv Hl. pose proof Hinv as [Hp Ha Hrow Hcol Hw Hmo Her Hs]. unfold width in Hl. destruct (wr_erase w) as [[c a]|] eqn:He.
  - destruct (Her c a eq_refl) as (Hc & Hao & Hwc & Hb & Hfe).
    assert (Ef : frontier pre w = Z.to_nat c) by (unfold frontier; by rewrite He).
    destruct (reach_here pre w c Hinv) as (Hfo & out & Emv & Hmv); [lia|intros Hwr; specialize (Hwc Hwr); lia|].
    unfold flush_blanks, reach_blanks. cbn [row col]. rewrite Hfo. cbn [andb]. rewrite Emv. eexists. split; [done|].
    split; cbn [wr_out wr_pos wr_attrs wr_erase row col]; try done; try lia.
    + eapply paints_app; [exact Hp|]. eapply paints_app; [exact Hmv|]. eapply paints_app; [by apply paints_switch|]. rewrite Ef in *.
      pose proof (partial_blanked pre (Z.to_nat c) (sgr_bare a) ltac:(lia) ltac:(unfold width; lia) Hb) as Epb.
      eassert (He' : paints [IClearRowForward] (mkPicture _ (mkPos (Z.of_nat r) c) (sgr_bare a)) _).
      { eapply paints_clear_right; cbn [row col]; rewrite ?Nat2Z.id; [lia|apply (picture_row pre (Z.to_nat c))|].
        rewrite partial_drop by lia. apply Forall_replicate. done. }
      cbn [row col] in He'. rewrite Nat2Z.id, picture_put in He'. change (for_erase (sgr_bare a)) with (for_erase a) in He'.
      replace (Z.to_nat (cols sz - c)) with (length pre - Z.to_nat c)%nat in He' by lia. rewrite <- Hfe, Epb, partial_full in He'.
      replace (width - length pre)%nat with 0%nat in He' by (unfold width; lia). cbn [replicate] in He'. rewrite app_nil_r in He'.
      assert (Ej : (if c =? 0 then false else joined wrapping (Z.to_nat c)) = wrapping); [|by rewrite Ej in He'].
      destruct (Z.eqb_spec c 0) as [->|]; [destruct wrapping; [by exfalso; apply (Hwc eq_refl)|done]|].
      destruct (joined_pos (Z.to_nat c)) as [[_ ?]|]; [lia|done].
    + intros v Hv Hsol. apply (last_blank _ _ (Z.to_nat c) _ Hv) in Hb; [|lia]. by subst v.
  - exists w. split; [done|]. split; try done.
    + assert (Ef : frontier pre w = length pre) by (unfold frontier; by rewrite He). rewrite Ef in *. unfold picture in Hp.
      rewrite partial_full in Hp. replace (width - length pre)%nat with 0%nat in Hp by (unfold width; lia). cbn [replicate] in Hp.
      rewrite app_nil_r in Hp. destruct (joined_pos (length pre)) as [[_ ?]|Ej]; [lia|by rewrite Ej in Hp].
    + intros Hwr. specialize (Hw Hwr). unfold frontier in Hw. rewrite He in Hw. by rewrite decide_False in Hw by lia.
    + intros v Hv Hsol. rewrite (Hs eq_refl v Hv Hsol). f_equal. lia.
Qed.

(** The way to a cell with text, and its drawing. *)
Lemma text_way pre w c cs wd tl :
  row_inv pre w → wr_erase w = None → text_cell c cs wd → halves c tl wd → Z.of_nat (length pre) + wd ≤ cols sz →
  (length pre + length (c :: tl) ≤ width)%nat →
  ∃ way,
    (if bool_decide (mkPos (Z.of_nat r) (Z.of_nat (length pre)) = wr_pos w) then Some []
     else
       let! fo := follows_row wrapping (wr_pos w) (Z.of_nat r) in
       let! stay :=
         (if fo then let! m := u16_sub (cols sz) (if is_wide c then 1 else 0) in Some ((m <=? col (wr_pos w)) && (Z.of_nat (length pre) =? 0))
          else Some false) in
       if stay : bool then Some [] else move_from_to (wr_pos w) (mkPos (Z.of_nat r) (Z.of_nat (length pre)))) = Some way ∧
    paints (way ++ switch_attrs (cell_attrs c) (wr_attrs w) ++ [IText cs]) (picture pre (length pre) (wr_pos w) (wr_attrs w))
      (picture (pre ++ c :: tl) (length (pre ++ c :: tl)) (mkPos (Z.of_nat r) (Z.of_nat (length pre) + wd)) (cell_attrs c)).
Proof.
  intros Hinv He Hc Htl Hcw Hl. pose proof Hinv as [Hp Ha Hrow Hcol Hw Hmo Her Hs]. pose proof (tc_drawable _ _ _ Hc) as Hd.
  assert (Hwd : wd = 1 ∨ wd = 2) by (destruct Hd as (? & ? & _ & _ & ? & _); done).
  assert (Ef : frontier pre w = length pre) by (unfold frontier; by rewrite He). rewrite Ef in Hp, Hw.
  pose proof (partial_drawn pre c cs wd tl Hc Hwd Htl Hl) as Edr. pose proof (partial_fits pre wd Hwd Hcw) as Hfit.
  assert (Ej : joined wrapping (length (pre ++ c :: tl)) = wrapping).
  { rewrite length_app, Nat.add_comm. done. }
  destruct (decide (wrapping = true ∧ length pre = 0%nat)) as [[Hwr Hz]|Hno].
  - apply nil_length_inv in Hz as ->. specialize (Hw Hwr). rewrite decide_True in Hw by done. exists []. rewrite Hw in *. cbn [row col length] in *.
    rewrite bool_decide_eq_false_2 by (intros [=]; lia). unfold follows_row. rewrite Hwr. cbn [row]. rewrite u16_add_ok by lia.
    replace (Z.of_nat r - 1 + 1) with (Z.of_nat r) by lia. rewrite Z.eqb_refl, u16_sub_ok by (destruct (is_wide c); lia).
    cbn [col]. rewrite (proj2 (Z.leb_le _ _)) by (destruct (is_wide c); lia). split; [done|]. cbn [app].
    eapply paints_app; [apply paints_switch; [apply (tc_attrs _ _ _ Hc)|done]|].
    set (r' := (r - 1)%nat). assert (Er : S r' = r) by (subst r'; lia). replace (Z.of_nat r - 1) with (Z.of_nat r') by (subst r'; lia).
    eassert (Ht : paints [IText cs] (mkPicture _ (mkPos (Z.of_nat r') (cols sz)) (sgr_bare (cell_attrs c))) _).
    { eapply paints_text_wrap; [exact Hd|lia| |lia|rewrite Er; apply (picture_row [] 0)|exact Hfit].
      rewrite partial_length by (simpl; lia). unfold width. lia. }
    rewrite Er in Ht.
    rewrite picture_put, Edr in Ht. rewrite <- Hwr, <- Ej in Ht. exact Ht.
  - destruct (reach_here pre w (Z.of_nat (length pre)) Hinv) as (Hfo & out & Emv & Hmv); [lia|rewrite Ef; intros Hwr ?; by apply Hno|].
    rewrite Ef in Hmv.
    assert (Ht : paints (switch_attrs (cell_attrs c) (wr_attrs w) ++ [IText cs])
      (picture pre (length pre) (mkPos (Z.of_nat r) (Z.of_nat (length pre))) (wr_attrs w))
      (picture (pre ++ c :: tl) (length (pre ++ c :: tl)) (mkPos (Z.of_nat r) (Z.of_nat (length pre) + wd)) (cell_attrs c))).
    { eapply paints_app; [apply paints_switch; [apply (tc_attrs _ _ _ Hc)|done]|].
      eassert (Ht : paints [IText cs] (mkPicture _ (mkPos (Z.of_nat r) (Z.of_nat (length pre))) (sgr_bare (cell_attrs c))) _).
      { eapply paints_text; [exact Hd|lia| |apply (picture_row pre (length pre))|exact Hfit].
        rewrite partial_length by (unfold width; lia). unfold width. lia. }
      rewrite picture_put, Edr in Ht. unfold picture. rewrite Ej.
      destruct (joined_pos (length pre)) as [[Hwr Hz]|Ej']; [by exfalso; apply Hno|]. rewrite Ej' in Ht |- *. exact Ht. }
    case_bool_decide as Eq.
    + exists []. split; [done|]. rewrite <- Eq. exact Ht.
    + rewrite Hfo. exists out. split; [done|]. eapply paints_app; [exact Hmv|exact Ht].
Qed.

(** A cell with text is written. *)
Lemma text_step pre w c cs wd tl :
  row_inv pre w → wr_erase w = None → text_cell c cs wd → halves c tl wd → (length (pre ++ c :: tl) ≤ width)%nat →
  ∃ w', write_text (cols sz) wrapping (mkPos (Z.of_nat r) (Z.of_nat (length pre))) w c = Some w' ∧
    row_inv (pre ++ c :: tl) w' ∧ wr_erase w' = None ∧ wr_wide w' = wr_wide w.
Proof.
  intros Hinv He Hc Htl Hl. pose proof Hinv as [Hp Ha Hrow Hcol Hw Hmo Her Hs]. pose proof (tc_drawable _ _ _ Hc) as Hd.
  assert (Hwd : wd = 1 ∨ wd = 2) by (destruct Hd as (? & ? & _ & _ & ? & _); done).
  assert (Hlt : Z.of_nat (length (c :: tl)) = wd).
  { unfold halves in Htl. apply (f_equal length) in Htl. rewrite length_map in Htl. simpl. rewrite Htl. by destruct Hwd as [->| ->]. }
  rewrite length_app in Hl. assert (Hcw : Z.of_nat (length pre) + wd ≤ cols sz) by (unfold width in Hl; lia).
  assert (Ef : frontier pre w = length pre) by (unfold frontier; by rewrite He). rewrite Ef in Hp, Hw.
  destruct (text_way pre w c cs wd tl Hinv He Hc Htl Hcw Hl) as (way & Eway & Hpaint). unfold write_text. cbn [row col].
  rewrite Eway, (tc_text _ _ _ Hc).
  assert (Ew : (if is_wide c then 2 else 1) = wd) by (rewrite (tc_wide _ _ _ Hc); by destruct Hwd as [->| ->]).
  rewrite Ew, u16_add_ok by lia. eexists. split; [done|]. split; [|done].
  split; cbn [wr_out wr_pos wr_attrs wr_erase row col]; try lia.
  - eapply paints_app; [exact Hp|]. unfold frontier. cbn [wr_erase]. rewrite He. exact Hpaint.
  - apply (tc_attrs _ _ _ Hc).
  - intros Hwr. unfold frontier. cbn [wr_erase]. rewrite He. rewrite decide_False; [done|]. rewrite length_app. simpl. lia.
  - intros ? ?. rewrite He. done.
  - intros _ v Hv Hsol. f_equal. rewrite length_app. lia.
Qed.

Lemma row_inv_wide pre w b : row_inv pre w → row_inv pre (mkWriter (wr_out w) (wr_pos w) (wr_attrs w) (wr_erase w) b).
Proof. destruct w. intros []. by split. Qed.

Lemma last_blank_cell pre c v : blank_cell c → last (map view (pre ++ [c])) = Some v → solid v = true → False.
Proof. intros Hc. rewrite map_app. cbn [map]. rewrite last_snoc, (view_blank c Hc). by intros [= <-]. Qed.

(** A blank cell that continues the run. *)
Lemma keep_blank pre w pc c :
  row_inv pre w → blank_cell c → wr_erase w = Some (pc, cell_attrs c) → row_inv (pre ++ [c]) w.
Proof.
  intros [Hp Ha Hrow Hcol Hw Hmo Her Hs] Hc He. destruct (Her _ _ He) as (Hpc & Hao & Hwc & Hb & Hfe).
  assert (Ef : frontier (pre ++ [c]) w = frontier pre w) by (unfold frontier; by rewrite He).
  assert (Ez : frontier pre w = Z.to_nat pc) by (unfold frontier; by rewrite He).
  split; rewrite ?Ef; try done.
  - unfold picture. rewrite partial_extend by lia. exact Hp.
  - intros c' a' E. rewrite He in E. injection E as <- <-. rewrite length_app. simpl. split; [lia|]. split; [done|]. split; [done|].
    split; [|done]. rewrite drop_app_le by lia. apply Forall_app. split; [done|]. apply Forall_singleton. rewrite (view_blank c Hc). by rewrite Hfe.
  - intros E. by rewrite He in E.
Qed.

(** A blank cell that begins a run. *)
Lemma open_blank pre w c :
  row_inv pre w → blank_cell c → wr_erase w = None → (wrapping = true → pre ≠ []) →
  row_inv (pre ++ [c]) (mkWriter (wr_out w) (wr_pos w) (wr_attrs w) (Some (Z.of_nat (length pre), cell_attrs c)) (wr_wide w)).
Proof.
  intros [Hp Ha Hrow Hcol Hw Hmo Her Hs] Hc He Hne. set (w' := mkWriter _ _ _ _ _).
  assert (Ef : frontier (pre ++ [c]) w' = frontier pre w) by (unfold frontier; rewrite He; cbn; lia).
  assert (Ez : frontier pre w = length pre) by (unfold frontier; by rewrite He).
  split; rewrite ?Ef; cbn [w' wr_out wr_pos wr_attrs wr_erase]; try done.
  - unfold picture. rewrite partial_extend by lia. exact Hp.
  - intros c' a' [= <- <-]. rewrite length_app. simpl. split; [lia|]. split; [apply Hc|]. split.
    { intros Hwr. specialize (Hne Hwr). destruct pre; [done|]. simpl. lia. }
    split; [|apply Hc]. rewrite Nat2Z.id, drop_app_length. apply Forall_singleton. by rewrite (view_blank c Hc), (bc_erased _ Hc).
Qed.

(** A cell as a cleared screen has it. *)
Lemma skip_blank pre w c :
  row_inv pre w → blank_cell c → wr_erase w = None → cell_attrs c = attrs_default → (wrapping = true → pre ≠ []) →
  (length pre < width)%nat → row_inv (pre ++ [c]) w.
Proof.
  intros [Hp Ha Hrow Hcol Hw Hmo Her Hs] Hc He Hd Hne Hl.
  assert (Ef : frontier (pre ++ [c]) w = length (pre ++ [c])) by (unfold frontier; by rewrite He).
  assert (Ez : frontier pre w = length pre) by (unfold frontier; by rewrite He). rewrite Ez in *.
  split; rewrite ?Ef; try done.
  - unfold picture. rewrite (partial_nothing pre c Hl); [|rewrite (view_blank c Hc), Hd; done].
    replace (joined wrapping (length (pre ++ [c]))) with (joined wrapping (length pre)); [exact Hp|].
    rewrite length_app, Nat.add_comm. unfold joined. destruct pre; [|done]. destruct wrapping; [by destruct (Hne eq_refl)|done].
  - intros Hwr. specialize (Hw Hwr). specialize (Hne Hwr). rewrite decide_False by (rewrite length_app; simpl; lia).
    destruct pre; [done|]. exact Hw.
  - intros ? ? E. by rewrite He in E.
  - intros _ v Hv Hsol. by destruct (last_blank_cell _ _ _ Hc Hv Hsol).
Qed.

Lemma blank_no_contents c : blank_cell c → has_contents c = false.
Proof. intros Hc. unfold has_contents. by rewrite (bc_len _ Hc). Qed.

Lemma blank_step pre w c :
  row_inv pre w → wr_wide w = false → blank_cell c → (length pre < width)%nat → (wrapping = true → pre ≠ []) →
  ∃ w', write_cell (cols sz) wrapping (Z.of_nat r) w (Z.of_nat (length pre), c) = Some w' ∧ row_inv (pre ++ [c]) w' ∧ wr_wide w' = false.
Proof.
  intros Hinv Hwide Hc Hl Hne. unfold write_cell. rewrite Hwide, (bc_wide _ Hc). apply (row_inv_wide _ _ false) in Hinv.
  set (w0 := mkWriter _ _ _ _ false) in *. rewrite (blank_no_contents c Hc). cbn [orb].
  assert (Hclosed : ∀ w1, row_inv pre w1 → wr_erase w1 = None → wr_wide w1 = false →
    ∃ w', (if cell_eqb c cell_new then Some w1
           else match wr_erase w1 with
                | None => Some (mkWriter (wr_out w1) (wr_pos w1) (wr_attrs w1) (Some (Z.of_nat (length pre), cell_attrs c)) (wr_wide w1))
                | Some _ => Some w1
                end) = Some w' ∧ row_inv (pre ++ [c]) w' ∧ wr_wide w' = false).
  { intros w1 H1 He1 Hw1. destruct (cell_eqb c cell_new) eqn:Eq.
    - exists w1. split; [done|]. split; [|done]. apply skip_blank; try done. by apply eqb_new_attrs.
    - rewrite He1. eexists. split; [done|]. split; [by apply open_blank|done]. }
  destruct (wr_erase w0) as [[pc a]|] eqn:He; [|by apply Hclosed].
  case_bool_decide as Ea; cbn [negb].
  - subst a. exists w0. split; [|split; [by eapply keep_blank|done]]. rewrite He. by destruct (cell_eqb c cell_new).
  - destruct (ri_erase _ _ Hinv _ _ He) as (Hpc & _). rewrite u16_sub_ok by (unfold width in Hl; lia).
    destruct (flush_spec pre w0 pc a Hinv He) as (w1 & E1 & H1 & He1 & Hw1); [lia|]. rewrite E1. by apply Hclosed.
Qed.

(** A cell with text, with the second half that is passed over. *)
Lemma char_step pre w c cs wd tl :
  row_inv pre w → wr_wide w = false → text_cell c cs wd → halves c tl wd → (length (pre ++ c :: tl) ≤ width)%nat →
  ∃ w', write_cells (cols sz) wrapping (Z.of_nat r) (zip (seqZ (Z.of_nat (length pre)) (Z.of_nat (length (c :: tl)))) (c :: tl)) w = Some w' ∧
    row_inv (pre ++ c :: tl) w' ∧ wr_wide w' = false.
Proof.
  intros Hinv Hwide Hc Htl Hl.
  assert (Hwd : wd = 1 ∨ wd = 2) by (destruct (tc_drawable _ _ _ Hc) as (? & ? & _ & _ & ? & _); done).
  assert (Hone : ∃ w', write_cell (cols sz) wrapping (Z.of_nat r) w (Z.of_nat (length pre), c) = Some w' ∧ row_inv (pre ++ c :: tl) w' ∧
    wr_wide w' = (1 <? wd)).
  { unfold write_cell. rewrite Hwide, (tc_wide _ _ _ Hc). apply (row_inv_wide _ _ (1 <? wd)) in Hinv.
    set (w0 := mkWriter _ _ _ _ (1 <? wd)) in *. pose proof (text_has_contents _ _ _ Hc) as Hhc. rewrite Hhc, (eqb_new_text c Hhc). cbn [orb].
    assert (Hw1 : ∃ w1, match wr_erase w0 with
      | Some (pc, a) => let! n := u16_sub (Z.of_nat (length pre)) pc in flush_blanks (cols sz) wrapping (Z.of_nat r) w0 pc a [IEraseChar n]
      | None => Some w0 end = Some w1 ∧ row_inv pre w1 ∧ wr_erase w1 = None ∧ wr_wide w1 = wr_wide w0).
    { rewrite length_app in Hl. destruct (wr_erase w0) as [[pc a]|] eqn:He; [|by exists w0]. destruct (ri_erase _ _ Hinv _ _ He) as (Hpc & _).
      rewrite u16_sub_ok by (unfold width in Hl; lia). apply flush_spec; [done|done|lia]. }
    destruct Hw1 as (w1 & E1 & H1 & He1 & Hw1). rewrite E1.
    destruct (text_step pre w1 c cs wd tl H1 He1 Hc Htl Hl) as (w' & E' & H' & He' & Hw'). exists w'. split; [done|]. split; [done|]. by rewrite Hw', Hw1. }
  destruct Hone as (w' & E & H' & Hw'). unfold halves in Htl. destruct Hwd as [->| ->]; cbn [Z.ltb Z.compare Pos.compare Pos.compare_cont] in *.
  - apply map_eq_nil in Htl as ->. exists w'. rewrite seqZ_cons by (simpl; lia). cbn [zip zip_with length write_cells]. rewrite E. done.
  - destruct tl as [|d []]; [done| |done]. rewrite !seqZ_cons by (simpl; lia). cbn [zip zip_with length write_cells]. rewrite E.
    unfold write_cell. rewrite Hw'. eexists. split; [done|]. split; [by apply row_inv_wide|done].
Qed.

Definition starts_with_text (l : list Cell) : Prop := match l with c :: _ => has_contents c = true | [] => True end.

Lemma cells_spec l : printable l → ∀ pre w,
  row_inv pre w → wr_wide w = false → (length pre + length l ≤ width)%nat → (wrapping = true → pre ≠ [] ∨ starts_with_text l) →
  ∃ w', write_cells (cols sz) wrapping (Z.of_nat r) (zip (seqZ (Z.of_nat (length pre)) (Z.of_nat (length l))) l) w = Some w' ∧
    row_inv (pre ++ l) w' ∧ wr_wide w' = false.
Proof.
  (* the cells of one character, then the rest *)
  assert (Hnext : ∀ hd l pre w w1, printable l →
    (∀ pre w, row_inv pre w → wr_wide w = false → (length pre + length l ≤ width)%nat → (wrapping = true → pre ≠ [] ∨ starts_with_text l) →
      ∃ w', write_cells (cols sz) wrapping (Z.of_nat r) (zip (seqZ (Z.of_nat (length pre)) (Z.of_nat (length l))) l) w = Some w' ∧
        row_inv (pre ++ l) w' ∧ wr_wide w' = false) →
    hd ≠ [] → (length pre + length (hd ++ l) ≤ width)%nat →
    write_cells (cols sz) wrapping (Z.of_nat r) (zip (seqZ (Z.of_nat (length pre)) (Z.of_nat (length hd))) hd) w = Some w1 →
    row_inv (pre ++ hd) w1 → wr_wide w1 = false →
    ∃ w', write_cells (cols sz) wrapping (Z.of_nat r) (zip (seqZ (Z.of_nat (length pre)) (Z.of_nat (length (hd ++ l)))) (hd ++ l)) w = Some w' ∧
      row_inv (pre ++ hd ++ l) w' ∧ wr_wide w' = false).
  { intros hd l' pre w w1 Hpl IH Hhd Hl E1 H1 Hw1. rewrite zip_columns, write_cells_app, E1, app_assoc. apply IH; [done|done| |].
    - rewrite !length_app in *. lia.
    - intros _. left. intros [_ ?]%app_eq_nil. done. }
  induction 1 as [|c l Hc Hpl IH|c cs l Hc Hpl IH|c cs d l Hc Hd Hpl IH]; intros pre w Hinv Hwide Hl Hst.
  - exists w. rewrite app_nil_r. done.
  - destruct (blank_step pre w c Hinv Hwide Hc) as (w1 & E1 & H1 & Hw1); [simpl in Hl; lia| |].
    { intros Hwr. destruct (Hst Hwr) as [|Hs]; [done|]. simpl in Hs. rewrite (blank_no_contents c Hc) in Hs. done. }
    apply (Hnext [c] l pre w w1); try done. cbn [length]. rewrite seqZ_cons by lia. cbn [zip zip_with write_cells]. by rewrite E1.
  - simpl in Hl. destruct (char_step pre w c cs 1 [] Hinv Hwide Hc) as (w1 & E1 & H1 & Hw1); [done|rewrite length_app; simpl; lia|].
    by apply (Hnext [c] l pre w w1).
  - simpl in Hl. destruct (char_step pre w c cs 2 [d] Hinv Hwide Hc) as (w1 & E1 & H1 & Hw1); [|rewrite length_app; simpl; lia|].
    { unfold halves. cbn [map]. by rewrite Hd. }
    by apply (Hnext [c; d] l pre w w1).
Qed.
End Row.

(** The row writer paints a row that is still blank. *)
Lemma row_spec self r wrapping rvs0 p a :
  length (cells self) = width → printable (cells self) → Z.of_nat r < rows sz →
  rvs0 !! r = Some (replicate width nothing, false) → attrs_ok a → 0 ≤ row p ≤ Z.of_nat r → 0 ≤ col p ≤ cols sz →
  (wrapping = true → p = mkPos (Z.of_nat r - 1) (cols sz) ∧ starts_with_text (cells self)) →
  ∃ w, row_write_formatted self 0 (cols sz) (Z.of_nat r) wrapping (Some p) (Some a) = Some w ∧
    row_done r wrapping rvs0 (mkPicture rvs0 p (sgr_bare a)) (cells self) w.
Proof.
  intros Hl Hpr Hr Hrow Ha Hpr0 Hpc Hwr. unfold row_write_formatted. cbn [default from_option]. unfold id.
  assert (Hlen : (r < length rvs0)%nat) by (by eapply lookup_lt_Some).
  destruct (cells self) as [|first rest] eqn:Ecells; [simpl in Hl; unfold width in Hl; lia|].
  change ((first :: rest) !! Z.to_nat 0) with (Some first). cbv beta iota. rewrite <- Ecells in *.
  assert (Hfirst : wrapping && cell_eqb first cell_new = false).
  { destruct wrapping; [|done]. destruct (Hwr eq_refl) as [_ Hs]. rewrite Ecells in Hs. by apply eqb_new_text. }
  rewrite Hfirst. set (w0 := mkWriter [] p a None false).
  assert (Hrc : row_cols self = cols sz) by (unfold row_cols, width in *; lia). rewrite Hrc.
  assert (Hnum : numbered 0 (cols sz) (cells self) = zip (seqZ (Z.of_nat (length (@nil Cell))) (Z.of_nat (length (cells self)))) (cells self)).
  { unfold numbered. change (drop (Z.to_nat 0) (cells self)) with (cells self). unfold width in Hl. rewrite firstn_all2 by lia.
    by replace (Z.of_nat (length (cells self))) with (cols sz) by lia. }
  rewrite Hnum.
  destruct (cells_spec r wrapping rvs0 (mkPicture rvs0 p (sgr_bare a)) Hr Hlen (cells self) Hpr [] w0) as (w & E & Hinv & _).
  - split; cbn [w0 wr_out wr_pos wr_attrs wr_erase]; try done.
    + unfold picture, frontier. cbn [w0 wr_erase length joined]. unfold partial. cbn [take map app]. rewrite Nat.sub_0_r.
      rewrite list_insert_id by done. apply paints_nil.
    + intros Hw. by destruct (Hwr Hw).
    + by left.
  - done.
  - simpl. lia.
  - intros Hw. right. by destruct (Hwr Hw).
  - rewrite E. apply (finish_spec r wrapping rvs0); done.
Qed.

End Rows.
