(* ===== verification/VtRenderProps.v ===== *)
(** * Saving and repainting a screen

    The writers of a screen and the terminal that reads what they wrote agree: painting what
    [state_formatted] wrote for a screen makes a terminal of the same size show it. *)

From S2P Require Import Prelude TermQuery VtCell VtRow VtGrid VtGridInv VtScreen VtDraw VtScreenProps VtRender VtRenderPen VtPaint VtPaintRow.

Section Screens.
Context (ms : Kept) (sz : Size) `{!UnicodeWidth}.
Context (Hrs : 1 ≤ rows sz ≤ u16_max) (Hcs : 1 ≤ cols sz < u16_max).

Notation paints := (paints ms sz).
Notation wide := (width sz).

(** ** All rows *)

Definition blank_row : list View * bool := (replicate wide nothing, false).

(** A row that continues the one above begins with text, and the one above ends in text: it
    was wrapped, and neither end was erased since. *)
Fixpoint wraps_ok (rs : list Row) : Prop :=
  match rs with
  | x :: ((y :: _) as tl) =>
      (wrapped y = true → starts_with_text (cells y) ∧ ∃ v, last (map view (cells x)) = Some v ∧ solid v = true) ∧ wraps_ok tl
  | _ => True
  end.

Definition row_printable (x : Row) : Prop := length (cells x) = wide ∧ printable (cells x).

(** The rows as painted: the first one's flag is the one the writer was given. *)
Definition shown (wrapping : bool) (rs : list Row) : list (list View * bool) :=
  match rs with [] => [] | x :: tl => (map view (cells x), wrapping) :: map rview tl end.

(** No row below [r] continues another. *)
Definition free_below (r : Z) (rvs : list (list View * bool)) : Prop :=
  ∀ j V b, r < Z.of_nat j → rvs !! j = Some (V, b) → b = false.

Lemma free_below_app r (D E : list (list View * bool)) :
  free_below r D → free_below (r - Z.of_nat (length D)) E → free_below r (D ++ E).
Proof.
  intros HD HE j V b Hj [Hl|[Hge Hl]]%lookup_app_Some; [by eapply HD|]. eapply HE; [|exact Hl]. lia.
Qed.

Lemma rows_spec rs : ∀ D wrapping p a,
  Forall row_printable rs → wraps_ok rs → Z.of_nat (length D + length rs) = rows sz →
  attrs_ok a → 0 ≤ row p < rows sz → row p ≤ Z.of_nat (length D) → 0 ≤ col p ≤ cols sz → free_below (row p) D →
  (wrapping = true → p = mkPos (Z.of_nat (length D) - 1) (cols sz) ∧ match rs with x :: _ => starts_with_text (cells x) | [] => True end) →
  ∃ out p' a', write_rows (cols sz) (Z.of_nat (length D)) (continuing rs) wrapping p a = Some (out, p', a') ∧
    paints out (mkPicture (D ++ replicate (length rs) blank_row) p (sgr_bare a)) (mkPicture (D ++ shown wrapping rs) p' (sgr_bare a')) ∧
    attrs_ok a' ∧ 0 ≤ row p' < rows sz ∧ 0 ≤ col p' ≤ cols sz ∧ free_below (row p') (D ++ shown wrapping rs).
Proof.
  induction rs as [|x rs IH]; intros D wrapping p a Hpr Hwo Hlen Ha Hrow HrD Hcol Hfree Hwr.
  { exists [], p, a. split; [done|]. cbn [replicate shown length]. rewrite app_nil_r. split; [apply paints_nil|done]. }
  apply Forall_cons in Hpr as [[Hxl Hxp] Hpr]. cbn [length] in Hlen. set (r := length D).
  destruct (row_spec ms sz Hrs Hcs x r wrapping (D ++ replicate (length (x :: rs)) blank_row) p a) as (w & Ew & Hdone); try done; try lia.
  { cbn [length replicate]. rewrite list_lookup_middle by done. done. }
  destruct Hdone as [Hp Hat Hr' Hc' Hmo Hh Hs]. cbn [pc_pos] in Hmo.
  set (next := match rs with y :: _ => wrapped y | [] => false end).
  assert (Erow : <[r := (map view (cells x), wrapping)]> (D ++ replicate (length (x :: rs)) blank_row) =
    (D ++ [(map view (cells x), wrapping)]) ++ replicate (length rs) blank_row).
  { cbn [length replicate]. unfold r. by rewrite insert_middle, <- app_assoc. }
  rewrite Erow in Hp.
  destruct (IH (D ++ [(map view (cells x), wrapping)]) next (wr_pos w) (wr_attrs w)) as (out & p' & a' & E' & Hp' & Ha' & Hr2 & Hc2 & Hf2);
    try rewrite length_app; cbn [length]; try done; try lia.
  - destruct rs; [done|]. apply Hwo.
  - intros j V b Hj [Hl|[Hge Hl]]%lookup_app_Some.
    + assert (j < r)%nat by (by eapply lookup_lt_Some). destruct Hmo as [Hmo|Hmo]; [|lia]. rewrite Hmo in Hj. by eapply Hfree.
    + apply lookup_cons_Some in Hl as [[Ej [= <- <-]]|[? Hl]]; [|by rewrite lookup_nil in Hl]. destruct wrapping; [|done].
      specialize (Hh eq_refl). fold r in Hge, Ej. lia.
  - unfold next. destruct rs as [|y rs']; [done|]. intros Hy. destruct Hwo as [Hwo _]. destruct (Hwo Hy) as [Hst (v & Hv & Hsol)].
    split; [|done]. rewrite (Hs v Hv Hsol). f_equal. fold r. lia.
  - exists (wr_out w ++ out), p', a'. split; [|split; [|split; [done|split; [done|split; [done|]]]]].
    + cbn [continuing write_rows]. fold r next. rewrite Ew. rewrite length_app in E'. cbn [length] in E'. fold r in E'.
      replace (Z.of_nat (r + 1)) with (Z.of_nat r + 1) in E' by lia. rewrite E'. done.
    + eapply paints_app; [exact Hp|].
      assert (Es : (D ++ [(map view (cells x), wrapping)]) ++ shown next rs = D ++ shown wrapping (x :: rs)).
      { rewrite <- app_assoc. cbn [app shown]. do 2 f_equal. by destruct rs. }
      rewrite <- Es. exact Hp'.
    + assert (Es : (D ++ [(map view (cells x), wrapping)]) ++ shown next rs = D ++ shown wrapping (x :: rs)).
      { rewrite <- app_assoc. cbn [app shown]. do 2 f_equal. by destruct rs. }
      by rewrite <- Es.
Qed.

(** ** The cursor *)

Lemma printable_end l v :
  printable l → last (map view l) = Some v → solid v = true →
  ∃ pre c cs w tl, l = pre ++ c :: tl ∧ text_cell c cs w ∧ halves c tl w.
Proof.
  intros Hp. revert v. induction Hp as [|c l Hc Hpl IH|c cs l Hc Hpl IH|c cs d l Hc Hd Hpl IH]; intros v Hv Hsol; [done|..].
  - destruct l as [|c' l']; [cbn in Hv; rewrite (view_blank c Hc) in Hv; injection Hv as <-; done|].
    destruct (IH v Hv Hsol) as (pre & c0 & cs0 & w & tl & -> & Hc0 & Ht). by exists (c :: pre), c0, cs0, w, tl.
  - destruct l as [|c' l']; [exists [], c, cs, 1, []; done|].
    destruct (IH v Hv Hsol) as (pre & c0 & cs0 & w & tl & -> & Hc0 & Ht). by exists (c :: pre), c0, cs0, w, tl.
  - destruct l as [|c' l']; [exists [], c, cs, 2, [d]; split; [done|]; split; [done|]; unfold halves; cbn [map]; by rewrite Hd|].
    destruct (IH v Hv Hsol) as (pre & c0 & cs0 & w & tl & -> & Hc0 & Ht). by exists (c :: d :: pre), c0, cs0, w, tl.
Qed.

(** Drawing the character that ends a row once more changes nothing. *)
Lemma drawn_same pre c cs w tl :
  text_cell c cs w → halves c tl w → w = 1 ∨ w = 2 →
  let V := map view (pre ++ c :: tl) in
  fits_at V (length pre) (1 <? w) ∧ drawn V (length pre) cs (1 <? w) (sgr_bare (cell_attrs c)) = V.
Proof.
  intros Hc Ht Hw V. unfold halves in Ht.
  assert (H1 : V !! length pre = Some (view c)).
  { unfold V. rewrite map_app. cbn [map]. apply list_lookup_middle. by rewrite length_map. }
  pose proof (view_text _ _ _ Hc) as Hv. unfold drawn, fits_at.
  destruct Hw as [->| ->]; cbn [Z.ltb Z.compare Pos.compare Pos.compare_cont] in *.
  - split; [exists (view c); split; [done|by rewrite Hv]|]. rewrite <- Hv. by apply list_insert_id.
  - destruct tl as [|d []]; [done| |done].
    assert (Hd : view d = half_view (sgr_bare (cell_attrs c))) by (cbn [map] in Ht; congruence).
    assert (H2 : V !! S (length pre) = Some (view d)).
    { unfold V. rewrite map_app. cbn [map]. rewrite lookup_app_r by (rewrite length_map; lia). rewrite length_map. by replace (S (length pre) - length pre)%nat with 1%nat by lia. }
    split.
    + exists (view c). split; [done|]. exists (view d). split; [done|]. right. by rewrite Hv, Hd.
    + rewrite <- Hv, <- Hd. rewrite (list_insert_id _ (length pre)) by done. by apply list_insert_id.
Qed.

Lemma shown_lookup rs r x : rs !! r = Some x → ∃ b, shown false rs !! r = Some (map view (cells x), b).
Proof.
  destruct rs as [|y rs]; [done|]. destruct r as [|r]; [intros [= <-]; by eexists|].
  change (rs !! r = Some x → ∃ b, (rview <$> rs) !! r = Some (map view (cells x), b)). intros Hx.
  rewrite list_lookup_fmap, Hx. by eexists.
Qed.

(** The character that ends a row is found from its last column. *)
Lemma end_pos_spec g r x pre c cs w tl :
  size g = sz → drawing_row g r = Some x → length (cells x) = wide → cells x = pre ++ c :: tl → text_cell c cs w → halves c tl w →
  w = 1 ∨ w = 2 →
  end_pos g r = Some (mkPos r (Z.of_nat (length pre))) ∧ drawing_cell g (mkPos r (Z.of_nat (length pre))) = Some c ∧
  Z.of_nat (length pre) + w = cols sz.
Proof.
  intros Hsz Hx Hl Ecells Hc Ht Hw. unfold halves in Ht. unfold width in Hl. rewrite Ecells, length_app in Hl. cbn [length] in Hl.
  unfold end_pos, drawing_cell. cbn [row col]. rewrite Hsz, Hx. unfold row_get. rewrite Nat2Z.id, Ecells, list_lookup_middle by done.
  destruct Hw as [->| ->]; cbn [Z.ltb Z.compare Pos.compare Pos.compare_cont] in *.
  - apply map_eq_nil in Ht as ->. cbn [length] in *. rewrite u16_sub_ok by lia.
    replace (cols sz - 1) with (Z.of_nat (length pre)) by lia. rewrite Nat2Z.id, list_lookup_middle by done.
    rewrite (tc_half _ _ _ Hc). split; [done|]. split; [done|]. lia.
  - destruct tl as [|d []]; [done| |done]. cbn [length] in Hl. cbn [map] in Ht.
    assert (Hd : is_wide_continuation d = true) by (apply (f_equal head) in Ht; by injection Ht).
    rewrite !u16_sub_ok by lia. replace (Z.to_nat (cols sz - 1)) with (length (pre ++ [c])) by (rewrite length_app; simpl; lia).
    assert (El : (pre ++ [c; d]) !! length (pre ++ [c]) = Some d).
    { replace (pre ++ [c; d]) with ((pre ++ [c]) ++ [d]) by (by rewrite <- app_assoc). by apply list_lookup_middle. }
    rewrite El, Hd. replace (cols sz - 2) with (Z.of_nat (length pre)) by lia. split; [done|]. split; [done|]. lia.
Qed.

Lemma cursor_spec g p a :
  size g = sz → Forall row_printable (g_rows g) → Z.of_nat (length (g_rows g)) = rows sz →
  0 ≤ row (pos g) < rows sz → 0 ≤ col (pos g) ≤ cols sz → attrs_ok a → 0 ≤ row p < rows sz → 0 ≤ col p ≤ cols sz →
  free_below (row p) (shown false (g_rows g)) →
  (col (pos g) < cols sz ∨ ∃ x v, g_rows g !! Z.to_nat (row (pos g)) = Some x ∧ last (map view (cells x)) = Some v ∧ solid v = true) →
  ∃ out, write_cursor_position_formatted g (Some p) (Some a) = Some out ∧
    paints out (mkPicture (shown false (g_rows g)) p (sgr_bare a)) (mkPicture (shown false (g_rows g)) (pos g) (sgr_bare a)).
Proof.
  intros Hsz Hpr Hlen Hr Hc Ha Hpr' Hpc Hfree Hend. set (rvs := shown false (g_rows g)) in *.
  assert (Hnext : ∀ q, 0 ≤ row q < rows sz → row q = row p + 1 → ∃ V, rvs !! Z.to_nat (row q) = Some (V, false)).
  { intros q Hq Eq. destruct (lookup_lt_is_Some_2 (g_rows g) (Z.to_nat (row q))) as [x Hx]; [lia|].
    destruct (shown_lookup _ _ _ Hx) as [b Hb]. fold rvs in Hb. exists (map view (cells x)). rewrite Hb. do 2 f_equal.
    eapply Hfree; [|exact Hb]. lia. }
  unfold write_cursor_position_formatted. cbn [default from_option]. unfold id. rewrite Hsz.
  destruct (negb (bool_decide (Some p = Some (pos g))) && (cols sz <=? col (pos g))) eqn:Eb.
  - b2p. destruct Hend as [?|(x & v & Hx & Hv & Hsol)]; [lia|].
    rewrite Forall_forall in Hpr. destruct (Hpr x) as [Hxl Hxp]; [by apply list_elem_of_lookup_2 in Hx|].
    destruct (printable_end _ _ Hxp Hv Hsol) as (pre & c & cs & w & tl & Ecells & Hcell & Htl).
    pose proof (tc_drawable _ _ _ Hcell) as Hd. assert (Hw : w = 1 ∨ w = 2) by (destruct Hd as (? & ? & _ & _ & ? & _); done).
    destruct (end_pos_spec g (row (pos g)) x pre c cs w tl Hsz Hx Hxl Ecells Hcell Htl Hw) as (Eend & Ecell & Ecol).
    rewrite Eend, Ecell, (text_has_contents _ _ _ Hcell). unfold redraw. cbn [reach].
    destruct (paints_move ms sz Hrs Hcs rvs p (mkPos (row (pos g)) (Z.of_nat (length pre))) (sgr_bare a)) as (way & Eway & Hway);
      [done|lia|split; cbn [row col]; lia|intros E; by apply Hnext|].
    rewrite Eway, (tc_text _ _ _ Hcell). eexists. split; [done|].
    destruct (drawn_same pre c cs w tl Hcell Htl Hw) as [Hfit Hsame]. destruct (shown_lookup _ _ _ Hx) as [b Hb]. fold rvs in Hb.
    rewrite Ecells in Hb.
    pose proof (tc_attrs _ _ _ Hcell) as Hat.
    eapply paints_app; [exact Hway|]. eapply paints_app; [by apply paints_diff|].
    eapply paints_app; [|by apply paints_diff].
    pose proof (paints_text ms sz cs w rvs (Z.to_nat (row (pos g))) (length pre) (sgr_bare (cell_attrs c)) (map view (pre ++ c :: tl)) b Hd) as Ht.
    rewrite Z2Nat.id in Ht by lia. specialize (Ht ltac:(lia) ltac:(rewrite length_map, <- Ecells, Hxl; unfold width; lia) Hb Hfit).
    rewrite Hsame, (list_insert_id rvs) in Ht by done. replace (pos g) with (mkPos (row (pos g)) (Z.of_nat (length pre) + w)) at 2; [exact Ht|].
    destruct (pos g) as [q1 q2]. cbn [row col] in *. f_equal. lia.
  - cbn [reach]. assert (Hin : col (pos g) < cols sz ∨ p = pos g).
    { apply andb_false_iff in Eb as [Eb|Eb]; [right|left; lia]. apply negb_false_iff, bool_decide_eq_true_1 in Eb. by injection Eb. }
    destruct Hin as [Hin|Heq].
    + apply paints_move; [done|done|done|lia|split; lia|]. intros E. apply Hnext; [done|lia].
    + subst p. exists []. split; [|apply paints_nil]. unfold move_from_to. rewrite u16_add_ok by lia.
      rewrite (proj2 (Z.eqb_neq (row (pos g)) _)) by lia. cbn [andb]. rewrite Z.ltb_irrefl, andb_false_r.
      by rewrite bool_decide_eq_true_2.
Qed.

(** ** The grid *)

Lemma paints_clear P :
  paints [IClearAttrs; IClearScreen] P (mkPicture (replicate (Z.to_nat (rows sz)) blank_row) pos_default (sgr_bare attrs_default)).
Proof.
  intros t (a & Hcv & Ha). destruct (sgr_spec ms sz _ _ _ _ [[0]] Hcv) as (t1 & E1 & Hcv1); [by repeat constructor|done|].
  change (sgr_all [[0]] a) with (sgr_reset a) in Hcv1.
  destruct (home_spec ms sz _ _ _ t1 Hcv1) as (t2 & E2 & Hcv2). destruct (ed_spec ms sz _ _ t2 Hcv2) as (t3 & E3 & Hcv3).
  exists t3. split; [|by exists (sgr_reset a)].
  unfold buf_events. cbn [flat_map item_events app vt_perform_all]. unfold csi_event.
  rewrite !(bool_decide_eq_true_2 (@nil (list Z) = [])) by done. by rewrite E1, E2, E3.
Qed.

(** A grid that can be saved: nothing on it but what printing and erasing leave, no row
    joined to another whose touching ends were erased, the view at the bottom, and the
    cursor on the screen or just past a row's last character. *)
Record savable (g : Grid) : Prop := {
  sv_size : size g = sz;
  sv_len : Z.of_nat (length (g_rows g)) = rows sz;
  sv_rows : Forall row_printable (g_rows g);
  sv_wraps : wraps_ok (g_rows g);
  sv_offset : scrollback_offset g = 0;
  sv_row : 0 ≤ row (pos g) < rows sz;
  sv_col : 0 ≤ col (pos g) ≤ cols sz;
  sv_end : col (pos g) < cols sz ∨
    ∃ x v, g_rows g !! Z.to_nat (row (pos g)) = Some x ∧ last (map view (cells x)) = Some v ∧ solid v = true;
}.

Lemma visible_bottom g : scrollback_offset g = 0 → visible_rows g = g_rows g.
Proof.
  intros E. unfold visible_rows. rewrite E. change (Z.to_nat 0) with 0%nat. rewrite !Nat.sub_0_r, skipn_all, take_nil, firstn_all. done.
Qed.

Lemma grid_spec g :
  savable g → ∃ out a, grid_write_formatted g = Some (out, a) ∧ attrs_ok a ∧
    ∀ P, paints out P (mkPicture (shown false (g_rows g)) (pos g) (sgr_bare a)).
Proof.
  intros [Hsz Hlen Hpr Hwr Hoff Hr Hc Hend]. unfold grid_write_formatted, visible_rows_continuing. rewrite (visible_bottom g Hoff), Hsz.
  destruct (rows_spec (g_rows g) [] false pos_default attrs_default) as (out & p & a & E & Hp & Ha & Hpr' & Hpc & Hfree);
    try done; try (cbn; lia); try (apply attrs_default_ok).
  change (Z.of_nat (length [])) with 0 in E. rewrite E. cbn [app] in *.
  destruct (cursor_spec g p a Hsz Hpr Hlen Hr Hc Ha Hpr' Hpc Hfree Hend) as (way & Eway & Hway). rewrite Eway.
  eexists _, a. split; [done|]. split; [done|]. intros P. apply (paints_app _ _ [IClearAttrs; IClearScreen] _ _ _ _ (paints_clear P)).
  eapply paints_app; [|exact Hway]. replace (Z.to_nat (rows sz)) with (length (g_rows g)) by lia. exact Hp.
Qed.

End Screens.

(** ** Modes *)

Definition put_mode (t : Screen) (bit : Z) (on : bool) : Screen := if on then set_mode t bit else clear_mode t bit.

Lemma put_mode_same t bit on : 0 < bit → Z.land (u16_max - bit) bit = 0 → mode_on (put_mode t bit on) bit = on.
Proof.
  intros Hb Hz. unfold put_mode, mode_on. destruct on; cbn [set_mode clear_mode with_modes modes].
  - rewrite Z.land_lor_distr_l, Z.land_diag. apply negb_true_iff, Z.eqb_neq. intros [_ ?]%Z.lor_eq_0_iff. lia.
  - by rewrite <- Z.land_assoc, Hz, Z.land_0_r.
Qed.

Lemma put_mode_other t bit on m :
  Z.land bit m = 0 → Z.land (u16_max - bit) m = m → mode_on (put_mode t bit on) m = mode_on t m.
Proof.
  intros Hz Hm. unfold put_mode, mode_on. destruct on; cbn [set_mode clear_mode with_modes modes].
  - by rewrite Z.land_lor_distr_l, Hz, Z.lor_0_r.
  - by rewrite <- Z.land_assoc, Hm.
Qed.

Lemma put_mode_rest t bit on :
  grid (put_mode t bit on) = grid t ∧ alternate_grid (put_mode t bit on) = alternate_grid t ∧ attrs (put_mode t bit on) = attrs t ∧
  charsets (put_mode t bit on) = charsets t ∧ mouse_protocol_mode (put_mode t bit on) = mouse_protocol_mode t ∧
  mouse_protocol_encoding (put_mode t bit on) = mouse_protocol_encoding t.
Proof. by destruct on. Qed.

Definition input_modes : list Z := [MODE_APPLICATION_KEYPAD; MODE_APPLICATION_CURSOR; MODE_HIDE_CURSOR; MODE_BRACKETED_PASTE].

Lemma put_mode_cur t bit on : bit ∈ input_modes → cur_grid (put_mode t bit on) = cur_grid t.
Proof.
  intros Hb. unfold cur_grid. destruct (put_mode_rest t bit on) as (-> & -> & _).
  assert (E : Z.land bit MODE_ALTERNATE_SCREEN = 0 ∧ Z.land (u16_max - bit) MODE_ALTERNATE_SCREEN = MODE_ALTERNATE_SCREEN).
  { revert bit Hb. apply Forall_forall. by repeat constructor. }
  by rewrite put_mode_other by apply E.
Qed.

(** What a screen saved and painted again has in common with the first. *)
Record looks_like (s t : Screen) : Prop := {
  ll_cells : map (λ r, map view (cells r)) (g_rows (cur_grid t)) = map (λ r, map view (cells r)) (g_rows (cur_grid s));
  ll_joined : tail (map wrapped (g_rows (cur_grid t))) = tail (map wrapped (g_rows (cur_grid s)));
  ll_cursor : pos (cur_grid t) = pos (cur_grid s);
  ll_pen : sgr_bare (attrs t) = sgr_bare (attrs s);
  ll_modes : Forall (λ m, mode_on t m = mode_on s m) input_modes;
  ll_mouse : mouse_protocol_mode t = mouse_protocol_mode s;
  ll_encoding : mouse_protocol_encoding t = mouse_protocol_encoding s;
}.

Section Restore.
Context `{!UnicodeWidth}.

Lemma ready_hide ms sz t on :
  ready ms sz t → screen_ok (put_mode (break_rep t) MODE_HIDE_CURSOR on) →
  ready (kept (put_mode (break_rep t) MODE_HIDE_CURSOR on)) sz (put_mode (break_rep t) MODE_HIDE_CURSOR on).
Proof.
  intros [H1 H2 Hi Hbl H3 H4 H5 H6 H7 H8 H9 H10] Hok.
  assert (Ec : cur_grid (put_mode (break_rep t) MODE_HIDE_CURSOR on) = cur_grid t).
  { rewrite put_mode_cur; [done|]. by apply (bool_decide_unpack _). }
  destruct (put_mode_rest (break_rep t) MODE_HIDE_CURSOR on) as (_ & _ & Eat & Ech & _).
  split; rewrite ?Ec, ?Ech, ?Eat; try done; by rewrite put_mode_other.
Qed.

(** The sequences for keyboard, paste and mouse. *)
Lemma input_spec s t :
  mouse_protocol_mode t = MNone → mouse_protocol_encoding t = EDefault → 
  mode_on t MODE_HIDE_CURSOR = mode_on s MODE_HIDE_CURSOR →
  ∃ t', vt_perform_all t (buf_events (input_mode_formatted s)) = Some t' ∧ cur_grid t' = cur_grid t ∧ attrs t' = attrs t ∧
    Forall (λ m, mode_on t' m = mode_on s m) input_modes ∧ mouse_protocol_mode t' = mouse_protocol_mode s ∧
    mouse_protocol_encoding t' = mouse_protocol_encoding s.
Proof.
  intros Hm He Hh.
  set (t1 := put_mode (break_rep t) MODE_APPLICATION_KEYPAD (mode_on s MODE_APPLICATION_KEYPAD)).
  set (t2 := put_mode (break_rep t1) MODE_APPLICATION_CURSOR (mode_on s MODE_APPLICATION_CURSOR)).
  set (t3 := put_mode (break_rep t2) MODE_BRACKETED_PASTE (mode_on s MODE_BRACKETED_PASTE)).
  assert (E3 : vt_perform_all t (buf_events [IApplicationKeypad (mode_on s MODE_APPLICATION_KEYPAD);
    IApplicationCursor (mode_on s MODE_APPLICATION_CURSOR); IBracketedPaste (mode_on s MODE_BRACKETED_PASTE)]) = Some t3).
  { unfold t3, t2, t1. destruct (mode_on s MODE_APPLICATION_KEYPAD), (mode_on s MODE_APPLICATION_CURSOR), (mode_on s MODE_BRACKETED_PASTE); reflexivity. }
  assert (Emouse : ∀ u m, mouse_protocol_mode u = MNone → ∃ b, vt_perform_all u (buf_events [IMouseProtocolMode m MNone]) = Some (with_cluster (set_mouse_mode u m) (last_base u) (last_marks u) b)).
  { intros u m Hu. destruct m; [exists (last_cluster_live u); cbn; f_equal; by destruct u; cbn in Hu; subst|exists false; reflexivity..]. }
  assert (Eenc : ∀ u e, mouse_protocol_encoding u = EDefault → ∃ b, vt_perform_all u (buf_events [IMouseProtocolEncoding e EDefault]) = Some (with_cluster (set_mouse_encoding u e) (last_base u) (last_marks u) b)).
  { intros u e Hu. destruct e; [exists (last_cluster_live u); cbn; f_equal; by destruct u; cbn in Hu; subst|exists false; reflexivity..]. }
  destruct (put_mode_rest (break_rep t) MODE_APPLICATION_KEYPAD (mode_on s MODE_APPLICATION_KEYPAD)) as (_ & _ & Ha1 & _ & Hm1 & He1).
  destruct (put_mode_rest (break_rep t1) MODE_APPLICATION_CURSOR (mode_on s MODE_APPLICATION_CURSOR)) as (_ & _ & Ha2 & _ & Hm2 & He2).
  destruct (put_mode_rest (break_rep t2) MODE_BRACKETED_PASTE (mode_on s MODE_BRACKETED_PASTE)) as (_ & _ & Ha3 & _ & Hm3 & He3).
  fold t1 in Ha1, Hm1, He1. fold t2 in Ha2, Hm2, He2. fold t3 in Ha3, Hm3, He3. cbn [break_rep with_cluster attrs mouse_protocol_mode mouse_protocol_encoding] in *.
  destruct (Emouse t3 (mouse_protocol_mode s)) as (b4 & E4); [congruence|]. set (t4 := with_cluster _ _ _ b4) in E4.
  destruct (Eenc t4 (mouse_protocol_encoding s)) as (b5 & E5); [cbn; congruence|]. set (t5 := with_cluster _ _ _ b5) in E5.
  exists t5. split; [|split; [|split; [|split; [|done]]]].
  - change (input_mode_formatted s) with
      ([IApplicationKeypad (mode_on s MODE_APPLICATION_KEYPAD); IApplicationCursor (mode_on s MODE_APPLICATION_CURSOR);
        IBracketedPaste (mode_on s MODE_BRACKETED_PASTE)] ++ [IMouseProtocolMode (mouse_protocol_mode s) MNone] ++
        [IMouseProtocolEncoding (mouse_protocol_encoding s) EDefault]).
    unfold buf_events in *. rewrite flat_map_app, perform_all_app, E3. cbv beta iota. rewrite flat_map_app, perform_all_app, E4. exact E5.
  - change (cur_grid t5) with (cur_grid t3). unfold t3. rewrite put_mode_cur by (unfold input_modes; set_solver). change (cur_grid (break_rep t2)) with (cur_grid t2).
    unfold t2. rewrite put_mode_cur by (unfold input_modes; set_solver). change (cur_grid (break_rep t1)) with (cur_grid t1).
    unfold t1. rewrite put_mode_cur by (unfold input_modes; set_solver).
    done.
  - cbn. congruence.
  - unfold input_modes. change (mode_on t5) with (mode_on t3).
    assert (Hb : ∀ u m, mode_on (break_rep u) m = mode_on u m) by done.
    repeat apply Forall_cons_2; [..|done]; unfold t3, t2, t1; repeat (first [rewrite put_mode_same by done | rewrite put_mode_other by done | rewrite Hb]); done.
Qed.

Lemma shown_views wrapping rs :
  map fst (shown wrapping rs) = map (λ r, map view (cells r)) rs ∧ tail (map snd (shown wrapping rs)) = tail (map wrapped rs).
Proof.
  destruct rs as [|x rs]; [done|]. cbn [shown map tail fst snd]. rewrite !map_map. done.
Qed.

(** Reading what was written on a ready terminal. *)
Lemma repaint_spec s t sz :
  savable sz (cur_grid s) → attrs_ok (attrs s) → ready (kept t) sz t →
  mouse_protocol_mode t = MNone → mouse_protocol_encoding t = EDefault →
  ∃ out t', state_formatted s = Some out ∧ vt_perform_all t (buf_events out) = Some t' ∧ looks_like s t' ∧
    back (cur_grid t') = back (cur_grid t).
Proof.
  intros Hs Ha Hrd Hm He. set (hide := mode_on s MODE_HIDE_CURSOR). set (t1 := put_mode (break_rep t) MODE_HIDE_CURSOR hide).
  assert (E1 : vt_perform t (mode_event 25 (negb hide)) = Some t1) by (unfold t1; by destruct hide).
  destruct (perform_good t (mode_event 25 (negb hide)) (rd_ok _ _ _ Hrd)) as (t1' & E1' & Hok1 & _).
  { by repeat constructor. }
  rewrite E1 in E1'. injection E1' as <-. pose proof (ready_hide _ _ _ hide Hrd Hok1) as Hrd1. fold t1 in Hrd1.
  pose proof (cur_ok _ Hok1) as [Hg1 _]. pose proof (go_rows _ Hg1) as Hrs. pose proof (go_cols _ Hg1) as Hcs.
  rewrite (rd_size _ _ _ Hrd1) in Hrs, Hcs.
  destruct (grid_spec (kept t1) sz Hrs Hcs (cur_grid s) Hs) as (out & a & Eout & Hat & Hpaint).
  set (P := mkPicture (map rview (g_rows (cur_grid t1))) (pos (cur_grid t1)) (sgr_bare (attrs t1))).
  pose proof (paints_app _ _ _ _ _ _ _ (Hpaint P) (paints_diff (kept t1) sz (attrs s) a _ _ Ha Hat)) as Hall.
  destruct (Hall t1) as (t2 & E2 & a2 & Hcv2 & Ha2). { by exists (attrs t1). }
  cbn [pc_rows pc_pos pc_pen] in *. destruct Hcv2 as [Hrd2 Hrows2 Hpos2 Hpen2].
  pose proof (rd_kept _ _ _ Hrd2) as Hi. pose proof (f_equal snd Hi) as Hbk. injection Hi as Hi1 Hi2 Hi3 _ _ _.
  cbn [kept snd] in Hbk.
  destruct (put_mode_rest (break_rep t) MODE_HIDE_CURSOR hide) as (_ & _ & _ & _ & Hm1 & He1). fold t1 in Hm1, He1.
  destruct (input_spec s t2) as (t' & E3 & Hg3 & Ha3 & Hmd & Hmo & Hen).
  - rewrite Hi2, Hm1. exact Hm.
  - rewrite Hi3, He1. exact He.
  - unfold mode_on at 1. rewrite Hi1. change (negb (Z.land (modes t1) MODE_HIDE_CURSOR =? 0)) with (mode_on t1 MODE_HIDE_CURSOR).
    unfold t1. by rewrite put_mode_same.
  - unfold state_formatted, contents_formatted. rewrite Eout. eexists _, t'. split; [done|]. split.
    + unfold buf_events in *. rewrite flat_map_app, perform_all_app. cbn [app flat_map]. cbn [item_events app vt_perform_all]. fold hide. rewrite E1.
      rewrite E2. exact E3.
    + destruct (shown_views false (g_rows (cur_grid s))) as [Hv1 Hv2]. rewrite <- Hrows2 in Hv1, Hv2. rewrite !map_map in Hv1, Hv2.
      split; [split; rewrite ?Hg3; try done; by rewrite Ha3, Hpen2|]. rewrite Hg3, Hbk. unfold t1.
      rewrite put_mode_cur; [done|]. by apply (bool_decide_unpack _).
Qed.


End Restore.

(** ** Examples *)

Lemma new_ready sz n t :
  1 ≤ rows sz ≤ u16_max → 1 ≤ cols sz < u16_max → 0 ≤ n → screen_new sz n = Some t →
  ready (kept t) sz t ∧ mouse_protocol_mode t = MNone ∧ mouse_protocol_encoding t = EDefault.
Proof.
  intros Hr Hc Hn E. destruct (screen_new_ok sz n Hr Hc Hn) as (t' & E' & Hok & Hf). rewrite E in E'. injection E' as <-.
  unfold screen_new, grid_new in E. rewrite u16_sub_ok in E by lia. injection E as <-. by split; [split|].
Qed.

(** A wide character that fills its row, and a red one with an accent that wrapped. *)
Definition sample_line : list vt_event :=
  [VPrint 97; VPrint 20013; VCsi [[31]] [] 109; VPrint 101; VPrint 769; VCsi [[44]] [] 109; VCsi [[0]] [] 75; VCsi [[25]] [63] 108].

Definition sample_page : option Screen := let! s := screen_new (mkSize 2 3) 0 in @vt_perform_all sample_width s sample_line.

Ltac prove_prints := unfold prints; split; [done|]; split; [lia|]; split; [done|]; split; [done|]; split; [by intros [? ?]|done].

Lemma sample_page_savable : ∃ s, sample_page = Some s ∧ @savable (mkSize 2 3) sample_width (cur_grid s) ∧ attrs_ok (attrs s).
Proof.
  eexists. split; [vm_compute; reflexivity|]. split; [|by split; [..|done]].
  split; [done|done| | |done|done|done|by left].
  - apply Forall_cons_2; [|apply Forall_cons_2; [|done]]; (split; [done|]).
    + apply (pr_narrow _ [97]); [split; [done| |done|done|by split]|].
      { exists 97, []. split; [done|]. split; [prove_prints|]. split; [by left|done]. }
      apply (pr_wide _ [20013]); [split; [done| |done|done|by split]|done|constructor].
      exists 20013, []. split; [done|]. split; [prove_prints|]. split; [by right|done].
    + apply (pr_narrow _ [101; 769]); [split; [done| |done|done|by split]|].
      { exists 101, [769]. split; [done|]. split; [prove_prints|]. split; [by left|]. split; [|done]. apply Forall_singleton. prove_prints. }
      apply pr_blank; [by split; [..|split|]|]. apply pr_blank; [by split; [..|split|]|]. constructor.
  - split; [|done]. intros _. split; [done|]. by eexists.
Qed.

Lemma sample_blank :
  ∃ t, screen_new (mkSize 2 3) 0 = Some t ∧ ready (kept t) (mkSize 2 3) t ∧
    mouse_protocol_mode t = MNone ∧ mouse_protocol_encoding t = EDefault.
Proof.
  assert (Hr : 1 ≤ rows (mkSize 2 3) ≤ u16_max) by done. assert (Hc : 1 ≤ cols (mkSize 2 3) < u16_max) by done.
  destruct (screen_new_ok (mkSize 2 3) 0 Hr Hc (Z.le_refl 0)) as (t & Et & _ & _). exists t. split; [exact Et|].
  exact (new_ready (mkSize 2 3) 0 t Hr Hc (Z.le_refl 0) Et).
Qed.


(** Where the ends of two joined rows were erased the writer takes the join for granted and
    the text lands one row too high: what was [a   ], [ fz ] is painted [a fz], [    ]. *)
Definition texts (s : Screen) : list (list (list Z)) :=
  map (λ r, map (λ c, default [] (contents c)) (cells r)) (g_rows (cur_grid s)).

Definition sample_cut : list vt_event :=
  map VPrint [97; 98; 99; 100; 101; 102] ++
  [VCsi [[1]; [2]] [] 72; VCsi [[0]] [] 75; VCsi [[2]; [1]] [] 72; VCsi [[0]] [] 88; VCsi [[2]; [3]] [] 72; VPrint 122].

Lemma cut_join_misplaced :
  ∃ s t out t', (let! s := screen_new (mkSize 2 4) 0 in @vt_perform_all sample_width s sample_cut) = Some s ∧
    screen_new (mkSize 2 4) 0 = Some t ∧ state_formatted s = Some out ∧ @vt_perform_all sample_width t (buf_events out) = Some t' ∧
    texts s = [[[97]; []; []; []]; [[]; [102]; [122]; []]] ∧ texts t' = [[[97]; []; [102]; [122]]; [[]; []; []; []]].
Proof.
  eexists _, _, _, _. split; [vm_compute; reflexivity|]. split; [vm_compute; reflexivity|]. split; [vm_compute; reflexivity|].
  split; [vm_compute; reflexivity|]. split; vm_compute; reflexivity.
Qed.
