(* ===== verification/VtHandoff.v ===== *)
(** * Handing a screen over ([crates/tymux-core/src/pane/handoff.rs])

    Before the daemon replaces itself it saves every pane's terminal as byte streams: one per
    row of scrollback and one for the screen. The new daemon feeds them to a fresh terminal.
    [None] is a panic. *)

From S2P Require Import Prelude TermQuery VtCell VtRow VtGrid VtGridInv VtScreen VtDraw VtScreenProps VtRender VtRenderPen VtPaint VtPaintRow VtRenderProps.

(** ** Exporting and restoring *)

Record ScreenState := mkScreenState {
  ss_scrollback : list (list Item);
  ss_visible : list Item;
}.

(** [Screen::set_scrollback]. *)
Definition scroll_to (s : Screen) (n : Z) : Screen := set_cur s (set_scrollback (cur_grid s) n).

(** [rows_formatted(0, cols).next().unwrap_or_default()]: only the first row is written. *)
Definition top_formatted (s : Screen) (cols : Z) : option (list Item) :=
  match visible_rows_continuing (cur_grid s) with
  | [] => Some []
  | (r, _) :: _ => let! w := row_write_formatted r 0 cols 0 false None None in Some (wr_out w)
  end.

(** [for offset in (1..=len).rev()] *)
Fixpoint export_lines (s : Screen) (cols : Z) (offset : nat) : option (Screen * list (list Item)) :=
  match offset with
  | O => Some (s, [])
  | S n =>
      let s := scroll_to s (Z.of_nat offset) in
      let! top := top_formatted s cols in
      let! (s, lines) := export_lines s cols n in
      Some (s, top :: lines)
  end.

Definition export_screen (s : Screen) : option (Screen * ScreenState) :=
  let cols := cols (size (cur_grid s)) in
  let s := scroll_to s u64_max in
  let len := scrollback_offset (cur_grid s) in
  let! (s, lines) := export_lines s cols (Z.to_nat len) in
  let s := scroll_to s 0 in
  let! visible := state_formatted s in
  Some (s, mkScreenState lines visible).

Section Restore.
Context `{!UnicodeWidth}.

(** [Parser::process] on what a writer wrote. *)
Definition process_items (t : Screen) (out : list Item) : option Screen := vt_perform_all t (buf_events out).

Fixpoint restore_lines (t : Screen) (lines : list (list Item)) : option Screen :=
  match lines with
  | [] => Some t
  | line :: lines =>
      let! t := process_items t line in
      let! t := process_items t [ICrlf] in
      restore_lines t lines
  end.

Definition restore_screen (t : Screen) (state : ScreenState) : option Screen :=
  let rows := rows (size (cur_grid t)) in
  let! t := restore_lines t (ss_scrollback state) in
  let on_screen := Nat.min (length (ss_scrollback state)) (Z.to_nat (sat_sub rows 1)) in
  let! t :=
    (if (0 <? on_screen)%nat then
       let! t := vt_perform t (VCsi [[rows]; [1]] [] 72) in
       vt_perform_all t (replicate on_screen (VExecute 10))
     else Some t) in
  process_items t (ss_visible state).

(** ** What is exported *)

Definition line_out (ncols : Z) (x : Row) : option (list Item) :=
  let! w := row_write_formatted x 0 ncols 0 false None None in Some (wr_out w).

Definition full_rows (g : Grid) : Prop := Forall (λ r, length (cells r) = Z.to_nat (cols (size g))) (scrollback g).

(** Scrolling pads no row that is wide enough. *)
Lemma set_scrollback_full g n :
  full_rows g → set_scrollback g n = with_scrollback g (scrollback g) (Z.min n (Z.of_nat (length (scrollback g)))).
Proof.
  intros Hf. unfold set_scrollback, pad_scrollback_window. cbn [with_scrollback scrollback size g_rows scrollback_offset].
  set (skip := (length (scrollback g) - Nat.min _ _)%nat).
  assert (Epad : ∀ l, Forall (λ r, length (cells r) = Z.to_nat (cols (size g))) l →
    (λ r, if (length (cells r) <? Z.to_nat (cols (size g)))%nat then mkRow (vec_resize (Z.to_nat (cols (size g))) cell_new (cells r)) (wrapped r) else r) <$> l = l).
  { intros l. induction 1 as [|r l Hr _ IH]; [done|]. rewrite fmap_cons, IH, Hr. by rewrite Nat.ltb_irrefl. }
  rewrite Epad by (by apply Forall_take, Forall_drop). unfold with_scrollback. f_equal.
  rewrite <- drop_drop, take_drop, take_drop. done.
Qed.

Definition at_offset (s : Screen) (n : Z) : Screen := set_cur s (with_scrollback (cur_grid s) (scrollback (cur_grid s)) n).

Lemma set_cur_again s g g' : set_cur (set_cur s g) g' = set_cur s g'.
Proof. unfold set_cur. destruct (mode_on s MODE_ALTERNATE_SCREEN) eqn:E; unfold mode_on in *; simpl; by rewrite E. Qed.

Lemma scroll_to_at s m n :
  full_rows (cur_grid s) → 0 ≤ n ≤ Z.of_nat (length (scrollback (cur_grid s))) → scroll_to (at_offset s m) n = at_offset s n.
Proof.
  intros Hf Hn. unfold scroll_to, at_offset. rewrite cur_of_set_cur, set_cur_again. f_equal.
  rewrite set_scrollback_full by done. cbn [with_scrollback scrollback]. rewrite Z.min_l by lia. done.
Qed.

Lemma at_offset_self s : at_offset s (scrollback_offset (cur_grid s)) = s.
Proof. unfold at_offset. etrans; [|apply set_cur_self]. f_equal. by destruct (cur_grid s). Qed.

(** At offset [n] the top row is the [n]th newest of the scrollback. *)
Lemma top_formatted_at s n x :
  g_rows (cur_grid s) ≠ [] → (1 ≤ n ≤ length (scrollback (cur_grid s)))%nat →
  scrollback (cur_grid s) !! (length (scrollback (cur_grid s)) - n)%nat = Some x →
  top_formatted (at_offset s (Z.of_nat n)) (cols (size (cur_grid s))) = line_out (cols (size (cur_grid s))) x.
Proof.
  intros Hne Hn Hx. unfold top_formatted, at_offset, visible_rows_continuing. rewrite cur_of_set_cur.
  set (g := cur_grid s) in *. unfold visible_rows. cbn [with_scrollback g_rows scrollback scrollback_offset]. rewrite Nat2Z.id.
  rewrite (drop_S _ _ _ Hx). destruct (g_rows g); [done|]. cbn [length take app continuing]. done.
Qed.

Lemma export_lines_spec s n :
  g_rows (cur_grid s) ≠ [] → full_rows (cur_grid s) → (n ≤ length (scrollback (cur_grid s)))%nat → ∀ m,
  ∀ outs, Forall2 (λ x out, line_out (cols (size (cur_grid s))) x = Some out) (drop (length (scrollback (cur_grid s)) - n) (scrollback (cur_grid s))) outs →
  ∃ k, export_lines (at_offset s m) (cols (size (cur_grid s))) n = Some (at_offset s k, outs).
Proof.
  intros Hne Hf. induction n as [|n IH]; intros Hn m outs Hall.
  { rewrite Nat.sub_0_r, skipn_all in Hall. apply Forall2_nil_inv_l in Hall as ->. by exists m. }
  destruct (lookup_lt_is_Some_2 (scrollback (cur_grid s)) (length (scrollback (cur_grid s)) - S n)) as [x Hx]; [lia|].
  rewrite (drop_S _ _ _ Hx) in Hall. apply Forall2_cons_inv_l in Hall as (out & outs' & Hout & Hall & ->).
  replace (S (length (scrollback (cur_grid s)) - S n)) with (length (scrollback (cur_grid s)) - n)%nat in Hall by lia.
  cbn [export_lines]. rewrite scroll_to_at by (done || lia). rewrite (top_formatted_at s (S n) x) by (done || lia). rewrite Hout.
  destruct (IH ltac:(lia) (Z.of_nat (S n)) outs' Hall) as (k & ->). by exists k.
Qed.

Lemma export_spec s outs vis :
  g_rows (cur_grid s) ≠ [] → full_rows (cur_grid s) → scrollback_offset (cur_grid s) = 0 → Z.of_nat (length (scrollback (cur_grid s))) ≤ u64_max →
  Forall2 (λ x out, line_out (cols (size (cur_grid s))) x = Some out) (scrollback (cur_grid s)) outs → state_formatted s = Some vis →
  export_screen s = Some (s, mkScreenState outs vis).
Proof.
  intros Hne Hf Hoff Hmax Hall Hvis. unfold export_screen. set (L := length (scrollback (cur_grid s))) in *.
  assert (E0 : scroll_to s u64_max = at_offset s (Z.of_nat L)).
  { unfold scroll_to, at_offset. f_equal. rewrite set_scrollback_full by done. by rewrite Z.min_r by lia. }
  assert (Eo : scrollback_offset (cur_grid (at_offset s (Z.of_nat L))) = Z.of_nat L) by (unfold at_offset; by rewrite cur_of_set_cur).
  rewrite E0, Eo, Nat2Z.id.
  destruct (export_lines_spec s L Hne Hf ltac:(lia) (Z.of_nat L) outs) as (k & ->).
  { unfold L. by rewrite Nat.sub_diag. }
  rewrite scroll_to_at by (done || lia).
  assert (E1 : at_offset s 0 = s) by (rewrite <- Hoff; apply at_offset_self). by rewrite E1, Hvis.
Qed.

(** ** Lines of unstyled text *)

Section Lines.
Context (sz : Size) (Hrs : 1 ≤ rows sz ≤ u16_max) (Hcs : 1 ≤ cols sz < u16_max).

Notation wide := (width sz).

(** Characters in the default attributes and cells never written. *)
Inductive unstyled : list Cell → Prop :=
| us_nil : unstyled []
| us_blank c l : cell_eqb c cell_new = true → unstyled l → unstyled (c :: l)
| us_narrow c cs l : text_cell c cs 1 → cell_attrs c = attrs_default → unstyled l → unstyled (c :: l)
| us_wide c cs d l : text_cell c cs 2 → cell_attrs c = attrs_default → view d = half_view attrs_default → unstyled l → unstyled (c :: d :: l).

Lemma view_new c : cell_eqb c cell_new = true → view c = nothing.
Proof.
  intros Hc. pose proof (eqb_new_attrs c Hc) as Ha. unfold cell_eqb in Hc. apply andb_true_iff in Hc as [[Hl _]%andb_true_iff _].
  apply Z.eqb_eq in Hl. unfold view, contents, cell_len, is_wide, is_wide_continuation. rewrite Hl, Ha. done.
Qed.

Lemma new_no_contents c : cell_eqb c cell_new = true → has_contents c = false ∧ is_wide c = false.
Proof.
  intros Hc. unfold cell_eqb in Hc. apply andb_true_iff in Hc as [[Hl _]%andb_true_iff _]. apply Z.eqb_eq in Hl.
  unfold has_contents, cell_len, is_wide. rewrite Hl. done.
Qed.

(** The row is painted at whatever row the cursor is in, from its first column. *)
Definition line_painted (pre : list Cell) (out : list Item) (c : Z) : Prop :=
  ∀ ms R rvs0, Z.of_nat R < rows sz → rvs0 !! R = Some (blank_row sz) →
  paints ms sz out (mkPicture rvs0 (mkPos (Z.of_nat R) 0) attrs_default)
    (mkPicture (<[R := (partial sz pre (length pre), false)]> rvs0) (mkPos (Z.of_nat R) c) attrs_default).

Record line_inv (pre : list Cell) (w : Writer) : Prop := {
  li_attrs : wr_attrs w = attrs_default;
  li_erase : wr_erase w = None;
  li_wide : wr_wide w = false;
  li_row : row (wr_pos w) = 0;
  li_col : 0 ≤ col (wr_pos w) ≤ Z.of_nat (length pre);
  li_painted : line_painted pre (wr_out w) (col (wr_pos w));
}.

Lemma line_blank pre w c :
  line_inv pre w → cell_eqb c cell_new = true → (length pre < wide)%nat →
  ∃ w', write_cell (cols sz) false 0 w (Z.of_nat (length pre), c) = Some w' ∧ line_inv (pre ++ [c]) w'.
Proof.
  intros [Ha He Hw Hr Hc Hp] Hnew Hl. destruct (new_no_contents c Hnew) as [Hhc Hcw]. unfold write_cell.
  rewrite Hw, He, Hnew, Hcw. eexists. split; [done|]. split; cbn; try done; [rewrite length_app; simpl; lia|].
  intros ms R rvs0 HR Hrow. rewrite (partial_nothing sz pre c Hl (view_new c Hnew)). by apply Hp.
Qed.

Lemma line_move c d : 0 ≤ c ≤ d → d < cols sz →
  ∃ way, (if bool_decide (mkPos 0 d = mkPos 0 c) then Some [] else move_from_to (mkPos 0 c) (mkPos 0 d)) = Some way ∧
    ∀ ms R rvs pen, Z.of_nat R < rows sz → paints ms sz way (mkPicture rvs (mkPos (Z.of_nat R) c) pen) (mkPicture rvs (mkPos (Z.of_nat R) d) pen).
Proof.
  intros Hc Hd. case_bool_decide as E.
  - injection E as ->. exists []. split; [done|]. intros. apply paints_nil.
  - assert (c < d) by (destruct (Z.eq_dec c d) as [->|]; [done|lia]). exists [IMoveRight (d - c)]. split.
    + unfold move_from_to. cbn [row col]. rewrite u16_add_ok by (unfold u16_max; lia). cbn [Z.eqb andb Z.add].
      rewrite (proj2 (Z.ltb_lt _ _)) by lia. by rewrite u16_sub_ok by (unfold u16_max in *; lia).
    + intros ms R rvs pen HR. pose proof (paints_right ms sz Hcs rvs (mkPos (Z.of_nat R) c) pen (d - c)) as Hp. cbn [row col] in Hp.
      replace (c + (d - c)) with d in Hp by lia. apply Hp; lia.
Qed.

Lemma line_text pre w c cs wd tl :
  line_inv pre w → text_cell c cs wd → cell_attrs c = attrs_default → halves c tl wd → (length (pre ++ c :: tl) ≤ wide)%nat →
  ∃ w', write_cells (cols sz) false 0 (zip (seqZ (Z.of_nat (length pre)) (Z.of_nat (length (c :: tl)))) (c :: tl)) w = Some w' ∧
    line_inv (pre ++ c :: tl) w'.
Proof.
  intros [Ha He Hw Hr Hc Hp] Hcell Hca Htl Hl. pose proof (tc_drawable _ _ _ Hcell) as Hd.
  assert (Hwd : wd = 1 ∨ wd = 2) by (destruct Hd as (? & ? & _ & _ & ? & _); done).
  assert (Hlt : Z.of_nat (length (c :: tl)) = wd).
  { pose proof Htl as Ht'. unfold halves in Ht'. apply (f_equal length) in Ht'. rewrite length_map in Ht'. simpl. rewrite Ht'. by destruct Hwd as [->| ->]. }
  rewrite length_app in Hl. assert (Hcw : Z.of_nat (length pre) + wd ≤ cols sz) by (unfold width in Hl; lia).
  destruct (line_move (col (wr_pos w)) (Z.of_nat (length pre)) Hc) as (way & Eway & Hway); [lia|].
  set (w1 := mkWriter (wr_out w ++ way ++ [] ++ [IText cs]) (mkPos 0 (Z.of_nat (length pre) + wd)) attrs_default None (1 <? wd)).
  assert (E1 : write_cell (cols sz) false 0 w (Z.of_nat (length pre), c) = Some w1).
  { unfold write_cell. rewrite Hw, He. pose proof (text_has_contents _ _ _ Hcell) as Hhc. rewrite Hhc, (eqb_new_text c Hhc).
    unfold write_text. cbn [wr_pos wr_attrs wr_out wr_erase wr_wide row col follows_row].
    replace (wr_pos w) with (mkPos 0 (col (wr_pos w))) by (destruct (wr_pos w) as [q1 q2]; cbn in *; by subst).
    assert (Eway' : (if bool_decide (mkPos 0 (Z.of_nat (length pre)) = mkPos 0 (col (wr_pos w))) then Some []
      else move_from_to (mkPos 0 (col (wr_pos w))) (mkPos 0 (Z.of_nat (length pre)))) = Some way) by done.
    cbn [col]. rewrite Eway', (tc_text _ _ _ Hcell), Hca, Ha. unfold switch_attrs. rewrite (bool_decide_eq_true_2 (attrs_default = attrs_default)) by done.
    assert (Ew : (if is_wide c then 2 else 1) = wd) by (rewrite (tc_wide _ _ _ Hcell); by destruct Hwd as [->| ->]).
    rewrite Ew, u16_add_ok by lia. unfold w1. by rewrite (tc_wide _ _ _ Hcell). }
  assert (Hp1 : line_painted (pre ++ c :: tl) (wr_out w1) (Z.of_nat (length pre) + wd)).
  { intros ms R rvs0 HR Hrow. cbn [w1 wr_out app]. eapply paints_app; [by apply Hp|]. eapply paints_app; [by apply Hway|].
    set (rvs1 := <[R := (partial sz pre (length pre), false)]> rvs0).
    assert (Hrow1 : rvs1 !! R = Some (partial sz pre (length pre), false)) by (apply list_lookup_insert_eq; by eapply lookup_lt_Some).
    pose proof (paints_text ms sz cs wd rvs1 R (length pre) attrs_default (partial sz pre (length pre)) false Hd Hcw) as Ht.
    specialize (Ht ltac:(rewrite partial_length by lia; unfold width; lia) Hrow1 (partial_fits sz Hcs pre wd Hwd Hcw)).
    pose proof (partial_drawn sz pre c cs wd tl Hcell Hwd Htl Hl) as Ed. rewrite Hca in Ed. change (sgr_bare attrs_default) with attrs_default in Ed.
    unfold rvs1 in Ht at 2. rewrite Ed, list_insert_insert_eq in Ht. exact Ht. }
  assert (Hlen : Z.of_nat (length (pre ++ c :: tl)) = Z.of_nat (length pre) + wd) by (rewrite length_app; lia).
  unfold halves in Htl. destruct Hwd as [->| ->]; cbn [Z.ltb Z.compare Pos.compare Pos.compare_cont] in *.
  - apply map_eq_nil in Htl as ->. exists w1. rewrite seqZ_cons by (simpl; lia). cbn [zip zip_with length write_cells]. rewrite E1.
    split; [done|]. split; cbn [w1 wr_attrs wr_erase wr_wide wr_pos row col wr_out]; try done. lia.
  - destruct tl as [|d []]; [done| |done]. rewrite !seqZ_cons by (simpl; lia). cbn [zip zip_with length write_cells]. rewrite E1.
    unfold write_cell. cbn [w1 wr_wide]. eexists. split; [done|].
    split; cbn [wr_attrs wr_erase wr_wide wr_pos row col wr_out]; try done. rewrite Hlen. cbn. lia.
Qed.

Lemma line_cells l : unstyled l → ∀ pre w,
  line_inv pre w → (length pre + length l ≤ wide)%nat →
  ∃ w', write_cells (cols sz) false 0 (zip (seqZ (Z.of_nat (length pre)) (Z.of_nat (length l))) l) w = Some w' ∧ line_inv (pre ++ l) w'.
Proof.
  assert (Happ : ∀ l1 l2 w, write_cells (cols sz) false 0 (l1 ++ l2) w =
    (let! w := write_cells (cols sz) false 0 l1 w in write_cells (cols sz) false 0 l2 w)) by (intros; apply write_cells_app).
  induction 1 as [|c l Hc Hl IH|c cs l Hc Ha Hl IH|c cs d l Hc Ha Hd Hl IH]; intros pre w Hinv Hlen; simpl in Hlen.
  - exists w. by rewrite app_nil_r.
  - destruct (line_blank pre w c Hinv Hc) as (w1 & E1 & H1); [lia|]. destruct (IH (pre ++ [c]) w1 H1) as (w' & E' & H').
    { rewrite length_app. simpl. lia. }
    pose proof (zip_columns pre [c] l) as Ez. cbn [app] in Ez. exists w'. rewrite Ez, Happ. cbn [length]. rewrite seqZ_cons by lia. cbn [zip zip_with write_cells].
    rewrite E1. rewrite <- app_assoc in H'. done.
  - destruct (line_text pre w c cs 1 [] Hinv Hc Ha) as (w1 & E1 & H1); [done|rewrite length_app; simpl; lia|].
    destruct (IH (pre ++ [c]) w1 H1) as (w' & E' & H'). { rewrite length_app. simpl. lia. }
    pose proof (zip_columns pre [c] l) as Ez. cbn [app] in Ez. exists w'. rewrite Ez, Happ, E1. rewrite <- app_assoc in H'. done.
  - destruct (line_text pre w c cs 2 [d] Hinv Hc Ha) as (w1 & E1 & H1); [|rewrite length_app; simpl; lia|].
    { unfold halves. cbn [map]. by rewrite Hd, Ha. }
    destruct (IH (pre ++ [c; d]) w1 H1) as (w' & E' & H'). { rewrite length_app. simpl. lia. }
    pose proof (zip_columns pre [c; d] l) as Ez. cbn [app] in Ez. exists w'. rewrite Ez, Happ, E1. rewrite <- app_assoc in H'. done.
Qed.

Lemma line_spec x :
  length (cells x) = wide → unstyled (cells x) →
  ∃ out c, line_out (cols sz) x = Some out ∧ 0 ≤ c ≤ cols sz ∧
    ∀ ms R rvs0, Z.of_nat R < rows sz → rvs0 !! R = Some (blank_row sz) →
    paints ms sz out (mkPicture rvs0 (mkPos (Z.of_nat R) 0) attrs_default)
      (mkPicture (<[R := (map view (cells x), false)]> rvs0) (mkPos (Z.of_nat R) c) attrs_default).
Proof.
  intros Hl Hu. set (w0 := mkWriter [] (mkPos 0 0) attrs_default None false).
  destruct (line_cells (cells x) Hu [] w0) as (w & E & Hinv).
  - split; cbn; try done. intros ms R rvs0 HR Hrow. unfold partial. cbn [take map app]. rewrite Nat.sub_0_r, list_insert_id by done. apply paints_nil.
  - simpl. lia.
  - exists (wr_out w), (col (wr_pos w)). destruct Hinv as [Ha He Hw Hr Hc Hp]. cbn [app length] in *. unfold width in Hl.
    split; [|split; [lia|]].
    + unfold line_out, row_write_formatted. cbn [default from_option]. unfold id.
      destruct (lookup_lt_is_Some_2 (cells x) (Z.to_nat 0)) as [first ->]; [lia|]. cbn [andb].
      assert (Hrc : row_cols x = cols sz) by (unfold row_cols; lia). rewrite Hrc. fold w0.
      assert (Hnum : numbered 0 (cols sz) (cells x) = zip (seqZ (Z.of_nat 0) (Z.of_nat (length (cells x)))) (cells x)).
      { unfold numbered. change (drop (Z.to_nat 0) (cells x)) with (cells x). rewrite firstn_all2 by lia.
        by replace (Z.of_nat (length (cells x))) with (cols sz) by lia. }
      rewrite Hnum, E, He. done.
    + intros ms R rvs0 HR Hrow. specialize (Hp ms R rvs0 HR Hrow). rewrite partial_full in Hp.
      replace (wide - length (cells x))%nat with 0%nat in Hp by (unfold width; lia). cbn [replicate] in Hp. by rewrite app_nil_r in Hp.
Qed.

(** ** Scrolling *)

Lemma rview_new_row g : blank_attrs g = for_erase (blank_attrs g) → rview (new_row g) = (replicate (Z.to_nat (cols (size g))) (blank_view (blank_attrs g)), false).
Proof.
  intros Hb. unfold new_row. case_bool_decide as E.
  - rewrite E. unfold rview, row_new. cbn [cells wrapped]. f_equal. rewrite (fmap_replicate view). done.
  - rewrite rview_clear. cbn [row_new cells]. rewrite length_replicate. f_equal. f_equal. rewrite Hb. done.
Qed.

(** A line feed in the last row: the first row joins the scrollback. *)
Lemma line_feed_scrolls g a :
  grid_ok g → scroll_top g = 0 → scroll_bottom g = rows (size g) - 1 → row (pos g) = rows (size g) - 1 → col (pos g) < cols (size g) →
  scrollback_offset g = 0 → Z.of_nat (length (scrollback g)) < scrollback_len g → blank_attrs g = for_erase a →
  ∃ x rs g', g_rows g = x :: rs ∧ line_feed g = Some g' ∧ pos g' = pos g ∧ size g' = size g ∧ origin_mode g' = origin_mode g ∧
    scroll_top g' = scroll_top g ∧ scroll_bottom g' = scroll_bottom g ∧ back g' = (scrollback g ++ [x], scrollback_len g, 0) ∧
    blank_attrs g' = blank_attrs g ∧
    map rview (g_rows g') = map rview rs ++ [(replicate (Z.to_nat (cols (size g))) (blank_view (for_erase a)), false)].
Proof.
  intros Hg Ht Hb Hr Hc Ho Hl Ha. pose proof (go_rows _ Hg) as Hrows. pose proof (go_len _ Hg) as Hlen. pose proof (go_cols _ Hg) as Hcols.
  destruct (g_rows g) as [|x rs] eqn:Erows; [simpl in Hlen; lia|]. exists x, rs. eexists. split; [done|].
  assert (Enew : rview (new_row g) = (replicate (Z.to_nat (cols (size g))) (blank_view (for_erase a)), false)).
  { rewrite rview_new_row; rewrite Ha; done. }
  unfold line_feed, row_inc_scroll, in_scroll_region. rewrite Ht, Hb, Hr.
  rewrite !(proj2 (Z.leb_le _ _)) by lia. cbn [andb]. replace (sat_add u16_max (rows (size g) - 1) 1) with (rows (size g)) by (unfold sat_add, u16_max in *; lia).
  unfold row_clamp_bottom, with_row. cbn [pos with_pos row col scroll_bottom]. rewrite Hb, (proj2 (Z.ltb_lt _ _)) by lia.
  rewrite u16_sub_ok by lia. replace (rows (size g) - (rows (size g) - 1)) with 1 by lia.
  unfold scroll_up, scroll_region_up. cbn [scroll_top scroll_bottom with_pos pos]. rewrite Ht, Hb, u16_sub_ok, u16_add_ok by lia.
  replace (Z.to_nat (Z.min 1 (rows (size g) - 1 - 0 + 1))) with 1%nat by lia. cbn [times scroll_top scroll_bottom with_pos g_rows].
  rewrite Ht, Hb, Erows. unfold vec_insert, vec_remove.
  replace (Z.to_nat (rows (size g) - 1) + 1)%nat with (length (x :: rs)) by lia. rewrite Nat.leb_refl, firstn_all, skipn_all.
  change (Z.to_nat 0) with 0%nat. cbn [app lookup list_lookup take drop]. cbn [scrollback_len with_rows with_pos scroll_top].
  rewrite (proj2 (Z.ltb_lt 0 (scrollback_len g))) by lia. rewrite Ht. cbn [andb Z.eqb].
  unfold push_scrollback. cbn [scrollback scrollback_len scrollback_offset with_rows with_pos freed_rows].
  rewrite length_app. cbn [length]. replace (length (scrollback g) + 1 - Z.to_nat (scrollback_len g))%nat with 0%nat by lia. rewrite Ho.
  cbn [Z.ltb Z.compare drop]. unfold col_clamp. cbn [size with_scrollback with_freed with_rows with_pos pos col].
  rewrite u16_sub_ok by lia. rewrite (proj2 (Z.ltb_ge _ _)) by lia. split; [reflexivity|].
  cbn [pos size origin_mode scroll_top scroll_bottom blank_attrs g_rows with_scrollback with_freed with_rows with_pos].
  split; [destruct (pos g) as [q1 q2]; cbn in *; by subst|]. repeat (split; [done|]).
  change (drop 0 ?l) with l. rewrite map_app. cbn [map]. f_equal. f_equal.
  change (new_row (with_pos (with_pos g _) _)) with (new_row g). exact Enew.
Qed.

Lemma scroll_spec inp sb n rvs c a t :
  canvas (inp, (sb, n, 0)) sz rvs (mkPos (rows sz - 1) c) a t → c < cols sz → Z.of_nat (length sb) < n →
  ∃ x V t', rvs = rview x :: V ∧ vt_perform t (VExecute 10) = Some t' ∧
    canvas (inp, (sb ++ [x], n, 0)) sz (V ++ [(replicate wide (blank_view (for_erase a)), false)]) (mkPos (rows sz - 1) c) a t'.
Proof.
  intros Hcv Hc Hn. destruct (canvas_ok _ _ _ _ _ _ Hcv) as (Hg & _). destruct Hcv as [Hrd Hrows Hpos Hpen].
  pose proof Hrd as [Hok Hsz Hk Hbl Hin Hwr Hnl Hor Htp Hbt Hch Hsh]. set (g := cur_grid t) in *.
  pose proof (f_equal snd Hk) as Hbk. cbn [kept snd] in Hbk. fold g in Hbk. unfold back in Hbk. injection Hbk as Hb1 Hb2 Hb3.
  destruct (line_feed_scrolls g (attrs t)) as (x & rs & g' & Ers & E & Hp' & Hs' & Ho' & Ht' & Hbt' & Hbk' & Hbl' & Hrv');
    rewrite ?Hsz, ?Hpos, ?Hb1, ?Hb2; try done.
  assert (Eev : vt_perform t (VExecute 10) = Some (set_cur (break_rep t) g')).
  { change (vt_perform t (VExecute 10)) with (lf (break_rep t)). unfold lf.
    change (mode_on (break_rep t) MODE_NEWLINE) with (mode_on t MODE_NEWLINE). rewrite Hnl.
    unfold on_grid. rewrite cur_break_rep. fold g. by rewrite E. }
  destruct (perform_good t (VExecute 10) Hok I) as (t' & Et' & Hok' & _). rewrite Eev in Et'. injection Et' as <-.
  exists x, (map rview rs), (set_cur (break_rep t) g'). split; [by rewrite <- Hrows, Ers|]. split; [done|].
  assert (Emo : ∀ m, mode_on (set_cur (break_rep t) g') m = mode_on t m) by (intros m; unfold set_cur; by destruct (mode_on (break_rep t) MODE_ALTERNATE_SCREEN)).
  assert (Ech : charsets (set_cur (break_rep t) g') = charsets t) by (unfold set_cur; by destruct (mode_on (break_rep t) MODE_ALTERNATE_SCREEN)).
  assert (Eat : attrs (set_cur (break_rep t) g') = attrs t) by (unfold set_cur; by destruct (mode_on (break_rep t) MODE_ALTERNATE_SCREEN)).
  assert (Ein : input_state (set_cur (break_rep t) g') = input_state t) by (unfold set_cur; by destruct (mode_on (break_rep t) MODE_ALTERNATE_SCREEN)).
  split; rewrite ?cur_of_set_cur, ?Eat; [|by rewrite Hrv', Hpen, Hsz|by rewrite Hp', Hpos|done].
  split; rewrite ?cur_of_set_cur, ?Emo, ?Ech, ?Eat; try done; try congruence.
  unfold kept. rewrite Ein, cur_of_set_cur, Hbk', Hb1, Hb2. by rewrite (f_equal fst Hk : input_state t = inp).
Qed.

(** ** Restoring the scrollback *)

Definition line_view (x : Row) : list View * bool := (map view (cells x), false).

(** The terminal while lines are fed to it: those before are in the scrollback and above the
    cursor, and the rest of the screen is blank. *)
Definition feeding inp (n : Z) (Ls : list (list View * bool)) (t : Screen) : Prop :=
  ∃ sb rvs a R, canvas (inp, (sb, n, 0)) sz rvs (mkPos (Z.of_nat R) 0) a t ∧ sgr_bare a = attrs_default ∧
    map rview sb ++ take R rvs = Ls ∧ drop R rvs = replicate (Z.to_nat (rows sz) - R) (blank_row sz) ∧
    R = Nat.min (length Ls) (Z.to_nat (rows sz) - 1).

Lemma canvas_height ms rvs p a t : canvas ms sz rvs p a t → length rvs = Z.to_nat (rows sz).
Proof.
  intros Hcv. destruct (canvas_ok _ _ _ _ _ _ Hcv) as (Hg & _). rewrite <- (cv_rows _ _ _ _ _ _ Hcv), length_map, (go_len _ Hg).
  by rewrite (rd_size _ _ _ (cv_ready _ _ _ _ _ _ Hcv)).
Qed.

Lemma blank_erased a : sgr_bare a = attrs_default → (replicate wide (blank_view (for_erase a)), false) = blank_row sz.
Proof. intros Ha. change (for_erase a) with (for_erase (sgr_bare a)). by rewrite Ha. Qed.

Lemma feed_line inp n Ls x out t :
  feeding inp n Ls t → length (cells x) = wide → unstyled (cells x) → line_out (cols sz) x = Some out → Z.of_nat (length Ls) < n →
  ∃ t1 t2, process_items t out = Some t1 ∧ process_items t1 [ICrlf] = Some t2 ∧ feeding inp n (Ls ++ [line_view x]) t2.
Proof.
  intros (sb & rvs & a & R & Hcv & Ha & HLs & Hdr & HR) Hxl Hxu Hout Hn.
  destruct (line_spec x Hxl Hxu) as (out' & c & Eout & Hc & Hpaint). rewrite Hout in Eout. injection Eout as <-.
  pose proof (canvas_height _ _ _ _ _ Hcv) as Hh.
  assert (HRlt : Z.of_nat R < rows sz) by lia.
  assert (Hrow : rvs !! R = Some (blank_row sz)).
  { replace R with (R + 0)%nat by lia. rewrite <- lookup_drop, Hdr. apply lookup_replicate_2. lia. }
  destruct (Hpaint (inp, (sb, n, 0)) R rvs HRlt Hrow t) as (t1 & E1 & a1 & Hcv1 & Ha1); [by exists a|].
  cbn [pc_rows pc_pos pc_pen] in *. set (rvs1 := <[R := line_view x]> rvs) in *. fold (line_view x) in Hcv1. fold rvs1 in Hcv1.
  destruct (cr_spec _ _ _ _ _ _ Hcv1) as (t1' & E1' & Hcv1'). cbn [row] in Hcv1'.
  assert (Etk : take (S R) rvs1 = take R rvs ++ [line_view x]).
  { unfold rvs1. rewrite (take_S_r _ _ (line_view x)) by (apply list_lookup_insert_eq; lia). by rewrite take_insert_ge by lia. }
  assert (Edr : drop (S R) rvs1 = replicate (Z.to_nat (rows sz) - S R) (blank_row sz)).
  { unfold rvs1. rewrite drop_insert_lt by lia. replace (S R) with (R + 1)%nat by lia. rewrite <- drop_drop, Hdr, drop_replicate.
    f_equal. lia. }
  assert (HlenL : (length (sb : list Row) + R = length Ls)%nat).
  { rewrite <- HLs, length_app, length_map, length_take. lia. }
  destruct (decide (Z.of_nat R + 1 < rows sz)) as [Hmid|Hlast].
  - destruct (lf_spec _ _ _ _ _ _ (replicate wide nothing) false Hcv1') as (t2 & E2 & Hcv2); cbn [row col]; [lia|lia| |].
    { replace (Z.to_nat (Z.of_nat R + 1)) with (S R + 0)%nat by lia. rewrite <- lookup_drop, Edr. apply lookup_replicate_2. lia. }
    exists t1, t2. split; [done|]. split; [unfold process_items, buf_events; cbn [flat_map item_events app vt_perform_all]; by rewrite E1', E2|].
    cbn [row col] in Hcv2. rewrite list_insert_id in Hcv2.
    2: { replace (Z.to_nat (Z.of_nat R + 1)) with (S R + 0)%nat by lia. rewrite <- lookup_drop, Edr. apply lookup_replicate_2. lia. }
    exists sb, rvs1, a1, (S R). split; [by replace (Z.of_nat (S R)) with (Z.of_nat R + 1) by lia|]. split; [done|].
    split; [by rewrite Etk, app_assoc, HLs|]. split; [done|]. rewrite length_app. simpl. lia.
  - assert (HRe : Z.of_nat R = rows sz - 1) by lia. rewrite HRe in Hcv1'.
    destruct (scroll_spec _ _ _ _ _ _ _ Hcv1') as (y & V & t2 & Erv & E2 & Hcv2); [lia|lia|].
    exists t1, t2. split; [done|]. split; [unfold process_items, buf_events; cbn [flat_map item_events app vt_perform_all]; by rewrite E1', E2|].
    rewrite (blank_erased a1 Ha1) in Hcv2. assert (Hlv : length V = R).
    { apply (f_equal length) in Erv. unfold rvs1 in Erv. rewrite length_insert in Erv. simpl in Erv. lia. }
    exists (sb ++ [y]), (V ++ [blank_row sz]), a1, R. split; [by rewrite HRe|]. split; [done|]. split; [|split].
    + rewrite map_app, <- app_assoc. cbn [map]. rewrite take_app_length' by done. rewrite <- HLs, <- app_assoc. f_equal.
      rewrite <- Etk. rewrite take_ge by (unfold rvs1; rewrite length_insert; lia). by rewrite Erv.
    + rewrite drop_app_length' by done. by replace (Z.to_nat (rows sz) - R)%nat with 1%nat by lia.
    + rewrite length_app. simpl. lia.
Qed.

Lemma feed_lines inp n rs outs :
  Forall2 (λ x out, line_out (cols sz) x = Some out) rs outs → Forall (λ x, length (cells x) = wide ∧ unstyled (cells x)) rs → ∀ Ls t,
  feeding inp n Ls t → Z.of_nat (length Ls + length rs) ≤ n →
  ∃ t', restore_lines t outs = Some t' ∧ feeding inp n (Ls ++ map line_view rs) t'.
Proof.
  induction 1 as [|x out rs outs Hout _ IH]; intros Hrs' Ls t Hf Hn.
  { exists t. cbn [map]. by rewrite app_nil_r. }
  apply Forall_cons in Hrs' as [[Hxl Hxu] Hrs']. simpl in Hn.
  destruct (feed_line inp n Ls x out t Hf Hxl Hxu Hout) as (t1 & t2 & E1 & E2 & Hf2); [lia|].
  destruct (IH Hrs' _ t2 Hf2) as (t' & E' & Hf'); [rewrite length_app; simpl; lia|].
  exists t'. split; [cbn [restore_lines]; by rewrite E1, E2|]. cbn [map]. by rewrite <- app_assoc in Hf'.
Qed.

(** Line feeds in the last row push the screen into the scrollback, row by row. *)
Lemma push_off k : ∀ inp n sb rvs a t,
  canvas (inp, (sb, n, 0)) sz rvs (mkPos (rows sz - 1) 0) a t → sgr_bare a = attrs_default → (k ≤ length rvs)%nat →
  Z.of_nat (length sb + k) ≤ n →
  ∃ sb' t', vt_perform_all t (replicate k (VExecute 10)) = Some t' ∧
    canvas (inp, (sb', n, 0)) sz (drop k rvs ++ replicate k (blank_row sz)) (mkPos (rows sz - 1) 0) a t' ∧
    map rview sb' = map rview sb ++ take k rvs.
Proof.
  induction k as [|k IH]; intros inp n sb rvs a t Hcv Ha Hk Hn.
  { exists sb, t. split; [done|]. cbn [replicate take]. change (drop 0 rvs) with rvs. by rewrite !app_nil_r. }
  destruct (scroll_spec _ _ _ _ _ _ _ Hcv) as (y & V & t1 & Erv & E1 & Hcv1); [lia|lia|]. rewrite (blank_erased a Ha) in Hcv1. subst rvs.
  simpl in Hk. destruct (IH _ _ _ _ _ _ Hcv1 Ha) as (sb' & t' & E' & Hcv' & Hsb).
  { rewrite length_app. simpl. lia. }
  { rewrite length_app. simpl. lia. }
  exists sb', t'. split; [cbn [replicate vt_perform_all]; by rewrite E1|].
  rewrite drop_app_le in Hcv' by lia. rewrite take_app_le in Hsb by lia. split.
  - cbn [drop]. replace (replicate (S k) (blank_row sz)) with ([blank_row sz] ++ replicate k (blank_row sz)) by done.
    by rewrite app_assoc.
  - rewrite Hsb, map_app, <- app_assoc. done.
Qed.

Lemma restored_scrollback inp n Ls t st :
  feeding inp n Ls t → Z.of_nat (length Ls) ≤ n → length (ss_scrollback st) = length Ls →
  ∃ sb rvs p a t', (if (0 <? Nat.min (length (ss_scrollback st)) (Z.to_nat (sat_sub (rows sz) 1)))%nat then
      let! t := vt_perform t (VCsi [[rows sz]; [1]] [] 72) in
      vt_perform_all t (replicate (Nat.min (length (ss_scrollback st)) (Z.to_nat (sat_sub (rows sz) 1))) (VExecute 10))
    else Some t) = Some t' ∧ canvas (inp, (sb, n, 0)) sz rvs p a t' ∧ map rview sb = Ls.
Proof.
  intros (sb & rvs & a & R & Hcv & Ha & HLs & Hdr & HR) Hn ->.
  assert (ER : Nat.min (length Ls) (Z.to_nat (sat_sub (rows sz) 1)) = R) by (rewrite HR; unfold sat_sub; lia). rewrite ER.
  pose proof (canvas_height _ _ _ _ _ Hcv) as Hh.
  assert (HlenL : (length (sb : list Row) + R = length Ls)%nat) by (rewrite <- HLs, length_app, length_map, length_take; lia).
  destruct (Nat.ltb_spec 0 R) as [Hpos|Hz].
  - destruct (cup_spec _ _ _ _ _ _ (mkPos (rows sz - 1) 0) Hcv) as (t1 & E1 & Hcv1); cbn [row col]; [lia|lia|].
    cbn [row col] in E1. replace (rows sz - 1 + 1) with (rows sz) in E1 by lia. change (0 + 1) with 1 in E1. rewrite E1.
    destruct (push_off R _ _ _ _ _ _ Hcv1 Ha) as (sb' & t' & E' & Hcv' & Hsb); [lia|lia|].
    eexists sb', _, _, a, t'. split; [exact E'|]. split; [exact Hcv'|]. by rewrite Hsb.
  - eexists sb, rvs, _, a, t. split; [done|]. split; [exact Hcv|]. assert (E0 : R = 0%nat) by lia. rewrite <- HLs, E0. by rewrite app_nil_r.
Qed.

End Lines.

Lemma rview_row_new sz : rview (row_new (cols sz)) = blank_row sz.
Proof. unfold rview, row_new, blank_row. cbn [cells wrapped]. by rewrite (fmap_replicate view). Qed.

Lemma new_feeding sz n t :
  1 ≤ rows sz ≤ u16_max → 1 ≤ cols sz < u16_max → 0 ≤ n → screen_new sz n = Some t → feeding sz (0, MNone, EDefault) n [] t.
Proof.
  intros Hr Hc Hn E. destruct (new_ready sz n t Hr Hc Hn E) as (Hrd & _).
  exists [], (replicate (Z.to_nat (rows sz)) (blank_row sz)), attrs_default, 0%nat.
  unfold screen_new, grid_new in E. rewrite u16_sub_ok in E by lia. injection E as <-.
  split; [split; [done| |done|done]|].
  - change (map rview (replicate (Z.to_nat (rows sz)) (row_new (cols sz))) = replicate (Z.to_nat (rows sz)) (blank_row sz)).
    rewrite (fmap_replicate rview). by rewrite rview_row_new.
  - split; [done|]. split; [done|]. split; [|done]. change (drop 0 ?l) with l. f_equal. lia.
Qed.

(** A pane's terminal survives the replacement of the daemon: exporting it and restoring
    it in a fresh terminal of the same size, with room for as much scrollback, shows the same
    screen, as [looks_like] says, over the same lines of scrollback. This is for a screen
    that can be repainted and a scrollback of unstyled text; the old terminal is left as it
    was. *)
Lemma handoff_keeps_screen sz n s t :
  savable sz (cur_grid s) → attrs_ok (attrs s) →
  Forall (λ x, length (cells x) = width sz ∧ unstyled (cells x)) (scrollback (cur_grid s)) →
  1 ≤ rows sz ≤ u16_max → 1 ≤ cols sz < u16_max →
  Z.of_nat (length (scrollback (cur_grid s))) ≤ n ≤ u64_max → screen_new sz n = Some t →
  ∃ st t', export_screen s = Some (s, st) ∧ restore_screen t st = Some t' ∧ looks_like s t' ∧
    map (λ r, map view (cells r)) (scrollback (cur_grid t')) = map (λ r, map view (cells r)) (scrollback (cur_grid s)).
Proof.
  intros Hs Ha Hsb Hrs Hcs Hn Et. set (sb := scrollback (cur_grid s)) in *.
  assert (Houts : ∃ outs, Forall2 (λ x out, line_out (cols sz) x = Some out) sb outs).
  { clear Hn. induction Hsb as [|x l [Hxl Hxu] _ [outs IH]]; [by exists []|].
    destruct (line_spec sz Hcs x Hxl Hxu) as (out & _ & Hout & _). exists (out :: outs). by constructor. }
  destruct Houts as (outs & Houts). pose proof (new_feeding sz n t Hrs Hcs ltac:(lia) Et) as Hf0.
  destruct (feed_lines sz Hrs Hcs _ n sb outs Houts Hsb [] t Hf0) as (t1 & E1 & Hf1); [simpl; lia|]. cbn [app] in Hf1.
  assert (Hsize : size (cur_grid t) = sz) by (destruct Hf0 as (? & ? & ? & ? & Hcv & _); apply (cv_ready _ _ _ _ _ _ Hcv)).
  pose proof (sv_size _ _ Hs) as Hss.
  assert (Hvis : ∃ vis, state_formatted s = Some vis).
  { destruct (new_ready sz n t Hrs Hcs ltac:(lia) Et) as (Hrd & Hm & He). destruct (repaint_spec s t sz Hs Ha Hrd Hm He) as (out & _ & Eo & _). by exists out. }
  destruct Hvis as (vis & Hvis). set (st := mkScreenState outs vis).
  destruct (restored_scrollback sz Hrs Hcs _ n _ t1 st Hf1) as (sb2 & rvs2 & p2 & a2 & t2 & E2 & Hcv2 & Hsb2).
  { rewrite length_map. lia. }
  { rewrite length_map. symmetry. apply (Forall2_length _ _ _ Houts). }
  pose proof (cv_ready _ _ _ _ _ _ Hcv2) as Hrd2. pose proof (rd_kept _ _ _ Hrd2) as Hk2.
  assert (Hin2 : input_state t2 = (0, MNone, EDefault)) by (by apply (f_equal fst) in Hk2).
  assert (Hbk2 : back (cur_grid t2) = (sb2, n, 0)) by (by apply (f_equal snd) in Hk2).
  rewrite <- Hk2 in Hrd2. injection Hin2 as _ Hm2 He2.
  destruct (repaint_spec s t2 sz Hs Ha Hrd2 Hm2 He2) as (out & t' & Eo & E3 & Hlook & Hback). rewrite Hvis in Eo. injection Eo as <-.
  exists st, t'. split; [|split; [|split; [exact Hlook|]]].
  - apply export_spec; try done.
    + intros E. pose proof (sv_len _ _ Hs) as Hl. rewrite E in Hl. simpl in Hl. lia.
    + unfold full_rows. rewrite Hss. eapply Forall_impl; [exact Hsb|]. intros x [Hx _]. exact Hx.
    + apply (sv_offset _ _ Hs).
    + fold sb. lia.
    + by rewrite Hss.
  - unfold restore_screen. rewrite Hsize. cbn [st ss_scrollback] in *. rewrite E1. rewrite E2. exact E3.
  - rewrite Hbk2 in Hback. injection Hback as Hb1 _ _. rewrite Hb1.
    apply (f_equal (map fst)) in Hsb2. rewrite !map_map in Hsb2. exact Hsb2.
Qed.

End Restore.

(** ** Examples *)

Definition sample_log : list vt_event :=
  [VPrint 97; VPrint 20013; VExecute 13; VExecute 10; VPrint 98; VExecute 13; VExecute 10; VPrint 99].

Definition sample_pane : option Screen := let! s := screen_new (mkSize 2 3) 5 in @vt_perform_all sample_width s sample_log.

Lemma sample_text ch : ch ∈ [97; 98; 99] → @drawable sample_width [ch] 1.
Proof.
  intros Hc. exists ch, []. split; [done|]. split; [|split; [by left|done]]. revert ch Hc. apply Forall_forall.
  repeat apply Forall_cons_2; [prove_prints..|done].
Qed.

Lemma sample_pane_savable :
  ∃ s, sample_pane = Some s ∧ @savable (mkSize 2 3) sample_width (cur_grid s) ∧ attrs_ok (attrs s) ∧
    Forall (λ x, length (cells x) = width (mkSize 2 3) ∧ @unstyled sample_width (cells x)) (scrollback (cur_grid s)) ∧
    length (scrollback (cur_grid s)) = 1%nat.
Proof.
  eexists. split; [vm_compute; reflexivity|]. split; [|split; [by split|split; [|done]]].
  - split; [done|done| | |done|done|done|by left].
    + apply Forall_cons_2; [|apply Forall_cons_2; [|done]]; (split; [done|]).
      * apply (pr_narrow _ [98]); [split; [done|apply sample_text; by apply (bool_decide_unpack _)|done|done|by split]|].
        apply pr_blank; [by split; [..|split|]|]. apply pr_blank; [by split; [..|split|]|]. constructor.
      * apply (pr_narrow _ [99]); [split; [done|apply sample_text; by apply (bool_decide_unpack _)|done|done|by split]|].
        apply pr_blank; [by split; [..|split|]|]. apply pr_blank; [by split; [..|split|]|]. constructor.
    + split; [|done]. by intros.
  - apply Forall_cons_2; [|done]. split; [done|].
    apply (us_narrow _ [97]); [split; [done|apply sample_text; by apply (bool_decide_unpack _)|done|done|by split]|done|].
    apply (us_wide _ [20013]); [split; [done| |done|done|by split]|done|done|constructor].
    exists 20013, []. split; [done|]. split; [prove_prints|]. split; [by right|done].
Qed.

Lemma sample_handed_over :
  ∃ s t st t', sample_pane = Some s ∧ screen_new (mkSize 2 3) 5 = Some t ∧ export_screen s = Some (s, st) ∧
    @restore_screen sample_width t st = Some t' ∧ looks_like s t' ∧
    map (λ r, map view (cells r)) (scrollback (cur_grid t')) = map (λ r, map view (cells r)) (scrollback (cur_grid s)).
Proof.
  assert (Hr : 1 ≤ rows (mkSize 2 3) ≤ u16_max) by done. assert (Hc : 1 ≤ cols (mkSize 2 3) < u16_max) by done.
  destruct sample_pane_savable as (s & E & Hsv & Ha & Hsb & Hl).
  destruct (screen_new_ok (mkSize 2 3) 5 Hr Hc ltac:(lia)) as (t & Et & _ & _).
  assert (Hn : Z.of_nat (length (scrollback (cur_grid s))) ≤ 5 ≤ u64_max) by (rewrite Hl; unfold u64_max; lia).
  destruct (@handoff_keeps_screen sample_width (mkSize 2 3) 5 s t Hsv Ha Hsb Hr Hc Hn Et) as (st & t' & E1 & E2 & Hl' & Hb).
  exact (ex_intro _ s (ex_intro _ t (ex_intro _ st (ex_intro _ t' (conj E (conj Et (conj E1 (conj E2 (conj Hl' Hb))))))))).
Defined.

(** The attributes that end one line of the scrollback are those the next begins with, since
    every line is written as if the pen were the default: a red line colours the one below. *)
Definition sample_red : list vt_event :=
  [VCsi [[31]] [] 109; VPrint 97; VCsi [[0]] [] 109; VExecute 13; VExecute 10; VPrint 98; VExecute 13; VExecute 10; VPrint 99].

Definition first_colours (s : Screen) : list (option Color) :=
  map (λ r, fgcolor ∘ cell_attrs <$> head (cells r)) (scrollback (cur_grid s)).

Lemma colours_run_over :
  ∃ s t st t', (let! s := screen_new (mkSize 1 2) 5 in @vt_perform_all sample_width s sample_red) = Some s ∧
    screen_new (mkSize 1 2) 5 = Some t ∧ export_screen s = Some (s, st) ∧ @restore_screen sample_width t st = Some t' ∧
    first_colours s = [Some (CIdx 1); Some CDefault] ∧ first_colours t' = [Some (CIdx 1); Some (CIdx 1)].
Proof.
  eexists _, _, _, _. split; [vm_compute; reflexivity|]. split; [vm_compute; reflexivity|]. split; [vm_compute; reflexivity|].
  split; [vm_compute; reflexivity|]. split; vm_compute; reflexivity.
Qed.
