(* ===== verification/VtParser.v ===== *)
(** * The parser ([crates/vt100/src/parser.rs])

    [Parser::process] gives the bytes of a pane to the [vte] tokenizer and the sequences it
    finds to the screen, after it has rewritten C1 controls that come as UTF-8. A chunk may
    end anywhere, so the first byte of such a pair is remembered. The tokenizer is a parameter:
    it takes one byte after another and reports what it recognised. [None] is a panic. *)

From S2P Require Import Prelude TermQuery VtCell VtRow VtGrid VtScreen VtScreenProps VtRender VtRenderPen VtPaint VtPaintRow VtRenderProps VtHandoff.

Section Parser.
Context {P E S : Type} (advance : P → byte → P * list E) (perform : S → E → option S).

Record Parser := mkParser {
  vte : P;
  pending_c2 : bool;
  state : S;
}.

(** [vte::Parser::advance]. *)
Fixpoint tokenize (p : P) (bs : list byte) : P * list E :=
  match bs with
  | [] => (p, [])
  | b :: bs => let '(p, evs) := advance p b in let '(p, evs') := tokenize p bs in (p, evs ++ evs')
  end.

Fixpoint perform_all (s : S) (evs : list E) : option S :=
  match evs with [] => Some s | ev :: evs => let! s := perform s ev in perform_all s evs end.

Definition in_c1 (b : byte) : bool := (0x80 <=? b) && (b <=? 0x9F).

(** The body of the loop of [process]: whether a C2 is pending now, and what goes to [out]. *)
Definition rewrite_byte (pending : bool) (b : byte) : bool * list byte :=
  if pending && in_c1 b then (false, [0x1B; b - 0x40])
  else
    let out := if pending then [0xC2] else [] in
    if b =? 0xC2 then (true, out) else (false, out ++ [b]).

Fixpoint rewrite_c1 (pending : bool) (bs : list byte) : bool * list byte :=
  match bs with
  | [] => (pending, [])
  | b :: bs =>
      let '(pending, out) := rewrite_byte pending b in
      let '(pending, out') := rewrite_c1 pending bs in
      (pending, out ++ out')
  end.

Definition advance_screen (ps : Parser) (pending : bool) (bs : list byte) : option Parser :=
  let '(p, evs) := tokenize (vte ps) bs in
  let! s := perform_all (state ps) evs in
  Some (mkParser p pending s).

Definition process (ps : Parser) (bs : list byte) : option Parser :=
  if negb (pending_c2 ps) && negb (existsb (Z.eqb 0xC2) bs) then advance_screen ps (pending_c2 ps) bs
  else let '(pending, out) := rewrite_c1 (pending_c2 ps) bs in advance_screen ps pending out.

(** What comes in reads, one after another. *)
Fixpoint process_all (ps : Parser) (chunks : list (list byte)) : option Parser :=
  match chunks with [] => Some ps | bs :: chunks => let! ps := process ps bs in process_all ps chunks end.

(** ** Reference

    What the stream means: every C1 control sent as two bytes stands for its 7-bit form; a C2
    at the end waits for its partner. *)

Fixpoint expand (bs : list byte) : list byte :=
  match bs with
  | [] => []
  | b :: rest =>
      if b =? 0xC2 then
        match rest with
        | [] => []
        | c :: rest' => if in_c1 c then 0x1B :: c - 0x40 :: expand rest' else 0xC2 :: expand rest
        end
      else b :: expand rest
  end.

Fixpoint ends_open (bs : list byte) : bool :=
  match bs with
  | [] => false
  | b :: rest =>
      if b =? 0xC2 then match rest with [] => true | c :: rest' => if in_c1 c then ends_open rest' else ends_open rest end
      else ends_open rest
  end.

Lemma tokenize_app p bs bs' :
  tokenize p (bs ++ bs') = let '(p1, evs) := tokenize p bs in let '(p2, evs') := tokenize p1 bs' in (p2, evs ++ evs').
Proof.
  revert p. induction bs as [|b bs IH]; intros p; cbn [app tokenize]; [by destruct (tokenize p bs')|].
  destruct (advance p b) as [p1 evs]. rewrite IH. destruct (tokenize p1 bs) as [p2 evs2]. destruct (tokenize p2 bs') as [p3 evs3].
  by rewrite app_assoc.
Qed.

Lemma perform_all_app' s evs evs' : perform_all s (evs ++ evs') = (let! s := perform_all s evs in perform_all s evs').
Proof. revert s. induction evs as [|ev evs IH]; intros s; [done|]. cbn [app perform_all]. destruct (perform s ev); [apply IH|done]. Qed.

Lemma rewrite_app pending bs bs' :
  rewrite_c1 pending (bs ++ bs') =
    let '(pending, out) := rewrite_c1 pending bs in let '(pending, out') := rewrite_c1 pending bs' in (pending, out ++ out').
Proof.
  revert pending. induction bs as [|b bs IH]; intros pending; cbn [app rewrite_c1]; [by destruct (rewrite_c1 pending bs')|].
  destruct (rewrite_byte pending b) as [p1 o1]. rewrite IH. destruct (rewrite_c1 p1 bs) as [p2 o2]. destruct (rewrite_c1 p2 bs') as [p3 o3].
  by rewrite app_assoc.
Qed.

(** Without a C2 the loop would copy the bytes. *)
Lemma rewrite_plain bs : existsb (Z.eqb 0xC2) bs = false → rewrite_c1 false bs = (false, bs).
Proof.
  induction bs as [|b bs IH]; [done|]. cbn [existsb]. intros [Hb Hbs]%orb_false_iff. cbn [rewrite_c1]. unfold rewrite_byte. cbn [andb app].
  rewrite Z.eqb_sym in Hb. rewrite Hb, (IH Hbs). done.
Qed.

Lemma process_rewrites ps bs :
  process ps bs = let '(pending, out) := rewrite_c1 (pending_c2 ps) bs in advance_screen ps pending out.
Proof.
  unfold process. destruct (pending_c2 ps) eqn:Ep; cbn [negb andb]; [done|]. destruct (existsb (Z.eqb 0xC2) bs) eqn:Ec; cbn [negb]; [done|].
  by rewrite (rewrite_plain bs Ec).
Qed.

Lemma advance_app ps pending pending' o o' :
  (let! q := advance_screen ps pending o in advance_screen q pending' o') = advance_screen ps pending' (o ++ o').
Proof.
  unfold advance_screen. rewrite tokenize_app. destruct (tokenize (vte ps) o) as [p1 evs]. destruct (tokenize p1 o') as [p2 evs'] eqn:E2.
  rewrite perform_all_app'. destruct (perform_all (state ps) evs); [|done]. cbn [vte state]. by rewrite E2.
Qed.

Lemma process_split ps bs bs' : (let! q := process ps bs in process q bs') = process ps (bs ++ bs').
Proof.
  rewrite !process_rewrites, rewrite_app. destruct (rewrite_c1 (pending_c2 ps) bs) as [p1 o1] eqn:E1.
  destruct (rewrite_c1 p1 bs') as [p2 o2] eqn:E2. rewrite <- (advance_app ps p1 p2 o1 o2).
  destruct (advance_screen ps p1 o1) as [q|] eqn:Eq; [|done]. rewrite process_rewrites.
  assert (Hq : pending_c2 q = p1).
  { unfold advance_screen in Eq. destruct (tokenize (vte ps) o1). destruct (perform_all _ _); [|done]. by injection Eq as <-. }
  by rewrite Hq, E2.
Qed.

(** The loop computes the reference. *)
Lemma rewrite_expand bs :
  rewrite_c1 false bs = (ends_open bs, expand bs) ∧ rewrite_c1 true bs = (ends_open (0xC2 :: bs), expand (0xC2 :: bs)).
Proof.
  induction bs as [|b bs [IH1 IH2]]; [done|]. split.
  - cbn [rewrite_c1]. unfold rewrite_byte. cbn [andb app]. cbn [expand ends_open]. destruct (Z.eqb_spec b 0xC2) as [->|Hb].
    + rewrite IH2. done.
    + rewrite IH1. done.
  - cbn [rewrite_c1]. unfold rewrite_byte. cbn [andb].
    change (expand (194 :: b :: bs)) with (if in_c1 b then 0x1B :: b - 0x40 :: expand bs else 0xC2 :: expand (b :: bs)).
    change (ends_open (194 :: b :: bs)) with (if in_c1 b then ends_open bs else ends_open (b :: bs)).
    destruct (in_c1 b) eqn:Ec; [by rewrite IH1|]. cbn [expand ends_open]. destruct (Z.eqb_spec b 0xC2) as [->|Hb].
    + rewrite IH2. done.
    + rewrite IH1. done.
Qed.

(** C20. How the output of a pane is cut into reads makes no difference: whatever the chunks,
    a new parser ends as if the tokenizer had been given at once the whole stream in which
    every C1 control sent as UTF-8 is replaced by its 7-bit form, and what it recognised
    performed in order; only a C2 that ends the stream is kept back. The fast path for
    chunks without a C2 changes nothing. *)
Theorem reads_make_no_difference p s chunks :
  process_all (mkParser p false s) chunks =
    (let '(p', evs) := tokenize p (expand (concat chunks)) in
     let! s' := perform_all s evs in
     Some (mkParser p' (ends_open (concat chunks)) s')).
Proof.
  assert (Hall : ∀ cs ps, process_all ps cs = process ps (concat cs)).
  { induction cs as [|c cs IH]; intros ps.
    - rewrite process_rewrites. cbn [concat rewrite_c1]. unfold advance_screen. cbn [tokenize perform_all]. by destruct ps.
    - cbn [process_all concat]. rewrite <- process_split. destruct (process ps c); [apply IH|done]. }
  rewrite Hall, process_rewrites. cbn [pending_c2]. rewrite (proj1 (rewrite_expand (concat chunks))). done.
Qed.

End Parser.
