(* ===== verification/Handoff.v ===== *)
(** * Handing panes over ([crates/tymux-core/src/pane/handoff.rs], [pane.rs])

    Around an in-place [exec] of the daemon every pane is frozen, exported with its
    descriptors left open across the [exec], and rebuilt by the new image. Here are the freeze
    of the reader thread as a step relation, the descriptor flags, and the export, abort and
    adoption of a pane. The screen's part of it is in [VtHandoff]. *)

From S2P Require Import Prelude ReplayBuffer Launch TermQuery VtCell VtRow VtGrid VtScreen VtScreenProps VtRender VtRenderPen VtPaint VtPaintRow VtRenderProps VtHandoff VtParser.

(** ** Freezing the reader

    The reader waits for data without the gate, takes the gate, gives it back when reads are
    frozen and otherwise reads a chunk and applies it before it lets the gate go.
    [freeze_reads] sets the flag and then passes through the gate once. *)
Module Freeze.

Inductive owner := Nobody | Reader | Freezer.
Inductive reader_pc := Polling | Holding | Applying (chunk : list byte) | Finished.
Inductive freezer_pc := Idle | Flagged | Passing | Frozen.

(** [kernel] is what the child wrote that nobody read, [applied] what the screen and the
    replay buffer have. [written] is a history variable: all the child ever wrote. *)
Record st := mkSt {
  written : list byte;
  kernel : list byte;
  applied : list byte;
  reads_frozen : bool;
  eof_seen : bool;
  gate : owner;
  rpc : reader_pc;
  fpc : freezer_pc;
}.

Inductive step : st → st → Prop :=
| child_writes w k a fr eof g r f bs : step (mkSt w k a fr eof g r f) (mkSt (w ++ bs) (k ++ bs) a fr eof g r f)
| reader_gate w k a fr eof f : step (mkSt w k a fr eof Nobody Polling f) (mkSt w k a fr eof Reader Holding f)
| reader_frozen w k a eof f : step (mkSt w k a true eof Reader Holding f) (mkSt w k a true eof Nobody Polling f)
| reader_reads w c k a eof f : c ≠ [] → step (mkSt w (c ++ k) a false eof Reader Holding f) (mkSt w k a false eof Reader (Applying c) f)
| reader_eof w a eof f : step (mkSt w [] a false eof Reader Holding f) (mkSt w [] a false true Nobody Finished f)
| reader_applies w c k a fr eof f : step (mkSt w k a fr eof Reader (Applying c) f) (mkSt w k (a ++ c) fr eof Nobody Polling f)
| freeze_flag w k a fr eof g r : step (mkSt w k a fr eof g r Idle) (mkSt w k a true eof g r Flagged)
| freeze_gate w k a fr eof r : step (mkSt w k a fr eof Nobody r Flagged) (mkSt w k a fr eof Freezer r Passing)
| freeze_done w k a fr eof r : step (mkSt w k a fr eof Freezer r Passing) (mkSt w k a fr eof Nobody r Frozen)
| unfreeze w k a fr eof g r : step (mkSt w k a fr eof g r Frozen) (mkSt w k a false eof g r Idle).

Definition init : st := mkSt [] [] [] false false Nobody Polling Idle.

Definition in_hand (r : reader_pc) : list byte := match r with Applying c => c | _ => [] end.

(** What the child wrote, wherever it is now. *)
Definition stream (s : st) : list byte := applied s ++ in_hand (rpc s) ++ kernel s.

(** Who holds the gate is where it is between taking it and letting it go, and a chunk is in
    hand only while no freeze has come through. *)
Definition inv (s : st) : Prop :=
  reads_frozen s = (match fpc s with Idle => false | _ => true end) ∧
  match gate s, rpc s, fpc s with
  | Nobody, (Polling | Finished), (Idle | Flagged | Frozen) => True
  | Reader, Holding, (Idle | Flagged | Frozen) => True
  | Reader, Applying _, (Idle | Flagged) => True
  | Freezer, (Polling | Finished), Passing => True
  | _, _, _ => False
  end.

Lemma step_inv s s' : inv s → step s s' → inv s'.
Proof.
  intros [Hf Hg] Hs. unfold inv in *. destruct Hs; cbn in *; try done.
  all: repeat (match goal with x : owner |- _ => destruct x | x : reader_pc |- _ => destruct x | x : freezer_pc |- _ => destruct x end; try done).
Qed.

Lemma reach_inv s : rtc step init s → inv s.
Proof. revert s. apply rtc_ind_r; [done|]. intros y z _ Hyz Hy. by eapply step_inv. Qed.

Lemma reach_stream s : rtc step init s → stream s = written s.
Proof.
  revert s. apply rtc_ind_r; [done|]. intros y z _ Hyz Hy. unfold stream in *.
  destruct Hyz; cbn in *; rewrite <- Hy, <- ?app_assoc; done.
Qed.

Lemma frozen_empty s : inv s → fpc s = Frozen → in_hand (rpc s) = [].
Proof. intros [_ Hg] Hf. rewrite Hf in Hg. destruct s as [? ? ? ? ? [] [] ?]; cbn in *; done. Qed.

Lemma frozen_step s s' : inv s → fpc s = Frozen → fpc s' = Frozen → step s s' → applied s' = applied s ∧ ∃ bs, kernel s' = kernel s ++ bs.
Proof.
  intros [Hfl Hg] Hf Hf' Hs. destruct Hs; cbn in *; subst; try done; try (split; [done|]; exists []; by rewrite app_nil_r).
  split; [done|]. by eexists.
Qed.

(** The part of a run in which the freeze is in force. *)
Definition frozen_run : st → st → Prop := rtc (λ a b, step a b ∧ fpc b = Frozen).

Lemma frozen_run_spec s s' :
  inv s → fpc s = Frozen → frozen_run s s' →
  inv s' ∧ fpc s' = Frozen ∧ applied s' = applied s ∧ ∃ bs, kernel s' = kernel s ++ bs.
Proof.
  intros Hi Hf. revert s'. apply rtc_ind_r.
  - split; [done|]. split; [done|]. split; [done|]. exists []. by rewrite app_nil_r.
  - intros y z _ [Hyz Hz] (Hiy & Hfy & Ha & bs & Hk). destruct (frozen_step y z Hiy Hfy Hz Hyz) as [Ha' [bs' Hk']].
    split; [by eapply step_inv|]. split; [done|]. split; [congruence|]. exists (bs ++ bs'). by rewrite Hk', Hk, app_assoc.
Qed.
End Freeze.

(** A frozen pane is still: once [freeze_reads] has returned, in every interleaving with
    the reader thread and the child, no chunk is in the reader's hand, and until the reads
    are unfrozen nothing more reaches the screen or the replay buffer; what the child writes
    stays in the kernel, behind what was there, so what was applied followed by what the
    kernel holds is everything the child ever wrote. *)
Theorem frozen_pane_is_still s s' :
  rtc Freeze.step Freeze.init s → Freeze.fpc s = Freeze.Frozen → Freeze.frozen_run s s' →
  Freeze.in_hand (Freeze.rpc s') = [] ∧ Freeze.applied s' = Freeze.applied s ∧
  (∃ bs, Freeze.kernel s' = Freeze.kernel s ++ bs) ∧ Freeze.written s' = Freeze.applied s ++ Freeze.kernel s'.
Proof.
  intros Hs Hf Hrun. assert (Hs' : rtc Freeze.step Freeze.init s').
  { etrans; [exact Hs|]. eapply rtc_subrel; [|exact Hrun]. by intros ? ? [? _]. }
  destruct (Freeze.frozen_run_spec s s' (Freeze.reach_inv s Hs) Hf Hrun) as (Hi & Hfz & Ha & Hk).
  pose proof (Freeze.frozen_empty s' Hi Hfz) as He. split; [done|]. split; [done|]. split; [done|].
  rewrite <- (Freeze.reach_stream s' Hs'). unfold Freeze.stream. by rewrite He, Ha.
Qed.

Lemma frozen_pane_is_still_witness :
  let s := Freeze.mkSt [65; 66] [66] [65] true false Freeze.Nobody Freeze.Polling Freeze.Frozen in
  let s' := Freeze.mkSt [65; 66; 67] [66; 67] [65] true false Freeze.Reader Freeze.Holding Freeze.Frozen in
  Freeze.in_hand (Freeze.rpc s') = [] ∧ Freeze.applied s' = Freeze.applied s ∧
  (∃ bs, Freeze.kernel s' = Freeze.kernel s ++ bs) ∧ Freeze.written s' = Freeze.applied s ++ Freeze.kernel s'.
Proof.
  intros s s'. apply (frozen_pane_is_still s s').
  - eapply rtc_l; [apply (Freeze.child_writes _ _ _ _ _ _ _ _ [65])|].
    eapply rtc_l; [apply Freeze.reader_gate|]. eapply rtc_l; [by apply (Freeze.reader_reads _ [65])|].
    eapply rtc_l; [apply Freeze.freeze_flag|]. eapply rtc_l; [apply Freeze.reader_applies|].
    eapply rtc_l; [apply Freeze.freeze_gate|]. eapply rtc_l; [apply Freeze.freeze_done|].
    eapply rtc_l; [apply (Freeze.child_writes _ _ _ _ _ _ _ _ [66])|]. apply rtc_refl.
  - done.
  - eapply rtc_l; [split; [apply (Freeze.child_writes _ _ _ _ _ _ _ _ [67])|done]|].
    eapply rtc_l; [split; [apply Freeze.reader_gate|done]|]. apply rtc_refl.
Defined.

(** ** Descriptors

    The descriptor flags of every open descriptor. [setfd_fails] says for which descriptors
    the kernel refuses [F_SETFD]. *)

Definition FD_CLOEXEC : Z := 1.
Abbreviation FdTable := (gmap Z Z) (only parsing).

Definition cloexec (t : FdTable) (fd : Z) : option bool := (λ f, negb (Z.land f FD_CLOEXEC =? 0)) <$> t !! fd.

Section Descriptors.
Context (setfd_fails : Z → bool).

Definition set_cloexec (t : FdTable) (fd : Z) (on : bool) : FdTable * bool :=
  match t !! fd with
  | None => (t, false)
  | Some flags =>
      let wanted := if on then Z.lor flags FD_CLOEXEC else Z.land flags (Z.lnot FD_CLOEXEC) in
      if wanted =? flags then (t, true) else if setfd_fails fd then (t, false) else (<[fd := wanted]> t, true)
  end.

Definition clear_cloexec (t : FdTable) (fd : Z) : FdTable * bool := set_cloexec t fd false.

(** [exec] closes the descriptors that are marked. *)
Definition exec (t : FdTable) : FdTable := filter (λ '(_, f), Z.land f FD_CLOEXEC = 0) t.

(** [take_inherited]: the owner of the descriptor, or why not. *)
Definition take_inherited (t : FdTable) (fd : Z) : FdTable * bool :=
  match t !! fd with None => (t, false) | Some _ => set_cloexec t fd true end.

Lemma armed_bit f : Z.land (Z.lor f FD_CLOEXEC) FD_CLOEXEC = FD_CLOEXEC.
Proof. apply Z.bits_inj'. intros i Hi. rewrite !Z.land_spec, Z.lor_spec. by destruct (Z.testbit f i), (Z.testbit FD_CLOEXEC i). Qed.

Lemma cleared_bit f : Z.land (Z.land f (Z.lnot FD_CLOEXEC)) FD_CLOEXEC = 0.
Proof. rewrite <- Z.land_assoc, (Z.land_comm (Z.lnot _)), Z.land_lnot_diag. apply Z.land_0_r. Qed.

(** What the call does: the flag is as asked when it succeeds, nothing changed otherwise, and
    no other descriptor is touched. *)
Lemma set_cloexec_spec t fd on t' ok :
  set_cloexec t fd on = (t', ok) →
  (ok = true → cloexec t' fd = Some on) ∧ (ok = false → t' = t) ∧ (∀ d, d ≠ fd → t' !! d = t !! d) ∧ (is_Some (t !! fd) → is_Some (t' !! fd)).
Proof.
  unfold set_cloexec, cloexec. destruct (t !! fd) as [f|] eqn:E; [|by intros [= <- <-]].
  assert (Hon : negb (Z.land (if on then Z.lor f FD_CLOEXEC else Z.land f (Z.lnot FD_CLOEXEC)) FD_CLOEXEC =? 0) = on).
  { destruct on; [by rewrite armed_bit|by rewrite cleared_bit]. }
  destruct (Z.eqb_spec (if on then Z.lor f FD_CLOEXEC else Z.land f (Z.lnot FD_CLOEXEC)) f) as [Ew|Ew]; [|destruct (setfd_fails fd)]; intros [= <- <-].
  - rewrite E, Ew in *. simpl. rewrite Hon. split; [done|]. split; [done|]. split; [done|eauto].
  - split; [done|]. split; [done|]. split; [done|eauto].
  - rewrite lookup_insert_eq. simpl. rewrite Hon. split; [done|]. split; [done|]. split; [|eauto]. intros d Hd. by rewrite lookup_insert_ne.
Qed.

Lemma lor_armed f : Z.land f FD_CLOEXEC ≠ 0 → Z.lor f FD_CLOEXEC = f.
Proof.
  intros Hf. apply Z.bits_inj'. intros i Hi. rewrite Z.lor_spec. unfold FD_CLOEXEC in *. destruct (Z.eq_dec i 0) as [->|Hne].
  - destruct (Z.testbit f 0) eqn:E; [done|]. exfalso. apply Hf. apply Z.bits_inj'. intros j Hj. rewrite Z.land_spec, Z.bits_0.
    destruct (Z.eq_dec j 0) as [->|]; [by rewrite E|]. rewrite (Z.bits_above_log2 1 j); [by rewrite andb_false_r|lia|simpl; lia].
  - rewrite (Z.bits_above_log2 1 i); [by rewrite orb_false_r|lia|simpl; lia].
Qed.

(** Clearing the flag of an armed descriptor and setting it again, whatever else happened to
    the table in between, gives its flags back. *)
Lemma clear_then_arm t fd t1 :
  cloexec t fd = Some true → clear_cloexec t fd = (t1, true) →
  ∃ f f', t !! fd = Some f ∧ t1 = <[fd := f']> t ∧ Z.land f' FD_CLOEXEC = 0 ∧
    ∀ t2, t2 !! fd = Some f' → set_cloexec t2 fd true = (<[fd := f]> t2, true).
Proof.
  unfold clear_cloexec, set_cloexec, cloexec. intros Hc. destruct (t !! fd) as [f|] eqn:E; [|done]. simpl in Hc. injection Hc as Hc.
  apply negb_true_iff, Z.eqb_neq in Hc. pose proof (cleared_bit f) as Hcb.
  destruct (Z.eqb_spec (Z.land f (Z.lnot FD_CLOEXEC)) f) as [Ew|Ew]; [rewrite Ew in Hcb; done|].
  destruct (setfd_fails fd) eqn:Esf; [done|]. intros [= <-]. eexists f, _. split; [done|]. split; [done|]. split; [done|].
  intros t2 E2. rewrite E2.
  assert (Er : Z.lor (Z.land f (Z.lnot FD_CLOEXEC)) FD_CLOEXEC = f).
  { rewrite <- (lor_armed f Hc) at 2. apply Z.bits_inj'. intros i Hi. rewrite !Z.lor_spec, Z.land_spec, Z.lnot_spec by done.
    by destruct (Z.testbit f i), (Z.testbit FD_CLOEXEC i). }
  rewrite Er. destruct (Z.eqb_spec f (Z.land f (Z.lnot FD_CLOEXEC))) as [E3|_]; [by rewrite <- E3 in Ew|done].
Qed.

Definition close_all (fds : list Z) (t : FdTable) : FdTable := foldr delete t fds.

End Descriptors.

(** ** Waiting for an adopted child

    [answers] is what successive calls of [waitpid] return: the pid, zero, or an error. [None]
    is a call that does not return. *)
Module Wait.

Inductive Errno := EINTR | EOther (code : Z) | NoStatus.
Inductive answer := Reaped (status : Z) | NoChange | Failed (err : Errno).

Fixpoint waitpid (answers : list answer) : option (Errno + option Z) :=
  match answers with
  | [] => None
  | Reaped status :: _ => Some (inr (Some status))
  | NoChange :: _ => Some (inr None)
  | Failed EINTR :: answers => waitpid answers
  | Failed err :: _ => Some (inl err)
  end.

Definition wait (answers : list answer) : option (Errno + Z) :=
  match waitpid answers with
  | None => None
  | Some (inl err) => Some (inl err)
  | Some (inr None) => Some (inl NoStatus)
  | Some (inr (Some status)) => Some (inr status)
  end.

(** Signals only delay the answer. *)
Lemma waitpid_interrupted n a answers :
  a ≠ Failed EINTR → waitpid (replicate n (Failed EINTR) ++ a :: answers) = waitpid [a].
Proof. intros Ha. induction n as [|n IH]; [|exact IH]. by destruct a as [| |[]]. Qed.
End Wait.

(** ** Panes *)

Definition trunc_u16 (n : Z) : Z := n mod 65536.
Definition as_pid (n : Z) : Z := if n <? 2 ^ 31 then n else n - 2 ^ 32.

Inductive HandoffError :=
| NotFrozen
| NoLiveProcess
| NoPid
| NoRawFd
| FlagError.

Inductive AdoptError := BadMaster | BadStdin | ChildGone | CannotClone.

Section Panes.
Context `{!UnicodeWidth} {P : Type} (advance : P → byte → P * list vt_event) (vte_default : P).
Context (setfd_fails : Z → bool) (dup : FdTable → Z → option Z) (alive : Z → bool).
Context (current_dir : list byte) (new_v4 : Z).

Record PaneHandoff := mkHandoff {
  h_id : Z;
  h_command : list byte;
  h_launch : Launch;
  h_cwd : list byte;
  h_master_fd : Z;
  h_stdin_writer_fd : option Z;
  h_child_pid : Z;
  h_generation : Z;
  h_rows : Z;
  h_cols : Z;
  h_output_seq : Z;
  h_replay : list (Z * list byte);
  h_screen : ScreenState;
  h_scanner_held : list byte;
}.

(** The part of a pane that is handed over or decides whether it can be. *)
Record Pane := mkHPane {
  p_id : Z;
  p_command : list byte;
  p_launch : Launch;
  p_cwd : list byte;
  p_master : option Z;
  p_stdin_writer : option Z;
  p_parser : Parser (P:=P) (S:=Screen);
  p_rows : Z;
  p_cols : Z;
  p_scrollback_lines : Z;
  p_replay : ReplayBuffer;
  p_replay_budget : Z;
  p_output_seq : Z;
  p_exited : bool;
  p_reads_frozen : bool;
  p_eof_seen : bool;
  p_scanner_held : list byte;
  p_adopted_held : list byte;
  p_pid : Z;
  p_generation : Z;
  p_restart_pending : bool;
}.

Definition with_screen (p : Pane) (s : Screen) : Pane :=
  let 'mkHPane a b c d e f ps g h i j k l m n o q r t u v := p in
  mkHPane a b c d e f (mkParser (vte ps) (pending_c2 ps) s) g h i j k l m n o q r t u v.

Definition with_frozen (p : Pane) (frozen : bool) : Pane :=
  let 'mkHPane a b c d e f ps g h i j k l m _ o q r t u v := p in
  mkHPane a b c d e f ps g h i j k l m frozen o q r t u v.

Definition unfreeze_reads (p : Pane) : Pane := with_frozen p false.

Definition export_handoff (t : FdTable) (p : Pane) : option (FdTable * Pane * (HandoffError + PaneHandoff)) :=
  if negb (p_reads_frozen p) then Some (t, p, inl NotFrozen)
  else if negb (negb (p_exited p) && negb (p_restart_pending p) && negb (p_eof_seen p)) then Some (t, p, inl NoLiveProcess)
  else
    let child_pid := p_pid p in
    if child_pid =? 0 then Some (t, p, inl NoPid)
    else
      match p_master p with
      | None => Some (t, p, inl NoRawFd)
      | Some master_fd =>
          let replay := Replay.entries (p_replay p) in
          let seq := p_output_seq p in
          let! (s, screen) := export_screen (state (p_parser p)) in
          let p := with_screen p s in
          let '(t, ok) := clear_cloexec setfd_fails t master_fd in
          if negb ok then Some (t, p, inl FlagError)
          else
            let '(t, ok) :=
              match p_stdin_writer p with
              | None => (t, true)
              | Some fd =>
                  let '(t, ok) := clear_cloexec setfd_fails t fd in
                  if ok then (t, true) else (fst (set_cloexec setfd_fails t master_fd true), false)
              end in
            if negb ok then Some (t, p, inl FlagError)
            else
              Some (t, p, inr (mkHandoff (p_id p) (p_command p) (p_launch p) (p_cwd p) master_fd (p_stdin_writer p) child_pid
                (p_generation p) (trunc_u16 (p_rows p)) (trunc_u16 (p_cols p)) seq replay screen (p_scanner_held p)))
      end.

Definition abort_handoff (t : FdTable) (p : Pane) : FdTable * Pane :=
  let t := match p_master p with Some fd => fst (set_cloexec setfd_fails t fd true) | None => t end in
  let t := match p_stdin_writer p with Some fd => fst (set_cloexec setfd_fails t fd true) | None => t end in
  (t, unfreeze_reads p).

(** *** Adoption *)

Record StartedProcess := mkStarted {
  sp_pid : option Z;
  sp_master : option Z;
  sp_writer : Z;
  sp_reader : Z;
  sp_stdin_writer : option Z;
  sp_reply_fd : Z;
}.

Record Seed := mkSeed {
  sd_scanner_held : list byte;
  sd_screen : ScreenState;
  sd_output_seq : Z;
  sd_replay : list (Z * list byte);
  sd_generation : Z;
}.

Definition seed_apply (seed : Seed) (ps : Parser) (rb : ReplayBuffer) : option (Parser * ReplayBuffer * (Z * Z)) :=
  let! s := restore_screen (state ps) (sd_screen seed) in
  let! ps := process advance vt_perform (mkParser (vte ps) (pending_c2 ps) s) (sd_scanner_held seed) in
  let rb := foldl (λ rb e, Replay.push rb (fst e) (snd e)) rb (sd_replay seed) in
  Some (ps, rb, (sd_output_seq seed, sd_generation seed)).

(** The counters of the scrollback lines and replay bytes all panes were granted. *)
Record Grants := mkGrants { gr_scrollback : Z; gr_replay : Z }.

(** [assemble] up to the start of the reader thread, which the model of the output stream
    takes from there. *)
Definition assemble (command : list byte) (launch : Launch) (cwd : option (list byte)) (id : option Z) (rows cols : Z)
    (process : StartedProcess) (seed : option Seed) (g : Grants) : option (Grants * Pane) :=
  let '(scrollback_lines, used) := Budget.allocate_scrollback_budget (gr_scrollback g) in
  let! s := screen_new (mkSize rows cols) scrollback_lines in
  let ps := mkParser vte_default false s in
  let '(replay_budget_bytes, used') := Budget.allocate_replay_budget (gr_replay g) in
  let rb := Replay.new replay_budget_bytes in
  let! (ps, rb, (seed_seq, seed_generation)) :=
    match seed with Some seed => seed_apply seed ps rb | None => Some (ps, rb, (0, 0)) end in
  let held := match seed with Some seed => sd_scanner_held seed | None => [] end in
  Some (mkGrants used used',
    mkHPane (default new_v4 id) command launch (default current_dir cwd) (sp_master process) (sp_stdin_writer process) ps rows cols
      scrollback_lines rb replay_budget_bytes seed_seq false false false [] held (default 0 (sp_pid process)) seed_generation false).

Definition try_clone (t : FdTable) (fd : Z) : option (FdTable * Z) :=
  match dup t fd with Some n => Some (<[n := FD_CLOEXEC]> t, n) | None => None end.

(** [f] goes on with the clones of [fd]; what was cloned is closed when one cannot be. *)
Fixpoint clones (t : FdTable) (fd : Z) (n : nat) : FdTable + FdTable * list Z :=
  match n with
  | O => inr (t, [])
  | S n =>
      match try_clone t fd with
      | None => inl t
      | Some (t, c) => match clones t fd n with inl t => inl (delete c t) | inr (t, cs) => inr (t, c :: cs) end
      end
  end.

Definition from_adopted (t : FdTable) (g : Grants) (h : PaneHandoff) : option (FdTable * Grants * (AdoptError + Pane)) :=
  let '(t, ok) := take_inherited setfd_fails t (h_master_fd h) in
  if negb ok then Some (t, g, inl BadMaster)
  else
    let '(t, ok) := match h_stdin_writer_fd h with Some fd => take_inherited setfd_fails t fd | None => (t, true) end in
    if negb ok then Some (delete (h_master_fd h) t, g, inl BadStdin)
    else
      let owned := h_master_fd h :: option_list (h_stdin_writer_fd h) in
      if negb (alive (as_pid (h_child_pid h))) then Some (close_all owned t, g, inl ChildGone)
      else
        match clones t (h_master_fd h) 3 with
        | inr (t, [reader; writer; reply_fd]) =>
            let process := mkStarted (Some (h_child_pid h)) (Some (h_master_fd h)) writer reader (h_stdin_writer_fd h) reply_fd in
            let seed := mkSeed (h_scanner_held h) (h_screen h) (h_output_seq h) (h_replay h) (h_generation h) in
            let! (g, p) := assemble (h_command h) (h_launch h) (Some (h_cwd h)) (Some (h_id h)) (h_rows h) (h_cols h) process (Some seed) g in
            Some (t, g, inr p)
        | inr (t, _) | inl t => Some (close_all owned t, g, inl CannotClone)
        end.

(** ** Undoing an export *)

(** The descriptors of a pane are open, marked for closing and not the same. *)
Definition armed (t : FdTable) (p : Pane) : Prop :=
  (∀ fd, p_master p = Some fd ∨ p_stdin_writer p = Some fd → cloexec t fd = Some true) ∧
  (∀ fd, p_master p = Some fd → p_stdin_writer p ≠ Some fd).

Lemma with_screen_same p s :
  p_master (with_screen p s) = p_master p ∧ p_stdin_writer (with_screen p s) = p_stdin_writer p ∧
  p_reads_frozen (with_screen p s) = p_reads_frozen p.
Proof. by destruct p. Qed.

(** What an export of an armed pane does to the descriptors: nothing when it fails. *)
Lemma export_flags t p t' p' r :
  armed t p → export_handoff t p = Some (t', p', r) →
  match r with
  | inl _ => t' = t
  | inr h => ∃ m t1, p_master p = Some m ∧ h_master_fd h = m ∧ h_stdin_writer_fd h = p_stdin_writer p ∧ clear_cloexec setfd_fails t m = (t1, true) ∧
      match p_stdin_writer p with None => t' = t1 | Some s => clear_cloexec setfd_fails t1 s = (t', true) end
  end.
Proof.
  intros [Harm Hne]. unfold export_handoff. destruct (negb (p_reads_frozen p)); [by intros [= <- <- <-]|].
  destruct (negb _); [by intros [= <- <- <-]|]. destruct (p_pid p =? 0); [by intros [= <- <- <-]|].
  destruct (p_master p) as [m|] eqn:Em; [|by intros [= <- <- <-]].
  destruct (export_screen _) as [[s st]|]; [|done]. destruct (with_screen_same p s) as (_ & Es & _). cbv zeta. rewrite Es.
  destruct (clear_cloexec setfd_fails t m) as [t1 ok] eqn:E1. destruct ok; simpl.
  2: { intros [= <- <- <-]. by apply (set_cloexec_spec _ _ _ _ _ _ E1). }
  destruct (p_stdin_writer p) as [fd|] eqn:Esw.
  - destruct (clear_cloexec setfd_fails t1 fd) as [t2 ok2] eqn:E2. destruct ok2; simpl; intros [= <- <- <-].
    + exists m, t1. cbn. done.
    + assert (t2 = t1) as -> by (by apply (set_cloexec_spec _ _ _ _ _ _ E2)).
      destruct (clear_then_arm _ _ _ _ (Harm m (or_introl eq_refl)) E1) as (f & f' & Ef & -> & _ & Hre).
      rewrite Hre by (by rewrite lookup_insert_eq). simpl. by rewrite insert_insert_eq, insert_id.
  - simpl. intros [= <- <- <-]. exists m, t1. cbn. done.
Qed.

Lemma abort_flags t p t' p' h :
  armed t p → export_handoff t p = Some (t', p', inr h) → p_master p' = p_master p → p_stdin_writer p' = p_stdin_writer p →
  fst (abort_handoff t' p') = t.
Proof.
  intros Harm Hex Hm Hs. destruct (export_flags _ _ _ _ _ Harm Hex) as (m & t1 & Em & _ & _ & E1 & E2). destruct Harm as [Harm Hne].
  unfold abort_handoff. rewrite Hm, Hs, Em in *. cbn [fst].
  destruct (clear_then_arm _ _ _ _ (Harm m (or_introl eq_refl)) E1) as (f & f' & Ef & -> & _ & Hre).
  destruct (p_stdin_writer p) as [fd|] eqn:Es.
  - assert (m ≠ fd) as Hmf by (intros ->; by apply (Hne fd)).
    assert (Hc : cloexec (<[m := f']> t) fd = Some true).
    { unfold cloexec. rewrite lookup_insert_ne by done. apply Harm. by right. }
    destruct (clear_then_arm _ _ _ _ Hc E2) as (k & k' & Ek & -> & _ & Hre2).
    rewrite lookup_insert_ne in Ek by done.
    rewrite Hre by (rewrite lookup_insert_ne, lookup_insert_eq by done; done). cbn [fst].
    rewrite Hre2 by (rewrite lookup_insert_ne, lookup_insert_eq by done; done). cbn [fst].
    apply map_eq. intros d. destruct (decide (d = fd)) as [->|]; [by rewrite lookup_insert_eq|].
    rewrite lookup_insert_ne by done. destruct (decide (d = m)) as [->|]; [by rewrite lookup_insert_eq|].
    by rewrite !lookup_insert_ne by done.
  - subst t'. rewrite Hre by (by rewrite lookup_insert_eq). cbn [fst]. by rewrite insert_insert_eq, insert_id.
Qed.


(** ** Adopting what was exported *)

Lemma exec_keeps (t : FdTable) fd f : t !! fd = Some f → Z.land f FD_CLOEXEC = 0 → exec t !! fd = Some f.
Proof. intros E Hf. unfold exec. by apply map_lookup_filter_Some. Qed.

Lemma clear_works t fd : (∀ d, setfd_fails d = false) → is_Some (t !! fd) → ∃ t1, clear_cloexec setfd_fails t fd = (t1, true).
Proof.
  intros Hw [f E]. unfold clear_cloexec, set_cloexec. rewrite E, Hw. by destruct (_ =? f); eexists.
Qed.

(** The exported descriptors come through the [exec] and are armed again. *)
Lemma adopt_flags t p t' h p' :
  armed t p → export_handoff t p = Some (t', p', inr h) →
  ∃ t1 t2, take_inherited setfd_fails (exec t') (h_master_fd h) = (t1, true) ∧
    match h_stdin_writer_fd h with Some fd => take_inherited setfd_fails t1 fd | None => (t1, true) end = (t2, true) ∧
    ∀ fd, p_master p = Some fd ∨ p_stdin_writer p = Some fd → cloexec t2 fd = Some true.
Proof.
  intros Harm Hex. destruct (export_flags _ _ _ _ _ Harm Hex) as (m & t1 & Em & -> & -> & E1 & E2). destruct Harm as [Harm Hne]. rewrite Em in *.
  destruct (clear_then_arm _ _ _ _ (Harm m (or_introl eq_refl)) E1) as (f & f' & Ef & -> & Hf' & Hre).
  assert (Hcm : cloexec t m = Some true) by (by apply Harm; left). unfold cloexec in Hcm. rewrite Ef in Hcm.
  destruct (p_stdin_writer p) as [fd|] eqn:Es.
  - assert (m ≠ fd) as Hmf by (intros ->; by apply (Hne fd)).
    assert (Hcs : cloexec t fd = Some true) by (by apply Harm; right).
    assert (Hc : cloexec (<[m := f']> t) fd = Some true) by (unfold cloexec; by rewrite lookup_insert_ne).
    destruct (clear_then_arm _ _ _ _ Hc E2) as (k & k' & Ek & -> & Hk' & Hre2). rewrite lookup_insert_ne in Ek by done.
    assert (Hxm : exec (<[fd := k']> (<[m := f']> t)) !! m = Some f').
    { apply exec_keeps; [|done]. by rewrite lookup_insert_ne, lookup_insert_eq by done. }
    assert (Hxs : exec (<[fd := k']> (<[m := f']> t)) !! fd = Some k') by (apply exec_keeps; [by rewrite lookup_insert_eq|done]).
    eexists _, _. split; [|split].
    + unfold take_inherited. rewrite Hxm. by apply Hre.
    + unfold take_inherited. rewrite lookup_insert_ne, Hxs by done. apply Hre2. by rewrite lookup_insert_ne.
    + unfold cloexec in *. rewrite Ek in Hcs. intros d [[= <-]|[= <-]]; [rewrite lookup_insert_ne by done|]; by rewrite lookup_insert_eq.
  - subst t'. assert (Hxm : exec (<[m := f']> t) !! m = Some f') by (apply exec_keeps; [by rewrite lookup_insert_eq|done]).
    eexists _, _. split; [|split; [done|]].
    + unfold take_inherited. rewrite Hxm. by apply Hre.
    + unfold cloexec. intros d [[= <-]|?]; [|done]. by rewrite lookup_insert_eq.
Qed.

Lemma clones_spec n t fd :
  (∀ t fd, ∃ c, dup t fd = Some c ∧ t !! c = None) →
  ∃ t' cs, clones t fd n = inr (t', cs) ∧ length cs = n ∧ t ⊆ t' ∧ Forall (λ c, cloexec t' c = Some true ∧ t !! c = None) cs.
Proof.
  intros Hdup. revert t. induction n as [|n IH]; intros t; [by exists t, []|].
  destruct (Hdup t fd) as (c & Ec & Hc). cbn [clones]. unfold try_clone. rewrite Ec.
  destruct (IH (<[c := FD_CLOEXEC]> t)) as (t' & cs & -> & Hl & Hsub & Hcs).
  assert (Hsub' : t ⊆ t') by (etrans; [by apply insert_subseteq|done]).
  exists t', (c :: cs). split; [done|]. split; [simpl; lia|]. split; [done|]. constructor.
  - split; [|done]. unfold cloexec. by rewrite (lookup_weaken _ t' c FD_CLOEXEC) by (by rewrite ?lookup_insert_eq).
  - eapply Forall_impl; [exact Hcs|]. intros d [Hd Hn]. split; [done|]. destruct (decide (d = c)) as [->|]; [done|].
    by rewrite lookup_insert_ne in Hn.
Qed.

(** Why a pane can be handed over: it is frozen and alive, its emulator stands exactly where
    the held bytes take a fresh one, and its terminal can be repainted. *)
Record can_hand_over (t : FdTable) (p : Pane) : Prop := {
  ho_armed : armed t p;
  ho_master : is_Some (p_master p);
  ho_frozen : p_reads_frozen p = true;
  ho_live : p_exited p = false ∧ p_restart_pending p = false ∧ p_eof_seen p = false ∧ p_pid p ≠ 0;
  ho_size : 1 ≤ p_rows p ≤ u16_max ∧ 1 ≤ p_cols p < u16_max;
  ho_screen : savable (mkSize (p_rows p) (p_cols p)) (cur_grid (state (p_parser p))) ∧ attrs_ok (attrs (state (p_parser p)));
  ho_scrollback : Forall (λ x, length (cells x) = Z.to_nat (p_cols p) ∧ unstyled (cells x)) (scrollback (cur_grid (state (p_parser p))));
  ho_tokenizer : tokenize advance vte_default (p_scanner_held p) = (vte (p_parser p), []);
  ho_no_c2 : existsb (Z.eqb 0xC2) (p_scanner_held p) = false ∧ pending_c2 (p_parser p) = false;
}.

(** The host of the new image: flags can be set, descriptors cloned, and the child is there. *)
Record host_ok (p : Pane) : Prop := {
  hk_flags : ∀ fd, setfd_fails fd = false;
  hk_dup : ∀ t fd, ∃ c, dup t fd = Some c ∧ t !! c = None;
  hk_alive : alive (as_pid (p_pid p)) = true;
}.

(** The pane [q] of the new image carries on the pane [p] of the old. *)
Record carries_on (p q : Pane) : Prop := {
  co_identity : (p_id q, p_command q, p_launch q, p_cwd q) = (p_id p, p_command p, p_launch p, p_cwd p);
  co_process : (p_master q, p_stdin_writer q, p_pid q, p_generation q) = (p_master p, p_stdin_writer p, p_pid p, p_generation p);
  co_size : (p_rows q, p_cols q) = (p_rows p, p_cols p);
  co_live : (p_exited q, p_reads_frozen q, p_eof_seen q, p_restart_pending q) = (false, false, false, false);
  co_seq : p_output_seq q = p_output_seq p;
  co_replay : Replay.entries (p_replay q) = Replay.retain (p_replay_budget q) (Replay.entries (p_replay p));
  co_screen : looks_like (state (p_parser p)) (state (p_parser q));
  co_scrollback : map (λ r, map view (cells r)) (scrollback (cur_grid (state (p_parser q)))) =
    map (λ r, map view (cells r)) (scrollback (cur_grid (state (p_parser p))));
  co_tokenizer : (vte (p_parser q), pending_c2 (p_parser q)) = (vte (p_parser p), pending_c2 (p_parser p));
  co_held : p_adopted_held q = p_scanner_held p;
}.

Lemma with_screen_self p : with_screen p (state (p_parser p)) = p.
Proof. by destruct p as [? ? ? ? ? ? [] ? ? ? ? ? ? ? ? ? ? ? ? ? ?]. Qed.

Lemma trunc_u16_id n : 1 ≤ n ≤ u16_max → trunc_u16 n = n.
Proof. intros Hn. unfold trunc_u16, u16_max in *. apply Z.mod_small. lia. Qed.

(** A frozen, live pane whose screen can be saved is exported. *)
Lemma export_works t p st :
  can_hand_over t p → (∀ fd, setfd_fails fd = false) → export_screen (state (p_parser p)) = Some (state (p_parser p), st) →
  ∃ t' m, p_master p = Some m ∧ export_handoff t p = Some (t', p, inr (mkHandoff (p_id p) (p_command p) (p_launch p) (p_cwd p) m
    (p_stdin_writer p) (p_pid p) (p_generation p) (p_rows p) (p_cols p) (p_output_seq p) (Replay.entries (p_replay p)) st (p_scanner_held p))).
Proof.
  intros Hh Hw Est. destruct (ho_live _ _ Hh) as (He & Hr & Hf & Hp). destruct (ho_master _ _ Hh) as (m & Em). destruct (ho_size _ _ Hh) as [Hrs Hcs].
  destruct (ho_armed _ _ Hh) as [Harm _]. unfold export_handoff. rewrite (ho_frozen _ _ Hh), He, Hr, Hf, (proj2 (Z.eqb_neq _ _) Hp), Em, Est. cbn [negb andb].
  cbv zeta. rewrite with_screen_self, !trunc_u16_id by lia.
  assert (Hopen : ∀ d, p_master p = Some d ∨ p_stdin_writer p = Some d → is_Some (t !! d)).
  { intros d Hd. specialize (Harm d Hd). unfold cloexec in Harm. destruct (t !! d); [by eexists|done]. }
  destruct (clear_works t m Hw (Hopen m (or_introl Em))) as (t1 & E1). rewrite E1. cbn [negb].
  destruct (p_stdin_writer p) as [fd|] eqn:Es.
  - assert (Hfd : is_Some (t1 !! fd)).
    { destruct (set_cloexec_spec _ _ _ _ _ _ E1) as (_ & _ & Hoth & Hs). destruct (decide (fd = m)) as [->|Hne]; [by apply Hs, Hopen; left|].
      rewrite Hoth by done. apply Hopen. by right. }
    destruct (clear_works t1 fd Hw Hfd) as (t2 & E2). rewrite E2. cbn [negb]. by exists t2, m.
  - cbn [negb]. by exists t1, m.
Qed.

(** Reading the held bytes puts the fresh tokenizer where the old one was and shows nothing. *)
Lemma held_bytes t p s :
  can_hand_over t p → process advance vt_perform (mkParser vte_default false s) (p_scanner_held p) = Some (mkParser (vte (p_parser p)) false s).
Proof.
  intros Hh. destruct (ho_no_c2 _ _ Hh) as [Hc _]. unfold process. rewrite Hc. cbn [pending_c2 negb andb].
  unfold advance_screen. cbn [vte state]. by rewrite (ho_tokenizer _ _ Hh).
Qed.

Lemma seed_carries t p st s' screen rb :
  can_hand_over t p → restore_screen screen st = Some s' →
  seed_apply (mkSeed (p_scanner_held p) st (p_output_seq p) (Replay.entries (p_replay p)) (p_generation p)) (mkParser vte_default false screen) (Replay.new rb) =
    Some (mkParser (vte (p_parser p)) false s', Replay.run rb (Replay.entries (p_replay p)), (p_output_seq p, p_generation p)).
Proof.
  intros Hh Hs. unfold seed_apply. cbn [state vte pending_c2 sd_screen sd_scanner_held sd_replay sd_output_seq sd_generation]. rewrite Hs.
  by rewrite (held_bytes t p s' Hh).
Qed.


(** Clones that could not all be made are closed again. *)
Lemma clones_undone n t fd t' : (∀ t fd c, dup t fd = Some c → t !! c = None) → clones t fd n = inl t' → t' = t.
Proof.
  intros Hfresh. revert t t'. induction n as [|n IH]; intros t t'; [done|]. cbn [clones]. unfold try_clone.
  destruct (dup t fd) as [c|] eqn:Ec; [|by intros [= <-]]. destruct (clones (<[c := FD_CLOEXEC]> t) fd n) as [t1|[t1 cs]] eqn:E; [|done].
  intros [= <-]. rewrite (IH _ _ E). apply delete_insert_id. by apply Hfresh in Ec.
Qed.

(** An adoption that fails once it owns both descriptors closes them and touches no other. *)
Lemma failed_adoption_closes t g h t' g' e :
  (∀ t fd c, dup t fd = Some c → t !! c = None) → from_adopted t g h = Some (t', g', inl e) → e = ChildGone ∨ e = CannotClone →
  g' = g ∧ ∀ fd, t' !! fd = if decide (fd = h_master_fd h ∨ h_stdin_writer_fd h = Some fd) then None else t !! fd.
Proof.
  intros Hfresh Had He. unfold from_adopted in Had. unfold take_inherited in Had.
  assert (Htake : ∀ t t1 fd ok, match t !! fd with Some _ => set_cloexec setfd_fails t fd true | None => (t, false) end = (t1, ok) → ∀ d, d ≠ fd → t1 !! d = t !! d).
  { intros u u1 fd ok. destruct (u !! fd); [|by intros [= <- <-]]. intros E. apply (set_cloexec_spec _ _ _ _ _ _ E). }
  destruct (match t !! h_master_fd h with Some _ => _ | None => _ end) as [t1 ok] eqn:E1. destruct ok; [|by destruct He; simplify_eq].
  cbn [negb] in Had. destruct (match h_stdin_writer_fd h with Some _ => _ | None => _ end) as [t2 ok] eqn:E2. destruct ok; [|by destruct He; simplify_eq].
  cbn [negb] in Had. set (owned := h_master_fd h :: option_list (h_stdin_writer_fd h)) in *.
  assert (Hfd : t' = close_all owned t2 ∧ g' = g).
  { destruct (negb _); [by simplify_eq|]. destruct (clones t2 (h_master_fd h) 3) as [u|[u cs]] eqn:Ec.
    - apply (clones_undone _ _ _ _ Hfresh) in Ec as ->. by simplify_eq.
    - assert (length cs = 3%nat) as Hl.
      { clear -Ec. revert Ec. generalize t2 as t0. generalize 3%nat as n. intros n. revert u cs. induction n as [|n IH]; intros u cs t0; [by intros [= <- <-]|].
        cbn [clones]. destruct (try_clone t0 _) as [[t3 c]|]; [|done]. destruct (clones t3 _ n) as [|[t4 cs']] eqn:E; [done|].
        intros [= <- <-]. simpl. f_equal. by eapply IH. }
      destruct cs as [|? [|? [|? [|]]]]; try discriminate Hl. destruct (assemble _ _ _ _ _ _ _ _ _) as [[? ?]|]; by simplify_eq. }
  destruct Hfd as [-> ->]. split; [done|]. intros fd. unfold owned, close_all.
  destruct (h_stdin_writer_fd h) as [s|] eqn:Es; unfold option_list; cbn [foldr option_rect].
  - case_decide as Hd.
    + destruct (decide (fd = h_master_fd h)) as [->|]; [by rewrite lookup_delete_eq|]. destruct Hd as [|[= ->]]; [done|].
      rewrite lookup_delete_ne by done. by rewrite lookup_delete_eq.
    + rewrite !lookup_delete_ne by naive_solver. rewrite (Htake _ _ _ _ E2) by naive_solver. by rewrite (Htake _ _ _ _ E1) by naive_solver.
  - injection E2 as <-. case_decide as Hd.
    + destruct Hd as [->|]; [|done]. by rewrite lookup_delete_eq.
    + rewrite lookup_delete_ne by naive_solver. by rewrite (Htake _ _ _ _ E1) by naive_solver.
Qed.

(** The byte of a character cut in two that the old emulator had taken is not handed over:
    whatever it held, the adopted pane has nothing pending. *)
Lemma pending_byte_lost t g h t' g' q :
  existsb (Z.eqb 0xC2) (h_scanner_held h) = false → from_adopted t g h = Some (t', g', inr q) → pending_c2 (p_parser q) = false.
Proof.
  intros Hc Had.
  assert (Ha : ∃ c l w i r k pr o gr u rp gn g1, assemble c l w i r k pr (Some (mkSeed (h_scanner_held h) o u rp gn)) gr = Some (g1, q)).
  { unfold from_adopted in Had. repeat (case_match; try done); simplify_eq; repeat eexists; eassumption. }
  destruct Ha as (c & l & w & i & r & k & pr & o & gr & u & rp & gn & g1 & Ea). clear Had.
  unfold assemble, seed_apply in Ea. cbn [sd_scanner_held sd_screen] in Ea.
  destruct (Budget.allocate_scrollback_budget _) as [l1 l2], (Budget.allocate_replay_budget _) as [r1 r2].
  destruct (screen_new _ _) as [s|]; [|done]. cbn [state vte pending_c2] in Ea. destruct (restore_screen s _) as [s'|]; [|done].
  unfold process in Ea. rewrite Hc in Ea. cbn [negb andb pending_c2] in Ea. unfold advance_screen in Ea. cbn [vte state] in Ea.
  destruct (tokenize _ _ _) as [v evs]. destruct (perform_all _ _ _) as [s2|]; [|done]. by injection Ea as <- <-.
Qed.

End Panes.

(** ** Examples *)

(** Of a tokenizer only whether an escape sequence is open. *)
Definition sample_advance (p : bool) (b : byte) : bool * list vt_event := (p || (b =? 27), []).

Definition sample_hpane (s : Screen) : Pane (P:=bool) :=
  mkHPane 7 [115; 104] (mkLaunch [] ∅ [] None None true) [47] (Some 5) (Some 6) (mkParser true false s) 2 3 5
    (Replay.run 8 [(1, [97]); (2, [98])]) 8 2 false true false [27] [] 4242 1 false.

Definition sample_fds : gmap Z Z := {[ 5 := 1; 6 := 1 ]}.

Definition sample_dup (t : gmap Z Z) (fd : Z) : option Z := Some (fresh (dom t)).

Lemma sample_armed s : armed sample_fds (sample_hpane s).
Proof. split; [|by intros fd [= <-]]. by intros fd [[= <-]|[= <-]]. Qed.

Lemma sample_can s :
  @savable (mkSize 2 3) sample_width (cur_grid s) → attrs_ok (attrs s) →
  Forall (λ x, length (cells x) = width (mkSize 2 3) ∧ @unstyled sample_width (cells x)) (scrollback (cur_grid s)) →
  @can_hand_over sample_width _ sample_advance false sample_fds (sample_hpane s).
Proof. intros Hs Ha Hb. split; try done. apply sample_armed. Qed.

Lemma sample_host s : host_ok (λ _, false) sample_dup (λ _, true) (sample_hpane s).
Proof.
  split; [done| |done]. intros t fd. eexists. split; [done|]. apply not_elem_of_dom, is_fresh.
Qed.


(** The flag of the pipe cannot be cleared: the master's is set again. *)
Definition pipe_fails (fd : Z) : bool := fd =? 6.

Lemma sample_flag_error s s' st :
  export_screen s = Some (s', st) →
  export_handoff pipe_fails sample_fds (sample_hpane s) =
    Some (fst (set_cloexec pipe_fails (fst (clear_cloexec pipe_fails sample_fds 5)) 5 true), with_screen (sample_hpane s) s', inl FlagError).
Proof. intros Ex. unfold export_handoff, sample_hpane. cbn [p_reads_frozen p_exited p_restart_pending p_eof_seen p_pid p_master p_parser state negb andb Z.eqb]. by rewrite Ex. Qed.

