(* ===== verification/Spawn.v ===== *)
(** * Starting a pane's process ([crates/tymux-core/src/spawn.rs])

    The environment, working directory and program a pane's process is started with, and the
    file actions [posix_spawn] performs in the child (the Linux route). The C library is the
    interface [PosixSpawn]: its laws are what its documentation says of each action. *)

From S2P Require Import Prelude Launch TermQuery.

(** ** The environment *)

Abbreviation Env := (list (list byte * list byte)) (only parsing).

Definition TYMUXD_TOKEN : list byte := ascii "TYMUXD_TOKEN".
Definition SHELL : list byte := ascii "SHELL".
Definition HOME : list byte := ascii "HOME".
Definition PATH : list byte := ascii "PATH".

(** [vars_os] without the daemon's secret, and [SHELL] set. *)
Definition base_env (vars : Env) (shell : list byte) : Env :=
  filter (λ kv, fst kv ≠ TYMUXD_TOKEN ∧ fst kv ≠ SHELL) vars ++ [(SHELL, shell)].

(** [env.retain(..); env.push(..)] *)
Definition env_set (env : Env) (kv : list byte * list byte) : Env := filter (λ e, fst e ≠ fst kv) env ++ [kv].

(** A [BTreeMap] is walked in the order of its keys. *)
Fixpoint lex_leb (a b : list byte) : bool :=
  match a, b with
  | [], _ => true
  | _ :: _, [] => false
  | x :: a, y :: b => (x <? y) || (x =? y) && lex_leb a b
  end.

Definition key_le (a b : list byte * list byte) : Prop := lex_leb (fst a) (fst b) = true.

#[global] Instance key_le_dec a b : Decision (key_le a b).
Proof. unfold key_le. apply _. Defined.

Definition in_key_order (m : gmap (list Z) (list Z)) : Env := merge_sort key_le (map_to_list m).

Definition child_env (vars : Env) (shell : list byte) (launch : Launch) : Env :=
  foldl env_set (base_env vars shell) (in_key_order (l_env launch)).

Definition env_get (env : Env) (name : list byte) : option (list byte) := snd <$> head (filter (λ kv, fst kv = name) env).

(** ** Paths *)

(** [Path::join] on Unix. *)
Definition path_push (base rel : list byte) : list byte :=
  if is_absolute rel then rel
  else match last base with None => rel | Some c => if c =? 47 then base ++ rel else base ++ 47 :: rel end.

(** [std::env::split_paths] on Unix. *)
Fixpoint split_paths (path : list byte) : list (list byte) :=
  match path with
  | [] => [[]]
  | b :: path =>
      if b =? 58 then [] :: split_paths path
      else match split_paths path with dir :: rest => (b :: dir) :: rest | [] => [[b]] end
  end.

Inductive SpawnError := NotInPath | NotExecutable | NoSlave | InteriorNul | StderrDup | StdinDup | SpawnFailed.

(** The file system: [metadata] is whether the path is a regular file, and its mode. *)
Section Search.
Context (metadata : list byte → option (bool * Z)) (exists_ : list byte → bool) (is_dir : list byte → bool).
Context (passwd_home : option (list byte)).

Definition executable (p : list byte) : bool :=
  match metadata p with Some (is_file, mode) => is_file && negb (Z.land mode 73 =? 0) | None => false end.

Definition search_path (exe cwd : list byte) (path_env : option (list byte)) : result (list byte) SpawnError :=
  if negb (is_absolute exe) then
    let abs := path_push cwd exe in
    if exists_ abs then Ok abs
    else
      match path_env with
      | Some path =>
          match list_find (λ c, executable c = true) ((λ dir, path_push dir exe) <$> split_paths path) with
          | Some (_, candidate) => Ok candidate
          | None => Err NotInPath
          end
      | None => Err NotInPath
      end
  else if negb (executable exe) then Err NotExecutable else Ok exe.

Definition home_dir (env : Env) : list byte :=
  match env_get env HOME with Some h => h | None => default [47] passwd_home end.

Definition work_dir (env : Env) (cwd : option (list byte)) : list byte :=
  match cwd with Some d => if is_dir d then d else home_dir env | None => home_dir env end.
End Search.

(** ** [posix_spawn] *)

Inductive Action :=
| AChdir (dir : list byte)
| AOpen (fd : Z) (path : list byte)
| ADup2 (from to : Z)
| ACloseFrom (fd : Z).

(** A process as far as its descriptors go. [fd_at s n] is the open file descriptor [n] refers
    to, [opened p] the file that opening [p] gives, [is_tty p] whether [p] is a terminal, [ctty] the
    controlling terminal. [dup_fd] is
    [fcntl(F_DUPFD_CLOEXEC, min)]; [fork_setsid] is the state the file actions start from: the
    parent's descriptors in a session without a controlling terminal. *)
Class PosixSpawn (St File : Type) := {
  fd_at : St → Z → option File;
  workdir : St → list byte;
  ctty : St → option (list byte);
  opened : list byte → File;
  is_tty : list byte → bool;
  act : Action → St → option St;
  dup_fd : St → Z → Z → option (St * Z);
  close_fd : St → Z → St;
  fork_setsid : St → St;
  act_chdir d s s' : act (AChdir d) s = Some s' → workdir s' = d ∧ ctty s' = ctty s ∧ ∀ n, fd_at s' n = fd_at s n;
  act_open fd p s s' : act (AOpen fd p) s = Some s' →
    workdir s' = workdir s ∧ (is_tty p = true → ctty s = None → ctty s' = Some p) ∧ fd_at s' fd = Some (opened p) ∧ ∀ n, n ≠ fd → fd_at s' n = fd_at s n;
  act_dup2 a b s s' : act (ADup2 a b) s = Some s' →
    workdir s' = workdir s ∧ ctty s' = ctty s ∧ fd_at s' b = fd_at s a ∧ ∀ n, n ≠ b → fd_at s' n = fd_at s n;
  act_closefrom fd s s' : act (ACloseFrom fd) s = Some s' →
    workdir s' = workdir s ∧ ctty s' = ctty s ∧ ∀ n, fd_at s' n = if fd <=? n then None else fd_at s n;
  dup_fd_at s fd min s' n : dup_fd s fd min = Some (s', n) →
    min ≤ n ∧ fd_at s n = None ∧ fd_at s' n = fd_at s fd ∧ ∀ m, m ≠ n → fd_at s' m = fd_at s m;
  close_fd_at s fd n : fd_at (close_fd s fd) n = if decide (n = fd) then None else fd_at s n;
  fork_fd_at s n : fd_at (fork_setsid s) n = fd_at s n;
  fork_ctty s : ctty (fork_setsid s) = None;
}.

Section Spawn.
Context {St File : Type} `{!PosixSpawn St File}.

Fixpoint run_actions (acts : list Action) (s : St) : option St :=
  match acts with [] => Some s | a :: acts => let! s := act a s in run_actions acts s end.

Definition file_actions (dir slave : list byte) (stderr_fd stdin_fd : option Z) : list Action :=
  [AChdir dir; AOpen 0 slave; ADup2 0 1] ++
  [match stderr_fd with Some fd => ADup2 fd 2 | None => ADup2 0 2 end] ++
  match stdin_fd with Some fd => [ADup2 fd 0] | None => [] end ++
  [ACloseFrom 3].

Definition signals_defaulted : list Z := [17; 1; 2; 3; 15; 14; 13].

(** What the new program is started with. *)
Record Started := mkChild {
  c_path : list byte;
  c_argv : list (list byte);
  c_envp : list (list byte);
  c_state : St;
  c_defaults : list Z;
}.

Definition cstr (s : list byte) : result (list byte) SpawnError := if existsb (Z.eqb 0) s then Err InteriorNul else Ok s.

Fixpoint cstrs (ss : list (list byte)) : result (list (list byte)) SpawnError :=
  match ss with
  | [] => Ok []
  | s :: ss => match cstr s with Err e => Err e | Ok s => match cstrs ss with Err e => Err e | Ok ss => Ok (s :: ss) end end
  end.

Definition env_entry (kv : list byte * list byte) : list byte := fst kv ++ 61 :: snd kv.

Definition dup_above_stdio (s : St) (file : option Z) : option (St * option Z) :=
  match file with
  | None => Some (s, None)
  | Some fd => match dup_fd s fd 3 with Some (s, n) => Some (s, Some n) | None => None end
  end.

Definition close_opt (s : St) (fd : option Z) : St := match fd with Some fd => close_fd s fd | None => s end.

(** The daemon's state afterwards, and the child. The duplicates are dropped on every path. *)
Definition spawn (resolved arg0 : list byte) (prepared : PreparedLaunch Z) (env : Env) (dir slave : list byte) (s : St) :
    St * result Started SpawnError :=
  match cstr resolved with Err e => (s, Err e) | Ok path =>
  match cstrs (arg0 :: pl_args prepared) with Err e => (s, Err e) | Ok argv =>
  match cstrs (env_entry <$> env) with Err e => (s, Err e) | Ok envp =>
  match dup_above_stdio s (pl_stderr prepared) with None => (s, Err StderrDup) | Some (s, stderr_fd) =>
  match dup_above_stdio s (pl_stdin prepared) with None => (close_opt s stderr_fd, Err StdinDup) | Some (s, stdin_fd) =>
    let after := close_opt (close_opt s stdin_fd) stderr_fd in
    match cstr dir with Err e => (after, Err e) | Ok dir_c =>
    match cstr slave with Err e => (after, Err e) | Ok slave_c =>
    match run_actions (file_actions dir_c slave_c stderr_fd stdin_fd) (fork_setsid s) with
    | None => (after, Err SpawnFailed)
    | Some c => (after, Ok (mkChild path argv envp c signals_defaulted))
    end end end
  end end end end end.

(** [spawn_on_pty], with the slave's name as [ptsname_r] gives it. *)
Definition spawn_on_pty (vars : Env) (shell : list byte) (metadata : list byte → option (bool * Z)) (exists_ is_dir : list byte → bool)
    (passwd_home : option (list byte)) (slave_path : option (list byte)) (program : list byte) (launch : Launch) (prepared : PreparedLaunch Z)
    (cwd : option (list byte)) (s : St) : St * result Started SpawnError :=
  let env := child_env vars shell launch in
  let dir := work_dir is_dir passwd_home env cwd in
  match search_path metadata exists_ program dir (env_get env PATH) with
  | Err e => (s, Err e)
  | Ok resolved =>
      match slave_path with
      | None => (s, Err NoSlave)
      | Some slave => spawn resolved program prepared env dir slave s
      end
  end.

(** ** Opening the terminal and starting the process ([start_process] of [pane.rs]) *)

Inductive StartError := BadLaunch (e : LaunchError) | NoPty | Refused (e : SpawnError) | NoWriter | NoReader | NoReply.

Record StartedPty := mkStartedPty {
  st_child : Started;
  st_master : Z;
  st_writer : Z;
  st_reader : Z;
  st_stdin_writer : option Z;
  st_reply_fd : Z;
}.

Definition drop_prepared (s : St) (p : PreparedLaunch Z) : St := close_opt (close_opt (close_opt s (pl_stderr p)) (pl_stdin p)) (pl_stdin_writer p).

(** [openpty] gives the master and the slave, or fails. The master of a Unix pty always has a
    descriptor. *)
Definition start_process `{!FileSystem St Z} (openpty : St → option (St * Z * Z)) (vars : Env) (shell : list byte)
    (metadata : list byte → option (bool * Z)) (exists_ is_dir : list byte → bool) (passwd_home : option (list byte)) (ptsname : Z → option (list byte))
    (command : list byte) (launch : Launch) (cwd : option (list byte)) (s : St) : result StartedPty StartError * St :=
  match prepare launch s with
  | (Err e, s) => (Err (BadLaunch e), s)
  | (Ok prepared, s) =>
      match openpty s with
      | None => (Err NoPty, drop_prepared s prepared)
      | Some (s, master, slave) =>
          match spawn_on_pty vars shell metadata exists_ is_dir passwd_home (ptsname master) command launch prepared cwd s with
          | (s, Err e) => (Err (Refused e), drop_prepared (close_fd (close_fd s slave) master) prepared)
          | (s, Ok child) =>
              let s := close_opt (close_fd s slave) (pl_stdin prepared) in
              match dup_fd s master 3 with
              | None => (Err NoWriter, close_opt (close_opt (close_fd s master) (pl_stdin_writer prepared)) (pl_stderr prepared))
              | Some (s, writer) =>
                  match dup_fd s master 3 with
                  | None => (Err NoReader, close_opt (close_opt (close_fd (close_fd s writer) master) (pl_stdin_writer prepared)) (pl_stderr prepared))
                  | Some (s, reader) =>
                      match dup_fd s master 3 with
                      | None => (Err NoReply, close_opt (close_opt (close_fd (close_fd (close_fd s reader) writer) master) (pl_stdin_writer prepared)) (pl_stderr prepared))
                      | Some (s, reply_fd) =>
                          (Ok (mkStartedPty child master writer reader (pl_stdin_writer prepared) reply_fd), close_opt s (pl_stderr prepared))
                      end
                  end
              end
          end
      end
  end.

(** [apply_child_nofile_limit_to_pid]: the child's soft limit afterwards; [prlimit] may fail. *)
Definition child_nofile_limit (want : Z) (current : option Z) (set_ok : bool) : option Z :=
  if want =? 0 then current
  else match current with None => None | Some cur => if cur <=? want then Some cur else if set_ok then Some want else Some cur end.
End Spawn.
Arguments Started St : clear implicits.
Arguments StartedPty St : clear implicits.

(** ** The environment of the child *)

Lemma env_get_app env env' name : env_get (env ++ env') name = match env_get env name with Some v => Some v | None => env_get env' name end.
Proof. unfold env_get. rewrite filter_app. by destruct (filter _ env) as [|[k v] l]. Qed.

Lemma env_get_filter (Q : list byte * list byte → Prop) `{!∀ x, Decision (Q x)} env name :
  (∀ v, Q (name, v)) → env_get (filter Q env) name = env_get env name.
Proof.
  intros HQ. unfold env_get. rewrite list_filter_filter. f_equal. f_equal. apply list_filter_iff. intros [k v]. simpl.
  split; [by intros [? _]|]. intros ->. by split.
Qed.

Lemma env_get_none env name : (∀ v, (name, v) ∉ env) → env_get env name = None.
Proof.
  intros Hn. unfold env_get. destruct (filter _ env) as [|[k v] l] eqn:E; [done|]. exfalso.
  assert (Hin : (k, v) ∈ filter (λ kv : list byte * list byte, kv.1 = name) env) by (rewrite E; left).
  apply list_elem_of_filter in Hin as [Hk Hin]. simpl in Hk. subst k. by apply (Hn v).
Qed.

Lemma env_get_set env k v name : env_get (env_set env (k, v)) name = if decide (name = k) then Some v else env_get env name.
Proof.
  unfold env_set. rewrite env_get_app. case_decide as Hd.
  - subst k. rewrite env_get_none; [|intros w; rewrite list_elem_of_filter; naive_solver]. unfold env_get. rewrite filter_cons_True by done. done.
  - rewrite env_get_filter by done. rewrite (env_get_none [(k, v)]); [by destruct (env_get env name)|]. intros w. rewrite list_elem_of_singleton. naive_solver.
Qed.

Lemma env_get_sets kvs env name :
  NoDup (kvs.*1) → env_get (foldl env_set env kvs) name = match (list_to_map kvs : gmap (list Z) (list Z)) !! name with Some v => Some v | None => env_get env name end.
Proof.
  revert env. induction kvs as [|[k v] kvs IH]; intros env Hnd; [done|]. cbn [foldl]. rewrite fmap_cons in Hnd. apply NoDup_cons in Hnd as [Hk Hnd].
  rewrite IH by done. cbn [list_to_map foldr uncurry]. rewrite env_get_set.
  destruct (decide (name = k)) as [->|Hne].
  - rewrite lookup_insert_eq, (not_elem_of_list_to_map_1 kvs k Hk). done.
  - by rewrite lookup_insert_ne.
Qed.

Lemma key_order_map m : NoDup ((in_key_order m).*1) ∧ (list_to_map (in_key_order m) : gmap (list Z) (list Z)) = m.
Proof.
  assert (Hp : in_key_order m ≡ₚ map_to_list m) by apply merge_sort_Permutation.
  assert (Hnd : NoDup ((in_key_order m).*1)).
  { rewrite Hp. apply NoDup_fst_map_to_list. }
  split; [done|]. rewrite (list_to_map_proper _ _ Hnd Hp). apply list_to_map_to_list.
Qed.

(** What the child sees under each name: what the launch sets, the shell, or the daemon's own
    value, but for its secret. *)
Definition sees (vars : Env) (shell : list byte) (launch : Launch) (name : list byte) : option (list byte) :=
  match l_env launch !! name with
  | Some v => Some v
  | None => if decide (name = SHELL) then Some shell else if decide (name = TYMUXD_TOKEN) then None else env_get vars name
  end.

Lemma child_env_get vars shell launch name : env_get (child_env vars shell launch) name = sees vars shell launch name.
Proof.
  destruct (key_order_map (l_env launch)) as [Hnd Hm]. unfold child_env, sees. rewrite env_get_sets, Hm by done.
  destruct (l_env launch !! name); [done|]. unfold base_env. rewrite env_get_app. repeat case_decide; subst.
  - rewrite env_get_none; [done|]. intros w. rewrite list_elem_of_filter. naive_solver.
  - rewrite env_get_none; [done|]. intros w. rewrite list_elem_of_filter. naive_solver.
  - rewrite env_get_filter by done. destruct (env_get vars name); [done|]. apply env_get_none. intros w. rewrite list_elem_of_singleton. naive_solver.
Qed.

Lemma env_set_nodup env kv : NoDup (env.*1) → NoDup ((env_set env kv).*1).
Proof.
  intros Hnd. unfold env_set. rewrite fmap_app. apply NoDup_app. split; [|split].
  - clear -Hnd. induction env as [|e env IH]; [done|]. rewrite fmap_cons in Hnd. apply NoDup_cons in Hnd as [Hx Hnd]. rewrite filter_cons.
    case_decide; [|by apply IH]. rewrite fmap_cons. apply NoDup_cons. split; [|by apply IH]. intros Hin. apply Hx.
    apply list_elem_of_fmap in Hin as (y & -> & Hy). apply list_elem_of_filter in Hy as [_ Hy]. by apply list_elem_of_fmap_2.
  - intros x Hx Hk. apply list_elem_of_fmap in Hx as (y & -> & Hy). apply list_elem_of_filter in Hy as [Hy _].
    simpl in Hk. apply list_elem_of_singleton in Hk. done.
  - apply NoDup_singleton.
Qed.

Lemma child_env_nodup vars shell launch : NoDup (vars.*1) → NoDup ((child_env vars shell launch).*1).
Proof.
  intros Hnd. unfold child_env. generalize (in_key_order (l_env launch)). intros kvs.
  assert (Hb : NoDup ((base_env vars shell).*1)).
  { assert (Hf : NoDup ((env_set vars (SHELL, shell)).*1)) by by apply env_set_nodup. unfold base_env, env_set in *. rewrite fmap_app in *.
    apply NoDup_app in Hf as (Hf1 & Hf2 & Hf3). apply NoDup_app. split; [|split; [|done]].
    - eapply sublist_NoDup; [exact Hf1|]. apply sublist_map. change (filter (λ kv : list byte * list byte, kv.1 ≠ TYMUXD_TOKEN ∧ kv.1 ≠ SHELL) vars) with
        (filter (λ kv : list byte * list byte, (λ kv, kv.1 ≠ TYMUXD_TOKEN) kv ∧ (λ kv, kv.1 ≠ SHELL) kv) vars).
      rewrite <- list_filter_filter. apply sublist_filter.
    - intros x Hx. apply Hf2. apply list_elem_of_fmap in Hx as (y & -> & Hy). apply list_elem_of_fmap_2.
      apply list_elem_of_filter in Hy as [[_ Hs] Hy]. by apply list_elem_of_filter. }
  revert Hb. generalize (base_env vars shell). induction kvs as [|kv kvs IH]; intros env Hb; [done|]. cbn [foldl]. apply IH. by apply env_set_nodup.
Qed.

(** ** The child's descriptors *)

Section Child.
Context {St File : Type} `{!PosixSpawn St File}.

Lemma run_actions_app l l' s : run_actions (l ++ l') s = (let! s := run_actions l s in run_actions l' s).
Proof. revert s. induction l as [|a l IH]; intros s; [done|]. simpl. destruct (act a s); [apply IH|done]. Qed.

(** The files of a launch come in above the standard descriptors. *)
Definition above (fd : option Z) : Prop := ∀ n, fd = Some n → 3 ≤ n.

Lemma actions_spec dir slave err inp s c :
  is_tty slave = true → ctty s = None → above err → above inp → run_actions (file_actions dir slave err inp) s = Some c →
  workdir c = dir ∧ ctty c = Some slave ∧
  fd_at c 0 = match inp with Some i => fd_at s i | None => Some (opened slave) end ∧ fd_at c 1 = Some (opened slave) ∧
  fd_at c 2 = match err with Some e => fd_at s e | None => Some (opened slave) end ∧ ∀ n, 3 ≤ n → fd_at c n = None.
Proof.
  intros Htty Hno He Hi. unfold file_actions. cbn [app run_actions].
  destruct (act (AChdir dir) s) as [s1|] eqn:E1; [|done]. destruct (act_chdir _ _ _ E1) as (Hw1 & Ht1 & Hf1).
  destruct (act (AOpen 0 slave) s1) as [s2|] eqn:E2; [|done]. destruct (act_open _ _ _ _ E2) as (Hw2 & Ht2 & H20 & H2n). rewrite Ht1 in Ht2.
  specialize (Ht2 Htty Hno).
  destruct (act (ADup2 0 1) s2) as [s3|] eqn:E3; [|done]. destruct (act_dup2 _ _ _ _ E3) as (Hw3 & Ht3 & H31 & H3n).
  set (a := match err with Some fd => ADup2 fd 2 | None => ADup2 0 2 end). destruct (act a s3) as [s4|] eqn:E4; [|done].
  assert (H4 : workdir s4 = workdir s3 ∧ ctty s4 = ctty s3 ∧ fd_at s4 2 = match err with Some e => fd_at s e | None => Some (opened slave) end ∧
    ∀ n, n ≠ 2 → fd_at s4 n = fd_at s3 n).
  { unfold a in E4. destruct err as [e|]; destruct (act_dup2 _ _ _ _ E4) as (Hw4 & Ht4 & H42 & H4n); (split; [done|]); (split; [done|]); (split; [|done]); rewrite H42.
    - specialize (He e eq_refl). by rewrite H3n, H2n, Hf1 by lia.
    - by rewrite H3n by lia. }
  destruct H4 as (Hw4 & Ht4 & H42 & H4n).
  assert (H5 : ∀ s5, run_actions (match inp with Some fd => [ADup2 fd 0] | None => [] end) s4 = Some s5 →
    workdir s5 = workdir s4 ∧ ctty s5 = ctty s4 ∧ fd_at s5 0 = match inp with Some i => fd_at s i | None => Some (opened slave) end ∧
    ∀ n, n ≠ 0 → fd_at s5 n = fd_at s4 n).
  { intros s5. destruct inp as [i|]; cbn [run_actions].
    - destruct (act (ADup2 i 0) s4) as [s5'|] eqn:E5; [|done]. intros [= <-]. destruct (act_dup2 _ _ _ _ E5) as (Hw5 & Ht5 & H50 & H5n).
      split; [done|]. split; [done|]. split; [|done]. specialize (Hi i eq_refl). rewrite H50. by rewrite H4n, H3n, H2n, Hf1 by lia.
    - intros [= <-]. split; [done|]. split; [done|]. split; [|done]. by rewrite H4n, H3n by lia. }
  rewrite run_actions_app. destruct (run_actions (match inp with Some _ => _ | None => _ end) s4) as [s5|] eqn:E5; [|done].
  destruct (H5 s5 eq_refl) as (Hw5 & Ht5 & H50 & H5n). cbn [run_actions].
  destruct (act (ACloseFrom 3) s5) as [s6|] eqn:E6; [|done]. intros [= <-]. destruct (act_closefrom _ _ _ E6) as (Hw6 & Ht6 & H6).
  split; [by rewrite Hw6, Hw5, Hw4, Hw3, Hw2|]. split; [by rewrite Ht6, Ht5, Ht4, Ht3|]. rewrite !H6. cbn [Z.leb Z.compare].
  split; [done|]. split; [by rewrite H5n, H4n, H31 by lia|]. split; [by rewrite H5n by lia|].
  intros n Hn. rewrite H6. by rewrite (proj2 (Z.leb_le 3 n) Hn).
Qed.

Lemma cstr_ok s s' : cstr s = Ok s' → s' = s.
Proof. unfold cstr. by destruct (existsb _ s); intros [= ->]. Qed.

Lemma cstrs_ok ss ss' : cstrs ss = Ok ss' → ss' = ss.
Proof.
  revert ss'. induction ss as [|s ss IH]; intros ss'; simpl; [by intros [= <-]|]. destruct (cstr s) eqn:E; [|done]. apply cstr_ok in E as ->.
  destruct (cstrs ss) eqn:E'; [|done]. intros [= <-]. by rewrite (IH _ eq_refl).
Qed.

(** A duplicate refers to the file it was made of, is new and above the standard ones. *)
Lemma dup_spec s file s' fd :
  dup_above_stdio s file = Some (s', fd) →
  above fd ∧ (∀ n, fd_at (close_opt s' fd) n = fd_at s n) ∧ (∀ n, is_Some (fd_at s n) → fd_at s' n = fd_at s n) ∧
  match file, fd with Some f, Some n => fd_at s' n = fd_at s f | None, None => True | _, _ => False end.
Proof.
  unfold dup_above_stdio. destruct file as [f|].
  - destruct (dup_fd s f 3) as [[s1 n]|] eqn:E; [|done]. intros [= <- <-]. destruct (dup_fd_at _ _ _ _ _ E) as (Hn & Hfree & Hat & Hoth).
    split; [by intros m [= <-]|]. split; [|split; [|done]].
    + intros m. cbn [close_opt]. rewrite close_fd_at. case_decide; [by subst|by apply Hoth].
    + intros m Hm. apply Hoth. intros ->. rewrite Hfree in Hm. by destruct Hm.
  - intros [= <- <-]. by split.
Qed.

Lemma close_opt_ext s1 s2 fd : (∀ n, fd_at s1 n = fd_at s2 n) → ∀ n, fd_at (close_opt s1 fd) n = fd_at (close_opt s2 fd) n.
Proof. intros H n. destruct fd as [m|]; [|done]. cbn [close_opt]. rewrite !close_fd_at. by case_decide. Qed.

(** The files a launch opened are open in the daemon. *)
Definition file_open (s : St) (file : option Z) : Prop := ∀ f, file = Some f → is_Some (fd_at s f).

Definition stream_of (s : St) (file : option Z) (slave : list byte) : option File :=
  match file with Some f => fd_at s f | None => Some (opened slave) end.

(** What [posix_spawn] is asked for, on every path out of [spawn]. *)
Lemma spawn_spec resolved arg0 prepared env dir slave s s' r :
  is_tty slave = true → file_open s (pl_stderr prepared) → file_open s (pl_stdin prepared) →
  spawn resolved arg0 prepared env dir slave s = (s', r) →
  (∀ n, fd_at s' n = fd_at s n) ∧
  match r with
  | Err _ => True
  | Ok c => c_path c = resolved ∧ c_argv c = arg0 :: pl_args prepared ∧ c_envp c = env_entry <$> env ∧
      workdir (c_state c) = dir ∧ ctty (c_state c) = Some slave ∧
      fd_at (c_state c) 0 = stream_of s (pl_stdin prepared) slave ∧ fd_at (c_state c) 1 = Some (opened slave) ∧
      fd_at (c_state c) 2 = stream_of s (pl_stderr prepared) slave ∧ ∀ n, 3 ≤ n → fd_at (c_state c) n = None
  end.
Proof.
  intros Htty Hoe Hoi. unfold spawn. destruct (cstr resolved) as [path|] eqn:Ep; [|by intros [= <- <-]]. apply cstr_ok in Ep as ->.
  destruct (cstrs (arg0 :: _)) as [argv|] eqn:Ea; [|by intros [= <- <-]]. apply cstrs_ok in Ea as ->.
  destruct (cstrs (env_entry <$> env)) as [envp|] eqn:Ee; [|by intros [= <- <-]]. apply cstrs_ok in Ee as ->.
  destruct (dup_above_stdio s (pl_stderr prepared)) as [[s1 err]|] eqn:E1; [|by intros [= <- <-]].
  destruct (dup_spec _ _ _ _ E1) as (Hab1 & Hcl1 & Hk1 & Hm1).
  destruct (dup_above_stdio s1 (pl_stdin prepared)) as [[s2 inp]|] eqn:E2; [|by intros [= <- <-]].
  destruct (dup_spec _ _ _ _ E2) as (Hab2 & Hcl2 & Hk2 & Hm2).
  assert (Hafter : ∀ n, fd_at (close_opt (close_opt s2 inp) err) n = fd_at s n).
  { intros n. rewrite (close_opt_ext _ _ err Hcl2). apply Hcl1. }
  cbv zeta. destruct (cstr dir) as [dir_c|] eqn:Ed; [|by intros [= <- <-]]. apply cstr_ok in Ed as ->.
  destruct (cstr slave) as [slave_c|] eqn:Es; [|by intros [= <- <-]]. apply cstr_ok in Es as ->.
  destruct (run_actions _ (fork_setsid s2)) as [c|] eqn:Er; [|by intros [= <- <-]]. intros [= <- <-]. split; [done|].
  destruct (actions_spec _ _ _ _ _ _ Htty (fork_ctty s2) Hab1 Hab2 Er) as (Hw & Ht & H0 & H1 & H2 & Hn). cbn [c_path c_argv c_envp c_state].
  do 5 (split; [done|]). rewrite H0, H2. unfold stream_of. split; [|split; [done|split; [|done]]].
  - destruct (pl_stdin prepared) as [f|], inp as [i|]; try done. rewrite fork_fd_at, Hm2. apply Hk1, Hoi. done.
  - destruct (pl_stderr prepared) as [f|], err as [e|]; try done. rewrite fork_fd_at, Hk2; [done|]. rewrite Hm1. by apply Hoe.
Qed.

(** C26. A pane's process gets what it was launched with and nothing of the daemon's. Whatever
    [spawn_on_pty] answers, the daemon's own descriptors are as before. The process it
    starts runs the program found for its name with exactly the prepared arguments, in the
    asked directory when that exists and the home otherwise; the pane's terminal is its
    controlling terminal, its output, and its input and error unless the launch gave files
    for them, and no other descriptor is open; and under every name of its environment it
    sees what the launch sets, then the shell, then the daemon's value, never the daemon's
    token. *)
Theorem child_gets_its_launch vars shell metadata exists_ is_dir passwd_home slave program launch prepared cwd s s' r :
  is_tty slave = true → file_open s (pl_stderr prepared) → file_open s (pl_stdin prepared) →
  spawn_on_pty vars shell metadata exists_ is_dir passwd_home (Some slave) program launch prepared cwd s = (s', r) →
  (∀ n, fd_at s' n = fd_at s n) ∧
  match r with
  | Err _ => True
  | Ok c => ∃ env, c_envp c = env_entry <$> env ∧ (∀ name, env_get env name = sees vars shell launch name) ∧
      search_path metadata exists_ program (workdir (c_state c)) (env_get env PATH) = Ok (c_path c) ∧
      c_argv c = program :: pl_args prepared ∧
      workdir (c_state c) = match cwd with Some d => if is_dir d then d else home_dir passwd_home env | None => home_dir passwd_home env end ∧
      ctty (c_state c) = Some slave ∧
      fd_at (c_state c) 0 = stream_of s (pl_stdin prepared) slave ∧ fd_at (c_state c) 1 = Some (opened slave) ∧
      fd_at (c_state c) 2 = stream_of s (pl_stderr prepared) slave ∧ ∀ n, 3 ≤ n → fd_at (c_state c) n = None
  end.
Proof.
  intros Htty Hoe Hoi. unfold spawn_on_pty. cbv zeta. set (env := child_env vars shell launch). set (dir := work_dir is_dir passwd_home env cwd).
  destruct (search_path _ _ _ _ _) as [resolved|] eqn:Esp; [|by intros [= <- <-]]. intros Hs.
  destruct (spawn_spec _ _ _ _ _ _ _ _ _ Htty Hoe Hoi Hs) as [Hfd Hc]. split; [done|]. destruct r as [c|]; [|done].
  destruct Hc as (Hp & Ha & He & Hw & Hrest). exists env. split; [done|]. split; [apply child_env_get|]. rewrite Hw, Hp. by split.
Qed.

(** ** What starting leaves open *)

Lemma close_opt_at s fd n : fd_at (close_opt s fd) n = if decide (fd = Some n) then None else fd_at s n.
Proof. destruct fd as [m|]; cbn [close_opt]; [|done]. rewrite close_fd_at. repeat case_decide; naive_solver. Qed.

(** The descriptors of a pane that has been started. *)
Definition pane_fds (p : StartedPty St) : list Z := [st_master p; st_writer p; st_reader p; st_reply_fd p].

Definition of_launch (p : PreparedLaunch Z) (n : Z) : Prop := pl_stderr p = Some n ∨ pl_stdin p = Some n ∨ pl_stdin_writer p = Some n.

#[global] Instance of_launch_dec p n : Decision (of_launch p n).
Proof. unfold of_launch. apply _. Defined.

Lemma spawn_keeps_fds vars shell metadata exists_ is_dir passwd_home (ptsname : Z → option (list byte)) fd program launch prepared cwd s s' r :
  (∀ fd slave, ptsname fd = Some slave → is_tty slave = true) → (∀ n, of_launch prepared n → is_Some (fd_at s n)) →
  spawn_on_pty vars shell metadata exists_ is_dir passwd_home (ptsname fd) program launch prepared cwd s = (s', r) → ∀ n : Z, fd_at s' n = fd_at s n.
Proof.
  intros Htty Hopen. unfold spawn_on_pty. destruct (search_path _ _ _ _ _); [|by intros [= <- <-]].
  destruct (ptsname fd) as [slave|] eqn:Ep; [|by intros [= <- <-]]. intros Hs. apply (Htty _ _) in Ep.
  assert (He : file_open s (pl_stderr prepared)) by (intros f Hf; apply Hopen; by left).
  assert (Hi : file_open s (pl_stdin prepared)) by (intros f Hf; apply Hopen; right; by left).
  apply (spawn_spec _ _ _ _ _ _ _ _ _ Ep He Hi Hs).
Qed.

(** Once the rest of the launch's files and the master [m] are closed, what was opened since is
    gone. *)
Lemma closed_again (s1 s4 : St) (m : Z) prepared n (o : option File) :
  fd_at s1 m = None → (∀ n, n ≠ m → fd_at s4 n = if decide (pl_stdin prepared = Some n) then None else fd_at s1 n) →
  (n ≠ m → ¬ (pl_stderr prepared = Some n ∨ pl_stdin_writer prepared = Some n) → o = fd_at s4 n) →
  (if decide (pl_stderr prepared = Some n) then None else if decide (pl_stdin_writer prepared = Some n) then None else if decide (n = m) then None else o) =
  if decide (of_launch prepared n) then None else fd_at s1 n.
Proof.
  intros Hm F Ho. unfold of_launch. repeat case_decide; subst; try naive_solver.
  - rewrite Ho, F by naive_solver. by case_decide; naive_solver.
  - rewrite Ho, F by naive_solver. by case_decide; naive_solver.
Qed.

(** A pane that cannot be started leaves no descriptor behind, at whatever step it fails; one
    that is started keeps the master with three duplicates of it and the write end of its
    input pipe, and not the read end, so that the pipe breaks when the child exits. *)
Lemma start_process_tidy `{!FileSystem St Z} openpty vars shell metadata exists_ is_dir passwd_home ptsname command launch cwd s s1 s' prepared r :
  (∀ s s2 m sl, openpty s = Some (s2, m, sl) → m ≠ sl ∧ fd_at s m = None ∧ fd_at s sl = None ∧ is_Some (fd_at s2 m) ∧ ∀ n, n ≠ m → n ≠ sl → fd_at s2 n = fd_at s n) →
  (∀ fd slave, ptsname fd = Some slave → is_tty slave = true) →
  prepare launch s = (Ok prepared, s1) → (∀ n, of_launch prepared n → is_Some (fd_at s1 n)) →
  (∀ n, pl_stderr prepared = Some n → pl_stdin prepared ≠ Some n) →
  start_process openpty vars shell metadata exists_ is_dir passwd_home ptsname command launch cwd s = (r, s') →
  match r with
  | Err _ => ∀ n, fd_at s' n = if decide (of_launch prepared n) then None else fd_at s1 n
  | Ok p => st_stdin_writer p = pl_stdin_writer prepared ∧ Forall (λ n, fd_at s' n = fd_at s' (st_master p) ∧ is_Some (fd_at s' n)) (pane_fds p) ∧
      ∀ n, n ∉ pane_fds p → fd_at s' n = if decide (pl_stderr prepared = Some n ∨ pl_stdin prepared = Some n) then None else fd_at s1 n
  end.
Proof.
  intros Hpty Htty Hprep Hopen Hdist. unfold start_process. rewrite Hprep.
  destruct (openpty s1) as [[[s2 m] sl]|] eqn:Eo.
  2: { intros [= <- <-] n. unfold drop_prepared. rewrite !close_opt_at. unfold of_launch. repeat case_decide; naive_solver. }
  destruct (Hpty _ _ _ _ Eo) as (Hne & Hm & Hsl & Hmo & Hs2).
  assert (Hnew : ∀ n, of_launch prepared n → n ≠ m ∧ n ≠ sl).
  { intros n Hn. specialize (Hopen n Hn). split; intros ->; [rewrite Hm in Hopen|rewrite Hsl in Hopen]; by destruct Hopen. }
  assert (Hopen2 : ∀ n, of_launch prepared n → is_Some (fd_at s2 n)).
  { intros n Hn. destruct (Hnew n Hn). rewrite Hs2 by done. by apply Hopen. }
  destruct (spawn_on_pty _ _ _ _ _ _ _ _ _ _ _ s2) as [s3 [child|e]] eqn:Esp.
  - assert (Hs3 : ∀ n, fd_at s3 n = fd_at s2 n) by (by eapply spawn_keeps_fds).
    set (s4 := close_opt (close_fd s3 sl) (pl_stdin prepared)).
    assert (F4 : ∀ n, fd_at s4 n = if decide (n = sl ∨ pl_stdin prepared = Some n) then None else fd_at s2 n).
    { intros n. unfold s4. rewrite close_opt_at, close_fd_at, Hs3. repeat case_decide; naive_solver. }
    assert (Hm4 : fd_at s4 m = fd_at s2 m).
    { rewrite F4, decide_False; [done|]. intros [->|Hi]; [done|]. by destruct (Hnew m (or_intror (or_introl Hi))). }
    assert (F1 : ∀ n, n ≠ m → fd_at s4 n = if decide (pl_stdin prepared = Some n) then None else fd_at s1 n).
    { intros n Hn. rewrite F4. destruct (decide (n = sl)) as [->|Hns].
      - rewrite decide_True by (by left). case_decide; [done|]. by rewrite Hsl.
      - rewrite Hs2 by done. repeat case_decide; naive_solver. }
    destruct (dup_fd s4 m 3) as [[s5 w]|] eqn:E5.
    2: { intros [= <- <-] n. rewrite !close_opt_at, close_fd_at. by apply (closed_again s1 s4). }
    destruct (dup_fd_at _ _ _ _ _ E5) as (_ & Hw & Hwm & H5).
    destruct (dup_fd s5 m 3) as [[s6 rd]|] eqn:E6.
    2: { intros [= <- <-] n. rewrite !close_opt_at, !close_fd_at. apply (closed_again s1 s4 m); try done. intros Hnm Hnc. case_decide; [by subst|by apply H5]. }
    destruct (dup_fd_at _ _ _ _ _ E6) as (_ & Hrd & Hrdm & H6).
    destruct (dup_fd s6 m 3) as [[s7 rp]|] eqn:E7.
    2: { intros [= <- <-] n. rewrite !close_opt_at, !close_fd_at. apply (closed_again s1 s4 m); try done. intros Hnm Hnc.
         case_decide as Hnw; [by subst|]. rewrite <- H5 by done. case_decide; [by subst|by apply H6]. }
    destruct (dup_fd_at _ _ _ _ _ E7) as (_ & Hrp & Hrpm & H7). intros [= <- <-]. split; [done|]. rewrite <- Hm4 in Hmo.
    assert (Hmw : m ≠ w) by (intros ->; rewrite Hw in Hmo; by destruct Hmo).
    assert (Hm5 : fd_at s5 m = fd_at s4 m) by (by apply H5). assert (Hmr : m ≠ rd) by (intros ->; rewrite <- Hm5, Hrd in Hmo; by destruct Hmo).
    assert (Hm6 : fd_at s6 m = fd_at s4 m) by (rewrite <- Hm5; by apply H6).
    assert (Hmp : m ≠ rp) by (intros ->; rewrite <- Hm6, Hrp in Hmo; by destruct Hmo).
    assert (Hwr : w ≠ rd) by (intros ->; rewrite <- Hwm, Hrd in Hmo; by destruct Hmo).
    assert (Hwp : w ≠ rp) by (intros ->; rewrite <- Hwm, <- (H6 rp Hwr), Hrp in Hmo; by destruct Hmo).
    assert (Hrr : rd ≠ rp) by (intros ->; rewrite <- Hm5, <- Hrdm, Hrp in Hmo; by destruct Hmo).
    cbn [st_stdin_writer st_master pane_fds st_writer st_reader st_reply_fd] in *.
    assert (Hse : ∀ e, pl_stderr prepared = Some e → e ≠ m ∧ is_Some (fd_at s4 e)).
    { intros e He. destruct (Hnew e (or_introl He)) as [Hem Hes]. split; [done|]. rewrite F1 by done. rewrite decide_False by (by apply Hdist).
      apply Hopen. by left. }
    assert (Hne4 : ∀ n, n = m ∨ fd_at s4 n = None → pl_stderr prepared ≠ Some n).
    { intros n Hn He. destruct (Hse n He) as [Hem [f Hf]]. destruct Hn as [->|Hn]; [done|]. by rewrite Hn in Hf. }
    assert (Hrd4 : fd_at s4 rd = None) by (rewrite <- H5 by done; done).
    assert (Hrp4 : fd_at s4 rp = None) by (rewrite <- H5, <- H6 by done; done).
    split.
    + repeat apply Forall_cons_2; [..|done]; cbn [st_master st_writer st_reader st_reply_fd]; rewrite !close_opt_at, !decide_False by (apply Hne4; auto).
      * rewrite H7, Hm6 by done. done.
      * rewrite !(H7 w), !(H7 m), (H6 w), Hm6, Hwm by done. done.
      * rewrite (H7 rd), (H7 m), Hrdm, Hm6, Hm5 by done. done.
      * rewrite Hrpm, (H7 m), Hm6 by done. done.
    + intros n Hn. unfold pane_fds in Hn; cbn [st_master st_writer st_reader st_reply_fd] in Hn; rewrite !not_elem_of_cons in Hn. destruct Hn as (Hn1 & Hn2 & Hn3 & Hn4 & _). rewrite close_opt_at, H7, H6, H5, F1 by done.
      repeat case_decide; naive_solver.
  - assert (Hs3 : ∀ n, fd_at s3 n = fd_at s2 n) by (by eapply spawn_keeps_fds).
    intros [= <- <-] n. unfold drop_prepared. rewrite !close_opt_at, !close_fd_at, Hs3. unfold of_launch.
    destruct (decide (n = m)) as [->|]; [by rewrite Hm; repeat case_decide|]. destruct (decide (n = sl)) as [->|]; [by rewrite Hsl; repeat case_decide|].
    rewrite Hs2 by done. repeat case_decide; naive_solver.
Qed.

End Child.

(** ** An instance, and examples *)

Record Proc := mkProc { pr_fds : gmap Z (list byte); pr_dir : list byte; pr_tty : option (list byte) }.

Definition pts_prefix : list byte := ascii "/dev/pts/".

Definition proc_act (a : Action) (s : Proc) : option Proc :=
  match a with
  | AChdir d => Some (mkProc (pr_fds s) d (pr_tty s))
  | AOpen fd p =>
      Some (mkProc (<[fd := p]> (pr_fds s)) (pr_dir s)
        (match pr_tty s with None => if bool_decide (pts_prefix `prefix_of` p) then Some p else None | Some t => Some t end))
  | ADup2 a b => match pr_fds s !! a with Some f => Some (mkProc (<[b := f]> (pr_fds s)) (pr_dir s) (pr_tty s)) | None => None end
  | ACloseFrom fd => Some (mkProc (filter (λ kv, fst kv < fd) (pr_fds s)) (pr_dir s) (pr_tty s))
  end.

Definition proc_dup (s : Proc) (fd min : Z) : option (Proc * Z) :=
  let n := Z.max min (1 + foldr Z.max 0 (elements (dom (pr_fds s)))) in
  match pr_fds s !! fd with Some f => Some (mkProc (<[n := f]> (pr_fds s)) (pr_dir s) (pr_tty s), n) | None => None end.

Lemma above_all (l : list Z) n : n ∈ l → n ≤ foldr Z.max 0 l.
Proof. intros Hn. induction Hn as [|x y l _ IH]; simpl; lia. Qed.

#[global, refine] Instance proc_spawn : PosixSpawn Proc (list byte) := {|
  fd_at s n := pr_fds s !! n;
  workdir := pr_dir;
  ctty := pr_tty;
  opened p := p;
  is_tty p := bool_decide (pts_prefix `prefix_of` p);
  act := proc_act;
  dup_fd := proc_dup;
  close_fd s fd := mkProc (delete fd (pr_fds s)) (pr_dir s) (pr_tty s);
  fork_setsid s := mkProc (pr_fds s) (pr_dir s) None;
|}.
Proof.
  - intros d s s' [= <-]. done.
  - intros fd p s s' [= <-]. simpl. split; [done|]. split; [by intros -> ->|]. split; [by rewrite lookup_insert_eq|].
    intros n Hn. by rewrite lookup_insert_ne.
  - intros a b s s'. simpl. destruct (pr_fds s !! a) eqn:E; [|done]. intros [= <-]. simpl. split; [done|]. split; [done|].
    split; [by rewrite lookup_insert_eq|]. intros n Hn. by rewrite lookup_insert_ne.
  - intros fd s s' [= <-]. simpl. split; [done|]. split; [done|]. intros n. destruct (Z.leb_spec fd n) as [Hle|Hlt].
    + apply map_lookup_filter_None. right. intros f _. simpl. lia.
    + destruct (pr_fds s !! n) as [f|] eqn:E; [by apply map_lookup_filter_Some|]. apply map_lookup_filter_None. by left.
  - intros s fd mn s' n. unfold proc_dup. destruct (pr_fds s !! fd) as [f|] eqn:E; [|done]. intros [= <- <-]. simpl.
    set (top := foldr Z.max 0 _). assert (Hfree : pr_fds s !! Z.max mn (1 + top) = None).
    { apply not_elem_of_dom. intros Hin. apply elem_of_elements, above_all in Hin. fold top in Hin. lia. }
    split; [lia|]. split; [done|]. split; [by rewrite lookup_insert_eq|]. intros m Hm. by rewrite lookup_insert_ne.
  - intros s fd n. simpl. case_decide; [subst; apply lookup_delete_eq|by apply lookup_delete_ne].
  - done.
  - done.
Defined.

(** A daemon with no standard input and a secret, and a pane with its input from a file. *)
Definition sample_vars : list (list byte * list byte) :=
  [(PATH, ascii "/nowhere:/bin"); (TYMUXD_TOKEN, ascii "s3cret"); (HOME, ascii "/root"); (SHELL, ascii "/bin/false")].
Definition sample_daemon : Proc := mkProc {[ 1 := ascii "/var/log/tymuxd"; 2 := ascii "/var/log/tymuxd"; 7 := ascii "/srv/input"; 8 := ascii "ptmx" ]} (ascii "/") None.
Definition sample_start : Launch := mkLaunch [] {[ ascii "TERM" := ascii "xterm" ]} [] None (Some (ascii "/srv/input")) false.
Definition sample_files : PreparedLaunch Z := mkPrepared [ascii "-n"; ascii "1"] None (Some 7) None.
Definition sample_meta (p : list byte) : option (bool * Z) := if bool_decide (p = ascii "/bin/cat") then Some (true, 493) else None.

Definition sample_spawn : Proc * result (Started Proc) SpawnError :=
  spawn_on_pty sample_vars (ascii "/bin/sh") sample_meta (λ _, false) (λ d, bool_decide (d = ascii "/srv")) None (Some (ascii "/dev/pts/3"))
    (ascii "cat") sample_start sample_files (Some (ascii "/srv")) sample_daemon.

Definition sample_child : Started Proc :=
  mkChild (ascii "/bin/cat") [ascii "cat"; ascii "-n"; ascii "1"]
    [ascii "PATH=/nowhere:/bin"; ascii "HOME=/root"; ascii "SHELL=/bin/sh"; ascii "TERM=xterm"]
    (mkProc {[ 0 := ascii "/srv/input"; 1 := ascii "/dev/pts/3"; 2 := ascii "/dev/pts/3" ]} (ascii "/srv") (Some (ascii "/dev/pts/3")))
    signals_defaulted.

Lemma sample_spawn_eq : sample_spawn = (mkProc (pr_fds (fst sample_spawn)) (ascii "/") None, Ok sample_child).
Proof. vm_compute. reflexivity. Qed.

Lemma child_gets_its_launch_witness :
  snd sample_spawn = Ok sample_child ∧ (∀ n, fd_at (fst sample_spawn) n = fd_at sample_daemon n) ∧
  fd_at (c_state sample_child) 0 = Some (ascii "/srv/input") ∧ fd_at (c_state sample_child) 2 = Some (ascii "/dev/pts/3") ∧
  ∃ env, c_envp sample_child = env_entry <$> env ∧ env_get env TYMUXD_TOKEN = None.
Proof.
  assert (Hoi : file_open sample_daemon (Some 7)) by (intros f [= <-]; vm_compute; by eexists).
  assert (Hoe : file_open sample_daemon None) by done.
  destruct (child_gets_its_launch sample_vars (ascii "/bin/sh") sample_meta (λ _, false) (λ d, bool_decide (d = ascii "/srv")) None (ascii "/dev/pts/3")
    (ascii "cat") sample_start sample_files (Some (ascii "/srv")) sample_daemon (fst sample_spawn) (Ok sample_child)) as [Hfd Hc].
  - vm_compute. reflexivity.
  - exact Hoe.
  - exact Hoi.
  - rewrite sample_spawn_eq. exact sample_spawn_eq.
  - destruct Hc as (env & He & Hg & _ & _ & _ & _ & H0 & _ & H2 & _).
    split; [rewrite sample_spawn_eq; reflexivity|]. split; [exact Hfd|]. split; [rewrite H0; vm_compute; reflexivity|].
    split; [rewrite H2; vm_compute; reflexivity|]. exists env. split; [exact He|]. rewrite Hg. vm_compute. reflexivity.
Defined.

(** Every candidate of the search path was tried in order, and the first executable one taken. *)
Lemma search_path_first metadata exists_ exe cwd path r :
  is_absolute exe = false → exists_ (path_push cwd exe) = false → search_path metadata exists_ exe cwd (Some path) = Ok r →
  ∃ before dir after, split_paths path = before ++ dir :: after ∧ r = path_push dir exe ∧ executable metadata r = true ∧
    Forall (λ d, executable metadata (path_push d exe) = false) before.
Proof.
  unfold search_path. intros -> ->. cbn [negb]. destruct (list_find _ _) as [[i c]|] eqn:E; [|done]. intros [= <-].
  apply list_find_Some in E as (Hi & Hx & Hlt). rewrite list_lookup_fmap in Hi. destruct (split_paths path !! i) as [dir|] eqn:Ed; [|done].
  injection Hi as <-. exists (take i (split_paths path)), dir, (drop (S i) (split_paths path)). split; [by rewrite take_drop_middle|].
  split; [done|]. split; [done|]. apply Forall_lookup. intros k d Hk. apply lookup_take_Some in Hk as [Hk Hki].
  apply not_true_iff_false. apply (Hlt k); [|done]. by rewrite list_lookup_fmap, Hk.
Qed.

(** The child's limit is never raised. *)
Lemma child_limit_never_raised want cur ok l : child_nofile_limit want (Some cur) ok = Some l → l ≤ cur.
Proof. unfold child_nofile_limit. repeat case_match; intros [= <-]; lia. Qed.

(** In the working directory a name need only exist: a directory hides the program of the same
    name in the search path, and what was found cannot be executed. *)
Lemma directory_hides_program :
  let here p := bool_decide (p = ascii "/srv/cat") in
  search_path sample_meta here (ascii "cat") (ascii "/srv") (Some (ascii "/bin")) = Ok (ascii "/srv/cat") ∧
  executable sample_meta (ascii "/srv/cat") = false ∧ executable sample_meta (ascii "/bin/cat") = true.
Proof. vm_compute. done. Qed.
