(* ===== verification/VtLinks.v ===== *)
(** * Titles and hyperlinks of the terminal ([crates/vt100/src/screen.rs], [perform.rs])

    The part of the screen's state that operating-system commands (OSC) set: the title and the
    table of hyperlink targets, which cells refer to by a 1-based index. The table is bounded;
    when it is full, entries nothing refers to are dropped and the cells renumbered, with a
    backoff after a scan that reclaims nothing. Text is a list of characters, its length in
    bytes that of its UTF-8 encoding. *)

From S2P Require Import Prelude VtCell VtRow VtGrid VtGridInv VtScreen.

(** ** Text *)

(** [char::is_control]. *)
Definition is_control (c : Z) : bool := (0 <=? c) && (c <=? 31) || (127 <=? c) && (c <=? 159).

(** [str::len]. *)
Definition byte_len (cs : list Z) : Z := Z.of_nat (length (encode_all cs)).

(** [String::from_utf8_lossy], one character at a time: the character read from a first byte
    and what follows it, and how many of the following bytes it takes. What is not UTF-8 is
    replaced as far as it is the beginning of a character. *)
Definition second_ok (b b1 : byte) : bool :=
  is_tail b1 && negb ((b =? 224) && (b1 <? 160)) && negb ((b =? 237) && (159 <? b1))
  && negb ((b =? 240) && (b1 <? 144)) && negb ((b =? 244) && (143 <? b1)).

Definition REPLACEMENT : Z := 65533.

Definition next_lossy (b : byte) (r : list byte) : Z * nat :=
  if b <=? 127 then (b, 0%nat)
  else if (194 <=? b) && (b <=? 223) then
    match r with
    | b1 :: _ => if is_tail b1 then ((b - 192) * 64 + (b1 - 128), 1%nat) else (REPLACEMENT, 0%nat)
    | [] => (REPLACEMENT, 0%nat)
    end
  else if (224 <=? b) && (b <=? 239) then
    match r with
    | b1 :: r =>
        if second_ok b b1 then
          match r with
          | b2 :: _ => if is_tail b2 then ((b - 224) * 4096 + (b1 - 128) * 64 + (b2 - 128), 2%nat) else (REPLACEMENT, 1%nat)
          | [] => (REPLACEMENT, 1%nat)
          end
        else (REPLACEMENT, 0%nat)
    | [] => (REPLACEMENT, 0%nat)
    end
  else if (240 <=? b) && (b <=? 244) then
    match r with
    | b1 :: r =>
        if second_ok b b1 then
          match r with
          | b2 :: r =>
              if is_tail b2 then
                match r with
                | b3 :: _ =>
                    if is_tail b3 then ((b - 240) * 262144 + (b1 - 128) * 4096 + (b2 - 128) * 64 + (b3 - 128), 3%nat)
                    else (REPLACEMENT, 2%nat)
                | [] => (REPLACEMENT, 2%nat)
                end
              else (REPLACEMENT, 1%nat)
          | [] => (REPLACEMENT, 1%nat)
          end
        else (REPLACEMENT, 0%nat)
    | [] => (REPLACEMENT, 0%nat)
    end
  else (REPLACEMENT, 0%nat).

(** A round takes at least one byte, so the number of bytes is fuel enough. *)
Fixpoint lossy_from (fuel : nat) (l : list byte) : list Z :=
  match fuel, l with
  | S fuel, b :: r => let '(c, k) := next_lossy b r in c :: lossy_from fuel (drop k r)
  | _, _ => []
  end.

Definition from_utf8_lossy (l : list byte) : list Z := lossy_from (length l) l.

(** [str::split] at a character, and [str::strip_prefix]. *)
Fixpoint split_on (sep : Z) (cs : list Z) : list (list Z) :=
  match cs with
  | [] => [[]]
  | c :: cs =>
      if c =? sep then [] :: split_on sep cs
      else match split_on sep cs with piece :: rest => (c :: piece) :: rest | [] => [[c]] end
  end.

Fixpoint strip_prefix (p cs : list Z) : option (list Z) :=
  match p, cs with
  | [], _ => Some cs
  | a :: p, c :: cs => if a =? c then strip_prefix p cs else None
  | _ :: _, [] => None
  end.

(** ** State *)

Abbreviation Link := (list Z * list Z)%type (only parsing).

Definition MAX_HYPERLINKS : Z := 4096.
Definition MAX_COMPACT_SKIP : Z := 1024.
Definition MAX_TITLE_BYTES : Z := 1024.
Definition MAX_URI_BYTES : Z := 8192.
Definition MAX_LINK_ID_BYTES : Z := 256.
Definition MAX_OSC_PARAMS : Z := 16.

(** The fields of [Screen] that the other sequences do not touch. *)
Record Labels := mkLabels {
  hyperlinks : list Link;
  compact_skip : Z;
  compact_delay : Z;
  compact_freed_mark : Z;
  title : list Z;
}.
Definition labels_new : Labels := mkLabels [] 0 0 0 [].

Record Term := mkTerm { screen : Screen; labels : Labels }.

Definition term_new (sz : Size) (sb_len : Z) : option Term :=
  let! s := screen_new sz sb_len in Some (mkTerm s labels_new).

Definition with_hyperlink (a : Attrs) (i : Z) : Attrs :=
  mkAttrs (fgcolor a) (bgcolor a) (ulcolor a) (mode a) (underline_style a) i.

Definition with_saved_attrs (s : Screen) (a : Attrs) : Screen :=
  mkScreen (grid s) (alternate_grid s) (attrs s) a (charsets s) (saved_charsets s) (last_base s) (last_marks s)
    (last_cluster_live s) (cursor_style s) (modes s) (mouse_protocol_mode s) (mouse_protocol_encoding s).

Definition set_link (t : Term) (i : Z) : Term :=
  mkTerm (with_attrs (screen t) (with_hyperlink (attrs (screen t)) i)) (labels t).

Definition with_table (l : Labels) (es : list Link) : Labels :=
  mkLabels es (compact_skip l) (compact_delay l) (compact_freed_mark l) (title l).
Definition with_backoff (l : Labels) (skip delay : Z) : Labels :=
  mkLabels (hyperlinks l) skip delay (compact_freed_mark l) (title l).

(** What an index refers to. *)
Definition link_at (es : list Link) (i : Z) : option Link := if 1 <=? i then es !! Z.to_nat (i - 1) else None.
Definition term_hyperlink (t : Term) (i : Z) : option Link := link_at (hyperlinks (labels t)) i.

(** ** Compaction *)

(** Every stored cell: the rows and the scrollback. *)
Definition grid_cells (g : Grid) : list Cell := concat (cells <$> (g_rows g ++ scrollback g)).

Definition cell_link (c : Cell) : Z := hyperlink (cell_attrs c).

(** Every index the screen refers to links by. *)
Definition all_links (s : Screen) : list Z :=
  hyperlink (attrs s) :: hyperlink (saved_attrs s) :: (cell_link <$> (grid_cells (grid s) ++ grid_cells (alternate_grid s))).

Definition live_entries (n : nat) (links : list Z) : list bool :=
  <[0%nat := false]> (foldl (λ live i, <[Z.to_nat i := true]> live) (replicate (S n) false) links).

(** The entries kept, and the new index of every old one (0 for one that is dropped). *)
Fixpoint keep_live (live : list bool) (kept : Z) (es : list Link) : list Link * list Z :=
  match live, es with
  | l :: live, e :: es =>
      if l then let '(k, r) := keep_live live (kept + 1) es in (e :: k, (kept + 1) :: r)
      else let '(k, r) := keep_live live kept es in (k, 0 :: r)
  | _, _ => ([], [])
  end.

Definition renumber (remap : list Z) (i : Z) : Z := default 0 (remap !! Z.to_nat i).

Definition relink_cell (f : Z → Z) (c : Cell) : Cell := if cell_link c =? 0 then c else set_hyperlink c (f (cell_link c)).
Definition relink_row (f : Z → Z) (r : Row) : Row := mkRow (relink_cell f <$> cells r) (wrapped r).
Definition relink_grid (f : Z → Z) (g : Grid) : Grid :=
  with_scrollback (with_rows g (relink_row f <$> g_rows g)) (relink_row f <$> scrollback g) (scrollback_offset g).

Definition relink (f : Z → Z) (s : Screen) : Screen :=
  let s := with_saved_attrs (with_attrs s (with_hyperlink (attrs s) (f (hyperlink (attrs s)))))
             (with_hyperlink (saved_attrs s) (f (hyperlink (saved_attrs s)))) in
  with_grids s (relink_grid f (grid s)) (relink_grid f (alternate_grid s)).

Definition compact_hyperlinks (t : Term) : Term * bool :=
  let es := hyperlinks (labels t) in
  let live := live_entries (length es) (all_links (screen t)) in
  if forallb negb live then (mkTerm (screen t) (with_table (labels t) []), true)
  else if forallb id (tail live) then (t, false)
  else
    let '(kept, remap) := keep_live (tail live) 0 es in
    (mkTerm (relink (renumber (0 :: remap)) (screen t)) (with_table (labels t) kept), true).

(** ** Operating-system commands *)

Definition screen_freed_rows (s : Screen) : Z := freed_rows (grid s) + freed_rows (alternate_grid s).

Definition find_link (es : list Link) (l : Link) : option nat := fst <$> list_find (λ e, e = l) es.

(** Makes room in a full table, unless a scan would be futile; [None] is the subtraction
    below zero of the row counts. *)
Definition reclaim (t : Term) : option Term :=
  let l := labels t in
  let freed := screen_freed_rows (screen t) in
  if freed <? compact_freed_mark l then None
  else
    let l := if MIN_REARM_ROWS <=? freed - compact_freed_mark l then with_backoff l 0 0 else l in
    let t := mkTerm (screen t) l in
    Some (if 0 <? compact_skip l then mkTerm (screen t) (with_backoff l (compact_skip l - 1) (compact_delay l))
          else
            let '(t, reclaimed) := compact_hyperlinks t in
            let l := labels t in
            if reclaimed : bool then mkTerm (screen t) (with_backoff l (compact_skip l) 0)
            else
              let delay := clamp 1 MAX_COMPACT_SKIP (compact_delay l * 2) in
              mkTerm (screen t) (mkLabels (hyperlinks l) delay delay (screen_freed_rows (screen t)) (title l))).

Definition link_refused (uri id : list Z) : bool :=
  (MAX_URI_BYTES <? byte_len uri) || (MAX_LINK_ID_BYTES <? byte_len id) || existsb is_control uri || existsb is_control id.

(** ["id="] *)
Definition ID_PREFIX : list Z := [105; 100; 61].
Definition link_id (params : list Z) : list Z := default [] (head (omap (strip_prefix ID_PREFIX) (split_on 58 params))).

Definition table_full (t : Term) : bool := MAX_HYPERLINKS <=? Z.of_nat (length (hyperlinks (labels t))).

(** Opens the link to [(uri, id)], both checked. *)
Definition open_link (t : Term) (uri id : list Z) : option Term :=
  match find_link (hyperlinks (labels t)) (uri, id) with
  | Some i => Some (set_link t (Z.of_nat i + 1))
  | None =>
      let! t := (if table_full t then reclaim t else Some t) in
      if table_full t then Some (set_link t 0)
      else
        match find_link (hyperlinks (labels t)) (uri, id) with
        | Some i => Some (set_link t (Z.of_nat i + 1))
        | None =>
            let es := hyperlinks (labels t) ++ [(uri, id)] in
            Some (set_link (mkTerm (screen t) (with_table (labels t) es)) (Z.of_nat (length es)))
        end
  end.

Definition osc8 (t : Term) (params uri : list byte) : option Term :=
  let t := mkTerm (break_rep (screen t)) (labels t) in
  match uri with
  | [] => Some (set_link t 0)
  | _ =>
      match decode_utf8 uri, decode_utf8 params with
      | Some uri, Some params =>
          let id := link_id params in
          if link_refused uri id then Some (set_link t 0) else open_link t uri id
      | _, _ => Some (set_link t 0)
      end
  end.

(** The characters that fit the title, in [used] bytes so far. *)
Fixpoint title_fit (used : Z) (cs : list Z) : list Z :=
  match cs with
  | [] => []
  | c :: cs =>
      let used := used + byte_len [c] in
      if MAX_TITLE_BYTES <? used then [] else c :: title_fit used cs
  end.

Definition set_title (t : Term) (s : list byte) : Term :=
  let l := labels t in
  mkTerm (screen t) (mkLabels (hyperlinks l) (compact_skip l) (compact_delay l) (compact_freed_mark l)
                       (title_fit 0 (filter (λ c, is_control c = false) (from_utf8_lossy s)))).

(** [join(&b';')]. *)
Fixpoint join (ps : list (list byte)) : list byte :=
  match ps with
  | [] => []
  | [p] => p
  | p :: ps => p ++ 59 :: join ps
  end.

(** The commands that change the screen; the others only call back. *)
Definition osc_dispatch (t : Term) (params : list (list byte)) : option Term :=
  match params with
  | [48] :: ((_ :: _) as rest) => Some (set_title t (join rest))
  | [50] :: ((_ :: _) as rest) => Some (set_title t (join rest))
  | [56] :: rest =>
      if MAX_OSC_PARAMS <=? Z.of_nat (length params) then osc8 t [] []
      else match rest with
           | osc8_params :: ((_ :: _) as uri) => osc8 t osc8_params (join uri)
           | _ => osc8 t [] []
           end
  | _ => Some t
  end.

(** ** Reading bytes as text *)

Lemma lossy_fuel n m l : (length l ≤ n)%nat → (length l ≤ m)%nat → lossy_from n l = lossy_from m l.
Proof.
  revert m l. induction n as [|n IH]; intros m l Hn Hm; destruct l as [|b r]; simpl in *; try lia; [by destruct m..|].
  destruct m as [|m]; [lia|]. simpl. destruct (next_lossy b r) as [c k]. f_equal.
  apply IH; rewrite length_drop; lia.
Qed.

Lemma lossy_cons b r c k : next_lossy b r = (c, k) → from_utf8_lossy (b :: r) = c :: from_utf8_lossy (drop k r).
Proof.
  intros E. unfold from_utf8_lossy. simpl. rewrite E. f_equal. apply lossy_fuel; [rewrite length_drop; lia|done].
Qed.

(** ** Tables and indices *)

Lemma link_at_Some es i e : link_at es i = Some e ↔ 1 ≤ i ∧ es !! Z.to_nat (i - 1) = Some e.
Proof. unfold link_at. destruct (Z.leb_spec 1 i); naive_solver lia. Qed.

Lemma link_at_nat es j : link_at es (Z.of_nat j + 1) = es !! j.
Proof. unfold link_at. rewrite (proj2 (Z.leb_le _ _)) by lia. f_equal. lia. Qed.

Lemma link_at_beyond es i : i < 1 ∨ Z.of_nat (length es) < i → link_at es i = None.
Proof. intros H. unfold link_at. destruct (Z.leb_spec 1 i); [|done]. apply lookup_ge_None_2. lia. Qed.

Lemma link_at_app es fs i : i ≤ Z.of_nat (length es) → link_at (es ++ fs) i = link_at es i.
Proof. intros H. unfold link_at. destruct (Z.leb_spec 1 i); [|done]. rewrite lookup_app_l by lia. done. Qed.

Lemma find_link_Some es l i : find_link es l = Some i → es !! i = Some l.
Proof.
  unfold find_link. destruct (list_find _ es) as [[j e]|] eqn:Hf; [|done]. intros [= <-].
  by apply list_find_Some in Hf as (Hl & -> & _).
Qed.

(** *** Marking *)

Lemma length_mark live links : length (foldl (λ l i, <[Z.to_nat i := true]> l) live links) = length live.
Proof. revert live. induction links as [|i links IH]; intros live; simpl; [done|]. by rewrite IH, length_insert. Qed.

Lemma mark_spec links live j :
  (j < length live)%nat →
  foldl (λ l i, <[Z.to_nat i := true]> l) live links !! j = Some true ↔
  live !! j = Some true ∨ j ∈ (Z.to_nat <$> links).
Proof.
  revert live. induction links as [|i links IH]; intros live Hj; simpl; [set_solver|].
  rewrite IH by (by rewrite length_insert). rewrite elem_of_cons.
  destruct (decide (j = Z.to_nat i)) as [->|Hne].
  - rewrite list_lookup_insert_eq by done. naive_solver.
  - rewrite list_lookup_insert_ne by done. naive_solver.
Qed.

Lemma length_live n links : length (live_entries n links) = S n.
Proof. unfold live_entries. by rewrite length_insert, length_mark, length_replicate. Qed.

Lemma live_spec n links j :
  (j < n)%nat → live_entries n links !! S j = Some true ↔ S j ∈ (Z.to_nat <$> links).
Proof.
  intros Hj. unfold live_entries. rewrite list_lookup_insert_ne by done.
  rewrite mark_spec by (rewrite length_replicate; lia). rewrite lookup_replicate_2 by lia. naive_solver.
Qed.

Lemma tail_live n links : ∃ live, live_entries n links = false :: live ∧ length live = n.
Proof.
  pose proof (length_live n links) as Hl. destruct (live_entries n links) as [|b live] eqn:E; [done|].
  exists live. split; [|by injection Hl]. f_equal.
  assert (H : live_entries n links !! 0%nat = Some false).
  { unfold live_entries. rewrite list_lookup_insert_eq; [done|]. rewrite length_mark, length_replicate. lia. }
  rewrite E in H. by injection H.
Qed.

(** *** Renumbering *)

Lemma keep_live_lookup live n es k r j e :
  keep_live live n es = (k, r) → length live = length es → es !! j = Some e →
  (live !! j = Some true ∧ ∃ m, r !! j = Some (n + Z.of_nat m + 1) ∧ k !! m = Some e)
  ∨ (live !! j = Some false ∧ r !! j = Some 0).
Proof.
  revert live n k r j. induction es as [|e0 es IH]; intros live n k r j Hk Hl Hj; [done|].
  destruct live as [|l live]; [done|]. simpl in *. injection Hl as Hl.
  destruct l; destruct (keep_live live _ es) as [k0 r0] eqn:E; injection Hk as <- <-;
    (destruct j as [|j]; simpl in *; [injection Hj as <-|]).
  - left. split; [done|]. exists 0%nat. split; [f_equal; lia|done].
  - destruct (IH live (n + 1) k0 r0 j E Hl Hj) as [(? & m & Hr & ?)|?]; [left|by right].
    split; [done|]. exists (S m). split; [rewrite Hr; f_equal; lia|done].
  - by right.
  - exact (IH live n k0 r0 j E Hl Hj).
Qed.

Lemma keep_live_kept live n es k r m :
  keep_live live n es = (k, r) → length live = length es → (m < length k)%nat →
  ∃ j, live !! j = Some true ∧ r !! j = Some (n + Z.of_nat m + 1).
Proof.
  revert live n k r m. induction es as [|e0 es IH]; intros live n k r m Hk Hl Hm; destruct live as [|l live];
    try done; simpl in *; [simplify_eq; simpl in Hm; lia..|].
  injection Hl as Hl. destruct l; destruct (keep_live live _ es) as [k0 r0] eqn:E; injection Hk as <- <-.
  - destruct m as [|m]; [exists 0%nat; split; [done|simpl; f_equal; lia]|].
    simpl in Hm. destruct (IH live (n + 1) k0 r0 m E Hl) as (j & ? & Hr); [lia|].
    exists (S j). split; [done|]. simpl. rewrite Hr. f_equal. lia.
  - destruct (IH live n k0 r0 m E Hl Hm) as (j & ? & ?). by exists (S j).
Qed.

Lemma keep_live_length live n es : length live = length es →
  (length (fst (keep_live live n es)) ≤ length es)%nat ∧
  (length (fst (keep_live live n es)) = length es → forallb id live = true).
Proof.
  revert live n. induction es as [|e es IH]; intros live n Hl; destruct live as [|l live]; try done; simpl in *.
  injection Hl as Hl. destruct l; simpl.
  - destruct (IH live (n + 1) Hl) as [H1 H2]. destruct (keep_live live (n + 1) es) as [k r]. simpl in *.
    split; [lia|]. intros. apply H2. lia.
  - destruct (IH live n Hl) as [H1 _]. destruct (keep_live live n es) as [k r]. simpl in *. split; [lia|]. intros. lia.
Qed.

(** *** What compaction keeps *)

Lemma fmap_concat {A B} (f : A → B) (ls : list (list A)) : f <$> concat ls = concat ((λ l : list A, f <$> l) <$> ls).
Proof. induction ls as [|l ls IH]; [done|]. simpl. by rewrite fmap_app, IH. Qed.

Lemma cell_link_relink f c : f 0 = 0 → cell_link (relink_cell f c) = f (cell_link c).
Proof. intros Hf. unfold relink_cell. destruct (Z.eqb_spec (cell_link c) 0) as [->|]; [|done]. by rewrite Hf. Qed.

Lemma grid_cells_relink f g : grid_cells (relink_grid f g) = relink_cell f <$> grid_cells g.
Proof.
  unfold grid_cells. simpl. rewrite fmap_concat, !fmap_app, !concat_app. f_equal; rewrite <- !list_fmap_compose; done.
Qed.

Lemma all_links_relink f s : f 0 = 0 → all_links (relink f s) = f <$> all_links s.
Proof.
  intros Hf. unfold all_links. cbn [fmap list_fmap]. f_equal. f_equal. rewrite <- list_fmap_compose, !fmap_app.
  unfold relink. cbn [grid alternate_grid with_grids with_saved_attrs with_attrs]. rewrite !grid_cells_relink, <- !list_fmap_compose.
  f_equal; apply list_fmap_ext; intros ? c _; by apply cell_link_relink.
Qed.

(** The screen without its links. *)
Definition bare (s : Screen) : Screen := relink (λ _, 0) s.

Lemma bare_cell f c : f 0 = 0 → relink_cell (λ _, 0) (relink_cell f c) = relink_cell (λ _, 0) c.
Proof.
  intros Hf. destruct c as [b l [? ? ? ? ? i]]. unfold relink_cell, cell_link, set_hyperlink. simpl.
  destruct (Z.eqb_spec i 0) as [->|]; simpl; [done|]. destruct (Z.eqb_spec (f i) 0) as [->|]; done.
Qed.

Lemma bare_row f r : f 0 = 0 → relink_row (λ _, 0) (relink_row f r) = relink_row (λ _, 0) r.
Proof.
  intros Hf. unfold relink_row. simpl. f_equal. rewrite <- list_fmap_compose. apply list_fmap_ext. intros. by apply bare_cell.
Qed.

Lemma bare_grid f g : f 0 = 0 → relink_grid (λ _, 0) (relink_grid f g) = relink_grid (λ _, 0) g.
Proof.
  intros Hf. unfold relink_grid, with_rows, with_scrollback. simpl. rewrite <- !list_fmap_compose.
  f_equal; apply list_fmap_ext; intros; by apply bare_row.
Qed.

Lemma bare_relink f s : f 0 = 0 → bare (relink f s) = bare s.
Proof.
  intros Hf. unfold bare, relink. destruct s. simpl. f_equal; by apply bare_grid.
Qed.

(** What every reference of the screen resolves to: the pen's, the saved pen's, the cells'. *)
Definition resolved (t : Term) : list (option Link) := link_at (hyperlinks (labels t)) <$> all_links (screen t).

Lemma live_all_dead n links i :
  forallb negb (live_entries n links) = true → i ∈ links → i < 1 ∨ Z.of_nat n < i.
Proof.
  intros Hd Hi. destruct (decide (i < 1)) as [|H1]; [by left|]. right. destruct (decide (i ≤ Z.of_nat n)) as [H2|]; [|lia].
  exfalso. assert (Hl : live_entries n links !! S (Z.to_nat (i - 1)) = Some true).
  { apply live_spec; [lia|]. apply list_elem_of_fmap. exists i. split; [lia|done]. }
  rewrite forallb_forall in Hd. apply list_elem_of_lookup_2, list_elem_of_In, Hd in Hl. done.
Qed.

Lemma keep_live_resolves n links es k r i :
  n = length es → keep_live (tail (live_entries n links)) 0 es = (k, r) → i ∈ links →
  link_at k (renumber (0 :: r) i) = link_at es i.
Proof.
  intros -> Hk Hi. destruct (tail_live (length es) links) as (live & Hlive & Hlen).
  rewrite Hlive in Hk. simpl in Hk. destruct (decide (1 ≤ i ≤ Z.of_nat (length es))) as [Hr|Hr].
  - set (j := Z.to_nat (i - 1)). destruct (lookup_lt_is_Some_2 es j) as [e He]; [lia|].
    assert (Hl : live !! j = Some true).
    { pose proof (proj2 (live_spec (length es) links j ltac:(lia))) as Hs. rewrite Hlive in Hs. simpl in Hs. apply Hs.
      apply list_elem_of_fmap. exists i. split; [lia|done]. }
    destruct (keep_live_lookup _ _ _ _ _ _ _ Hk Hlen He) as [(_ & m & Hm & He')|[Hd _]]; [|congruence].
    assert (Hn : renumber (0 :: r) i = Z.of_nat m + 1).
    { unfold renumber. replace (Z.to_nat i) with (S j) by lia. simpl. rewrite Hm. simpl. lia. }
    rewrite Hn, link_at_nat, He'. symmetry. apply link_at_Some. by split; [lia|].
  - rewrite (link_at_beyond es i) by lia. assert (H0 : renumber (0 :: r) i = 0); [|by rewrite H0].
    unfold renumber. destruct ((0 :: r) !! Z.to_nat i) as [x|] eqn:E; [|done].
    destruct (decide (i < 1)) as [H1|H1]; [replace (Z.to_nat i) with 0%nat in E by lia; by injection E|].
    exfalso. apply lookup_lt_Some in E. simpl in E.
    assert (Hlr : length r = length es).
    { clear -Hk Hlen. revert es k r Hk Hlen. generalize 0 as n. induction live as [|b live IH]; intros n es k r Hk Hl;
        destruct es as [|e es]; simpl in *; try done; [by simplify_eq|]. injection Hl as Hl.
      destruct b; destruct (keep_live live _ es) as [k0 r0] eqn:E; injection Hk as <- <-; simpl; f_equal; eauto. }
    lia.
Qed.

Lemma keep_live_referenced n links es k r i :
  n = length es → keep_live (tail (live_entries n links)) 0 es = (k, r) → 1 ≤ i ≤ Z.of_nat (length k) →
  ∃ i0, i0 ∈ links ∧ renumber (0 :: r) i0 = i.
Proof.
  intros -> Hk Hi. destruct (tail_live (length es) links) as (live & Hlive & Hlen). rewrite Hlive in Hk. simpl in Hk.
  destruct (keep_live_kept _ _ _ _ _ (Z.to_nat (i - 1)) Hk Hlen) as (j & Hj & Hr); [lia|].
  assert (Hjn : (j < length es)%nat) by (rewrite <- Hlen; by eapply lookup_lt_Some).
  pose proof (proj1 (live_spec (length es) links j Hjn)) as Hs. rewrite Hlive in Hs. specialize (Hs Hj).
  apply list_elem_of_fmap in Hs as (i0 & Hi0 & Hin). exists i0. split; [done|].
  unfold renumber. rewrite <- Hi0. simpl. rewrite Hr. simpl. lia.
Qed.

(** Every reference is 0 or an index into the table. *)
Definition in_table (t : Term) : Prop :=
  Forall (λ i, 0 ≤ i ≤ Z.of_nat (length (hyperlinks (labels t)))) (all_links (screen t)).

Lemma renumber_range n links es k r i :
  n = length es → keep_live (tail (live_entries n links)) 0 es = (k, r) → 0 ≤ i ≤ Z.of_nat n →
  0 ≤ renumber (0 :: r) i ≤ Z.of_nat (length k).
Proof.
  intros -> Hk Hi. destruct (tail_live (length es) links) as (live & Hlive & Hlen). rewrite Hlive in Hk. simpl in Hk.
  unfold renumber. destruct (decide (i = 0)) as [->|Hne]; [simpl; lia|].
  destruct (lookup_lt_is_Some_2 es (Z.to_nat (i - 1))) as [e He]; [lia|]. replace (Z.to_nat i) with (S (Z.to_nat (i - 1))) by lia.
  simpl. destruct (keep_live_lookup _ _ _ _ _ _ _ Hk Hlen He) as [(_ & m & -> & He')|[_ ->]]; simpl; [|lia].
  apply lookup_lt_Some in He'. lia.
Qed.

Lemma compact_spec t t' reclaimed :
  compact_hyperlinks t = (t', reclaimed) →
  resolved t' = resolved t ∧ bare (screen t') = bare (screen t) ∧
  labels t' = with_table (labels t) (hyperlinks (labels t')) ∧
  (∀ i, 1 ≤ i ≤ Z.of_nat (length (hyperlinks (labels t'))) → i ∈ all_links (screen t')) ∧
  (if reclaimed then hyperlinks (labels t) = [] ∨ (length (hyperlinks (labels t')) < length (hyperlinks (labels t)))%nat
   else t' = t).
Proof.
  destruct t as [s l]. unfold compact_hyperlinks, resolved. cbn [screen labels]. set (es := hyperlinks l).
  set (live := live_entries (length es) (all_links s)). destruct (forallb negb live) eqn:Hdead.
  { intros [= <- <-]. cbn [screen labels hyperlinks with_table]. split; [|split; [done|split; [done|split; [simpl; lia|]]]].
    - apply list_fmap_ext. intros j i Hi. apply list_elem_of_lookup_2 in Hi.
      rewrite (link_at_beyond es i) by (by eapply live_all_dead). apply link_at_beyond. simpl. lia.
    - fold es. clear. clearbody es. destruct es; [by left|right; simpl; lia]. }
  destruct (forallb id (tail live)) eqn:Hall.
  { intros [= <- <-]. cbn [screen labels]. split; [done|split; [done|split; [by destruct l|split; [|done]]]]. intros i Hi.
    destruct (tail_live (length es) (all_links s)) as (lv & Hlv & Hlen). subst live. rewrite Hlv in Hall. simpl in Hall.
    assert (Hj : (Z.to_nat (i - 1) < length es)%nat) by (unfold es; lia).
    pose proof (proj1 (live_spec (length es) (all_links s) _ Hj)) as Hs. rewrite Hlv in Hs.
    destruct (lookup_lt_is_Some_2 lv (Z.to_nat (i - 1))) as [b Hb]; [lia|].
    rewrite forallb_forall in Hall. assert (b = true) as -> by (by apply Hall, list_elem_of_In, (list_elem_of_lookup_2 _ _ _ Hb)).
    specialize (Hs Hb). apply list_elem_of_fmap in Hs as (i0 & Hi0 & Hin). replace i with i0 by lia. done. }
  destruct (keep_live (tail live) 0 es) as [kept remap] eqn:Hk. intros [= <- <-].
  assert (H0 : renumber (0 :: remap) 0 = 0) by done. cbn [screen labels hyperlinks with_table].
  split; [|split; [by apply bare_relink|split; [done|split]]].
  - rewrite all_links_relink, <- list_fmap_compose by done. apply list_fmap_ext. intros j i Hi.
    apply list_elem_of_lookup_2 in Hi. by eapply keep_live_resolves.
  - intros i Hi. destruct (keep_live_referenced _ _ _ _ _ i eq_refl Hk Hi) as (i0 & Hin & <-).
    rewrite all_links_relink by done. apply list_elem_of_fmap. by exists i0.
  - right. destruct (tail_live (length es) (all_links s)) as (lv & Hlv & Hlen).
    pose proof (keep_live_length (tail live) 0 es) as Hkl. subst live. rewrite Hk, Hlv in Hkl. simpl in Hkl.
    destruct (Hkl Hlen) as [H1 H2]. destruct (decide (length kept = length es)) as [E|]; [|unfold es in *; lia].
    rewrite Hlv in Hall. simpl in Hall. rewrite (H2 E) in Hall. done.
Qed.

(** C21. Dropping unused hyperlinks loses no link: every cell of both screens and the
    scrollback, the pen and the saved pen refer to the same target as before, nothing else of
    the screen changes, and exactly the targets something refers to stay in the table. A scan
    that reports success has freed a slot; one that does not has changed nothing. *)
Theorem compaction_keeps_links t t' reclaimed :
  compact_hyperlinks t = (t', reclaimed) →
  resolved t' = resolved t ∧ bare (screen t') = bare (screen t) ∧
  labels t' = with_table (labels t) (hyperlinks (labels t')) ∧
  (∀ i, 1 ≤ i ≤ Z.of_nat (length (hyperlinks (labels t'))) → i ∈ all_links (screen t')) ∧
  (if reclaimed then hyperlinks (labels t) = [] ∨ (length (hyperlinks (labels t')) < length (hyperlinks (labels t)))%nat
   else t' = t).
Proof. apply compact_spec. Qed.

Lemma compact_in_table t t' b : compact_hyperlinks t = (t', b) → in_table t → in_table t'.
Proof.
  destruct t as [s l]. unfold compact_hyperlinks, in_table. cbn [screen labels]. set (es := hyperlinks l).
  destruct (forallb negb _) eqn:Hdead; [|destruct (forallb id _); [by intros [= <- <-]|]].
  - intros [= <- <-] Hin. cbn [screen labels hyperlinks with_table]. rewrite Forall_forall in *. intros i Hi. specialize (Hin i Hi).
    pose proof (live_all_dead _ _ _ Hdead Hi). simpl. lia.
  - destruct (keep_live _ 0 es) as [kept remap] eqn:Hk. intros [= <- <-] Hin. cbn [screen labels hyperlinks with_table].
    rewrite all_links_relink by done. apply Forall_fmap. eapply Forall_impl; [exact Hin|]. intros i Hi.
    by eapply renumber_range.
Qed.

(** ** Opening a link *)

Definition title_ok (cs : list Z) : Prop := byte_len cs ≤ MAX_TITLE_BYTES ∧ Forall (λ c, is_control c = false) cs.

Record labels_ok (t : Term) : Prop := {
  lo_table : in_table t;
  lo_bound : Z.of_nat (length (hyperlinks (labels t))) ≤ MAX_HYPERLINKS;
  lo_mark : compact_freed_mark (labels t) ≤ screen_freed_rows (screen t);
  lo_title : title_ok (title (labels t));
}.

(** The cells and the saved pen show the same links. *)
Definition same_links (t t' : Term) : Prop :=
  bare (screen t') = bare (screen t) ∧ tail (resolved t') = tail (resolved t).

#[export] Instance same_links_refl : Reflexive same_links.
Proof. by intros t. Qed.
#[export] Instance same_links_trans : Transitive same_links.
Proof. intros t1 t2 t3 [A1 A2] [B1 B2]. split; congruence. Qed.

Lemma freed_bare s s' : bare s' = bare s → screen_freed_rows s' = screen_freed_rows s.
Proof. intros H. change (screen_freed_rows (bare s') = screen_freed_rows (bare s)). by rewrite H. Qed.

Lemma set_link_ok t i :
  labels_ok t → 0 ≤ i ≤ Z.of_nat (length (hyperlinks (labels t))) →
  labels_ok (set_link t i) ∧ same_links t (set_link t i) ∧
  term_hyperlink (set_link t i) (hyperlink (attrs (screen (set_link t i)))) = term_hyperlink t i.
Proof.
  intros [H1 H2 H3 H4] Hi. split; [|done]. split; try done. unfold in_table, all_links in *.
  apply Forall_cons in H1 as [_ H1]. by apply Forall_cons.
Qed.

Lemma push_link_ok t l :
  labels_ok t → table_full t = false →
  let t' := mkTerm (screen t) (with_table (labels t) (hyperlinks (labels t) ++ [l])) in
  labels_ok t' ∧ same_links t t' ∧ term_hyperlink t' (Z.of_nat (length (hyperlinks (labels t'))) ) = Some l.
Proof.
  intros [H1 H2 H3 H4] Hf. unfold table_full in Hf. b2p. unfold in_table in H1. cbv zeta.
  split; [split|split; [split; [done|]|]]; cbn [screen labels hyperlinks with_table compact_freed_mark title]; try done.
  - unfold in_table. cbn [screen labels hyperlinks with_table]. eapply Forall_impl; [exact H1|]. intros i. simpl. rewrite length_app. simpl. lia.
  - rewrite length_app. simpl. lia.
  - f_equal. unfold resolved. cbn [screen labels hyperlinks with_table]. apply list_fmap_ext. intros j i Hi.
    apply list_elem_of_lookup_2 in Hi. rewrite Forall_forall in H1. apply link_at_app, H1, Hi.
  - unfold term_hyperlink. cbn [screen labels hyperlinks with_table]. rewrite length_app. simpl.
    replace (Z.of_nat (length (hyperlinks (labels t)) + 1)) with (Z.of_nat (length (hyperlinks (labels t))) + 1) by lia.
    rewrite link_at_nat, lookup_app_r, Nat.sub_diag by done. done.
Qed.

Lemma backoff_ok t skip delay mark :
  labels_ok t → mark ≤ screen_freed_rows (screen t) →
  let t' := mkTerm (screen t) (mkLabels (hyperlinks (labels t)) skip delay mark (title (labels t))) in
  labels_ok t' ∧ same_links t t'.
Proof. intros [H1 H2 H3 H4] Hm. by split; [split|]. Qed.

Lemma compact_ok t t' b : compact_hyperlinks t = (t', b) → labels_ok t → labels_ok t' ∧ same_links t t'.
Proof.
  intros Hc Hok. pose proof (compact_in_table _ _ _ Hc (lo_table _ Hok)) as Hin.
  destruct (compact_spec _ _ _ Hc) as (Hr & Hb & Hl & _ & Hs). destruct Hok as [H1 H2 H3 H4].
  split; [split; [done| | |]|split; [done|by rewrite Hr]].
  - destruct b; [|congruence]. destruct Hs as [E|]; [|lia]. clear -Hc E H2.
    destruct t as [s l]. unfold compact_hyperlinks in Hc. cbn [screen labels] in *. rewrite E in Hc. simpl in Hc.
    destruct (tail_live 0 (all_links s)) as (lv & Hlv & Hlen). rewrite Hlv in Hc. destruct lv; [|done]. simpl in Hc.
    injection Hc as <-. unfold MAX_HYPERLINKS. simpl. lia.
  - rewrite Hl. simpl. by rewrite (freed_bare _ _ Hb).
  - by rewrite Hl.
Qed.

Lemma reclaim_ok t : labels_ok t → ∃ t', reclaim t = Some t' ∧ labels_ok t' ∧ same_links t t'.
Proof.
  intros Hok. unfold reclaim. cbv zeta. pose proof (lo_mark _ Hok) as Hm. rewrite (proj2 (Z.ltb_ge _ _)) by done.
  set (l := if _ <=? _ then _ else labels t). assert (Hl : labels_ok (mkTerm (screen t) l) ∧ same_links t (mkTerm (screen t) l)).
  { subst l. destruct (_ <=? _); [by apply backoff_ok|by destruct t]. }
  clearbody l. destruct Hl as [Hl1 Hl2]. eexists. split; [done|]. destruct (0 <? compact_skip l).
  - destruct (backoff_ok _ (compact_skip l - 1) (compact_delay l) (compact_freed_mark l) Hl1 (lo_mark _ Hl1)) as [A B].
    split; [exact A|]. by etrans.
  - destruct (compact_hyperlinks _) as [t1 b] eqn:Hc. destruct (compact_ok _ _ _ Hc Hl1) as [A B].
    assert (Hall : ∀ skip delay mark, mark ≤ screen_freed_rows (screen t1) →
      labels_ok (mkTerm (screen t1) (mkLabels (hyperlinks (labels t1)) skip delay mark (title (labels t1)))) ∧
      same_links t (mkTerm (screen t1) (mkLabels (hyperlinks (labels t1)) skip delay mark (title (labels t1))))).
    { intros skip delay mark Hmk. destruct (backoff_ok t1 skip delay mark A Hmk) as [C D]. split; [exact C|]. by do 2 (etrans; [done|]). }
    destruct b; apply Hall; [apply A|done].
Qed.

Definition pen_link (t : Term) : option Link := term_hyperlink t (hyperlink (attrs (screen t))).

Lemma find_set_ok t l i :
  labels_ok t → find_link (hyperlinks (labels t)) l = Some i →
  let t' := set_link t (Z.of_nat i + 1) in labels_ok t' ∧ same_links t t' ∧ pen_link t' = Some l.
Proof.
  intros Hok Hf%find_link_Some. pose proof (lookup_lt_Some _ _ _ Hf). unfold pen_link.
  destruct (set_link_ok t (Z.of_nat i + 1) Hok) as (A & B & C); [lia|]. split; [exact A|]. split; [exact B|].
  rewrite C. unfold term_hyperlink. by rewrite link_at_nat.
Qed.

(** The pen has a link to [want], or none because the table is full. *)
Definition opened (t : Term) (want : option Link) (t' : Term) : Prop :=
  labels_ok t' ∧ same_links t t' ∧ (pen_link t' = want ∨ pen_link t' = None ∧ table_full t' = true).

Lemma no_link_opened t : labels_ok t → opened t None (set_link t 0).
Proof. intros Hok. destruct (set_link_ok t 0 Hok) as (A & B & C); [lia|]. split; [exact A|]. split; [exact B|by left]. Qed.

Lemma opened_trans t t1 want t2 : same_links t t1 → opened t1 want t2 → opened t want t2.
Proof. intros H (A & B & C). split; [done|]. split; [by etrans|done]. Qed.

Lemma push_opened t l :
  labels_ok t → table_full t = false →
  let es := hyperlinks (labels t) ++ [l] in
  opened t (Some l) (set_link (mkTerm (screen t) (with_table (labels t) es)) (Z.of_nat (length es))).
Proof.
  intros Hok Hf es. subst es. destruct (push_link_ok t l Hok Hf) as (A & B & C).
  set (t1 := mkTerm _ _) in *. destruct (set_link_ok t1 (Z.of_nat (length (hyperlinks (labels t1)))) A) as (D & E & F); [lia|].
  eapply opened_trans; [exact B|]. split; [exact D|]. split; [exact E|]. left. unfold pen_link. etrans; [exact F|exact C].
Qed.

Lemma open_link_ok t uri id : labels_ok t → ∃ t', open_link t uri id = Some t' ∧ opened t (Some (uri, id)) t'.
Proof.
  intros Hok. unfold open_link. destruct (find_link _ _) as [i|] eqn:Hf.
  { destruct (find_set_ok _ _ _ Hok Hf) as (A & B & C). eexists. split; [done|]. by split; [|split; [|left]]. }
  assert (H1 : ∃ t1, (if table_full t then reclaim t else Some t) = Some t1 ∧ labels_ok t1 ∧ same_links t t1).
  { destruct (table_full t); [by apply reclaim_ok|by exists t]. }
  destruct H1 as (t1 & -> & Hok1 & Hs). destruct (table_full t1) eqn:Hfull.
  { eexists. split; [done|]. destruct (set_link_ok t1 0 Hok1) as (A & B & C); [lia|].
    eapply opened_trans; [exact Hs|]. split; [exact A|]. split; [exact B|]. right. split; [exact C|exact Hfull]. }
  destruct (find_link (hyperlinks (labels t1)) _) as [i|] eqn:Hf1.
  - destruct (find_set_ok _ _ _ Hok1 Hf1) as (A & B & C). eexists. split; [done|]. eapply opened_trans; [exact Hs|].
    by split; [|split; [|left]].
  - eexists. split; [done|]. eapply opened_trans; [exact Hs|]. by apply push_opened.
Qed.

(** What a program asks for with OSC 8: nothing when the target is empty, not text, too long
    or holds control characters. *)
Definition asked_link (params uri : list byte) : option Link :=
  match uri, decode_utf8 uri, decode_utf8 params with
  | _ :: _, Some u, Some ps => if link_refused u (link_id ps) then None else Some (u, link_id ps)
  | _, _, _ => None
  end.

Lemma break_rep_labels t : labels_ok t → labels_ok (mkTerm (break_rep (screen t)) (labels t)).
Proof. by intros [H1 H2 H3 H4]. Qed.

Lemma osc8_ok t params uri : labels_ok t →
  ∃ t', osc8 t params uri = Some t' ∧ opened (mkTerm (break_rep (screen t)) (labels t)) (asked_link params uri) t'.
Proof.
  intros Hok%break_rep_labels. unfold osc8, asked_link. set (t0 := mkTerm _ _) in *.
  destruct uri as [|b uri]; [eexists; split; [done|by apply no_link_opened]|].
  destruct (decode_utf8 (b :: uri)) as [u|], (decode_utf8 params) as [ps|];
    try (eexists; split; [done|by apply no_link_opened]).
  destruct (link_refused u (link_id ps)); [eexists; split; [done|by apply no_link_opened]|].
  by apply open_link_ok.
Qed.

(** Opening a hyperlink affects no link already on the screen: OSC 8 never panics; every
    cell of both screens and the scrollback, and the saved pen, still refer to the target they
    referred to; the table stays within its limit; and the pen then refers to exactly the
    target asked for, or to none when the request is empty or malformed, or when 4096 targets
    are in use. *)
Theorem osc8_opens_link t params uri :
  labels_ok t →
  ∃ t', osc8 t params uri = Some t' ∧
    tail (resolved t') = tail (resolved t) ∧ bare (screen t') = bare (break_rep (screen t)) ∧
    Z.of_nat (length (hyperlinks (labels t'))) ≤ MAX_HYPERLINKS ∧ in_table t' ∧
    (pen_link t' = asked_link params uri ∨ pen_link t' = None ∧ table_full t' = true).
Proof.
  intros Hok. destruct (osc8_ok t params uri Hok) as (t' & E & [H1 H2 H3 H4] & [Hb Hr] & Hp).
  exists t'. split; [done|]. split; [done|]. split; [done|]. split; [done|]. by split.
Qed.

(** ** Titles *)

Lemma byte_len_cons c cs : byte_len (c :: cs) = byte_len [c] + byte_len cs.
Proof. unfold byte_len. change (c :: cs) with ([c] ++ cs). rewrite encode_all_app, length_app. lia. Qed.

Lemma byte_len_pos cs : 0 ≤ byte_len cs.
Proof. unfold byte_len. lia. Qed.

Lemma title_fit_spec used cs :
  used ≤ MAX_TITLE_BYTES →
  ∃ rest, cs = title_fit used cs ++ rest ∧ used + byte_len (title_fit used cs) ≤ MAX_TITLE_BYTES ∧
    (∀ c rest', rest = c :: rest' → MAX_TITLE_BYTES < used + byte_len (title_fit used cs) + byte_len [c]).
Proof.
  revert used. induction cs as [|c cs IH]; intros used Hu; cbn [title_fit].
  { exists []. split; [done|]. split; [unfold byte_len; simpl; lia|done]. }
  destruct (Z.ltb_spec MAX_TITLE_BYTES (used + byte_len [c])) as [Hc|Hc].
  - exists (c :: cs). split; [done|]. change (byte_len []) with 0. split; [lia|]. intros c' rest' [= <- _]. lia.
  - destruct (IH (used + byte_len [c]) Hc) as (rest & Hcs & Hle & Hmax). exists rest.
    rewrite (byte_len_cons c (title_fit _ _)). split; [simpl; by f_equal|]. split; [lia|].
    intros c' rest' E. specialize (Hmax c' rest' E). lia.
Qed.

(** The title is the printable part of what the program sent, cut at the limit between two
    characters and nowhere earlier. *)
Lemma set_title_spec t s :
  ∃ rest, filter (λ c, is_control c = false) (from_utf8_lossy s) = title (labels (set_title t s)) ++ rest ∧
    title_ok (title (labels (set_title t s))) ∧
    (∀ c rest', rest = c :: rest' → MAX_TITLE_BYTES < byte_len (title (labels (set_title t s))) + byte_len [c]).
Proof.
  destruct (title_fit_spec 0 (filter (λ c, is_control c = false) (from_utf8_lossy s))) as (rest & H1 & H2 & H3); [done|].
  exists rest. split; [exact H1|]. split; [split; [cbn [labels title set_title]; lia|]|exact H3].
  assert (Hf : Forall (λ c, is_control c = false) (filter (λ c, is_control c = false) (from_utf8_lossy s))).
  { apply Forall_forall. by intros c [? _]%list_elem_of_filter. }
  rewrite H1 in Hf. by apply Forall_app in Hf as [Hf _].
Qed.

Lemma set_title_ok t s : labels_ok t → labels_ok (set_title t s).
Proof. intros [H1 H2 H3 H4]. destruct (set_title_spec t s) as (_ & _ & Ht & _). by split. Qed.

Lemma osc_dispatch_ok t params : labels_ok t → ∃ t', osc_dispatch t params = Some t' ∧ labels_ok t'.
Proof.
  intros Hok.
  assert (H8 : ∀ ps uri, ∃ t', osc8 t ps uri = Some t' ∧ labels_ok t').
  { intros ps uri. destruct (osc8_ok t ps uri Hok) as (t' & E & H & _). by exists t'. }
  assert (Hs : ∀ s, ∃ t', Some (set_title t s) = Some t' ∧ labels_ok t').
  { intros s. eexists. split; [done|]. by apply set_title_ok. }
  assert (Hn : ∃ t', Some t = Some t' ∧ labels_ok t') by (by exists t).
  unfold osc_dispatch. repeat case_match; auto.
Qed.

(** Text that is UTF-8 is read as it is. *)
Lemma lossy_valid l cs : decode_utf8 l = Some cs → from_utf8_lossy l = cs.
Proof.
  remember (length l) as n eqn:Hn. revert l cs Hn. induction (lt_wf n) as [n _ IH]. intros l cs -> Hd.
  destruct l as [|b r]; [by injection Hd as <-|].
  destruct (next_lossy b r) as [c k] eqn:E. rewrite (lossy_cons _ _ _ _ E).
  assert (Hstep : cons c <$> decode_utf8 (drop k r) = Some cs → c :: from_utf8_lossy (drop k r) = cs).
  { intros (cs0 & Hr & ->)%fmap_Some. f_equal. eapply IH; [|done|exact Hr]. rewrite length_drop. simpl. lia. }
  clear IH. cbn [decode_utf8] in Hd. unfold next_lossy, second_ok, is_tail, is_scalar in *.
  repeat (case_match; try discriminate); simplify_eq; b2p; first [exact (Hstep Hd)|exfalso; lia].
Qed.

(** ** All the events of the tokenizer *)

Inductive term_event := TVt (ev : vt_event) | TOsc (params : list (list byte)).

(** A full reset makes a new screen, labels included. *)
Definition is_ris (ev : vt_event) : bool := match ev with VEsc [] 99 => true | _ => false end.

Definition term_perform `{!UnicodeWidth} (t : Term) (ev : term_event) : option Term :=
  match ev with
  | TOsc params => osc_dispatch t params
  | TVt ev => let! s := vt_perform (screen t) ev in Some (mkTerm s (if is_ris ev then labels_new else labels t))
  end.

Fixpoint term_perform_all `{!UnicodeWidth} (t : Term) (evs : list term_event) : option Term :=
  match evs with
  | [] => Some t
  | ev :: evs => let! t := term_perform t ev in term_perform_all t evs
  end.

(** ** Witnesses *)

(** ["8"], ["id=i"], ["u"], ["v"]; the letters [a] and [b]. *)
Definition osc_open (uri : byte) : term_event := TOsc [[56]; [105; 100; 61; 105]; [uri]].
Definition sample_events : list term_event :=
  [osc_open 117; TVt (VPrint 97); TVt (VExecute 13); osc_open 118; TVt (VPrint 98); TOsc [[50]; [116; 27; 105]]].

Definition sample_term : option Term :=
  let! t := term_new (mkSize 1 3) 0 in @term_perform_all sample_width t sample_events.

(** The first link was overwritten, so only the second is in use. *)
Lemma sample_links :
  (let! t := sample_term in Some (hyperlinks (labels t), all_links (screen t), title (labels t))) =
  Some ([([117], [105]); ([118], [105])], [2; 0; 2; 0; 0], [116; 105]).
Proof. vm_compute. reflexivity. Qed.

Lemma compaction_keeps_links_witness :
  ∃ t t', sample_term = Some t ∧ compact_hyperlinks t = (t', true) ∧ hyperlinks (labels t') = [([118], [105])] ∧
    resolved t' = resolved t.
Proof.
  destruct sample_term as [t|] eqn:E; [|by vm_compute in E]. exists t.
  destruct (compact_hyperlinks t) as [t' b] eqn:Ec. exists t'.
  assert (Hb : b = true ∧ hyperlinks (labels t') = [([118], [105])]).
  { vm_compute in E. injection E as <-. vm_compute in Ec. injection Ec as <- <-. done. }
  destruct Hb as [-> Ht]. destruct (compaction_keeps_links t t' true Ec) as [Hr _].
  exact (conj eq_refl (conj eq_refl (conj Ht Hr))).
Defined.

Lemma sample_labels_ok t : sample_term = Some t → labels_ok t.
Proof.
  intros E. vm_compute in E. injection E as <-. split; [|done|done|split; [done|by repeat constructor]].
  unfold in_table. vm_compute. repeat constructor; done.
Qed.

Lemma osc8_opens_link_witness :
  ∃ t t', sample_term = Some t ∧ osc8 t [] [119] = Some t' ∧ pen_link t' = Some ([119], []) ∧
    tail (resolved t') = tail (resolved t).
Proof.
  destruct sample_term as [t|] eqn:E; [|by vm_compute in E]. exists t.
  destruct (osc8_opens_link t [] [119] (sample_labels_ok t E)) as (t' & E' & Hr & _ & _ & _ & Hp).
  exists t'. split; [reflexivity|]. split; [exact E'|]. split; [|exact Hr]. destruct Hp as [Hp|[_ Hf]]; [exact Hp|].
  vm_compute in E. injection E as <-. vm_compute in E'. injection E' as <-. by vm_compute in Hf.
Defined.
