(* ===== verification/Snapshot.v ===== *)
(** * Snapshots of a pane's screen ([crates/tymux-core/src/pane.rs])

    What [CapturePane] and an attaching client read: the visible cells packed into integers,
    the hyperlinks they use renumbered into a table of the snapshot's own, the cursor, modes,
    title and the rest of the terminal's state; the same some lines back in the scrollback; and
    the search of the scrollback. A [None] is a panic. *)

From S2P Require Import Prelude VtCell VtRow VtGrid VtGridInv VtScreen VtScreenProps VtLinks.

(** ** Packing *)

Definition pack_color (color : Color) : Z :=
  match color with
  | CDefault => 0
  | CIdx i => Z.lor 0x01000000 i
  | CRgb r g b => Z.lor (Z.lor (Z.lor 0x02000000 (Z.shiftl r 16)) (Z.shiftl g 8)) b
  end.

Definition ATTR_BOLD : Z := 1.
Definition ATTR_UNDERLINE : Z := 2.
Definition ATTR_REVERSE : Z := 4.
Definition ATTR_ITALIC : Z := 8.
Definition ATTR_FAINT : Z := 16.
Definition ATTR_STRIKE : Z := 32.
Definition ATTR_BLINK : Z := 64.
Definition ATTR_CONCEAL : Z := 128.
Definition ATTR_OVERLINE : Z := 256.

Definition pack_underline_style (style : UnderlineStyle) : Z :=
  match style with USingle => 0 | UDouble => 1 | UCurly => 2 | UDotted => 3 | UDashed => 4 end.

(** The text mode of every packed attribute, in the order of the tests. *)
Definition attr_bits : list (Z * Z) :=
  [(TEXT_MODE_BOLD, ATTR_BOLD); (TEXT_MODE_UNDERLINE, ATTR_UNDERLINE); (TEXT_MODE_INVERSE, ATTR_REVERSE);
   (TEXT_MODE_ITALIC, ATTR_ITALIC); (TEXT_MODE_DIM, ATTR_FAINT); (TEXT_MODE_STRIKETHROUGH, ATTR_STRIKE);
   (TEXT_MODE_BLINK, ATTR_BLINK); (TEXT_MODE_CONCEAL, ATTR_CONCEAL); (TEXT_MODE_OVERLINE, ATTR_OVERLINE)].

Definition pack_attrs (a : Attrs) : Z :=
  foldl (λ acc '(text_mode, bit), if get_flag text_mode a then Z.lor acc bit else acc) 0 attr_bits.

(** ** The snapshot *)

Record CellSnapshot := mkCellSnapshot {
  cs_text : list Z; cs_fg : Z; cs_bg : Z; cs_attrs : Z; cs_underline_style : Z; cs_underline_color : Z; cs_hyperlink : Z;
}.
Definition cell_snapshot_blank : CellSnapshot := mkCellSnapshot [] 0 0 0 0 0 0.

Record TerminalModes := mkTerminalModes {
  tm_app_cursor_keys : bool; tm_app_keypad : bool; tm_bracketed_paste : bool; tm_focus_events : bool;
  tm_mouse_mode : Z; tm_mouse_encoding : Z;
  tm_reverse_video : bool; tm_origin : bool; tm_no_autowrap : bool; tm_insert : bool; tm_newline : bool;
}.

Definition terminal_modes (s : Screen) : TerminalModes :=
  mkTerminalModes (mode_on s MODE_APPLICATION_CURSOR) (mode_on s MODE_APPLICATION_KEYPAD) (mode_on s MODE_BRACKETED_PASTE)
    (mode_on s MODE_FOCUS_EVENTS)
    match mouse_protocol_mode s with MNone => 0 | MPress => 1 | MPressRelease => 2 | MButtonMotion => 3 | MAnyMotion => 4 end
    match mouse_protocol_encoding s with EDefault => 0 | EUtf8 => 1 | ESgr => 2 | EUrxvt => 3 end
    (mode_on s MODE_REVERSE_VIDEO) (origin_mode (cur_grid s)) (mode_on s MODE_NO_AUTOWRAP) (mode_on s MODE_INSERT)
    (mode_on s MODE_NEWLINE).

Definition charset_id (c : Charset) : Z := match c with Ascii => 0 | DecSpecial => 1 | Uk => 2 end.

Record PaneSnapshot := mkPaneSnapshot {
  sn_rows : Z; sn_cols : Z;
  sn_grid : list (list CellSnapshot);
  sn_cursor_row : Z; sn_cursor_col : Z; sn_cursor_pending_wrap : bool;
  sn_hyperlinks : list Link;
  sn_title : list Z;
  sn_modes : TerminalModes;
  sn_cursor_hidden : bool;
  sn_cursor_style : Z;
  sn_alt_screen : bool;
  sn_scroll_top : Z; sn_scroll_bottom : Z;
  sn_tab_stops : list Z;
  sn_charsets : list Z * Z;
}.

(** The snapshot's own table, and its index of every link of the screen met so far. *)
Record LinkTable := mkLinkTable { lt_links : list Link; lt_index : gmap Z Z }.

Definition snap_link (t : Term) (tab : LinkTable) (idx : Z) : LinkTable * Z :=
  if idx =? 0 then (tab, 0)
  else
    match lt_index tab !! idx with
    | Some n => (tab, n)
    | None =>
        match term_hyperlink t idx with
        | Some l =>
            let links := lt_links tab ++ [l] in
            let n := Z.of_nat (length links) in (mkLinkTable links (<[idx := n]> (lt_index tab)), n)
        | None => (mkLinkTable (lt_links tab) (<[idx := 0]> (lt_index tab)), 0)
        end
    end.

Definition snap_cell (t : Term) (tab : LinkTable) (cell : option Cell) : option (LinkTable * CellSnapshot) :=
  match cell with
  | None => Some (tab, cell_snapshot_blank)
  | Some c =>
      let a := cell_attrs c in
      let '(tab, link) := snap_link t tab (hyperlink a) in
      let! text := contents c in
      Some (tab, mkCellSnapshot text (pack_color (fgcolor a)) (pack_color (bgcolor a)) (pack_attrs a)
                   (pack_underline_style (underline_style a)) (pack_color (ulcolor a)) link)
  end.

(** A loop that pushes one result a round, with a state of its own. *)
Fixpoint fold_map {S A B} (f : S → A → option (S * B)) (s : S) (l : list A) : option (S * list B) :=
  match l with
  | [] => Some (s, [])
  | x :: l => let! (s, y) := f s x in let! (s, ys) := fold_map f s l in Some (s, y :: ys)
  end.

(** [Screen::cell] at every position of the screen. *)
Definition screen_cells (s : Screen) : list (list (option Cell)) :=
  let sz := size (cur_grid s) in
  (λ r, (λ c, visible_cell (cur_grid s) (mkPos r c)) <$> seqZ 0 (cols sz)) <$> seqZ 0 (rows sz).

Definition tab_stop_columns (ts : list bool) : list Z :=
  omap id (imap (λ i (on : bool), if on then Some (Z.of_nat i) else None) ts).

Definition snapshot_from_screen (t : Term) : option PaneSnapshot :=
  let s := screen t in
  let g := cur_grid s in
  let! (tab, cells) := fold_map (fold_map (snap_cell t)) (mkLinkTable [] ∅) (screen_cells s) in
  let! (top, bottom) := scroll_region g in
  Some (mkPaneSnapshot (rows (size g)) (cols (size g)) cells
          (row (pos g)) (Z.min (col (pos g)) (sat_sub (cols (size g)) 1)) (cols (size g) <=? col (pos g))
          (lt_links tab) (title (labels t)) (terminal_modes s) (mode_on s MODE_HIDE_CURSOR) (cursor_style s)
          (mode_on s MODE_ALTERNATE_SCREEN) top bottom (tab_stop_columns (tab_stops g))
          (charset_id <$> cs_g (charsets s), Z.of_nat (cs_gl (charsets s)))).

Definition screen_set_scrollback (t : Term) (n : Z) : Term :=
  mkTerm (set_cur (screen t) (set_scrollback (cur_grid (screen t)) n)) (labels t).

(** [Pane::snapshot_at_offset]: scrolls, reads and scrolls back. *)
Definition snapshot_at_offset (t : Term) (offset : Z) : option (Term * PaneSnapshot) :=
  let t := screen_set_scrollback t offset in
  let! snap := snapshot_from_screen t in
  Some (screen_set_scrollback t 0, snap).

(** ** Searching the scrollback *)

(** [str::contains]. *)
Fixpoint str_contains (pattern line : list Z) : bool :=
  bool_decide (pattern `prefix_of` line) || match line with [] => false | _ :: line => str_contains pattern line end.

(** The text of the top row shown. *)
Fixpoint cells_text (cs : list (option Cell)) : option (list Z) :=
  match cs with
  | [] => Some []
  | None :: cs => cells_text cs
  | Some c :: cs => let! x := contents c in let! y := cells_text cs in Some (x ++ y)
  end.

Definition top_line (t : Term) (cols : Z) : option (list Z) :=
  cells_text ((λ c, visible_cell (cur_grid (screen t)) (mkPos 0 c)) <$> seqZ 0 cols).

Fixpoint search_from (t : Term) (cols : Z) (pattern : list Z) (offsets : list Z) : option (Term * option (Z * list Z)) :=
  match offsets with
  | [] => Some (t, None)
  | offset :: offsets =>
      let t := screen_set_scrollback t offset in
      let! line := top_line t cols in
      if str_contains pattern line then Some (t, Some (offset, line)) else search_from t cols pattern offsets
  end.

Definition usize_max : Z := u64_max.

Definition search_scrollback (t : Term) (pattern : list Z) (start_offset : Z) : option (Term * option (Z * list Z)) :=
  match pattern with
  | [] => Some (t, None)
  | _ =>
      let cols := cols (size (cur_grid (screen t))) in
      let t := screen_set_scrollback t usize_max in
      let max_offset := scrollback_offset (cur_grid (screen t)) in
      let! (t, r) := search_from t cols pattern (seqZ start_offset (max_offset + 1 - start_offset)) in
      Some (screen_set_scrollback t 0, r)
  end.

(** ** Packing is faithful *)

Lemma lor_shift y x n : 0 ≤ n → 0 ≤ x < 2 ^ n → Z.lor (Z.shiftl y n) x = y * 2 ^ n + x.
Proof.
  intros Hn Hx. rewrite <- Z.shiftl_mul_pow2 by done. rewrite <- Z.add_lor_land.
  assert (Z.land (Z.shiftl y n) x = 0) as ->; [|lia]. apply Z.bits_inj'. intros i Hi. rewrite Z.land_spec, Z.bits_0.
  destruct (decide (i < n)) as [Hlt|Hge].
  - by rewrite Z.shiftl_spec_low.
  - destruct (decide (x = 0)) as [->|]; [by rewrite Z.bits_0, andb_false_r|].
    rewrite (Z.bits_above_log2 x i); [by rewrite andb_false_r|lia|]. apply Z.log2_lt_pow2; [lia|].
    assert (2 ^ n ≤ 2 ^ i) by (apply Z.pow_le_mono_r; lia). lia.
Qed.

Definition color_ok (c : Color) : Prop :=
  match c with
  | CDefault => True
  | CIdx i => 0 ≤ i ≤ u8_max
  | CRgb r g b => 0 ≤ r ≤ u8_max ∧ 0 ≤ g ≤ u8_max ∧ 0 ≤ b ≤ u8_max
  end.

(** The documented reading: the top byte is the kind, the others the index or the components. *)
Definition unpack_color (n : Z) : option Color :=
  let byte_at k := (n / 2 ^ k) mod 256 in
  if n / 2 ^ 24 =? 0 then Some CDefault
  else if n / 2 ^ 24 =? 1 then Some (CIdx (byte_at 0))
  else if n / 2 ^ 24 =? 2 then Some (CRgb (byte_at 16) (byte_at 8) (byte_at 0)) else None.

Lemma pack_color_sum c : color_ok c →
  pack_color c = match c with
                 | CDefault => 0
                 | CIdx i => 16777216 + i
                 | CRgb r g b => 33554432 + r * 65536 + g * 256 + b
                 end.
Proof.
  unfold u8_max. destruct c as [|i|r g b]; cbn [color_ok pack_color]; [done|intros Hi|intros (Hr & Hg & Hb)].
  - change 0x01000000 with (Z.shiftl 1 24) at 1. rewrite lor_shift by (unfold u8_max in *; lia). lia.
  - unfold u8_max in *. change 0x02000000 with (Z.shiftl 2 24) at 1. rewrite lor_shift by (rewrite ?Z.shiftl_mul_pow2 by lia; lia).
    assert (E1 : 2 * 2 ^ 24 + Z.shiftl r 16 = Z.shiftl (512 + r) 16) by (rewrite !Z.shiftl_mul_pow2 by lia; lia).
    rewrite E1, lor_shift by (rewrite ?Z.shiftl_mul_pow2 by lia; lia).
    assert (E2 : (512 + r) * 2 ^ 16 + Z.shiftl g 8 = Z.shiftl ((512 + r) * 256 + g) 8) by (rewrite !Z.shiftl_mul_pow2 by lia; lia).
    rewrite E2, lor_shift by lia. lia.
Qed.

(** A color crosses the wire unchanged: the packed integer fits 32 bits and the documented
    reading of it gives back the default color, the palette index or the three components. *)
Theorem color_roundtrip c : color_ok c → unpack_color (pack_color c) = Some c ∧ is_u32 (pack_color c).
Proof.
  intros Hc. rewrite (pack_color_sum c Hc). unfold unpack_color, is_u32, u32_max. cbv zeta.
  destruct c as [|i|r g b]; simpl in Hc; unfold u8_max in Hc; [done|..].
  - assert (E : (16777216 + i) / 2 ^ 24 = 1) by lia_div. rewrite E. simpl. split; [|lia]. do 2 f_equal. lia_div.
  - destruct Hc as (Hr & Hg & Hb). set (n := 33554432 + r * 65536 + g * 256 + b).
    assert (E : n / 2 ^ 24 = 2) by (subst n; lia_div). rewrite E. simpl. split; [|subst n; lia].
    f_equal. f_equal; subst n; lia_div.
Qed.

(** Every flag of a cell is one bit of the packed attributes. *)
Lemma pack_attrs_bits a : Forall (λ '(text_mode, bit), negb (Z.land (pack_attrs a) bit =? 0) = get_flag text_mode a) attr_bits.
Proof.
  unfold pack_attrs, attr_bits. rewrite !Forall_cons, Forall_nil. cbn [foldl].
  repeat match goal with |- context [get_flag ?m a] => generalize (get_flag m a); intros [] end; by repeat split.
Qed.

(** ** What a snapshot shows *)

Section FoldMap.
Context {S A B : Type} (f : S → A → option (S * B)) (I : S → Prop) (le : S → S → Prop) (R : S → A → B → Prop).
Context `{!PreOrder le}.
Hypothesis R_mono : ∀ s s' x y, le s s' → R s x y → R s' x y.

Lemma fold_map_spec (P : A → Prop) l s :
  (∀ s x, I s → P x → ∃ s' y, f s x = Some (s', y) ∧ I s' ∧ le s s' ∧ R s' x y) →
  I s → Forall P l →
  ∃ s' ys, fold_map f s l = Some (s', ys) ∧ I s' ∧ le s s' ∧ Forall2 (R s') l ys.
Proof.
  intros Hf Hs Hl. revert s Hs. induction Hl as [|x l Hx _ IH]; intros s Hs; simpl.
  { exists s, []. by repeat split. }
  destruct (Hf s x Hs Hx) as (s1 & y & -> & Hs1 & Hle1 & Hr). destruct (IH s1 Hs1) as (s2 & ys & -> & Hs2 & Hle2 & Hrs).
  exists s2, (y :: ys). split; [done|]. split; [done|]. split; [by etrans|]. constructor; [by eapply R_mono|done].
Qed.
End FoldMap.

(** The table's index agrees with the links of the screen. *)
Definition tab_ok (t : Term) (tab : LinkTable) : Prop :=
  ∀ idx n, lt_index tab !! idx = Some n →
  0 ≤ n ≤ Z.of_nat (length (lt_links tab)) ∧ link_at (lt_links tab) n = term_hyperlink t idx.

Definition tab_le (a b : LinkTable) : Prop := lt_links a `prefix_of` lt_links b.
#[local] Instance tab_le_preorder : PreOrder tab_le.
Proof. split; [by intros a; exists []; rewrite app_nil_r|]. intros a b c. unfold tab_le. apply transitivity. Qed.

(** The cell of the snapshot is the cell of the screen. *)
Definition shows (t : Term) (links : list Link) (cell : option Cell) (s : CellSnapshot) : Prop :=
  match cell with
  | None => s = cell_snapshot_blank
  | Some c =>
      let a := cell_attrs c in
      contents c = Some (cs_text s) ∧ cs_fg s = pack_color (fgcolor a) ∧ cs_bg s = pack_color (bgcolor a) ∧
      cs_attrs s = pack_attrs a ∧ cs_underline_style s = pack_underline_style (underline_style a) ∧
      cs_underline_color s = pack_color (ulcolor a) ∧
      0 ≤ cs_hyperlink s ≤ Z.of_nat (length links) ∧
      link_at links (cs_hyperlink s) = term_hyperlink t (hyperlink a)
  end.

Lemma shows_mono t tab tab' c s : tab_le tab tab' → shows t (lt_links tab) c s → shows t (lt_links tab') c s.
Proof.
  intros [k Hk]. destruct c as [c|]; simpl; [|done]. intros (H1 & H2 & H3 & H4 & H5 & H6 & H7 & H8).
  rewrite Hk, length_app, link_at_app by lia. do 6 (split; [done|]). split; [lia|done].
Qed.

Lemma shows_row_mono t tab tab' cs ss :
  tab_le tab tab' → Forall2 (shows t (lt_links tab)) cs ss → Forall2 (shows t (lt_links tab')) cs ss.
Proof. intros Hle H. eapply Forall2_impl; [exact H|]. intros c s. by apply shows_mono. Qed.

Lemma snap_link_ok t tab idx tab' n :
  tab_ok t tab → snap_link t tab idx = (tab', n) →
  tab_ok t tab' ∧ tab_le tab tab' ∧ 0 ≤ n ≤ Z.of_nat (length (lt_links tab')) ∧ link_at (lt_links tab') n = term_hyperlink t idx.
Proof.
  intros Hok. unfold snap_link. destruct (Z.eqb_spec idx 0) as [->|Hne].
  { intros [= <- <-]. split; [done|]. split; [done|]. split; [lia|done]. }
  destruct (lt_index tab !! idx) as [m|] eqn:Hi; [intros [= <- <-]; by split; [|split; [|apply Hok]]|].
  destruct (term_hyperlink t idx) as [l|] eqn:Hl; intros [= <- <-]; cbn [lt_links lt_index].
  - assert (Hlast : link_at (lt_links tab ++ [l]) (Z.of_nat (length (lt_links tab ++ [l]))) = Some l).
    { rewrite length_app. simpl. replace (Z.of_nat (length (lt_links tab) + 1)) with (Z.of_nat (length (lt_links tab)) + 1) by lia.
      by rewrite link_at_nat, lookup_app_r, Nat.sub_diag. }
    split; [|split; [by exists [l]|split; [lia|done]]]. intros i m Hm. cbn [lt_index] in Hm.
    apply lookup_insert_Some in Hm as [[<- <-]|[_ Hm]].
    + cbn [lt_links]. split; [lia|]. congruence.
    + destruct (Hok i m Hm) as [A B]. cbn [lt_links]. rewrite length_app. split; [lia|]. by rewrite link_at_app by lia.
  - split; [|split; [by exists []; rewrite app_nil_r|split; [lia|done]]]. intros i m Hm. cbn [lt_index] in Hm.
    apply lookup_insert_Some in Hm as [[<- <-]|[_ Hm]]; [|by apply Hok]. split; [cbn [lt_links]; lia|]. by rewrite Hl.
Qed.

(** A cell that can be read. *)
Definition readable (c : option Cell) : Prop := ∀ x, c = Some x → is_Some (contents x).

Lemma snap_cell_ok t tab c :
  tab_ok t tab → readable c → ∃ tab' s, snap_cell t tab c = Some (tab', s) ∧ tab_ok t tab' ∧ tab_le tab tab' ∧ shows t (lt_links tab') c s.
Proof.
  intros Hok Hc. destruct c as [c|]; simpl; [|by exists tab, cell_snapshot_blank].
  destruct (snap_link t tab (hyperlink (cell_attrs c))) as [tab' n] eqn:E. destruct (snap_link_ok _ _ _ _ _ Hok E) as (H1 & H2 & H3 & H4).
  destruct (Hc c eq_refl) as [text Ht]. rewrite Ht. eexists _, _. split; [done|]. split; [done|]. split; [done|].
  by repeat split; try done; simpl; lia.
Qed.

Lemma row_readable n r c x : row_ok n r → row_get r c = Some x → is_Some (contents x).
Proof.
  intros [_ _ Hc] Hx. rewrite Forall_lookup in Hc. specialize (Hc _ _ Hx). destruct (ck_text _ Hc) as (cs & Hs & Ht).
  exists cs. by apply contents_text.
Qed.

Lemma elem_visible g r : r ∈ visible_rows g → r ∈ scrollback g ∨ r ∈ g_rows g.
Proof.
  unfold visible_rows. intros [H|H]%elem_of_app; [left|right]; apply elem_of_take in H as (i & Hi & _).
  - rewrite lookup_drop in Hi. by eapply list_elem_of_lookup_2.
  - by eapply list_elem_of_lookup_2.
Qed.

Lemma grid_readable g p : grid_ok g → readable (visible_cell g p).
Proof.
  intros Hg x. unfold visible_cell, visible_row. destruct (visible_rows g !! _) as [r|] eqn:Hr; [|done]. intros Hx.
  apply list_elem_of_lookup_2, elem_visible in Hr. pose proof (go_scrollback _ Hg) as Hs. pose proof (go_cells _ Hg) as Hc.
  rewrite Forall_forall in Hs, Hc. destruct Hr as [Hr|Hr]; [destruct (Hs r Hr) as (n & _ & Hrow)|pose proof (Hc r Hr) as Hrow];
    by eapply row_readable.
Qed.

Lemma scroll_region_total g : grid_ok g → is_Some (scroll_region g).
Proof.
  intros Hg. pose proof (go_rows _ Hg). pose proof (go_region _ Hg). unfold scroll_region. rewrite u16_sub_ok by lia.
  destruct (_ && _); [done|]. rewrite !u16_add_ok by lia. done.
Qed.

Lemma snapshot_ok t :
  screen_ok (screen t) →
  ∃ snap, snapshot_from_screen t = Some snap ∧
    Forall2 (Forall2 (shows t (sn_hyperlinks snap))) (screen_cells (screen t)) (sn_grid snap) ∧
    sn_rows snap = rows (size (grid (screen t))) ∧ sn_cols snap = cols (size (grid (screen t))) ∧
    0 ≤ sn_cursor_row snap < sn_rows snap ∧ 0 ≤ sn_cursor_col snap < sn_cols snap ∧ sn_title snap = title (labels t).
Proof.
  intros Hs. destruct (cur_ok _ Hs) as [Hg Hsz]. unfold snapshot_from_screen. cbv zeta.
  destruct (fold_map_spec (fold_map (snap_cell t)) (tab_ok t) tab_le (λ tab, Forall2 (shows t (lt_links tab)))
    (shows_row_mono t) (Forall readable)
    (screen_cells (screen t)) (mkLinkTable [] ∅)) as (tab & cells & -> & _ & _ & Hsh).
  - intros tab cs Ht Hcs. apply (fold_map_spec _ _ _ (λ tab, shows t (lt_links tab)) (λ tab tab' c s, shows_mono t tab tab' c s) readable);
      [|done|done]. intros tab1 c Ht1 Hc. by apply snap_cell_ok.
  - by intros idx n Hn.
  - unfold screen_cells. apply Forall_fmap, Forall_true. intros r. apply Forall_fmap, Forall_true. intros c. by apply grid_readable.
  - destruct (scroll_region_total _ Hg) as [[top bottom] ->]. eexists. split; [done|]. simpl. rewrite <- Hsz.
    pose proof (go_row _ Hg). pose proof (go_col _ Hg). pose proof (go_cols _ Hg). unfold sat_sub. repeat split; try done; lia.
Qed.

(** Position by position. *)
Lemma shows_at t snap r c :
  Forall2 (Forall2 (shows t (sn_hyperlinks snap))) (screen_cells (screen t)) (sn_grid snap) →
  0 ≤ r < rows (size (cur_grid (screen t))) → 0 ≤ c < cols (size (cur_grid (screen t))) →
  ∃ row s, sn_grid snap !! Z.to_nat r = Some row ∧ row !! Z.to_nat c = Some s ∧
    shows t (sn_hyperlinks snap) (visible_cell (cur_grid (screen t)) (mkPos r c)) s.
Proof.
  intros Hf Hr Hc. rewrite Forall2_lookup in Hf. specialize (Hf (Z.to_nat r)). unfold screen_cells in Hf.
  rewrite list_lookup_fmap, lookup_seqZ_lt in Hf by lia. simpl in Hf. inversion Hf as [x row Hrow|]; subst.
  rewrite Forall2_lookup in Hrow. specialize (Hrow (Z.to_nat c)). rewrite list_lookup_fmap, lookup_seqZ_lt in Hrow by lia.
  simpl in Hrow. inversion Hrow as [y s Hs|]; subst. exists row, s. split; [done|]. split; [done|].
  by replace r with (0 + Z.of_nat (Z.to_nat r)) by lia; replace c with (0 + Z.of_nat (Z.to_nat c)) by lia; rewrite !Z2Nat.id in * by lia.
Qed.

(** ** Scrolling for a reader *)

(** The term with another scrollback and position in it; nothing else differs. *)
Definition scrolled (t : Term) (sb : list Row) (off : Z) : Term :=
  mkTerm (set_cur (screen t) (with_scrollback (cur_grid (screen t)) sb off)) (labels t).

Lemma cur_set_cur s g : cur_grid (set_cur s g) = g.
Proof. unfold set_cur. destruct (mode_on s MODE_ALTERNATE_SCREEN) eqn:E; unfold cur_grid, mode_on in *; simpl; by rewrite E. Qed.

Lemma set_cur_twice s g g' : set_cur (set_cur s g) g' = set_cur s g'.
Proof. unfold set_cur. destruct (mode_on s MODE_ALTERNATE_SCREEN) eqn:E; unfold mode_on in *; simpl; by rewrite E. Qed.

Lemma set_cur_same s : set_cur s (cur_grid s) = s.
Proof. unfold set_cur, cur_grid. destruct (mode_on s MODE_ALTERNATE_SCREEN); by destruct s. Qed.

Lemma scrolled_self t : scrolled t (scrollback (cur_grid (screen t))) (scrollback_offset (cur_grid (screen t))) = t.
Proof.
  unfold scrolled. destruct t as [s l]. simpl. f_equal. etrans; [|apply set_cur_same]. f_equal. by destruct (cur_grid s).
Qed.

(** What a reader sees of a row: the text of its cells, [n] columns wide. *)
Definition row_line (n : Z) (r : Row) : option (list Z) := cells_text ((λ c, row_get r c) <$> seqZ 0 n).

Lemma cells_text_blank cs cs' :
  Forall2 (λ a b, a = b ∨ a = None ∧ b = Some cell_new) cs cs' → cells_text cs' = cells_text cs.
Proof.
  induction 1 as [|a b cs cs' Hab _ IH]; [done|]. destruct Hab as [->|[-> ->]]; cbn [cells_text]; [by rewrite IH|].
  change (contents cell_new) with (Some ([] : list Z)). cbv iota. rewrite IH. by destruct (cells_text cs).
Qed.

(** The row, with blank cells after its last column. *)
Definition padded (n : Z) (r r' : Row) : Prop :=
  ∀ c, 0 ≤ c < n → row_get r' c = row_get r c ∨ row_get r c = None ∧ row_get r' c = Some cell_new.

#[local] Instance padded_preorder n : PreOrder (padded n).
Proof.
  split; [by intros r c Hc; left|]. intros r1 r2 r3 H12 H23 c Hc.
  destruct (H12 c Hc) as [E1|[E1 E2]], (H23 c Hc) as [E3|[E3 E4]]; rewrite ?E1, ?E3; auto; right; split; congruence.
Qed.

Lemma pad_row_padded n r : 0 ≤ n → padded n r (mkRow (vec_resize (Z.to_nat n) cell_new (cells r)) (wrapped r)).
Proof.
  intros Hn c Hc. unfold row_get, vec_resize. cbn [cells].
  destruct (decide (Z.to_nat c < length (cells r))%nat) as [Hl|Hl].
  - left. rewrite lookup_app_l by (rewrite length_take; lia). rewrite lookup_take_lt by lia. done.
  - right. split; [apply lookup_ge_None_2; lia|]. rewrite lookup_app_r by (rewrite length_take; lia).
    rewrite lookup_replicate_2; [done|]. rewrite length_take. lia.
Qed.

Lemma padded_line n r r' : padded n r r' → row_line n r' = row_line n r.
Proof.
  intros Hp. unfold row_line. apply cells_text_blank, Forall2_fmap_2, Forall2_same_length_lookup. split; [done|].
  intros i a b Ha Hb. assert (a = b) as <- by congruence. apply lookup_seqZ in Ha as [-> Hi].
  destruct (Hp (0 + Z.of_nat i)) as [->|?]; [lia|by left|by right].
Qed.

Lemma padded_refl n l : Forall2 (padded n) l l.
Proof. by apply Forall_Forall2_diag, Forall_true. Qed.

(** Two scrollbacks that read the same. *)
Definition same_lines (n : Z) (sb sb' : list Row) : Prop := Forall2 (padded n) sb sb'.

#[local] Instance same_lines_preorder n : PreOrder (same_lines n).
Proof. split; [intros sb; apply padded_refl|]. intros a b c. apply Forall2_trans. intros x y z. apply transitivity. Qed.

Lemma set_scrollback_scrolled t sb off k :
  0 ≤ cols (size (cur_grid (screen t))) →
  ∃ sb', screen_set_scrollback (scrolled t sb off) k = scrolled t sb' (Z.min k (Z.of_nat (length sb))) ∧
    same_lines (cols (size (cur_grid (screen t)))) sb sb'.
Proof.
  intros Hn. unfold screen_set_scrollback, scrolled. cbn [screen labels]. rewrite cur_set_cur, set_cur_twice.
  unfold set_scrollback, pad_scrollback_window. set (g := cur_grid (screen t)) in *.
  eexists. split; [reflexivity|]. cbn [with_scrollback scrollback size g_rows scrollback_offset].
  set (skip := (length sb - Nat.min _ _)%nat). set (m := length (g_rows g)).
  unfold same_lines. rewrite <- (take_drop skip sb) at 1. apply Forall2_app; [by apply padded_refl|].
  rewrite <- (take_drop m (drop skip sb)) at 1. apply Forall2_app; [|rewrite drop_drop; by apply padded_refl].
  apply Forall2_fmap_r, Forall_Forall2_diag, Forall_true. intros r. unfold compose. case_match; [by apply pad_row_padded|done].
Qed.

(** The line [k] rows above the top of the screen; 0 is the top row itself. *)
Definition line_back (t : Term) (k : Z) : option (list Z) :=
  let g := cur_grid (screen t) in
  let! r := (scrollback g ++ g_rows g) !! (length (scrollback g) - Z.to_nat k)%nat in row_line (cols (size g)) r.

Lemma visible_row_back g sb k r :
  0 ≤ r < Z.of_nat (length (g_rows g)) → 0 ≤ k ≤ Z.of_nat (length sb) →
  visible_row (with_scrollback g sb k) r = (sb ++ g_rows g) !! (length sb - Z.to_nat k + Z.to_nat r)%nat.
Proof.
  intros Hr Hk. unfold visible_row, visible_rows. cbn [with_scrollback g_rows scrollback scrollback_offset].
  set (n := length (g_rows g)) in *.
  assert (E : take n (drop (length sb - Z.to_nat k) sb) ++ take (n - Z.to_nat k) (g_rows g) =
              take n (drop (length sb - Z.to_nat k) (sb ++ g_rows g))).
  { rewrite drop_app_le by lia. rewrite take_app, length_drop. do 3 f_equal. lia. }
  rewrite E, lookup_take_lt, lookup_drop by lia. done.
Qed.

Lemma top_line_back t sb k :
  let g := cur_grid (screen t) in
  g_rows g ≠ [] → same_lines (cols (size g)) (scrollback g) sb → 0 ≤ k ≤ Z.of_nat (length sb) →
  top_line (scrolled t sb k) (cols (size g)) = line_back t k.
Proof.
  intros g Hne Hs Hk. unfold top_line, line_back. fold g. unfold scrolled. cbn [screen]. rewrite cur_set_cur. fold g.
  assert (Hl : length (scrollback g) = length sb) by (by eapply Forall2_length).
  assert (Hrow : Forall2 (padded (cols (size g))) (scrollback g ++ g_rows g) (sb ++ g_rows g)).
  { apply Forall2_app; [done|by apply padded_refl]. }
  rewrite Forall2_lookup in Hrow. specialize (Hrow (length sb - Z.to_nat k)%nat). rewrite Hl.
  assert (Ht : visible_row (with_scrollback g sb k) 0 = (sb ++ g_rows g) !! (length sb - Z.to_nat k)%nat).
  { rewrite visible_row_back, Nat.add_0_r; [done| |done]. destruct (g_rows g); [done|simpl; lia]. }
  destruct ((sb ++ g_rows g) !! _) as [r|] eqn:Er.
  - inversion Hrow as [x y Hxy Ex|]; subst. rewrite <- (padded_line _ _ _ Hxy). unfold row_line. f_equal. apply list_fmap_ext. intros i c _.
    unfold visible_cell. cbn [row col]. by rewrite Ht.
  - apply lookup_ge_None in Er. rewrite length_app in Er. destruct (g_rows g); [done|]. simpl in Er. lia.
Qed.

Lemma cells_text_total cs : Forall readable cs → is_Some (cells_text cs).
Proof.
  induction 1 as [|[c|] cs Hc _ [y IH]]; simpl; [done| |by exists y].
  destruct (Hc c eq_refl) as [x ->]. rewrite IH. by eexists.
Qed.

Lemma line_back_total t k : screen_ok (screen t) → is_Some (line_back t k).
Proof.
  intros Hs. destruct (cur_ok _ Hs) as [Hg _]. unfold line_back. set (g := cur_grid (screen t)) in *.
  pose proof (rows_nonempty _ Hg) as Hne. destruct (lookup_lt_is_Some_2 (scrollback g ++ g_rows g) (length (scrollback g) - Z.to_nat k)) as [r Hr].
  { rewrite length_app. destruct (g_rows g); [done|simpl; lia]. }
  rewrite Hr. apply cells_text_total, Forall_fmap, Forall_true. intros c x Hx.
  pose proof (go_scrollback _ Hg) as Hsb. pose proof (go_cells _ Hg) as Hc. rewrite Forall_forall in Hsb, Hc.
  apply list_elem_of_lookup_2, elem_of_app in Hr as [Hr|Hr].
  - destruct (Hsb r Hr) as (n & _ & Hok). by eapply row_readable.
  - eapply row_readable; [by apply Hc|done].
Qed.

(** Reading somewhere else and returning shows the same screen. *)
Lemma snapshot_scrolled t sb :
  scrollback_offset (cur_grid (screen t)) = 0 → snapshot_from_screen (scrolled t sb 0) = snapshot_from_screen t.
Proof.
  intros Hoff. set (g := cur_grid (screen t)) in *. assert (Hcur : cur_grid (screen (scrolled t sb 0)) = with_scrollback g sb 0).
  { unfold scrolled. cbn [screen]. by rewrite cur_set_cur. }
  assert (Hvis : visible_rows (with_scrollback g sb 0) = visible_rows g).
  { unfold visible_rows. rewrite Hoff. cbn [with_scrollback g_rows scrollback scrollback_offset]. change (Z.to_nat 0) with 0%nat.
    by rewrite !Nat.sub_0_r, !drop_all. }
  assert (Hcells : screen_cells (screen (scrolled t sb 0)) = screen_cells (screen t)).
  { unfold screen_cells. rewrite Hcur. fold g. apply list_fmap_ext. intros _ r _. apply list_fmap_ext. intros _ c _.
    unfold visible_cell, visible_row. by rewrite Hvis. }
  unfold snapshot_from_screen. rewrite Hcells, Hcur. fold g. change (snap_cell (scrolled t sb 0)) with (snap_cell t).
  destruct (fold_map _ _ _) as [[tab cells]|]; [|done]. change (scroll_region (with_scrollback g sb 0)) with (scroll_region g).
  destruct (scroll_region g) as [[top bottom]|]; [|done]. cbn [size pos tab_stops with_scrollback]. f_equal.
  unfold scrolled. unfold terminal_modes, set_cur. destruct (mode_on (screen t) MODE_ALTERNATE_SCREEN) eqn:E;
    unfold cur_grid, mode_on in *; simpl; by rewrite E.
Qed.

(** The result of a search over the lines from [lo] up to [hi] rows back. *)
Definition first_match (t : Term) (pattern : list Z) (lo hi : Z) (r : option (Z * list Z)) : Prop :=
  match r with
  | Some (k, line) =>
      lo ≤ k ≤ hi ∧ line_back t k = Some line ∧ str_contains pattern line = true ∧
      ∀ j line', lo ≤ j < k → line_back t j = Some line' → str_contains pattern line' = false
  | None => ∀ j line', lo ≤ j ≤ hi → line_back t j = Some line' → str_contains pattern line' = false
  end.

Lemma search_from_ok t pattern n sb off lo :
  let g := cur_grid (screen t) in
  screen_ok (screen t) → same_lines (cols (size g)) (scrollback g) sb →
  0 ≤ lo → lo + Z.of_nat n ≤ Z.of_nat (length (scrollback g)) + 1 →
  ∃ sb' off' r, search_from (scrolled t sb off) (cols (size g)) pattern (seqZ lo (Z.of_nat n)) = Some (scrolled t sb' off', r) ∧
    same_lines (cols (size g)) (scrollback g) sb' ∧ first_match t pattern lo (lo + Z.of_nat n - 1) r.
Proof.
  intros g Hs. destruct (cur_ok _ Hs) as [Hg _]. fold g in Hg. pose proof (go_cols _ Hg). revert sb off lo.
  induction n as [|n IH]; intros sb off lo Hsb Hlo Hn.
  { exists sb, off, None. split; [done|]. split; [done|]. intros j line Hj. lia. }
  rewrite seqZ_cons by lia. replace (Z.pred (Z.of_nat (S n))) with (Z.of_nat n) by lia. cbn [search_from].
  destruct (set_scrollback_scrolled t sb off lo) as (sb1 & -> & Hsb1); [fold g; lia|]. fold g in Hsb1.
  assert (Hsame : same_lines (cols (size g)) (scrollback g) sb1) by (by etrans).
  pose proof (Forall2_length _ _ _ Hsb) as Hl. pose proof (Forall2_length _ _ _ Hsame) as Hl1. rewrite Z.min_l by lia.
  assert (Htop : top_line (scrolled t sb1 lo) (cols (size g)) = line_back t lo).
  { apply top_line_back; fold g; [by apply rows_nonempty|done|lia]. }
  rewrite Htop. destruct (line_back_total t lo Hs) as [line Hline]. rewrite Hline.
  destruct (str_contains pattern line) eqn:Hc.
  { exists sb1, lo, (Some (lo, line)). split; [done|]. split; [done|]. split; [lia|]. split; [done|]. split; [done|]. intros j ? Hj. lia. }
  destruct (IH sb1 lo (Z.succ lo) Hsame) as (sb' & off' & r & E & Hs' & Hm); [lia|lia|]. exists sb', off', r.
  split; [exact E|]. split; [exact Hs'|].
  assert (Hno : ∀ j line', lo ≤ j < Z.succ lo → line_back t j = Some line' → str_contains pattern line' = false).
  { intros j line' Hj Hb. assert (j = lo) as -> by lia. congruence. }
  destruct r as [[k l]|]; simpl in *.
  - destruct Hm as (Hk & Hkl & Hkc & Hbefore). split; [lia|]. split; [done|]. split; [done|]. intros j line' Hj Hb.
    destruct (decide (j < Z.succ lo)) as [Hlt|]; [apply (Hno j); [lia|done]|apply (Hbefore j); [lia|done]].
  - intros j line' Hj Hb. destruct (decide (j < Z.succ lo)) as [Hlt|]; [apply (Hno j); [lia|done]|apply (Hm j); [lia|done]].
Qed.

(** The cell [r] rows below the line [k] rows above the top of the screen. *)
Definition cell_back (t : Term) (k r c : Z) : option Cell :=
  let g := cur_grid (screen t) in
  let! x := (scrollback g ++ g_rows g) !! (length (scrollback g) - Z.to_nat k + Z.to_nat r)%nat in row_get x c.

Lemma shows_blank t links s : shows t links (Some cell_new) s → shows t links None s.
Proof.
  destruct s as [text fg bg a st ul h]. cbn -[pack_color pack_attrs Z.of_nat]. intros (Ht & -> & -> & -> & -> & -> & Hh & Hl).
  injection Ht as <-. unfold cell_snapshot_blank. f_equal. destruct (decide (h = 0)) as [->|Hne]; [done|].
  destruct (lookup_lt_is_Some_2 links (Z.to_nat (h - 1))) as [e He]; [lia|]. exfalso.
  assert (link_at links h = Some e) as Hs by (apply link_at_Some; split; [lia|done]). by rewrite Hl in Hs.
Qed.

Lemma shows_back t sb k r c links s :
  let g := cur_grid (screen t) in
  same_lines (cols (size g)) (scrollback g) sb → 0 ≤ k ≤ Z.of_nat (length sb) →
  0 ≤ r < Z.of_nat (length (g_rows g)) → 0 ≤ c < cols (size g) →
  shows t links (visible_cell (with_scrollback g sb k) (mkPos r c)) s → shows t links (cell_back t k r c) s.
Proof.
  intros g Hs Hk Hr Hc. unfold visible_cell, cell_back. fold g. cbn [row col]. rewrite visible_row_back by done.
  assert (Hl : length (scrollback g) = length sb) by (by eapply Forall2_length). rewrite Hl.
  assert (Hrow : Forall2 (padded (cols (size g))) (scrollback g ++ g_rows g) (sb ++ g_rows g)).
  { apply Forall2_app; [done|apply padded_refl]. }
  rewrite Forall2_lookup in Hrow. specialize (Hrow (length sb - Z.to_nat k + Z.to_nat r)%nat).
  inversion Hrow as [x y Hxy Ex Ey|Ex Ey]; [|done]. destruct (Hxy c Hc) as [->|[-> ->]]; [done|]. apply shows_blank.
Qed.

(** C15. A capture shows the screen and does not disturb it: reading any number of lines back
    never fails; the snapshot has the size of the screen; its cell in row [r] and column [c]
    has the text, packed colors and attributes, and the hyperlink target of the cell that many
    lines back in the history (as far as there is one); and what the next capture of the live
    screen shows is what it would have shown before. *)
Theorem capture_shows_history t offset :
  screen_ok (screen t) → scrollback_offset (cur_grid (screen t)) = 0 → 0 ≤ offset →
  let k := Z.min offset (Z.of_nat (length (scrollback (cur_grid (screen t))))) in
  ∃ t' snap, snapshot_at_offset t offset = Some (t', snap) ∧
    snapshot_from_screen t' = snapshot_from_screen t ∧
    sn_rows snap = rows (size (grid (screen t))) ∧ sn_cols snap = cols (size (grid (screen t))) ∧
    ∀ r c, 0 ≤ r < sn_rows snap → 0 ≤ c < sn_cols snap →
    ∃ row s, sn_grid snap !! Z.to_nat r = Some row ∧ row !! Z.to_nat c = Some s ∧ shows t (sn_hyperlinks snap) (cell_back t k r c) s.
Proof.
  intros Hs Hoff Ho k. destruct (cur_ok _ Hs) as [Hg Hsz]. set (g := cur_grid (screen t)) in *. pose proof (go_cols _ Hg).
  assert (Hsok : screen_ok (screen (screen_set_scrollback t offset))).
  { unfold screen_set_scrollback. cbn [screen]. apply set_cur_ok; [done|by apply set_scrollback_ok|done]. }
  destruct (set_scrollback_scrolled t (scrollback g) (scrollback_offset g) offset) as (sb & E & Hsb); [fold g; lia|].
  rewrite scrolled_self in E. fold k in E. pose proof (Forall2_length _ _ _ Hsb) as Hl. unfold snapshot_at_offset.
  rewrite E in *. destruct (snapshot_ok _ Hsok) as (snap & Es & Hsh & Hrows & Hcols & _). rewrite Es.
  destruct (set_scrollback_scrolled t sb k 0) as (sb' & E' & _); [fold g; lia|]. rewrite Z.min_l in E' by lia.
  assert (Hcur : cur_grid (screen (scrolled t sb k)) = with_scrollback g sb k).
  { unfold scrolled. cbn [screen]. by rewrite cur_set_cur. }
  assert (Hsize : size (grid (screen (scrolled t sb k))) = size (grid (screen t))).
  { rewrite <- Hsz, <- (proj2 (cur_ok _ Hsok)), Hcur. done. }
  rewrite Hsize in Hrows, Hcols. exists (screen_set_scrollback (scrolled t sb k) 0), snap. split; [done|].
  split; [rewrite E'; by apply snapshot_scrolled|]. split; [done|]. split; [done|]. intros r c Hr Hc.
  destruct (shows_at _ _ r c Hsh) as (row & s & H1 & H2 & H3); rewrite ?Hcur; cbn [size with_scrollback];
    [rewrite Hsz, <- Hrows; lia|rewrite Hsz, <- Hcols; lia|]. rewrite Hcur in H3. exists row, s. split; [done|]. split; [done|].
  eapply shows_back; [exact Hsb|subst k; lia|fold g; rewrite (go_len _ Hg), Hsz; lia|fold g; rewrite Hsz; lia|exact H3].
Qed.

Lemma search_ok t pattern start :
  screen_ok (screen t) → scrollback_offset (cur_grid (screen t)) = 0 → pattern ≠ [] → 0 ≤ start →
  let len := Z.of_nat (length (scrollback (cur_grid (screen t)))) in
  len ≤ usize_max →
  ∃ t' r, search_scrollback t pattern start = Some (t', r) ∧ first_match t pattern start len r ∧
    snapshot_from_screen t' = snapshot_from_screen t.
Proof.
  intros Hs Hoff Hp Hstart len Hlen. destruct (cur_ok _ Hs) as [Hg _]. set (g := cur_grid (screen t)) in *. pose proof (go_cols _ Hg).
  unfold search_scrollback. destruct pattern as [|p0 pattern]; [done|]. set (pat := p0 :: pattern). cbv zeta. fold g.
  destruct (set_scrollback_scrolled t (scrollback g) (scrollback_offset g) usize_max) as (sb & E & Hsb); [fold g; lia|].
  fold len in E. rewrite Z.min_r, scrolled_self in E by done. rewrite E.
  assert (Hcur : scrollback_offset (cur_grid (screen (scrolled t sb len))) = len).
  { unfold scrolled. cbn [screen]. by rewrite cur_set_cur. }
  rewrite Hcur. set (n := Z.to_nat (len + 1 - start)).
  assert (Hseq : seqZ start (len + 1 - start) = seqZ start (Z.of_nat n)).
  { unfold seqZ. do 2 f_equal. lia. }
  rewrite Hseq. destruct (decide (start ≤ len + 1)) as [Hle|Hgt].
  - destruct (search_from_ok t pat n sb len start Hs Hsb) as (sb' & off' & r & Ef & _ & Hm); [lia|fold g; lia|].
    fold g in Ef. rewrite Ef. destruct (set_scrollback_scrolled t sb' off' 0) as (sb2 & E2 & _); [fold g; lia|]. rewrite Z.min_l in E2 by lia.
    eexists _, r. split; [done|]. split; [by replace len with (start + Z.of_nat n - 1) by lia|].
    rewrite E2. by apply snapshot_scrolled.
  - replace n with 0%nat by lia. cbn [search_from].
    destruct (set_scrollback_scrolled t sb len 0) as (sb2 & E2 & _); [fold g; lia|]. rewrite Z.min_l in E2 by lia.
    eexists _, None. split; [done|]. split; [intros j line Hj; lia|]. rewrite E2. by apply snapshot_scrolled.
Qed.

(** C16. The search finds the first match: it looks at the lines from [start] rows above the top
    of the screen up to the oldest one, nearest first, and returns the first that contains the
    pattern, with its text and its distance, or nothing when none does; it never fails, and the
    live screen is left as it was. *)
Theorem search_finds_first t pattern start :
  screen_ok (screen t) → scrollback_offset (cur_grid (screen t)) = 0 → pattern ≠ [] → 0 ≤ start →
  let len := Z.of_nat (length (scrollback (cur_grid (screen t)))) in
  len ≤ usize_max →
  ∃ t' r, search_scrollback t pattern start = Some (t', r) ∧ first_match t pattern start len r ∧
    snapshot_from_screen t' = snapshot_from_screen t.
Proof. apply search_ok. Qed.

(** ** Witnesses *)

Lemma color_roundtrip_witness : unpack_color (pack_color (CRgb 1 2 255)) = Some (CRgb 1 2 255) ∧ pack_color (CRgb 1 2 255) = 33620735.
Proof. split; [|reflexivity]. apply color_roundtrip. simpl. unfold u8_max. lia. Defined.

(** Three lines on a screen of two rows: [ab], [b], [c]. *)
Definition sample_lines : list vt_event :=
  [VPrint 97; VPrint 98; VExecute 13; VExecute 10; VPrint 98; VExecute 13; VExecute 10; VPrint 99].

Definition sample_screen : option Screen := let! s := screen_new (mkSize 2 3) 5 in @vt_perform_all sample_width s sample_lines.

Lemma sample_screen_good : ∃ s, sample_screen = Some s ∧ screen_ok s.
Proof.
  destruct (@run_good sample_width (mkSize 2 3) 5 sample_lines) as (s & E & Hs & _);
    [unfold u16_max; simpl; lia|unfold u16_max; simpl; lia|lia|unfold sample_lines; rewrite !Forall_cons; by repeat split|].
  exists s. exact (conj E Hs).
Qed.

Definition sample_reading (s : Screen) : Size * Z * nat * option (list Z) * option (list Z) :=
  (size (grid s), scrollback_offset (cur_grid s), length (scrollback (cur_grid s)),
   line_back (mkTerm s labels_new) 0, line_back (mkTerm s labels_new) 1).

Lemma sample_read : sample_reading <$> sample_screen = Some (mkSize 2 3, 0, 1%nat, Some [98], Some [97; 98]).
Proof. vm_compute. reflexivity. Qed.

Lemma sample_screen_ok :
  ∃ s, sample_screen = Some s ∧ screen_ok s ∧ sample_reading s = (mkSize 2 3, 0, 1%nat, Some [98], Some [97; 98]).
Proof.
  destruct sample_screen_good as (s & E & Hs). exists s. split; [exact E|]. split; [exact Hs|].
  pose proof sample_read as H. rewrite E in H. exact (inj Some _ _ H).
Qed.

Lemma capture_shows_history_witness :
  ∃ s t' snap row c, sample_screen = Some s ∧ snapshot_at_offset (mkTerm s labels_new) 7 = Some (t', snap) ∧
    sn_grid snap !! 0%nat = Some row ∧ row !! 1%nat = Some c ∧
    shows (mkTerm s labels_new) (sn_hyperlinks snap) (cell_back (mkTerm s labels_new) 1 0 1) c.
Proof.
  destruct sample_screen_ok as (s & E & Hs & [= Hsz Hoff Hlen _ _]).
  destruct (capture_shows_history (mkTerm s labels_new) 7 Hs Hoff) as (t' & snap & E1 & _ & Hr & Hc & Hsh); [lia|].
  cbn [screen] in Hsh. rewrite Hlen in Hsh.
  destruct (Hsh 0 1) as (row & c & H1 & H2 & H3); [rewrite Hr; cbn [screen]; rewrite Hsz; simpl; lia|rewrite Hc; cbn [screen]; rewrite Hsz; simpl; lia|].
  exists s, t', snap, row, c. exact (conj E (conj E1 (conj H1 (conj H2 H3)))).
Defined.

Lemma search_finds_first_witness :
  ∃ s t' r, sample_screen = Some s ∧ search_scrollback (mkTerm s labels_new) [97] 0 = Some (t', r) ∧
    first_match (mkTerm s labels_new) [97] 0 1 r ∧ r = Some (1, [97; 98]).
Proof.
  destruct sample_screen_ok as (s & E & Hs & [= _ Hoff Hlen H0 H1]).
  destruct (search_finds_first (mkTerm s labels_new) [97] 0 Hs Hoff) as (t' & r & E1 & Hm & _); [discriminate|lia|..].
  { cbn [screen]. rewrite Hlen. unfold usize_max, u64_max. lia. }
  cbn [screen] in Hm. rewrite Hlen in Hm. exists s, t', r. refine (conj E (conj E1 (conj Hm _))).
  assert (Hex : str_contains [97] [97; 98] = true) by reflexivity. change (Z.of_nat 1) with 1 in Hm.
  destruct r as [[k line]|].
  - destruct Hm as (Hk & Hl & Hcon & _). destruct (decide (k = 0)) as [->|].
    + rewrite H0 in Hl. injection Hl as <-. discriminate Hcon.
    + assert (k = 1) as -> by lia. rewrite H1 in Hl. injection Hl as <-. reflexivity.
  - rewrite (Hm 1 [97; 98]) in Hex; [discriminate|lia|exact H1].
Defined.
