(* ===== verification/PaneTerm.v ===== *)
(** * The emulator of a pane

    The terminal of [crates/vt100] as the daemon keeps it for a pane: it can be read without
    being disturbed ([Snapshot]), and it is what the engine resizes ([Emulator] of [Engine]). *)

From S2P Require Import Prelude Float Layout Restart TermQuery Supervision Launch Persistence Engine.
From S2P Require Import VtCell VtRow VtGrid VtGridInv VtReflow VtScreen VtScreenProps VtResize VtLinks Snapshot.

(** ** Emulators survive being read *)

Record term_ok (t : Term) : Prop := {
  to_screen : screen_ok (screen t);
  to_offset : scrollback_offset (cur_grid (screen t)) = 0;
  to_len : scrollback_len (cur_grid (screen t)) ≤ usize_max;
  to_history : 1 ≤ scrollback_len (grid (screen t));
}.

Lemma scroll_screen_ok t n : screen_ok (screen t) → 0 ≤ n → screen_ok (screen (screen_set_scrollback t n)).
Proof.
  intros Hs Hn. destruct (cur_ok _ Hs) as [Hg Hsz]. unfold screen_set_scrollback. cbn [screen].
  apply set_cur_ok; [done|by apply set_scrollback_ok|done].
Qed.

(** The limits of the scrollback, of the screen shown and of the primary one. *)
Definition limits (t : Term) : Z * Z := (scrollback_len (cur_grid (screen t)), scrollback_len (grid (screen t))).
Definition limits_ok (l : Z * Z) : Prop := fst l ≤ usize_max ∧ 1 ≤ snd l.

Lemma scroll_len t n : limits (screen_set_scrollback t n) = limits t.
Proof.
  unfold limits, screen_set_scrollback. cbn [screen]. rewrite cur_set_cur. unfold set_cur. by destruct (mode_on _ _) eqn:E; unfold cur_grid; rewrite ?E.
Qed.

Lemma scroll_home t : screen_ok (screen t) → limits_ok (limits t) → term_ok (screen_set_scrollback t 0).
Proof.
  intros Hs Hl. rewrite <- (scroll_len t 0) in Hl. destruct Hl as [H1 H2]. split; [by apply scroll_screen_ok| |exact H1|exact H2].
  unfold screen_set_scrollback. cbn [screen]. rewrite cur_set_cur. unfold set_scrollback, pad_scrollback_window. simpl. lia.
Qed.

Lemma snapshot_term_ok t offset : term_ok t → 0 ≤ offset → ∃ t' snap, snapshot_at_offset t offset = Some (t', snap) ∧ term_ok t'.
Proof.
  intros [Hs Ho Hl Hh] Hn. unfold snapshot_at_offset. pose proof (scroll_screen_ok t offset Hs Hn) as Hs1.
  destruct (snapshot_ok _ Hs1) as (snap & -> & _). eexists _, snap. split; [done|]. apply scroll_home; [done|]. by rewrite scroll_len.
Qed.

Lemma search_from_screen t cols pattern offsets t' r :
  search_from t cols pattern offsets = Some (t', r) → Forall (λ n, 0 ≤ n) offsets → screen_ok (screen t) →
  screen_ok (screen t') ∧ limits t' = limits t.
Proof.
  intros E Hn. revert t E. induction Hn as [|n offsets Hn _ IH]; intros t E Hs; cbn [search_from] in E; [by simplify_eq|].
  pose proof (scroll_screen_ok t n Hs Hn) as Hs1. destruct (top_line _ _); [|done].
  destruct (str_contains _ _); [injection E as <- _; by rewrite scroll_len|].
  destruct (IH _ E Hs1) as [A B']. by rewrite B', scroll_len.
Qed.

Lemma search_term_ok t pattern start : term_ok t → 0 ≤ start → ∃ t' r, search_scrollback t pattern start = Some (t', r) ∧ term_ok t'.
Proof.
  intros [Hs Ho Hl Hh] Hn. destruct (decide (pattern = [])) as [->|Hp]; [by exists t, None|].
  destruct (cur_ok _ Hs) as [Hg _]. pose proof (go_bound _ Hg).
  destruct (search_ok t pattern start Hs Ho Hp Hn) as (t' & r & E & _); [lia|]. exists t', r. split; [done|].
  unfold search_scrollback in E. destruct pattern as [|p0 pattern]; [done|]. cbv zeta in E.
  destruct (search_from _ _ _ _) as [[t1 r1]|] eqn:Ef; [|done]. injection E as <- <-.
  assert (H0 : 0 ≤ usize_max) by (unfold usize_max, u64_max; lia).
  destruct (search_from_screen _ _ _ _ _ _ Ef) as [A B']; [|by apply scroll_screen_ok|].
  { apply Forall_forall. intros x Hx%elem_of_seqZ. lia. }
  apply scroll_home; [done|]. by rewrite B', scroll_len.
Qed.

(** ** Emulators survive being resized *)

Lemma set_size_frame g sz reflow g' :
  set_size g sz reflow = Some g' →
  size g' = sz ∧ scrollback_len g' = scrollback_len g ∧ (scrollback_offset g = 0 → scrollback_offset g' = 0).
Proof.
  unfold set_size. case_bool_decide as Hsz; [by intros [= <-]|]. cbv zeta.
  destruct (resize_rows g sz) as [[b trim]|]; [|done].
  match goal with |- match ?x with Some _ => _ | None => _ end = _ → _ => destruct x as [b'|]; [|done] end.
  destruct (fit_lines _ _ _) as [sb rs]. do 4 (case_match; [|done]). intros [= <-]. unfold pad_scrollback_window. simpl.
  split; [done|]. split; [done|]. intros ->. lia.
Qed.

Lemma set_size_nothing g sz reflow : 1 ≤ rows (size g) → 1 ≤ cols (size g) → rows sz < 1 ∨ cols sz < 1 → set_size g sz reflow = None.
Proof.
  intros Hr Hc Hz. unfold set_size. rewrite bool_decide_eq_false_2 by (intros ->; lia). cbv zeta.
  destruct (resize_rows g sz) as [[b trim]|]; [|done].
  match goal with |- match ?x with Some _ => _ | None => _ end = _ => destruct x as [b'|]; [|done] end.
  destruct (fit_lines _ _ _) as [sb rs]. destruct Hz as [Hz|Hz].
  - by replace (Z.to_nat (rows sz)) with 0%nat by lia.
  - case_match; [|done]. unfold u16_sub. by rewrite (proj2 (Z.leb_gt 1 (cols sz))) by lia.
Qed.

(** The screen takes the new size; the labels keep what they are. *)
Definition term_set_size (t : Term) (r c : Z) : option Term :=
  let! s := screen_set_size (screen t) (mkSize r c) in Some (mkTerm s (labels t)).

#[export, refine] Instance term_emulator : Emulator Term := {
  vt_set_size := term_set_size;
  emulator_size t := (rows (size (grid (screen t))), cols (size (grid (screen t))));
  emulator_ok := term_ok;
  vt_set_size_ok := _; vt_set_size_zero := _; vt_set_size_size := _;
}.
Proof.
  - intros t r c [Hs Ho Hl Hh] Hr Hc. unfold MAX_PANE_ROWS, MAX_PANE_COLS in *.
    destruct (screen_set_size_ok (screen t) (mkSize r c) Hs Hh) as (s & E & Hs' & Hf); [split; cbn; unfold u16_max; lia|].
    exists (mkTerm s (labels t)). unfold term_set_size. rewrite E. split; [done|].
    unfold screen_set_size in E. destruct (set_size (grid (screen t)) _ _) as [g|] eqn:Eg; [|done].
    destruct (set_size (alternate_grid (screen t)) _ _) as [a|] eqn:Ea; [|done]. injection E as <-.
    destruct (set_size_frame _ _ _ _ Eg) as (_ & G2 & G3), (set_size_frame _ _ _ _ Ea) as (_ & A2 & A3).
    assert (Hm : mode_on (with_grids (screen t) g a) MODE_ALTERNATE_SCREEN = mode_on (screen t) MODE_ALTERNATE_SCREEN) by done.
    unfold cur_grid in Ho, Hl. split; cbn [screen]; [done|unfold cur_grid; rewrite Hm..|cbn; lia]; destruct (mode_on (screen t) _); cbn; auto; lia.
  - intros t r c [Hs _ _ _] Hz. unfold term_set_size, screen_set_size. pose proof (so_grid _ Hs) as Hg.
    rewrite set_size_nothing; [done|apply (go_rows _ Hg)|apply (go_cols _ Hg)|exact Hz].
  - intros t r c t'. unfold term_set_size, screen_set_size. destruct (set_size (grid (screen t)) _ _) as [g|] eqn:Eg; [|done].
    destruct (set_size (alternate_grid (screen t)) _ _) as [a|]; [|done]. intros [= <-]. cbn. by rewrite (proj1 (set_size_frame _ _ _ _ Eg)).
Defined.
