(* ===== verification/Service.v ===== *)
(** * The daemon's requests ([crates/tymuxd/src/main.rs])

    The handlers of the gRPC service on top of the engine: reading a request, the status code
    of every refusal, the reply, and what the daemon keeps beside the engine (when clients
    disconnected, how many are attached, how they resumed). The numbering of the enumerations
    is that of the protocol ([proto/tymux/v1/tymux.proto]).

    Parsing and printing of a uuid is the [uuid] crate's. What the operating system answers to
    a spawn or a signal, and what happens while a handler waits, are arguments. [None] is a
    panic. *)

From S2P Require Import Prelude Float Layout Restart TermQuery Supervision Launch Persistence Engine EngineInv.
From S2P Require Import VtLinks Snapshot PaneTerm.

Set Warnings "-register-all".

(** ** Statuses *)

Inductive Code := InvalidArgument | NotFoundCode | FailedPrecondition | Internal.
#[export] Instance Code_eq_dec : EqDecision Code.
Proof. solve_decision. Defined.

(** The reason attached to a dead pane's status. *)
Inductive Reason := REASON_PANE_EXITED | REASON_PANE_RESTORED_WITHOUT_SCREEN.

Inductive SpawnError := SpawnLaunch (e : LaunchError) | SpawnOther (message : string).

(** Why a write to a pane's standard input fails. *)
Inductive StdinError := NotStreaming | StdinClosed | BrokenPipe | StdinIo (errno : Z).

(** The texts of the statuses, with the values they show. *)
Inductive Message :=
| MsgInvalidId | MsgOrientation | MsgMode | MsgPolicy (e : PolicyError) | MsgArgSpec | MsgPolicyRequired | MsgTarget
| MsgNoPane | MsgEngine (e : EngineError) | MsgPaneExited (id : Uuid) | MsgPaneRestored (id : Uuid)
| MsgVanished | MsgSpawn (e : SpawnError) | MsgNoSession (id : Uuid) | MsgNoSuchPane (id : Uuid)
| MsgStreamClosed | MsgFirstMessage | MsgLaterMessage | MsgStdin (e : StdinError).

Record Status := mkStatus { st_code : Code; st_message : Message; st_reason : option Reason }.

Definition invalid_argument (m : Message) : Status := mkStatus InvalidArgument m None.
Definition not_found (m : Message) : Status := mkStatus NotFoundCode m None.
Definition failed_precondition (m : Message) : Status := mkStatus FailedPrecondition m None.
Definition internal (m : Message) : Status := mkStatus Internal m None.

Definition engine_error_to_status (e : EngineError) : Status :=
  match e with
  | EPaneNotFound _ | ESessionNotFound _ => not_found (MsgEngine e)
  | EBelowMinimumSize _ _ | EBelowRecommendedSize _ | EReviveLaunch _ _ | EPaneStopped _ | EPaneFailed _ | EPaneRunning _
  | EPaneStart _ _ => failed_precondition (MsgEngine e)
  | EInvalidRestartPolicy why => invalid_argument (MsgPolicy why)
  end.

(** A bad launch description is the caller's to fix. *)
Definition spawn_error_to_status (e : SpawnError) : Status :=
  match e with
  | SpawnLaunch l =>
      match kind l with
      | Invalid => invalid_argument (MsgSpawn e)
      | NotFound => not_found (MsgSpawn e)
      | Precondition => failed_precondition (MsgSpawn e)
      end
  | SpawnOther _ => internal (MsgSpawn e)
  end.

(** ** The wire *)

Inductive Liveness := LivenessUnspecified | LivenessLive | LivenessDead.
Definition liveness_of (live : bool) : Liveness := if live then LivenessLive else LivenessDead.
Definition liveness_i32 (l : Liveness) : Z := match l with LivenessUnspecified => 0 | LivenessLive => 1 | LivenessDead => 2 end.

Definition orientation_to_proto (o : Orientation) : Z := match o with Horizontal => 1 | Vertical => 2 end.
Definition orientation_from_proto (o : Z) : result Orientation Status :=
  match o with 1 => Ok Horizontal | 2 => Ok Vertical | _ => Err (invalid_argument MsgOrientation) end.

Definition state_to_proto (s : LifecycleState) : Z :=
  match s with Live => 1 | Exited => 2 | Backoff => 3 | Restarting => 4 | Failed => 5 | Stopped => 6 end.
Definition STATE_UNSPECIFIED : Z := 0.

Record ProtoRestartPolicy := mkProtoPolicy {
  pp_mode : Z; pp_max_restarts : option Z; pp_window_ms : option Z; pp_initial_delay_ms : option Z;
  pp_multiplier : option spec_float; pp_max_delay_ms : option Z; pp_jitter : option spec_float; pp_healthy_after_ms : option Z;
}.

Definition mode_to_proto (m : RestartMode) : Z := match m with Never => 1 | OnFailure => 2 | Always => 3 | UnlessStopped => 4 end.
Definition mode_from_proto (m : Z) : option RestartMode :=
  match m with 1 => Some Never | 2 => Some OnFailure | 3 => Some Always | 4 => Some UnlessStopped | _ => None end.

Definition policy_to_proto (p : RestartPolicy) : ProtoRestartPolicy :=
  mkProtoPolicy (mode_to_proto (rp_mode p)) (Some (rp_max_restarts p)) (Some (rp_window_ms p)) (Some (rp_initial_delay_ms p))
    (Some (rp_multiplier p)) (Some (rp_max_delay_ms p)) (Some (rp_jitter p)) (Some (rp_healthy_after_ms p)).

Definition policy_from_proto (p : ProtoRestartPolicy) : result RestartPolicy Status :=
  let d := policy_default in
  match mode_from_proto (pp_mode p) with
  | None => Err (invalid_argument MsgMode)
  | Some mode =>
      let policy :=
        mkPolicy mode (default (rp_max_restarts d) (pp_max_restarts p)) (default (rp_window_ms d) (pp_window_ms p))
          (default (rp_initial_delay_ms d) (pp_initial_delay_ms p)) (default (rp_multiplier d) (pp_multiplier p))
          (default (rp_max_delay_ms d) (pp_max_delay_ms p)) (default (rp_jitter d) (pp_jitter p))
          (default (rp_healthy_after_ms d) (pp_healthy_after_ms p)) in
      match validate policy with
      | Err e => Err (invalid_argument (MsgPolicy e))
      | Ok _ => Ok policy
      end
  end.

Definition i64_max : Z := 9223372036854775807.
Definition unix_ms (ms : Z) : Z := if ms <=? i64_max then ms else i64_max.

Record ProtoPaneStatus := mkProtoStatus {
  psx_pane_id : list Z; psx_state : Z; psx_policy : option ProtoRestartPolicy;
  psx_restart_count : Z; psx_restarts_in_window : Z; psx_consecutive_failures : Z;
  psx_last_exit_code : option Z; psx_last_exit_signal : option Z; psx_last_exit_at_unix_ms : option Z;
  psx_next_restart_at_unix_ms : option Z; psx_started_at_unix_ms : option Z;
  psx_uptime_ms : Z; psx_pid : option Z; psx_now_unix_ms : Z;
}.

Record ProtoLifecycleEvent := mkProtoEvent {
  plx_kind : Z; plx_state : Z; plx_exit_code : option Z; plx_exit_signal : option Z; plx_delay_ms : option Z;
  plx_next_restart_at_unix_ms : option Z; plx_pid : option Z; plx_restart_count : Z; plx_at_unix_ms : Z;
}.

Definition event_kind_to_proto (k : LifecycleEventKind) : Z :=
  match k with EvExited => 1 | EvRestartScheduled => 2 | EvRestarted => 3 | EvFailed => 4 | EvStopped => 5 end.

Definition lifecycle_event_to_proto (e : LifecycleEvent) : ProtoLifecycleEvent :=
  mkProtoEvent (event_kind_to_proto (le_kind e)) (state_to_proto (le_state e)) (le_exit_code e) (le_exit_signal e) (le_delay_ms e)
    (unix_ms <$> le_next_restart_at_ms e) (le_pid e) (le_restart_count e) (unix_ms (le_at_ms e)).

(** Milliseconds. *)
Definition DEFAULT_STOP_GRACE : Z := 5000.
Definition REAP_MARGIN : Z := 2000.
Definition grace_of (grace_ms : option Z) : Z := default DEFAULT_STOP_GRACE grace_ms.

Record ProtoPane := mkProtoPane {
  px_id : list Z; px_rows : Z; px_cols : Z; px_liveness : Z; px_cwd : list Z; px_state : Z;
}.
Inductive ProtoLayout :=
| PxPane (p : ProtoPane)
| PxSplit (orientation : Z) (children : list (ProtoLayout * spec_float)).
Record ProtoWindow := mkProtoWindow { pwx_id : list Z; pwx_name : list Z; pwx_layout : ProtoLayout }.
Record ProtoSession := mkProtoSession {
  pse_id : list Z; pse_name : list Z; pse_windows : list ProtoWindow; pse_liveness : Z;
}.

(** A snapshot and what the daemon adds to it. *)
Record ProtoSnapshot := mkProtoSnapshot {
  psn_pane_id : list Z; psn_snapshot : PaneSnapshot; psn_liveness : Z; psn_state : Z; psn_exit_code : option Z;
}.

Definition snapshot_to_proto (pane_id : list Z) (snap : PaneSnapshot) (live : bool) : ProtoSnapshot :=
  mkProtoSnapshot pane_id snap (liveness_i32 (liveness_of live)) STATE_UNSPECIFIED None.

(** The leaf panes of a layout, in order. *)
Fixpoint collect_leaf_pane_ids (layout : LayoutSnapshot) : list Uuid :=
  match layout with
  | SnapLeaf info => [i_id info]
  | SnapSplit _ children => flat_map (λ c, collect_leaf_pane_ids (fst c)) children
  end.

(** A proto [ArgSpec], with its source or without one. *)
Definition arg_spec_from_proto (source : option ArgSpec) : result ArgSpec Status :=
  match source with Some s => Ok s | None => Err (invalid_argument MsgArgSpec) end.

Fixpoint arg_specs_from_proto (sources : list (option ArgSpec)) : result (list ArgSpec) Status :=
  match sources with
  | [] => Ok []
  | s :: sources =>
      let? a := arg_spec_from_proto s in
      let? rest := arg_specs_from_proto sources in
      Ok (a :: rest)
  end.

(** Proto strings are empty when unset. *)
Definition non_empty (s : list Z) : option (list Z) := match s with [] => None | _ => Some s end.

(** [Uuid::parse_str] and [Display]: a printed uuid parses to itself. *)
Class UuidText := {
  to_text : Uuid → list Z;
  parse_str : list Z → option Uuid;
  parse_to_text id : parse_str (to_text id) = Some id;
}.

Section Wire.
Context `{!UuidText}.

Definition parse_uuid (s : list Z) : result Uuid Status := ok_or (parse_str s) (invalid_argument MsgInvalidId).

Definition status_to_proto (s : PaneStatus) : ProtoPaneStatus :=
  let v := ps_view s in
  mkProtoStatus (to_text (ps_pane_id s)) (state_to_proto (sv_state v)) (Some (policy_to_proto (sv_policy v)))
    (sv_restart_count v) (sv_restarts_in_window v) (sv_consecutive_failures v)
    (sv_last_exit v ≫= er_code) (sv_last_exit v ≫= er_signal) ((λ e, unix_ms (er_at_ms e)) <$> sv_last_exit v)
    (unix_ms <$> sv_next_restart_at_ms v) (unix_ms <$> sv_started_at_ms v)
    match ps_pid s, sv_started_at_ms v with Some _, Some started => sat_sub (ps_now_ms s) started | _, _ => 0 end
    (ps_pid s) (unix_ms (ps_now_ms s)).

Fixpoint layout_snapshot_to_proto (layout : LayoutSnapshot) : ProtoLayout :=
  match layout with
  | SnapLeaf i =>
      PxPane (mkProtoPane (to_text (i_id i)) (i_rows i) (i_cols i) (liveness_i32 (liveness_of (i_live i))) (i_cwd i)
                (state_to_proto (i_state i)))
  | SnapSplit o children => PxSplit (orientation_to_proto o) (map (λ c, (layout_snapshot_to_proto (fst c), snd c)) children)
  end.

Definition window_to_proto (w : WindowSnapshot) : ProtoWindow :=
  mkProtoWindow (to_text (ws_id w)) (ws_name w) (layout_snapshot_to_proto (ws_layout w)).

Definition session_to_proto (s : SessionSnapshot) : ProtoSession :=
  mkProtoSession (to_text (ss_id s)) (ss_name s) (map window_to_proto (ss_windows s)) (liveness_i32 (liveness_of (ss_live s))).

End Wire.

(** ** The daemon *)

Inductive ResumeOutcome := ResumedFromBuffer | GapExceededFallback | NoResumeTokenFullAttach.

Record ResumeOutcomeCounters := mkCounters {
  rc_resumed_from_buffer : Z; rc_gap_exceeded_fallback : Z; rc_no_resume_token_full_attach : Z;
}.

Definition record_resume_outcome (c : ResumeOutcomeCounters) (o : ResumeOutcome) : ResumeOutcomeCounters :=
  let 'mkCounters a b n := c in
  match o with
  | ResumedFromBuffer => mkCounters (a + 1) b n
  | GapExceededFallback => mkCounters a (b + 1) n
  | NoResumeTokenFullAttach => mkCounters a b (n + 1)
  end.

(** A pane's standard input when it is a pipe: whether it is open, and what was written. *)
Record Stdin := mkStdin { si_open : bool; si_data : list byte }.

(** The engine; when each pane last lost a client; the open attaches; how they resumed; and,
    for every pane by reference, its emulator, its standard input and what was typed into its
    terminal. *)
Record Daemon (B : Type) := mkDaemon {
  d_engine : Engine B;
  d_disconnect_tracker : gmap Uuid Z;
  d_attached_sessions_gauge : Z;
  d_resume_outcome_counters : ResumeOutcomeCounters;
  d_terms : N → Term;
  d_stdins : N → Stdin;
  d_typed : N → list byte;
}.
Arguments mkDaemon {B} _ _ _ _ _ _ _.
Arguments d_engine {B} _.
Arguments d_disconnect_tracker {B} _.
Arguments d_attached_sessions_gauge {B} _.
Arguments d_resume_outcome_counters {B} _.
Arguments d_terms {B} _ _.
Arguments d_stdins {B} _ _.
Arguments d_typed {B} _ _.

Definition set_engine {B} (d : Daemon B) (e : Engine B) : Daemon B :=
  let 'mkDaemon _ tr g c ts si ty := d in mkDaemon e tr g c ts si ty.
Definition set_tracker {B} (d : Daemon B) (tr : gmap Uuid Z) : Daemon B :=
  let 'mkDaemon e _ g c ts si ty := d in mkDaemon e tr g c ts si ty.
Definition set_gauge {B} (d : Daemon B) (g : Z) : Daemon B :=
  let 'mkDaemon e tr _ c ts si ty := d in mkDaemon e tr g c ts si ty.
Definition set_counters {B} (d : Daemon B) (c : ResumeOutcomeCounters) : Daemon B :=
  let 'mkDaemon e tr g _ ts si ty := d in mkDaemon e tr g c ts si ty.
Definition set_terms {B} (d : Daemon B) (ts : N → Term) : Daemon B :=
  let 'mkDaemon e tr g c _ si ty := d in mkDaemon e tr g c ts si ty.
Definition set_term {B} (d : Daemon B) (r : N) (t : Term) : Daemon B :=
  set_terms d (λ r', if N.eqb r' r then t else d_terms d r').
Definition set_stdin {B} (d : Daemon B) (r : N) (s : Stdin) : Daemon B :=
  let 'mkDaemon e tr g c ts si ty := d in mkDaemon e tr g c ts (λ r', if N.eqb r' r then s else si r') ty.
Definition set_typed {B} (d : Daemon B) (r : N) (l : list byte) : Daemon B :=
  let 'mkDaemon e tr g c ts si ty := d in mkDaemon e tr g c ts si (λ r', if N.eqb r' r then l else ty r').

Definition purge_disconnect_tracker {B} (d : Daemon B) (pane_id : Uuid) : Daemon B :=
  set_tracker d (delete pane_id (d_disconnect_tracker d)).

(** The canary for panes that die with their client: whether it warns. *)
Definition warn_if_exit_follows_disconnect {B} (d : Daemon B) (pane_id : Uuid) (now window : Z) : Daemon B * bool :=
  match d_disconnect_tracker d !! pane_id with
  | None => (d, false)
  | Some at_ => (purge_disconnect_tracker d pane_id, now - at_ <=? window)
  end.

(** *** Finding the pane of a request *)

Section Resolve.
Context {B : Type}.
Implicit Types (e : Engine B).

Definition dead_pane_status e (pane_id : Uuid) : Status :=
  match exited_pane e pane_id with
  | Some _ => mkStatus FailedPrecondition (MsgPaneExited pane_id) (Some REASON_PANE_EXITED)
  | None => mkStatus FailedPrecondition (MsgPaneRestored pane_id) (Some REASON_PANE_RESTORED_WITHOUT_SCREEN)
  end.

Definition resolve_live_pane e (pane_id : Uuid) : result N Status :=
  match pane_lookup e pane_id with
  | LookupLive r => Ok r
  | LookupDead => Err (dead_pane_status e pane_id)
  | LookupUnknown => Err (not_found MsgNoPane)
  end.

(** [Pane::restart_pending]. *)
Definition pane_restart_pending e (r : N) : bool :=
  match sv_heap (en_supervision e) !! r with Some p => p_restart_pending p | None => false end.

Definition resolve_attachable_pane e (pane_id : Uuid) : result N Status :=
  match resolve_live_pane e pane_id with
  | Ok r => Ok r
  | Err st =>
      match held_pane e pane_id with
      | Some r => if pane_restart_pending e r then Ok r else Err st
      | None => Err st
      end
  end.

Definition resolve_readable_pane e (pane_id : Uuid) : result N Status :=
  match resolve_live_pane e pane_id with
  | Ok r => Ok r
  | Err st => match exited_pane e pane_id with Some r => Ok r | None => Err st end
  end.

End Resolve.

(** ** The server *)

Definition PROTOCOL_VERSION : Z := 1.
Definition MIN_CLIENT_PROTOCOL_VERSION : Z := 1.
Definition CAPABILITIES : list (list Z) :=
  ascii <$> ["create_session.args_env"; "create_session.stderr_redirect"; "create_session.file_args"; "create_session.stdin_file";
             "create_session.stdin_stream"; "uds_auth"; "pane.lifecycle"; "server_info.fd_usage"]%string.

Record ServerInfo := mkServerInfo {
  sf_protocol_version : Z; sf_min_client_protocol_version : Z; sf_capabilities : list (list Z); sf_pid : Z;
  sf_started_at_unix : Z; sf_open_fds : Z; sf_max_open_fds : Z;
}.

(** [started_at]: the seconds since the epoch, if the clock is not before it; [open_fds]: the
    count, unless its task failed. Also whether the client is warned about. *)
Definition get_server_info (client_protocol_version : Z) (started_at open_fds : option Z) (pid soft_limit : Z) : bool * ServerInfo :=
  (negb (client_protocol_version =? 0) && (client_protocol_version <? MIN_CLIENT_PROTOCOL_VERSION),
   mkServerInfo PROTOCOL_VERSION MIN_CLIENT_PROTOCOL_VERSION CAPABILITIES pid (default 0 started_at) (default 0 open_fds) soft_limit).

(** ** Requests *)

Record CreateSessionRequest := mkCreateRequest {
  cq_name : list Z; cq_command : list Z; cq_cwd : list Z; cq_args : list bytes; cq_env : gmap (list Z) (list Z);
  cq_stderr_path : list Z; cq_arg_specs : list (option ArgSpec); cq_stdin_path : list Z; cq_stdin_stream : bool;
  cq_restart_policy : option ProtoRestartPolicy;
}.

Inductive PolicyTarget := TargetPane (id : list Z) | TargetSession (id : list Z).

Record ReviveReply := mkReviveReply { rr_already_live : bool; rr_pane_count : Z; rr_session : option ProtoSession }.
Record CloseReply := mkCloseReply {
  cr_window_closed_id : list Z; cr_window_closed_name : list Z; cr_session_closed_id : list Z; cr_session_closed_name : list Z;
  cr_session : option ProtoSession;
}.
Record SearchReply := mkSearchReply { sr_found : bool; sr_offset : Z; sr_line : list Z }.
Record WindowLayoutEvent := mkLayoutEvent { we_layout : ProtoLayout; we_attached_client_count : Z }.

(** A spawn as the engine sees it: it succeeded or not. *)
Definition spawn_ok (spawned : result Spawned SpawnError) : option Spawned := match spawned with Ok sp => Some sp | Err _ => None end.

(** What happens in one round of waiting for a restart: the answers to the supervisor's
    spawns, and what else the daemon does until the pane's state changes. *)
Record WaitRound (B : Type) := mkRound {
  wr_spawned : Uuid → result (option Z) string; wr_unit : Uuid → spec_float; wr_now : Z; wr_between : Engine B → Engine B;
}.
Arguments mkRound {B} _ _ _ _.
Arguments wr_spawned {B} _ _.
Arguments wr_unit {B} _ _.
Arguments wr_now {B} _.
Arguments wr_between {B} _ _.

Section Handlers.
Context {B : Type} `{BK : PersistenceBackend B} (powi : spec_float → Z → spec_float) (default_shell : list Z) `{!UuidText}.
Implicit Types (d : Daemon B) (e : Engine B).

(** The status of a spawn that failed. *)
Definition spawn_failure (spawned : result Spawned SpawnError) : Status :=
  match spawned with Err e => spawn_error_to_status e | Ok _ => internal MsgVanished end.

Definition create_session d (req : CreateSessionRequest) (spawned : result Spawned SpawnError) (wid sid : Uuid) (t : Tick)
    : Daemon B * result ProtoSession Status :=
  let command := non_empty (cq_command req) in
  let cwd := non_empty (cq_cwd req) in
  match (match cq_restart_policy req with None => Ok policy_default | Some p => policy_from_proto p end) with
  | Err st => (d, Err st)
  | Ok policy =>
      match arg_specs_from_proto (cq_arg_specs req) with
      | Err st => (d, Err st)
      | Ok specs =>
          let launch := mkLaunch (cq_args req) (cq_env req) specs (non_empty (cq_stderr_path req)) (non_empty (cq_stdin_path req))
                          (cq_stdin_stream req) in
          let '(e, r) := create_session_supervised powi default_shell (d_engine d) (cq_name req) command launch cwd policy
                           (spawn_ok spawned) wid sid t in
          (set_engine d e,
           match r with
           | Err (CreateInvalidPolicy why) => Err (internal (MsgPolicy why))
           | Err CreateSpawnFailed => Err (spawn_failure spawned)
           | Ok id => match session_snapshot e id with Some s => Ok (session_to_proto s) | None => Err (internal MsgVanished) end
           end)
      end
  end.

Definition list_sessions_rpc d : list ProtoSession := map session_to_proto (list_sessions (d_engine d)).

Definition session_leaf_ids (s : SessionSnapshot) : list Uuid := flat_map (λ w, collect_leaf_pane_ids (ws_layout w)) (ss_windows s).

Definition kill_session_rpc d (session_id : list Z) : Daemon B * result unit Status :=
  match parse_uuid session_id with
  | Err st => (d, Err st)
  | Ok id =>
      let pane_ids := match session_snapshot (d_engine d) id with Some s => session_leaf_ids s | None => [] end in
      let '(e, r) := kill_session (d_engine d) id in
      let d := set_engine d e in
      match r with
      | Err _ => (d, Err (not_found (MsgNoSession id)))
      | Ok _ => (foldl purge_disconnect_tracker d pane_ids, Ok tt)
      end
  end.

Definition revive_session_rpc d (session_id : list Z) (env : ReviveEnv) : Daemon B * result ReviveReply Status :=
  match parse_uuid session_id with
  | Err st => (d, Err st)
  | Ok id =>
      let '(e, r) := revive_session powi (d_engine d) id env in
      (set_engine d e,
       let? outcome := map_err engine_error_to_status r in
       let '(already_live, pane_count) :=
         match outcome with AlreadyLive => (true, 0) | Revived n => (false, Z.of_nat n mod 2 ^ 32) end in
       Ok (mkReviveReply already_live pane_count
             (session_to_proto <$> find (λ s, bool_decide (ss_id s = id)) (list_sessions e))))
  end.

Definition capture_pane d (pane_id : list Z) (scrollback_offset : Z) : option (Daemon B * result ProtoSnapshot Status) :=
  match parse_uuid pane_id with
  | Err st => Some (d, Err st)
  | Ok id =>
      match resolve_readable_pane (d_engine d) id with
      | Err st => Some (d, Err st)
      | Ok r =>
          let live := negb (is_exited (d_engine d) r) in
          let! (t, snap) := snapshot_at_offset (d_terms d r) scrollback_offset in
          let reply := snapshot_to_proto pane_id snap live in
          Some (set_term d r t,
                Ok (mkProtoSnapshot (psn_pane_id reply) (psn_snapshot reply) (psn_liveness reply)
                      (match state_of (en_supervision (d_engine d)) id with Some s => state_to_proto s | None => STATE_UNSPECIFIED end)
                      (if live then None else v_exit_code (pane_view (d_engine d) r))))
      end
  end.

Definition search_scrollback_rpc d (pane_id pattern : list Z) (start_offset : Z) : option (Daemon B * result SearchReply Status) :=
  match parse_uuid pane_id with
  | Err st => Some (d, Err st)
  | Ok id =>
      match resolve_readable_pane (d_engine d) id with
      | Err st => Some (d, Err st)
      | Ok r =>
          let! (t, found) := search_scrollback (d_terms d r) pattern start_offset in
          Some (set_term d r t,
                Ok match found with
                   | Some (offset, line) => mkSearchReply true (offset mod 2 ^ 32) line
                   | None => mkSearchReply false 0 []
                   end)
      end
  end.

Definition split_pane_rpc d (pane_id : list Z) (orientation : Z) (command : list Z) (spawned : result Spawned SpawnError) (t : Tick)
    : option (Daemon B * result ProtoSession Status) :=
  match parse_uuid pane_id with
  | Err st => Some (d, Err st)
  | Ok id =>
      match orientation_from_proto orientation with
      | Err st => Some (d, Err st)
      | Ok o =>
          let! (e, r) := split_pane powi default_shell (d_engine d) id o (non_empty command) (spawn_ok spawned) t in
          Some (set_engine d e, let? s := map_err engine_error_to_status r in Ok (session_to_proto s))
      end
  end.

Definition close_pane_rpc d (pane_id : list Z) : option (Daemon B * result CloseReply Status) :=
  match parse_uuid pane_id with
  | Err st => Some (d, Err st)
  | Ok id =>
      let! (e, r) := close_pane (d_engine d) id in
      let d := set_engine d e in
      Some match r with
           | Err err => (d, Err (engine_error_to_status err))
           | Ok outcome =>
               let id_of c := match c with Some (id, _) => to_text id | None => [] end in
               let name_of (c : option (Uuid * list Z)) := match c with Some (_, name) => name | None => [] end in
               (purge_disconnect_tracker d id,
                Ok (mkCloseReply (id_of (c_window_closed outcome)) (name_of (c_window_closed outcome))
                      (id_of (c_session_closed outcome)) (name_of (c_session_closed outcome))
                      (session_to_proto <$> c_session outcome)))
           end
  end.

Definition create_window_rpc d (session_id command : list Z) (spawned : result Spawned SpawnError) (wid : Uuid) (t : Tick)
    : Daemon B * result ProtoSession Status :=
  match parse_uuid session_id with
  | Err st => (d, Err st)
  | Ok id =>
      let '(e, r) := create_window powi default_shell (d_engine d) id (non_empty command) (spawn_ok spawned) wid t in
      (set_engine d e, let? s := map_err engine_error_to_status r in Ok (session_to_proto s))
  end.

(** The event a watcher of a window gets now; the stream ends when the window is gone. *)
Definition window_event d (id : Uuid) : option WindowLayoutEvent :=
  (λ w, mkLayoutEvent (layout_snapshot_to_proto (ws_layout w)) (attached_client_count (d_engine d) id))
    <$> window_snapshot (d_engine d) id.

Definition watch_window_rpc d (window_id : list Z) : Daemon B * result (option WindowLayoutEvent) Status :=
  match parse_uuid window_id with
  | Err st => (d, Err st)
  | Ok id => let d := set_engine d (watch_window (d_engine d) id) in (d, Ok (window_event d id))
  end.

(** *** Lifecycle *)

Definition pane_status_rpc d (id : Uuid) (now : Z) : result ProtoPaneStatus Status :=
  match pane_status (en_supervision (d_engine d)) id now with
  | Some s => Ok (status_to_proto s)
  | None => Err (not_found (MsgNoSuchPane id))
  end.

Definition set_restart_policy_rpc d (target : option PolicyTarget) (policy : option ProtoRestartPolicy) (apply : bool) (now : Z)
    : Daemon B * result (option ProtoPaneStatus) Status :=
  match (let? p := ok_or policy (invalid_argument MsgPolicyRequired) in policy_from_proto p) with
  | Err st => (d, Err st)
  | Ok policy =>
      match target with
      | Some (TargetPane id) =>
          match parse_uuid id with
          | Err st => (d, Err st)
          | Ok id =>
              let '(e, r) := set_restart_policy (d_engine d) id policy now in
              (set_engine d e, let? s := map_err engine_error_to_status r in Ok (Some (status_to_proto s)))
          end
      | Some (TargetSession id) =>
          match parse_uuid id with
          | Err st => (d, Err st)
          | Ok id =>
              let '(e, r) := set_session_restart_policy (d_engine d) id policy apply now in
              (set_engine d e, let? _ := map_err engine_error_to_status r in Ok None)
          end
      | None => (d, Err (invalid_argument MsgTarget))
      end
  end.

Definition get_pane_status d (pane_id : list Z) (now : Z) : result ProtoPaneStatus Status :=
  let? id := parse_uuid pane_id in pane_status_rpc d id now.

(** [Pane::generation] *)
Definition pane_generation e (r : N) : Z :=
  match sv_heap (en_supervision e) !! r with Some p => p_generation p | None => 0 end.

(** Waits for a process that was signalled to die, running the supervisor when it has, until
    the pane has a new process or the rounds (the time) are over. *)
Fixpoint wait_for_restart e (r : N) (generation_before : Z) (rounds : list (WaitRound B)) : Engine B :=
  match rounds with
  | [] => e
  | w :: rounds =>
      if generation_before <? pane_generation e r then e
      else
        let e := if is_exited e r then fst (supervise_tick powi e (wr_spawned w) (wr_unit w) (wr_now w)) else e in
        if generation_before <? pane_generation e r then e
        else wait_for_restart (wr_between w e) r generation_before rounds
  end.

Definition restart_pane_rpc d (pane_id : list Z) (reset_backoff : bool) (sent : result unit string) (spawned : result Spawned string)
    (respawned : result (option Z) string) (t : Tick) (rounds : list (WaitRound B)) (now : Z)
    : Daemon B * result ProtoPaneStatus Status :=
  match parse_uuid pane_id with
  | Err st => (d, Err st)
  | Ok id =>
      let generation_before := match held_pane (d_engine d) id with Some r => pane_generation (d_engine d) r | None => 0 end in
      let '(e, r) := restart_pane powi (d_engine d) id reset_backoff sent spawned respawned t in
      match r with
      | Err err => (set_engine d e, Err (engine_error_to_status err))
      | Ok outcome =>
          let e := match outcome, held_pane e id with
                   | Signaled, Some r => wait_for_restart e r generation_before rounds
                   | _, _ => e
                   end in
          let d := set_engine d e in (d, pane_status_rpc d id now)
      end
  end.

(** [waited] is what happens while a signalled process is given time to die. *)
Definition stop_pane_rpc d (pane_id : list Z) (sent : result unit string) (at_ now : Z) (waited : Engine B → Engine B)
    : Daemon B * result ProtoPaneStatus Status :=
  match parse_uuid pane_id with
  | Err st => (d, Err st)
  | Ok id =>
      let '(e, r) := stop_pane (d_engine d) id sent at_ in
      match r with
      | Err err => (set_engine d e, Err (engine_error_to_status err))
      | Ok outcome =>
          let e := match outcome, held_pane e id with Signaled, Some _ => waited e | _, _ => e end in
          let d := set_engine d e in (d, pane_status_rpc d id now)
      end
  end.

Definition start_pane_rpc d (pane_id : list Z) (spawned : result Spawned string) (respawned : result (option Z) string) (t : Tick)
    (now : Z) : Daemon B * result ProtoPaneStatus Status :=
  match parse_uuid pane_id with
  | Err st => (d, Err st)
  | Ok id =>
      let '(e, r) := start_pane powi (d_engine d) id spawned respawned t in
      let d := set_engine d e in
      (d, let? _ := map_err engine_error_to_status r in pane_status_rpc d id now)
  end.

Definition reset_restart_budget_rpc d (pane_id : list Z) (now : Z) : Daemon B * result ProtoPaneStatus Status :=
  match parse_uuid pane_id with
  | Err st => (d, Err st)
  | Ok id =>
      let '(e, r) := reset_restart_budget (d_engine d) id in
      let d := set_engine d e in
      (d, let? _ := map_err engine_error_to_status r in pane_status_rpc d id now)
  end.

(** *** Standard input *)

(** [write_all] on the pipe: everything, or a part before it failed. *)
Inductive WriteAnswer := WroteAll | WrotePart (n : nat) (e : StdinError).

Definition pane_write_stdin (stream : bool) (s : Stdin) (data : list byte) (answer : WriteAnswer) : Stdin * result unit StdinError :=
  if si_open s then
    match answer with
    | WroteAll => (mkStdin true (si_data s ++ data), Ok tt)
    | WrotePart n err => (mkStdin true (si_data s ++ take n data), Err err)
    end
  else (s, Err (if stream then StdinClosed else NotStreaming)).

Definition pane_close_stdin (stream : bool) (s : Stdin) : Stdin * result unit StdinError :=
  if stream then (mkStdin false (si_data s), Ok tt) else (s, Err NotStreaming).

Inductive StdinPayload := StdinPaneId (id : list Z) | StdinData (data : list byte) | StdinClose (close : bool).

Definition stdin_error_to_status (err : StdinError) : Status :=
  match err with StdinIo _ => internal (MsgStdin err) | _ => failed_precondition (MsgStdin err) end.

(** The messages after the first, with the system's answers to the writes. *)
Fixpoint write_stdin_loop (stream : bool) (s : Stdin) (messages : list (option StdinPayload * WriteAnswer)) (written : Z)
    : Stdin * result Z Status :=
  match messages with
  | [] => (s, Ok written)
  | (Some (StdinData data), answer) :: messages =>
      let '(s, r) := pane_write_stdin stream s data answer in
      match r with
      | Ok _ => write_stdin_loop stream s messages (written + Z.of_nat (length data))
      | Err err => (s, Err (stdin_error_to_status err))
      end
  | (Some (StdinClose true), _) :: messages =>
      let '(s, r) := pane_close_stdin stream s in
      match r with
      | Ok _ => write_stdin_loop stream s messages written
      | Err err => (s, Err (stdin_error_to_status err))
      end
  | _ :: _ => (s, Err (invalid_argument MsgLaterMessage))
  end.

Definition write_stdin_rpc d (first : option (option StdinPayload)) (messages : list (option StdinPayload * WriteAnswer))
    : Daemon B * result Z Status :=
  match first with
  | None => (d, Err (invalid_argument MsgStreamClosed))
  | Some (Some (StdinPaneId pane_id)) =>
      match (let? id := parse_uuid pane_id in resolve_live_pane (d_engine d) id) with
      | Err st => (d, Err st)
      | Ok r =>
          let stream := l_stdin_stream (v_launch (pane_view (d_engine d) r)) in
          let '(s, res) := write_stdin_loop stream (d_stdins d r) messages 0 in
          (set_stdin d r s, res)
      end
  | Some _ => (d, Err (invalid_argument MsgFirstMessage))
  end.

(** *** Attaching

    The streams of [Attach.v] as the daemon counts them. *)

(** What an open attach holds on to. *)
Record AttachStream := mkAttachStream { as_pane_id : Uuid; as_pane : N; as_window : option Uuid; as_client : Z }.

Definition attach_open d (first : option (option (list Z))) (resume : ResumeOutcome) : Daemon B * result AttachStream Status :=
  match first with
  | None => (d, Err (invalid_argument MsgStreamClosed))
  | Some None => (d, Err (invalid_argument MsgFirstMessage))
  | Some (Some pane_id) =>
      match parse_uuid pane_id with
      | Err st => (d, Err st)
      | Ok id =>
          match resolve_attachable_pane (d_engine d) id with
          | Err st => (d, Err st)
          | Ok r =>
              let d := set_gauge d (d_attached_sessions_gauge d + 1) in
              let window := window_for_pane (en_index (d_engine d)) id in
              let '(e, client) := new_client_id (d_engine d) in
              let d := set_counters (set_engine d e) (record_resume_outcome (d_resume_outcome_counters d) resume) in
              (d, Ok (mkAttachStream id r window client))
          end
      end
  end.

(** Typing goes to the terminal of a running pane. [written] is how much [write_all] wrote
    before an error, which is only logged, or everything. *)
Definition attach_input d (a : AttachStream) (bytes : list byte) (written : option nat) : Daemon B :=
  if is_exited (d_engine d) (as_pane a) then d
  else set_typed d (as_pane a) (d_typed d (as_pane a) ++ match written with Some n => take n bytes | None => bytes end).

(** A resize saturates at the width of the integers. *)
Definition attach_resize d (a : AttachStream) (rows cols : Z) (resized : N → bool) : option (Daemon B) :=
  match as_window a with
  | Some w =>
      let! (e, ts, _) := report_viewport_and_recompute (d_engine d) (d_terms d) w (as_client a) (Z.min rows u16_max) (Z.min cols u16_max) resized in
      Some (set_terms (set_engine d e) ts)
  | None => Some d
  end.

(** The client's half of the stream ends: a client of a running pane is remembered. *)
Definition attach_input_end d (a : AttachStream) (now : Z) : Daemon B :=
  if is_exited (d_engine d) (as_pane a) then d
  else set_tracker d (<[as_pane_id a := now]> (d_disconnect_tracker d)).

(** The daemon's half ends, with the pane's exit or without. *)
Definition attach_forward_end d (a : AttachStream) (exited : bool) (now window : Z) : Daemon B :=
  let d := if exited then fst (warn_if_exit_follows_disconnect d (as_pane_id a) now window) else d in
  set_gauge d (d_attached_sessions_gauge d - 1).

(** Once the grace period is over, the client's viewport goes, unless the window is gone. *)
Definition attach_deferred_cleanup d (a : AttachStream) (resized : N → bool) : option (Daemon B) :=
  match as_window a with
  | None => Some d
  | Some w =>
      match window_snapshot (d_engine d) w with
      | None => Some d
      | Some _ =>
          let! (e, ts, _) := recompute_window_geometry (unregister_viewport (d_engine d) w (as_client a)) (d_terms d) w resized in
          Some (set_terms (set_engine d e) ts)
      end
  end.

End Handlers.
