(* ===== verification/ServiceProps.v ===== *)
(** * What the requests guarantee

    Every request is a sequence of engine operations, so the consistency of the engine is the
    daemon's; no request panics; a malformed one changes nothing; and the ids a reply shows can
    be used in the next request. *)

From S2P Require Import Prelude Float Layout Restart TermQuery Supervision Launch Persistence Engine EngineInv EngineProps.
From S2P Require Import VtCell VtRow VtGrid VtGridInv VtScreen VtScreenProps VtLinks Snapshot PaneTerm Service.

(** Serves a request that is one operation of the engine. *)
Ltac one_step := match goal with |- context [let '(_, _) := ?x in _] => pose proof (surjective_pairing x) as E; rewrite E; clear E end.

(** ** All the requests *)

Section Requests.
Context {B : Type} `{BK : PersistenceBackend B} (powi : spec_float → Z → spec_float) (default_shell : list Z) `{UT : UuidText}.
Implicit Types (d : Daemon B) (e : Engine B).

(** A request, with what the system answers while it is served. *)
Inductive Request :=
| RqCreate (req : CreateSessionRequest) (spawned : result Spawned SpawnError) (wid sid : Uuid) (t : Tick)
| RqList
| RqKill (session_id : list Z)
| RqRevive (session_id : list Z) (env : ReviveEnv)
| RqCapture (pane_id : list Z) (offset : Z)
| RqSearch (pane_id pattern : list Z) (start : Z)
| RqSplit (pane_id : list Z) (orientation : Z) (command : list Z) (spawned : result Spawned SpawnError) (t : Tick)
| RqClose (pane_id : list Z)
| RqWindow (session_id command : list Z) (spawned : result Spawned SpawnError) (wid : Uuid) (t : Tick)
| RqWatch (window_id : list Z)
| RqPolicy (target : option PolicyTarget) (policy : option ProtoRestartPolicy) (apply : bool) (now : Z)
| RqStatus (pane_id : list Z) (now : Z)
| RqRestart (pane_id : list Z) (reset : bool) (sent : result unit string) (spawned : result Spawned string)
    (respawned : result (option Z) string) (t : Tick) (rounds : list (WaitRound B)) (now : Z)
| RqStop (pane_id : list Z) (sent : result unit string) (at_ now : Z) (waited : Engine B → Engine B)
| RqStart (pane_id : list Z) (spawned : result Spawned string) (respawned : result (option Z) string) (t : Tick) (now : Z)
| RqReset (pane_id : list Z) (now : Z)
| RqStdin (first : option (option StdinPayload)) (messages : list (option StdinPayload * WriteAnswer))
| RqAttach (first : option (option (list Z))) (resume : ResumeOutcome)
| RqServerInfo (client_version : Z) (started_at open_fds : option Z) (pid soft_limit : Z)
(* what an open attach does: typing, a resize, the ends of the stream's two halves, and the
   cleanup after the grace period *)
| RqAttachInput (a : AttachStream) (bytes : list byte) (written : option nat)
| RqAttachResize (a : AttachStream) (rows cols : Z) (resized : N → bool)
| RqAttachInputEnd (a : AttachStream) (now : Z)
| RqAttachForwardEnd (a : AttachStream) (exited : bool) (now window : Z)
| RqAttachCleanup (a : AttachStream) (resized : N → bool).

Definition refusal {A} (r : result A Status) : option Status := match r with Ok _ => None | Err st => Some st end.
Definition served {A} (x : Daemon B * result A Status) : Daemon B * option Status := (fst x, refusal (snd x)).

(** The daemon afterwards, and the status when the request is refused. *)
Definition serve d (rq : Request) : option (Daemon B * option Status) :=
  match rq with
  | RqCreate req spawned wid sid t => Some (served (create_session powi default_shell d req spawned wid sid t))
  | RqList => Some (d, None)
  | RqKill id => Some (served (kill_session_rpc d id))
  | RqRevive id env => Some (served (revive_session_rpc powi d id env))
  | RqCapture id offset => served <$> capture_pane d id offset
  | RqSearch id pattern start => served <$> search_scrollback_rpc d id pattern start
  | RqSplit id o command spawned t => served <$> split_pane_rpc powi default_shell d id o command spawned t
  | RqClose id => served <$> close_pane_rpc d id
  | RqWindow id command spawned wid t => Some (served (create_window_rpc powi default_shell d id command spawned wid t))
  | RqWatch id => Some (served (watch_window_rpc d id))
  | RqPolicy target policy apply now => Some (served (set_restart_policy_rpc d target policy apply now))
  | RqStatus id now => Some (d, refusal (get_pane_status d id now))
  | RqRestart id reset sent spawned respawned t rounds now =>
      Some (served (restart_pane_rpc powi d id reset sent spawned respawned t rounds now))
  | RqStop id sent at_ now waited => Some (served (stop_pane_rpc d id sent at_ now waited))
  | RqStart id spawned respawned t now => Some (served (start_pane_rpc powi d id spawned respawned t now))
  | RqReset id now => Some (served (reset_restart_budget_rpc d id now))
  | RqStdin first messages => Some (served (write_stdin_rpc d first messages))
  | RqAttach first resume => Some (served (attach_open d first resume))
  | RqServerInfo _ _ _ _ _ => Some (d, None)
  | RqAttachInput a bytes written => Some (attach_input d a bytes written, None)
  | RqAttachResize a rows cols resized => (λ d', (d', None)) <$> attach_resize d a rows cols resized
  | RqAttachInputEnd a now => Some (attach_input_end d a now, None)
  | RqAttachForwardEnd a exited now window => Some (attach_forward_end d a exited now window, None)
  | RqAttachCleanup a resized => (λ d', (d', None)) <$> attach_deferred_cleanup d a resized
  end.

(** Operations of the engine, any number of them. *)
Abbreviation steps := (rtc (engine_step powi default_shell)).

Definition fresh_result e (spawned : result Spawned string) : Prop :=
  ∀ sp, spawned = Ok sp → sv_heap (en_supervision e) !! sp_ref sp = None.
Definition fresh_ok e (spawned : result Spawned SpawnError) : Prop := ∀ sp, spawn_ok spawned = Some sp → fresh_spawn e sp.

(** Ids and references the system hands out are new, offsets are not negative, what happens
    during a wait is what the daemon can do, and the size a resize or a cleanup leaves for the
    window gives every running pane a row and a column. *)
Definition rq_ok d (rq : Request) : Prop :=
  let e := d_engine d in
  match rq with
  | RqCreate _ spawned wid sid _ => fresh_ok e spawned ∧ ix_window_session (en_index e) !! wid = None ∧ en_sessions e !! sid = None
  | RqRevive _ env => ∀ sid s, en_sessions e !! sid = Some s → revive_fresh powi env (s_default_restart_policy s) (e, 0%nat) (revive_ids e s)
  | RqCapture _ n | RqSearch _ _ n => 0 ≤ n
  | RqSplit _ _ _ spawned _ => fresh_ok e spawned
  | RqWindow _ _ spawned wid _ => fresh_ok e spawned ∧ ix_window_session (en_index e) !! wid = None
  | RqRestart _ _ _ spawned _ _ rounds _ => fresh_result e spawned ∧ Forall (λ w, ∀ e, steps e (wr_between w e)) rounds
  | RqStop _ _ _ _ waited => ∀ e, steps e (waited e)
  | RqStart _ spawned _ _ _ => fresh_result e spawned
  | RqAttachResize a rows cols _ =>
      ∀ w, as_window a = Some w → geometry_fits (with_viewport e w (as_client a) (Z.min rows u16_max) (Z.min cols u16_max)) w
  | RqAttachCleanup a _ => ∀ w, as_window a = Some w → geometry_fits (unregister_viewport e w (as_client a)) w
  | _ => True
  end.

Lemma wait_steps rounds e r gen : Forall (λ w, ∀ e, steps e (wr_between w e)) rounds → steps e (wait_for_restart powi e r gen rounds).
Proof.
  intros Hr. revert e. induction Hr as [|w rounds Hw _ IH]; intros e; cbn [wait_for_restart]; [done|].
  destruct (gen <? pane_generation e r); [done|]. set (e1 := if is_exited e r then _ else e).
  assert (H1 : steps e e1) by (subst e1; destruct (is_exited e r); [apply rtc_once, En_tick|done]).
  destruct (gen <? pane_generation e1 r); [done|]. etrans; [exact H1|]. etrans; [apply Hw|apply IH].
Qed.

(** Only the engine changed, by operations of its own. *)
Definition engine_only d d' : Prop := steps (d_engine d) (d_engine d') ∧ d_terms d' = d_terms d.

Lemma engine_only_set d e : steps (d_engine d) e → engine_only d (set_engine d e).
Proof. by destruct d. Qed.

Lemma engine_only_purge d d' ids : engine_only d d' → engine_only d (foldl purge_disconnect_tracker d' ids).
Proof. revert d'. induction ids as [|id ids IH]; intros d' H; [done|]. simpl. apply IH. by destruct d'. Qed.

Lemma engine_only_refl d : engine_only d d.
Proof. by split. Qed.
Lemma inv_steps e e' : steps e e' → inv e → inv e'.
Proof. intros Hst. induction Hst as [|x y z Hxy _ IH]; [done|]. intros Hi. by eapply IH, engine_step_ok. Qed.

Definition terms_ok d : Prop := ∀ r, term_ok (d_terms d r).

(** What serving a request comes to. *)
Definition fine d (o : option (Daemon B * option Status)) : Prop :=
  ∃ d' st, o = Some (d', st) ∧ steps (d_engine d) (d_engine d') ∧ (terms_ok d → terms_ok d').

Lemma fine_engine d d' st : engine_only d d' → fine d (Some (d', st)).
Proof. intros [Hs Ht]. exists d', st. split; [done|]. split; [done|]. unfold terms_ok. by rewrite Ht. Qed.

Lemma fine_same d st : fine d (Some (d, st)).
Proof. by apply fine_engine, engine_only_refl. Qed.

Lemma fine_set d e st : steps (d_engine d) e → fine d (Some (set_engine d e, st)).
Proof. intros. by apply fine_engine, engine_only_set. Qed.

Lemma fine_term d r t st : term_ok t → fine d (Some (set_term d r t, st)).
Proof.
  intros Ht. exists (set_term d r t), st. split; [done|]. destruct d. split; [done|]. intros Hd r'. simpl.
  destruct (N.eqb r' r); [done|apply Hd].
Qed.

Lemma step_once e e' : engine_step powi default_shell e e' → steps e e'.
Proof. apply rtc_once. Qed.

(** The cases where the id of the request does not parse. *)
Ltac parse_id s := unfold parse_uuid; destruct (parse_str s) as [u|]; cbn [ok_or]; [|apply fine_same].

Lemma create_fine d req spawned wid sid t :
  rq_ok d (RqCreate req spawned wid sid t) → fine d (serve d (RqCreate req spawned wid sid t)).
Proof.
  intros (Hf & Hw & Hsid). cbn [serve]. unfold served, create_session. cbv zeta.
  destruct (match cq_restart_policy req with None => _ | Some p => _ end) as [policy|st]; [|apply fine_same].
  destruct (arg_specs_from_proto _) as [specs|st]; [|apply fine_same].
  match goal with |- context [let '(_, _) := ?x in _] => pose proof (surjective_pairing x) as E; rewrite E; clear E end.
  apply fine_set, step_once, En_create; [|done|done]. intros sp Hsp. by apply Hf.
Qed.

Lemma restart_fine d id reset sent spawned respawned t rounds now :
  rq_ok d (RqRestart id reset sent spawned respawned t rounds now) →
  fine d (serve d (RqRestart id reset sent spawned respawned t rounds now)).
Proof.
  intros [Hf Hr]. cbn [serve]. unfold served, restart_pane_rpc. cbv zeta. parse_id id.
  assert (Hst : steps (d_engine d) (fst (restart_pane powi (d_engine d) u reset sent spawned respawned t))) by (by apply step_once, En_restart).
  destruct (restart_pane powi (d_engine d) u reset sent spawned respawned t) as [e [outcome|err]]; cbn [fst snd] in *; [|by apply fine_set].
  apply fine_set. destruct outcome, (held_pane e u) as [r|]; try done. etrans; [exact Hst|]. by apply wait_steps.
Qed.

Lemma stop_fine d id sent at_ now waited :
  rq_ok d (RqStop id sent at_ now waited) → fine d (serve d (RqStop id sent at_ now waited)).
Proof.
  intros Hw. cbn [serve]. unfold served, stop_pane_rpc. cbv zeta. parse_id id.
  assert (Hst : steps (d_engine d) (fst (stop_pane (d_engine d) u sent at_))) by (by apply step_once, En_stop).
  destruct (stop_pane (d_engine d) u sent at_) as [e [outcome|err]]; cbn [fst snd] in *; [|by apply fine_set].
  apply fine_set. destruct outcome, (held_pane e u) as [r|]; try done. etrans; [exact Hst|]. apply Hw.
Qed.

Lemma policy_fine d target policy apply now : fine d (serve d (RqPolicy target policy apply now)).
Proof.
  cbn [serve]. unfold served, set_restart_policy_rpc.
  destruct (match ok_or policy _ with Ok p => _ | Err _ => _ end) as [p|st]; [|apply fine_same].
  destruct target as [[s|s]|]; [parse_id s|parse_id s|apply fine_same];
    match goal with |- context [let '(_, _) := ?x in _] => pose proof (surjective_pairing x) as E; rewrite E; clear E end;
    apply fine_set, step_once; constructor.
Qed.

Lemma kill_fine d sid : fine d (serve d (RqKill sid)).
Proof.
  cbn [serve]. unfold served, kill_session_rpc. cbv zeta. parse_id sid.
  assert (Hst : steps (d_engine d) (fst (kill_session (d_engine d) u))) by (apply step_once, En_kill).
  destruct (kill_session (d_engine d) u) as [e [[]|err]]; cbn [fst snd] in *; [|by apply fine_set].
  by apply fine_engine, engine_only_purge, engine_only_set.
Qed.

Lemma revive_fine d sid env : rq_ok d (RqRevive sid env) → fine d (serve d (RqRevive sid env)).
Proof.
  intros Hf. cbn [serve]. unfold served, revive_session_rpc. parse_id sid. one_step.
  apply fine_set, step_once, En_revive. intros s Hs. by eapply Hf.
Qed.

Lemma capture_fine d pid n : terms_ok d → 0 ≤ n → fine d (serve d (RqCapture pid n)).
Proof.
  intros Ht Hn. cbn [serve]. unfold served, capture_pane. parse_id pid.
  destruct (resolve_readable_pane _ _) as [r|st]; [|apply fine_same].
  destruct (snapshot_term_ok (d_terms d r) n (Ht r) Hn) as (t & snap & -> & Hok). by apply fine_term.
Qed.

Lemma search_fine d pid pattern n : terms_ok d → 0 ≤ n → fine d (serve d (RqSearch pid pattern n)).
Proof.
  intros Ht Hn. cbn [serve]. unfold served, search_scrollback_rpc. parse_id pid.
  destruct (resolve_readable_pane _ _) as [r|st]; [|apply fine_same].
  destruct (search_term_ok (d_terms d r) pattern n (Ht r) Hn) as (t & found & -> & Hok). by apply fine_term.
Qed.

Lemma split_fine d pid o command spawned t :
  inv (d_engine d) → fresh_ok (d_engine d) spawned → fine d (serve d (RqSplit pid o command spawned t)).
Proof.
  intros Hi Hf. cbn [serve]. unfold served, split_pane_rpc. parse_id pid.
  destruct (orientation_from_proto o) as [o'|st]; [|apply fine_same].
  destruct (split_pane_ok powi default_shell (d_engine d) u o' (non_empty command) (spawn_ok spawned) t Hi Hf) as (e & r & E & _).
  rewrite E. apply fine_set, step_once. by eapply En_split.
Qed.

Lemma close_fine d pid : inv (d_engine d) → fine d (serve d (RqClose pid)).
Proof.
  intros Hi. cbn [serve]. unfold served, close_pane_rpc. parse_id pid.
  destruct (close_pane_ok powi (d_engine d) u Hi) as (e & r & E & _). rewrite E.
  assert (Hst : steps (d_engine d) e) by (by eapply step_once, En_close).
  destruct r as [outcome|err]; [|by apply fine_set].
  by apply fine_engine, (engine_only_purge _ _ [u]), engine_only_set.
Qed.

Lemma attach_fine d first resume : fine d (serve d (RqAttach first resume)).
Proof.
  cbn [serve]. unfold served, attach_open. destruct first as [[pid|]|]; [|apply fine_same|apply fine_same]. parse_id pid.
  destruct (resolve_attachable_pane _ _) as [r|st]; [|apply fine_same]. apply fine_engine. destruct d as [e tr g c ts si ty].
  split; [|done]. apply step_once, En_client.
Qed.

Lemma stdin_fine d first messages : fine d (serve d (RqStdin first messages)).
Proof.
  cbn [serve]. unfold served, write_stdin_rpc. destruct first as [[[pid|data|cl]|]|]; try apply fine_same.
  destruct (match parse_uuid pid with Ok _ => _ | Err _ => _ end) as [r|st]; [|apply fine_same].
  destruct (write_stdin_loop _ _ _ _) as [s res]. apply fine_engine. by destruct d.
Qed.

Lemma fine_geometry d e1 ts r : steps (d_engine d) e1 → (terms_ok d → ∀ r, term_ok (ts r)) → fine d (Some (set_terms (set_engine d e1) ts, r)).
Proof. intros Hs Ht. exists (set_terms (set_engine d e1) ts), r. destruct d. by split. Qed.

Lemma resize_fine d a rows cols resized :
  inv (d_engine d) → terms_ok d → rq_ok d (RqAttachResize a rows cols resized) → fine d (serve d (RqAttachResize a rows cols resized)).
Proof.
  intros Hi Ht Hfit. cbn [serve]. unfold attach_resize. cbn [rq_ok] in Hfit. destruct (as_window a) as [w|]; [|apply fine_same].
  destruct (recompute_returns (EM := term_emulator) _ (d_terms d) w resized (with_viewport_ok _ w (as_client a) (Z.min rows u16_max) (Z.min cols u16_max) Hi) Ht (Hfit w eq_refl))
    as (e1 & ts & r & E & Hok).
  assert (E1 : report_viewport_and_recompute (d_engine d) (d_terms d) w (as_client a) (Z.min rows u16_max) (Z.min cols u16_max) resized = Some (e1, ts, r))
    by exact E.
  rewrite E1. apply fine_geometry; [|done]. eapply step_once, En_viewport, E1.
Qed.

Lemma cleanup_fine d a resized :
  inv (d_engine d) → terms_ok d → rq_ok d (RqAttachCleanup a resized) → fine d (serve d (RqAttachCleanup a resized)).
Proof.
  intros Hi Ht Hfit. cbn [serve]. unfold attach_deferred_cleanup. cbn [rq_ok] in Hfit. destruct (as_window a) as [w|]; [|apply fine_same].
  destruct (window_snapshot _ w); [|apply fine_same].
  destruct (recompute_returns (EM := term_emulator) _ (d_terms d) w resized (unregister_ok _ w (as_client a) Hi) Ht (Hfit w eq_refl)) as (e1 & ts & r & E & Hok).
  rewrite E. apply fine_geometry; [|done]. etrans; [apply step_once, En_unregister|]. eapply step_once, En_recompute, E.
Qed.

Lemma serve_fine d rq : inv (d_engine d) → terms_ok d → rq_ok d rq → fine d (serve d rq).
Proof.
  intros Hi Ht Hok. destruct rq; try apply fine_same.
  - by apply create_fine.
  - apply kill_fine.
  - by apply revive_fine.
  - by apply capture_fine.
  - by apply search_fine.
  - by apply split_fine.
  - by apply close_fine.
  - destruct Hok as [Hf Hw]. cbn [serve]. unfold served, create_window_rpc. parse_id session_id. one_step.
    apply fine_set, step_once, En_window; [|done]. intros sp Hsp. by apply Hf.
  - cbn [serve]. unfold served, watch_window_rpc. parse_id window_id. apply fine_set, step_once, En_watch.
  - apply policy_fine.
  - by apply restart_fine.
  - by apply stop_fine.
  - cbn [serve]. unfold served, start_pane_rpc. parse_id pane_id. one_step. by apply fine_set, step_once, En_start.
  - cbn [serve]. unfold served, reset_restart_budget_rpc. parse_id pane_id. one_step. apply fine_set, step_once, En_reset.
  - apply stdin_fine.
  - apply attach_fine.
  - apply fine_engine. cbn [serve]. unfold attach_input. destruct (is_exited _ _); [by apply engine_only_refl|by destruct d].
  - by apply resize_fine.
  - apply fine_engine. unfold attach_input_end. destruct (is_exited _ _); [by apply engine_only_refl|by destruct d].
  - apply fine_engine. unfold attach_forward_end, warn_if_exit_follows_disconnect. destruct exited; [destruct (_ !! _)|]; by destruct d.
  - by apply cleanup_fine.
Qed.


End Requests.

(** ** What a stream of writes adds to a standard input *)

Definition stdin_bytes (messages : list (option StdinPayload * WriteAnswer)) : list byte :=
  concat ((λ m, match fst m with Some (StdinData data) => data | _ => [] end) <$> messages).

Lemma write_stdin_spec stream messages s written s' r :
  write_stdin_loop stream s messages written = (s', r) →
  ∃ delivered, si_data s' = si_data s ++ delivered ∧ delivered `prefix_of` stdin_bytes messages ∧
    (∀ n, r = Ok n → delivered = stdin_bytes messages ∧ n = written + Z.of_nat (length delivered)).
Proof.
  revert s written. induction messages as [|[[[pid|data|[]]|] answer] messages IH]; intros s written; cbn [write_stdin_loop];
    try (intros [= <- <-]; exists []; rewrite app_nil_r; split; [done|]; split; [apply prefix_nil|done]).
  - intros [= <- <-]. exists []. rewrite app_nil_r. split; [done|]. split; [done|]. intros n [= <-]. simpl. split; [done|lia].
  - unfold stdin_bytes. cbn [fmap list_fmap fst concat]. fold (stdin_bytes messages). unfold pane_write_stdin.
    destruct (si_open s); [destruct answer as [|k err]|].
    + intros (dl & Hd & Hp & Hn)%IH. exists (data ++ dl). cbn [si_data] in Hd. rewrite Hd, app_assoc. split; [done|].
      split; [by apply prefix_app|]. intros n [-> ->]%Hn. split; [done|]. rewrite length_app. lia.
    + intros [= <- <-]. exists (take k data). split; [done|]. split; [|done]. apply prefix_app_r. exists (drop k data). by rewrite take_drop.
    + intros [= <- <-]. exists []. rewrite app_nil_r. split; [done|]. split; [apply prefix_nil|done].
  - unfold stdin_bytes. cbn [fmap list_fmap fst concat]. fold (stdin_bytes messages). unfold pane_close_stdin. destruct stream.
    + intros (dl & Hd & Hp & Hn)%IH. by exists dl.
    + intros [= <- <-]. exists []. rewrite app_nil_r. split; [done|]. split; [apply prefix_nil|done].
Qed.

(** A message that closes the standard input. *)
Definition closes_stdin (m : option StdinPayload * WriteAnswer) : bool := match fst m with Some (StdinClose c) => c | _ => false end.

(** A stream refused for a malformed message has done exactly the messages before it. *)
Lemma write_stdin_malformed stream messages s written s' st :
  write_stdin_loop stream s messages written = (s', Err st) → st_code st = InvalidArgument →
  ∃ accepted bad rest, messages = accepted ++ bad :: rest ∧
    s' = mkStdin (si_open s && negb (existsb closes_stdin accepted)) (si_data s ++ stdin_bytes accepted).
Proof.
  revert s written. induction messages as [|[[[pid|data|[]]|] answer] messages IH]; intros s written; cbn [write_stdin_loop]; [done|..];
    try (intros [= <- _] _; eexists [], _, messages; split; [done|]; cbn; rewrite andb_true_r, app_nil_r; by destruct s).
  - unfold pane_write_stdin. destruct (si_open s) eqn:Ho; [destruct answer as [|k err]|].
    + intros H Hc. destruct (IH _ _ H Hc) as (acc & bad & rest & -> & ->). exists ((Some (StdinData data), WroteAll) :: acc), bad, rest.
      split; [done|]. cbn. unfold stdin_bytes. cbn. by rewrite <- app_assoc.
    + intros [= _ <-]. by destruct err.
    + intros [= _ <-]. by destruct stream.
  - unfold pane_close_stdin. destruct stream.
    + intros H Hc. destruct (IH _ _ H Hc) as (acc & bad & rest & -> & ->). exists ((Some (StdinClose true), answer) :: acc), bad, rest.
      split; [done|]. cbn. by rewrite andb_false_r.
    + by intros [= _ <-].
Qed.

(** ** Malformed requests *)

Definition caller_fault (err : EngineError) : bool := match err with EInvalidRestartPolicy _ => true | _ => false end.

Lemma status_invalid err : st_code (engine_error_to_status err) = InvalidArgument → caller_fault err = true.
Proof. by destruct err. Qed.

(** Errors of supervision that are not about a policy. *)
Definition sup_fault (err : SupervisionError) : bool := match err with InvalidRestartPolicy _ => true | _ => false end.

Lemma sup_fault_engine err : caller_fault (supervision_error err) = sup_fault err.
Proof. by destruct err. Qed.

(** Splits an operation into its branches and looks at the error each returns. *)
Ltac branches := repeat (case_match; simplify_eq/=; try done).

Lemma do_respawn_fault powi s id e automatic spawned now unit err :
  snd (do_respawn powi s id e automatic spawned now unit) = Err err → sup_fault err = false.
Proof. unfold do_respawn. cbv zeta. intros H. branches. Qed.

Lemma start_fault powi s id spawned now unit err : snd (start powi s id spawned now unit) = Err err → sup_fault err = false.
Proof.
  unfold start. cbv zeta. intros H. destruct (sv_entries s !! id) as [e|]; [|by simplify_eq/=].
  destruct (running_pane s e); [by simplify_eq/=|].
  destruct (do_respawn _ _ _ _ _ _ _ _) as [s2 res] eqn:E. destruct res; simplify_eq/=.
  eapply (do_respawn_fault powi). by rewrite E.
Qed.

Lemma restart_fault powi s id reset sent spawned now unit err :
  snd (restart powi s id reset sent spawned now unit) = Err err → sup_fault err = false.
Proof.
  unfold restart. cbv zeta. intros H. destruct (sv_entries s !! id) as [e|]; [|by simplify_eq/=].
  destruct (request_restart _ _) as [sup []].
  - branches.
  - destruct (running_pane _ _) as [[r p]|]; [by simplify_eq/=|].
    destruct (do_respawn _ _ _ _ _ _ _ _) as [s2 res] eqn:E. destruct res; simplify_eq/=.
    eapply (do_respawn_fault powi). by rewrite E.
Qed.

Lemma stop_fault s id sent now err : snd (stop s id sent now) = Err err → sup_fault err = false.
Proof. unfold stop. cbv zeta. intros H. branches. Qed.

Lemma policy_accepted p policy : policy_from_proto p = Ok policy → validate policy = Ok tt.
Proof.
  unfold policy_from_proto. cbv zeta. destruct (mode_from_proto _); [|done].
  destruct (validate _) as [[]|] eqn:E; [|done]. intros [= <-]. done.
Qed.

Section Malformed.
Context {B : Type} `{BK : PersistenceBackend B} (powi : spec_float → Z → spec_float) (default_shell : list Z) `{UT : UuidText}.
Implicit Types (d : Daemon B) (e : Engine B).

Lemma session_of_pane_fault e id err : session_of_pane e id = Err err → caller_fault err = false.
Proof. unfold session_of_pane, window_and_session_for_pane, ok_or. intros H. branches. Qed.

Lemma start_inner_fault e id fallback spawned respawned t err :
  snd (start_pane_inner powi e id fallback spawned respawned t) = Err err → caller_fault err = false.
Proof.
  unfold start_pane_inner. cbv zeta. destruct (en_panes e !! id) as [[r|record]|]; [|by destruct spawned; intros [= <-]|by intros [= <-]].
  destruct (is_exited e r); [|by intros [= <-]].
  destruct (start _ _ _ _ _ _) as [sup [[]|serr]] eqn:E; simpl; [done|]. intros [= <-]. rewrite sup_fault_engine.
  eapply (start_fault powi). by rewrite E.
Qed.

Lemma start_pane_fault e id spawned respawned t err :
  snd (start_pane powi e id spawned respawned t) = Err err → caller_fault err = false.
Proof.
  unfold start_pane. destruct (session_of_pane e id) as [sid|err0] eqn:Es; [|intros [= <-]; by eapply session_of_pane_fault].
  destruct (start_pane_inner _ _ _ _ _ _ _) as [e1 [[]|err1]] eqn:E; simpl; [done|]. intros [= <-].
  eapply start_inner_fault. by rewrite E.
Qed.

Lemma restart_pane_fault e id reset sent spawned respawned t err :
  snd (restart_pane powi e id reset sent spawned respawned t) = Err err → caller_fault err = false.
Proof.
  unfold restart_pane. destruct (session_of_pane e id) as [sid|err0] eqn:Es; [|intros [= <-]; by eapply session_of_pane_fault].
  destruct (is_restored_record e id).
  - destruct (start_pane_inner _ _ _ _ _ _ _) as [e1 [[]|err1]] eqn:E; simpl; [done|]. intros [= <-].
    eapply start_inner_fault. by rewrite E.
  - destruct (restart _ _ _ _ _ _ _ _) as [sup [o|serr]] eqn:E; simpl; [done|]. intros [= <-]. rewrite sup_fault_engine.
    eapply (restart_fault powi). by rewrite E.
Qed.

Lemma stop_pane_fault e id sent now err : snd (stop_pane e id sent now) = Err err → caller_fault err = false.
Proof.
  unfold stop_pane. destruct (session_of_pane e id) as [sid|err0] eqn:Es; [|intros [= <-]; by eapply session_of_pane_fault].
  destruct (stop _ _ _ _) as [sup [o|serr]] eqn:E; simpl; [done|]. intros [= <-]. rewrite sup_fault_engine.
  eapply stop_fault. by rewrite E.
Qed.

Lemma reset_fault e id err : snd (reset_restart_budget e id) = Err err → caller_fault err = false.
Proof.
  unfold reset_restart_budget. destruct (session_of_pane e id) as [sid|err0] eqn:Es; [|intros [= <-]; by eapply session_of_pane_fault].
  unfold sv_reset_budget. destruct (sv_entries _ !! id); simpl; [done|]. by intros [= <-].
Qed.

Lemma set_policy_fault e id policy now err :
  validate policy = Ok tt → snd (set_restart_policy e id policy now) = Err err → caller_fault err = false.
Proof.
  intros Hv. unfold set_restart_policy. destruct (session_of_pane e id) as [sid|err0] eqn:Es; [|intros [= <-]; by eapply session_of_pane_fault].
  unfold sv_set_policy. rewrite Hv. cbn [map_err]. destruct (sv_entries _ !! id); cbn [ok_or]; [|by intros [= <-]].
  cbn [snd]. unfold ok_or. case_match; [done|]. by intros [= <-].
Qed.

Lemma apply_policy_fault sup ids policy now err :
  validate policy = Ok tt → snd (apply_policy sup ids policy now) = Err err → caller_fault err = false.
Proof.
  intros Hv. revert sup. induction ids as [|id ids IH]; intros sup; simpl; [done|].
  destruct (sv_set_policy sup id policy now) as [sup'|serr] eqn:E; [apply IH|]. intros [= <-]. rewrite sup_fault_engine.
  unfold sv_set_policy in E. rewrite Hv in E. cbn [map_err] in E. destruct (sv_entries sup !! id); cbn [ok_or] in E; by simplify_eq.
Qed.

Lemma set_session_policy_fault e id policy all now err :
  validate policy = Ok tt → snd (set_session_restart_policy e id policy all now) = Err err → caller_fault err = false.
Proof.
  intros Hv. unfold set_session_restart_policy. rewrite Hv. destruct (en_sessions e !! id) as [s|]; [|by intros [= <-]].
  cbv zeta. destruct all.
  - destruct (apply_policy _ _ _ _) as [sup [[]|serr]] eqn:E; simpl; [done|]. intros [= <-]. eapply apply_policy_fault; [exact Hv|]. by rewrite E.
  - done.
Qed.

Lemma revive_fault e id env err : snd (revive_session powi e id env) = Err err → caller_fault err = false.
Proof.
  unfold revive_session. cbv zeta. intros H.
  assert (Hc : ∀ ids err, revive_check e (re_prepared env) ids = Err err → caller_fault err = false).
  { clear. induction ids as [|i ids IH]; simpl; [done|]. intros err. destruct (en_panes e !! i); [|apply IH].
    destruct (re_prepared env i); [apply IH|]. by intros [= <-]. }
  repeat (case_match; simplify_eq/=; try done); by eapply Hc.
Qed.
(** Refused as malformed, with nothing changed. *)
Definition harmless d (o : option (Daemon B * option Status)) : Prop :=
  ∀ d' st, o = Some (d', Some st) → st_code st = InvalidArgument → d' = d.

Lemma harmless_same d st : harmless d (Some (d, st)).
Proof. by intros d' st' [= <- _]. Qed.

Lemma harmless_code d d' (st : option Status) :
  (∀ x, st = Some x → st_code x ≠ InvalidArgument) → harmless d (Some (d', st)).
Proof. intros H d1 x [= _ ->] Hx. by apply H in Hx. Qed.

Lemma harmless_engine {A C} d d' (r : result A EngineError) (f : A → result C Status) :
  (∀ err, r = Err err → caller_fault err = false) → (∀ a st, f a = Err st → st_code st ≠ InvalidArgument) →
  harmless d (Some (d', refusal (let? a := map_err engine_error_to_status r in f a))).
Proof.
  intros Hr Hf. apply harmless_code. intros x. destruct r as [a|err]; cbn [map_err].
  - destruct (f a) eqn:E; [done|]. intros [= <-]. by eapply Hf.
  - intros [= <-] Hc%status_invalid. by rewrite (Hr err eq_refl) in Hc.
Qed.

Lemma status_code d id now st : pane_status_rpc d id now = Err st → st_code st ≠ InvalidArgument.
Proof. unfold pane_status_rpc. destruct (pane_status _ _ _); [done|]. by intros [= <-]. Qed.

Lemma set_engine_same d : set_engine d (d_engine d) = d.
Proof. by destruct d. Qed.

Ltac bad_id s := unfold parse_uuid; destruct (parse_str s) as [u|]; cbn [ok_or]; [|apply harmless_same].

Lemma create_harmless d req spawned wid sid t : harmless d (serve powi default_shell d (RqCreate req spawned wid sid t)).
Proof.
  cbn [serve]. unfold served, create_session. cbv zeta.
  destruct (match cq_restart_policy req with None => _ | Some p => _ end) as [policy|st] eqn:Ep; [|apply harmless_same].
  destruct (arg_specs_from_proto _) as [specs|st]; [|apply harmless_same].
  unfold create_session_supervised. destruct (validate policy) as [[]|why]; cbn [fst snd]; [|by rewrite set_engine_same; apply harmless_same].
  destruct spawned as [sp|err]; cbn [spawn_ok]; [|cbn [fst snd]; rewrite set_engine_same; apply harmless_same].
  cbv zeta. cbn [fst snd]. apply harmless_code. intros x. destruct (session_snapshot _ sid); [done|]. by intros [= <-].
Qed.

Lemma split_harmless d pid o command spawned t : harmless d (serve powi default_shell d (RqSplit pid o command spawned t)).
Proof.
  cbn [serve]. unfold served, split_pane_rpc. bad_id pid. destruct (orientation_from_proto o) as [o'|st]; [|apply harmless_same].
  destruct (split_pane _ _ _ _ _ _ _ _) as [[e r]|] eqn:E; [|done]. cbn [fmap option_fmap option_map fst snd]. apply harmless_engine; [|done].
  intros err ->. unfold split_pane, split_layout, split_finish, window_and_session_for_pane, ok_or, layout_error in E. branches.
Qed.

Lemma close_harmless d pid : harmless d (serve powi default_shell d (RqClose pid)).
Proof.
  cbn [serve]. unfold served, close_pane_rpc. bad_id pid.
  destruct (close_pane _ _) as [[e r]|] eqn:E; [|done]. destruct r as [outcome|err]; [by apply harmless_code|].
  cbn [fmap option_fmap option_map fst snd refusal]. apply harmless_code. intros x [= <-] Hc%status_invalid.
  assert (Hf : caller_fault err = false); [|congruence].
  unfold close_pane, window_and_session_for_pane, ok_or in E. branches.
Qed.

Lemma window_harmless d sid command spawned wid t : harmless d (serve powi default_shell d (RqWindow sid command spawned wid t)).
Proof.
  cbn [serve]. unfold served, create_window_rpc. bad_id sid. one_step. cbn [fst snd]. apply harmless_engine; [|done].
  intros err H. unfold create_window in H. branches.
Qed.

Lemma policy_harmless d target policy apply now : harmless d (serve powi default_shell d (RqPolicy target policy apply now)).
Proof.
  cbn [serve]. unfold served, set_restart_policy_rpc.
  destruct (match ok_or policy _ with Ok p => _ | Err _ => _ end) as [p|st] eqn:Ep; [|apply harmless_same].
  assert (Hv : validate p = Ok tt).
  { destruct policy as [q|]; cbn [ok_or] in Ep; [by eapply policy_accepted|done]. }
  destruct target as [[s|s]|]; [bad_id s|bad_id s|apply harmless_same]; one_step; cbn [fst snd]; (apply harmless_engine; [|done]);
    intros err Herr; [by eapply set_policy_fault|by eapply set_session_policy_fault].
Qed.

Lemma capture_harmless d pid n : harmless d (serve powi default_shell d (RqCapture pid n)).
Proof.
  cbn [serve]. unfold served, capture_pane. bad_id pid. destruct (resolve_readable_pane _ _); [|apply harmless_same].
  destruct (snapshot_at_offset _ _) as [[t snap]|]; [|done]. by apply harmless_code.
Qed.

Lemma search_harmless d pid pattern n : harmless d (serve powi default_shell d (RqSearch pid pattern n)).
Proof.
  cbn [serve]. unfold served, search_scrollback_rpc. bad_id pid. destruct (resolve_readable_pane _ _); [|apply harmless_same].
  destruct (search_scrollback _ _ _) as [[t found]|]; [|done]. by apply harmless_code.
Qed.

Lemma restart_harmless d pid reset sent spawned respawned t rounds now :
  harmless d (serve powi default_shell d (RqRestart pid reset sent spawned respawned t rounds now)).
Proof.
  cbn [serve]. unfold served, restart_pane_rpc. cbv zeta. bad_id pid.
  destruct (restart_pane _ _ _ _ _ _ _ _) as [e [outcome|err]] eqn:E; cbn [fst snd]; apply harmless_code; intros x.
  - destruct (pane_status_rpc _ _ _) eqn:Es; [done|]. intros [= <-]. by eapply status_code.
  - intros [= <-] Hc%status_invalid. assert (Hf : caller_fault err = false); [|congruence].
    eapply restart_pane_fault. by rewrite E.
Qed.

Lemma stop_harmless d pid sent at_ now waited : harmless d (serve powi default_shell d (RqStop pid sent at_ now waited)).
Proof.
  cbn [serve]. unfold served, stop_pane_rpc. cbv zeta. bad_id pid.
  destruct (stop_pane _ _ _ _) as [e [outcome|err]] eqn:E; cbn [fst snd]; apply harmless_code; intros x.
  - destruct (pane_status_rpc _ _ _) eqn:Es; [done|]. intros [= <-]. by eapply status_code.
  - intros [= <-] Hc%status_invalid. assert (Hf : caller_fault err = false); [|congruence].
    eapply stop_pane_fault. by rewrite E.
Qed.

Lemma serve_harmless d rq : (∀ first messages, rq ≠ RqStdin first messages) → harmless d (serve powi default_shell d rq).
Proof.
  intros Hrq. destruct rq; try apply harmless_same; try by (exfalso; eapply Hrq).
  - apply create_harmless.
  - cbn [serve]. unfold served, kill_session_rpc. cbv zeta. bad_id session_id.
    destruct (kill_session _ _) as [e [[]|err]]; apply harmless_code; [done|]. by intros x [= <-].
  - cbn [serve]. unfold served, revive_session_rpc. bad_id session_id. one_step. cbn [fst snd]. apply harmless_engine.
    + intros err Herr. by eapply revive_fault.
    + intros [n|] st; done.
  - apply capture_harmless.
  - apply search_harmless.
  - apply split_harmless.
  - apply close_harmless.
  - apply window_harmless.
  - cbn [serve]. unfold served, watch_window_rpc. bad_id window_id. by apply harmless_code.
  - apply policy_harmless.
  - apply restart_harmless.
  - apply stop_harmless.
  - cbn [serve]. unfold served, start_pane_rpc. bad_id pane_id. one_step. cbn [fst snd]. apply harmless_engine.
    + intros err Herr. by eapply start_pane_fault.
    + intros [] st. apply status_code.
  - cbn [serve]. unfold served, reset_restart_budget_rpc. bad_id pane_id. one_step. cbn [fst snd]. apply harmless_engine.
    + intros err Herr. by eapply reset_fault.
    + intros [] st. apply status_code.
  - cbn [serve]. unfold served, attach_open. destruct first as [[pid|]|]; [|apply harmless_same|apply harmless_same]. bad_id pid.
    destruct (resolve_attachable_pane _ _); [|apply harmless_same]. destruct (new_client_id _). by apply harmless_code.
  - by apply harmless_code.
  - cbn [serve]. destruct (attach_resize _ _ _ _ _); [by apply harmless_code|done].
  - by apply harmless_code.
  - by apply harmless_code.
  - cbn [serve]. destruct (attach_deferred_cleanup _ _ _); [by apply harmless_code|done].
Qed.


End Malformed.

(** ** Panes that are not running *)

Section Panes.
Context {B : Type} `{BK : PersistenceBackend B} `{UT : UuidText}.
Implicit Types (d : Daemon B) (e : Engine B).

(** A pane that is not running is refused with the reason a client can act on: an unknown
    pane is NOT_FOUND in every request; a pane restored from disk is FAILED_PRECONDITION with
    the reason that it has no screen, in every request; a pane whose process exited can still
    be read, can be attached to exactly when a restart is pending, and is otherwise
    FAILED_PRECONDITION with the reason that it exited; a running pane is never refused. *)
Theorem dead_pane_reasons e id :
  match en_panes e !! id with
  | None => Forall (λ r, r = Err (not_found MsgNoPane)) [resolve_live_pane e id; resolve_attachable_pane e id; resolve_readable_pane e id]
  | Some (EntryDead _) =>
      Forall (λ r, r = Err (mkStatus FailedPrecondition (MsgPaneRestored id) (Some REASON_PANE_RESTORED_WITHOUT_SCREEN)))
        [resolve_live_pane e id; resolve_attachable_pane e id; resolve_readable_pane e id]
  | Some (EntryLive r) =>
      if is_exited e r then
        let exited := Err (mkStatus FailedPrecondition (MsgPaneExited id) (Some REASON_PANE_EXITED)) in
        resolve_readable_pane e id = Ok r ∧ resolve_live_pane e id = exited ∧
        resolve_attachable_pane e id = if pane_restart_pending e r then Ok r else exited
      else Forall (λ x, x = Ok r) [resolve_live_pane e id; resolve_attachable_pane e id; resolve_readable_pane e id]
  end.
Proof.
  unfold resolve_attachable_pane, resolve_readable_pane, resolve_live_pane, dead_pane_status, pane_lookup, exited_pane, held_pane.
  destruct (en_panes e !! id) as [[r|record]|]; [destruct (is_exited e r)|..]; rewrite ?Forall_cons, ?Forall_nil; by repeat split.
Qed.

(** ** What a reply shows *)

(** The pane ids of a reply. *)
Fixpoint proto_leaves (l : ProtoLayout) : list (list Z) :=
  match l with
  | PxPane p => [px_id p]
  | PxSplit _ children => flat_map (λ c, proto_leaves (fst c)) children
  end.
Definition proto_session_panes (s : ProtoSession) : list (list Z) := flat_map (λ w, proto_leaves (pwx_layout w)) (pse_windows s).

Lemma proto_leaves_snapshot l : proto_leaves (layout_snapshot_to_proto l) = to_text <$> collect_leaf_pane_ids l.
Proof.
  revert l. fix IH 1. intros [info|o children]; [done|]. cbn [layout_snapshot_to_proto proto_leaves collect_leaf_pane_ids].
  induction children as [|[c f] children IHc]; [done|]. cbn [map flat_map fst]. rewrite fmap_app. f_equal; [apply IH|exact IHc].
Qed.

Lemma snapshot_leaves view sup n panes : collect_leaf_pane_ids (layout_to_snapshot view sup n panes) = leaves n.
Proof.
  revert n. fix IH 1. intros [id|o children].
  { cbn [layout_to_snapshot collect_leaf_pane_ids leaves]. unfold leaf_info. by destruct (match panes !! id with Some _ => _ | None => _ end) as [[[? ?] ?] ?]. }
  cbn [layout_to_snapshot collect_leaf_pane_ids leaves].
  induction children as [|[c f] children IHc]; [done|]. cbn [map flat_map fst]. f_equal; [apply IH|exact IHc].
Qed.

Lemma session_leaf_ids_panes e s :
  session_leaf_ids (session_to_snapshot (pane_view e) (en_supervision e) s (en_panes e)) = session_panes s.
Proof.
  unfold session_leaf_ids, session_panes, session_to_snapshot. cbn [ss_windows].
  induction (s_windows s) as [|w ws IH]; [done|]. cbn [map flat_map ws_layout]. by rewrite snapshot_leaves, IH.
Qed.

Lemma proto_panes_snapshot s : proto_session_panes (session_to_proto s) = to_text <$> session_leaf_ids s.
Proof.
  unfold proto_session_panes, session_leaf_ids, session_to_proto. cbn [pse_windows].
  induction (ss_windows s) as [|w ws IH]; [done|]. cbn [map flat_map]. rewrite fmap_app, <- IH. f_equal.
  unfold window_to_proto. cbn [pwx_layout]. apply proto_leaves_snapshot.
Qed.

(** Every pane a listing shows answers: the id of every pane in the reply to ListSessions
    parses, names a pane the engine knows, and GetPaneStatus on it succeeds and reports that
    pane. *)
Theorem listed_panes_answer d now reply text :
  inv (d_engine d) → reply ∈ list_sessions_rpc d → text ∈ proto_session_panes reply →
  ∃ id st, parse_uuid text = Ok id ∧ is_Some (en_panes (d_engine d) !! id) ∧
    get_pane_status d text now = Ok st ∧ psx_pane_id st = text.
Proof.
  intros Hi Hr Ht. unfold list_sessions_rpc in Hr. rewrite list_sessions_two_phase in Hr.
  apply list_elem_of_In, in_map_iff in Hr as (snap & <- & Hr). apply in_map_iff in Hr as (s & <- & Hs).
  apply in_map_iff in Hs as ([sid s'] & <- & Hs). cbn [snd] in *. apply list_elem_of_In, elem_of_map_to_list in Hs.
  rewrite proto_panes_snapshot, session_leaf_ids_panes in Ht. apply list_elem_of_fmap in Ht as (id & -> & Hid).
  apply elem_session_panes in Hid as (w & Hw & Hid).
  assert (Hix : ix_pane_window (en_index (d_engine d)) !! id = Some (w_id w)).
  { apply (so_pw _ _ (inv_sessions _ Hi)). exists sid, s', w. done. }
  assert (Hp : is_Some (en_panes (d_engine d) !! id)) by (by apply (inv_dom _ Hi); rewrite Hix).
  pose proof (po_ref _ _ _ (inv_panes _ Hi) id) as Href. destruct Hp as [entry Hp]. rewrite Hp in Href.
  unfold refs in Href. rewrite lookup_fmap in Href. simpl in Href.
  destruct (sv_entries (en_supervision (d_engine d)) !! id) as [en|] eqn:He; [|done].
  unfold get_pane_status, parse_uuid. rewrite parse_to_text. cbn [ok_or]. unfold pane_status_rpc, pane_status. rewrite He.
  eexists id, _. split; [done|]. split; [by eexists|]. split; [done|]. done.
Qed.

End Panes.

(** ** Policies on the wire *)

Lemma mode_roundtrip m : mode_from_proto (mode_to_proto m) = Some m.
Proof. by destruct m. Qed.

(** A restart policy crosses the wire unchanged: a policy the daemon accepts is valid, and
    sending it back as the daemon reports it, every field resolved, is accepted as the same
    policy. *)
Theorem policy_roundtrip q p :
  policy_from_proto q = Ok p → validate p = Ok tt ∧ policy_from_proto (policy_to_proto p) = Ok p.
Proof.
  intros Hv%policy_accepted. split; [done|]. unfold policy_from_proto, policy_to_proto. cbn [pp_mode]. rewrite mode_roundtrip.
  cbn [pp_max_restarts pp_window_ms pp_initial_delay_ms pp_multiplier pp_max_delay_ms pp_jitter pp_healthy_after_ms default].
  assert (E : mkPolicy (rp_mode p) (rp_max_restarts p) (rp_window_ms p) (rp_initial_delay_ms p) (rp_multiplier p) (rp_max_delay_ms p)
    (rp_jitter p) (rp_healthy_after_ms p) = p) by (by destruct p).
  cbv zeta. cbv [from_option id]. rewrite E. by rewrite Hv.
Qed.

Lemma orientation_roundtrip o : orientation_from_proto (orientation_to_proto o) = Ok o.
Proof. by destruct o. Qed.

(** ** Standard input and other panes *)

(** Standard input arrives in order and is counted: what a WriteStdin call adds to the
    pane's standard input is a prefix of the data of its messages, in their order; when the
    call succeeds it is all of it and the reply is its length, and no other pane's input is
    touched. *)
Theorem stdin_delivered {B} `{UT : UuidText} (d : Daemon B) pid messages d' res :
  write_stdin_rpc d (Some (Some (StdinPaneId pid))) messages = (d', res) →
  match (let? id := parse_uuid pid in resolve_live_pane (d_engine d) id) with
  | Err st => d' = d ∧ res = Err st
  | Ok r =>
      (∀ r', r' ≠ r → d_stdins d' r' = d_stdins d r') ∧
      ∃ delivered, si_data (d_stdins d' r) = si_data (d_stdins d r) ++ delivered ∧ delivered `prefix_of` stdin_bytes messages ∧
        (∀ n, res = Ok n → delivered = stdin_bytes messages ∧ n = Z.of_nat (length delivered))
  end.
Proof.
  unfold write_stdin_rpc. destruct (match parse_uuid pid with Ok _ => _ | Err _ => _ end) as [r|st]; [|by intros [= <- <-]].
  destruct (write_stdin_loop _ _ _ _) as [s res'] eqn:E. intros [= <- <-]. destruct (write_stdin_spec _ _ _ _ _ _ E) as (dl & Hd & Hp & Hn).
  destruct d as [e tr g c ts si ty]. cbn [d_stdins set_stdin] in *. split.
  - intros r' Hr. by destruct (N.eqb_spec r' r).
  - rewrite N.eqb_refl. exists dl. split; [done|]. split; [done|]. intros n Hres. destruct (Hn n Hres) as [H1 H2]. split; [done|lia].
Qed.

(** ** Disconnected clients *)

Lemma purge_all_tracker {B} (d : Daemon B) ids id :
  d_disconnect_tracker (foldl purge_disconnect_tracker d ids) !! id = if bool_decide (id ∈ ids) then None else d_disconnect_tracker d !! id.
Proof.
  revert d. induction ids as [|i ids IH]; intros d; simpl; [done|]. rewrite IH. destruct d as [e tr g c ts si ty]. simpl.
  destruct (decide (id ∈ ids)) as [Hin|Hin].
  - rewrite !bool_decide_eq_true_2; [done|by right|done].
  - rewrite (bool_decide_eq_false_2 (id ∈ ids)) by done. destruct (decide (id = i)) as [->|Hne].
    + rewrite bool_decide_eq_true_2 by (by left). apply lookup_delete_eq.
    + rewrite bool_decide_eq_false_2 by (by intros [?|?]%elem_of_cons). by rewrite lookup_delete_ne.
Qed.

(** Killing a session forgets the disconnects of its panes and of no other. *)
Lemma kill_purges {B} `{BK : PersistenceBackend B} `{UT : UuidText} (d : Daemon B) sid s :
  en_sessions (d_engine d) !! sid = Some s →
  ∃ d', kill_session_rpc d (to_text sid) = (d', Ok tt) ∧
    ∀ id, d_disconnect_tracker d' !! id = if bool_decide (id ∈ session_panes s) then None else d_disconnect_tracker d !! id.
Proof.
  intros Hs. unfold kill_session_rpc, parse_uuid. rewrite parse_to_text. cbn [ok_or]. unfold session_snapshot. rewrite Hs. cbn [fmap option_fmap option_map].
  rewrite session_leaf_ids_panes. unfold kill_session. rewrite Hs. cbv zeta. eexists. split; [done|]. intros id.
  rewrite purge_all_tracker. by destruct d.
Qed.

(** ** Witnesses *)

Definition w_uuid_text : UuidText :=
  {| to_text id := [Z.of_N id]; parse_str s := match s with [z] => Some (Z.to_N z) | _ => None end; parse_to_text id := f_equal Some (N2Z.id id) |}.

(** The daemon of [w_one] with a blank emulator for every pane. *)
Definition w_daemon (s : Screen) : Daemon (gmap Uuid PersistedSessionRecord) :=
  mkDaemon w_one ∅ 0 (mkCounters 0 0 0) (λ _, mkTerm s labels_new) (λ _, mkStdin true [1]) (λ _, []).

Lemma w_terms : ∃ s, ∀ r, term_ok (d_terms (w_daemon s) r).
Proof.
  destruct (screen_new_ok (mkSize 2 3) 5) as (s & E & Hs & Hf); [unfold u16_max; simpl; lia|unfold u16_max; simpl; lia|lia|].
  exists s. intros r. injection Hf as _ Hl. unfold screen_new in E. simpl in E. injection E as <-.
  split; [exact Hs|reflexivity| |]; unfold usize_max, u64_max; simpl; lia.
Qed.

Lemma w_inv : inv w_one.
Proof. eapply reachable_inv, w_one_reachable. Qed.


(** A split with an unknown orientation; and a stream that writes, then names a pane again. *)
Definition w_bad_stream : list (option StdinPayload * WriteAnswer) :=
  [(Some (StdinData [2; 3]), WroteAll); (Some (StdinPaneId [10]), WroteAll); (Some (StdinData [4]), WroteAll)].


Lemma listed_panes_answer_witness :
  ∃ s reply st, reply ∈ @list_sessions_rpc _ w_uuid_text (w_daemon s) ∧ [10] ∈ proto_session_panes reply ∧
    @get_pane_status _ w_uuid_text (w_daemon s) [10] 5 = Ok st ∧ psx_pane_id st = [10].
Proof.
  destruct w_terms as [s _]. exists s.
  assert (Hr : ∃ reply, reply ∈ @list_sessions_rpc _ w_uuid_text (w_daemon s) ∧ [10] ∈ proto_session_panes reply).
  { eexists. split; [vm_compute; left|]. vm_compute. left. }
  destruct Hr as (reply & H1 & H2). exists reply.
  destruct (listed_panes_answer (UT := w_uuid_text) (w_daemon s) 5 reply [10] w_inv H1 H2) as (id & st & _ & _ & H3 & H4).
  exists st. exact (conj H1 (conj H2 (conj H3 H4))).
Defined.

Lemma policy_roundtrip_witness :
  policy_from_proto (mkProtoPolicy 3 (Some 7) None None None None None None) =
    Ok (mkPolicy Always 7 60000 1000 f64_two 30000 f64_one_fifth 10000) ∧
  policy_from_proto (policy_to_proto (mkPolicy Always 7 60000 1000 f64_two 30000 f64_one_fifth 10000)) =
    Ok (mkPolicy Always 7 60000 1000 f64_two 30000 f64_one_fifth 10000).
Proof.
  split; [vm_compute; reflexivity|]. apply (policy_roundtrip (mkProtoPolicy 3 (Some 7) None None None None None None)).
  vm_compute. reflexivity.
Defined.

(** Pane 10 takes the first message; the second write breaks after a byte. *)
Definition w_writes : list (option StdinPayload * WriteAnswer) :=
  [(Some (StdinData [2; 3]), WroteAll); (Some (StdinData [4; 5]), WrotePart 1 BrokenPipe)].

Lemma stdin_delivered_witness :
  ∃ s d' st, @write_stdin_rpc _ w_uuid_text (w_daemon s) (Some (Some (StdinPaneId [10]))) w_writes = (d', Err st) ∧
    st_code st = FailedPrecondition ∧ si_data (d_stdins d' 1%N) = [1; 2; 3; 4] ∧
    ∃ delivered, si_data (d_stdins d' 1%N) = [1] ++ delivered ∧ delivered `prefix_of` stdin_bytes w_writes.
Proof.
  destruct w_terms as [s _]. exists s.
  destruct (@write_stdin_rpc _ w_uuid_text (w_daemon s) (Some (Some (StdinPaneId [10]))) w_writes) as [d' res] eqn:E.
  pose proof (stdin_delivered (UT := w_uuid_text) (w_daemon s) [10] w_writes d' res E) as H.
  assert (Hr : (let? id := @parse_uuid w_uuid_text [10] in resolve_live_pane (d_engine (w_daemon s)) id) = Ok 1%N) by (vm_compute; reflexivity).
  rewrite Hr in H. destruct H as (_ & dl & H1 & H2 & _).
  assert (Hd : res = Err (failed_precondition (MsgStdin BrokenPipe)) ∧ si_data (d_stdins d' 1%N) = [1; 2; 3; 4]).
  { vm_compute in E. injection E as <- <-. split; reflexivity. }
  destruct Hd as [-> Hd]. exists d', (failed_precondition (MsgStdin BrokenPipe)).
  exact (conj eq_refl (conj eq_refl (conj Hd (ex_intro _ dl (conj H1 H2))))).
Defined.
