(* ===== verification/Commands.v ===== *)
(** * The commands of the client ([crates/tymux-cli/src/main.rs])

    Finding the daemon and its socket, naming a pane ([session:window.pane]), and what each
    command asks of the daemon, down to the handlers of [Service]. A request or its answer may
    be lost, and other clients act between two requests. [None] is a panic of the daemon. What
    is printed is kept as data; the wording and number formats are not modelled. *)

From S2P Require Import Prelude Float Layout Restart Launch Persistence Supervision Engine EngineInv EngineProps TermQuery Auth Startup VtCell VtRow VtGrid VtScreen VtLinks Snapshot Service ServiceProps.

(** ** Naming a pane *)

Record TargetString := mkTarget { ts_session : list Z; ts_window : Z; ts_pane : Z }.

Inductive CliError :=
| NoSessionName
| NoPanePart
| BadWindowIndex
| BadPaneIndex
| NoSuchSession
| NoSuchWindow (has : nat)
| NoSuchPane (has : nat)
| NoWindows
| NoPanes
| NotRunning
| BadTokenText
| NotAuthorizedSocket
| Transport
| FromDaemon (st : Status).

(** [str::split_once]. *)
Fixpoint split_once (sep : Z) (s : list Z) : option (list Z * list Z) :=
  match s with
  | [] => None
  | c :: s => if c =? sep then Some ([], s) else (λ p, (c :: fst p, snd p)) <$> split_once sep s
  end.

Definition target_parse (s : list Z) : result TargetString CliError :=
  let '(session, rest) := match split_once 58 s with Some (session, rest) => (session, Some rest) | None => (s, None) end in
  if bool_decide (session = []) then Err NoSessionName
  else
    match rest with
    | None => Ok (mkTarget session 0 0)
    | Some rest =>
        match split_once 46 rest with
        | None => Err NoPanePart
        | Some (window_str, pane_str) =>
            let? w := ok_or (parse_u64 window_str) BadWindowIndex in
            let? p := ok_or (parse_u64 pane_str) BadPaneIndex in
            Ok (mkTarget session w p)
        end
    end.

(** The panes of a window, in order. *)
Fixpoint layout_panes (n : ProtoLayout) : list ProtoPane :=
  match n with PxPane p => [p] | PxSplit _ children => flat_map (λ c, layout_panes (fst c)) children end.

Definition window_panes (w : ProtoWindow) : list ProtoPane := layout_panes (pwx_layout w).

Definition target_resolve (t : TargetString) (s : ProtoSession) : result ProtoPane CliError :=
  let? window := ok_or (pse_windows s !! Z.to_nat (ts_window t)) (NoSuchWindow (length (pse_windows s))) in
  let panes := window_panes window in
  ok_or (panes !! Z.to_nat (ts_pane t)) (NoSuchPane (length panes)).

Definition first_pane_id (s : ProtoSession) : result (list Z) CliError :=
  let? window := ok_or (head (pse_windows s)) NoWindows in
  let? p := ok_or (head (window_panes window)) NoPanes in
  Ok (px_id p).

Definition find_session (sessions : list ProtoSession) (name : list Z) : result ProtoSession CliError :=
  ok_or (snd <$> list_find (λ s, pse_name s = name) sessions) NoSuchSession.

(** [Liveness::Dead] is 2. *)
Definition check_attach_liveness (p : ProtoPane) : result unit CliError :=
  if px_liveness p =? liveness_i32 LivenessDead then Err NotRunning else Ok tt.

(** ** Finding the daemon *)

Definition client_uds_socket_path (uid : Z) (env : list Z → option (list Z)) : list Z :=
  match (let! v := env (ascii "XDG_RUNTIME_DIR") in if bool_decide (v = []) then None else Some v) with
  | Some dir => path_join (path_join dir (ascii "tymuxd")) (ascii "tymuxd.sock")
  | None =>
      let base := default (ascii "/tmp") (let! v := env (ascii "TMPDIR") in if bool_decide (v = []) then None else Some v) in
      path_join (path_join base (ascii "tymuxd-" ++ dec uid)) (ascii "tymuxd.sock")
  end.

(** [cli.socket_path]: the flag, else the variable, each as it is given. *)
Definition client_socket_path (flag : option (list Z)) (uid : Z) (env : list Z → option (list Z)) : list Z :=
  default (client_uds_socket_path uid env) (or_else flag (env (ascii "TYMUXD_SOCKET_PATH"))).

Inductive UdsDialError := PermissionDenied | OtherDialError.

(** The errors below a failed connection, outermost first: an I/O error with whether it is
    [PermissionDenied], or another one. *)
Fixpoint dial_error (chain : list (option bool)) : UdsDialError :=
  match chain with
  | [] => OtherDialError
  | Some denied :: _ => if denied then PermissionDenied else OtherDialError
  | None :: chain => dial_error chain
  end.

Inductive Endpoint := Tcp (addr : list Z) | Uds (path : list Z).

Definition TCP_FALLBACK : list Z := ascii "http://127.0.0.1:7419".

(** What is dialled, in order, and the connection. [tcp] and [uds] say how a dial goes; text
    that is no address is one that does not connect. *)
Definition dial_channel (tcp : list Z → bool) (uds : list Z → result unit (list (option bool))) (explicit_addr : option (list Z)) (socket_path : list Z)
    : list Endpoint * result Endpoint CliError :=
  match explicit_addr with
  | Some addr => ([Tcp addr], if tcp addr then Ok (Tcp addr) else Err Transport)
  | None =>
      match uds socket_path with
      | Ok _ => ([Uds socket_path], Ok (Uds socket_path))
      | Err chain =>
          match dial_error chain with
          | PermissionDenied => ([Uds socket_path], Err NotAuthorizedSocket)
          | OtherDialError => ([Uds socket_path; Tcp TCP_FALLBACK], if tcp TCP_FALLBACK then Ok (Tcp TCP_FALLBACK) else Err Transport)
          end
      end
  end.

(** The header of every request; [valid_header] is what the HTTP library accepts. *)
Definition BearerAuth_new (valid_header : list Z → bool) (token : option (list Z)) : result (option (list Z)) CliError :=
  match token with
  | None => Ok None
  | Some t => let h := ascii "Bearer " ++ t in if valid_header h then Ok (Some h) else Err BadTokenText
  end.

(** [BearerToken::parse] of the client. *)
Definition client_token_parse (raw : list Z) : option (list Z) := if bool_decide (raw = []) then None else Some raw.

(** The header for [--token], else [TYMUXD_TOKEN]. *)
Definition client_auth (valid_header : list Z → bool) (flag : option (list Z)) (env : list Z → option (list Z)) : result (option (list Z)) CliError :=
  BearerAuth_new valid_header (or_else flag (env (ascii "TYMUXD_TOKEN")) ≫= client_token_parse).

(** ** Policies *)

Record PolicyFlags := mkFlags {
  fl_mode : option RestartMode; fl_max_restarts : option Z; fl_window_ms : option Z; fl_initial_delay_ms : option Z;
  fl_multiplier : option spec_float; fl_max_delay_ms : option Z; fl_jitter : option spec_float; fl_healthy_after_ms : option Z;
}.

Definition flags_empty (f : PolicyFlags) : bool :=
  bool_decide (fl_mode f = None) && bool_decide (fl_max_restarts f = None) && bool_decide (fl_window_ms f = None) &&
  bool_decide (fl_initial_delay_ms f = None) && negb (match fl_multiplier f with Some _ => true | None => false end) &&
  bool_decide (fl_max_delay_ms f = None) && negb (match fl_jitter f with Some _ => true | None => false end) && bool_decide (fl_healthy_after_ms f = None).

Definition apply_to (f : PolicyFlags) (current : ProtoRestartPolicy) : ProtoRestartPolicy :=
  mkProtoPolicy (match fl_mode f with Some m => mode_to_proto m | None => pp_mode current end)
    (or_else (fl_max_restarts f) (pp_max_restarts current)) (or_else (fl_window_ms f) (pp_window_ms current))
    (or_else (fl_initial_delay_ms f) (pp_initial_delay_ms current)) (or_else (fl_multiplier f) (pp_multiplier current))
    (or_else (fl_max_delay_ms f) (pp_max_delay_ms current)) (or_else (fl_jitter f) (pp_jitter current))
    (or_else (fl_healthy_after_ms f) (pp_healthy_after_ms current)).

(** [RestartPolicy::default()] of the generated code: nothing set. *)
Definition proto_policy_default : ProtoRestartPolicy := mkProtoPolicy 0 None None None None None None None.

(** ** What is printed *)

(** [char::is_whitespace]: the White_Space property of Unicode. *)
Definition is_whitespace (c : Z) : bool :=
  (9 <=? c) && (c <=? 13) || (c =? 32) || (c =? 0x85) || (c =? 0xA0) || (c =? 0x1680) || (0x2000 <=? c) && (c <=? 0x200A)
  || (c =? 0x2028) || (c =? 0x2029) || (c =? 0x202F) || (c =? 0x205F) || (c =? 0x3000).

(** Without the last elements that satisfy [f]. *)
Fixpoint drop_end {A} (f : A → bool) (l : list A) : list A :=
  match l with [] => [] | x :: l => match drop_end f l with [] => if f x then [] else [x] | l' => x :: l' end end.

Definition row_text (row : list CellSnapshot) : list Z :=
  drop_end is_whitespace (flat_map (λ c, match cs_text c with [] => [32] | t => t end) row).

Definition snapshot_lines (snap : PaneSnapshot) : list (list Z) := drop_end (λ l, bool_decide (l = [])) (row_text <$> sn_grid snap).

Definition snapshot_text (snap : PaneSnapshot) : list Z := flat_map (λ l, l ++ [10]) (snapshot_lines snap).

(** What a command ends with when it succeeds. *)
Inductive Output :=
| Silent
| PrintId (id : list Z)
| PrintText (text : list Z)
| PrintSessions (rows : list (list Z * list Z * bool))
| PrintRevived (already_live : bool) (panes : Z)
| PrintClosed (window session : list Z) (remaining : nat)
| PrintStatus (st : ProtoPaneStatus)
| AttachTo (pane_id session : list Z).

(** [ls_status_label]: the name, and whether the session runs. *)
Definition ls_row (s : ProtoSession) : list Z * list Z * bool := (pse_id s, pse_name s, negb (pse_liveness s =? liveness_i32 LivenessDead)).

(** [print_close_pane_outcome]; nothing is printed when the window stays. *)
Definition close_output (r : CloseReply) : Output :=
  if negb (bool_decide (cr_session_closed_name r = [])) then PrintClosed (cr_window_closed_name r) (cr_session_closed_name r) 0
  else if negb (bool_decide (cr_window_closed_name r = [])) then
    PrintClosed (cr_window_closed_name r) [] (match cr_session r with Some s => length (pse_windows s) | None => 0 end)
  else Silent.

(** ** The commands *)

Inductive Command :=
| CNew (name : list Z) (command : option (list Z)) (detach : bool) (restart : option RestartMode)
| CLs
| CAttach (target : list Z)
| CKill (session_id : list Z)
| CRevive (session : list Z)
| CSplit (target : list Z) (vertical : bool) (command : option (list Z))
| CKillPane (target : list Z)
| CCapture (target : list Z)
| CStatus (target : list Z)
| CRestart (target : list Z) (reset_backoff : bool) (grace_ms : option Z)
| CStop (target : list Z) (grace_ms : option Z)
| CStart (target : list Z)
| CPolicy (target : list Z) (flags : PolicyFlags) (reset_budget : bool).

(** A request is answered, or lost before or after the daemon served it. *)
Inductive Delivery := Delivered | LostRequest | LostReply.

Section Run.
Context {B : Type} `{BK : PersistenceBackend B} (powi : spec_float → Z → spec_float) (default_shell : list Z) `{!UuidText}.

(** What the daemon's system answers while it serves a command's requests; what happens
    while it waits for a process depends on the grace period asked for. *)
Record Host := mkHost {
  hs_spawned : result Spawned Service.SpawnError;
  hs_wid : Uuid;
  hs_sid : Uuid;
  hs_tick : Engine.Tick;
  hs_revive : ReviveEnv;
  hs_sent : result unit string;
  hs_started : result Spawned string;
  hs_respawned : result (option Z) string;
  hs_rounds : option Z → list (WaitRound B);
  hs_waited : option Z → Engine B → Engine B;
  hs_now : Z;
}.

Context (host : Host) (net : nat → Delivery) (others : nat → Daemon B → Daemon B).

(** The daemon and how many requests were made. *)
Definition Link : Type := Daemon B * nat.
Definition M (A : Type) : Type := Link → option (Link * result A CliError).

Definition ret {A} (x : A) : M A := λ s, Some (s, Ok x).
Definition fail {A} (e : CliError) : M A := λ s, Some (s, Err e).
Definition lift {A} (r : result A CliError) : M A := λ s, Some (s, r).
Definition bind {A C} (c : M A) (k : A → M C) : M C :=
  λ s, match c s with None => None | Some (s, Err e) => Some (s, Err e) | Some (s, Ok x) => k x s end.

Definition call {A} (handler : Daemon B → option (Daemon B * result A Status)) : M A :=
  λ '(d, k),
    let d := others k d in
    match net k with
    | LostRequest => Some ((d, S k), Err Transport)
    | LostReply => let! (d, _) := handler d in Some ((d, S k), Err Transport)
    | Delivered => let! (d, r) := handler d in Some ((d, S k), map_err FromDaemon r)
    end.

Notation "x ← c ; k" := (bind c (λ x, k)) (at level 20, c at level 100, k at level 200).

Definition list_call : M (list ProtoSession) := call (λ d, Some (d, Ok (list_sessions_rpc d))).
Definition status_call (pane_id : list Z) : M ProtoPaneStatus := call (λ d, Some (d, get_pane_status d pane_id (hs_now host))).

Definition resolve_target (t : TargetString) : M ProtoPane :=
  sessions ← list_call;
  session ← lift (find_session sessions (ts_session t));
  lift (target_resolve t session).

Definition resolve_text (target : list Z) : M ProtoPane := t ← lift (target_parse target); resolve_target t.

Definition policy_command (pane_id : list Z) (flags : PolicyFlags) (reset_budget : bool) : M ProtoPaneStatus :=
  status ← status_call pane_id;
  status ← (if flags_empty flags then ret status
            else
              let policy := apply_to flags (default proto_policy_default (psx_policy status)) in
              reply ← call (λ d, Some (set_restart_policy_rpc d (Some (TargetPane pane_id)) (Some policy) false (hs_now host)));
              ret (default status reply));
  if reset_budget then call (λ d, Some (reset_restart_budget_rpc d pane_id (hs_now host))) else ret status.

(** [run] once connected, up to the attach loop. *)
Definition run_command (c : Command) : M Output :=
  match c with
  | CNew name command detach restart =>
      session ← call (λ d, Some (create_session powi default_shell d
        (mkCreateRequest name (default [] command) [] [] ∅ [] [] [] false ((λ m, mkProtoPolicy (mode_to_proto m) None None None None None None None) <$> restart))
        (hs_spawned host) (hs_wid host) (hs_sid host) (hs_tick host)));
      if detach then ret (PrintId (pse_id session)) else pane_id ← lift (first_pane_id session); ret (AttachTo pane_id name)
  | CCapture target =>
      pane ← resolve_text target;
      snap ← call (λ d, capture_pane d (px_id pane) 0);
      ret (PrintText (snapshot_text (psn_snapshot snap)))
  | CLs => sessions ← list_call; ret (PrintSessions (ls_row <$> sessions))
  | CAttach target =>
      t ← lift (target_parse target);
      pane ← resolve_target t;
      _ ← lift (check_attach_liveness pane);
      ret (AttachTo (px_id pane) (ts_session t))
  | CKill session_id => _ ← call (λ d, Some (kill_session_rpc d session_id)); ret Silent
  | CRevive session =>
      sessions ← list_call;
      s ← lift (find_session sessions session);
      reply ← call (λ d, Some (revive_session_rpc powi d (pse_id s) (hs_revive host)));
      ret (PrintRevived (rr_already_live reply) (rr_pane_count reply))
  | CSplit target vertical command =>
      pane ← resolve_text target;
      _ ← call (λ d, split_pane_rpc powi default_shell d (px_id pane) (orientation_to_proto (if vertical then Vertical else Horizontal))
                       (default [] command) (hs_spawned host) (hs_tick host));
      ret Silent
  | CKillPane target =>
      pane ← resolve_text target;
      reply ← call (λ d, close_pane_rpc d (px_id pane));
      ret (close_output reply)
  | CStatus target => pane ← resolve_text target; st ← status_call (px_id pane); ret (PrintStatus st)
  | CRestart target reset_backoff grace_ms =>
      pane ← resolve_text target;
      st ← call (λ d, Some (restart_pane_rpc powi d (px_id pane) reset_backoff (hs_sent host) (hs_started host) (hs_respawned host) (hs_tick host)
                              (hs_rounds host grace_ms) (hs_now host)));
      ret (PrintStatus st)
  | CStop target grace_ms =>
      pane ← resolve_text target;
      st ← call (λ d, Some (stop_pane_rpc d (px_id pane) (hs_sent host) (hs_now host) (hs_now host) (hs_waited host grace_ms)));
      ret (PrintStatus st)
  | CStart target =>
      pane ← resolve_text target;
      st ← call (λ d, Some (start_pane_rpc powi d (px_id pane) (hs_started host) (hs_respawned host) (hs_tick host) (hs_now host)));
      ret (PrintStatus st)
  | CPolicy target flags reset_budget =>
      pane ← resolve_text target;
      st ← policy_command (px_id pane) flags reset_budget;
      ret (PrintStatus st)
  end.
End Run.


(** * Properties *)

(** ** Targets *)

(** The text of a target. *)
Definition target_text (session : list Z) (w p : Z) : list Z := session ++ 58 :: dec w ++ 46 :: dec p.

Lemma split_once_app sep a b : sep ∉ a → split_once sep (a ++ sep :: b) = Some (a, b).
Proof.
  induction a as [|c a IH]; intros H; cbn [app split_once]; [by rewrite Z.eqb_refl|]. apply not_elem_of_cons in H as [Hc H].
  destruct (Z.eqb_spec c sep) as [->|_]; [done|]. by rewrite (IH H).
Qed.

Lemma digits_upto_dec max fuel n s : 0 ≤ n < 10 ^ Z.of_nat fuel → n ≤ max → digits_upto max 0 (dec_go fuel n ++ s) = digits_upto max n s.
Proof.
  revert n s. induction fuel as [|fuel IH]; intros n s Hn Hm; cbn [dec_go]; [cbn in *; replace n with 0 by lia; done|].
  assert (Hd : ∀ acc, acc * 10 + n mod 10 ≤ max → digits_upto max acc ((48 + n mod 10) :: s) = digits_upto max (acc * 10 + n mod 10) s).
  { intros acc Ha. cbn [digits_upto]. pose proof (Z.mod_pos_bound n 10 ltac:(lia)) as Hb. unfold digit.
    rewrite (proj2 (Z.leb_le 48 _)), (proj2 (Z.leb_le _ 57)) by lia. cbn [andb mbind option_bind].
    replace (48 + n mod 10 - 48) with (n mod 10) by lia. by rewrite (proj2 (Z.leb_le _ max) Ha). }
  pose proof (Z.div_mod n 10 ltac:(lia)) as Hdm. pose proof (Z.mod_pos_bound n 10 ltac:(lia)) as Hb. rewrite <- app_assoc. cbn [app].
  destruct (Z.ltb_spec n 10) as [Hs|Hs].
  - cbn [app]. rewrite Hd; rewrite (Z.mod_small n 10) by lia; [f_equal|]; lia.
  - rewrite Nat2Z.inj_succ, Z.pow_succ_r in Hn by lia. rewrite IH; [|split; [apply Z.div_pos|apply Z.div_lt_upper_bound]; lia|lia].
    rewrite Hd by lia. f_equal. lia.
Qed.

Lemma dec_shape n : ∃ c s, dec n = c :: s ∧ 48 ≤ c ≤ 57.
Proof.
  pose proof (dec_digits n) as Hd. destruct (dec n) as [|c s] eqn:E.
  - exfalso. unfold dec in E. cbn [dec_go] in E. by apply app_eq_nil in E as [_ ?].
  - exists c, s. split; [done|]. apply Forall_cons in Hd as [Hc _]. unfold is_digit in Hc. b2p. lia.
Qed.

Lemma parse_u64_dec n : 0 ≤ n ≤ u64_max → parse_u64 (dec n) = Some n.
Proof.
  intros Hn. unfold parse_u64. destruct (dec_shape n) as (c & s & E & Hc). rewrite E.
  replace (match c :: s with 43 :: (_ :: _) as s0 => tail s0 | _ => c :: s end) with (c :: s).
  2:{ destruct c as [|c|c]; try done. repeat (destruct c as [c|c|]; try done; try lia). }
  rewrite <- E, <- (app_nil_r (dec n)). unfold dec. rewrite digits_upto_dec; [done| |lia]. unfold u64_max in Hn. lia.
Qed.

Lemma dec_no_dot n : 46 ∉ dec n.
Proof.
  intros H. pose proof (dec_digits n) as Hd. rewrite Forall_forall in Hd. specialize (Hd _ H). done.
Qed.

Lemma target_text_parse session w p :
  session ≠ [] → 58 ∉ session → 0 ≤ w ≤ u64_max → 0 ≤ p ≤ u64_max → target_parse (target_text session w p) = Ok (mkTarget session w p).
Proof.
  intros Hs Hc Hw Hp. unfold target_parse, target_text. rewrite (split_once_app _ _ _ Hc), bool_decide_eq_false_2 by done.
  rewrite (split_once_app _ _ _ (dec_no_dot w)), !parse_u64_dec by done. done.
Qed.

Lemma layout_pane_ids n : px_id <$> layout_panes n = proto_leaves n.
Proof.
  revert n. fix IH 1. intros [p|o children]; [done|]. cbn [layout_panes proto_leaves].
  induction children as [|[c f] children IHc]; [done|]. cbn [flat_map fst]. rewrite fmap_app. f_equal; [apply IH|exact IHc].
Qed.

Lemma resolved_listed t s pane : target_resolve t s = Ok pane → px_id pane ∈ proto_session_panes s.
Proof.
  unfold target_resolve. destruct (pse_windows s !! _) as [w|] eqn:Hw; [|done]. cbn [ok_or].
  destruct (window_panes w !! _) as [q|] eqn:Hq; [|done]. intros [= ->]. apply list_elem_of_In, in_flat_map. exists w.
  split; [by eapply list_elem_of_In, list_elem_of_lookup_2|]. apply list_elem_of_In. rewrite <- layout_pane_ids.
  apply list_elem_of_fmap. exists pane. split; [done|]. by eapply list_elem_of_lookup_2.
Qed.

Lemma found_session sessions name s : find_session sessions name = Ok s → s ∈ sessions ∧ pse_name s = name.
Proof.
  unfold find_session. destruct (list_find _ sessions) as [[i s']|] eqn:E; [|done]. cbn. intros [= <-].
  apply list_find_Some in E as (Hi & Hn & _). split; [by eapply list_elem_of_lookup_2|done].
Qed.

Section Commands.
Context {B : Type} `{BK : PersistenceBackend B} (powi : spec_float → Z → spec_float) (default_shell : list Z) `{UT : !UuidText}.
Implicit Types (d : Daemon B) (host : Host (B := B)) (net : nat → Delivery) (others : nat → Daemon B → Daemon B).

Lemma entry_known d id : inv (d_engine d) → is_Some (sv_entries (en_supervision (d_engine d)) !! id) ↔ is_Some (en_panes (d_engine d) !! id).
Proof.
  intros Hi. pose proof (po_ref _ _ _ (inv_panes _ Hi) id) as Hr. unfold refs in Hr. rewrite lookup_fmap in Hr.
  destruct (sv_entries _ !! id), (en_panes _ !! id); cbn in Hr; split; intros [? ?]; try done; by eexists.
Qed.

(** What a status request answers: the pane's, or that there is no such pane. *)
Lemma status_answer d id now :
  inv (d_engine d) →
  (is_Some (en_panes (d_engine d) !! id) ∧ ∃ st, get_pane_status d (to_text id) now = Ok st ∧ psx_pane_id st = to_text id) ∨
  (en_panes (d_engine d) !! id = None ∧ get_pane_status d (to_text id) now = Err (not_found (MsgNoSuchPane id))).
Proof.
  intros Hi. unfold get_pane_status, parse_uuid. rewrite parse_to_text. cbn [ok_or]. unfold pane_status_rpc, pane_status.
  pose proof (entry_known d id Hi) as He. destruct (sv_entries _ !! id) as [e|] eqn:E.
  - left. split; [by apply He|]. eexists. split; reflexivity.
  - right. split; [|done]. apply eq_None_not_Some. intros H. by apply He in H as [? ?].
Qed.

Lemma listed_known d s text :
  inv (d_engine d) → s ∈ list_sessions_rpc d → text ∈ proto_session_panes s →
  ∃ id, text = to_text id ∧ is_Some (en_panes (d_engine d) !! id).
Proof.
  intros Hi Hs Ht. destruct (listed_panes_answer d 0 s text Hi Hs Ht) as (id & st & Hid & Hp & Hst & <-). exists id.
  split; [|done]. unfold get_pane_status in Hst. rewrite Hid in Hst. unfold pane_status_rpc in Hst.
  destruct (pane_status _ _ _) as [ps|] eqn:E; [|done]. injection Hst as <-. unfold pane_status in E.
  destruct (sv_entries _ !! id); [|done]. by injection E as <-.
Qed.

(** C29. A target reaches the pane it names. For a session name that is not empty and has no
    colon, and indices of 64 bits: [session:window.pane], written out in decimal, is the pane
    at that place of that window in the daemon's listing when the command asks. If both
    requests of [tymux status] are delivered and the engine is consistent at both, it then
    answers with that pane's status, whatever other clients do between the two, or says that
    the pane is gone, exactly when the daemon no longer has it. *)
Theorem target_reaches_its_pane host net others d session w p s win pane :
  let d0 := others 0%nat d in
  let d1 := others 1%nat d0 in
  inv (d_engine d0) → inv (d_engine d1) → net 0%nat = Delivered → net 1%nat = Delivered →
  session ≠ [] → 58 ∉ session → 0 ≤ w ≤ u64_max → 0 ≤ p ≤ u64_max →
  find_session (list_sessions_rpc d0) session = Ok s → pse_windows s !! Z.to_nat w = Some win → window_panes win !! Z.to_nat p = Some pane →
  ∃ id, px_id pane = to_text id ∧
    ((is_Some (en_panes (d_engine d1) !! id) ∧
       ∃ st, run_command powi default_shell host net others (CStatus (target_text session w p)) (d, 0%nat) = Some ((d1, 2%nat), Ok (PrintStatus st)) ∧
         psx_pane_id st = to_text id) ∨
     (en_panes (d_engine d1) !! id = None ∧
       run_command powi default_shell host net others (CStatus (target_text session w p)) (d, 0%nat) =
         Some ((d1, 2%nat), Err (FromDaemon (not_found (MsgNoSuchPane id)))))).
Proof.
  cbv zeta. intros Hi0 Hi1 Hn0 Hn1 Hs Hc Hw Hp Hf Hwin Hpane.
  assert (Ht : target_resolve (mkTarget session w p) s = Ok pane) by (unfold target_resolve; cbn [ts_window ts_pane]; by rewrite Hwin; cbn [ok_or]; rewrite Hpane).
  destruct (listed_known _ _ _ Hi0 (proj1 (found_session _ _ _ Hf)) (resolved_listed _ _ _ Ht)) as (id & Hid & _).
  exists id. split; [done|]. cbn [run_command]. unfold resolve_text, resolve_target, bind, lift, list_call, status_call, call, ret.
  rewrite target_text_parse by done. cbn [ts_session]. rewrite Hn0. cbn [mbind option_bind map_err]. rewrite Hf, Ht, Hn1, Hid.
  destruct (status_answer (others 1%nat (others 0%nat d)) id (hs_now host) Hi1) as [[Hk (st & Hst & Hps)]|[Hk Hst]]; rewrite Hst; cbn [map_err mbind option_bind].
  - left. split; [done|]. by exists st.
  - right. by split.
Qed.

(** *** Policies *)

(** A policy with the given flags changed. *)
Definition overlay (f : PolicyFlags) (p : RestartPolicy) : RestartPolicy :=
  mkPolicy (default (rp_mode p) (fl_mode f)) (default (rp_max_restarts p) (fl_max_restarts f)) (default (rp_window_ms p) (fl_window_ms f))
    (default (rp_initial_delay_ms p) (fl_initial_delay_ms f)) (default (rp_multiplier p) (fl_multiplier f))
    (default (rp_max_delay_ms p) (fl_max_delay_ms f)) (default (rp_jitter p) (fl_jitter f)) (default (rp_healthy_after_ms p) (fl_healthy_after_ms f)).

Lemma default_or_else {A} (f : option A) x y : default y (or_else f (Some x)) = default x f.
Proof. by destruct f. Qed.

Lemma overlay_on_the_wire f p :
  policy_from_proto (apply_to f (policy_to_proto p)) =
    match validate (overlay f p) with Err e => Err (invalid_argument (MsgPolicy e)) | Ok _ => Ok (overlay f p) end.
Proof.
  unfold policy_from_proto, apply_to, policy_to_proto.
  cbn [pp_mode pp_max_restarts pp_window_ms pp_initial_delay_ms pp_multiplier pp_max_delay_ms pp_jitter pp_healthy_after_ms].
  replace (match fl_mode f with Some m => mode_to_proto m | None => mode_to_proto (rp_mode p) end)
    with (mode_to_proto (default (rp_mode p) (fl_mode f))) by (by destruct (fl_mode f)).
  rewrite mode_roundtrip, !default_or_else. reflexivity.
Qed.

Lemma pane_session (e : Engine B) id : inv e → is_Some (en_panes e !! id) → ∃ sid, session_of_pane e id = Ok sid.
Proof.
  intros Hi Hp. apply (inv_dom _ Hi) in Hp as [wid Hw]. pose proof Hw as (sid & s & w & Hs & Hin & Hwid & _)%(so_pw _ _ (inv_sessions _ Hi)).
  exists sid. unfold session_of_pane, window_and_session_for_pane, window_for_pane, session_for_window. rewrite Hw. cbn [ok_or].
  assert (H : ix_window_session (en_index e) !! wid = Some sid).
  { apply (so_ws _ _ (inv_sessions _ Hi)). exists s. split; [done|]. rewrite <- Hwid. apply list_elem_of_In, in_map, list_elem_of_In, Hin. }
  by rewrite H.
Qed.

Lemma set_policy_policy sup policy : sup_policy (set_policy sup policy) = policy.
Proof. destruct sup. unfold set_policy. cbn. repeat case_match; done. Qed.

Lemma sv_set_policy_spec s id e policy now :
  sv_entries s !! id = Some e →
  match validate policy with
  | Err err => sv_set_policy s id policy now = Err (InvalidRestartPolicy err)
  | Ok _ => ∃ s', sv_set_policy s id policy now = Ok s' ∧ sv_entries s' = <[id := mkEntry (set_policy (e_sup e) policy) (e_pane e)]> (sv_entries s)
  end.
Proof.
  intros He. unfold sv_set_policy. destruct (validate policy); [|done]. cbn [map_err]. rewrite He. cbn [ok_or]. eexists. split; [reflexivity|].
  destruct (upgrade s e) as [[r p]|]; reflexivity.
Qed.

(** [tymux policy] changes what it is told to and nothing else. If both its requests are
    delivered, the engine is consistent and holds the pane when the second is served, and the
    pane's policy then is still the one the first request read, the flags given are laid over
    the pane's current policy. A result that is not valid is refused and leaves the daemon as
    it was; otherwise the pane has exactly that policy afterwards, the answer shows it, and no
    other pane's supervision changes. *)
Theorem policy_command_lays_flags host net others d id f e0 e1 :
  let d0 := others 0%nat d in
  let d1 := others 1%nat d0 in
  inv (d_engine d1) → is_Some (en_panes (d_engine d1) !! id) → net 0%nat = Delivered → net 1%nat = Delivered → flags_empty f = false →
  sv_entries (en_supervision (d_engine d0)) !! id = Some e0 → sv_entries (en_supervision (d_engine d1)) !! id = Some e1 →
  sup_policy (e_sup e1) = sup_policy (e_sup e0) →
  let policy := overlay f (sup_policy (e_sup e1)) in
  match validate policy with
  | Err err => policy_command host net others (to_text id) f false (d, 0%nat) = Some ((d1, 2%nat), Err (FromDaemon (invalid_argument (MsgPolicy err))))
  | Ok _ => ∃ d2 st e2, policy_command host net others (to_text id) f false (d, 0%nat) = Some ((d2, 2%nat), Ok st) ∧
      psx_pane_id st = to_text id ∧ psx_policy st = Some (policy_to_proto policy) ∧
      sv_entries (en_supervision (d_engine d2)) !! id = Some e2 ∧ sup_policy (e_sup e2) = policy ∧
      ∀ id', id' ≠ id → sv_entries (en_supervision (d_engine d2)) !! id' = sv_entries (en_supervision (d_engine d1)) !! id'
  end.
Proof.
  cbv zeta. intros Hi Hp Hn0 Hn1 Hf He He1 ->. set (policy := overlay f (sup_policy (e_sup e0))). set (d1 := others 1%nat (others 0%nat d)) in *.
  destruct (pane_session _ _ Hi Hp) as [sid Hsid].
  pose proof (sv_set_policy_spec (en_supervision (d_engine d1)) id e1 policy (hs_now host) He1) as Hset.
  unfold policy_command, status_call, bind, call, ret. rewrite Hn0, Hf. cbn [mbind option_bind].
  unfold get_pane_status, parse_uuid, pane_status_rpc. rewrite parse_to_text. cbn [ok_or]. unfold pane_status. rewrite He.
  cbn [mbind option_bind map_err status_to_proto ps_view psx_policy default from_option status sv_policy]. fold d1. rewrite Hn1.
  unfold set_restart_policy_rpc. cbn [ok_or]. cbv [from_option Datatypes.id]. rewrite overlay_on_the_wire. fold policy.
  destruct (validate policy) as [[]|err]; [|done]. unfold parse_uuid. rewrite parse_to_text. cbn [ok_or]. unfold set_restart_policy. rewrite Hsid.
  destruct Hset as (sup' & -> & Hsup). pose proof (persist_same (set_supervision (d_engine d1) sup') sid) as (_ & _ & _ & Hsv & _ & _).
  unfold pane_status. rewrite Hsv. replace (en_supervision (set_supervision (d_engine d1) sup')) with sup' in * by (by destruct (d_engine d1)).
  rewrite Hsup, lookup_insert_eq. cbn [mbind option_bind ok_or map_err]. do 3 eexists. split; [reflexivity|]. split; [reflexivity|].
  cbn [status_to_proto ps_view psx_policy status sv_policy e_sup]. rewrite set_policy_policy. split; [reflexivity|].
  replace (en_supervision (d_engine (set_engine d1 (persist_session (set_supervision (d_engine d1) sup') sid)))) with sup' by (symmetry; by destruct d1).
  rewrite Hsup, lookup_insert_eq. split; [reflexivity|]. cbn [e_sup]. rewrite set_policy_policy. split; [done|].
  intros id' Hne. by rewrite lookup_insert_ne.
Qed.
End Commands.

(** A session whose name has a colon is not reached by its name. *)
Lemma colon_name_not_a_target : target_parse (ascii "a:b") = Err NoPanePart.
Proof. reflexivity. Qed.

(** ** Connecting *)

(** The client and the daemon each have their own code for the default path. *)
Lemma default_paths_agree uid env : client_uds_socket_path uid env = default_uds_socket_path uid env.
Proof. unfold client_uds_socket_path, default_uds_socket_path, non_empty. reflexivity. Qed.

Lemma socket_paths_agree args uid env :
  env (ascii "TYMUXD_SOCKET_PATH") ≠ Some [] →
  client_socket_path (flag_value (ascii "--socket-path") args) uid env = resolve_uds_socket_path args uid env.
Proof.
  intros H. unfold client_socket_path, resolve_uds_socket_path. rewrite default_paths_agree. f_equal. f_equal.
  destruct (env _) as [v|]; [|done]. cbn [mbind option_bind]. destruct v; done.
Qed.

(** An empty variable is no path for the daemon and the empty path for the client. *)
Lemma empty_path_differs :
  let env name := if bool_decide (name = ascii "TYMUXD_SOCKET_PATH") then Some [] else None in
  client_socket_path None 1000 env = [] ∧ resolve_uds_socket_path [] 1000 env = ascii "/tmp/tymuxd-1000/tymuxd.sock".
Proof. split; vm_compute; reflexivity. Qed.

(** C30. The client dials the daemon of the same user and is not led past it. With [--addr] it
    dials that address and nothing else. Without it, with the same [--socket-path] and
    environment as the daemon, in which [TYMUXD_SOCKET_PATH] is not set to the empty text, the
    first thing dialled is the socket the daemon binds, and TCP is tried only after that failed
    for another reason than a refused permission, which ends the attempt. The connection is to
    what was dialled last. *)
Theorem client_dials_the_daemons_socket args uid env addr tcp uds tried r :
  dial_channel tcp uds addr (client_socket_path (flag_value (ascii "--socket-path") args) uid env) = (tried, r) →
  (∀ ep, r = Ok ep → last tried = Some ep) ∧
  match addr with
  | Some a => tried = [Tcp a]
  | None =>
      env (ascii "TYMUXD_SOCKET_PATH") ≠ Some [] →
      let path := resolve_uds_socket_path args uid env in
      head tried = Some (Uds path) ∧
      (tried ≠ [Uds path] → ∃ chain, uds path = Err chain ∧ dial_error chain = OtherDialError ∧ tried = [Uds path; Tcp TCP_FALLBACK]) ∧
      (∀ chain, uds path = Err chain → dial_error chain = PermissionDenied → tried = [Uds path] ∧ r = Err NotAuthorizedSocket)
  end.
Proof.
  intros Hd. split.
  - unfold dial_channel in Hd. intros ep ->. repeat case_match; by simplify_eq/=.
  - destruct addr as [a|]; [by injection Hd|]. intros H. rewrite (socket_paths_agree _ _ _ H) in Hd. cbv zeta. revert Hd.
    generalize (resolve_uds_socket_path args uid env). intros path. unfold dial_channel.
    destruct (uds path) as [[]|chain] eqn:E; [by intros [= <- <-]|].
    destruct (dial_error chain) eqn:Hc; intros [= <- <-].
    + split; [done|]. split; [done|]. by intros ? [= <-].
    + split; [done|]. split; [intros _; by exists chain|]. intros ? [= <-]. congruence.
Qed.

(** A denial counts wherever it is below errors that are not of the system. *)
Lemma dial_error_denied chain :
  dial_error chain = PermissionDenied ↔ ∃ above below, chain = above ++ Some true :: below ∧ Forall (λ c, c = None) above.
Proof.
  split.
  - induction chain as [|[[]|] chain IH]; cbn; try done; [intros _; by exists [], chain|]. intros (a & b & -> & Ha)%IH.
    exists (None :: a), b. split; [done|by constructor].
  - intros (a & b & -> & Ha). induction Ha as [|x a -> _ IH]; [done|exact IH].
Qed.

(** A client started with the daemon's options and environment passes its token check. *)
Lemma client_header_accepted valid args env h n :
  client_auth valid (flag_value (ascii "--token") args) env = Ok h →
  match resolve_token args env with Some token => bearer_call token n h = (n, Ok tt) | None => h = None end.
Proof.
  unfold client_auth, resolve_token. assert (Hp : ∀ raw, client_token_parse raw = BearerToken_parse raw) by (by intros []).
  destruct (or_else _ _) as [raw|]; cbn [mbind option_bind]; [|by intros [= <-]]. rewrite Hp.
  destruct (BearerToken_parse raw) as [token|]; unfold BearerAuth_new; [|congruence]. cbv zeta. destruct (valid _); [|done].
  intros H. replace h with (Some (ascii "Bearer " ++ token)) by congruence. unfold bearer_call. cbn [mbind option_bind].
  rewrite (proj2 (strip_prefix_Some (ascii "Bearer ") (ascii "Bearer " ++ token) token) eq_refl). by rewrite bool_decide_eq_true_2.
Qed.

(** ** Captured screens *)

Lemma drop_end_spec {A} (f : A → bool) l :
  ∃ rest, l = drop_end f l ++ rest ∧ Forall (λ x, f x = true) rest ∧ ∀ x, last (drop_end f l) = Some x → f x = false.
Proof.
  induction l as [|x l (rest & Hl & Hr & Hlast)]; [by exists []|]. cbn [drop_end].
  destruct (drop_end f l) as [|y l'] eqn:E.
  - cbn in Hl. subst rest. destruct (f x) eqn:Hx; [exists (x :: l)|exists l].
    + split; [done|]. split; [by constructor|done].
    + split; [done|]. split; [done|]. by intros ? [= <-].
  - exists rest. split; [by rewrite Hl at 1|]. split; [done|]. exact Hlast.
Qed.

(** A capture drops only blanks at the ends of lines and empty lines at the end. *)
Lemma capture_drops_only_blanks snap :
  (∃ rest, row_text <$> sn_grid snap = snapshot_lines snap ++ rest ∧ Forall (λ l, l = []) rest) ∧
  (∀ l, last (snapshot_lines snap) = Some l → l ≠ []) ∧
  ∀ row, row ∈ sn_grid snap → ∃ blanks, flat_map (λ c, match cs_text c with [] => [32] | t => t end) row = row_text row ++ blanks ∧
    Forall (λ c, is_whitespace c = true) blanks ∧ ∀ c, last (row_text row) = Some c → is_whitespace c = false.
Proof.
  destruct (drop_end_spec (λ l, bool_decide (l = [])) (row_text <$> sn_grid snap)) as (rest & Hl & Hr & Hlast). split; [|split].
  - exists rest. split; [exact Hl|]. eapply Forall_impl; [exact Hr|]. intros l ?%bool_decide_eq_true. done.
  - intros l Hll%Hlast%bool_decide_eq_false. done.
  - intros row _. apply drop_end_spec.
Qed.

(** ** Witnesses *)

Definition w_host : Host (B := gmap Uuid PersistedSessionRecord) :=
  mkHost (Ok (w_sp 2 11)) 21%N 31%N w_t w_env (Ok tt) (Ok (w_sp 2 11)) (Ok None) (λ _, []) (λ _, id) 5.
Definition w_net (_ : nat) : Delivery := Delivered.
Definition w_quiet (_ : nat) (d : Daemon (gmap Uuid PersistedSessionRecord)) : Daemon (gmap Uuid PersistedSessionRecord) := d.

(** The listing of [w_daemon]: session [a] with pane 10 in its only window. *)
Lemma w_listing s :
  ∃ ses win pane, find_session (@list_sessions_rpc _ w_uuid_text (w_daemon s)) [97] = Ok ses ∧ pse_windows ses !! Z.to_nat 0 = Some win ∧
    window_panes win !! Z.to_nat 0 = Some pane ∧ px_id pane = [10].
Proof. do 3 eexists. split; [vm_compute; reflexivity|]. split; [vm_compute; reflexivity|]. split; vm_compute; reflexivity. Qed.

Lemma target_reaches_its_pane_witness :
  target_text [97] 0 0 = ascii "a:0.0" ∧
  ∃ s st, @run_command _ _ powi_iter w_shell w_uuid_text w_host w_net w_quiet (CStatus (target_text [97] 0 0)) (w_daemon s, 0%nat) =
    Some ((w_daemon s, 2%nat), Ok (PrintStatus st)) ∧ psx_pane_id st = [10].
Proof.
  split; [reflexivity|]. destruct w_terms as [s _]. exists s. destruct (w_listing s) as (ses & win & pane & Hf & Hw & Hp & Hid).
  destruct (@target_reaches_its_pane _ _ powi_iter w_shell w_uuid_text w_host w_net w_quiet (w_daemon s) [97] 0 0 ses win pane) as
    (id & Hpx & [[_ (st & Hr & Hst)]|[Hn _]]); [exact w_inv|exact w_inv|reflexivity|reflexivity|discriminate| |split; discriminate|split; discriminate
    |exact Hf|exact Hw|exact Hp| |].
  - intros H. apply list_elem_of_singleton in H. discriminate H.
  - exists st. split; [exact Hr|]. rewrite Hst, <- Hpx. exact Hid.
  - exfalso. rewrite Hid in Hpx. assert (E : id = 10%N) by (apply (f_equal (@parse_str w_uuid_text)) in Hpx; rewrite parse_to_text in Hpx; injection Hpx as <-; reflexivity).
    rewrite E in Hn. vm_compute in Hn. discriminate Hn.
Defined.

(** Only the restarts allowed are changed. *)
Definition w_flags : PolicyFlags := mkFlags None (Some 7) None None None None None None.

Lemma w_entry s : ∃ e, sv_entries (en_supervision (d_engine (w_daemon s))) !! 10%N = Some e ∧ sup_policy (e_sup e) = policy_default.
Proof. eexists. split; vm_compute; reflexivity. Qed.
Lemma w_policy_ok : validate (overlay w_flags policy_default) = Ok tt.
Proof. vm_compute. reflexivity. Qed.

Lemma policy_command_lays_flags_witness :
  ∃ s d2 st, @policy_command _ _ w_uuid_text w_host w_net w_quiet [10] w_flags false (w_daemon s, 0%nat) = Some ((d2, 2%nat), Ok st) ∧
    psx_policy st = Some (policy_to_proto (overlay w_flags policy_default)).
Proof.
  destruct w_terms as [s _]. exists s. destruct (w_entry s) as (e & He & Hpol).
  assert (Hk : is_Some (en_panes (d_engine (w_daemon s)) !! 10%N)) by (eexists; vm_compute; reflexivity).
  pose proof (@policy_command_lays_flags _ _ w_uuid_text w_host w_net w_quiet (w_daemon s) 10%N w_flags e e w_inv Hk eq_refl eq_refl eq_refl He He eq_refl) as H.
  cbv zeta in H. rewrite Hpol, w_policy_ok in H. destruct H as (d2 & st & e2 & Hr & _ & Hst & _). exists d2, st. split; [exact Hr|exact Hst].
Defined.

(** Another client's change between the two requests of [tymux policy] is undone: pane 10
    gets back the mode the command read. *)
Definition w_meddle (k : nat) (d : Daemon (gmap Uuid PersistedSessionRecord)) : Daemon (gmap Uuid PersistedSessionRecord) :=
  match k with
  | 1%nat => fst (@set_restart_policy_rpc _ _ w_uuid_text d (Some (TargetPane [10])) (Some (apply_to (mkFlags (Some Always) None None None None None None None) (policy_to_proto policy_default))) false 5)
  | _ => d
  end.

Lemma policy_command_undoes_concurrent_change s :
  (sup_policy ∘ e_sup) <$> sv_entries (en_supervision (d_engine (w_meddle 1 (w_daemon s)))) !! 10%N = Some (overlay (mkFlags (Some Always) None None None None None None None) policy_default) ∧
  (λ r, (sup_policy ∘ e_sup) <$> sv_entries (en_supervision (d_engine (fst (fst r)))) !! 10%N) <$>
    @policy_command _ _ w_uuid_text w_host w_net w_meddle [10] w_flags false (w_daemon s, 0%nat) = Some (Some (overlay w_flags policy_default)).
Proof. split; vm_compute; reflexivity. Qed.

Lemma client_dials_the_daemons_socket_witness :
  let path := ascii "/tmp/tymuxd-1000/tymuxd.sock" in
  let dialled := dial_channel (λ _, true) (λ _, Err [None; Some true]) None (client_socket_path None 1000 (λ _, None)) in
  head (fst dialled) = Some (Uds path) ∧ fst dialled = [Uds path] ∧ snd dialled = Err NotAuthorizedSocket.
Proof.
  destruct (client_dials_the_daemons_socket [] 1000 (λ _, None) None (λ _, true) (λ _, Err [None; Some true]) [Uds (ascii "/tmp/tymuxd-1000/tymuxd.sock")]
    (Err NotAuthorizedSocket)) as (_ & H); [vm_compute; reflexivity|]. destruct (H ltac:(discriminate)) as (H1 & _ & H3).
  destruct (H3 _ eq_refl eq_refl) as [H4 H5]. split; [exact H1|]. split; [exact H4|exact H5].
Defined.
